(* ===== verification/_CoqProject ===== *)
-Q . S2P
Prelude.v
Traps.v
Memory.v
KString.v
Mmu.v
State.v
Kalloc.v
Vm.v
VmTables.v
VmCrypt.v
VmEnc.v
VmClock.v
VmDecrypt.v
VmMap.v
VmCopy.v
UserMem.v
VmExample.v
Encryption.v
Clock.v
ClockProof.v
Proc.v
ProcProof.v
Fork.v
Syscall.v
SyscallProof.v
Exec.v
ExecProof.v
Spinlock.v
Sleeplock.v
Pipe.v
Log.v
LogProof.v
Bio.v
BioProof.v
Fs.v
FsProof.v
FsInode.v
FsDir.v
Ulib.v
Grep.v
Printf.v
Umalloc.v
UmallocProof.v
Shell.v
ShellProof.v
Console.v
ConsoleProof.v
ConsoleInput.v
Keyboard.v
File.v
FileProof.v
Sysfile.v
SysfileProof.v
Mkfs.v
MkfsProof.v
MkfsImage.v
Mp.v
Apic.v
ApicProof.v
Ide.v
IdeProof.v
Boot.v
BootProof.v
Gates.v
X86.v
User.v
UserProgs.v
Machine.v
Usertests.v
UsertestsDir.v
UsertestsMem.v
Testers.v
UserRun.v
Filters.v
KernelFilter.v
EndToEnd.v
Asm.v
AsmKernel.v
AsmBoot.v
UserStep.v
