(* ===== verification/Prelude.v ===== *)
(** * Verification of the xv6 kernel with encrypted user memory

    The program is the x86 teaching kernel xv6 (src/src) with one addition: the
    pages of user processes are kept encrypted (every byte complemented, PTE_P
    cleared, PTE_E set) and are decrypted by the page-fault handler when they are
    used; each process has a clock queue of CLOCKSIZE pages, and a page that
    leaves the queue is encrypted again.  src/clock.c is a stand-alone prototype
    of that queue.

    ** How the code is modelled

    C functions are functions in the monad [M S A] of this file: a state [S] is
    passed along, and an outcome is a result with a state ([Ret]), a call of
    [panic] ([Panic]), an access that C leaves undefined or that the hardware
    rejects ([Fault]), or [OutOfFuel].  Machine integers are [Z], wrapped
    explicitly with [u32], [s32], [u16] and [u8].  Assembly is a list of
    instructions, run by the step function of a processor (X86.v).  What is not
    under src (the linker's symbols, the hardware's accessed and dirty marking, the
    status flags, device registers) is a parameter: the classes [Platform], [FsOps], [SysOps],
    [ExecOps] and [SysArgs], [dev_read]/[dev_write] of the file system, the times
    at which the disk is ready, the host files that [mkfs] copies.

    User programs are trees of system calls ([prog] of User.v), given a meaning
    by a handler: a kernel model, or an interface with laws (Filters.v).

    Loops over a fixed range are structural on that range.  The others carry
    fuel: page-table loops get one unit for each page of the address space they
    can visit, the clock hand's search twice the queue plus one (one full turn
    clears the reference bits, the next finds a victim), [strlen] and the path
    functions the length of the string.  The theorems about such a function say
    that it returns [Ret], so the fuel is enough.  The fuel of a user program's
    read loop is its argument; the theorems ask for one unit more than the file
    has bytes.

    ** Files

    - Prelude, Memory: monad, machine integers, byte-addressed memory.
    - KString (string.c), Mmu (mmu.h, memlayout.h), State (proc.h, the kernel's
      global state [kstate]), Kalloc (kalloc.c).
    - Vm (vm.c, ptentry.h): page tables, user address spaces, [mencrypt],
      [mdecrypt], the clock queue, [getpgtable], and the accesses user and
      kernel code make through the MMU.  VmTables, VmCrypt, VmEnc, VmClock,
      VmDecrypt and UserMem hold its lemmas: the abstract view [pte_of] of a page
      table, the plaintext [plain] of a user page, the relation [crypt_rel]
      (same address space up to encryption) and the queue invariant [cq_ok].
      VmExample is a small concrete address space, Encryption the theorems.
      VmMap and VmCopy have the lemmas on building, freeing and copying address
      spaces, with the free list accounted for.
    - Clock and ClockProof (clock.c): the prototype against the second-chance
      policy on the list of queued pages.
    - Proc and ProcProof (proc.c): process table, scheduling, fork, exit, wait,
      sleep, kill.  Fork: [fork] down to the pages and the free list.
    - Syscall and SyscallProof (syscall.c, sysproc.c, trap.c): arguments, system
      calls of processes and memory, the trap handler.
    - Exec and ExecProof (exec.c, elf.h): loading a program.
    - Spinlock (spinlock.c), Sleeplock (sleeplock.c): step relations over the
      instructions of several CPUs or processes.
    - Pipe (pipe.c): the ring buffer.
    - Log and LogProof (log.c), Bio and BioProof (bio.c, memide.c), Fs, FsProof,
      FsInode and FsDir (fs.c): the storage stack, bottom to top.  The file system
      sees the log's view of the disk: the block as the running transactions wrote
      it.  File and FileProof (file.c, pipealloc), Sysfile and SysfileProof
      (sysfile.c): open files, descriptors and the file system calls.
    - Mkfs, MkfsProof, MkfsImage (mkfs.c): the image builder, and its image as the
      kernel's fs.c reads it.
    - Console, ConsoleProof, ConsoleInput, Keyboard (console.c, kbd.c, uart.c), Mp (mp.c),
      Apic and ApicProof (lapic.c, ioapic.c, picirq.c), Ide and IdeProof (ide.c):
      the drivers, as programs over device registers, logs of port writes and a
      drive with its sectors.
    - Boot and BootProof (bootmain.c), Traps (traps.h), Gates (seginit, tvinit,
      the boot page directory and startothers of main.c).
    - X86: the processor for the assembly.  Asm (swtch.S, trapasm.S, vectors.pl,
      usys.S, initcode.S), AsmBoot (bootasm.S, entry.S, entryother.S, asm.h), and
      AsmKernel, where that code meets the C functions of the model.
    - Ulib (ulib.c), Printf (printf.c), Umalloc and UmallocProof (umalloc.c), Grep
      (grep.c: matcher and line buffer), Shell and ShellProof (sh.c).
    - User (user.h, [stat]): programs as trees of calls.  UserProgs: cat, echo,
      grep, init, kill, ln, ls, mkdir, rm, wc, zombie, forktest and stressfs.
      Usertests, UsertestsDir and UsertestsMem (usertests.c), Testers (tester1.c
      to tester5.c).
    - Machine: processes, as programs with descriptors and memory, over the model
      of the file system calls; UserRun: runs of whole systems on it.
    - Filters: [cat], [wc] and [grep] against the interface of a stream
      ([Source], [Regular], [Sink]); KernelFilter: the file layer of the kernel is
      an instance of it.  EndToEnd: from the command line of mkfs to the console.
    - UserStep: the steps of a user process on the virtual memory system.

    ** What is proved

    - Encryption: [mencrypt] encrypts all of a range or nothing (and dereferences
      a null pointer when the first inaccessible page has no page table); [mdecrypt] makes
      a page present with its plaintext; any sequence of accesses goes through,
      changes no plaintext, and leaves at most CLOCKSIZE pages unencrypted; the
      queue's search terminates.  A page fault is transparent from the user's
      instruction, through the assembly and [trap], back to it; the kernel's own
      reads of system call arguments see plaintext, [argptr] hands out only blocks
      inside the process, and a new image is encrypted by [exec].  Two defects are
      theorems: [cq_remove] can run off the array, and [mdecrypt] of a page that
      is not encrypted complements it.
    - The prototype implements second chance and keeps its queue well formed.
    - Assembly: [swtch] saves a context and returns when it is switched to again; a
      trap from user mode brings every register into the trap frame and back; a
      system call returns its result to the caller of the stub; the stack that
      [allocproc] makes leads through [forkret] and [trapret] into the program;
      the boot code gets to [bootmain], [main] and [mpenter] in the mode, on the
      stack and with the mappings that these expect.
    - Processes: at most one is RUNNING, and it is the one on the CPU; process ids
      are unique as long as [nextpid] does not overflow; the scheduler goes on behind
      the slot it had switched to and runs the first RUNNABLE process from there.
      [fork] makes a runnable child with the registers, files, page flags and
      plaintext of the parent, on frames of its own, or gives back every page.
    - Locks: mutual exclusion in every interleaving, nesting of interrupt
      disabling, no lost wakeup, [kill] included.  Pipes are FIFO.
    - Storage: a crash at any disk write of a commit leaves, after recovery, all
      of the transaction or none; recovery can be interrupted; with a log larger
      than LOGSIZE the log does not overflow, and with the one mkfs makes it can;
      the buffer cache returns current data and recycles the least recently used
      buffer; [writei] then [readi] returns the bytes; [dirlink] then [dirlookup]
      finds the entry; a write through one open file is read through another, and a
      short one is atomic against crashes; in every reachable state the reference
      count of an open file is the number of descriptors that hold it.
    - A file given to mkfs is found in the image, under its name and with its
      bytes, by the kernel's code; [cat], [wc] and [grep] open it by that name, print
      it (or the counts, or the matching lines) on the console, and close it.
    - Devices: the IDE driver refines a server that takes one request at a time;
      the console's interrupt handler is a line editor; the keyboard's types the
      characters of a US keyboard and stays inside its tables; the boot loader puts
      the kernel's segments in place.
    - User library: [malloc] and [free] keep an allocator invariant, and [malloc]
      fails only when the kernel refuses it memory; [printint]
      stays in its buffer; the matcher of grep accepts the language of the
      pattern; the shell's parser inverts a printer, and [runcmd] sets up the
      plumbing that a command means.
    - User programs on the kernel: [cat], [wc] and [grep] of an open file put on the
      console the bytes, the counts and the matching lines of the file.  The proof
      is against the interface of Filters.v, which the system calls are shown to
      satisfy.  Evaluated runs (UserRun.v) start from an image that the model of
      mkfs builds and go through init: tests of usertests.c, tester3.c, and a
      session of the shell.  The tests are run one by one; [writetest1], [bigwrite],
      [sharedfd], [fourfiles], [concreate], [bigdir], [sbrktest], [fsfull] and the
      other testers are translated but not evaluated, for the time it takes.
    - The loops of the testers that fill and check a page, with each load and store
      through the page tables, end and agree (UserStep.v).

    ** What is not modelled

    The C functions and the assembly are run by different models, which share the
    RAM: what a C function does to its own stack is left open, and the models of C
    functions are cut at [swtch] into turns.  The processor has no segment limits
    and does not check a selector that is loaded.  [main], [mpenter] and [mpmain] of main.c only call the
    initialisers in sequence; their states are separate here (memory and
    processes in [kstate], files in [kfs], each driver its own), so the sequence
    has no common state to act on.  defs.h holds declarations only.

    Processes of Proc.v run on one CPU, one turn between context switches at a
    time; the interleaving inside the lock functions is the subject of Spinlock
    and Sleeplock.  Machine.v interleaves processes at their system calls.  It
    counts the pages of a process, not those of page tables and kernel stacks, and
    takes the program that a file holds from a table; page tables, encryption and
    the loading of a program are the subjects of Vm, Encryption and Exec.  The
    kernel's own messages do not appear on its console. *)

From stdpp Require Export base gmap list strings.
From Stdlib Require Export ZArith Lia.
#[global] Open Scope Z_scope.

(** ** C integers

    A 32-bit [uint] is a [Z] in [0, 2^32); every operation that can leave
    that range is wrapped explicitly with [u32].  A 32-bit [int] is a [Z] in
    [-2^31, 2^31), obtained with [s32]. *)

Definition u32 (x : Z) : Z := x mod 4294967296.
Definition u16 (x : Z) : Z := x mod 65536.
Definition u8 (x : Z) : Z := x mod 256.
Definition s32 (x : Z) : Z := (x + 2147483648) mod 4294967296 - 2147483648.
Definition s16 (x : Z) : Z := (x + 32768) mod 65536 - 32768.
Definition s8 (x : Z) : Z := (x + 128) mod 256 - 128.

Lemma u32_range x : 0 <= u32 x < 4294967296.
Proof. unfold u32. apply Z.mod_pos_bound. lia. Qed.

Lemma u32_small x : 0 <= x < 4294967296 -> u32 x = x.
Proof. apply Z.mod_small. Qed.

Lemma u32_u32 x : u32 (u32 x) = u32 x.
Proof. apply u32_small, u32_range. Qed.

Lemma u8_range x : 0 <= u8 x < 256.
Proof. unfold u8. apply Z.mod_pos_bound. lia. Qed.

Lemma u8_small x : 0 <= x < 256 -> u8 x = x.
Proof. apply Z.mod_small. Qed.

Lemma s32_range x : -2147483648 <= s32 x < 2147483648.
Proof. unfold s32. pose proof (Z.mod_pos_bound (x + 2147483648) 4294967296). lia. Qed.

Lemma s32_small x : -2147483648 <= x < 2147483648 -> s32 x = x.
Proof. intros. unfold s32. rewrite Z.mod_small; lia. Qed.

Lemma u32_add_u32_l a b : u32 (u32 a + b) = u32 (a + b).
Proof. unfold u32. apply Zplus_mod_idemp_l. Qed.

Lemma u32_add_u32_r a b : u32 (a + u32 b) = u32 (a + b).
Proof. unfold u32. apply Zplus_mod_idemp_r. Qed.

Create HintDb cint discriminated.
#[export] Hint Resolve u32_range u8_range s32_range : cint.
Create Rewrite HintDb cint.
#[export] Hint Rewrite u32_u32 u32_add_u32_l u32_add_u32_r : cint.

(** ** Kernel outcomes

    A kernel function runs on a state and ends in one of four ways: it
    returns, it calls [panic], it performs an access the C code gives no
    meaning to (a null or out-of-bounds access, an unexpected hardware
    fault), or the model's fuel ran out (only for loops whose bound is not
    structural; the development proves that this does not happen). *)

Inductive outcome (S A : Type) : Type :=
| Ret (a : A) (s : S)
| Panic (msg : string)
| Fault (msg : string)
| OutOfFuel.
Arguments Ret {S A} a s.
Arguments Panic {S A} msg.
Arguments Fault {S A} msg.
Arguments OutOfFuel {S A}.

Definition M (S A : Type) : Type := S -> outcome S A.

Definition ret {S A} (a : A) : M S A := fun s => Ret a s.
Definition bind {S A B} (m : M S A) (f : A -> M S B) : M S B :=
  fun s => match m s with
           | Ret a s' => f a s'
           | Panic msg => Panic msg
           | Fault msg => Fault msg
           | OutOfFuel => OutOfFuel
           end.
Definition panic {S A} (msg : string) : M S A := fun _ => Panic msg.
Definition fault {S A} (msg : string) : M S A := fun _ => Fault msg.
Definition get {S} : M S S := fun s => Ret s s.
Definition gets {S A} (f : S -> A) : M S A := fun s => Ret (f s) s.
Definition modify {S} (f : S -> S) : M S unit := fun s => Ret tt (f s).

Declare Scope kernel_scope.
Delimit Scope kernel_scope with kernel.
Notation "'let*' x := m 'in' k" := (bind m (fun x => k))
  (at level 10, x pattern, m at level 100, k at level 200) : kernel_scope.
Notation "'do*' m 'in' k" := (bind m (fun _ => k))
  (at level 10, m at level 100, k at level 200) : kernel_scope.
#[global] Open Scope kernel_scope.

Section MonadLemmas.
Context {S A B : Type}.

Lemma bind_Ret (m : M S A) (f : A -> M S B) s a s' :
  m s = Ret a s' -> bind m f s = f a s'.
Proof. unfold bind. by intros ->. Qed.

Lemma bind_inv (m : M S A) (f : A -> M S B) s b s'' :
  bind m f s = Ret b s'' -> exists a s', m s = Ret a s' /\ f a s' = Ret b s''.
Proof. unfold bind. destruct (m s); naive_solver. Qed.

Lemma bind_assoc {C} (m : M S A) (f : A -> M S B) (g : B -> M S C) s :
  bind (bind m f) g s = bind m (fun a => bind (f a) g) s.
Proof. unfold bind. by destruct (m s). Qed.
End MonadLemmas.

(** [kstep] runs one monadic action whose result is a hypothesis or
    computes; [kinv H] splits a successful run into its actions. *)
Ltac kstep :=
  match goal with
  | |- context [bind ?m ?f ?s] =>
      first
        [ match goal with H : m s = Ret _ _ |- _ => rewrite (bind_Ret m f s _ _ H) end
        | erewrite (bind_Ret m f s) by reflexivity ];
      cbn beta iota
  end.

Ltac kinv H :=
  let a := fresh "a" in let s := fresh "s" in let E := fresh "E" in
  apply bind_inv in H; destruct H as (a & s & E & H); cbn beta iota in H.

(** ** Iteration *)

Fixpoint for_n {S} (n : nat) (i : Z) (body : Z -> M S unit) : M S unit :=
  match n with
  | O => ret tt
  | Datatypes.S n' => do* body i in for_n n' (i + 1) body
  end.

(** ** Lists indexed by Z *)

Definition zget {A} (l : list A) (i : Z) : option A :=
  if i <? 0 then None else l !! Z.to_nat i.

Definition zset {A} (l : list A) (i : Z) (x : A) : option (list A) :=
  if (0 <=? i) && (i <? Z.of_nat (length l)) then Some (<[Z.to_nat i := x]> l) else None.

Lemma zget_Some {A} (l : list A) i x :
  zget l i = Some x -> 0 <= i < Z.of_nat (length l) /\ l !! Z.to_nat i = Some x.
Proof.
  unfold zget. destruct (Z.ltb_spec i 0); [done|]. intros Hl. split; [|done].
  apply lookup_lt_Some in Hl. lia.
Qed.

Lemma zget_nat {A} (l : list A) (i : nat) : zget l (Z.of_nat i) = l !! i.
Proof. unfold zget. destruct (Z.ltb_spec (Z.of_nat i) 0); [lia|]. by rewrite Nat2Z.id. Qed.

Lemma zset_Some {A} (l l' : list A) i x :
  zset l i x = Some l' -> 0 <= i < Z.of_nat (length l) /\ l' = <[Z.to_nat i := x]> l.
Proof. unfold zset. case_match eqn:E; naive_solver lia. Qed.

(** ** Bits *)

Lemma land_pow2_eqb x k :
  0 <= k -> (Z.land x (2 ^ k) =? 0) = negb (Z.testbit x k).
Proof.
  intros Hk. destruct (Z.testbit x k) eqn:E; simpl.
  - apply Z.eqb_neq. intros H. apply (f_equal (fun z => Z.testbit z k)) in H.
    rewrite Z.land_spec, Z.pow2_bits_true, E, Z.testbit_0_l in H; done.
  - apply Z.eqb_eq, Z.bits_inj'. intros n Hn.
    rewrite Z.land_spec, Z.testbit_0_l, Z.pow2_bits_eqb by done.
    destruct (Z.eqb_spec k n); [subst; by rewrite E | apply andb_false_r].
Qed.

Lemma testbit_high x k n : 0 <= k -> 0 <= x < 2 ^ k -> k <= n -> Z.testbit x n = false.
Proof.
  intros Hk Hx Hn. destruct (Z.eq_dec x 0) as [->|]; [apply Z.testbit_0_l|].
  apply Z.bits_above_log2; [lia|]. apply Z.lt_le_trans with k; [|done].
  apply Z.log2_lt_pow2; lia.
Qed.

Lemma land_shiftl_low c x k :
  0 <= k -> 0 <= x < 2 ^ k -> Z.land (Z.shiftl c k) x = 0.
Proof.
  intros Hk Hx. apply Z.bits_inj'. intros n Hn. rewrite Z.land_spec, Z.testbit_0_l.
  destruct (Z.lt_ge_cases n k).
  - by rewrite Z.shiftl_spec_low.
  - rewrite (testbit_high x k n) by done. apply andb_false_r.
Qed.

(** A disjoint [|] is an addition. *)
Lemma lor_shiftl_add c x k :
  0 <= k -> 0 <= x < 2 ^ k -> Z.lor (Z.shiftl c k) x = c * 2 ^ k + x.
Proof.
  intros Hk Hx. rewrite <- Z.shiftl_mul_pow2 by done.
  pose proof (land_shiftl_low c x k Hk Hx) as H.
  by rewrite Z.add_nocarry_lxor, Z.lxor_lor.
Qed.

(** ** Counting *)

(** Fewer elements pass a test that is stronger and strictly so somewhere. *)
Lemma filter_length_lt {A} (f g : A -> bool) (l : list A) (x : A) :
  (forall y, y ∈ l -> g y = true -> f y = true) -> x ∈ l -> f x = true -> g x = false ->
  (length (List.filter g l) < length (List.filter f l))%nat.
Proof.
  intros Hgf Hx Hf Hg.
  assert (Hle : forall k, (forall y, y ∈ k -> g y = true -> f y = true) ->
    (length (List.filter g k) <= length (List.filter f k))%nat).
  { induction k as [|y k IH]; intros H; simpl; [lia|].
    pose proof (H y ltac:(left)) as Hy.
    assert (length (List.filter g k) <= length (List.filter f k))%nat
      by (apply IH; intros z Hz; apply H; by right).
    destruct (g y); [rewrite Hy by done; simpl; lia|]. destruct (f y); simpl; lia. }
  induction l as [|y l IH]; [by apply not_elem_of_nil in Hx|].
  apply elem_of_cons in Hx as [->|Hx]; simpl.
  - rewrite Hf, Hg. simpl. assert (H := Hle l ltac:(intros z Hz; apply Hgf; by right)). lia.
  - pose proof (Hgf y ltac:(left)) as Hy.
    assert (H := IH ltac:(intros z Hz; apply Hgf; by right) Hx).
    destruct (g y); [rewrite Hy by done; simpl; lia|]. destruct (f y); simpl; lia.
Qed.
