(* ===== verification/Traps.v ===== *)
(** * Trap and interrupt numbers (traps.h)

    Shared by the trap handler, the interrupt controllers, the devices and the
    descriptor table. *)
From S2P Require Import Prelude.

Definition T_PGFLT : Z := 14.
Definition T_SYSCALL : Z := 64.
Definition T_IRQ0 : Z := 32.
Definition IRQ_TIMER : Z := 0.
Definition IRQ_KBD : Z := 1.
Definition IRQ_COM1 : Z := 4.
Definition IRQ_IDE : Z := 14.
Definition IRQ_ERROR : Z := 19.
Definition IRQ_SPURIOUS : Z := 31.
