(* ===== verification/Memory.v ===== *)
(** * Physical memory

    The machine's RAM as a total map from physical byte addresses to bytes,
    with the little-endian 16- and 32-bit accesses the kernel performs.  A
    cell that was never written reads as 0; both the stored and the loaded
    value are taken modulo 256, so every memory is a memory of bytes. *)
From S2P Require Import Prelude.

Notation mem := (gmap Z Z).

Definition read8 (m : mem) (a : Z) : Z := u8 (default 0 (m !! a)).
Definition write8 (m : mem) (a v : Z) : mem := <[a := u8 v]> m.

Definition read16 (m : mem) (a : Z) : Z := read8 m a + 256 * read8 m (a + 1).
Definition write16 (m : mem) (a v : Z) : mem :=
  write8 (write8 m a v) (a + 1) (v / 256).

Definition read32 (m : mem) (a : Z) : Z :=
  read8 m a + 256 * read8 m (a + 1) + 65536 * read8 m (a + 2) + 16777216 * read8 m (a + 3).
Definition write32 (m : mem) (a v : Z) : mem :=
  write8 (write8 (write8 (write8 m a v) (a + 1) (v / 256)) (a + 2) (v / 65536))
    (a + 3) (v / 16777216).

(** Two memories are the same when every byte read is the same; the finite
    map underneath may still differ (a stored 0 and an absent cell). *)
Definition mem_eq (m1 m2 : mem) : Prop := forall a, read8 m1 a = read8 m2 a.
Infix "=m=" := mem_eq (at level 70).

#[export] Instance mem_eq_equivalence : Equivalence mem_eq.
Proof.
  split; [done| by intros ? ? H a; rewrite H | intros ? ? ? H1 H2 a; by rewrite H1].
Qed.

(** Agreement of two memories on a set of addresses. *)
Definition agree (P : Z -> Prop) (m1 m2 : mem) : Prop :=
  forall a, P a -> read8 m1 a = read8 m2 a.

Definition in_range (lo len a : Z) : Prop := lo <= a < lo + len.

Section Lemmas.
Implicit Types (m : mem) (a b v : Z).

Lemma read8_range m a : 0 <= read8 m a < 256.
Proof. apply u8_range. Qed.

Lemma read8_write8 m a b v :
  read8 (write8 m a v) b = if decide (a = b) then u8 v else read8 m b.
Proof.
  unfold read8, write8. case_decide as E.
  - subst. rewrite lookup_insert_eq. simpl. apply u8_small, u8_range.
  - by rewrite lookup_insert_ne.
Qed.

Lemma read8_write8_eq m a v : read8 (write8 m a v) a = u8 v.
Proof. rewrite read8_write8. by case_decide. Qed.

Lemma read8_write8_ne m a b v : a <> b -> read8 (write8 m a v) b = read8 m b.
Proof. rewrite read8_write8. by case_decide. Qed.

Lemma read32_range m a : 0 <= read32 m a < 4294967296.
Proof.
  unfold read32. pose proof (read8_range m a). pose proof (read8_range m (a+1)).
  pose proof (read8_range m (a+2)). pose proof (read8_range m (a+3)). lia.
Qed.

Lemma read8_write32_ne m a b v :
  ~ in_range a 4 b -> read8 (write32 m a v) b = read8 m b.
Proof.
  unfold in_range, write32. intros H. by rewrite !read8_write8_ne by lia.
Qed.

Lemma read32_ext m m' a :
  agree (in_range a 4) m m' -> read32 m a = read32 m' a.
Proof.
  unfold agree, in_range, read32. intros H.
  by rewrite (H a), (H (a+1)), (H (a+2)), (H (a+3)) by lia.
Qed.

Lemma read32_write8_ne m a b v :
  ~ in_range b 4 a -> read32 (write8 m a v) b = read32 m b.
Proof.
  unfold in_range. intros H. apply read32_ext. intros x Hx. unfold in_range in Hx.
  apply read8_write8_ne. lia.
Qed.

Lemma read32_write32_ne m a b v :
  a + 4 <= b \/ b + 4 <= a -> read32 (write32 m a v) b = read32 m b.
Proof.
  intros H. apply read32_ext. intros x Hx. unfold in_range in Hx.
  apply read8_write32_ne. unfold in_range. lia.
Qed.

Lemma read32_write32_eq m a v :
  0 <= v < 4294967296 -> read32 (write32 m a v) a = v.
Proof.
  intros Hv. unfold read32, write32.
  rewrite !read8_write8. repeat case_decide; try lia.
  unfold u8. change 65536 with (256 * 256). change 16777216 with (256 * 256 * 256).
  rewrite <- !Z.div_div by lia.
  pose proof (Z.div_mod v 256). pose proof (Z.div_mod (v/256) 256).
  pose proof (Z.div_mod (v/256/256) 256).
  rewrite (Z.mod_small (v / 256 / 256 / 256)); [lia|].
  rewrite !Z.div_div by lia. split; [apply Z.div_pos; lia|].
  apply Z.div_lt_upper_bound; lia.
Qed.

Lemma read16_range m a : 0 <= read16 m a < 65536.
Proof.
  unfold read16. pose proof (read8_range m a). pose proof (read8_range m (a+1)). lia.
Qed.

Lemma read8_write16_ne m a b v : b < a \/ a + 2 <= b -> read8 (write16 m a v) b = read8 m b.
Proof. intros H. unfold write16. rewrite !read8_write8_ne by lia. done. Qed.

Lemma read16_ext m m' a : (forall b, a <= b < a + 2 -> read8 m b = read8 m' b) -> read16 m a = read16 m' a.
Proof. intros H. unfold read16. rewrite !H by lia. done. Qed.

Lemma read16_write16_eq m a v : read16 (write16 m a v) a = v mod 65536.
Proof.
  unfold read16, write16. rewrite read8_write8_ne, !read8_write8_eq by lia. unfold u8.
  Z.div_mod_to_equations. lia.
Qed.

Lemma s16_u16 v : -32768 <= v < 32768 -> s16 (v mod 65536) = v.
Proof. intros H. unfold s16. Z.div_mod_to_equations. lia. Qed.

Lemma agree_refl P m : agree P m m.
Proof. done. Qed.

Lemma agree_trans P m1 m2 m3 : agree P m1 m2 -> agree P m2 m3 -> agree P m1 m3.
Proof. intros H1 H2 a Ha. by rewrite (H1 a Ha), (H2 a Ha). Qed.

Lemma agree_sym P m1 m2 : agree P m1 m2 -> agree P m2 m1.
Proof. intros H a Ha. by rewrite (H a Ha). Qed.

Lemma agree_weaken (P Q : Z -> Prop) m1 m2 :
  (forall a, Q a -> P a) -> agree P m1 m2 -> agree Q m1 m2.
Proof. intros HQ H a Ha. auto. Qed.

Lemma agree_write8 (P : Z -> Prop) m a v : ~ P a -> agree P (write8 m a v) m.
Proof. intros HP b Hb. apply read8_write8_ne. congruence. Qed.

Lemma agree_write32 (P : Z -> Prop) m a v :
  (forall b, in_range a 4 b -> ~ P b) -> agree P (write32 m a v) m.
Proof. intros HP b Hb. apply read8_write32_ne. intros ?. by eapply HP. Qed.

Lemma read32_agree (P : Z -> Prop) m m' a :
  agree P m m' -> (forall b, in_range a 4 b -> P b) -> read32 m a = read32 m' a.
Proof. intros H HP. apply read32_ext. intros b Hb. auto. Qed.
End Lemmas.

#[export] Instance read8_proper : Proper (mem_eq ==> eq ==> eq) read8.
Proof. intros m1 m2 H a ? <-. apply H. Qed.

#[export] Instance read32_proper : Proper (mem_eq ==> eq ==> eq) read32.
Proof. intros m1 m2 H a ? <-. apply read32_ext. intros b _. apply H. Qed.

#[export] Instance write8_proper : Proper (mem_eq ==> eq ==> eq ==> mem_eq) write8.
Proof.
  intros m1 m2 H a ? <- v ? <- b. rewrite !read8_write8. case_decide; [done|apply H].
Qed.

#[export] Instance write32_proper : Proper (mem_eq ==> eq ==> eq ==> mem_eq) write32.
Proof. intros m1 m2 H a ? <- v ? <-. unfold write32. by repeat apply write8_proper. Qed.

Create HintDb mem discriminated.
#[export] Hint Resolve read8_range read16_range read32_range agree_refl : mem.
Create Rewrite HintDb mem.
#[export] Hint Rewrite read8_write8_eq : mem.
#[export] Hint Rewrite read8_write8_ne read32_write32_eq using lia : mem.
