(* ===== verification/KString.v ===== *)
(** * The kernel's string library (string.c)

    The functions of [src/src/string.c] (and the [stosb]/[stosl] string
    stores of [x86.h] they use) on flat memory.  Pointers are addresses;
    [uint] counts that drive a [while(n-- > 0)] loop give the structural
    recursion.  Loops that run up to a NUL byte take fuel. *)
From S2P Require Import Prelude Memory.

(** ** Definitions *)

Fixpoint stosb (m : mem) (addr data : Z) (cnt : nat) : mem :=
  match cnt with
  | O => m
  | S k => stosb (write8 m addr data) (addr + 1) data k
  end.

Fixpoint stosl (m : mem) (addr data : Z) (cnt : nat) : mem :=
  match cnt with
  | O => m
  | S k => stosl (write32 m addr data) (addr + 4) data k
  end.

Definition memset (m : mem) (dst c n : Z) : mem :=
  if (dst mod 4 =? 0) && (n mod 4 =? 0) then
    let c := Z.land c 255 in
    stosl m dst
      (u32 (Z.lor (Z.lor (Z.lor (Z.shiftl c 24) (Z.shiftl c 16)) (Z.shiftl c 8)) c))
      (Z.to_nat (n / 4))
  else stosb m dst c (Z.to_nat n).

Fixpoint memcmp_loop (m : mem) (s1 s2 : Z) (n : nat) : Z :=
  match n with
  | O => 0
  | S k =>
      if read8 m s1 =? read8 m s2 then memcmp_loop m (s1 + 1) (s2 + 1) k
      else read8 m s1 - read8 m s2
  end.

Definition memcmp (m : mem) (v1 v2 n : Z) : Z := memcmp_loop m v1 v2 (Z.to_nat n).

(** [while(n-- > 0) *d++ = *s++;] *)
Fixpoint copy_fwd (m : mem) (d s : Z) (n : nat) : mem :=
  match n with
  | O => m
  | S k => copy_fwd (write8 m d (read8 m s)) (d + 1) (s + 1) k
  end.

(** [while(n-- > 0) *--d = *--s;] *)
Fixpoint copy_bwd (m : mem) (d s : Z) (n : nat) : mem :=
  match n with
  | O => m
  | S k => copy_bwd (write8 m (d - 1) (read8 m (s - 1))) (d - 1) (s - 1) k
  end.

Definition memmove (m : mem) (dst src n : Z) : mem :=
  if (src <? dst) && (dst <? u32 (src + n)) then
    copy_bwd m (dst + n) (src + n) (Z.to_nat n)
  else copy_fwd m dst src (Z.to_nat n).

Definition memcpy (m : mem) (dst src n : Z) : mem := memmove m dst src n.

Fixpoint strncmp_loop (m : mem) (p q : Z) (n : nat) : Z :=
  match n with
  | O => 0
  | S k =>
      if negb (read8 m p =? 0) && (read8 m p =? read8 m q)
      then strncmp_loop m (p + 1) (q + 1) k
      else read8 m p - read8 m q
  end.

Definition strncmp (m : mem) (p q n : Z) : Z := strncmp_loop m p q (Z.to_nat n).

(** First loop of [strncpy]: copies until the NUL has been copied or [n]
    bytes are written; returns the next destination and what is left of [n]. *)
Fixpoint strncpy_copy (m : mem) (s t : Z) (n : nat) : mem * Z * nat :=
  match n with
  | O => (m, s, O)
  | S k =>
      let c := read8 m t in
      let m' := write8 m s c in
      if c =? 0 then (m', s + 1, k) else strncpy_copy m' (s + 1) (t + 1) k
  end.

Definition strncpy (m : mem) (s t n : Z) : mem :=
  let '(m', s', k) := strncpy_copy m s t (Z.to_nat n) in stosb m' s' 0 k.

(** The loop of [safestrcpy] after [--n]: at most [n] bytes are copied. *)
Fixpoint safestrcpy_copy (m : mem) (s t : Z) (n : nat) : mem * Z :=
  match n with
  | O => (m, s)
  | S k =>
      let c := read8 m t in
      let m' := write8 m s c in
      if c =? 0 then (m', s + 1) else safestrcpy_copy m' (s + 1) (t + 1) k
  end.

Definition safestrcpy (m : mem) (s t n : Z) : mem :=
  if n <=? 0 then m
  else let '(m', s') := safestrcpy_copy m s t (Z.to_nat (n - 1)) in write8 m' s' 0.

Fixpoint strlen_loop (m : mem) (s : Z) (n : Z) (fuel : nat) : option Z :=
  match fuel with
  | O => None
  | S k => if read8 m (s + n) =? 0 then Some n else strlen_loop m s (n + 1) k
  end.

(** The fuel covers the whole address space: a string longer than that does
    not exist. *)
Definition strlen (m : mem) (s : Z) (fuel : nat) : option Z := strlen_loop m s 0 fuel.

(** ** Block stores *)

Lemma read8_stosb m addr data cnt a :
  read8 (stosb m addr data cnt) a =
  if decide (in_range addr (Z.of_nat cnt) a) then u8 data else read8 m a.
Proof.
  unfold in_range. revert m addr. induction cnt as [|k IH]; intros m addr; simpl stosb.
  - case_decide; [lia|done].
  - rewrite IH, read8_write8. repeat case_decide; done || lia.
Qed.

(** A word whose four bytes are all [c]. *)
Lemma read8_write32_rep m addr c b :
  0 <= c < 256 ->
  read8 (write32 m addr (c * 16843009)) b =
  if decide (in_range addr 4 b) then c else read8 m b.
Proof.
  intros Hc. unfold in_range, write32. rewrite !read8_write8.
  repeat case_decide; try lia; unfold u8; Z.div_mod_to_equations; lia.
Qed.

Lemma read8_stosl m addr c cnt a :
  0 <= c < 256 ->
  read8 (stosl m addr (c * 16843009) cnt) a =
  if decide (in_range addr (4 * Z.of_nat cnt) a) then c else read8 m a.
Proof.
  intros Hc. revert m addr. induction cnt as [|k IH]; intros m addr; simpl stosl.
  - unfold in_range. case_decide; [lia|done].
  - rewrite IH, read8_write32_rep by done. unfold in_range.
    repeat case_decide; done || lia.
Qed.

Lemma memset_word c :
  0 <= c < 256 ->
  u32 (Z.lor (Z.lor (Z.lor (Z.shiftl c 24) (Z.shiftl c 16)) (Z.shiftl c 8)) c) = c * 16843009.
Proof.
  intros Hc.
  rewrite <- !Z.lor_assoc, (lor_shiftl_add c c 8), (lor_shiftl_add c _ 16),
    (lor_shiftl_add c _ 24) by lia.
  rewrite u32_small; lia.
Qed.

Lemma read8_memset m dst c n a :
  0 <= n ->
  read8 (memset m dst c n) a = if decide (in_range dst n a) then u8 c else read8 m a.
Proof.
  intros Hn. unfold memset. destruct (_ && _) eqn:E.
  - apply andb_true_iff in E as [_ E%Z.eqb_eq].
    change 255 with (Z.ones 8). rewrite Z.land_ones by lia. change (2 ^ 8) with 256.
    pose proof (Z.mod_pos_bound c 256). rewrite memset_word by lia.
    rewrite read8_stosl by lia. unfold in_range, u8.
    rewrite Z2Nat.id by (apply Z.div_pos; lia).
    replace (4 * (n / 4)) with n by (apply Z_div_exact_2; lia). done.
  - rewrite read8_stosb, Z2Nat.id by lia. done.
Qed.

(** ** memmove *)

(** The forward loop is right when the destination does not start inside the
    source, the backward loop when it does not end inside it. *)
Lemma read8_copy_fwd m d s n a :
  d <= s \/ s + Z.of_nat n <= d ->
  read8 (copy_fwd m d s n) a =
  if decide (in_range d (Z.of_nat n) a) then read8 m (s + (a - d)) else read8 m a.
Proof.
  unfold in_range. revert m d s. induction n as [|k IH]; intros m d s H; simpl copy_fwd.
  - case_decide; [lia|done].
  - rewrite IH by lia. rewrite !read8_write8, u8_small by apply read8_range.
    repeat case_decide; try lia; try done; f_equal; lia.
Qed.

Lemma read8_copy_bwd m d s n a :
  s <= d ->
  read8 (copy_bwd m d s n) a =
  if decide (in_range (d - Z.of_nat n) (Z.of_nat n) a) then read8 m (s + (a - d)) else read8 m a.
Proof.
  unfold in_range. revert m d s. induction n as [|k IH]; intros m d s H; simpl copy_bwd.
  - case_decide; [lia|done].
  - rewrite IH by lia. rewrite !read8_write8, u8_small by apply read8_range.
    repeat case_decide; try lia; try done; f_equal; lia.
Qed.

Lemma read8_memmove m dst src n a :
  0 <= n -> 0 <= src -> src + n < 4294967296 ->
  read8 (memmove m dst src n) a =
  if decide (in_range dst n a) then read8 m (src + (a - dst)) else read8 m a.
Proof.
  intros Hn Hs Hsn. unfold memmove. rewrite (u32_small (src + n)) by lia.
  destruct (_ && _) eqn:E.
  - rewrite read8_copy_bwd, Z2Nat.id by lia.
    replace (dst + n - n) with dst by lia.
    case_decide; [f_equal; lia|done].
  - rewrite read8_copy_fwd by lia. by rewrite Z2Nat.id.
Qed.

(** ** memcmp *)

Lemma memcmp_loop_zero m s1 s2 n :
  memcmp_loop m s1 s2 n = 0 <->
  (forall i, 0 <= i < Z.of_nat n -> read8 m (s1 + i) = read8 m (s2 + i)).
Proof.
  revert s1 s2. induction n as [|k IH]; intros s1 s2; simpl memcmp_loop.
  - split; [intros; lia|done].
  - destruct (Z.eqb_spec (read8 m s1) (read8 m s2)) as [E|E].
    + rewrite IH. split; intros H i Hi.
      * destruct (Z.eq_dec i 0) as [->|]; [by rewrite !Z.add_0_r|].
        specialize (H (i - 1)). replace (s1 + i) with (s1 + 1 + (i - 1)) by lia.
        replace (s2 + i) with (s2 + 1 + (i - 1)) by lia. apply H. lia.
      * specialize (H (i + 1)). replace (s1 + 1 + i) with (s1 + (i + 1)) by lia.
        replace (s2 + 1 + i) with (s2 + (i + 1)) by lia. apply H. lia.
    + split; [lia|]. intros H. specialize (H 0). rewrite !Z.add_0_r in H. lia.
Qed.

(** ** String copies *)

(** The number of bytes [strncpy]/[safestrcpy] take from [t]: up to and
    including the NUL, at most [n]. *)
Fixpoint str_take (m : mem) (t : Z) (n : nat) : nat :=
  match n with
  | O => O
  | S k => if read8 m t =? 0 then 1%nat else S (str_take m (t + 1) k)
  end.

Lemma str_take_le m t n : (str_take m t n <= n)%nat.
Proof. revert t. induction n as [|k IH]; intros t; simpl; [lia|]. case_match; [lia|]. specialize (IH (t+1)). lia. Qed.

Lemma str_take_agree m m' t n :
  agree (in_range t (Z.of_nat n)) m m' -> str_take m t n = str_take m' t n.
Proof.
  revert t. induction n as [|k IH]; intros t H; simpl; [done|].
  rewrite (H t) by (unfold in_range; lia). case_match; [done|]. f_equal. apply IH.
  eapply agree_weaken, H. unfold in_range. lia.
Qed.

Definition apart (s t n : Z) : Prop := s + n <= t \/ t + n <= s.

Lemma strncpy_copy_spec m s t n :
  apart s t (Z.of_nat n) ->
  exists m', strncpy_copy m s t n =
    (m', s + Z.of_nat (str_take m t n), (n - str_take m t n)%nat) /\
  forall a, read8 m' a =
    if decide (in_range s (Z.of_nat (str_take m t n)) a) then read8 m (t + (a - s)) else read8 m a.
Proof.
  unfold in_range, apart. revert m s t. induction n as [|k IH]; intros m s t H.
  - exists m. simpl. split; [by rewrite Z.add_0_r|]. intros a. case_decide; [lia|done].
  - cbn [strncpy_copy str_take]. destruct (Z.eqb_spec (read8 m t) 0) as [E|E].
    + eexists. split; [apply pair_eq; split; [f_equal|]; lia|]. intros a.
      rewrite read8_write8, u8_small by apply read8_range.
      repeat case_decide; try lia; try done; f_equal; lia.
    + destruct (IH (write8 m s (read8 m t)) (s + 1) (t + 1)) as (m' & -> & Hm'); [lia|].
      assert (Et : str_take (write8 m s (read8 m t)) (t + 1) k = str_take m (t + 1) k).
      { apply str_take_agree, agree_write8. unfold in_range. lia. }
      rewrite Et in *. exists m'. split; [apply pair_eq; split; [f_equal|]; lia|]. intros a. rewrite Hm'.
      pose proof (str_take_le m (t + 1) k).
      rewrite !read8_write8, u8_small by apply read8_range.
      repeat case_decide; try lia; try done; f_equal; lia.
Qed.

Lemma read8_strncpy m s t n a :
  0 <= n -> apart s t n ->
  read8 (strncpy m s t n) a =
  if decide (in_range s n a) then
    if a - s <? Z.of_nat (str_take m t (Z.to_nat n)) then read8 m (t + (a - s)) else 0
  else read8 m a.
Proof.
  intros Hn H. unfold strncpy.
  destruct (strncpy_copy_spec m s t (Z.to_nat n)) as (m' & -> & Hm'); [by rewrite Z2Nat.id|].
  rewrite read8_stosb, Hm'. pose proof (str_take_le m t (Z.to_nat n)). unfold in_range.
  repeat case_decide; destruct (Z.ltb_spec (a - s) (Z.of_nat (str_take m t (Z.to_nat n))));
    try lia; done.
Qed.

Lemma safestrcpy_copy_eq m s t n : safestrcpy_copy m s t n = fst (strncpy_copy m s t n).
Proof. revert m s t. induction n as [|k IH]; intros m s t; simpl; [done|]. by case_match. Qed.

(** [safestrcpy] writes at most [n] bytes and the copy is the longest prefix
    of [t] that leaves room for the NUL, followed by a NUL. *)
Lemma read8_safestrcpy m s t n :
  0 < n -> apart s t n ->
  exists len, 0 <= len < n /\
    (forall i, 0 <= i < len -> read8 (safestrcpy m s t n) (s + i) = read8 m (t + i)) /\
    (len < n - 1 -> read8 m (t + len - 1) = 0 /\ 0 < len) /\
    read8 (safestrcpy m s t n) (s + len) = 0 /\
    (forall a, ~ in_range s n a -> read8 (safestrcpy m s t n) a = read8 m a).
Proof.
  intros Hn H. unfold apart in H. unfold safestrcpy. destruct (Z.leb_spec n 0); [lia|].
  destruct (strncpy_copy_spec m s t (Z.to_nat (n - 1))) as (m' & E & Hm'); [unfold apart; lia|].
  rewrite safestrcpy_copy_eq, E. simpl fst. cbn beta iota.
  pose proof (str_take_le m t (Z.to_nat (n - 1))) as Hle.
  exists (Z.of_nat (str_take m t (Z.to_nat (n - 1)))). split; [lia|]. unfold in_range in *.
  split; [|split; [|split]].
  - intros i Hi. rewrite read8_write8_ne, Hm' by lia. case_decide; [f_equal; lia|lia].
  - intros Hlt. assert (Ht : forall t n, (str_take m t n < n)%nat ->
      read8 m (t + Z.of_nat (str_take m t n) - 1) = 0 /\ (0 < str_take m t n)%nat).
    { clear. intros t n. revert t. induction n as [|k IH]; intros t Hlt; simpl in *; [lia|].
      destruct (Z.eqb_spec (read8 m t) 0) as [E|E].
      - split; [rewrite <- E; f_equal; lia | lia].
      - destruct (IH (t + 1)) as [E1 ?]; [lia|]. split; [rewrite <- E1; f_equal; lia|lia]. }
    destruct (Ht t (Z.to_nat (n - 1))); [lia|]. split; [done|lia].
  - rewrite read8_write8_eq. done.
  - intros a Ha. rewrite read8_write8_ne, Hm' by lia. case_decide; [lia|done].
Qed.

(** ** Comparisons and lengths *)

(** Equality of two C strings up to [n] bytes. *)
Fixpoint str_eq_upto (m : mem) (p q : Z) (n : nat) : Prop :=
  match n with
  | O => True
  | S k => read8 m p = read8 m q /\ (read8 m p <> 0 -> str_eq_upto m (p + 1) (q + 1) k)
  end.

Lemma strncmp_loop_zero m p q n : strncmp_loop m p q n = 0 <-> str_eq_upto m p q n.
Proof.
  revert p q. induction n as [|k IH]; intros p q; simpl; [done|].
  destruct (Z.eqb_spec (read8 m p) 0), (Z.eqb_spec (read8 m p) (read8 m q)); simpl;
    rewrite ?IH; naive_solver lia.
Qed.

Lemma strlen_loop_Some m s n fuel l :
  strlen_loop m s n fuel = Some l <->
  n <= l < n + Z.of_nat fuel /\ read8 m (s + l) = 0 /\
  (forall i, n <= i < l -> read8 m (s + i) <> 0).
Proof.
  revert n. induction fuel as [|k IH]; intros n; simpl.
  - split; [done|lia].
  - destruct (Z.eqb_spec (read8 m (s + n)) 0) as [E|E].
    + split; [intros [= ->]; repeat split; lia || done|].
      intros (? & ? & Hi). f_equal. destruct (Z.eq_dec n l); [done|].
      destruct (Hi n); [lia|done].
    + rewrite IH. split; intros (? & ? & Hi); (split; [|split; [done|]]).
      * lia.
      * intros i ?. destruct (Z.eq_dec n i) as [<-|]; [done|]. apply Hi. lia.
      * destruct (Z.eq_dec n l) as [<-|]; [done|lia].
      * intros i ?. apply Hi. lia.
Qed.
