(* ===== verification/Mmu.v ===== *)
(** * Addresses, page-table entries and descriptors (mmu.h, memlayout.h)

    The macros of [src/src/mmu.h] and [src/src/memlayout.h] on 32-bit
    values, with the arithmetic facts the page-table code rests on. *)
From S2P Require Import Prelude.

(** ** memlayout.h *)

Definition EXTMEM : Z := 0x100000.
Definition PHYSTOP : Z := 0xE000000.
Definition DEVSPACE : Z := 0xFE000000.
Definition KERNBASE : Z := 0x80000000.
Definition KERNLINK : Z := KERNBASE + EXTMEM.
Definition V2P (a : Z) : Z := u32 (a - KERNBASE).
Definition P2V (a : Z) : Z := u32 (a + KERNBASE).

(** ** mmu.h *)

Definition PGSIZE : Z := 4096.
Definition NPDENTRIES : Z := 1024.
Definition PTXSHIFT : Z := 12.
Definition PDXSHIFT : Z := 22.
Definition PDX (va : Z) : Z := Z.land (Z.shiftr va PDXSHIFT) 0x3FF.
Definition PTX (va : Z) : Z := Z.land (Z.shiftr va PTXSHIFT) 0x3FF.
Definition PPN (pa : Z) : Z := Z.shiftr pa PTXSHIFT.
Definition OFFSET (va : Z) : Z := Z.land va 0xFFF.
Definition PGADDR (d t o : Z) : Z :=
  u32 (Z.lor (Z.lor (Z.shiftl d PDXSHIFT) (Z.shiftl t PTXSHIFT)) o).
Definition PGROUNDUP (sz : Z) : Z := Z.land (u32 (sz + PGSIZE - 1)) (Z.lnot (PGSIZE - 1)).
Definition PGROUNDDOWN (a : Z) : Z := Z.land a (Z.lnot (PGSIZE - 1)).

Definition PTE_P : Z := 0x001.
Definition PTE_W : Z := 0x002.
Definition PTE_U : Z := 0x004.
Definition PTE_PS : Z := 0x080.
Definition PTE_E : Z := 0x400.
Definition PTE_A : Z := 0x020.
Definition PTE_ADDR (pte : Z) : Z := Z.land pte (Z.lnot 0xFFF).
Definition PTE_FLAGS (pte : Z) : Z := Z.land pte 0xFFF.

(** [pte & f] used as a C condition. *)
Definition has (pte f : Z) : bool := negb (Z.land pte f =? 0).
(** [pte & ~f] and [pte | f]. *)
Definition clear (pte f : Z) : Z := Z.land pte (Z.lnot f).
Definition set (pte f : Z) : Z := Z.lor pte f.

(** Segment descriptors. *)
Record segdesc := mk_segdesc {
  lim_15_0 : Z; base_15_0 : Z; base_23_16 : Z; sd_type : Z; sd_s : Z; sd_dpl : Z;
  sd_p : Z; lim_19_16 : Z; sd_avl : Z; sd_rsv1 : Z; sd_db : Z; sd_g : Z; base_31_24 : Z
}.

Definition SEG (type base lim dpl : Z) : segdesc :=
  mk_segdesc (Z.land (Z.shiftr lim 12) 0xffff) (Z.land base 0xffff)
    (Z.land (Z.shiftr base 16) 0xff) type 1 dpl 1
    (Z.shiftr lim 28) 0 0 1 1 (Z.shiftr base 24).

Definition SEG16 (type base lim dpl : Z) : segdesc :=
  mk_segdesc (Z.land lim 0xffff) (Z.land base 0xffff)
    (Z.land (Z.shiftr base 16) 0xff) type 1 dpl 1
    (Z.shiftr lim 16) 0 0 1 0 (Z.shiftr base 24).

Definition SEG_KCODE : Z := 1.
Definition SEG_KDATA : Z := 2.
Definition SEG_UCODE : Z := 3.
Definition SEG_UDATA : Z := 4.
Definition SEG_TSS : Z := 5.
Definition DPL_USER : Z := 3.
Definition STA_X : Z := 8.
Definition STA_W : Z := 2.
Definition STA_R : Z := 2.
Definition STS_T32A : Z := 9.

(** ** Arithmetic readings of the macros *)

Lemma land_ones_mod a n : 0 <= n -> Z.land a (Z.ones n) = a mod 2 ^ n.
Proof. apply Z.land_ones. Qed.

Lemma land_lnot_ones a n : 0 <= n -> Z.land a (Z.lnot (Z.ones n)) = a / 2 ^ n * 2 ^ n.
Proof.
  intros Hn. rewrite <- Z.ldiff_land, Z.ldiff_ones_r by done.
  by rewrite Z.shiftl_mul_pow2, Z.shiftr_div_pow2.
Qed.

Lemma PGROUNDDOWN_val a : PGROUNDDOWN a = a / 4096 * 4096.
Proof. apply (land_lnot_ones a 12). lia. Qed.

Lemma PGROUNDUP_val sz :
  0 <= sz <= 4294963200 -> PGROUNDUP sz = (sz + 4095) / 4096 * 4096.
Proof.
  intros H. unfold PGROUNDUP, PGSIZE. rewrite u32_small by lia.
  replace (sz + 4096 - 1) with (sz + 4095) by lia. apply (land_lnot_ones _ 12). lia.
Qed.

Lemma PTE_ADDR_val p : PTE_ADDR p = p / 4096 * 4096.
Proof. apply (land_lnot_ones p 12). lia. Qed.

Lemma PTE_FLAGS_val p : PTE_FLAGS p = p mod 4096.
Proof. apply (land_ones_mod p 12). lia. Qed.

Lemma PDX_val va : 0 <= va < 4294967296 -> PDX va = va / 4194304.
Proof.
  intros H. unfold PDX, PDXSHIFT. change 0x3FF with (Z.ones 10).
  rewrite land_ones_mod, Z.shiftr_div_pow2 by lia. apply Z.mod_small.
  change (2 ^ 22) with 4194304. change (2 ^ 10) with 1024.
  split; [apply Z.div_pos; lia | apply Z.div_lt_upper_bound; lia].
Qed.

Lemma PTX_val va : PTX va = va / 4096 mod 1024.
Proof.
  unfold PTX, PTXSHIFT. change 0x3FF with (Z.ones 10).
  by rewrite land_ones_mod, Z.shiftr_div_pow2 by lia.
Qed.

Lemma OFFSET_val va : OFFSET va = va mod 4096.
Proof. apply (land_ones_mod va 12). lia. Qed.

Lemma PDX_range va : 0 <= va < 4294967296 -> 0 <= PDX va < 1024.
Proof.
  intros H. rewrite PDX_val by done.
  split; [apply Z.div_pos; lia | apply Z.div_lt_upper_bound; lia].
Qed.

Lemma PTX_range va : 0 <= PTX va < 1024.
Proof. rewrite PTX_val. apply Z.mod_pos_bound. lia. Qed.

Lemma PGADDR_val d t o :
  0 <= d < 1024 -> 0 <= t < 1024 -> 0 <= o < 4096 ->
  PGADDR d t o = d * 4194304 + t * 4096 + o.
Proof.
  intros Hd Ht Ho. unfold PGADDR, PDXSHIFT, PTXSHIFT.
  rewrite <- Z.lor_assoc, (lor_shiftl_add t o 12), (lor_shiftl_add d _ 22) by lia.
  rewrite u32_small; lia.
Qed.

(** The directory and table index determine the virtual page. *)
Lemma PDX_PTX_vpn va :
  0 <= va < 4294967296 -> PDX va * 1024 + PTX va = va / 4096.
Proof.
  intros H. rewrite PDX_val, PTX_val by done. Z.div_mod_to_equations. lia.
Qed.

Lemma PDX_same_page va va' : va / 4096 = va' / 4096 ->
  0 <= va < 4294967296 -> 0 <= va' < 4294967296 -> PDX va = PDX va' /\ PTX va = PTX va'.
Proof.
  intros E H H'. rewrite !PDX_val, !PTX_val, E by done. split; [|done].
  change 4194304 with (4096 * 1024). by rewrite <- !Z.div_div, E by lia.
Qed.

Lemma V2P_val a : KERNBASE <= a < 4294967296 -> V2P a = a - KERNBASE.
Proof. unfold V2P, KERNBASE. intros. apply u32_small. lia. Qed.

Lemma P2V_val a : 0 <= a < KERNBASE -> P2V a = a + KERNBASE.
Proof. unfold P2V, KERNBASE. intros. apply u32_small. lia. Qed.

Lemma V2P_P2V a : 0 <= a < 4294967296 -> V2P (P2V a) = a.
Proof.
  intros H. unfold V2P, P2V, u32.
  rewrite Zminus_mod_idemp_l. replace (a + KERNBASE - KERNBASE) with a by lia.
  by apply Z.mod_small.
Qed.

(** ** Flag bits *)

Lemma has_testbit p k : 0 <= k -> has p (2 ^ k) = Z.testbit p k.
Proof. intros Hk. unfold has. rewrite land_pow2_eqb by done. apply negb_involutive. Qed.

Lemma testbit_set p k n :
  0 <= k -> 0 <= n -> Z.testbit (set p (2 ^ k)) n = Z.testbit p n || (k =? n).
Proof. intros. unfold set. by rewrite Z.lor_spec, Z.pow2_bits_eqb. Qed.

Lemma testbit_clear p k n :
  0 <= k -> 0 <= n -> Z.testbit (clear p (2 ^ k)) n = Z.testbit p n && negb (k =? n).
Proof. intros. unfold clear. by rewrite Z.land_spec, Z.lnot_spec, Z.pow2_bits_eqb. Qed.

Lemma testbit_small_ones p k n : 0 <= k -> 0 <= n -> n < k ->
  Z.testbit (p mod 2 ^ k) n = Z.testbit p n.
Proof. intros. apply Z.mod_pow2_bits_low. lia. Qed.

Lemma bits_range32 x :
  (forall n, 32 <= n -> Z.testbit x n = false) -> 0 <= x < 4294967296.
Proof.
  intros H. assert (x = x mod 2 ^ 32) as ->; [|apply Z.mod_pos_bound; lia].
  apply Z.bits_inj'. intros n Hn. destruct (Z.lt_ge_cases n 32).
  - by rewrite Z.mod_pow2_bits_low by lia.
  - by rewrite H, Z.mod_pow2_bits_high by lia.
Qed.

Lemma range32_bits x n : 0 <= x < 4294967296 -> 32 <= n -> Z.testbit x n = false.
Proof. intros. apply (testbit_high x 32); lia. Qed.

Lemma set_range p k : 0 <= k < 32 -> 0 <= p < 4294967296 -> 0 <= set p (2 ^ k) < 4294967296.
Proof.
  intros Hk Hp. apply bits_range32. intros n Hn.
  rewrite testbit_set, (range32_bits p n) by lia. lia.
Qed.

Lemma clear_range p f : 0 <= p < 4294967296 -> 0 <= clear p f < 4294967296.
Proof.
  intros Hp. apply bits_range32. intros n Hn.
  unfold clear. by rewrite Z.land_spec, (range32_bits p n) by lia.
Qed.

Lemma has_set p k n : 0 <= k -> 0 <= n -> has (set p (2 ^ k)) (2 ^ n) = has p (2 ^ n) || (k =? n).
Proof. intros. by rewrite !has_testbit, testbit_set. Qed.

Lemma has_clear p k n :
  0 <= k -> 0 <= n -> has (clear p (2 ^ k)) (2 ^ n) = has p (2 ^ n) && negb (k =? n).
Proof. intros. by rewrite !has_testbit, testbit_clear. Qed.

Lemma has_lor p f g : has p (Z.lor f g) = has p f || has p g.
Proof.
  unfold has. rewrite Z.land_lor_distr_r, <- negb_andb. f_equal.
  destruct (Z.eqb_spec (Z.lor (Z.land p f) (Z.land p g)) 0) as [E|E].
  - apply Z.lor_eq_0_iff in E as [-> ->]. done.
  - destruct (Z.eqb_spec (Z.land p f) 0) as [E1|], (Z.eqb_spec (Z.land p g) 0) as [E2|]; try done.
    by rewrite E1, E2 in E.
Qed.

(** Entries that agree on every bit from 12 up have the same frame. *)
Lemma PTE_ADDR_ext p q :
  (forall n, 12 <= n -> Z.testbit p n = Z.testbit q n) -> PTE_ADDR p = PTE_ADDR q.
Proof.
  intros H. apply Z.bits_inj'. intros n Hn. unfold PTE_ADDR. change 0xFFF with (Z.ones 12).
  rewrite !Z.land_spec, Z.lnot_spec, Z.testbit_ones by lia.
  destruct (Z.lt_ge_cases n 12).
  - replace (0 <=? n) with true by lia. replace (n <? 12) with true by lia.
    simpl. by rewrite !andb_false_r.
  - by rewrite H.
Qed.

Lemma PTE_ADDR_set p k : 0 <= k < 12 -> PTE_ADDR (set p (2 ^ k)) = PTE_ADDR p.
Proof.
  intros Hk. apply PTE_ADDR_ext. intros n Hn. rewrite testbit_set by lia.
  replace (k =? n) with false by lia. apply orb_false_r.
Qed.

Lemma PTE_ADDR_clear p k : 0 <= k < 12 -> PTE_ADDR (clear p (2 ^ k)) = PTE_ADDR p.
Proof.
  intros Hk. apply PTE_ADDR_ext. intros n Hn. rewrite testbit_clear by lia.
  replace (k =? n) with false by lia. apply andb_true_r.
Qed.

Lemma PTE_ADDR_range p : 0 <= p < 4294967296 -> 0 <= PTE_ADDR p <= 4294963200.
Proof. intros. rewrite PTE_ADDR_val. Z.div_mod_to_equations. lia. Qed.

Lemma PTE_ADDR_aligned p : PTE_ADDR p mod 4096 = 0.
Proof. rewrite PTE_ADDR_val. apply Z.mod_mul. lia. Qed.

(** A frame address joined with flags splits back into them. *)
Lemma lor_frame_flags pa fl :
  pa mod 4096 = 0 -> 0 <= fl < 4096 -> Z.lor pa fl = pa + fl.
Proof.
  intros Ha Hf. assert (pa = Z.shiftl (pa / 4096) 12) as ->.
  { rewrite Z.shiftl_mul_pow2 by lia. Z.div_mod_to_equations. lia. }
  rewrite lor_shiftl_add by lia. rewrite Z.shiftl_mul_pow2 by lia. done.
Qed.

(** [pte_simpl] reads flag tests of set and cleared entries as booleans. *)
Create Rewrite HintDb pte.
#[export] Hint Rewrite has_set has_clear PTE_ADDR_set PTE_ADDR_clear using lia : pte.
#[export] Hint Rewrite has_lor : pte.
Ltac pte_pow :=
  change PTE_P with (2 ^ 0) in *; change PTE_W with (2 ^ 1) in *;
  change PTE_U with (2 ^ 2) in *; change PTE_A with (2 ^ 5) in *;
  change PTE_E with (2 ^ 10) in *.
Ltac pte_simpl :=
  pte_pow; autorewrite with pte in *; simpl Z.eqb in *; simpl negb in *;
  rewrite ?orb_false_r, ?orb_true_r, ?andb_true_r, ?andb_false_r in *.
