(* ===== verification/State.v ===== *)
(** * The kernel's state

    The data the core of the kernel works on: physical memory, the page
    allocator's header, the process table and the executing CPU's view of it
    ([param.h], [proc.h], [kalloc.c], [proc.c]).

    Pointers to kernel memory are 32-bit kernel virtual addresses and are
    dereferenced in [phys] through the direct map ([V2P]); pointers to
    [struct proc] are indices of the process table. *)
From S2P Require Import Prelude Memory Mmu.

(** ** Parameters of the model

    What the C code takes from outside: the symbols of the linked kernel
    ([kernel.ld]) and the MMU's treatment of a leaf entry it has just used
    for a store.  The processor may set the accessed and dirty bits (bits 5
    and 6) of that entry and changes no other bit of it; whether it sets them
    depends on the TLB, so the function is left abstract. *)
Class Platform := {
  ksym_data : Z;
  ksym_end : Z;
  ksym_trapret : Z;
  ksym_forkret : Z;
  ksym_ts : Z;
  ksym_layout : KERNLINK < ksym_data /\ ksym_data mod 4096 = 0 /\
    ksym_data < ksym_end /\ ksym_end < KERNBASE + PHYSTOP;
  hw_mark : Z -> Z;
  hw_mark_bits : forall pte n, 0 <= n -> n <> 5 -> n <> 6 ->
    Z.testbit (hw_mark pte) n = Z.testbit pte n
}.

(** ** param.h *)

Definition NPROC : Z := 64.
Definition KSTACKSIZE : Z := 4096.
Definition NOFILE : Z := 16.
Definition CLOCKSIZE : Z := 8.

(** ** proc.h *)

Record cq_node := mk_cq { cq_empty : Z; cq_va : Z; cq_pte : Z }.

Inductive procstate := UNUSED | EMBRYO | SLEEPING | RUNNABLE | RUNNING | ZOMBIE.

#[export] Instance procstate_eq_dec : EqDecision procstate.
Proof. solve_decision. Defined.

(** A sleep channel: the address of some kernel object, or of a process. *)
Inductive chan := CNull | CProc (i : nat) | CPtr (a : Z).

#[export] Instance chan_eq_dec : EqDecision chan.
Proof. solve_decision. Defined.

Record proc := mk_proc {
  sz : Z;
  pgdir : Z;
  kstack : Z;
  state : procstate;
  pid : Z;
  parent : option nat;
  tf : Z;
  context : Z;
  pchan : chan;
  killed : Z;
  ofile : list Z;
  cwd : Z;
  name : list Z;
  cq : list cq_node;
  clock_hand : Z
}.

(** The zeroed [struct proc] of the kernel's bss. *)
Definition zero_proc : proc :=
  mk_proc 0 0 0 UNUSED 0 None 0 0 CNull 0 (replicate (Z.to_nat NOFILE) 0) 0
    (replicate 16 0) (replicate (Z.to_nat CLOCKSIZE) (mk_cq 0 0 0)) 0.

(** ** Kernel state *)

Record kmem_t := mk_kmem { kmem_lock : bool; use_lock : bool; freelist : Z }.

Record kstate := mk_kstate {
  phys : mem;
  kmem : kmem_t;
  ptable_lock : bool;
  ptable : list proc;
  curproc : option nat;
  nextpid : Z;
  initproc : option nat;
  kpgdir : Z;
  cr3 : Z;
  ts_ss0 : Z;
  ts_esp0 : Z;
  ts_iomb : Z;
  gdt_tss : segdesc;
  ticks : Z;
  tickslock : bool
}.

Notation K := (M kstate).

Section Setters.
Context (s : kstate).
Definition with_phys (m : mem) : kstate :=
  mk_kstate m (kmem s) (ptable_lock s) (ptable s) (curproc s) (nextpid s) (initproc s)
    (kpgdir s) (cr3 s) (ts_ss0 s) (ts_esp0 s) (ts_iomb s) (gdt_tss s) (ticks s) (tickslock s).
Definition with_kmem (k : kmem_t) : kstate :=
  mk_kstate (phys s) k (ptable_lock s) (ptable s) (curproc s) (nextpid s) (initproc s)
    (kpgdir s) (cr3 s) (ts_ss0 s) (ts_esp0 s) (ts_iomb s) (gdt_tss s) (ticks s) (tickslock s).
Definition with_ptable_lock (b : bool) : kstate :=
  mk_kstate (phys s) (kmem s) b (ptable s) (curproc s) (nextpid s) (initproc s)
    (kpgdir s) (cr3 s) (ts_ss0 s) (ts_esp0 s) (ts_iomb s) (gdt_tss s) (ticks s) (tickslock s).
Definition with_ptable (t : list proc) : kstate :=
  mk_kstate (phys s) (kmem s) (ptable_lock s) t (curproc s) (nextpid s) (initproc s)
    (kpgdir s) (cr3 s) (ts_ss0 s) (ts_esp0 s) (ts_iomb s) (gdt_tss s) (ticks s) (tickslock s).
Definition with_curproc (c : option nat) : kstate :=
  mk_kstate (phys s) (kmem s) (ptable_lock s) (ptable s) c (nextpid s) (initproc s)
    (kpgdir s) (cr3 s) (ts_ss0 s) (ts_esp0 s) (ts_iomb s) (gdt_tss s) (ticks s) (tickslock s).
Definition with_nextpid (n : Z) : kstate :=
  mk_kstate (phys s) (kmem s) (ptable_lock s) (ptable s) (curproc s) n (initproc s)
    (kpgdir s) (cr3 s) (ts_ss0 s) (ts_esp0 s) (ts_iomb s) (gdt_tss s) (ticks s) (tickslock s).
Definition with_initproc (p : option nat) : kstate :=
  mk_kstate (phys s) (kmem s) (ptable_lock s) (ptable s) (curproc s) (nextpid s) p
    (kpgdir s) (cr3 s) (ts_ss0 s) (ts_esp0 s) (ts_iomb s) (gdt_tss s) (ticks s) (tickslock s).
Definition with_kpgdir (d : Z) : kstate :=
  mk_kstate (phys s) (kmem s) (ptable_lock s) (ptable s) (curproc s) (nextpid s) (initproc s)
    d (cr3 s) (ts_ss0 s) (ts_esp0 s) (ts_iomb s) (gdt_tss s) (ticks s) (tickslock s).
Definition with_cr3 (c : Z) : kstate :=
  mk_kstate (phys s) (kmem s) (ptable_lock s) (ptable s) (curproc s) (nextpid s) (initproc s)
    (kpgdir s) c (ts_ss0 s) (ts_esp0 s) (ts_iomb s) (gdt_tss s) (ticks s) (tickslock s).
Definition with_ts (ss0 esp0 iomb : Z) (d : segdesc) : kstate :=
  mk_kstate (phys s) (kmem s) (ptable_lock s) (ptable s) (curproc s) (nextpid s) (initproc s)
    (kpgdir s) (cr3 s) ss0 esp0 iomb d (ticks s) (tickslock s).
Definition with_ticks (n : Z) : kstate :=
  mk_kstate (phys s) (kmem s) (ptable_lock s) (ptable s) (curproc s) (nextpid s) (initproc s)
    (kpgdir s) (cr3 s) (ts_ss0 s) (ts_esp0 s) (ts_iomb s) (gdt_tss s) n (tickslock s).
Definition with_tickslock (b : bool) : kstate :=
  mk_kstate (phys s) (kmem s) (ptable_lock s) (ptable s) (curproc s) (nextpid s) (initproc s)
    (kpgdir s) (cr3 s) (ts_ss0 s) (ts_esp0 s) (ts_iomb s) (gdt_tss s) (ticks s) b.
End Setters.

Section ProcSetters.
Context (p : proc).
Definition set_sz (x : Z) : proc :=
  mk_proc x (pgdir p) (kstack p) (state p) (pid p) (parent p) (tf p) (context p) (pchan p)
    (killed p) (ofile p) (cwd p) (name p) (cq p) (clock_hand p).
Definition set_pgdir (x : Z) : proc :=
  mk_proc (sz p) x (kstack p) (state p) (pid p) (parent p) (tf p) (context p) (pchan p)
    (killed p) (ofile p) (cwd p) (name p) (cq p) (clock_hand p).
Definition set_kstack (x : Z) : proc :=
  mk_proc (sz p) (pgdir p) x (state p) (pid p) (parent p) (tf p) (context p) (pchan p)
    (killed p) (ofile p) (cwd p) (name p) (cq p) (clock_hand p).
Definition set_state (x : procstate) : proc :=
  mk_proc (sz p) (pgdir p) (kstack p) x (pid p) (parent p) (tf p) (context p) (pchan p)
    (killed p) (ofile p) (cwd p) (name p) (cq p) (clock_hand p).
Definition set_pid (x : Z) : proc :=
  mk_proc (sz p) (pgdir p) (kstack p) (state p) x (parent p) (tf p) (context p) (pchan p)
    (killed p) (ofile p) (cwd p) (name p) (cq p) (clock_hand p).
Definition set_parent (x : option nat) : proc :=
  mk_proc (sz p) (pgdir p) (kstack p) (state p) (pid p) x (tf p) (context p) (pchan p)
    (killed p) (ofile p) (cwd p) (name p) (cq p) (clock_hand p).
Definition set_tf (x : Z) : proc :=
  mk_proc (sz p) (pgdir p) (kstack p) (state p) (pid p) (parent p) x (context p) (pchan p)
    (killed p) (ofile p) (cwd p) (name p) (cq p) (clock_hand p).
Definition set_context (x : Z) : proc :=
  mk_proc (sz p) (pgdir p) (kstack p) (state p) (pid p) (parent p) (tf p) x (pchan p)
    (killed p) (ofile p) (cwd p) (name p) (cq p) (clock_hand p).
Definition set_chan (x : chan) : proc :=
  mk_proc (sz p) (pgdir p) (kstack p) (state p) (pid p) (parent p) (tf p) (context p) x
    (killed p) (ofile p) (cwd p) (name p) (cq p) (clock_hand p).
Definition set_killed (x : Z) : proc :=
  mk_proc (sz p) (pgdir p) (kstack p) (state p) (pid p) (parent p) (tf p) (context p) (pchan p)
    x (ofile p) (cwd p) (name p) (cq p) (clock_hand p).
Definition set_ofile (x : list Z) : proc :=
  mk_proc (sz p) (pgdir p) (kstack p) (state p) (pid p) (parent p) (tf p) (context p) (pchan p)
    (killed p) x (cwd p) (name p) (cq p) (clock_hand p).
Definition set_cwd (x : Z) : proc :=
  mk_proc (sz p) (pgdir p) (kstack p) (state p) (pid p) (parent p) (tf p) (context p) (pchan p)
    (killed p) (ofile p) x (name p) (cq p) (clock_hand p).
Definition set_name (x : list Z) : proc :=
  mk_proc (sz p) (pgdir p) (kstack p) (state p) (pid p) (parent p) (tf p) (context p) (pchan p)
    (killed p) (ofile p) (cwd p) x (cq p) (clock_hand p).
Definition set_cq (x : list cq_node) : proc :=
  mk_proc (sz p) (pgdir p) (kstack p) (state p) (pid p) (parent p) (tf p) (context p) (pchan p)
    (killed p) (ofile p) (cwd p) (name p) x (clock_hand p).
Definition set_clock_hand (x : Z) : proc :=
  mk_proc (sz p) (pgdir p) (kstack p) (state p) (pid p) (parent p) (tf p) (context p) (pchan p)
    (killed p) (ofile p) (cwd p) (name p) (cq p) x.
End ProcSetters.

(** ** Memory accesses of the kernel *)

(** A kernel pointer dereferenced through the direct map. *)
Definition kread32 (v : Z) : K Z := gets (fun s => read32 (phys s) (V2P v)).
Definition kwrite32 (v x : Z) : K unit :=
  modify (fun s => with_phys s (write32 (phys s) (V2P v) x)).
Definition kmodify_mem (f : mem -> mem) : K unit := modify (fun s => with_phys s (f (phys s))).

(** The process a [struct proc*] points to; a null pointer is a fault. *)
Definition get_proc (i : nat) : K proc :=
  fun s => match ptable s !! i with Some p => Ret p s | None => Fault "bad proc pointer" end.
Definition upd_proc (i : nat) (f : proc -> proc) : K unit :=
  fun s => match ptable s !! i with
           | Some p => Ret tt (with_ptable s (<[i := f p]> (ptable s)))
           | None => Fault "bad proc pointer"
           end.
Definition myproc : K (option nat) := gets curproc.
(** [myproc()->...]: the current process, which must exist. *)
Definition my : K nat :=
  fun s => match curproc s with Some i => Ret i s | None => Fault "no current process" end.
