(* ===== verification/Kalloc.v ===== *)
(** * The physical page allocator (kalloc.c)

    [kmem.freelist] is threaded through the free pages themselves: the first
    word of a free page is the kernel address of the next one.  The abstract
    view is the list of free pages, and the component behaves as a stack. *)
From S2P Require Import Prelude Memory KString Mmu State.

Section Kalloc.
Context `{PL : Platform}.

(** ** Code *)

(** [acquire]/[release] of [kmem.lock], as the executing CPU sees them:
    acquiring a lock it already holds and releasing one it does not hold
    panic.  (Spinning on a lock held by another CPU is the subject of
    Spinlock.v.) *)
Definition kmem_acquire : K unit :=
  fun s => let k := kmem s in
  if kmem_lock k then Panic "acquire"
  else Ret tt (with_kmem s (mk_kmem true (use_lock k) (freelist k))).

Definition kmem_release : K unit :=
  fun s => let k := kmem s in
  if kmem_lock k then Ret tt (with_kmem s (mk_kmem false (use_lock k) (freelist k)))
  else Panic "release".

Definition set_freelist (r : Z) : K unit :=
  modify (fun s => with_kmem s (mk_kmem (kmem_lock (kmem s)) (use_lock (kmem s)) r)).

Definition when (b : bool) (m : K unit) : K unit := if b then m else ret tt.

Definition kfree (v : Z) : K unit :=
  if negb (v mod PGSIZE =? 0) || (v <? ksym_end) || (PHYSTOP <=? V2P v) then panic "kfree"
  else
    (* Fill with junk to catch dangling refs. *)
    do* kmodify_mem (fun m => memset m (V2P v) 1 PGSIZE) in
    let* ul := gets (fun s => use_lock (kmem s)) in
    do* when ul kmem_acquire in
    let* fl := gets (fun s => freelist (kmem s)) in
    do* kwrite32 v fl in
    do* set_freelist v in
    let* ul := gets (fun s => use_lock (kmem s)) in
    when ul kmem_release.

Definition kalloc : K Z :=
  let* ul := gets (fun s => use_lock (kmem s)) in
  do* when ul kmem_acquire in
  let* r := gets (fun s => freelist (kmem s)) in
  do* (if r =? 0 then ret tt
       else let* nx := kread32 r in set_freelist nx) in
  let* ul := gets (fun s => use_lock (kmem s)) in
  do* when ul kmem_release in
  ret r.

Fixpoint freerange_loop (fuel : nat) (p vend : Z) : K unit :=
  match fuel with
  | O => fun _ => OutOfFuel
  | S k =>
      if u32 (p + PGSIZE) <=? vend then
        do* kfree p in freerange_loop k (u32 (p + PGSIZE)) vend
      else ret tt
  end.

Definition freerange (vstart vend : Z) : K unit :=
  freerange_loop (S (Z.to_nat (vend / PGSIZE))) (PGROUNDUP vstart) vend.

Definition kinit1 (vstart vend : Z) : K unit :=
  do* modify (fun s => with_kmem s (mk_kmem false false (freelist (kmem s)))) in
  freerange vstart vend.

Definition kinit2 (vstart vend : Z) : K unit :=
  do* freerange vstart vend in
  modify (fun s => with_kmem s (mk_kmem (kmem_lock (kmem s)) true (freelist (kmem s)))).

(** ** Abstract view *)

(** A page the allocator may own, by its kernel address. *)
Definition page_ok (p : Z) : Prop :=
  p mod 4096 = 0 /\ ksym_end <= p /\ p < KERNBASE + PHYSTOP.

Fixpoint free_list (m : mem) (h : Z) (l : list Z) : Prop :=
  match l with
  | [] => h = 0
  | p :: l' => h = p /\ page_ok p /\ free_list m (read32 m (V2P p)) l'
  end.

(** The allocator owns exactly the pages of [l]. *)
Definition kmem_inv (s : kstate) (l : list Z) : Prop :=
  free_list (phys s) (freelist (kmem s)) l /\ NoDup l /\ kmem_lock (kmem s) = false.

(** The bytes of the page at kernel address [p]. *)
Definition in_page (p a : Z) : Prop := in_range (p - KERNBASE) 4096 a.

(** Two states that differ in no field but memory and free list. *)
Definition with_alloc (s : kstate) (m : mem) (fl : Z) : kstate :=
  with_kmem (with_phys s m) (mk_kmem (kmem_lock (kmem s)) (use_lock (kmem s)) fl).

(** ** Lemmas *)

Lemma with_alloc_twice s m fl m' fl' : with_alloc (with_alloc s m fl) m' fl' = with_alloc s m' fl'.
Proof. done. Qed.
Lemma with_alloc_self s : with_alloc s (phys s) (freelist (kmem s)) = s.
Proof. by destruct s as [? [] ? ? ? ? ? ? ? ? ? ? ? ? ?]. Qed.

Lemma page_ok_bounds p : page_ok p -> KERNLINK < p < KERNBASE + PHYSTOP.
Proof. intros (_ & ? & ?). pose proof ksym_layout. lia. Qed.

Lemma page_ok_V2P p : page_ok p -> V2P p = p - KERNBASE.
Proof.
  intros H%page_ok_bounds. apply V2P_val. unfold KERNLINK, KERNBASE, EXTMEM, PHYSTOP in *. lia.
Qed.

Lemma page_ok_nonzero p : page_ok p -> p <> 0.
Proof. intros H%page_ok_bounds. unfold KERNLINK, KERNBASE, EXTMEM in *. lia. Qed.

Lemma page_ok_check p :
  page_ok p -> negb (p mod PGSIZE =? 0) || (p <? ksym_end) || (PHYSTOP <=? V2P p) = false.
Proof.
  intros H. rewrite (page_ok_V2P p H). destruct H as (? & ? & ?). unfold PGSIZE, KERNBASE in *. lia.
Qed.

(** Distinct pages do not overlap. *)
Lemma in_page_inj p q a :
  p mod 4096 = 0 -> q mod 4096 = 0 -> in_page p a -> in_page q a -> p = q.
Proof. unfold in_page, in_range. intros. Z.div_mod_to_equations. lia. Qed.

Lemma free_list_ok m h l : free_list m h l -> Forall page_ok l.
Proof. revert h. induction l; simpl; intros h; [done|]. intros (? & ? & ?). eauto. Qed.

(** Writes outside the free pages do not disturb the free list. *)
Lemma free_list_agree m m' h l :
  (forall p, p ∈ l -> agree (in_page p) m m') -> free_list m h l -> free_list m' h l.
Proof.
  revert h. induction l as [|p l IH]; intros h Hag; simpl; [done|].
  intros (-> & Hp & Hl). split; [done|]. split; [done|].
  replace (read32 m' (V2P p)) with (read32 m (V2P p)).
  { apply IH; [|done]. intros q Hq. apply Hag. by right. }
  eapply read32_agree; [apply (Hag p); by left|].
  rewrite (page_ok_V2P p Hp). unfold in_page, in_range. lia.
Qed.

(** ** Specifications *)

Lemma kalloc_empty s : kmem_inv s [] -> kalloc s = Ret 0 s.
Proof.
  intros (Hl & _ & Hk). simpl in Hl. destruct s as [m [kl ul fl] ? ? ? ? ? ? ? ? ? ? ?].
  simpl in *. subst. destruct ul; reflexivity.
Qed.

Lemma kalloc_cons s p l :
  kmem_inv s (p :: l) ->
  kalloc s = Ret p (with_alloc s (phys s) (read32 (phys s) (V2P p))) /\
  kmem_inv (with_alloc s (phys s) (read32 (phys s) (V2P p))) l.
Proof.
  intros ((Hh & Hp & Hl) & Hnd & Hk). apply NoDup_cons in Hnd as [_ Hnd].
  pose proof (page_ok_nonzero p Hp).
  destruct s as [m [kl ul fl] ? ? ? ? ? ? ? ? ? ? ?]. simpl in *. subst. split; [|by split_and!].
  unfold kalloc, bind, gets, ret, when, kmem_acquire, kmem_release, kread32, set_freelist, modify.
  assert (E : (p =? 0) = false) by lia. destruct ul; simpl; by rewrite E.
Qed.

(** Memory after [kfree p]. *)
Definition freed_mem (m : mem) (p fl : Z) : mem :=
  write32 (memset m (V2P p) 1 PGSIZE) (V2P p) fl.

Lemma freed_mem_agree m p fl (P : Z -> Prop) :
  page_ok p -> (forall a, P a -> ~ in_page p a) -> agree P (freed_mem m p fl) m.
Proof.
  intros Hp HP a Ha. specialize (HP a Ha). unfold freed_mem.
  rewrite read8_write32_ne, read8_memset; unfold in_page, in_range, PGSIZE in *;
    rewrite ?(page_ok_V2P p Hp); try lia. case_decide; [lia|done].
Qed.

Lemma free_list_head_range m h l : free_list m h l -> 0 <= h < 4294967296.
Proof.
  destruct l; simpl; [lia|]. intros (-> & H%page_ok_bounds & _).
  unfold KERNLINK, KERNBASE, EXTMEM, PHYSTOP in *. lia.
Qed.

Lemma kfree_spec s p l :
  kmem_inv s l -> page_ok p -> p ∉ l ->
  kfree p s = Ret tt (with_alloc s (freed_mem (phys s) p (freelist (kmem s))) p) /\
  kmem_inv (with_alloc s (freed_mem (phys s) p (freelist (kmem s))) p) (p :: l).
Proof.
  intros (Hl & Hnd & Hk) Hp Hnl. split.
  - unfold kfree. rewrite (page_ok_check p Hp).
    destruct s as [m [kl ul fl] ? ? ? ? ? ? ? ? ? ? ?]. simpl in *. subst. by destruct ul.
  - split; [|split; [by constructor|done]]. simpl. split; [done|]. split; [done|].
    assert (Hr := free_list_head_range _ _ _ Hl).
    unfold freed_mem. rewrite read32_write32_eq by done.
    eapply free_list_agree, Hl. intros q Hq. apply agree_sym, freed_mem_agree; [done|].
    intros a Ha Ha'. assert (q = p); [|congruence].
    apply free_list_ok in Hl. rewrite Forall_forall in Hl. destruct (Hl q Hq) as [? _], Hp as [? _].
    eapply in_page_inj; eauto.
Qed.

Lemma kfree_panic s p :
  p mod 4096 <> 0 \/ p < ksym_end \/ PHYSTOP <= V2P p -> kfree p s = Panic "kfree".
Proof.
  intros H. unfold kfree, PGSIZE. replace (_ || _ || _) with true by lia. done.
Qed.

(** [n] consecutive pages from [p]. *)
Fixpoint pages_from (p : Z) (n : nat) : list Z :=
  match n with O => [] | S k => p :: pages_from (p + 4096) k end.

Lemma pages_from_lb p n q : q ∈ pages_from p n -> p <= q.
Proof.
  revert p. induction n as [|k IH]; intros p; simpl; [by intros ?%not_elem_of_nil|].
  intros [->|H%IH]%elem_of_cons; lia.
Qed.

Lemma freerange_loop_spec n fuel p vend s l :
  (n < fuel)%nat -> kmem_inv s l -> p mod 4096 = 0 -> ksym_end <= p ->
  p + 4096 * Z.of_nat n <= vend < p + 4096 * (Z.of_nat n + 1) ->
  vend <= KERNBASE + PHYSTOP ->
  (forall q, q ∈ l -> q < p \/ vend <= q) ->
  exists s', freerange_loop fuel p vend s = Ret tt s' /\
    kmem_inv s' (rev (pages_from p n) ++ l) /\
    with_alloc s' (phys s) (freelist (kmem s)) = s /\
    agree (fun a => ~ in_range (p - KERNBASE) (4096 * Z.of_nat n) a) (phys s') (phys s).
Proof.
  revert fuel p s l. induction n as [|n IH]; intros fuel p s l Hfuel Hinv Hal He Hn Hv Hl;
    destruct fuel as [|fuel]; try lia; pose proof ksym_layout as HL;
    cbn [freerange_loop]; unfold PGSIZE;
    rewrite u32_small by (unfold KERNLINK, EXTMEM, KERNBASE, PHYSTOP in *; lia).
  - exists s. destruct (Z.leb_spec (p + 4096) vend); [lia|]. split; [done|]. split; [done|].
    split; [|done]. apply with_alloc_self.
  - destruct (Z.leb_spec (p + 4096) vend); [|lia].
    assert (Hp : page_ok p) by (split; [done|split; lia]).
    destruct (kfree_spec s p l Hinv Hp) as [E Hinv']; [intros Hin%Hl; lia|].
    rewrite (bind_Ret _ _ _ _ _ E).
    destruct (IH fuel (p + 4096) _ (p :: l) ltac:(lia) Hinv') as (s' & -> & Hs' & Heq & Hag).
    { rewrite <- Hal. apply Zplus_mod_idemp_r || (Z.div_mod_to_equations; lia). }
    { lia. } { lia. } { done. }
    { intros q [->|Hq%Hl]%elem_of_cons; lia. }
    exists s'. split; [done|]. split; [simpl; by rewrite <- app_assoc|]. split.
    + apply (f_equal (fun x => with_alloc x (phys s) (freelist (kmem s)))) in Heq.
      by rewrite !with_alloc_twice, with_alloc_self in Heq.
    + intros a Ha. unfold in_range in Ha. rewrite (Hag a) by (unfold in_range; lia).
      simpl. apply (freed_mem_agree _ _ _ (fun b => ~ in_page p b)); [done|done|].
      unfold in_page, in_range. lia.
Qed.

End Kalloc.
