(* ===== verification/Vm.v ===== *)
(** * Page tables, encryption and the per-process clock queue (vm.c)

    The whole of [src/src/vm.c] except [seginit] as functions on the kernel
    state.  A page table is bytes of physical memory; [pte_t*] is the kernel
    address of an entry and may be stored, as the clock queue does. *)
From S2P Require Import Prelude Memory KString Mmu State Kalloc.

Section Vm.
Context `{PL : Platform}.

(** ** Walking and mapping *)

Definition walkpgdir (pgdir va : Z) (alloc : bool) : K Z :=
  let pde := pgdir + 4 * PDX va in
  let* d := kread32 pde in
  if has d PTE_P then ret (P2V (PTE_ADDR d) + 4 * PTX va)
  else if negb alloc then ret 0
  else
    let* pgtab := kalloc in
    if pgtab =? 0 then ret 0
    else
      (* Make sure all those PTE_P bits are zero. *)
      do* kmodify_mem (fun m => memset m (V2P pgtab) 0 PGSIZE) in
      do* kwrite32 pde (Z.lor (Z.lor (Z.lor (V2P pgtab) PTE_P) PTE_W) PTE_U) in
      ret (pgtab + 4 * PTX va).

Fixpoint mappages_loop (fuel : nat) (pgdir a last pa perm : Z) : K Z :=
  match fuel with
  | O => fun _ => OutOfFuel
  | S k =>
      let* pte := walkpgdir pgdir a true in
      if pte =? 0 then ret (-1)
      else
        let* v := kread32 pte in
        if has v (Z.lor PTE_P PTE_E) then panic "remap"
        else
          do* kwrite32 pte
                (if has perm PTE_E then clear (Z.lor (Z.lor pa perm) PTE_E) PTE_P
                 else Z.lor (Z.lor pa perm) PTE_P) in
          if a =? last then ret 0
          else mappages_loop k pgdir (u32 (a + PGSIZE)) last (u32 (pa + PGSIZE)) perm
  end.

(** The loop visits the pages from [a] to [last] (modulo 2^32), so the
    distance between them bounds the iterations. *)
Definition mappages (pgdir va size pa perm : Z) : K Z :=
  let a := PGROUNDDOWN va in
  let last := PGROUNDDOWN (u32 (va + size - 1)) in
  mappages_loop (S (Z.to_nat (u32 (last - a) / PGSIZE))) pgdir a last pa perm.

(** ** Context switches of the address space *)

Definition switchkvm : K unit := modify (fun s => with_cr3 s (V2P (kpgdir s))).

Definition switchuvm (p : option nat) : K unit :=
  match p with
  | None => panic "switchuvm: no process"
  | Some i =>
      let* q := get_proc i in
      if kstack q =? 0 then panic "switchuvm: no kstack"
      else if pgdir q =? 0 then panic "switchuvm: no pgdir"
      else
        let d := SEG16 STS_T32A ksym_ts 103 0 in
        let d := mk_segdesc (lim_15_0 d) (base_15_0 d) (base_23_16 d) (sd_type d) 0 (sd_dpl d)
                   (sd_p d) (lim_19_16 d) (sd_avl d) (sd_rsv1 d) (sd_db d) (sd_g d)
                   (base_31_24 d) in
        do* modify (fun s => with_ts s (Z.shiftl SEG_KDATA 3) (u32 (kstack q + KSTACKSIZE)) 0xFFFF d) in
        modify (fun s => with_cr3 s (V2P (pgdir q)))
  end.

(** ** The clock queue *)

Definition cq_init (i : nat) : K unit :=
  do* upd_proc i (fun p => set_cq p (replicate (Z.to_nat CLOCKSIZE) (mk_cq (-1) 0 0))) in
  upd_proc i (fun p => set_clock_hand p (-1)).

(** First index from [i] whose node satisfies [f]. *)
Fixpoint cq_find (f : cq_node -> bool) (q : list cq_node) (i : Z) : option Z :=
  match q with
  | [] => None
  | n :: q' => if f n then Some i else cq_find f q' (i + 1)
  end.

(** [for(i=del_i; i!=old_hand; i++) cq[i] = cq[(i+1)%CLOCKSIZE]]; an index
    outside the array is a write outside [p->cq].  With fuel [CLOCKSIZE] the
    index has left the array when the fuel is gone. *)
Fixpoint cq_shift (fuel : nat) (i old_hand : Z) (q : list cq_node) : option (list cq_node) :=
  if i =? old_hand then Some q
  else match fuel with
       | O => None
       | S k =>
           match zget q (Z.rem (i + 1) CLOCKSIZE) with
           | None => None
           | Some n => match zset q i n with
                       | None => None
                       | Some q' => cq_shift k (i + 1) old_hand q'
                       end
           end
       end.

Definition cq_remove (pte : Z) : K unit :=
  let* me := my in
  let* p := get_proc me in
  let old_hand := clock_hand p in
  match cq_find (fun n => cq_pte n =? pte) (cq p) 0 with
  | None => ret tt
  | Some del_i =>
      match cq_shift (Z.to_nat CLOCKSIZE) del_i old_hand (cq p) with
      | None => fault "cq_remove: write outside cq"
      | Some q =>
          match zget q old_hand with
          | None => fault "cq_remove: clock_hand outside cq"
          | Some n =>
              let q' := <[Z.to_nat old_hand := mk_cq (-1) (cq_va n) (cq_pte n)]> q in
              let h := if old_hand =? 0 then CLOCKSIZE - 1 else old_hand - 1 in
              upd_proc me (fun p => set_clock_hand (set_cq p q') h)
          end
      end
  end.

(** ** User memory *)

Definition uva2ka (pgdir uva : Z) : K Z :=
  let* pte := walkpgdir pgdir uva false in
  if pte =? 0 then fault "uva2ka: null pte"
  else
    let* v := kread32 pte in
    if Z.lor (Z.land v PTE_P) (Z.land v PTE_E) =? 0 then ret 0
    else if Z.land v PTE_U =? 0 then ret 0
    else ret (P2V (PTE_ADDR v)).

(** The physical address of the leaf entry the MMU uses for a supervisor
    store to [va] ([CR0_WP] is set, so the page must be writable). *)
Definition hw_leaf (m : mem) (cr3 va : Z) : option Z :=
  let pde := read32 m (PTE_ADDR cr3 + 4 * PDX va) in
  if has pde PTE_P && has pde PTE_W then
    let a := PTE_ADDR pde + 4 * PTX va in
    let pte := read32 m a in
    if has pte PTE_P && has pte PTE_W then Some a else None
  else None.

(** [*va = ~*va] for a user address, executed by the kernel. *)
Definition flip_byte (va : Z) : K unit :=
  fun s =>
    match hw_leaf (phys s) (cr3 s) va with
    | None => Fault "page fault"
    | Some a =>
        let pte := read32 (phys s) a in
        let m := write32 (phys s) a (hw_mark pte) in
        let pa := PTE_ADDR pte + OFFSET va in
        Ret tt (with_phys s (write8 m pa (Z.lnot (read8 m pa))))
    end.

(** [for(offset<PGSIZE){ *slider = ~*slider; slider++; }] *)
Fixpoint flip_bytes (n : nat) (va : Z) : K unit :=
  match n with
  | O => ret tt
  | S k => do* flip_byte va in flip_bytes k (u32 (va + 1))
  end.

Definition flip_page (va : Z) : K unit := flip_bytes (Z.to_nat PGSIZE) va.

(** ** Encryption *)

(** The error-checking pass of [mencrypt]: [false] when some page cannot be
    accessed. *)
Fixpoint mencrypt_check (n : nat) (pgdir slider : Z) : K bool :=
  match n with
  | O => ret true
  | S k =>
      let* kvp := uva2ka pgdir slider in
      if kvp =? 0 then ret false
      else mencrypt_check k pgdir (u32 (slider + PGSIZE))
  end.

(** The flip has to come first: afterwards the access would fault. *)
Definition encrypt_page (mypte slider : Z) : K unit :=
  do* flip_page slider in
  let* v := kread32 mypte in
  do* kwrite32 mypte (clear v PTE_P) in
  let* v := kread32 mypte in
  kwrite32 mypte (set v PTE_E).

Fixpoint mencrypt_loop (n : nat) (pgdir slider : Z) : K unit :=
  match n with
  | O => ret tt
  | S k =>
      let* mypte := walkpgdir pgdir slider false in
      if mypte =? 0 then fault "mencrypt: null pte"
      else
        let* v := kread32 mypte in
        if has v PTE_E then mencrypt_loop k pgdir (u32 (slider + PGSIZE))
        else
          do* encrypt_page mypte slider in
          mencrypt_loop k pgdir (u32 (slider + PGSIZE))
  end.

Definition mencrypt (virtual_addr len : Z) : K Z :=
  let* me := my in
  let* p := get_proc me in
  let mypd := pgdir p in
  let va := PGROUNDDOWN virtual_addr in
  let* ok := mencrypt_check (Z.to_nat len) mypd va in
  if negb ok then ret (-1)
  else
    do* mencrypt_loop (Z.to_nat len) mypd va in
    do* switchuvm (Some me) in
    ret 0.

(** The hand's search of [cq_enset]. *)
Fixpoint cq_enset_loop (fuel : nat) (me : nat) (va pte hand : Z) : K Z :=
  match fuel with
  | O => fun _ => OutOfFuel
  | S k =>
      let hand := Z.rem (hand + 1) CLOCKSIZE in
      let* p := get_proc me in
      match zget (cq p) hand with
      | None => fault "cq_enset: clock_hand outside cq"
      | Some n =>
          if cq_empty n =? -1 then
            do* upd_proc me (fun p => set_cq p (<[Z.to_nat hand := mk_cq 0 va pte]> (cq p))) in
            ret hand
          else
            let* v := kread32 (cq_pte n) in
            if negb (has v PTE_A) then
              do* mencrypt (cq_va n) 1 in
              do* upd_proc me (fun p => set_cq p
                    (<[Z.to_nat hand := mk_cq (cq_empty n) va pte]> (cq p))) in
              ret hand
            else
              do* kwrite32 (cq_pte n) (clear v PTE_A) in
              cq_enset_loop k me va pte hand
      end
  end.

Definition cq_enset (va : Z) : K Z :=
  let* me := my in
  let* p := get_proc me in
  let* pte := walkpgdir (pgdir p) va false in
  if pte =? 0 then ret (-1)
  else
    match cq_find (fun n => (cq_pte n =? pte) && negb (cq_empty n =? -1)) (cq p) 0 with
    | Some _ => ret 0
    | None =>
        let* hand := cq_enset_loop (Z.to_nat (2 * CLOCKSIZE + 1)) me va pte (clock_hand p) in
        do* upd_proc me (fun p => set_clock_hand p hand) in
        ret 0
    end.

(** Present first, so that the flip does not fault. *)
Definition decrypt_page (pte slider : Z) : K unit :=
  let* v := kread32 pte in
  do* kwrite32 pte (clear v PTE_E) in
  let* v := kread32 pte in
  do* kwrite32 pte (set v PTE_P) in
  flip_page slider.

Definition mdecrypt (virtual_addr : Z) : K Z :=
  if 2147483648 <=? virtual_addr then ret (-1)
  else
    let* me := my in
    let* p := get_proc me in
    let* pte := walkpgdir (pgdir p) virtual_addr false in
    if pte =? 0 then ret (-1)
    else
      let* v := kread32 pte in
      if v =? 0 then ret (-1)
      else
        do* decrypt_page pte (PGROUNDDOWN virtual_addr) in
        let* r := cq_enset virtual_addr in
        if negb (r =? 0) then ret (-1)
        else do* switchuvm (Some me) in ret 0.

(** ** Growing and shrinking *)

Fixpoint deallocuvm_loop (fuel : nat) (pgdir a oldsz : Z) : K unit :=
  match fuel with
  | O => fun _ => OutOfFuel
  | S k =>
      if a <? oldsz then
        let* pte := walkpgdir pgdir a false in
        if pte =? 0 then
          deallocuvm_loop k pgdir (u32 (u32 (PGADDR (PDX a + 1) 0 0 - PGSIZE) + PGSIZE)) oldsz
        else
          let* v := kread32 pte in
          do* (if has v (Z.lor PTE_P PTE_E) then
                 let pa := PTE_ADDR v in
                 if pa =? 0 then panic "kfree"
                 else
                   do* kfree (P2V pa) in
                   do* cq_remove pte in
                   kwrite32 pte 0
               else ret tt) in
          deallocuvm_loop k pgdir (u32 (a + PGSIZE)) oldsz
      else ret tt
  end.

Definition deallocuvm (pgdir oldsz newsz : Z) : K Z :=
  if oldsz <=? newsz then ret oldsz
  else
    do* deallocuvm_loop (S (Z.to_nat (oldsz / PGSIZE + 1))) pgdir (PGROUNDUP newsz) oldsz in
    ret newsz.

Fixpoint allocuvm_loop (fuel : nat) (pgdir a oldsz newsz : Z) : K Z :=
  match fuel with
  | O => fun _ => OutOfFuel
  | S k =>
      if a <? newsz then
        let* mem := kalloc in
        if mem =? 0 then
          do* deallocuvm pgdir newsz oldsz in ret 0
        else
          do* kmodify_mem (fun m => memset m (V2P mem) 0 PGSIZE) in
          let* r := mappages pgdir a PGSIZE (V2P mem) (Z.lor PTE_W PTE_U) in
          if r <? 0 then
            do* deallocuvm pgdir newsz oldsz in
            do* kfree mem in
            ret 0
          else allocuvm_loop k pgdir (u32 (a + PGSIZE)) oldsz newsz
      else ret newsz
  end.

Definition allocuvm (pgdir oldsz newsz : Z) : K Z :=
  if KERNBASE <=? newsz then ret 0
  else if newsz <? oldsz then ret oldsz
  else allocuvm_loop (S (Z.to_nat (newsz / PGSIZE + 1))) pgdir (PGROUNDUP oldsz) oldsz newsz.

Fixpoint freevm_loop (n : nat) (pgdir i : Z) : K unit :=
  match n with
  | O => ret tt
  | S k =>
      let* e := kread32 (pgdir + 4 * i) in
      do* (if has e PTE_P then kfree (P2V (PTE_ADDR e)) else ret tt) in
      freevm_loop k pgdir (i + 1)
  end.

Definition freevm (pgdir : Z) : K unit :=
  if pgdir =? 0 then panic "freevm: no pgdir"
  else
    do* deallocuvm pgdir KERNBASE 0 in
    do* freevm_loop (Z.to_nat NPDENTRIES) pgdir 0 in
    kfree pgdir.

(** ** Kernel half *)

Record kmap_t := mk_kmap { virt : Z; phys_start : Z; phys_end : Z; kperm : Z }.

Definition kmap : list kmap_t :=
  [ mk_kmap KERNBASE 0 EXTMEM PTE_W;
    mk_kmap KERNLINK (V2P KERNLINK) (V2P ksym_data) 0;
    mk_kmap ksym_data (V2P ksym_data) PHYSTOP PTE_W;
    mk_kmap DEVSPACE DEVSPACE 0 PTE_W ].

Fixpoint setupkvm_loop (ks : list kmap_t) (pgdir : Z) : K Z :=
  match ks with
  | [] => ret pgdir
  | k :: ks' =>
      let* r := mappages pgdir (virt k) (u32 (phys_end k - phys_start k)) (phys_start k) (kperm k) in
      if r <? 0 then do* freevm pgdir in ret 0
      else setupkvm_loop ks' pgdir
  end.

Definition setupkvm : K Z :=
  let* pgdir := kalloc in
  if pgdir =? 0 then ret 0
  else
    do* kmodify_mem (fun m => memset m (V2P pgdir) 0 PGSIZE) in
    if DEVSPACE <? P2V PHYSTOP then panic "PHYSTOP too high"
    else setupkvm_loop kmap pgdir.

Definition kvmalloc : K unit :=
  let* d := setupkvm in
  do* modify (fun s => with_kpgdir s d) in
  switchkvm.

(** ** Loading and copying images *)

(** [init] is the kernel address of the image. *)
Definition inituvm (pgdir init sz : Z) : K unit :=
  if PGSIZE <=? sz then panic "inituvm: more than a page"
  else
    let* mem := kalloc in
    do* kmodify_mem (fun m => memset m (V2P mem) 0 PGSIZE) in
    do* mappages pgdir 0 PGSIZE (V2P mem) (Z.lor PTE_W PTE_U) in
    kmodify_mem (fun m => memmove m (V2P mem) (V2P init) sz).

Section Loaduvm.
(** [readi ip dst off n] of fs.c. *)
Context (readi : Z -> Z -> Z -> Z -> K Z).

Fixpoint loaduvm_loop (fuel : nat) (pgdir addr ip offset sz i : Z) : K Z :=
  match fuel with
  | O => fun _ => OutOfFuel
  | S k =>
      if i <? sz then
        let* pte := walkpgdir pgdir (u32 (addr + i)) false in
        if pte =? 0 then panic "loaduvm: address should exist"
        else
          let* v := kread32 pte in
          let n := if sz - i <? PGSIZE then sz - i else PGSIZE in
          let* r := readi ip (P2V (PTE_ADDR v)) (u32 (offset + i)) n in
          if negb (r =? n) then ret (-1)
          else loaduvm_loop k pgdir addr ip offset sz (i + PGSIZE)
      else ret 0
  end.

Definition loaduvm (pgdir addr ip offset sz : Z) : K Z :=
  if negb (addr mod PGSIZE =? 0) then panic "loaduvm: addr must be page aligned"
  else loaduvm_loop (S (Z.to_nat (sz / PGSIZE + 1))) pgdir addr ip offset sz 0.
End Loaduvm.

Definition clearpteu (pgdir uva : Z) : K unit :=
  let* pte := walkpgdir pgdir uva false in
  if pte =? 0 then panic "clearpteu"
  else let* v := kread32 pte in kwrite32 pte (clear v PTE_U).

Fixpoint copyuvm_loop (fuel : nat) (pgdir d sz i : Z) : K Z :=
  match fuel with
  | O => fun _ => OutOfFuel
  | S k =>
      if i <? sz then
        let* pte := walkpgdir pgdir i false in
        if pte =? 0 then panic "copyuvm: pte should exist"
        else
          let* v := kread32 pte in
          if negb (has v (Z.lor PTE_P PTE_E)) then panic "copyuvm: page not present"
          else
            let* mem := kalloc in
            if mem =? 0 then do* freevm d in ret 0
            else
              do* kmodify_mem (fun m => memmove m (V2P mem) (V2P (P2V (PTE_ADDR v))) PGSIZE) in
              let* r := mappages d i PGSIZE (V2P mem) (PTE_FLAGS v) in
              if r <? 0 then
                do* kfree mem in
                do* freevm d in ret 0
              else copyuvm_loop k pgdir d sz (i + PGSIZE)
      else ret d
  end.

Definition copyuvm (pgdir sz : Z) : K Z :=
  let* d := setupkvm in
  if d =? 0 then ret 0
  else copyuvm_loop (S (Z.to_nat (sz / PGSIZE + 1))) pgdir d sz 0.

(** [p] is a kernel pointer. *)
Fixpoint copyout_loop (fuel : nat) (pgdir va p len : Z) : K Z :=
  match fuel with
  | O => fun _ => OutOfFuel
  | S k =>
      if 0 <? len then
        let va0 := PGROUNDDOWN va in
        let* pa0 := uva2ka pgdir va0 in
        if pa0 =? 0 then ret (-1)
        else
          let n := PGSIZE - (va - va0) in
          let n := if len <? n then len else n in
          do* kmodify_mem (fun m => memmove m (V2P (u32 (pa0 + (va - va0)))) (V2P p) n) in
          copyout_loop k pgdir (u32 (va0 + PGSIZE)) (u32 (p + n)) (len - n)
      else ret 0
  end.

Definition copyout (pgdir va p len : Z) : K Z :=
  copyout_loop (S (Z.to_nat (len / PGSIZE + 2))) pgdir va p len.

(** ** User memory through the MMU

    The kernel's own accesses to user addresses, with the page-fault path of
    trap.c behind them: a fault calls [mdecrypt], and one that it cannot serve
    is a kernel panic.  (A fault that [mdecrypt] claims to have served but that
    recurs would repeat for ever; it is reported as a fault.) *)

(** A load needs the page present, a store also needs it writable. *)
Definition hw_leaf_load (m : mem) (cr3 va : Z) : option Z :=
  let pde := read32 m (PTE_ADDR cr3 + 4 * PDX va) in
  if has pde PTE_P then
    let a := PTE_ADDR pde + 4 * PTX va in
    if has (read32 m a) PTE_P then Some a else None
  else None.

(** A store that rewrites the byte it finds. *)
Definition hw_touch (va : Z) : K bool :=
  fun s => match hw_leaf (phys s) (cr3 s) va with
           | None => Ret false s
           | Some a => Ret true (with_phys s (write32 (phys s) a (hw_mark (read32 (phys s) a))))
           end.

Definition touch (va : Z) : K unit :=
  let* ok := hw_touch va in
  if ok then ret tt
  else
    let* r := mdecrypt va in
    if negb (r =? 0) then panic "trap"
    else
      let* ok := hw_touch va in
      if ok then ret tt else fault "page fault".

Definition hw_load (va : Z) : K (option Z) :=
  fun s => match hw_leaf_load (phys s) (cr3 s) va with
           | None => Ret None s
           | Some a =>
               let pte := read32 (phys s) a in
               let m := write32 (phys s) a (hw_mark pte) in
               Ret (Some (read8 m (PTE_ADDR pte + OFFSET va))) (with_phys s m)
           end.

Definition uload8 (va : Z) : K Z :=
  let* r := hw_load va in
  match r with
  | Some b => ret b
  | None =>
      let* r := mdecrypt va in
      if negb (r =? 0) then panic "trap"
      else
        let* r := hw_load va in
        match r with
        | Some b => ret b
        | None => fault "page fault"
        end
  end.

Definition ustore8 (va b : Z) : K unit :=
  do* touch va in
  fun s => match hw_leaf (phys s) (cr3 s) va with
           | None => Fault "page fault"
           | Some a => Ret tt (with_phys s (write8 (phys s) (PTE_ADDR (read32 (phys s) a) + OFFSET va) b))
           end.

Definition uload32 (va : Z) : K Z :=
  let* b0 := uload8 va in
  let* b1 := uload8 (u32 (va + 1)) in
  let* b2 := uload8 (u32 (va + 2)) in
  let* b3 := uload8 (u32 (va + 3)) in
  ret (b0 + 256 * b1 + 65536 * b2 + 16777216 * b3).

Definition ustore32 (va x : Z) : K unit :=
  do* ustore8 va x in
  do* ustore8 (u32 (va + 1)) (Z.shiftr x 8) in
  do* ustore8 (u32 (va + 2)) (Z.shiftr x 16) in
  ustore8 (u32 (va + 3)) (Z.shiftr x 24).

(** ** Introspection system calls *)

Definition pet_in_set (v : Z) : bool := has v PTE_P && has v (Z.lnot PTE_E).

(** A bit field of ptentry.h: the word of [struct pt_entry] that holds it, its
    first bit and its width. *)
Record pt_field := mk_pt_field { pf_word : Z; pf_bit : Z; pf_width : Z }.
Definition pe_pdx : pt_field := mk_pt_field 0 0 10.
Definition pe_ptx : pt_field := mk_pt_field 0 10 10.
Definition pe_ppage : pt_field := mk_pt_field 4 0 20.
Definition pe_present : pt_field := mk_pt_field 4 20 1.
Definition pe_writable : pt_field := mk_pt_field 4 21 1.
Definition pe_encrypted : pt_field := mk_pt_field 4 22 1.
Definition pe_user : pt_field := mk_pt_field 4 23 1.
Definition pe_ref : pt_field := mk_pt_field 4 24 1.
Definition sizeof_pt_entry : Z := 8.

(** [e->f = x] for an entry in user memory. *)
Definition put_field (f : pt_field) (w x : Z) : Z :=
  let mask := Z.shiftl (Z.ones (pf_width f)) (pf_bit f) in
  Z.lor (Z.land w (Z.lnot mask)) (Z.land (Z.shiftl x (pf_bit f)) mask).
Definition set_field (e : Z) (f : pt_field) (x : Z) : K unit :=
  let a := u32 (e + pf_word f) in
  let* w := uload32 a in
  ustore32 a (put_field f w x).

Definition bit01 (b : bool) : Z := if b then 1 else 0.

(** The body of the loop for page [i] with entry pointer [pte]: the entry is
    read again for each field, as the stores may fault and change it. *)
Definition fill_entry (e i pte : Z) : K unit :=
  do* set_field e pe_pdx (PDX i) in
  do* set_field e pe_ptx (PTX i) in
  let* v := kread32 pte in
  do* set_field e pe_ppage (PPN v) in
  let* v := kread32 pte in
  do* set_field e pe_present (bit01 (has v PTE_P)) in
  let* v := kread32 pte in
  do* set_field e pe_writable (bit01 (has v PTE_W)) in
  let* v := kread32 pte in
  do* set_field e pe_user (bit01 (has v PTE_U)) in
  let* v := kread32 pte in
  do* set_field e pe_encrypted (bit01 (has v PTE_E)) in
  let* v := kread32 pte in
  set_field e pe_ref (bit01 (negb (has v PTE_E) && has v PTE_A)).

(** The loop of [getpgtable] at page address [i]. *)
Fixpoint getpgtable_loop (fuel : nat) (pgdir entries i index num : Z) (wsetOnly : bool) : K Z :=
  match fuel with
  | O => fun _ => OutOfFuel
  | S k =>
      if (num <=? index) || (i =? 0) then ret index
      else
        let* pte := walkpgdir pgdir i false in
        let* v := (if pte =? 0 then ret 0 else kread32 pte) in
        if negb (v =? 0) && (negb wsetOnly || pet_in_set v) then
          do* fill_entry (u32 (entries + sizeof_pt_entry * index)) i pte in
          getpgtable_loop k pgdir entries (u32 (i - PGSIZE)) (index + 1) num wsetOnly
        else getpgtable_loop k pgdir entries (u32 (i - PGSIZE)) index num wsetOnly
  end.

(** [i] comes down to 0 in steps of a page. *)
Definition getpgtable (entries num wsetOnly : Z) : K Z :=
  if negb (wsetOnly =? 0) && negb (wsetOnly =? 1) then ret (-1)
  else
    let* me := my in
    let* p := get_proc me in
    let start := PGROUNDDOWN (sz p) in
    getpgtable_loop (S (Z.to_nat (start / PGSIZE))) (pgdir p) entries start 0 num (wsetOnly =? 1).

Definition dump_rawphymem (physical_addr buffer : Z) : K Z :=
  do* touch buffer in
  let* me := my in
  let* p := get_proc me in
  let* retval := copyout (pgdir p) buffer (P2V physical_addr) PGSIZE in
  if negb (retval =? 0) then ret (-1) else ret 0.

End Vm.
