(* ===== verification/VmTables.v ===== *)
(** * Page tables as a function from pages to entries

    The abstract view of the bytes of a two-level page table: [table_at]
    (the table a directory slot points to), [pte_slot] (where the entry of an
    address lives) and [pte_of] (its value, 0 when there is no table).
    [pgdir_wf] says that the pages a table is made of are distinct pages of
    RAM; under it a store to one entry changes the view at one page only. *)
From S2P Require Import Prelude Memory KString Mmu State Kalloc Vm.

Section VmTables.
Context `{PL : Platform}.

(** ** Views *)

Definition pde_addr (d i : Z) : Z := d - KERNBASE + 4 * i.

Definition table_at (m : mem) (d i : Z) : option Z :=
  let e := read32 m (pde_addr d i) in
  if has e PTE_P then Some (P2V (PTE_ADDR e)) else None.

Definition pte_slot (m : mem) (d va : Z) : option Z :=
  match table_at m d (PDX va) with
  | Some t => Some (t + 4 * PTX va)
  | None => None
  end.

Definition pte_of (m : mem) (d va : Z) : Z :=
  match pte_slot m d va with
  | Some a => read32 m (a - KERNBASE)
  | None => 0
  end.

(** ** Well-formed directories *)

Record pgdir_wf (m : mem) (d : Z) : Prop := {
  wf_dir : page_ok d;
  wf_tab : forall i t, 0 <= i < 1024 -> table_at m d i = Some t ->
    page_ok t /\ t <> d /\ has (read32 m (pde_addr d i)) PTE_W = true;
  wf_inj : forall i j t, 0 <= i < 1024 -> 0 <= j < 1024 ->
    table_at m d i = Some t -> table_at m d j = Some t -> i = j
}.

(** The pages the directory is made of, by kernel address. *)
Definition is_ptpage (m : mem) (d p : Z) : Prop :=
  p = d \/ exists i, 0 <= i < 1024 /\ table_at m d i = Some p.

Definition vaddr (va : Z) : Prop := 0 <= va < 4294967296.

(** ** Address arithmetic *)

Lemma pde_addr_in_page d i : 0 <= i < 1024 -> forall x, in_range (pde_addr d i) 4 x -> in_page d x.
Proof. unfold pde_addr, in_page, in_range. lia. Qed.

Lemma page_kaddr d o : page_ok d -> 0 <= o < 4096 -> V2P (d + o) = d - KERNBASE + o.
Proof.
  intros H%page_ok_bounds Ho. rewrite V2P_val; [lia|].
  unfold KERNLINK, KERNBASE, EXTMEM, PHYSTOP in *. lia.
Qed.

Lemma slot_addr t va : page_ok t -> V2P (t + 4 * PTX va) = t - KERNBASE + 4 * PTX va.
Proof. intros H. apply page_kaddr; [done|]. pose proof (PTX_range va). lia. Qed.

Lemma slot_in_page t va x : in_range (t - KERNBASE + 4 * PTX va) 4 x -> in_page t x.
Proof. unfold in_page, in_range. pose proof (PTX_range va). lia. Qed.

Lemma ptpage_ok m d p : pgdir_wf m d -> is_ptpage m d p -> page_ok p.
Proof. intros H [->|(i & Hi & E)]; [apply H|]. by eapply wf_tab. Qed.

Lemma pte_slot_Some m d va a :
  pte_slot m d va = Some a -> exists t, table_at m d (PDX va) = Some t /\ a = t + 4 * PTX va.
Proof. unfold pte_slot. destruct (table_at _ _ _) eqn:E; naive_solver. Qed.

Lemma pte_slot_ok m d va a :
  pgdir_wf m d -> vaddr va -> pte_slot m d va = Some a ->
  exists t, table_at m d (PDX va) = Some t /\ a = t + 4 * PTX va /\ page_ok t /\ t <> d.
Proof.
  intros Hwf Hva (t & Ht & ->)%pte_slot_Some. exists t.
  destruct (wf_tab _ _ Hwf _ _ (PDX_range va Hva) Ht) as (? & ? & ?). done.
Qed.

Lemma pte_slot_nonzero m d va a :
  pgdir_wf m d -> vaddr va -> pte_slot m d va = Some a -> a <> 0.
Proof.
  intros Hwf Hva H. destruct (pte_slot_ok _ _ _ _ Hwf Hva H) as (t & _ & -> & Ht & _).
  apply page_ok_bounds in Ht. pose proof (PTX_range va).
  unfold KERNLINK, KERNBASE, EXTMEM in *. lia.
Qed.

Lemma pte_slot_V2P m d va a :
  pgdir_wf m d -> vaddr va -> pte_slot m d va = Some a -> V2P a = a - KERNBASE.
Proof.
  intros Hwf Hva H. destruct (pte_slot_ok _ _ _ _ Hwf Hva H) as (t & _ & -> & Ht & _).
  rewrite slot_addr by done. lia.
Qed.

(** Entries of different pages live at different addresses. *)
Lemma pte_slot_inj m d va va' a :
  pgdir_wf m d -> vaddr va -> vaddr va' ->
  pte_slot m d va = Some a -> pte_slot m d va' = Some a -> va / 4096 = va' / 4096.
Proof.
  intros Hwf Hva Hva' H H'.
  destruct (pte_slot_ok _ _ _ _ Hwf Hva H) as (t & Ht & -> & Hok & _).
  destruct (pte_slot_ok _ _ _ _ Hwf Hva' H') as (t' & Ht' & E & Hok' & _).
  pose proof (PTX_range va). pose proof (PTX_range va').
  assert (t = t') as <-.
  { destruct Hok as [? _], Hok' as [? _]. Z.div_mod_to_equations. lia. }
  rewrite <- !PDX_PTX_vpn by done. f_equal; [|lia]. f_equal.
  eapply wf_inj; eauto using PDX_range.
Qed.

Lemma pte_slot_same_page m d va va' :
  vaddr va -> vaddr va' -> va / 4096 = va' / 4096 -> pte_slot m d va = pte_slot m d va'.
Proof. intros H H' E. destruct (PDX_same_page va va' E H H') as [E1 E2]. unfold pte_slot. by rewrite E1, E2. Qed.

Lemma pte_of_same_page m d va va' :
  vaddr va -> vaddr va' -> va / 4096 = va' / 4096 -> pte_of m d va = pte_of m d va'.
Proof. intros H H' E. unfold pte_of. by rewrite (pte_slot_same_page m d va va'). Qed.

Lemma pte_of_range m d va : 0 <= pte_of m d va < 4294967296.
Proof. unfold pte_of. destruct (pte_slot m d va); [apply read32_range|lia]. Qed.

(** ** Frame: stores outside the directory's pages *)

Section Frame.
Context (m m' : mem) (d : Z).
Hypothesis Hwf : pgdir_wf m d.
Hypothesis Hag : forall p, is_ptpage m d p -> agree (in_page p) m m'.

Lemma table_at_agree i : 0 <= i < 1024 -> table_at m' d i = table_at m d i.
Proof using Hag.
  intros Hi. unfold table_at. erewrite (read32_agree (in_page d) m m'); [done| |].
  - apply Hag. by left.
  - by apply pde_addr_in_page.
Qed.

Lemma pte_slot_agree va : vaddr va -> pte_slot m' d va = pte_slot m d va.
Proof using Hag. intros. unfold pte_slot. by rewrite table_at_agree by (by apply PDX_range). Qed.

Lemma pte_of_agree va : vaddr va -> pte_of m' d va = pte_of m d va.
Proof using Hag Hwf.
  intros Hva. unfold pte_of. rewrite pte_slot_agree by done.
  destruct (pte_slot m d va) as [a|] eqn:E; [|done].
  destruct (pte_slot_ok _ _ _ _ Hwf Hva E) as (t & Ht & -> & Hok & _).
  symmetry. eapply read32_agree; [apply (Hag t); right; eauto using PDX_range|].
  intros b Hb. apply (slot_in_page t va). unfold in_range in *. lia.
Qed.

Lemma pgdir_wf_agree : pgdir_wf m' d.
Proof using Hag Hwf.
  split.
  - apply Hwf.
  - intros i t Hi. rewrite table_at_agree by done. intros Ht.
    destruct (wf_tab _ _ Hwf _ _ Hi Ht) as (? & ? & E). split; [done|]. split; [done|].
    rewrite <- E. f_equal. symmetry. eapply read32_agree; [apply (Hag d); by left|].
    by apply pde_addr_in_page.
  - intros i j t Hi Hj. rewrite !table_at_agree by done. by apply (wf_inj _ _ Hwf).
Qed.

Lemma is_ptpage_agree p : is_ptpage m' d p <-> is_ptpage m d p.
Proof using Hag.
  unfold is_ptpage. f_equiv. f_equiv. intros i. split; intros [Hi H]; (split; [done|]);
    by rewrite ?table_at_agree in * by done.
Qed.
End Frame.

(** ** Storing an entry *)

Section StorePte.
Context (m m' : mem) (d va t w : Z).
Hypothesis Hwf : pgdir_wf m d.
Hypothesis Hva : vaddr va.
Hypothesis Ht : table_at m d (PDX va) = Some t.
Let a := t - KERNBASE + 4 * PTX va.
Hypothesis Hrd : read32 m' a = w.
Hypothesis Hag : forall p x, is_ptpage m d p -> in_page p x -> ~ in_range a 4 x ->
  read8 m' x = read8 m x.

Lemma store_dir_agree : agree (in_page d) m m'.
Proof using Hag Ht Hva Hwf.
  destruct (wf_tab _ _ Hwf _ _ (PDX_range va Hva) Ht) as ([Hta _] & Htd & _).
  destruct (wf_dir _ _ Hwf) as [Hda _].
  intros x Hx. symmetry. apply (Hag d); [by left|done|]. intros Hx'%slot_in_page.
  apply Htd. eapply in_page_inj; eauto.
Qed.

Lemma store_table_at i : 0 <= i < 1024 -> table_at m' d i = table_at m d i.
Proof using Hag Ht Hva Hwf.
  intros Hi. unfold table_at. erewrite (read32_agree (in_page d) m m'); [done| |].
  - apply store_dir_agree.
  - by apply pde_addr_in_page.
Qed.

Lemma store_pgdir_wf : pgdir_wf m' d.
Proof using Hag Ht Hva Hwf.
  split.
  - apply Hwf.
  - intros i t' Hi. rewrite store_table_at by done. intros Ht'.
    destruct (wf_tab _ _ Hwf _ _ Hi Ht') as (? & ? & E). split; [done|]. split; [done|].
    rewrite <- E. f_equal. symmetry. eapply read32_agree; [apply store_dir_agree|].
    by apply pde_addr_in_page.
  - intros i j t' Hi Hj. rewrite !store_table_at by done. by apply (wf_inj _ _ Hwf).
Qed.

Lemma store_is_ptpage p : is_ptpage m' d p <-> is_ptpage m d p.
Proof using Hag Ht Hva Hwf.
  unfold is_ptpage. f_equiv. f_equiv. intros i. split; intros [Hi H]; (split; [done|]);
    by rewrite ?store_table_at in * by done.
Qed.

Lemma store_pte_slot va' : vaddr va' -> pte_slot m' d va' = pte_slot m d va'.
Proof using Hag Ht Hva Hwf.
  intros. unfold pte_slot. by rewrite store_table_at by (by apply PDX_range).
Qed.

Lemma store_pte_of va' :
  vaddr va' -> pte_of m' d va' = if decide (va / 4096 = va' / 4096) then w else pte_of m d va'.
Proof using Hag Ht Hva Hwf Hrd.
  intros Hva'. unfold pte_of. rewrite store_pte_slot by done.
  assert (Ea : pte_slot m d va = Some (t + 4 * PTX va)) by (unfold pte_slot; by rewrite Ht).
  case_decide as E.
  - rewrite <- (pte_slot_same_page m d va va'), Ea by done. rewrite <- Hrd. f_equal.
    unfold a. lia.
  - destruct (pte_slot m d va') as [a'|] eqn:Ea'; [|done].
    destruct (pte_slot_ok _ _ _ _ Hwf Hva' Ea') as (t' & Ht' & -> & Hok' & _).
    destruct (wf_tab _ _ Hwf _ _ (PDX_range va Hva) Ht) as (Hok & _ & _).
    apply read32_ext. intros x Hx. unfold in_range in Hx.
    assert (Hx' : in_page t' x) by (apply (slot_in_page t' va'); unfold in_range; lia).
    apply (Hag t'); [right; eauto using PDX_range|done|].
    intros Hxa. apply E. apply (pte_slot_inj m d va va' (t + 4 * PTX va)); try done.
    rewrite Ea'. f_equal.
    assert (t = t') as <-.
    { destruct Hok as [? _], Hok' as [? _]. eapply in_page_inj; eauto using slot_in_page. }
    unfold a, in_range in Hxa. lia.
Qed.
End StorePte.

End VmTables.
