(* ===== verification/VmCrypt.v ===== *)
(** * Encryption of user pages

    What [mencrypt], [mdecrypt] and the clock queue of vm.c do to a user
    address space.  The abstract view of an address space is the plaintext
    its user sees ([plain]): the byte itself on a decrypted page, its
    complement on an encrypted one. *)
From S2P Require Import Prelude Memory KString Mmu State Kalloc Vm VmTables.

Section VmCrypt.
Context `{PL : Platform}.

(** ** Entries up to accessed and dirty bits *)

Definition ad_eq (v w : Z) : Prop :=
  forall n, 0 <= n -> n <> 5 -> n <> 6 -> Z.testbit v n = Z.testbit w n.

#[global] Instance ad_eq_equiv : Equivalence ad_eq.
Proof.
  split; [done | by intros v w H n ? ? ?; rewrite H | ].
  intros v w x H1 H2 n ? ? ?. by rewrite H1, H2.
Qed.

Lemma ad_eq_hw_mark v : ad_eq (hw_mark v) v.
Proof. intros n ? ? ?. by apply hw_mark_bits. Qed.

Lemma ad_eq_has v w k : ad_eq v w -> 0 <= k -> k <> 5 -> k <> 6 -> has v (2 ^ k) = has w (2 ^ k).
Proof. intros H ? ? ?. rewrite !has_testbit by done. by apply H. Qed.

Lemma ad_eq_P v w : ad_eq v w -> has v PTE_P = has w PTE_P.
Proof. intros H. by apply (ad_eq_has v w 0 H). Qed.
Lemma ad_eq_W v w : ad_eq v w -> has v PTE_W = has w PTE_W.
Proof. intros H. by apply (ad_eq_has v w 1 H). Qed.
Lemma ad_eq_U v w : ad_eq v w -> has v PTE_U = has w PTE_U.
Proof. intros H. by apply (ad_eq_has v w 2 H). Qed.
Lemma ad_eq_E v w : ad_eq v w -> has v PTE_E = has w PTE_E.
Proof. intros H. by apply (ad_eq_has v w 10 H). Qed.
Lemma ad_eq_addr v w : ad_eq v w -> PTE_ADDR v = PTE_ADDR w.
Proof. intros H. apply PTE_ADDR_ext. intros n Hn. apply H; lia. Qed.
Lemma ad_eq_range v w : ad_eq v w -> 0 <= w < 4294967296 -> 0 <= v < 4294967296.
Proof.
  intros H Hw. apply bits_range32. intros n Hn. rewrite H by lia. by apply range32_bits.
Qed.

(** ** User address spaces *)

Definition uaddr (va : Z) : Prop := 0 <= va < KERNBASE.

Lemma uaddr_vaddr va : uaddr va -> vaddr va.
Proof. unfold uaddr, vaddr, KERNBASE. lia. Qed.

Definition mapped (v : Z) : bool := has v PTE_P || has v PTE_E.
Definition frame (v : Z) : Z := PTE_ADDR v + KERNBASE.

Record uspace (m : mem) (d : Z) : Prop := {
  us_wf : pgdir_wf m d;
  us_ok : forall va, uaddr va -> mapped (pte_of m d va) = true -> page_ok (frame (pte_of m d va));
  us_frame : forall va, uaddr va -> mapped (pte_of m d va) = true ->
    ~ is_ptpage m d (frame (pte_of m d va));
  us_inj : forall va va', uaddr va -> uaddr va' ->
    mapped (pte_of m d va) = true -> mapped (pte_of m d va') = true ->
    PTE_ADDR (pte_of m d va) = PTE_ADDR (pte_of m d va') -> va / 4096 = va' / 4096;
  us_w : forall va, uaddr va -> mapped (pte_of m d va) = true -> has (pte_of m d va) PTE_W = true;
  us_excl : forall va, uaddr va -> has (pte_of m d va) PTE_P && has (pte_of m d va) PTE_E = false
}.

(** The byte in memory behind a user address, and the byte its user means. *)
Definition ubyte (m : mem) (d va : Z) : Z := read8 m (PTE_ADDR (pte_of m d va) + OFFSET va).
Definition plain (m : mem) (d va : Z) : Z :=
  if has (pte_of m d va) PTE_E then 255 - ubyte m d va else ubyte m d va.

(** [m'] is [m] with the entry of page [va] replaced by [w] and the bytes of
    its frame complemented when [fl]. *)
Definition page_upd (m m' : mem) (t va f w : Z) (fl : bool) : Prop :=
  read32 m' (t - KERNBASE + 4 * PTX va) = w /\
  (forall x, ~ in_range (t - KERNBASE + 4 * PTX va) 4 x -> ~ in_range f 4096 x ->
     read8 m' x = read8 m x) /\
  (forall x, in_range f 4096 x -> read8 m' x = if fl then 255 - read8 m x else read8 m x).

Lemma mapped_table m d va :
  mapped (pte_of m d va) = true -> exists t, table_at m d (PDX va) = Some t.
Proof.
  unfold pte_of, pte_slot. destruct (table_at _ _ _); [eauto|]. done.
Qed.

Lemma pte_of_table m d va t :
  table_at m d (PDX va) = Some t -> pte_of m d va = read32 m (t - KERNBASE + 4 * PTX va).
Proof. intros H. unfold pte_of, pte_slot. rewrite H. f_equal. lia. Qed.

Lemma OFFSET_range va : 0 <= OFFSET va < 4096.
Proof. rewrite OFFSET_val. apply Z.mod_pos_bound. lia. Qed.

Section PageUpd.
Context (m m' : mem) (d va t w : Z) (fl : bool).
Hypothesis Hus : uspace m d.
Hypothesis Hva : uaddr va.
Hypothesis Ht : table_at m d (PDX va) = Some t.
Let v := pte_of m d va.
Hypothesis Hmap : mapped v = true.
Hypothesis Hupd : page_upd m m' t va (PTE_ADDR v) w fl.
Hypothesis Haddr : PTE_ADDR w = PTE_ADDR v.

Lemma upd_pt_agree p x :
  is_ptpage m d p -> in_page p x -> ~ in_range (t - KERNBASE + 4 * PTX va) 4 x ->
  read8 m' x = read8 m x.
Proof using Hus Hva Hmap Hupd.
  intros Hp Hx Hxa. destruct Hupd as (_ & H2 & _). apply H2; [done|].
  intros Hf. apply (us_frame _ _ Hus va Hva Hmap).
  replace (frame (pte_of m d va)) with p; [done|].
  eapply (in_page_inj _ _ x).
  - by apply (ptpage_ok m d p), Hp; apply Hus.
  - unfold frame. rewrite PTE_ADDR_val. unfold KERNBASE. Z.div_mod_to_equations. lia.
  - done.
  - unfold in_page, frame. replace (PTE_ADDR (pte_of m d va) + KERNBASE - KERNBASE)
      with (PTE_ADDR v) by (unfold v; lia). done.
Qed.

Lemma upd_pte_of va' : vaddr va' ->
  pte_of m' d va' = if decide (va / 4096 = va' / 4096) then w else pte_of m d va'.
Proof using Hus Hva Ht Hmap Hupd.
  apply (store_pte_of m m' d va t w); eauto using us_wf, uaddr_vaddr, upd_pt_agree. apply Hupd.
Qed.

Lemma upd_pgdir_wf : pgdir_wf m' d.
Proof using Hus Hva Ht Hmap Hupd.
  apply (store_pgdir_wf m m' d va t); eauto using us_wf, uaddr_vaddr, upd_pt_agree.
Qed.

Lemma upd_is_ptpage p : is_ptpage m' d p <-> is_ptpage m d p.
Proof using Hus Hva Ht Hmap Hupd.
  apply (store_is_ptpage m m' d va t); eauto using us_wf, uaddr_vaddr, upd_pt_agree.
Qed.

Lemma upd_pte_slot va' : vaddr va' -> pte_slot m' d va' = pte_slot m d va'.
Proof using Hus Hva Ht Hmap Hupd.
  apply (store_pte_slot m m' d va t); eauto using us_wf, uaddr_vaddr, upd_pt_agree.
Qed.

Lemma upd_table_at i : 0 <= i < 1024 -> table_at m' d i = table_at m d i.
Proof using Hus Hva Ht Hmap Hupd.
  apply (store_table_at m m' d va t); eauto using us_wf, uaddr_vaddr, upd_pt_agree.
Qed.

(** The old entry of a page is mapped and has the same frame. *)
Lemma upd_mapped_old va' : uaddr va' -> mapped w = true ->
  mapped (pte_of m' d va') = true ->
  mapped (pte_of m d va') = true /\ PTE_ADDR (pte_of m' d va') = PTE_ADDR (pte_of m d va').
Proof using Hus Hva Ht Hmap Hupd Haddr.
  intros Hva' Hmw. rewrite upd_pte_of by (by apply uaddr_vaddr). case_decide as E; [|done].
  intros _. rewrite <- (pte_of_same_page m d va va') by auto using uaddr_vaddr. done.
Qed.

Lemma upd_uspace :
  mapped w = true -> has w PTE_W = true -> has w PTE_P && has w PTE_E = false -> uspace m' d.
Proof using Hus Hva Ht Hmap Hupd Haddr.
  intros Hmw Hw Hex. split.
  - apply upd_pgdir_wf.
  - intros va' Hva' Hm'. destruct (upd_mapped_old va' Hva' Hmw Hm') as [Hm E].
    unfold frame. rewrite E. by apply us_ok.
  - intros va' Hva' Hm'. destruct (upd_mapped_old va' Hva' Hmw Hm') as [Hm E].
    rewrite upd_is_ptpage. unfold frame. rewrite E. by apply us_frame.
  - intros x y Hx Hy Hmx Hmy. destruct (upd_mapped_old x Hx Hmw Hmx) as [Hmx' ->].
    destruct (upd_mapped_old y Hy Hmw Hmy) as [Hmy' ->]. by apply us_inj.
  - intros va' Hva' Hm'. destruct (upd_mapped_old va' Hva' Hmw Hm') as [Hm E].
    rewrite upd_pte_of by (by apply uaddr_vaddr). case_decide; [done|]. by apply us_w.
  - intros va' Hva'. rewrite upd_pte_of by (by apply uaddr_vaddr).
    case_decide; [done|]. by apply us_excl.
Qed.

Lemma upd_ubyte x :
  uaddr x -> mapped (pte_of m d x) = true ->
  ubyte m' d x =
    if decide (va / 4096 = x / 4096) then
      if fl then 255 - ubyte m d x else ubyte m d x
    else ubyte m d x.
Proof using Hus Hva Ht Hmap Hupd Haddr.
  intros Hx Hmx. unfold ubyte. rewrite upd_pte_of by (by apply uaddr_vaddr).
  pose proof (OFFSET_range x) as Ho. destruct Hupd as (_ & H2 & H3).
  case_decide as E.
  - rewrite Haddr. rewrite <- (pte_of_same_page m d va x) by auto using uaddr_vaddr.
    rewrite H3; [done|]. unfold in_range, v. lia.
  - apply H2.
    + (* the slot is in a table page, the frame is not one *)
      intros Hs%slot_in_page. apply (us_frame _ _ Hus x Hx Hmx). right.
      exists (PDX va). split; [by apply PDX_range, uaddr_vaddr|]. rewrite Ht. f_equal.
      apply (in_page_inj _ _ (PTE_ADDR (pte_of m d x) + OFFSET x)); [| |done|].
      * by destruct (wf_tab _ _ (us_wf _ _ Hus) _ _ (PDX_range va (uaddr_vaddr _ Hva)) Ht) as ([? _] & _).
      * unfold frame. rewrite PTE_ADDR_val. unfold KERNBASE. Z.div_mod_to_equations. lia.
      * unfold in_page, in_range, frame. lia.
    + intros Hf. apply E. apply (us_inj _ _ Hus); try done.
      unfold in_range in Hf. fold v. rewrite !PTE_ADDR_val in *. Z.div_mod_to_equations. lia.
Qed.

(** Flipping the bytes exactly when the E bit changes leaves the plaintext
    alone. *)
Lemma upd_plain x :
  xorb (has v PTE_E) (has w PTE_E) = fl ->
  uaddr x -> mapped (pte_of m d x) = true -> plain m' d x = plain m d x.
Proof using Hus Hva Ht Hmap Hupd Haddr.
  intros Hfl Hx Hmx. unfold plain. rewrite upd_ubyte, upd_pte_of by auto using uaddr_vaddr.
  case_decide as E; [|done].
  rewrite <- (pte_of_same_page m d va x) by auto using uaddr_vaddr. fold v. subst fl.
  destruct (has v PTE_E), (has w PTE_E); simpl; lia.
Qed.
End PageUpd.

(** ** Flipping a page through the MMU *)

Lemma PTE_ADDR_id x : x mod 4096 = 0 -> PTE_ADDR x = x.
Proof. intros. rewrite PTE_ADDR_val. Z.div_mod_to_equations. lia. Qed.

Lemma hw_mark_range v : 0 <= v < 4294967296 -> 0 <= hw_mark v < 4294967296.
Proof. apply ad_eq_range, ad_eq_hw_mark. Qed.

Section Flip.
Context (d t va f : Z).
Hypothesis Hd : page_ok d.
Hypothesis Ht : page_ok t.
Hypothesis Htd : t <> d.
Hypothesis Hva : vaddr va.
Hypothesis Hal : va mod 4096 = 0.
Hypothesis Hf : f mod 4096 = 0.
Hypothesis Hfd : f + KERNBASE <> d.
Hypothesis Hft : f + KERNBASE <> t.
Let a := t - KERNBASE + 4 * PTX va.

(** The MMU reaches frame [f] for page [va] through entry [v]. *)
Record reach (m : mem) (v : Z) : Prop := {
  rc_tab : table_at m d (PDX va) = Some t;
  rc_pde_w : has (read32 m (pde_addr d (PDX va))) PTE_W = true;
  rc_val : read32 m a = v;
  rc_f : PTE_ADDR v = f;
  rc_p : has v PTE_P = true;
  rc_w : has v PTE_W = true
}.

Lemma frame_not_pt x : in_range f 4096 x -> ~ in_page d x /\ ~ in_page t x.
Proof using All.
  intros Hx. assert (in_page (f + KERNBASE) x) as Hx'.
  { unfold in_page. by replace (f + KERNBASE - KERNBASE) with f by lia. }
  assert (Hm : (f + KERNBASE) mod 4096 = 0) by (unfold KERNBASE; Z.div_mod_to_equations; lia).
  split; intros H.
  - apply Hfd. eapply in_page_inj; eauto. by destruct Hd.
  - apply Hft. eapply in_page_inj; eauto. by destruct Ht.
Qed.

Lemma reach_leaf m v o :
  reach m v -> 0 <= o < 4096 -> hw_leaf m (d - KERNBASE) (va + o) = Some a.
Proof using All.
  intros [H1 H2 H3 H4 H5 H6] Ho.
  assert (Hvo : vaddr (va + o)) by (unfold vaddr in *; Z.div_mod_to_equations; lia).
  destruct (PDX_same_page (va + o) va) as [E1 E2]; [Z.div_mod_to_equations; lia|done|done|].
  unfold hw_leaf. rewrite E1, E2. unfold table_at in H1.
  rewrite (PTE_ADDR_id (d - KERNBASE))
    by (destruct Hd as [Hd' _]; unfold KERNBASE; Z.div_mod_to_equations; lia).
  change (d - KERNBASE + 4 * PDX va) with (pde_addr d (PDX va)).
  destruct (has (read32 m (pde_addr d (PDX va))) PTE_P); [|done].
  rewrite H2. cbn [andb]. injection H1 as Et.
  assert (PTE_ADDR (read32 m (pde_addr d (PDX va))) = t - KERNBASE) as ->.
  { rewrite <- (page_ok_V2P t Ht), <- Et.
    pose proof (PTE_ADDR_range _ (read32_range m (pde_addr d (PDX va)))).
    symmetry. apply V2P_P2V. lia. }
  fold a. rewrite H3, H5, H6. done.
Qed.

Lemma slot_word_not_frame x : in_range a 4 x -> ~ in_range f 4096 x.
Proof using All. intros H1%slot_in_page H2%frame_not_pt. tauto. Qed.

Definition flip1 (m : mem) (v o : Z) : mem :=
  write8 (write32 m a (hw_mark v)) (f + o) (Z.lnot (read8 m (f + o))).

Lemma flip_byte_spec s v o :
  reach (phys s) v -> 0 <= o < 4096 -> cr3 s = d - KERNBASE ->
  flip_byte (va + o) s = Ret tt (with_phys s (flip1 (phys s) v o)) /\
  reach (flip1 (phys s) v o) (hw_mark v).
Proof using All.
  intros Hr Ho Hc. assert (HL := reach_leaf _ _ _ Hr Ho). destruct Hr as [H1 H2 H3 H4 H5 H6].
  assert (Hoff : OFFSET (va + o) = o) by (rewrite OFFSET_val; Z.div_mod_to_equations; lia).
  assert (Hin : in_range f 4096 (f + o)) by (unfold in_range; lia).
  pose proof (read32_range (phys s) a) as Hv. rewrite H3 in Hv.
  split.
  - unfold flip_byte. rewrite Hc, HL, H3, H4, Hoff.
    do 2 f_equal. unfold flip1. f_equal. f_equal. apply read8_write32_ne.
    intros Hx%slot_word_not_frame. tauto.
  - assert (Hpd : agree (in_page d) (flip1 (phys s) v o) (phys s)).
    { intros x Hx. unfold flip1. destruct (frame_not_pt _ Hin) as [Hnd _].
      rewrite read8_write8_ne by congruence. apply read8_write32_ne.
      intros Hxa%slot_in_page. apply Htd. destruct Hd, Ht. eapply in_page_inj; eauto. }
    assert (Epde : read32 (flip1 (phys s) v o) (pde_addr d (PDX va)) =
                   read32 (phys s) (pde_addr d (PDX va))).
    { eapply read32_agree; [apply Hpd|]. by apply pde_addr_in_page, PDX_range. }
    split.
    + unfold table_at in *. by rewrite Epde.
    + by rewrite Epde.
    + unfold flip1. rewrite read32_write8_ne.
      * apply read32_write32_eq. by apply hw_mark_range.
      * intros Hx%slot_word_not_frame. tauto.
    + by rewrite (ad_eq_addr _ _ (ad_eq_hw_mark v)).
    + by rewrite (ad_eq_P _ _ (ad_eq_hw_mark v)).
    + by rewrite (ad_eq_W _ _ (ad_eq_hw_mark v)).
Qed.

Lemma u8_lnot x : 0 <= x < 256 -> u8 (Z.lnot x) = 255 - x.
Proof using All. intros. unfold u8, Z.lnot. Z.div_mod_to_equations. lia. Qed.

Lemma read8_flip1_frame m v o x :
  in_range f 4096 x -> 0 <= o < 4096 ->
  read8 (flip1 m v o) x = if decide (x = f + o) then 255 - read8 m x else read8 m x.
Proof using All.
  intros Hx Ho. unfold flip1. rewrite read8_write8. case_decide as E; case_decide; try congruence.
  - subst x. apply u8_lnot, read8_range.
  - apply read8_write32_ne. intros Hxa%slot_word_not_frame. tauto.
Qed.

Lemma read8_flip1_other m v o x :
  ~ in_range f 4096 x -> ~ in_range a 4 x -> 0 <= o < 4096 -> read8 (flip1 m v o) x = read8 m x.
Proof using All.
  intros Hx Hxa Ho. unfold flip1. rewrite read8_write8_ne by (unfold in_range in *; lia).
  by apply read8_write32_ne.
Qed.

Lemma flip_bytes_spec n o s v :
  reach (phys s) v -> 0 <= o -> o + Z.of_nat n <= 4096 -> cr3 s = d - KERNBASE ->
  va + 4096 < 4294967296 ->
  exists m' w, flip_bytes n (va + o) s = Ret tt (with_phys s m') /\
    ad_eq w v /\ reach m' w /\
    (forall x, in_range f 4096 x -> read8 m' x =
       if decide (in_range (f + o) (Z.of_nat n) x) then 255 - read8 (phys s) x
       else read8 (phys s) x) /\
    (forall x, ~ in_range f 4096 x -> ~ in_range a 4 x -> read8 m' x = read8 (phys s) x).
Proof using All.
  revert o s v. induction n as [|n IH]; intros o s v Hr Ho Hn Hc Hmax.
  - exists (phys s), v. cbn [flip_bytes]. split; [by destruct s|].
    split; [done|]. split; [done|]. split; [|done].
    intros x Hx. case_decide; [unfold in_range in *; lia|done].
  - destruct (flip_byte_spec s v o Hr ltac:(lia) Hc) as [E1 Hr1].
    destruct (IH (o + 1) (with_phys s (flip1 (phys s) v o)) (hw_mark v))
      as (m' & w & E2 & Had & Hr' & Hfr & Hot); [done|lia|lia|done|done|].
    exists m', w. split.
    { cbn [flip_bytes]. rewrite (bind_Ret _ _ _ _ _ E1).
      rewrite u32_small by (unfold vaddr in *; lia).
      replace (va + o + 1) with (va + (o + 1)) by lia. by rewrite E2. }
    split; [by rewrite Had, ad_eq_hw_mark|]. split; [done|]. split.
    + intros x Hx. rewrite Hfr by done. cbn [phys with_phys].
      rewrite read8_flip1_frame by (done || lia).
      unfold in_range in *. repeat case_decide; try lia; done.
    + intros x Hx Hxa. rewrite Hot by done. cbn [phys with_phys].
      by rewrite read8_flip1_other by (done || lia).
Qed.
End Flip.

(** ** Composing page updates *)

Lemma page_upd_refl m t va f w :
  read32 m (t - KERNBASE + 4 * PTX va) = w -> page_upd m m t va f w false.
Proof. by split. Qed.

Lemma page_upd_trans m1 m2 m3 t va f w2 w3 b1 b2 :
  page_upd m1 m2 t va f w2 b1 -> page_upd m2 m3 t va f w3 b2 ->
  page_upd m1 m3 t va f w3 (xorb b1 b2).
Proof.
  intros (H1 & H2 & H3) (H1' & H2' & H3'). split; [done|]. split.
  - intros x Hx Hf. by rewrite H2', H2.
  - intros x Hx. rewrite H3', H3 by done. destruct b1, b2; simpl; lia.
Qed.

Lemma in_frame v x : in_page (frame v) x <-> in_range (PTE_ADDR v) 4096 x.
Proof. unfold in_page, in_range, frame. lia. Qed.

Section Uspace.
Context (m : mem) (d va : Z).
Hypothesis Hus : uspace m d.
Hypothesis Hva : uaddr va.
Hypothesis Hmap : mapped (pte_of m d va) = true.

Lemma mapped_slot : exists t, table_at m d (PDX va) = Some t /\
  pte_slot m d va = Some (t + 4 * PTX va) /\ page_ok t /\ t <> d /\
  has (read32 m (pde_addr d (PDX va))) PTE_W = true.
Proof using All.
  destruct (mapped_table _ _ _ Hmap) as [t Ht]. exists t. unfold pte_slot. rewrite Ht.
  destruct (wf_tab _ _ (us_wf _ _ Hus) _ _ (PDX_range va (uaddr_vaddr _ Hva)) Ht)
    as (? & ? & ?). done.
Qed.

Lemma frame_apart t : table_at m d (PDX va) = Some t ->
  frame (pte_of m d va) <> d /\ frame (pte_of m d va) <> t.
Proof using All.
  intros Ht. pose proof (us_frame _ _ Hus va Hva Hmap) as Hn. split; intros E; apply Hn.
  - by left.
  - right. exists (PDX va). rewrite E. split; [by apply PDX_range, uaddr_vaddr|done].
Qed.

(** A further store to the same entry. *)
Lemma page_upd_rewrite m' t w w' b :
  table_at m d (PDX va) = Some t -> 0 <= w' < 4294967296 ->
  page_upd m m' t va (PTE_ADDR (pte_of m d va)) w b ->
  page_upd m (write32 m' (t - KERNBASE + 4 * PTX va) w') t va (PTE_ADDR (pte_of m d va)) w' b.
Proof using All.
  intros Ht Hw (H1 & H2 & H3). destruct (frame_apart t Ht) as [_ Hft].
  split; [by apply read32_write32_eq|]. split.
  - intros x Hx Hf. by rewrite read8_write32_ne, H2.
  - intros x Hx. rewrite <- H3 by done. apply read8_write32_ne. intros Hs%slot_in_page.
    apply Hft. destruct mapped_slot as (t' & Ht' & _ & [Hta _] & _). simplify_eq.
    destruct (us_ok _ _ Hus va Hva Hmap) as [? _]. apply in_frame in Hx.
    eapply (in_page_inj _ _ x); eauto.
Qed.

Lemma page_upd_write t w :
  table_at m d (PDX va) = Some t -> 0 <= w < 4294967296 ->
  page_upd m (write32 m (t - KERNBASE + 4 * PTX va) w) t va (PTE_ADDR (pte_of m d va)) w false.
Proof using All.
  intros Ht Hw. eapply (page_upd_rewrite m t _ w false Ht Hw). by apply page_upd_refl.
Qed.

(** The flip of a present page. *)
Lemma flip_page_upd s t :
  phys s = m -> cr3 s = d - KERNBASE -> va mod 4096 = 0 ->
  has (pte_of m d va) PTE_P = true -> table_at m d (PDX va) = Some t ->
  exists m' w, flip_page va s = Ret tt (with_phys s m') /\ ad_eq w (pte_of m d va) /\
    page_upd m m' t va (PTE_ADDR (pte_of m d va)) w true.
Proof using All.
  intros Hs Hc Hal HP Ht. destruct mapped_slot as (t' & Ht' & _ & Htok & Htd & Hpw).
  assert (t' = t) as -> by congruence.
  destruct (frame_apart t Ht) as [Hfd Hft]. unfold frame in Hfd, Hft.
  assert (Hr : reach d t va (PTE_ADDR (pte_of m d va)) (phys s) (pte_of m d va)).
  { rewrite Hs. split; [done|done| |done|done|].
    - by rewrite (pte_of_table _ _ _ _ Ht).
    - by apply us_w. }
  destruct (flip_bytes_spec d t va (PTE_ADDR (pte_of m d va))
    ltac:(apply Hus) Htok Htd (uaddr_vaddr _ Hva) Hal (PTE_ADDR_aligned _) Hfd Hft
    (Z.to_nat PGSIZE) 0 s _ Hr) as (m' & w & E & Had & Hr' & Hin & Hout);
    [lia|unfold PGSIZE; lia|done|unfold uaddr, KERNBASE in *; lia|].
  exists m', w. rewrite Z.add_0_r in E. split; [done|]. split; [done|]. rewrite <- Hs.
  split; [by destruct Hr'|]. split; [intros; apply Hout; by rewrite <- ?Hs|].
  intros x Hx. rewrite Hs in Hx. rewrite Hin by done. rewrite Z.add_0_r. unfold PGSIZE.
  rewrite Z2Nat.id by lia. by case_decide.
Qed.
End Uspace.

(** ** The same address space up to encryption *)

Record crypt_rel (m m' : mem) (d : Z) : Prop := {
  cr_us : uspace m' d;
  cr_tab : forall i, 0 <= i < 1024 -> table_at m' d i = table_at m d i;
  cr_mapped : forall x, uaddr x -> mapped (pte_of m' d x) = mapped (pte_of m d x);
  cr_U : forall x, uaddr x -> has (pte_of m' d x) PTE_U = has (pte_of m d x) PTE_U;
  cr_addr : forall x, uaddr x -> PTE_ADDR (pte_of m' d x) = PTE_ADDR (pte_of m d x);
  cr_plain : forall x, uaddr x -> mapped (pte_of m d x) = true -> plain m' d x = plain m d x;
  cr_out : forall b, (forall p, is_ptpage m d p -> ~ in_page p b) ->
    (forall x, uaddr x -> mapped (pte_of m d x) = true -> ~ in_page (frame (pte_of m d x)) b) ->
    read8 m' b = read8 m b
}.

Lemma crypt_rel_refl m d : uspace m d -> crypt_rel m m d.
Proof. by split. Qed.

Lemma cr_slot m m' d x : crypt_rel m m' d -> uaddr x -> pte_slot m' d x = pte_slot m d x.
Proof.
  intros H Hx. unfold pte_slot. by rewrite (cr_tab _ _ _ H) by (by apply PDX_range, uaddr_vaddr).
Qed.

Lemma crypt_rel_trans m1 m2 m3 d : crypt_rel m1 m2 d -> crypt_rel m2 m3 d -> crypt_rel m1 m3 d.
Proof.
  intros [A1 A2 A3 A4 A5 A6 A7] [B1 B2 B3 B4 B5 B6 B7]. split.
  - done.
  - intros i Hi. by rewrite B2, A2.
  - intros x Hx. by rewrite B3, A3.
  - intros x Hx. by rewrite B4, A4.
  - intros x Hx. by rewrite B5, A5.
  - intros x Hx Hm. rewrite B6, A6; [done|done|done|done|]. by rewrite A3.
  - intros b Hb1 Hb2. rewrite B7, A7; [done|done|done| |].
    + intros p [->|(i & Hi & E)]; apply Hb1; [by left|]. right. exists i. by rewrite <- A2.
    + intros x Hx Hm. unfold frame. rewrite A5 by done. apply Hb2; [done|]. by rewrite <- A3.
Qed.

Lemma upd_crypt_rel m m' d va t w fl :
  uspace m d -> uaddr va -> table_at m d (PDX va) = Some t ->
  mapped (pte_of m d va) = true ->
  page_upd m m' t va (PTE_ADDR (pte_of m d va)) w fl ->
  PTE_ADDR w = PTE_ADDR (pte_of m d va) -> mapped w = true -> has w PTE_W = true ->
  has w PTE_P && has w PTE_E = false -> has w PTE_U = has (pte_of m d va) PTE_U ->
  xorb (has (pte_of m d va) PTE_E) (has w PTE_E) = fl ->
  crypt_rel m m' d.
Proof.
  intros Hus Hva Ht Hmap Hupd Ha Hmw Hw Hex HU Hfl.
  assert (Hpte := upd_pte_of m m' d va t w fl Hus Hva Ht Hmap Hupd).
  assert (Hsame : forall x, uaddr x -> va / 4096 = x / 4096 -> pte_of m d x = pte_of m d va).
  { intros x Hx E. symmetry. by apply pte_of_same_page; [by apply uaddr_vaddr..|]. }
  split.
  - eapply upd_uspace; eauto.
  - intros i Hi. eapply (upd_table_at m m' d va t w fl); eauto.
  - intros x Hx. rewrite Hpte by (by apply uaddr_vaddr). case_decide; [|done].
    by rewrite Hsame, Hmap.
  - intros x Hx. rewrite Hpte by (by apply uaddr_vaddr). case_decide; [|done]. by rewrite Hsame.
  - intros x Hx. rewrite Hpte by (by apply uaddr_vaddr). case_decide; [|done]. by rewrite Hsame.
  - intros x Hx Hm. by apply (upd_plain m m' d va t w fl).
  - intros b Hb1 Hb2. destruct Hupd as (_ & H2 & _). apply H2.
    + intros Hs%slot_in_page. apply (Hb1 t); [|done]. right. exists (PDX va).
      split; [by apply PDX_range, uaddr_vaddr|done].
    + rewrite <- in_frame. by apply Hb2.
Qed.

End VmCrypt.
