(* ===== verification/VmEnc.v ===== *)
(** * Correctness of mencrypt, mdecrypt and the clock queue

    Functional behaviour of the encryption entry points of vm.c on a
    well-formed address space: what they return, what they do to the page
    they are asked about, and that they never change the plaintext of any
    page of the process. *)
From S2P Require Import Prelude Memory KString Mmu State Kalloc Vm VmTables VmCrypt.

Section VmEnc.
Context `{PL : Platform}.

(** ** Walking without allocation *)

Lemma walk_false s d va :
  pgdir_wf (phys s) d -> vaddr va ->
  walkpgdir d va false s = Ret (default 0 (pte_slot (phys s) d va)) s.
Proof.
  intros Hwf Hva. unfold walkpgdir, bind, kread32, gets, pte_slot, table_at, pde_addr.
  rewrite page_kaddr by (first [apply Hwf | pose proof (PDX_range va Hva); lia]).
  by destruct (has _ PTE_P).
Qed.

Lemma walk_some s d va a :
  pgdir_wf (phys s) d -> vaddr va -> pte_slot (phys s) d va = Some a ->
  walkpgdir d va false s = Ret a s /\ (a =? 0) = false.
Proof.
  intros Hwf Hva H. rewrite walk_false, H by done. split; [done|].
  apply Z.eqb_neq. by eapply pte_slot_nonzero.
Qed.

Lemma walk_none s d va :
  pgdir_wf (phys s) d -> vaddr va -> pte_slot (phys s) d va = None ->
  walkpgdir d va false s = Ret 0 s.
Proof. intros Hwf Hva H. by rewrite walk_false, H. Qed.

Lemma kread_slot s d va a :
  pgdir_wf (phys s) d -> vaddr va -> pte_slot (phys s) d va = Some a ->
  kread32 a s = Ret (pte_of (phys s) d va) s.
Proof.
  intros Hwf Hva H. unfold kread32, gets, pte_of. by rewrite H, (pte_slot_V2P _ _ _ _ Hwf Hva H).
Qed.

Lemma lor_land_mapped v :
  (Z.lor (Z.land v PTE_P) (Z.land v PTE_E) =? 0) = negb (mapped v).
Proof.
  unfold mapped. rewrite <- has_lor. unfold has. rewrite negb_involutive.
  by rewrite Z.land_lor_distr_r.
Qed.

Definition accessible (v : Z) : bool := mapped v && has v PTE_U.

Lemma uva2ka_spec s d va a :
  pgdir_wf (phys s) d -> vaddr va -> pte_slot (phys s) d va = Some a ->
  uva2ka d va s =
  Ret (if accessible (pte_of (phys s) d va) then P2V (PTE_ADDR (pte_of (phys s) d va)) else 0) s.
Proof.
  intros Hwf Hva H. destruct (walk_some s d va a Hwf Hva H) as [Ew En].
  unfold uva2ka. rewrite (bind_Ret _ _ _ _ _ Ew), En. rewrite (bind_Ret _ _ _ _ _ (kread_slot s d va a Hwf Hva H)), lor_land_mapped.
  unfold accessible. destruct (mapped _); [|done]. cbn [negb andb].
  unfold has. by destruct (Z.land (pte_of (phys s) d va) PTE_U =? 0).
Qed.

(** ** Encrypting one page *)

Definition same_else (m m' : mem) (d va : Z) : Prop :=
  forall x, uaddr x -> x / 4096 <> va / 4096 -> pte_of m' d x = pte_of m d x.

Lemma kwrite_slot s t va w :
  page_ok t ->
  kwrite32 (t + 4 * PTX va) w s =
  Ret tt (with_phys s (write32 (phys s) (t - KERNBASE + 4 * PTX va) w)).
Proof. intros Ht. unfold kwrite32, modify. by rewrite slot_addr. Qed.

Lemma kread_table s t va :
  page_ok t -> kread32 (t + 4 * PTX va) s = Ret (read32 (phys s) (t - KERNBASE + 4 * PTX va)) s.
Proof. intros Ht. unfold kread32, gets. by rewrite slot_addr. Qed.

Lemma upd_same_else m m' d va t w fl :
  uspace m d -> uaddr va -> table_at m d (PDX va) = Some t -> mapped (pte_of m d va) = true ->
  page_upd m m' t va (PTE_ADDR (pte_of m d va)) w fl ->
  pte_of m' d va = w /\ same_else m m' d va.
Proof.
  intros Hus Hva Ht Hm Hu. split.
  - rewrite (upd_pte_of m m' d va t w fl) by auto using uaddr_vaddr. by case_decide.
  - intros x Hx Hne. rewrite (upd_pte_of m m' d va t w fl) by auto using uaddr_vaddr.
    case_decide; [congruence|done].
Qed.

Lemma encrypt_page_spec s d va a :
  uspace (phys s) d -> uaddr va -> va mod 4096 = 0 -> cr3 s = d - KERNBASE ->
  pte_slot (phys s) d va = Some a ->
  has (pte_of (phys s) d va) PTE_P = true ->
  exists m', encrypt_page a va s = Ret tt (with_phys s m') /\
    crypt_rel (phys s) m' d /\ same_else (phys s) m' d va /\
    has (pte_of m' d va) PTE_E = true /\ has (pte_of m' d va) PTE_P = false.
Proof.
  intros Hus Hva Hal Hc Ha HP.
  assert (Hmap : mapped (pte_of (phys s) d va) = true) by (unfold mapped; by rewrite HP).
  destruct (mapped_slot _ _ _ Hus Hva Hmap) as (t & Ht & Hsl & Htok & _).
  assert (a = t + 4 * PTX va) as -> by congruence.
  destruct (flip_page_upd _ _ _ Hus Hva Hmap s t eq_refl Hc Hal HP Ht) as (m1 & w1 & E1 & Had & Hu1).
  set (v := pte_of (phys s) d va) in *.
  assert (Hw1 : 0 <= w1 < 4294967296) by (eapply ad_eq_range; [done|apply pte_of_range]).
  set (sl := t - KERNBASE + 4 * PTX va) in *.
  pose proof (page_upd_rewrite _ _ _ Hus Hva Hmap m1 t w1 (clear w1 PTE_P) true Ht
    (clear_range _ _ Hw1) Hu1) as Hu2. fold sl v in Hu2.
  set (w3 := set (clear w1 PTE_P) PTE_E).
  assert (Hw3 : 0 <= w3 < 4294967296) by (apply (set_range _ 10); [lia|by apply clear_range]).
  pose proof (page_upd_rewrite _ _ _ Hus Hva Hmap _ t _ w3 true Ht Hw3 Hu2) as Hu3.
  fold sl v in Hu3.
  exists (write32 (write32 m1 sl (clear w1 PTE_P)) sl w3).
  assert (HPw : has w3 PTE_P = false) by (unfold w3; pte_simpl; done).
  assert (HEw : has w3 PTE_E = true) by (unfold w3; pte_simpl; done).
  assert (Hex : has v PTE_E = false) by (pose proof (us_excl _ _ Hus va Hva) as He; fold v in He; by rewrite HP in He).
  destruct (upd_same_else _ _ _ _ _ _ _ Hus Hva Ht Hmap Hu3) as [Ep Hse].
  split; [|split; [|split; [done|by rewrite Ep]]].
  - unfold encrypt_page. rewrite (bind_Ret _ _ _ _ _ E1).
    rewrite (bind_Ret _ _ _ _ _ (kread_table _ t va Htok)). cbn [phys with_phys]. fold sl.
    replace (read32 m1 sl) with w1 by (symmetry; apply Hu1).
    rewrite (bind_Ret _ _ _ _ _ (kwrite_slot _ t va _ Htok)). cbn [phys with_phys]. fold sl.
    rewrite (bind_Ret _ _ _ _ _ (kread_table _ t va Htok)). cbn [phys with_phys]. fold sl.
    rewrite read32_write32_eq by (by apply clear_range).
    rewrite (kwrite_slot _ t va _ Htok). done.
  - eapply (upd_crypt_rel _ _ d va t w3 true); try done.
    + unfold w3. pte_simpl. by apply ad_eq_addr.
    + unfold mapped. by rewrite HEw, orb_true_r.
    + unfold w3. pte_simpl. change (2 ^ 1) with PTE_W. rewrite (ad_eq_W _ _ Had). by apply us_w.
    + by rewrite HPw.
    + unfold w3. pte_simpl. change (2 ^ 2) with PTE_U. by rewrite (ad_eq_U _ _ Had).
    + fold v. by rewrite Hex, HEw.
Qed.

(** ** mencrypt *)

(** All of the [n] pages from [va] can be accessed by the user. *)
Fixpoint all_acc (m : mem) (d va : Z) (n : nat) : bool :=
  match n with
  | O => true
  | S k => accessible (pte_of m d va) && all_acc m d (va + 4096) k
  end.

(** The [n] pages from the page-aligned address [va] are user addresses. *)
Definition upages (va : Z) (n : nat) : Prop :=
  va mod 4096 = 0 /\ 0 <= va /\ va + 4096 * Z.of_nat n <= KERNBASE.

Lemma upages_S va n : upages va (S n) -> uaddr va /\ upages (va + 4096) n /\
  u32 (va + PGSIZE) = va + 4096.
Proof.
  unfold upages, uaddr, PGSIZE, KERNBASE. intros (H1 & H2 & H3). split; [lia|]. split.
  - split; [Z.div_mod_to_equations; lia|lia].
  - apply u32_small. lia.
Qed.

Lemma page_ok_P2V v : page_ok (frame v) -> 0 <= v -> (P2V (PTE_ADDR v) =? 0) = false.
Proof.
  intros H Hv. apply page_ok_bounds in H. unfold frame in H.
  assert (0 <= PTE_ADDR v) by (rewrite PTE_ADDR_val; Z.div_mod_to_equations; lia).
  rewrite P2V_val; unfold KERNLINK, KERNBASE, PHYSTOP, EXTMEM in *; lia.
Qed.

Lemma accessible_mapped v : accessible v = true -> mapped v = true.
Proof. unfold accessible. by intros [? _]%andb_true_iff. Qed.

(** Accessible pages have page tables. *)
Lemma all_acc_slot m d n : forall va i,
  uspace m d -> upages va n -> all_acc m d va n = true -> 0 <= i < Z.of_nat n ->
  is_Some (pte_slot m d (va + 4096 * i)).
Proof.
  induction n as [|n IH]; intros va i Hus Hp Hacc Hi; [lia|].
  destruct (upages_S _ _ Hp) as (Hva & Hp' & _). cbn [all_acc] in Hacc. apply andb_true_iff in Hacc as [Ha Hacc].
  destruct (decide (i = 0)) as [->|].
  - rewrite Z.mul_0_r, Z.add_0_r. destruct (mapped_slot _ _ _ Hus Hva (accessible_mapped _ Ha)) as (t & _ & -> & _). by eexists.
  - replace (va + 4096 * i) with (va + 4096 + 4096 * (i - 1)) by lia. apply IH; try done. lia.
Qed.

Lemma mencrypt_check_spec n s d va :
  uspace (phys s) d -> upages va n ->
  (forall i, 0 <= i < Z.of_nat n -> is_Some (pte_slot (phys s) d (va + 4096 * i))) ->
  mencrypt_check n d va s = Ret (all_acc (phys s) d va n) s.
Proof.
  revert va. induction n as [|n IH]; intros va Hus Hp Hsl; [done|].
  destruct (upages_S _ _ Hp) as (Hva & Hp' & E). cbn [mencrypt_check all_acc].
  destruct (Hsl 0 ltac:(lia)) as [a Ha]. rewrite Z.mul_0_r, Z.add_0_r in Ha.
  rewrite (bind_Ret _ _ _ _ _ (uva2ka_spec s d va a (us_wf _ _ Hus) (uaddr_vaddr _ Hva) Ha)).
  destruct (accessible _) eqn:Eacc; cbn [andb].
  - rewrite page_ok_P2V; [|by apply us_ok, accessible_mapped|apply pte_of_range].
    rewrite E. apply IH; [done|done|]. intros i Hi.
    specialize (Hsl (i + 1) ltac:(lia)). by replace (va + 4096 + 4096 * i) with (va + 4096 * (i + 1)) by lia.
  - done.
Qed.

(** The pass stops at the first page that cannot be accessed: with [false] when
    the page has a page table, at a null entry when it has none. *)
Definition check_stop (slot : option Z) (s : kstate) : outcome kstate bool :=
  match slot with Some _ => Ret false s | None => Fault "uva2ka: null pte" end.

Lemma uva2ka_null s d va :
  pgdir_wf (phys s) d -> vaddr va -> pte_slot (phys s) d va = None -> uva2ka d va s = Fault "uva2ka: null pte".
Proof. intros Hwf Hva H. unfold uva2ka. by rewrite (bind_Ret _ _ _ _ _ (walk_none s d va Hwf Hva H)). Qed.

Lemma mencrypt_check_stops k : forall n s d va,
  uspace (phys s) d -> upages va (S k) -> (k < n)%nat -> all_acc (phys s) d va k = true ->
  accessible (pte_of (phys s) d (va + 4096 * Z.of_nat k)) = false ->
  mencrypt_check n d va s = check_stop (pte_slot (phys s) d (va + 4096 * Z.of_nat k)) s.
Proof.
  induction k as [|k IH]; intros [|n] s d va Hus Hp Hk Hacc Hbad; try lia;
    destruct (upages_S _ _ Hp) as (Hva & Hp' & E); cbn [mencrypt_check]; pose proof (us_wf _ _ Hus) as Hwf.
  - rewrite Z.mul_0_r, Z.add_0_r in *. destruct (pte_slot (phys s) d va) as [a|] eqn:Ea.
    + rewrite (bind_Ret _ _ _ _ _ (uva2ka_spec s d va a Hwf (uaddr_vaddr _ Hva) Ea)), Hbad. done.
    + unfold bind. by rewrite (uva2ka_null s d va Hwf (uaddr_vaddr _ Hva) Ea).
  - cbn [all_acc] in Hacc. apply andb_true_iff in Hacc as [Ha Hacc].
    destruct (mapped_slot _ _ _ Hus Hva (accessible_mapped _ Ha)) as (t & _ & Hsl & _).
    rewrite (bind_Ret _ _ _ _ _ (uva2ka_spec s d va _ Hwf (uaddr_vaddr _ Hva) Hsl)), Ha.
    rewrite page_ok_P2V by (by apply us_ok, accessible_mapped || apply pte_of_range). rewrite E.
    replace (va + 4096 * Z.of_nat (S k)) with (va + 4096 + 4096 * Z.of_nat k) in * by lia.
    apply IH; try done; lia.
Qed.

(** [x] is an address of the [n] pages from [va]. *)
Definition in_pages (va : Z) (n : nat) (x : Z) : Prop := in_range va (4096 * Z.of_nat n) x.

Lemma same_else_off (m m' : mem) d va x :
  same_else m m' d va -> va mod 4096 = 0 -> uaddr x -> ~ in_range va 4096 x ->
  pte_of m' d x = pte_of m d x.
Proof.
  intros H Hal Hx Hn. apply H; [done|]. unfold in_range in Hn. Z.div_mod_to_equations. lia.
Qed.

Lemma in_page_same m d va x :
  uaddr va -> uaddr x -> va mod 4096 = 0 -> in_range va 4096 x -> pte_of m d x = pte_of m d va.
Proof.
  intros Hva Hx Hal Hin. apply pte_of_same_page; [by apply uaddr_vaddr..|].
  unfold in_range in Hin. Z.div_mod_to_equations. lia.
Qed.

Lemma all_acc_ext m m' d b n :
  upages b n -> (forall x, uaddr x -> b <= x -> pte_of m' d x = pte_of m d x) ->
  all_acc m' d b n = all_acc m d b n.
Proof.
  revert b. induction n as [|n IH]; intros b Hp H; [done|].
  destruct (upages_S _ _ Hp) as (Hb & Hp' & _). cbn [all_acc].
  rewrite H by (done || lia). f_equal. apply IH; [done|]. intros x Hx Hle. apply H; [done|lia].
Qed.

(** One iteration of the encrypting loop. *)
Lemma mencrypt_one (k : K unit) s d va t :
  uspace (phys s) d -> cr3 s = d - KERNBASE -> uaddr va -> va mod 4096 = 0 ->
  mapped (pte_of (phys s) d va) = true ->
  pte_slot (phys s) d va = Some (t + 4 * PTX va) ->
  exists m1,
    (if has (pte_of (phys s) d va) PTE_E then k
     else do* encrypt_page (t + 4 * PTX va) va in k) s = k (with_phys s m1) /\
    crypt_rel (phys s) m1 d /\ same_else (phys s) m1 d va /\
    has (pte_of m1 d va) PTE_E = true /\ has (pte_of m1 d va) PTE_P = false.
Proof.
  intros Hus Hc Hva Hpg Hm Hsl. destruct (has (pte_of (phys s) d va) PTE_E) eqn:EE.
  - exists (phys s). split; [by destruct s|]. split; [by apply crypt_rel_refl|].
    split; [done|]. split; [done|]. pose proof (us_excl _ _ Hus va Hva) as He.
    by rewrite EE, andb_true_r in He.
  - assert (HP : has (pte_of (phys s) d va) PTE_P = true).
    { unfold mapped in Hm. by rewrite EE, orb_false_r in Hm. }
    destruct (encrypt_page_spec s d va _ Hus Hva Hpg Hc Hsl HP) as (m1 & E1 & H1).
    exists m1. by rewrite (bind_Ret _ _ _ _ _ E1).
Qed.

Lemma mencrypt_loop_spec n s d va :
  uspace (phys s) d -> cr3 s = d - KERNBASE -> upages va n ->
  all_acc (phys s) d va n = true ->
  exists m', mencrypt_loop n d va s = Ret tt (with_phys s m') /\
    crypt_rel (phys s) m' d /\
    (forall x, uaddr x -> in_pages va n x ->
       has (pte_of m' d x) PTE_E = true /\ has (pte_of m' d x) PTE_P = false) /\
    (forall x, uaddr x -> ~ in_pages va n x -> pte_of m' d x = pte_of (phys s) d x).
Proof.
  revert s va. induction n as [|n IH]; intros s va Hus Hc Hp Hacc.
  { exists (phys s). split; [by destruct s|]. split; [by apply crypt_rel_refl|].
    unfold in_pages, in_range. split; [lia|done]. }
  destruct (upages_S _ _ Hp) as (Hva & Hp' & E). assert (Hpg : va mod 4096 = 0) by apply Hp.
  cbn [all_acc] in Hacc. apply andb_true_iff in Hacc as [Ha Hacc].
  assert (Hm := accessible_mapped _ Ha).
  destruct (mapped_slot _ _ _ Hus Hva Hm) as (t & _ & Hsl & _).
  destruct (walk_some s d va _ (us_wf _ _ Hus) (uaddr_vaddr _ Hva) Hsl) as [Ew En].
  cbn [mencrypt_loop]. rewrite (bind_Ret _ _ _ _ _ Ew), En.
  rewrite (bind_Ret _ _ _ _ _ (kread_slot s d va _ (us_wf _ _ Hus) (uaddr_vaddr _ Hva) Hsl)), E.
  destruct (mencrypt_one (mencrypt_loop n d (va + 4096)) s d va t Hus Hc Hva Hpg Hm Hsl)
    as (m1 & -> & Hcr & Hse & HE & HP).
  destruct (IH (with_phys s m1) (va + 4096)) as (m' & E' & Hcr' & Hin & Hout);
    [apply Hcr|done|done| |].
  { cbn [phys with_phys]. rewrite <- Hacc. apply all_acc_ext; [done|].
    intros x Hx Hle. apply (same_else_off _ _ _ _ _ Hse Hpg Hx). unfold in_range. lia. }
  cbn [phys with_phys] in *. exists m'. split; [by rewrite E'|].
  split; [by eapply crypt_rel_trans|]. unfold in_pages in *. split.
  - intros x Hx Hxin. destruct (decide (in_range va 4096 x)) as [Hi|Hi].
    + rewrite Hout by (done || (unfold in_range in *; lia)).
      by rewrite (in_page_same _ _ _ _ Hva Hx Hpg Hi).
    + apply Hin; [done|]. unfold in_range in *. lia.
  - intros x Hx Hxin. rewrite Hout by (done || (unfold in_range in *; lia)).
    apply (same_else_off _ _ _ _ _ Hse Hpg Hx). unfold in_range in *. lia.
Qed.

(** ** The current process *)

(** What the encryption code relies on: a current process with a kernel
    stack and a well-formed address space that is loaded in [cr3]. *)
Record cur_ok (s : kstate) (me : nat) (p : proc) : Prop := {
  co_cur : curproc s = Some me;
  co_proc : ptable s !! me = Some p;
  co_kstack : kstack p <> 0;
  co_us : uspace (phys s) (pgdir p);
  co_cr3 : cr3 s = pgdir p - KERNBASE
}.

(** The state after [switchuvm]. *)
Definition switched (s : kstate) (p : proc) : kstate :=
  let d := SEG16 STS_T32A ksym_ts 103 0 in
  with_cr3 (with_ts s (Z.shiftl SEG_KDATA 3) (u32 (kstack p + KSTACKSIZE)) 0xFFFF
    (mk_segdesc (lim_15_0 d) (base_15_0 d) (base_23_16 d) (sd_type d) 0 (sd_dpl d)
       (sd_p d) (lim_19_16 d) (sd_avl d) (sd_rsv1 d) (sd_db d) (sd_g d) (base_31_24 d)))
    (V2P (pgdir p)).

Lemma switchuvm_spec s i p :
  ptable s !! i = Some p -> kstack p <> 0 -> pgdir p <> 0 ->
  switchuvm (Some i) s = Ret tt (switched s p).
Proof.
  intros Hp Hk Hd. unfold switchuvm, bind, get_proc. rewrite Hp.
  by rewrite (proj2 (Z.eqb_neq _ _) Hk), (proj2 (Z.eqb_neq _ _) Hd).
Qed.

Lemma cur_ok_switched s me p : cur_ok s me p -> cur_ok (switched s p) me p.
Proof.
  intros [H1 H2 H3 H4 H5]. split; try done. cbn. apply page_ok_V2P, H4.
Qed.

Lemma cur_ok_phys s me p m' : cur_ok s me p -> uspace m' (pgdir p) -> cur_ok (with_phys s m') me p.
Proof. intros [H1 H2 H3 H4 H5] H. by split. Qed.

Lemma cur_ok_pgdir s me p : cur_ok s me p -> pgdir p <> 0.
Proof. intros H. apply page_ok_nonzero, (co_us _ _ _ H). Qed.

(** [mencrypt] on [len] pages that have page tables: either every page can be
    accessed, and they are all encrypted, or nothing is changed. *)
Lemma mencrypt_spec s me p va0 len :
  cur_ok s me p -> upages (PGROUNDDOWN va0) (Z.to_nat len) ->
  (forall i, 0 <= i < len -> is_Some (pte_slot (phys s) (pgdir p) (PGROUNDDOWN va0 + 4096 * i))) ->
  if all_acc (phys s) (pgdir p) (PGROUNDDOWN va0) (Z.to_nat len) then
    exists m', mencrypt va0 len s = Ret 0 (switched (with_phys s m') p) /\
      crypt_rel (phys s) m' (pgdir p) /\
      (forall x, uaddr x -> in_pages (PGROUNDDOWN va0) (Z.to_nat len) x ->
         has (pte_of m' (pgdir p) x) PTE_E = true /\ has (pte_of m' (pgdir p) x) PTE_P = false) /\
      (forall x, uaddr x -> ~ in_pages (PGROUNDDOWN va0) (Z.to_nat len) x ->
         pte_of m' (pgdir p) x = pte_of (phys s) (pgdir p) x)
  else mencrypt va0 len s = Ret (-1) s.
Proof.
  intros Hok Hp Hsl. pose proof (mencrypt_check_spec (Z.to_nat len) s (pgdir p) (PGROUNDDOWN va0)
    (co_us _ _ _ Hok) Hp) as Hck.
  assert (E : mencrypt va0 len s = bind (mencrypt_check (Z.to_nat len) (pgdir p) (PGROUNDDOWN va0))
    (fun ok => if negb ok then ret (-1) else
       do* mencrypt_loop (Z.to_nat len) (pgdir p) (PGROUNDDOWN va0) in
       do* switchuvm (Some me) in ret 0) s).
  { unfold mencrypt, bind, my, get_proc. by rewrite (co_cur _ _ _ Hok), (co_proc _ _ _ Hok). }
  rewrite E, (bind_Ret _ _ _ _ _ (Hck ltac:(intros; apply Hsl; lia))).
  destruct (all_acc _ _ _ _) eqn:Ea; [|done]. cbn [negb].
  destruct (mencrypt_loop_spec (Z.to_nat len) s (pgdir p) (PGROUNDDOWN va0) (co_us _ _ _ Hok)
    (co_cr3 _ _ _ Hok) Hp Ea) as (m' & E' & Hrest). exists m'. split; [|done].
  rewrite (bind_Ret _ _ _ _ _ E'), (bind_Ret _ _ _ tt (switched (with_phys s m') p)); [done|].
  apply switchuvm_spec; [apply (co_proc _ _ _ Hok)|apply (co_kstack _ _ _ Hok)|].
  by eapply cur_ok_pgdir.
Qed.

(** [mencrypt] whose first inaccessible page is number [k]. *)
Lemma mencrypt_stops s me p va0 len k :
  cur_ok s me p -> upages (PGROUNDDOWN va0) (S k) -> Z.of_nat k < len ->
  all_acc (phys s) (pgdir p) (PGROUNDDOWN va0) k = true ->
  let page := PGROUNDDOWN va0 + 4096 * Z.of_nat k in
  accessible (pte_of (phys s) (pgdir p) page) = false ->
  mencrypt va0 len s =
    match pte_slot (phys s) (pgdir p) page with
    | Some _ => Ret (-1) s
    | None => Fault "uva2ka: null pte"
    end.
Proof.
  intros Hok Hp Hk Hacc page Hbad. unfold mencrypt, bind, my, get_proc.
  rewrite (co_cur _ _ _ Hok), (co_proc _ _ _ Hok).
  rewrite (mencrypt_check_stops k) by (try done; try apply Hok; lia). fold page.
  by destruct (pte_slot (phys s) (pgdir p) page).
Qed.

End VmEnc.
