(* ===== verification/VmClock.v ===== *)
(** * The per-process clock queue of vm.c

    [cq_enset] and [mdecrypt] on a process whose queue is well formed: they
    return, they keep the queue well formed, and they leave the plaintext of
    the address space alone. *)
From S2P Require Import Prelude Memory KString Mmu State Kalloc Vm VmTables VmCrypt VmEnc.

Section VmClock.
Context `{PL : Platform}.

Definition occupied (n : cq_node) : bool := negb (cq_empty n =? -1).

(** A queue entry names a page its process can access, by the page's own
    entry; no entry is queued twice. *)
Record cq_ok (m : mem) (p : proc) : Prop := {
  cq_len : length (cq p) = Z.to_nat CLOCKSIZE;
  cq_hand : -1 <= clock_hand p < CLOCKSIZE;
  cq_node_ok : forall n, n ∈ cq p -> occupied n = true ->
    uaddr (cq_va n) /\ pte_slot m (pgdir p) (cq_va n) = Some (cq_pte n) /\
    accessible (pte_of m (pgdir p) (cq_va n)) = true;
  cq_nodup : forall i j n n', cq p !! i = Some n -> cq p !! j = Some n' ->
    occupied n = true -> occupied n' = true -> cq_pte n = cq_pte n' -> i = j
}.

Lemma cq_ok_crypt m m' p : cq_ok m p -> crypt_rel m m' (pgdir p) -> cq_ok m' p.
Proof.
  intros [H1 H2 H3 H4] Hcr. split; try done. intros n Hn Ho.
  destruct (H3 n Hn Ho) as (Hu & Hs & Ha). split; [done|].
  rewrite (cr_slot _ _ _ _ Hcr Hu). split; [done|]. unfold accessible in *.
  by rewrite (cr_mapped _ _ _ Hcr), (cr_U _ _ _ Hcr).
Qed.

(** Occupied entries whose accessed bit is set. *)
Definition referenced (m : mem) (d : Z) (n : cq_node) : bool :=
  occupied n && has (pte_of m d (cq_va n)) PTE_A.
Definition cntA (m : mem) (d : Z) (q : list cq_node) : nat :=
  length (List.filter (referenced m d) q).

(** Presence and encryption are unchanged. *)
Definition same_PE (v v' : Z) : Prop := has v' PTE_P = has v PTE_P /\ has v' PTE_E = has v PTE_E.

(** ** Clearing an accessed bit *)

Lemma clear_A_spec s d va a :
  uspace (phys s) d -> uaddr va -> mapped (pte_of (phys s) d va) = true ->
  pte_slot (phys s) d va = Some a ->
  exists m', kwrite32 a (clear (pte_of (phys s) d va) PTE_A) s = Ret tt (with_phys s m') /\
    crypt_rel (phys s) m' d /\ same_else (phys s) m' d va /\
    pte_of m' d va = clear (pte_of (phys s) d va) PTE_A.
Proof.
  intros Hus Hva Hm Hsl. destruct (mapped_slot _ _ _ Hus Hva Hm) as (t & Ht & Hsl' & Htok & _).
  assert (a = t + 4 * PTX va) as -> by congruence.
  set (v := pte_of (phys s) d va) in *. set (w := clear v PTE_A).
  assert (Hw : 0 <= w < 4294967296) by (apply clear_range, pte_of_range).
  pose proof (page_upd_write _ _ _ Hus Hva Hm t w Ht Hw) as Hu.
  destruct (upd_same_else _ _ _ _ _ _ _ Hus Hva Ht Hm Hu) as [Ep Hse].
  eexists. split; [by apply kwrite_slot|]. split; [|done].
  assert (HP : has w PTE_P = has v PTE_P) by (unfold w; pte_simpl; done).
  assert (HE : has w PTE_E = has v PTE_E) by (unfold w; pte_simpl; done).
  eapply (upd_crypt_rel _ _ d va t w false); try done.
  - unfold w. pte_simpl. done.
  - unfold mapped. by rewrite HP, HE.
  - unfold w. pte_simpl. change (2 ^ 1) with PTE_W. by apply us_w.
  - rewrite HP, HE. by apply us_excl.
  - unfold w. pte_simpl. done.
  - rewrite HE. apply xorb_nilpotent.
Qed.

Lemma same_else_page (m m' : mem) d va x :
  same_else m m' d va -> uaddr x -> pte_of m' d x = pte_of m d x \/ va / 4096 = x / 4096.
Proof. intros H Hx. destruct (decide (x / 4096 = va / 4096)); [by right|left; by apply H]. Qed.

(** ** Evicting a page *)

Lemma uaddr_round va : uaddr va -> upages (PGROUNDDOWN va) 1 /\ uaddr (PGROUNDDOWN va) /\
  PGROUNDDOWN va / 4096 = va / 4096.
Proof.
  unfold uaddr, upages, KERNBASE. rewrite PGROUNDDOWN_val. intros H.
  repeat split; Z.div_mod_to_equations; lia.
Qed.

Lemma evict_spec s me p va a :
  cur_ok s me p -> uaddr va -> pte_slot (phys s) (pgdir p) va = Some a ->
  accessible (pte_of (phys s) (pgdir p) va) = true ->
  exists m', mencrypt va 1 s = Ret 0 (switched (with_phys s m') p) /\
    crypt_rel (phys s) m' (pgdir p) /\ same_else (phys s) m' (pgdir p) va /\
    has (pte_of m' (pgdir p) va) PTE_E = true /\ has (pte_of m' (pgdir p) va) PTE_P = false.
Proof.
  intros Hok Hva Hsl Hacc. destruct (uaddr_round va Hva) as (Hup & Hr & Epg).
  assert (Esl : forall m, pte_slot m (pgdir p) (PGROUNDDOWN va) = pte_slot m (pgdir p) va)
    by (intros; by apply pte_slot_same_page; [apply uaddr_vaddr..|]).
  assert (Ept : forall m, pte_of m (pgdir p) (PGROUNDDOWN va) = pte_of m (pgdir p) va)
    by (intros; by apply pte_of_same_page; [apply uaddr_vaddr..|]).
  pose proof (mencrypt_spec s me p va 1 Hok Hup) as H. cbn [all_acc Z.to_nat Pos.to_nat] in H.
  change (Z.to_nat 1) with 1%nat in H. cbn [all_acc] in H. rewrite Ept, Hacc in H. cbn [andb] in H.
  destruct H as (m' & E & Hcr & Hin & Hout).
  { intros i Hi. replace (4096 * i) with 0 by lia. by rewrite Z.add_0_r, Esl, Hsl. }
  exists m'. split; [done|]. split; [done|].
  destruct (Hin va Hva) as [HE HP].
  { unfold in_pages, in_range. rewrite PGROUNDDOWN_val. Z.div_mod_to_equations. lia. }
  split; [|done]. intros x Hx Hne. apply Hout; [done|].
  unfold in_pages, in_range. rewrite PGROUNDDOWN_val. Z.div_mod_to_equations. lia.
Qed.

(** ** The hand's search *)

(** Everything but memory, process table and CPU registers. *)
Definition rest_eq (s s' : kstate) : Prop :=
  kmem s' = kmem s /\ ptable_lock s' = ptable_lock s /\ curproc s' = curproc s /\
  nextpid s' = nextpid s /\ initproc s' = initproc s /\ kpgdir s' = kpgdir s /\
  ticks s' = ticks s /\ tickslock s' = tickslock s.

Lemma rest_eq_trans s1 s2 s3 : rest_eq s1 s2 -> rest_eq s2 s3 -> rest_eq s1 s3.
Proof. unfold rest_eq. intuition congruence. Qed.

(** The queue after page [va] took slot [h]. *)
Definition enqueue (p : proc) (h e va a : Z) : proc :=
  set_cq p (<[Z.to_nat h := mk_cq e va a]> (cq p)).

(** The outcome of the search: slot [h] is taken; its old page, if any, is
    now encrypted and no other page changed its presence or encryption. *)
Record evicted (m m' : mem) (p : proc) (h : Z) : Prop := {
  ev_crypt : crypt_rel m m' (pgdir p);
  ev_victim : forall n, cq p !! Z.to_nat h = Some n -> occupied n = true ->
    has (pte_of m' (pgdir p) (cq_va n)) PTE_E = true /\
    has (pte_of m' (pgdir p) (cq_va n)) PTE_P = false;
  ev_others : forall x, uaddr x ->
    (forall n, cq p !! Z.to_nat h = Some n -> occupied n = true -> cq_va n / 4096 <> x / 4096) ->
    same_PE (pte_of m (pgdir p) x) (pte_of m' (pgdir p) x)
}.

Lemma rem_hand h : -1 <= h < CLOCKSIZE -> 0 <= Z.rem (h + 1) CLOCKSIZE < CLOCKSIZE.
Proof. unfold CLOCKSIZE. intros. apply Z.rem_bound_pos; lia. Qed.

(** Entries of different occupied slots are entries of different pages. *)
Lemma cq_ok_pages m p i j n n' :
  uspace m (pgdir p) -> cq_ok m p -> cq p !! i = Some n -> cq p !! j = Some n' ->
  occupied n = true -> occupied n' = true -> cq_va n / 4096 = cq_va n' / 4096 -> i = j.
Proof.
  intros Hus Hq Hi Hj Ho Ho' E. eapply cq_nodup; eauto.
  destruct (cq_node_ok _ _ Hq n) as (Hu & Hs & _); [by eapply list_elem_of_lookup_2|done|].
  destruct (cq_node_ok _ _ Hq n') as (Hu' & Hs' & _); [by eapply list_elem_of_lookup_2|done|].
  rewrite (pte_slot_same_page m (pgdir p) (cq_va n) (cq_va n')) in Hs by auto using uaddr_vaddr.
  congruence.
Qed.

(** Clearing the bit of one entry lowers the count. *)
Lemma cntA_clear m m' p i n :
  uspace m (pgdir p) -> cq_ok m p -> cq p !! i = Some n -> occupied n = true ->
  has (pte_of m (pgdir p) (cq_va n)) PTE_A = true ->
  same_else m m' (pgdir p) (cq_va n) ->
  pte_of m' (pgdir p) (cq_va n) = clear (pte_of m (pgdir p) (cq_va n)) PTE_A ->
  (cntA m' (pgdir p) (cq p) < cntA m (pgdir p) (cq p))%nat.
Proof.
  intros Hus Hq Hi Ho HA Hse Ev. apply (filter_length_lt _ _ _ n).
  - intros y Hy. unfold referenced. intros [Hoy HAy]%andb_true_iff. rewrite Hoy. simpl.
    destruct (cq_node_ok _ _ Hq y Hy Hoy) as (Huy & _).
    destruct (same_else_page _ _ _ _ _ Hse Huy) as [<-|E]; [done|].
    apply list_elem_of_lookup in Hy as [j Hj].
    assert (i = j) as <- by (eapply (cq_ok_pages m p); eauto). by simplify_eq.
  - by eapply list_elem_of_lookup_2.
  - unfold referenced. by rewrite Ho, HA.
  - unfold referenced. rewrite Ho, Ev. pte_simpl. done.
Qed.

Lemma zget_lookup {A} (l : list A) h n : zget l h = Some n -> l !! Z.to_nat h = Some n.
Proof. intros H%zget_Some. by destruct H. Qed.

Lemma zget_in {A} (l : list A) h : 0 <= h < Z.of_nat (length l) -> exists n, zget l h = Some n.
Proof.
  intros H. unfold zget. destruct (Z.ltb_spec h 0); [lia|]. apply lookup_lt_is_Some. lia.
Qed.

Lemma evicted_empty s p h n :
  uspace (phys s) (pgdir p) -> cq p !! Z.to_nat h = Some n -> occupied n = false ->
  evicted (phys s) (phys s) p h.
Proof. intros Hus Hn Ho. split; [by apply crypt_rel_refl| |by split]. intros; simplify_eq; congruence. Qed.

Lemma evicted_step m m1 m' p h n0 :
  uspace m (pgdir p) -> crypt_rel m m1 (pgdir p) -> uaddr (cq_va n0) ->
  same_else m m1 (pgdir p) (cq_va n0) ->
  pte_of m1 (pgdir p) (cq_va n0) = clear (pte_of m (pgdir p) (cq_va n0)) PTE_A ->
  evicted m1 m' p h -> evicted m m' p h.
Proof.
  intros Hus Hcr Hu Hse Ev [H1 H2 H3]. split; [by eapply crypt_rel_trans|done|].
  intros x Hx Hne. destruct (H3 x Hx Hne) as [HP HE]. unfold same_PE. rewrite HP, HE.
  destruct (same_else_page _ _ _ _ _ Hse Hx) as [->|E]; [done|].
  rewrite (pte_of_same_page m1 (pgdir p) x (cq_va n0)),
    (pte_of_same_page m (pgdir p) x (cq_va n0)), Ev by auto using uaddr_vaddr.
  pte_simpl. done.
Qed.

Lemma cq_enset_loop_spec fuel s me p va a hand :
  cur_ok s me p -> cq_ok (phys s) p -> -1 <= hand < CLOCKSIZE ->
  (cntA (phys s) (pgdir p) (cq p) < fuel)%nat ->
  exists h e s', cq_enset_loop fuel me va a hand s = Ret h s' /\
    0 <= h < CLOCKSIZE /\ e <> -1 /\ rest_eq s s' /\ cr3 s' = cr3 s /\
    ptable s' = <[me := enqueue p h e va a]> (ptable s) /\
    evicted (phys s) (phys s') p h.
Proof.
  revert s hand. induction fuel as [|fuel IH]; intros s hand Hok Hq Hh Hfuel; [lia|].
  cbn [cq_enset_loop]. set (h := Z.rem (hand + 1) CLOCKSIZE).
  assert (Hhr : 0 <= h < CLOCKSIZE) by (by apply rem_hand).
  rewrite (bind_Ret _ _ s p s) by (unfold get_proc; by rewrite (co_proc _ _ _ Hok)).
  destruct (zget_in (cq p) h) as [n Hn]; [rewrite (cq_len _ _ Hq); unfold CLOCKSIZE in *; lia|].
  rewrite Hn. assert (Hn' := zget_lookup _ _ _ Hn).
  destruct (cq_empty n =? -1) eqn:Ee.
  { (* empty slot *)
    exists h, 0. eexists. split.
    { unfold bind, upd_proc. by rewrite (co_proc _ _ _ Hok). }
    split; [done|]. split; [done|]. split; [done|]. split; [done|]. split; [done|].
    cbn [phys with_ptable]. eapply evicted_empty; [apply Hok|done|]. unfold occupied. by rewrite Ee. }
  assert (Ho : occupied n = true) by (unfold occupied; by rewrite Ee).
  destruct (cq_node_ok _ _ Hq n) as (Hu & Hs & Ha); [by eapply list_elem_of_lookup_2|done|].
  assert (Hwf := us_wf _ _ (co_us _ _ _ Hok)).
  rewrite (bind_Ret _ _ _ _ _ (kread_slot s (pgdir p) _ _ Hwf (uaddr_vaddr _ Hu) Hs)).
  destruct (has (pte_of (phys s) (pgdir p) (cq_va n)) PTE_A) eqn:EA; cbn [negb].
  - (* referenced: clear the bit and go on *)
    destruct (clear_A_spec s (pgdir p) (cq_va n) (cq_pte n) (co_us _ _ _ Hok) Hu
      (accessible_mapped _ Ha) Hs) as (m1 & E1 & Hcr & Hse & Ev).
    rewrite (bind_Ret _ _ _ _ _ E1).
    assert (Hlt := cntA_clear _ m1 p _ n (co_us _ _ _ Hok) Hq Hn' Ho EA Hse Ev).
    destruct (IH (with_phys s m1) h) as (h' & e & s' & E' & H1 & H2 & H3 & H4 & H5 & H6);
      [by apply cur_ok_phys, Hcr|by eapply cq_ok_crypt|lia|cbn [phys with_phys]; lia|].
    exists h', e, s'. split; [done|]. split; [done|]. split; [done|]. split; [done|].
    split; [done|]. split; [done|]. eapply evicted_step; eauto. apply Hok.
  - (* not referenced: evict *)
    destruct (evict_spec s me p (cq_va n) _ Hok Hu Hs Ha) as (m' & E1 & Hcr & Hse & HE & HP).
    rewrite (bind_Ret _ _ _ _ _ E1). exists h, (cq_empty n). eexists. split.
    { unfold bind, upd_proc. cbn. by rewrite (co_proc _ _ _ Hok). }
    split; [done|]. split; [lia|]. split; [done|]. split.
    { cbn. rewrite (co_cr3 _ _ _ Hok). apply page_ok_V2P, Hwf. }
    split; [done|]. cbn. split; [done| |].
    + intros n' ? _. by simplify_eq.
    + intros x Hx Hne. rewrite (Hse x Hx); [done|]. intros E. by apply (Hne n).
Qed.

(** ** [cq_enset] *)

Definition queued (p : proc) (va : Z) : Prop :=
  exists n, n ∈ cq p /\ occupied n = true /\ cq_va n / 4096 = va / 4096.

(** The working set: a user page that is present, so in plaintext, is in the
    queue ([but va]: unless it is the page of [va]). *)
Definition wset_but (m : mem) (p : proc) (va : Z) : Prop :=
  forall x, uaddr x -> x / 4096 <> va / 4096 ->
    has (pte_of m (pgdir p) x) PTE_P = true -> has (pte_of m (pgdir p) x) PTE_U = true ->
    queued p x.
Definition wset (m : mem) (p : proc) : Prop :=
  forall x, uaddr x ->
    has (pte_of m (pgdir p) x) PTE_P = true -> has (pte_of m (pgdir p) x) PTE_U = true ->
    queued p x.

(** Only the queue of the process changed. *)
Definition cq_changed (p p' : proc) : Prop := p' = set_clock_hand (set_cq p (cq p')) (clock_hand p').

Lemma cq_find_Some f q i j :
  cq_find f q i = Some j -> exists n, zget q (j - i) = Some n /\ f n = true.
Proof.
  revert i. induction q as [|n q IH]; simpl; intros i H; [done|].
  destruct (f n) eqn:E; simplify_eq; [exists n; by replace (j - j) with 0 by lia|].
  destruct (IH _ H) as (n' & Hn & Hf). exists n'. split; [|done].
  apply zget_Some in Hn as [Hr Hn]. unfold zget. destruct (Z.ltb_spec (j - i) 0); [lia|].
  replace (Z.to_nat (j - i)) with (S (Z.to_nat (j - (i + 1)))) by lia. done.
Qed.

Lemma cq_find_None f q i : cq_find f q i = None -> forall n, n ∈ q -> f n = false.
Proof.
  revert i. induction q as [|n q IH]; simpl; intros i H x Hx; [by apply elem_of_nil in Hx|].
  destruct (f n) eqn:E; [done|]. apply elem_of_cons in Hx as [->|Hx]; [done|by eapply IH].
Qed.

Lemma cntA_le m d q : (cntA m d q <= length q)%nat.
Proof. unfold cntA. induction q as [|n q IH]; simpl; [lia|]. case_match; simpl; lia. Qed.

Section Enqueue.
Context (m m' : mem) (p : proc) (h e va a : Z).
Hypothesis Hus : uspace m (pgdir p).
Hypothesis Hq : cq_ok m p.
Hypothesis Hva : uaddr va.
Hypothesis Ha : pte_slot m (pgdir p) va = Some a.
Hypothesis Hacc : accessible (pte_of m (pgdir p) va) = true.
Hypothesis Hnew : forall n, n ∈ cq p -> occupied n = true -> cq_pte n <> a.
Hypothesis Hh : 0 <= h < CLOCKSIZE.
Hypothesis He : e <> -1.
Hypothesis Hev : evicted m m' p h.

Definition enqueued : proc := set_clock_hand (enqueue p h e va a) h.

Lemma enqueued_lookup i n :
  cq enqueued !! i = Some n ->
  (i = Z.to_nat h /\ n = mk_cq e va a) \/ (i <> Z.to_nat h /\ cq p !! i = Some n).
Proof using Hq Hh.
  cbn. destruct (decide (i = Z.to_nat h)) as [->|Hne].
  - rewrite list_lookup_insert_eq; [intros; simplify_eq; by left|].
    rewrite (cq_len _ _ Hq). unfold CLOCKSIZE in *. lia.
  - rewrite list_lookup_insert_ne by done. by right.
Qed.

Lemma enqueued_ok : cq_ok m' enqueued.
Proof using All.
  assert (Hq' := cq_ok_crypt _ _ _ Hq (ev_crypt _ _ _ _ Hev)). split.
  - cbn. rewrite length_insert. apply Hq.
  - cbn. lia.
  - intros n [i Hi]%list_elem_of_lookup Ho. cbn [pgdir enqueued enqueue set_clock_hand set_cq].
    destruct (enqueued_lookup _ _ Hi) as [[-> ->]|[_ Hi']].
    + cbn. split; [done|]. rewrite (cr_slot _ _ _ _ (ev_crypt _ _ _ _ Hev) Hva).
      split; [done|]. unfold accessible in *.
      rewrite (cr_mapped _ _ _ (ev_crypt _ _ _ _ Hev)) by done.
      by rewrite (cr_U _ _ _ (ev_crypt _ _ _ _ Hev)).
    + apply Hq'; [by eapply list_elem_of_lookup_2|done].
  - intros i j n n' Hi Hj Ho Ho' E.
    destruct (enqueued_lookup _ _ Hi) as [[-> ->]|[? Hi']];
      destruct (enqueued_lookup _ _ Hj) as [[-> ->]|[? Hj']]; cbn in E; try done.
    + exfalso. apply (Hnew n'); [by eapply list_elem_of_lookup_2|done|done].
    + exfalso. apply (Hnew n); [by eapply list_elem_of_lookup_2|done|done].
    + by eapply (cq_nodup _ _ Hq).
Qed.

Lemma enqueued_in : mk_cq e va a ∈ cq enqueued.
Proof using Hq Hh.
  apply (list_elem_of_lookup_2 _ (Z.to_nat h)). cbn. apply list_lookup_insert_eq.
  rewrite (cq_len _ _ Hq). unfold CLOCKSIZE in *. lia.
Qed.

Lemma enqueued_queued : queued enqueued va.
Proof using Hq Hh He.
  eexists. split; [apply enqueued_in|]. unfold occupied. cbn.
  by rewrite (proj2 (Z.eqb_neq _ _) He).
Qed.

Lemma enqueued_wset : wset_but m p va -> wset m' enqueued.
Proof using Hq Hh He Hev.
  intros Hw x Hx HP HU. change (pgdir enqueued) with (pgdir p) in *.
  destruct (decide (x / 4096 = va / 4096)) as [E|Hne].
  { destruct enqueued_queued as (n & ? & ? & ?). exists n. split_and!; congruence. }
  destruct (cq p !! Z.to_nat h) as [nh|] eqn:Enh.
  2:{ apply lookup_ge_None in Enh. rewrite (cq_len _ _ Hq) in Enh. unfold CLOCKSIZE in *. lia. }
  assert (Hne' : forall n, cq p !! Z.to_nat h = Some n -> occupied n = true ->
    cq_va n / 4096 <> x / 4096).
  { intros n Hn Ho E. destruct (ev_victim _ _ _ _ Hev n Hn Ho) as [_ HP'].
    destruct (cq_node_ok _ _ Hq n) as (Hu & _); [by eapply list_elem_of_lookup_2|done|].
    rewrite (pte_of_same_page m' (pgdir p) x (cq_va n)) in HP by auto using uaddr_vaddr.
    congruence. }
  destruct (ev_others _ _ _ _ Hev x Hx Hne') as [HP' _]. rewrite HP' in HP.
  rewrite (cr_U _ _ _ (ev_crypt _ _ _ _ Hev)) in HU by done.
  destruct (Hw x Hx Hne HP HU) as (n & [i Hi]%list_elem_of_lookup & Ho & E).
  exists n. split; [|done]. apply (list_elem_of_lookup_2 _ i). cbn.
  rewrite list_lookup_insert_ne; [done|]. intros <-. by eapply Hne'.
Qed.
End Enqueue.

Lemma cq_enset_spec s me p va a :
  cur_ok s me p -> cq_ok (phys s) p -> uaddr va ->
  pte_slot (phys s) (pgdir p) va = Some a ->
  exists s' p', cq_enset va s = Ret 0 s' /\ rest_eq s s' /\ cr3 s' = cr3 s /\
    ptable s' = <[me := p']> (ptable s) /\ cq_changed p p' /\
    crypt_rel (phys s) (phys s') (pgdir p) /\
    (accessible (pte_of (phys s) (pgdir p) va) = true -> cq_ok (phys s') p') /\ queued p' va /\
    (wset_but (phys s) p va -> wset (phys s') p') /\
    same_PE (pte_of (phys s) (pgdir p) va) (pte_of (phys s') (pgdir p) va).
Proof.
  intros Hok Hq Hva Ha. assert (Hus := co_us _ _ _ Hok).
  unfold cq_enset. rewrite (bind_Ret _ _ s me s) by (unfold my; by rewrite (co_cur _ _ _ Hok)).
  rewrite (bind_Ret _ _ s p s) by (unfold get_proc; by rewrite (co_proc _ _ _ Hok)).
  destruct (walk_some s _ va a (us_wf _ _ Hus) (uaddr_vaddr _ Hva) Ha) as [Ew Ez].
  rewrite (bind_Ret _ _ _ _ _ Ew), Ez.
  destruct (cq_find _ _ _) as [j|] eqn:Ef.
  - apply cq_find_Some in Ef as (n & Hn & [Hp Ho]%andb_true_iff).
    apply Z.eqb_eq in Hp. apply zget_lookup in Hn. assert (Hin := list_elem_of_lookup_2 _ _ _ Hn).
    destruct (cq_node_ok _ _ Hq n Hin Ho) as (Hu & Hs & _).
    assert (Epg : cq_va n / 4096 = va / 4096).
    { apply (pte_slot_inj (phys s) (pgdir p) _ _ a); auto using uaddr_vaddr, us_wf. congruence. }
    exists s, p. split; [done|]. split; [done|]. split; [done|].
    split; [by rewrite list_insert_id by apply Hok|]. split; [by destruct p|].
    split; [by apply crypt_rel_refl|]. split; [done|]. split; [by exists n|]. split; [|done].
    intros Hw x Hx HP HU. destruct (decide (x / 4096 = va / 4096)) as [E|]; [|by apply Hw].
    exists n. by rewrite E.
  - assert (Hnew : forall n, n ∈ cq p -> occupied n = true -> cq_pte n <> a).
    { intros n Hn Ho E. pose proof (cq_find_None _ _ _ Ef n Hn) as H. cbn in H.
      rewrite E, Z.eqb_refl in H. unfold occupied in Ho. by rewrite Ho in H. }
    destruct (cq_enset_loop_spec (Z.to_nat (2 * CLOCKSIZE + 1)) s me p va a (clock_hand p) Hok Hq
      (cq_hand _ _ Hq)) as (h & e & s1 & E & Hh & He & Hr & Hc & Hpt & Hev).
    { pose proof (cntA_le (phys s) (pgdir p) (cq p)) as H. rewrite (cq_len _ _ Hq) in H.
      unfold CLOCKSIZE in *. lia. }
    rewrite (bind_Ret _ _ _ _ _ E). unfold upd_proc, bind. rewrite Hpt.
    rewrite list_lookup_insert_eq by (eapply lookup_lt_Some, Hok).
    eexists _, (enqueued p h e va a). split; [done|]. cbn [ptable with_ptable phys cr3].
    rewrite list_insert_insert_eq. split; [done|]. split; [done|]. split; [done|].
    split; [done|]. split; [apply Hev|].
    split; [intros; by eapply enqueued_ok|]. split; [by eapply enqueued_queued|].
    split; [by eapply enqueued_wset|].
    apply (ev_others _ _ _ _ Hev); [done|]. intros n Hn Ho E'.
    assert (Hin := list_elem_of_lookup_2 _ _ _ Hn).
    destruct (cq_node_ok _ _ Hq n Hin Ho) as (Hu & Hs & _).
    rewrite (pte_slot_same_page (phys s) (pgdir p) (cq_va n) va) in Hs by auto using uaddr_vaddr.
    apply (Hnew n); [done..|congruence].
Qed.

(** ** [cq_remove]'s shift *)

Lemma cq_shift_spec fuel : forall i h q,
  0 <= i <= h -> h < CLOCKSIZE -> length q = Z.to_nat CLOCKSIZE -> h - i <= Z.of_nat fuel ->
  exists q', cq_shift fuel i h q = Some q' /\ length q' = Z.to_nat CLOCKSIZE /\
    forall k, q' !! k = if decide (i <= Z.of_nat k < h) then q !! S k else q !! k.
Proof.
  induction fuel as [|fuel IH]; intros i h q Hi Hh Hl Hf.
  - assert (i = h) as -> by lia. cbn. rewrite Z.eqb_refl. exists q. split; [done|]. split; [done|].
    intros k. case_decide; [lia|done].
  - cbn [cq_shift]. destruct (Z.eqb_spec i h) as [->|Hne].
    { exists q. split; [done|]. split; [done|]. intros k. case_decide; [lia|done]. }
    unfold CLOCKSIZE in *. rewrite Z.rem_small by lia.
    destruct (zget_in q (i + 1)) as [n Hn]; [lia|]. rewrite Hn. apply zget_lookup in Hn.
    unfold zset. rewrite (proj2 (Z.leb_le 0 i)), (proj2 (Z.ltb_lt i _)) by lia. cbn [andb].
    destruct (IH (i + 1) h (<[Z.to_nat i := n]> q)) as (q' & E & Hl' & Hq');
      [lia|lia|by rewrite length_insert|lia|].
    exists q'. split; [done|]. split; [done|]. intros k. rewrite Hq'.
    destruct (decide (k = Z.to_nat i)) as [->|Hk].
    + rewrite !Z2Nat.id by lia. rewrite decide_False, decide_True by lia.
      rewrite list_lookup_insert_eq by lia. rewrite <- Hn. f_equal. lia.
    + destruct (decide (Z.to_nat i = S k)).
      * rewrite !decide_False by lia. by rewrite list_lookup_insert_ne by lia.
      * rewrite !list_lookup_insert_ne by lia. repeat case_decide; lia || done.
Qed.

(** Above the hand the index runs off the array. *)
Lemma cq_shift_oob fuel : forall i h q,
  h < i <= CLOCKSIZE -> 0 <= i -> length q = Z.to_nat CLOCKSIZE -> cq_shift fuel i h q = None.
Proof.
  induction fuel as [|fuel IH]; intros i h q Hi H0 Hl; cbn [cq_shift];
    (destruct (Z.eqb_spec i h); [lia|]); [done|].
  destruct (zget q _) as [x|]; [|done]. destruct (zset q i x) as [q'|] eqn:E; [|done].
  apply zset_Some in E as [Hr ->]. apply IH; [|lia|by rewrite length_insert].
  unfold CLOCKSIZE in *. lia.
Qed.

End VmClock.
