(* ===== verification/VmDecrypt.v ===== *)
(** * Decryption on demand

    [mdecrypt], which the page-fault handler calls: it decrypts the page,
    enters it into the working set, and keeps the working set no larger than
    the queue. *)
From S2P Require Import Prelude Memory KString Mmu State Kalloc Vm VmTables VmCrypt VmEnc VmClock.

Section VmDecrypt.
Context `{PL : Platform}.

(** ** One page *)

Lemma decrypt_page_upd s d va a :
  uspace (phys s) d -> uaddr va -> va mod 4096 = 0 -> cr3 s = d - KERNBASE ->
  pte_slot (phys s) d va = Some a -> mapped (pte_of (phys s) d va) = true ->
  exists m' t w, decrypt_page a va s = Ret tt (with_phys s m') /\
    table_at (phys s) d (PDX va) = Some t /\
    ad_eq w (set (clear (pte_of (phys s) d va) PTE_E) PTE_P) /\
    page_upd (phys s) m' t va (PTE_ADDR (pte_of (phys s) d va)) w true.
Proof.
  intros Hus Hva Hal Hc Ha Hmap.
  destruct (mapped_slot _ _ _ Hus Hva Hmap) as (t & Ht & Hsl & Htok & _).
  assert (a = t + 4 * PTX va) as -> by congruence.
  set (v := pte_of (phys s) d va) in *. set (sl := t - KERNBASE + 4 * PTX va) in *.
  assert (Hv : 0 <= v < 4294967296) by apply pte_of_range.
  set (w1 := clear v PTE_E). set (w2 := set w1 PTE_P).
  assert (Hw1 : 0 <= w1 < 4294967296) by (by apply clear_range).
  assert (Hw2 : 0 <= w2 < 4294967296) by (apply (set_range _ 0); [lia|done]).
  pose proof (page_upd_write _ _ _ Hus Hva Hmap t w1 Ht Hw1) as Hu1. fold sl v in Hu1.
  pose proof (page_upd_rewrite _ _ _ Hus Hva Hmap _ t _ w2 false Ht Hw2 Hu1) as Hu2.
  fold sl v in Hu2.
  set (m2 := write32 (write32 (phys s) sl w1) sl w2) in *.
  assert (HP2 : has w2 PTE_P = true) by (unfold w2; pte_simpl; done).
  assert (HE2 : has w2 PTE_E = false) by (unfold w2, w1; pte_simpl; done).
  assert (Ha2 : PTE_ADDR w2 = PTE_ADDR v) by (unfold w2, w1; pte_simpl; done).
  assert (Hm2 : mapped w2 = true) by (unfold mapped; by rewrite HP2).
  assert (Hus2 : uspace m2 d).
  { eapply (upd_uspace (phys s) m2 d va t w2 false); try done.
    - unfold w2, w1. pte_simpl. change (2 ^ 1) with PTE_W. by apply us_w.
    - by rewrite HP2, HE2. }
  destruct (upd_same_else _ _ _ _ _ _ _ Hus Hva Ht Hmap Hu2) as [Ep _].
  assert (Ht2 : table_at m2 d (PDX va) = Some t).
  { rewrite (upd_table_at (phys s) m2 d va t w2 false); try done.
    by apply PDX_range, uaddr_vaddr. }
  destruct (flip_page_upd m2 d va Hus2 Hva ltac:(by rewrite Ep) (with_phys s m2) t eq_refl Hc Hal
    ltac:(by rewrite Ep) Ht2) as (m' & w & E & Had & Hu).
  rewrite Ep in Had, Hu. rewrite Ha2 in Hu.
  exists m', t, w. split; [|split; [done|split; [done|]]].
  - unfold decrypt_page.
    rewrite (bind_Ret _ _ _ _ _ (kread_table _ t va Htok)). fold sl.
    replace (read32 (phys s) sl) with v by (by unfold v; rewrite (pte_of_table _ _ _ _ Ht)).
    rewrite (bind_Ret _ _ _ _ _ (kwrite_slot _ t va _ Htok)). fold sl w1.
    rewrite (bind_Ret _ _ _ _ _ (kread_table _ t va Htok)). cbn [phys with_phys]. fold sl.
    rewrite read32_write32_eq by done. fold w2.
    rewrite (bind_Ret _ _ _ _ _ (kwrite_slot _ t va _ Htok)). cbn [phys with_phys]. fold sl m2.
    exact E.
  - exact (page_upd_trans _ _ _ _ _ _ _ _ _ _ Hu2 Hu).
Qed.

(** ** The whole of [mdecrypt] *)

(** The part before [cq_enset], for a page of either kind. *)
Record flipped_to (m m1 : mem) (p : proc) (va : Z) : Prop := {
  ft_us : uspace m1 (pgdir p);
  ft_ok : cq_ok m p -> cq_ok m1 p;
  ft_slot : pte_slot m1 (pgdir p) va = pte_slot m (pgdir p) va;
  ft_P : has (pte_of m1 (pgdir p) va) PTE_P = true;
  ft_E : has (pte_of m1 (pgdir p) va) PTE_E = false;
  ft_U : has (pte_of m1 (pgdir p) va) PTE_U = has (pte_of m (pgdir p) va) PTE_U;
  ft_else : same_else m m1 (pgdir p) va;
  ft_byte : forall x, uaddr x -> x / 4096 = va / 4096 ->
    ubyte m1 (pgdir p) x = 255 - ubyte m (pgdir p) x;
  ft_crypt : has (pte_of m (pgdir p) va) PTE_E = true -> crypt_rel m m1 (pgdir p)
}.

Lemma cq_ok_same m m' p :
  (forall i, 0 <= i < 1024 -> table_at m' (pgdir p) i = table_at m (pgdir p) i) ->
  (forall x, uaddr x -> accessible (pte_of m' (pgdir p) x) = accessible (pte_of m (pgdir p) x)) ->
  cq_ok m p -> cq_ok m' p.
Proof.
  intros Ht Hacc [H1 H2 H3 H4]. split; try done. intros n Hn Ho.
  destruct (H3 n Hn Ho) as (Hu & Hs & Ha). split; [done|]. split; [|by rewrite Hacc].
  unfold pte_slot in *. by rewrite Ht by (by apply PDX_range, uaddr_vaddr).
Qed.

Lemma decrypt_page_spec s p va a :
  uspace (phys s) (pgdir p) -> uaddr va -> cr3 s = pgdir p - KERNBASE ->
  pte_slot (phys s) (pgdir p) va = Some a -> mapped (pte_of (phys s) (pgdir p) va) = true ->
  exists m1, decrypt_page a (PGROUNDDOWN va) s = Ret tt (with_phys s m1) /\
    flipped_to (phys s) m1 p va.
Proof.
  intros Hus Hva Hc Ha Hm. set (d := pgdir p) in *. set (b := PGROUNDDOWN va).
  destruct (uaddr_round va Hva) as (_ & Hb & Epg). fold b in Hb, Epg.
  assert (Esl : forall m, pte_slot m d b = pte_slot m d va)
    by (intros; by apply pte_slot_same_page; [apply uaddr_vaddr..|]).
  assert (Ept : forall m, pte_of m d b = pte_of m d va)
    by (intros; by apply pte_of_same_page; [apply uaddr_vaddr..|]).
  destruct (decrypt_page_upd s d b a) as (m1 & t & w & E & Ht & Had & Hu); try done.
  { unfold b. rewrite PGROUNDDOWN_val. Z.div_mod_to_equations. lia. }
  { by rewrite Esl. }
  { by rewrite Ept. }
  rewrite Ept in Had.
  assert (HP : has w PTE_P = true) by (rewrite (ad_eq_P _ _ Had); pte_simpl; done).
  assert (HE : has w PTE_E = false) by (rewrite (ad_eq_E _ _ Had); pte_simpl; done).
  assert (HU : has w PTE_U = has (pte_of (phys s) d va) PTE_U)
    by (rewrite (ad_eq_U _ _ Had); pte_simpl; done).
  assert (HW : has w PTE_W = true).
  { rewrite (ad_eq_W _ _ Had); pte_simpl. change (2 ^ 1) with PTE_W. by apply us_w. }
  assert (HA : PTE_ADDR w = PTE_ADDR (pte_of (phys s) d b)).
  { rewrite (ad_eq_addr _ _ Had), Ept. pte_simpl. done. }
  assert (Hmw : mapped w = true) by (unfold mapped; by rewrite HP).
  assert (Hmb : mapped (pte_of (phys s) d b) = true) by (by rewrite Ept).
  destruct (upd_same_else _ _ _ _ _ _ _ Hus Hb Ht Hmb Hu) as [Ep Hse].
  assert (Htab : forall i, 0 <= i < 1024 -> table_at m1 d i = table_at (phys s) d i)
    by (intros; by apply (upd_table_at (phys s) m1 d b t w true)).
  exists m1. split; [done|]. rewrite Ept in Ep. split; fold d.
  - eapply (upd_uspace (phys s) m1 d b t w true); try done. by rewrite HP, HE.
  - apply cq_ok_same; [done|]. intros x Hx. fold d.
    destruct (same_else_page _ _ _ _ _ Hse Hx) as [->|Ex]; [done|].
    rewrite (pte_of_same_page m1 d x va), (pte_of_same_page (phys s) d x va), Ep
      by (auto using uaddr_vaddr; congruence).
    unfold accessible. by rewrite Hm, HU, Hmw.
  - unfold pte_slot. rewrite Htab; [done|by apply PDX_range, uaddr_vaddr].
  - by rewrite Ep.
  - by rewrite Ep.
  - by rewrite Ep.
  - intros x Hx Hne. apply Hse; [done|congruence].
  - intros x Hx Ex. rewrite (upd_ubyte (phys s) m1 d b t w true); try done.
    + rewrite decide_True; [done|congruence].
    + by rewrite (pte_of_same_page (phys s) d x va) by auto using uaddr_vaddr.
  - intros HEv. eapply (upd_crypt_rel _ _ d b t w true); try done.
    + by rewrite HP, HE.
    + by rewrite Ept.
    + by rewrite Ept, HEv, HE.
Qed.

Lemma mapped_nonzero v : mapped v = true -> (v =? 0) = false.
Proof. intros H. apply Z.eqb_neq. by intros ->. Qed.

Lemma cq_changed_fields p p' : cq_changed p p' -> kstack p' = kstack p /\ pgdir p' = pgdir p.
Proof. unfold cq_changed. by intros ->. Qed.

(** Everything after the first look-up: memory goes from [m] to [m1] by the
    flip, and from [m1] to the final memory by re-encrypting a victim. *)
Record served (s : kstate) (me : nat) (p : proc) (va : Z) (m1 : mem) (s' : kstate) (p' : proc) :
  Prop := {
  sv_flip : flipped_to (phys s) m1 p va;
  sv_crypt : crypt_rel m1 (phys s') (pgdir p);
  sv_rest : rest_eq s s';
  sv_ptable : ptable s' = <[me := p']> (ptable s);
  sv_proc : cq_changed p p';
  sv_cr3 : cr3 s' = cr3 s;
  sv_ok : accessible (pte_of (phys s) (pgdir p) va) = true -> cq_ok (phys s') p';
  sv_queued : queued p' va;
  sv_wset : wset_but (phys s) p va -> wset (phys s') p';
  sv_PE : same_PE (pte_of m1 (pgdir p) va) (pte_of (phys s') (pgdir p) va)
}.

Lemma mdecrypt_served s me p va :
  cur_ok s me p -> cq_ok (phys s) p -> uaddr va -> mapped (pte_of (phys s) (pgdir p) va) = true ->
  exists m1 s' p', mdecrypt va s = Ret 0 s' /\ served s me p va m1 s' p'.
Proof.
  intros Hok Hq Hva Hm. assert (Hus := co_us _ _ _ Hok).
  destruct (mapped_slot _ _ _ Hus Hva Hm) as (t & _ & Ha & _).
  set (a := t + 4 * PTX va) in *.
  destruct (decrypt_page_spec s p va a Hus Hva (co_cr3 _ _ _ Hok) Ha Hm) as (m1 & E1 & Hf).
  destruct (cq_enset_spec (with_phys s m1) me p va a) as
    (s2 & p' & E2 & Hr & Hc3 & Hpt & Hch & Hcr & Hok2 & Hqd & Hws & Hpe).
  { apply cur_ok_phys, Hf; done. }
  { by apply Hf. }
  { done. }
  { cbn. by rewrite (ft_slot _ _ _ _ Hf). }
  destruct (cq_changed_fields _ _ Hch) as [Hks Hpd].
  exists m1, (switched s2 p'), p'. split.
  - unfold mdecrypt. destruct (Z.leb_spec 2147483648 va) as [Hle|_]; [unfold uaddr, KERNBASE in *; lia|].
    rewrite (bind_Ret _ _ s me s) by (unfold my; by rewrite (co_cur _ _ _ Hok)).
    rewrite (bind_Ret _ _ s p s) by (unfold get_proc; by rewrite (co_proc _ _ _ Hok)).
    destruct (walk_some s _ va a (us_wf _ _ Hus) (uaddr_vaddr _ Hva) Ha) as [Ew Ez].
    rewrite (bind_Ret _ _ _ _ _ Ew), Ez.
    rewrite (bind_Ret _ _ _ _ _ (kread_slot s _ va a (us_wf _ _ Hus) (uaddr_vaddr _ Hva) Ha)).
    rewrite (mapped_nonzero _ Hm), (bind_Ret _ _ _ _ _ E1), (bind_Ret _ _ _ _ _ E2). cbn [negb Z.eqb].
    rewrite (bind_Ret _ _ _ _ _ (switchuvm_spec s2 me p' ltac:(rewrite Hpt;
      apply list_lookup_insert_eq, (lookup_lt_Some _ _ _ (co_proc _ _ _ Hok)))
      ltac:(rewrite Hks; apply Hok) ltac:(rewrite Hpd; by eapply cur_ok_pgdir))). done.
  - split; try done.
    + cbn. rewrite Hpd, (co_cr3 _ _ _ Hok). apply page_ok_V2P, Hus.
    + intros [_ HU]%andb_true_iff. apply Hok2. unfold accessible, mapped. cbn.
      by rewrite (ft_P _ _ _ _ Hf), (ft_U _ _ _ _ Hf), HU.
    + intros Hw. apply Hws. intros x Hx Hne. cbn. rewrite (ft_else _ _ _ _ Hf x Hx Hne).
      by apply Hw.
Qed.

Lemma served_cur_ok s me p va m1 s' p' :
  cur_ok s me p -> served s me p va m1 s' p' -> cur_ok s' me p'.
Proof.
  intros Hok Hs. destruct (cq_changed_fields _ _ (sv_proc _ _ _ _ _ _ _ Hs)) as [Hks Hpd]. split.
  - destruct (sv_rest _ _ _ _ _ _ _ Hs) as (_ & _ & -> & _). apply Hok.
  - rewrite (sv_ptable _ _ _ _ _ _ _ Hs). apply list_lookup_insert_eq. eapply lookup_lt_Some, Hok.
  - rewrite Hks. apply Hok.
  - rewrite Hpd. apply (cr_us _ _ _ (sv_crypt _ _ _ _ _ _ _ Hs)).
  - rewrite Hpd, (sv_cr3 _ _ _ _ _ _ _ Hs). apply Hok.
Qed.

(** ** Accesses

    [touch] is an access with the page-fault path behind it. *)

Lemma hw_leaf_spec m d va :
  pgdir_wf m d -> vaddr va ->
  hw_leaf m (d - KERNBASE) va =
  match pte_slot m d va with
  | Some a => if has (pte_of m d va) PTE_P && has (pte_of m d va) PTE_W
              then Some (a - KERNBASE) else None
  | None => None
  end.
Proof.
  intros Hwf Hva. unfold pte_of. destruct (pte_slot m d va) as [a|] eqn:Ea.
  - apply pte_slot_Some in Ea as (t & Ht & ->).
    destruct (wf_tab _ _ Hwf _ _ (PDX_range va Hva) Ht) as (Hok & _ & HW).
    unfold hw_leaf, table_at in *.
    rewrite (PTE_ADDR_id (d - KERNBASE))
      by (destruct (wf_dir _ _ Hwf) as [Hd' _]; unfold KERNBASE; Z.div_mod_to_equations; lia).
    change (d - KERNBASE + 4 * PDX va) with (pde_addr d (PDX va)).
    destruct (has (read32 m (pde_addr d (PDX va))) PTE_P); [|done].
    rewrite HW. cbn [andb]. injection Ht as Et.
    assert (PTE_ADDR (read32 m (pde_addr d (PDX va))) = t - KERNBASE) as ->.
    { rewrite <- (page_ok_V2P t Hok), <- Et.
      pose proof (PTE_ADDR_range _ (read32_range m (pde_addr d (PDX va)))).
      symmetry. apply V2P_P2V. lia. }
    by replace (t + 4 * PTX va - KERNBASE) with (t - KERNBASE + 4 * PTX va) by lia.
  - unfold hw_leaf, pte_slot, table_at in *.
    rewrite (PTE_ADDR_id (d - KERNBASE))
      by (destruct (wf_dir _ _ Hwf) as [Hd' _]; unfold KERNBASE; Z.div_mod_to_equations; lia).
    change (d - KERNBASE + 4 * PDX va) with (pde_addr d (PDX va)).
    by destruct (has (read32 m (pde_addr d (PDX va))) PTE_P).
Qed.

(** The hardware's own update of the entry. *)
Lemma hw_touch_present s d va :
  uspace (phys s) d -> cr3 s = d - KERNBASE -> uaddr va ->
  has (pte_of (phys s) d va) PTE_P = true ->
  exists m', hw_touch va s = Ret true (with_phys s m') /\
    crypt_rel (phys s) m' d /\ same_else (phys s) m' d va /\
    ad_eq (pte_of m' d va) (pte_of (phys s) d va).
Proof.
  intros Hus Hc Hva HP.
  assert (Hm : mapped (pte_of (phys s) d va) = true) by (unfold mapped; by rewrite HP).
  destruct (mapped_slot _ _ _ Hus Hva Hm) as (t & Ht & Hsl & Htok & _).
  unfold hw_touch. rewrite Hc, hw_leaf_spec by (auto using uaddr_vaddr, us_wf).
  rewrite Hsl, HP, (us_w _ _ Hus va Hva Hm). cbn [andb].
  set (v := pte_of (phys s) d va) in *.
  replace (t + 4 * PTX va - KERNBASE) with (t - KERNBASE + 4 * PTX va) by lia.
  replace (read32 (phys s) (t - KERNBASE + 4 * PTX va)) with v
    by (by unfold v; rewrite (pte_of_table _ _ _ _ Ht)).
  assert (Had := ad_eq_hw_mark v).
  assert (Hw : 0 <= hw_mark v < 4294967296) by (apply hw_mark_range, pte_of_range).
  pose proof (page_upd_write _ _ _ Hus Hva Hm t (hw_mark v) Ht Hw) as Hu.
  destruct (upd_same_else _ _ _ _ _ _ _ Hus Hva Ht Hm Hu) as [Ep Hse].
  eexists. split; [done|]. split; [|split; [done|by rewrite Ep]].
  assert (HE := us_excl _ _ Hus va Hva). fold v in HE.
  eapply (upd_crypt_rel _ _ d va t (hw_mark v) false); try done.
  - by apply ad_eq_addr.
  - unfold mapped. by rewrite (ad_eq_P _ _ Had), HP.
  - rewrite (ad_eq_W _ _ Had). by apply us_w.
  - by rewrite (ad_eq_P _ _ Had), (ad_eq_E _ _ Had).
  - by apply ad_eq_U.
  - fold v. rewrite (ad_eq_E _ _ Had). apply xorb_nilpotent.
Qed.

Lemma hw_touch_absent s d va :
  pgdir_wf (phys s) d -> cr3 s = d - KERNBASE -> vaddr va ->
  has (pte_of (phys s) d va) PTE_P = false -> hw_touch va s = Ret false s.
Proof.
  intros Hwf Hc Hva HP. unfold hw_touch. rewrite Hc, hw_leaf_spec by done.
  destruct (pte_slot _ _ _); [|done]. by rewrite HP.
Qed.

Lemma wset_ad m m' p va :
  uaddr va -> same_else m m' (pgdir p) va -> ad_eq (pte_of m' (pgdir p) va) (pte_of m (pgdir p) va) ->
  wset m p -> wset m' p.
Proof.
  intros Hva Hse Had Hw x Hx. specialize (Hw x Hx).
  destruct (same_else_page _ _ _ _ _ Hse Hx) as [->|E]; [done|].
  rewrite !(pte_of_same_page _ (pgdir p) x va) in * by auto using uaddr_vaddr.
  by rewrite (ad_eq_P _ _ Had), (ad_eq_U _ _ Had).
Qed.

Lemma wset_wset_but m p va : wset m p -> wset_but m p va.
Proof. intros H x Hx _. by apply H. Qed.

(** What an access keeps. *)
Record accessed (s : kstate) (me : nat) (p : proc) (s' : kstate) (p' : proc) : Prop := {
  ac_cur : cur_ok s' me p';
  ac_crypt : crypt_rel (phys s) (phys s') (pgdir p);
  ac_rest : rest_eq s s';
  ac_ptable : ptable s' = <[me := p']> (ptable s);
  ac_proc : cq_changed p p';
  ac_cq : cq_ok (phys s') p';
  ac_wset : wset (phys s) p -> wset (phys s') p'
}.

Lemma touch_present s me p va :
  cur_ok s me p -> cq_ok (phys s) p -> uaddr va -> has (pte_of (phys s) (pgdir p) va) PTE_P = true ->
  exists s', hw_touch va s = Ret true s' /\ accessed s me p s' p /\
    has (pte_of (phys s') (pgdir p) va) PTE_P = true.
Proof.
  intros Hok Hq Hva HP.
  destruct (hw_touch_present s (pgdir p) va (co_us _ _ _ Hok) (co_cr3 _ _ _ Hok) Hva HP)
    as (m' & E & Hcr & Hse & Had).
  exists (with_phys s m'). split; [done|]. split; [|cbn [phys with_phys]; by rewrite (ad_eq_P _ _ Had)]. split; try done.
  - by apply cur_ok_phys, Hcr.
  - cbn. by rewrite list_insert_id by apply Hok.
  - by destruct p.
  - by eapply cq_ok_crypt.
  - by apply (wset_ad _ _ _ va).
Qed.

Lemma cq_changed_trans p1 p2 p3 : cq_changed p1 p2 -> cq_changed p2 p3 -> cq_changed p1 p3.
Proof. unfold cq_changed. intros -> ->. by destruct p1. Qed.

Lemma accessed_trans s1 s2 s3 me p1 p2 p3 :
  accessed s1 me p1 s2 p2 -> accessed s2 me p2 s3 p3 -> accessed s1 me p1 s3 p3.
Proof.
  intros [A1 A2 A3 A4 A5 A6 A7] [B1 B2 B3 B4 B5 B6 B7].
  destruct (cq_changed_fields _ _ A5) as [_ Hpd]. rewrite Hpd in B2. split; try done.
  - by eapply crypt_rel_trans.
  - by eapply rest_eq_trans.
  - by rewrite B4, A4, list_insert_insert_eq.
  - by eapply cq_changed_trans.
  - auto.
Qed.

Lemma served_accessed s me p va m1 s' p' :
  cur_ok s me p -> accessible (pte_of (phys s) (pgdir p) va) = true ->
  has (pte_of (phys s) (pgdir p) va) PTE_E = true ->
  served s me p va m1 s' p' -> accessed s me p s' p'.
Proof.
  intros Hok Hacc HE Hs. split.
  - by eapply served_cur_ok.
  - eapply crypt_rel_trans; [by apply (ft_crypt _ _ _ _ (sv_flip _ _ _ _ _ _ _ Hs))|apply Hs].
  - apply Hs.
  - apply Hs.
  - apply Hs.
  - by apply Hs.
  - intros Hw. by apply Hs, wset_wset_but.
Qed.

Lemma touch_spec s me p va :
  cur_ok s me p -> cq_ok (phys s) p -> uaddr va ->
  accessible (pte_of (phys s) (pgdir p) va) = true ->
  exists s' p', touch va s = Ret tt s' /\ accessed s me p s' p' /\
    has (pte_of (phys s') (pgdir p) va) PTE_P = true.
Proof.
  intros Hok Hq Hva Hacc. destruct (has (pte_of (phys s) (pgdir p) va) PTE_P) eqn:HP.
  - destruct (touch_present s me p va) as (s' & E & Ha & HP'); try done.
    exists s', p. split; [|done]. unfold touch. by rewrite (bind_Ret _ _ _ _ _ E).
  - assert (HE : has (pte_of (phys s) (pgdir p) va) PTE_E = true).
    { apply accessible_mapped in Hacc. unfold mapped in Hacc. by rewrite HP in Hacc. }
    destruct (mdecrypt_served s me p va Hok Hq Hva (accessible_mapped _ Hacc))
      as (m1 & s1 & p1 & E1 & Hs).
    assert (Ha1 := served_accessed _ _ _ _ _ _ _ Hok Hacc HE Hs).
    assert (HP1 : has (pte_of (phys s1) (pgdir p) va) PTE_P = true).
    { rewrite (proj1 (sv_PE _ _ _ _ _ _ _ Hs)). apply Hs. }
    destruct (cq_changed_fields _ _ (ac_proc _ _ _ _ _ Ha1)) as [_ Hpd]. rewrite <- Hpd in HP1.
    destruct (touch_present s1 me p1 va) as (s' & E & Ha & HP'); try done.
    { apply Ha1. }
    { apply Ha1. }
    exists s', p1. split; [|split; [by eapply accessed_trans|by rewrite <- Hpd]]. unfold touch.
    rewrite (bind_Ret _ _ _ _ _ (hw_touch_absent s (pgdir p) va (us_wf _ _ (co_us _ _ _ Hok))
      (co_cr3 _ _ _ Hok) (uaddr_vaddr _ Hva) HP)).
    rewrite (bind_Ret _ _ _ _ _ E1). cbn [negb Z.eqb]. by rewrite (bind_Ret _ _ _ _ _ E).
Qed.

End VmDecrypt.
