(* ===== verification/VmMap.v ===== *)
(** * Building and freeing page tables (vm.c)

    First, what [walkpgdir] with allocation, [mappages] and [setupkvm] make of a
    directory, in the view of VmTables.v.  A directory under construction and
    the free list are disjoint ([tspace]); the code moves pages from the one to
    the other, maps what it was asked to map, and stops only for want of a page.

    Then [deallocuvm] and [freevm]: every page of an address space, its frames, its
    tables and the directory, goes back to the free list, each once; no other
    page is touched. *)
From S2P Require Import Prelude Memory KString Mmu State Kalloc Vm VmTables VmCrypt VmEnc.

Section VmMap.
Context `{PL : Platform}.

(** ** Directories and the free list *)

Record tspace (s : kstate) (d : Z) (l : list Z) : Prop := {
  ts_kmem : kmem_inv s l;
  ts_wf : pgdir_wf (phys s) d;
  ts_free : forall p, is_ptpage (phys s) d p -> p ∉ l
}.

(** A byte of a page table or of a free page. *)
Definition owned (m : mem) (d : Z) (l : list Z) (x : Z) : Prop :=
  exists p, in_page p x /\ (p ∈ l \/ is_ptpage m d p).

(** Directory slots of [ls] without a table: the pages that the tables for
    [ls] will take. *)
Definition missing (m : mem) (d : Z) (ls : list Z) : nat :=
  length (filter (fun i => table_at m d i = None) ls).

(** From [s] to [s'] pages have gone from the free list into the directory, and
    nothing else has changed. *)
Record ext (ls : list Z) (d : Z) (s : kstate) (l : list Z) (s' : kstate) (l' : list Z) : Prop := {
  ext_space : tspace s' d l';
  ext_only : s' = with_alloc s (phys s') (freelist (kmem s'));
  ext_agree : agree (fun x => ~ owned (phys s) d l x) (phys s) (phys s');
  ext_pages : forall p, p ∈ l' \/ is_ptpage (phys s') d p <-> p ∈ l \/ is_ptpage (phys s) d p;
  ext_taken : forall p, p ∈ l' -> p ∈ l;
  ext_count : (length l + missing (phys s') d ls = length l' + missing (phys s) d ls)%nat
}.

Lemma with_alloc_inv s m fl : phys (with_alloc s m fl) = m /\ freelist (kmem (with_alloc s m fl)) = fl.
Proof. done. Qed.

Lemma ext_refl ls d s l : tspace s d l -> ext ls d s l s l.
Proof. intros H. split; try done. by rewrite with_alloc_self. Qed.

Lemma ext_trans ls d s1 l1 s2 l2 s3 l3 :
  ext ls d s1 l1 s2 l2 -> ext ls d s2 l2 s3 l3 -> ext ls d s1 l1 s3 l3.
Proof.
  intros [A1 A2 A3 A4 A5 A6] [B1 B2 B3 B4 B5 B6]. split.
  - done.
  - rewrite B2, A2 at 1. by rewrite with_alloc_twice.
  - eapply agree_trans; [exact A3|]. eapply agree_weaken; [|exact B3].
    intros x Hx (p & Hp & H%A4). apply Hx. by exists p.
  - intros p. by rewrite B4.
  - auto.
  - lia.
Qed.

(** A store that touches only pages of the directory and keeps its tables. *)
Lemma ext_write ls d s l m' :
  tspace s d l -> pgdir_wf m' d -> (forall i, 0 <= i < 1024 -> table_at m' d i = table_at (phys s) d i) ->
  Forall (fun i => 0 <= i < 1024) ls ->
  agree (fun x => forall p, is_ptpage (phys s) d p -> ~ in_page p x) (phys s) m' ->
  ext ls d s l (with_phys s m') l.
Proof.
  intros [[H1 H2] Hwf Hf] Hwf' Ht Hls Hag.
  assert (Hpt : forall p, is_ptpage m' d p <-> is_ptpage (phys s) d p).
  { intros p. unfold is_ptpage. f_equiv. f_equiv. intros i.
    split; intros [Hi E]; (split; [done|]); by rewrite ?Ht in * by done. }
  split; cbn.
  - split; cbn; [|done|intros p Hp; by apply Hf, Hpt]. split; [|done].
    eapply free_list_agree, H1. intros q Hq x Hx. apply Hag. intros p Hp Hx'.
    apply (Hf p Hp). assert (q = p) as <-; [|done]. eapply in_page_inj; eauto.
    + apply free_list_ok in H1. rewrite Forall_forall in H1. by apply H1.
    + apply (ptpage_ok _ _ _ Hwf Hp).
  - by destruct s as [? [] ? ? ? ? ? ? ? ? ? ? ? ? ?].
  - eapply agree_weaken; [|exact Hag]. intros x Hx p Hp Hx'. apply Hx. exists p. by eauto.
  - intros p. by rewrite Hpt.
  - done.
  - f_equal. unfold missing. f_equal. clear -Ht Hls. induction Hls as [|i ls Hi _ IH]; [done|].
    rewrite !filter_cons, Ht, IH by done. done.
Qed.

(** ** [walkpgdir] with allocation *)

(** The directory entry that [walkpgdir] stores. *)
Definition pde_new (t : Z) : Z := Z.lor (Z.lor (Z.lor (V2P t) PTE_P) PTE_W) PTE_U.

Lemma pde_new_val t : page_ok t -> pde_new t = t - KERNBASE + 7.
Proof.
  intros H. unfold pde_new. rewrite (page_ok_V2P t H), <- !Z.lor_assoc. apply lor_frame_flags; [|done].
  destruct H as [H _]. unfold KERNBASE. Z.div_mod_to_equations. lia.
Qed.

Lemma pde_new_spec t : page_ok t ->
  0 <= pde_new t < 4294967296 /\ has (pde_new t) PTE_P = true /\ has (pde_new t) PTE_W = true /\
  P2V (PTE_ADDR (pde_new t)) = t.
Proof.
  intros H. pose proof (page_ok_bounds t H) as Hb. pose proof H as [Ha _].
  rewrite (pde_new_val t H). unfold KERNLINK, KERNBASE, EXTMEM, PHYSTOP in *.
  split; [lia|]. split_and!.
  - change PTE_P with (2 ^ 0). rewrite has_testbit by lia. rewrite Z.testbit_true by lia.
    Z.div_mod_to_equations. lia.
  - change PTE_W with (2 ^ 1). rewrite has_testbit by lia. rewrite Z.testbit_true by lia.
    Z.div_mod_to_equations. lia.
  - rewrite PTE_ADDR_val, P2V_val by (unfold KERNBASE; Z.div_mod_to_equations; lia).
    unfold KERNBASE. Z.div_mod_to_equations. lia.
Qed.

(** Memory with a new, empty table [t] for slot [i]. *)
Definition new_table (m : mem) (d i t : Z) : mem :=
  write32 (memset m (V2P t) 0 PGSIZE) (pde_addr d i) (pde_new t).

Section NewTable.
Context (s : kstate) (d i t : Z) (l : list Z).
Hypothesis Hwf : pgdir_wf (phys s) d.
Hypothesis Hi : 0 <= i < 1024.
Hypothesis Hno : table_at (phys s) d i = None.
Hypothesis Ht : page_ok t.
Hypothesis Hnew : ~ is_ptpage (phys s) d t.
Let m := phys s.
Let m' := new_table m d i t.

Lemma new_table_dir : t <> d.
Proof using Hnew. intros E. apply Hnew. by left. Qed.

Lemma new_table_in x : in_page t x -> read8 m' x = 0.
Proof using Hi Hnew Ht Hwf.
  intros Hx. unfold m', new_table. rewrite read8_write32_ne.
  - rewrite read8_memset by done. rewrite (page_ok_V2P t Ht). case_decide; [done|].
    unfold in_page, in_range, PGSIZE in *. lia.
  - intros Hx'%pde_addr_in_page; [|done]. apply new_table_dir.
    eapply in_page_inj; eauto; [apply Ht|apply Hwf].
Qed.

Lemma new_table_out x : ~ in_page t x -> ~ in_range (pde_addr d i) 4 x -> read8 m' x = read8 m x.
Proof using Ht.
  intros H1 H2. unfold m', new_table. rewrite read8_write32_ne by done.
  rewrite read8_memset by done. rewrite (page_ok_V2P t Ht). case_decide; [|done].
  unfold in_page, in_range, PGSIZE in *. lia.
Qed.

Lemma new_table_pde j : 0 <= j < 1024 ->
  read32 m' (pde_addr d j) = if decide (j = i) then pde_new t else read32 m (pde_addr d j).
Proof using Hi Hnew Ht Hwf.
  intros Hj. case_decide as E.
  - subst j. unfold m', new_table. apply read32_write32_eq, pde_new_spec, Ht.
  - apply read32_ext. intros x Hx. apply new_table_out.
    + intros Hx'. apply new_table_dir. eapply in_page_inj; eauto.
      * apply Ht.
      * apply Hwf.
      * by eapply pde_addr_in_page.
    + unfold pde_addr, in_range in *. lia.
Qed.

Lemma new_table_at j : 0 <= j < 1024 ->
  table_at m' d j = if decide (j = i) then Some t else table_at m d j.
Proof using Hi Hnew Ht Hwf.
  intros Hj. unfold table_at. rewrite new_table_pde by done. case_decide; [|done].
  destruct (pde_new_spec t Ht) as (_ & -> & _ & ->). done.
Qed.

Lemma new_table_ptpage p : is_ptpage m' d p <-> p = t \/ is_ptpage m d p.
Proof using Hi Hnew Hno Ht Hwf.
  unfold is_ptpage. split.
  - intros [->|(j & Hj & E)]; [by eauto|]. rewrite new_table_at in E by done. case_decide; naive_solver.
  - intros [->|[->|(j & Hj & E)]]; [|by eauto|].
    + right. exists i. rewrite new_table_at by done. by case_decide.
    + right. exists j. rewrite new_table_at by done. case_decide; [|done].
      subst j. unfold m in *. congruence.
Qed.

Lemma new_table_wf : pgdir_wf m' d.
Proof using Hi Hnew Hno Ht Hwf.
  split.
  - apply Hwf.
  - intros j q Hj. rewrite new_table_at, new_table_pde by done. case_decide.
    + intros [= <-]. split; [done|]. split; [apply new_table_dir|]. apply (pde_new_spec t Ht).
    + intros E. by apply (wf_tab _ _ Hwf).
  - intros j k q Hj Hk. rewrite !new_table_at by done.
    assert (forall n, 0 <= n < 1024 -> table_at m d n <> Some t).
    { intros n Hn E. apply Hnew. right. by exists n. }
    intros E1 E2. repeat case_decide.
    + congruence.
    + destruct (H j Hj). congruence.
    + destruct (H k Hk). congruence.
    + by apply (wf_inj _ _ Hwf j k q).
Qed.

Lemma new_table_pte_of x : vaddr x -> pte_of m' d x = pte_of m d x.
Proof using Hi Hnew Hno Ht Hwf.
  intros Hx. pose proof (PDX_range x Hx) as Hp. pose proof (PTX_range x) as Hq.
  unfold pte_of, pte_slot. rewrite new_table_at by done. case_decide as E.
  - rewrite E. unfold m. rewrite Hno. unfold read32.
    rewrite !new_table_in; [done|unfold in_page, in_range; lia..].
  - destruct (table_at m d (PDX x)) as [q|] eqn:Eq; [|done].
    destruct (wf_tab _ _ Hwf _ _ Hp Eq) as (Hok & Hqd & _).
    apply read32_ext. intros b Hb.
    assert (Hb' : in_page q b) by (unfold in_page, in_range in *; lia).
    apply new_table_out.
    + intros Ht'. apply Hnew. assert (t = q) as ->; [|right; by exists (PDX x)].
      eapply in_page_inj; eauto; [apply Ht|apply Hok].
    + intros Hd%pde_addr_in_page; [|done]. apply Hqd. eapply in_page_inj; eauto; [apply Hok|apply Hwf].
Qed.
End NewTable.

Lemma missing_new_table s d i t ls :
  pgdir_wf (phys s) d -> 0 <= i < 1024 -> table_at (phys s) d i = None -> page_ok t ->
  ~ is_ptpage (phys s) d t -> Forall (fun j => 0 <= j < 1024) ls -> NoDup ls -> i ∈ ls ->
  missing (phys s) d ls = S (missing (new_table (phys s) d i t) d ls).
Proof.
  intros Hwf Hi Hno Ht Hnew Hls Hnd Hin. unfold missing.
  assert (Hout : forall ks, i ∉ ks -> Forall (fun j => 0 <= j < 1024) ks ->
    filter (fun j => table_at (new_table (phys s) d i t) d j = None) ks =
    filter (fun j => table_at (phys s) d j = None) ks).
  { intros ks Hk HF. induction HF as [|j ks Hj HF IH]; [done|].
    apply not_elem_of_cons in Hk as [Hji Hk]. rewrite !filter_cons, IH by done.
    rewrite (new_table_at s d i t Hwf Hi Ht Hnew j Hj). by rewrite (decide_False (P := j = i)) by congruence. }
  apply list_elem_of_split in Hin as (k1 & k2 & ->).
  apply NoDup_app in Hnd as (_ & Hd & [Hn2 _]%NoDup_cons).
  apply Forall_app in Hls as [HF1 HF2]. apply Forall_cons in HF2 as [_ HF2].
  rewrite !filter_app, !filter_cons, (new_table_at s d i t Hwf Hi Ht Hnew i Hi).
  rewrite (decide_True (P := i = i)), (decide_False (P := Some t = None)) by done.
  rewrite (decide_True (P := table_at _ d i = None)) by done.
  rewrite (Hout k1), (Hout k2); try done.
  - rewrite !length_app. simpl. lia.
  - intros H. apply (Hd i H). by left.
Qed.

Definition slots_ok (ls : list Z) : Prop := Forall (fun j => 0 <= j < 1024) ls /\ NoDup ls.

Lemma new_table_ext ls d s l i t :
  tspace s d (t :: l) -> slots_ok ls -> i ∈ ls -> table_at (phys s) d i = None ->
  let fl := read32 (phys s) (V2P t) in
  kmem_inv (with_alloc s (phys s) fl) l ->
  ext ls d s (t :: l) (with_alloc s (new_table (phys s) d i t) fl) l.
Proof.
  intros [Hk Hwf Hf] [Hls Hnd] Hin Hno fl Hk'.
  assert (Hi : 0 <= i < 1024) by (rewrite Forall_forall in Hls; by apply Hls).
  pose proof Hk as [(_ & Ht & _) [[Htl _]%NoDup_cons _]].
  assert (Hnew : ~ is_ptpage (phys s) d t) by (intros H; apply (Hf t H); by left).
  assert (Hpt := fun p => new_table_ptpage s d i t Hwf Hi Hno Ht Hnew p).
  assert (Hag : agree (fun x => ~ in_page t x /\ ~ in_page d x) (phys s) (new_table (phys s) d i t)).
  { intros x [H1 H2]. symmetry. apply (new_table_out s d i t Ht); [done|].
    intros H%pde_addr_in_page; done. }
  split; cbn.
  - split; cbn.
    + destruct Hk' as (H1 & H2 & H3). split; [|done]. eapply free_list_agree, H1. cbn.
      intros q Hq x Hx. apply Hag. apply free_list_ok in H1 as Hok. rewrite Forall_forall in Hok.
      destruct (Hok q Hq) as [Hq4 _].
      split; intros Hx'; [apply Htl; replace t with q; [done|]|apply (Hf d); [by left|right]; replace d with q; [done|]];
        eapply in_page_inj; eauto; [apply Ht|apply Hwf].
    + by apply new_table_wf.
    + intros p [->|Hp]%Hpt; [done|]. intros Hpl. apply (Hf p Hp). by right.
  - done.
  - eapply agree_weaken; [|exact Hag]. intros x Hx.
    split; intros Hx'; apply Hx; [exists t|exists d]; (split; [done|]); [left; left|right; by left].
  - intros p. rewrite Hpt, elem_of_cons. tauto.
  - intros p Hp. by right.
  - rewrite (missing_new_table s d i t ls) by done. lia.
Qed.

Definition walk_result (ls : list Z) (d va : Z) (s : kstate) (l : list Z) : Prop :=
  (l = [] /\ table_at (phys s) d (PDX va) = None /\ walkpgdir d va true s = Ret 0 s) \/
  exists t s' l', walkpgdir d va true s = Ret (t + 4 * PTX va) s' /\
    ext ls d s l s' l' /\ table_at (phys s') d (PDX va) = Some t /\
    forall x, vaddr x -> pte_of (phys s') d x = pte_of (phys s) d x.

(** [walkpgdir] finds the table or makes one; every entry of the directory
    reads as before. *)
Lemma walkpgdir_alloc ls d va s l :
  tspace s d l -> vaddr va -> slots_ok ls -> PDX va ∈ ls -> walk_result ls d va s l.
Proof.
  intros Hsp Hva Hls Hin. pose proof Hsp as [Hk Hwf Hf].
  pose proof (PDX_range va Hva) as Hi. pose proof (wf_dir _ _ Hwf) as Hd.
  assert (Ea : V2P (d + 4 * PDX va) = pde_addr d (PDX va)).
  { rewrite page_kaddr by (done || lia). done. }
  unfold walk_result, walkpgdir, kread32.
  rewrite (bind_Ret (gets _) _ s (read32 (phys s) (V2P (d + 4 * PDX va))) s eq_refl), Ea.
  destruct (table_at (phys s) d (PDX va)) as [t|] eqn:Et; pose proof Et as Et'; unfold table_at in Et;
    destruct (has _ PTE_P) eqn:EP; try done.
  - injection Et as ->. right. exists t, s, l. by split_and!; [|apply ext_refl| |].
  - cbn [negb]. destruct l as [|t l].
    + left. rewrite (bind_Ret _ _ _ _ _ (kalloc_empty s Hk)). done.
    + right. destruct (kalloc_cons s t l Hk) as [E Hk']. rewrite (bind_Ret _ _ _ _ _ E).
      pose proof Hk as [(_ & Ht & _) _].
      rewrite (proj2 (Z.eqb_neq t 0) (page_ok_nonzero t Ht)).
      assert (Hnew : ~ is_ptpage (phys s) d t) by (intros H; apply (Hf t H); by left).
      exists t, (with_alloc s (new_table (phys s) d (PDX va) t) (read32 (phys s) (V2P t))), l.
      split_and!.
      * unfold bind, kmodify_mem, kwrite32, modify, ret. rewrite Ea. done.
      * by apply new_table_ext.
      * cbn. rewrite new_table_at by done. by rewrite decide_True by done.
      * intros x Hx. by apply new_table_pte_of.
Qed.

(** ** [mappages] *)

(** The entry that [mappages] stores. *)
Definition leaf (pa perm : Z) : Z :=
  if has perm PTE_E then clear (Z.lor (Z.lor pa perm) PTE_E) PTE_P else Z.lor (Z.lor pa perm) PTE_P.

Lemma leaf_testbit pa perm n : 0 <= n ->
  Z.testbit (leaf pa perm) n =
    if has perm PTE_E then (Z.testbit pa n || Z.testbit perm n || (n =? 10)) && negb (n =? 0)
    else Z.testbit pa n || Z.testbit perm n || (n =? 0).
Proof.
  intros Hn. unfold leaf. change PTE_E with (2 ^ 10) at 2. change PTE_P with (2 ^ 0).
  destruct (has perm PTE_E).
  - rewrite (testbit_clear _ 0 n), !Z.lor_spec, Z.pow2_bits_eqb by lia.
    by rewrite (Z.eqb_sym 10 n), (Z.eqb_sym 0 n).
  - rewrite !Z.lor_spec, Z.pow2_bits_eqb by lia. by rewrite (Z.eqb_sym 0 n).
Qed.

Section Leaf.
Context (pa perm : Z).
Hypothesis Hpa : 0 <= pa < 4294967296.
Hypothesis Hal : pa mod 4096 = 0.
Hypothesis Hperm : 0 <= perm < 4096.

Lemma pa_low n : 0 <= n < 12 -> Z.testbit pa n = false.
Proof using Hal.
  intros Hn. rewrite <- (testbit_small_ones pa 12 n) by lia. change (2 ^ 12) with 4096. rewrite Hal.
  apply Z.testbit_0_l.
Qed.

Lemma perm_high n : 12 <= n -> Z.testbit perm n = false.
Proof using Hperm. intros Hn. apply (testbit_high perm 12); lia. Qed.

Lemma leaf_range : 0 <= leaf pa perm < 4294967296.
Proof using Hpa Hperm.
  apply bits_range32. intros n Hn. rewrite leaf_testbit, (range32_bits pa), perm_high by lia.
  destruct (has perm PTE_E); lia.
Qed.

Lemma leaf_ADDR : PTE_ADDR (leaf pa perm) = pa.
Proof using Hal Hperm.
  rewrite <- (PTE_ADDR_id pa Hal) at 2. apply PTE_ADDR_ext. intros n Hn.
  rewrite leaf_testbit, perm_high by lia.
  replace (n =? 10) with false by lia. replace (n =? 0) with false by lia.
  destruct (has perm PTE_E), (Z.testbit pa n); done.
Qed.

Lemma leaf_has k : 0 < k < 12 -> has (leaf pa perm) (2 ^ k) = has perm (2 ^ k).
Proof using Hal.
  intros Hk. rewrite !has_testbit by lia. rewrite leaf_testbit, pa_low by lia.
  replace (k =? 0) with false by lia.
  destruct (has perm PTE_E) eqn:E; simpl; rewrite ?orb_false_r, ?andb_true_r; [|done].
  change PTE_E with (2 ^ 10) in E. rewrite has_testbit in E by lia.
  destruct (Z.eqb_spec k 10) as [->|]; [by rewrite E|by rewrite orb_false_r].
Qed.

Lemma leaf_P : has (leaf pa perm) PTE_P = negb (has perm PTE_E).
Proof using Hal.
  change PTE_P with (2 ^ 0). rewrite has_testbit, leaf_testbit by lia.
  destruct (has perm PTE_E); simpl; by rewrite ?andb_false_r, ?orb_true_r.
Qed.

Lemma leaf_mapped : mapped (leaf pa perm) = true.
Proof using Hal.
  unfold mapped. rewrite leaf_P. change PTE_E with (2 ^ 10). rewrite leaf_has by lia.
  by destruct (has perm _).
Qed.
End Leaf.

(** [m'] maps the [k] pages from [a] to the frames from [pa], and the other
    pages as [m] does. *)
Definition map_view (m m' : mem) (d a : Z) (k : nat) (pa perm : Z) : Prop :=
  forall x, vaddr x -> pte_of m' d x =
    if decide (in_range a (4096 * Z.of_nat k) x) then leaf (pa + (PGROUNDDOWN x - a)) perm
    else pte_of m d x.

Lemma missing_pos m d ls i : i ∈ ls -> table_at m d i = None -> (0 < missing m d ls)%nat.
Proof.
  intros Hi E. unfold missing. destruct (filter _ ls) eqn:Ef; [|simpl; lia].
  apply filter_nil_not_elem_of with (x := i) in Ef; done.
Qed.

Lemma same_page_range a x : a mod 4096 = 0 -> a / 4096 = x / 4096 <-> in_range a 4096 x.
Proof. intros Ha. unfold in_range. Z.div_mod_to_equations. lia. Qed.

(** Storing the entry of one page. *)
Lemma map_one ls d a t pa perm s l :
  tspace s d l -> slots_ok ls -> vaddr a -> a mod 4096 = 0 -> table_at (phys s) d (PDX a) = Some t ->
  0 <= pa < 4294967296 -> pa mod 4096 = 0 -> 0 <= perm < 4096 ->
  exists s', kwrite32 (t + 4 * PTX a) (leaf pa perm) s = Ret tt s' /\ ext ls d s l s' l /\
    map_view (phys s) (phys s') d a 1 pa perm.
Proof.
  intros Hsp [Hls Hnd] Ha Hal Ht Hpa Hpal Hperm. pose proof (ts_wf _ _ _ Hsp) as Hwf.
  destruct (wf_tab _ _ Hwf _ _ (PDX_range a Ha) Ht) as (Hok & Htd & _).
  eexists. split; [reflexivity|]. cbn. rewrite (slot_addr t a Hok).
  set (m' := write32 _ _ _).
  assert (Hrd : read32 m' (t - KERNBASE + 4 * PTX a) = leaf pa perm).
  { apply read32_write32_eq. by apply leaf_range. }
  assert (Hag : forall p x, is_ptpage (phys s) d p -> in_page p x ->
    ~ in_range (t - KERNBASE + 4 * PTX a) 4 x -> read8 m' x = read8 (phys s) x).
  { intros p x _ _ Hx. by apply read8_write32_ne. }
  split.
  - apply ext_write; try done.
    + by apply (store_pgdir_wf (phys s) m' d a t).
    + intros i Hi. by apply (store_table_at (phys s) m' d a t).
    + intros x Hx. symmetry. apply read8_write32_ne. intros Hx'%slot_in_page.
      apply (Hx t); [|done]. right. eauto using PDX_range.
  - intros x Hx. rewrite (store_pte_of _ _ _ _ _ _ Hwf Ha Ht Hrd Hag x Hx).
    change (4096 * Z.of_nat 1) with 4096.
    destruct (decide (a / 4096 = x / 4096)) as [E|E]; rewrite (same_page_range a x Hal) in E;
      case_decide; try done.
    f_equal. rewrite PGROUNDDOWN_val. unfold in_range in *. Z.div_mod_to_equations. lia.
Qed.

Lemma map_view_trans m1 m2 m3 d a k pa perm :
  a mod 4096 = 0 -> map_view m1 m2 d a 1 pa perm -> map_view m2 m3 d (a + 4096) k (pa + 4096) perm ->
  map_view m1 m3 d a (S k) pa perm.
Proof.
  intros Ha H1 H2 x Hx. rewrite (H2 x Hx), (H1 x Hx). unfold in_range.
  repeat case_decide; try done; try lia. f_equal. lia.
Qed.

Lemma map_view_0 m d a pa perm : map_view m m d a 0 pa perm.
Proof. intros x Hx. by rewrite decide_False by (unfold in_range; lia). Qed.

Lemma map_view_pte m1 m2 m3 d a k pa perm :
  (forall x, vaddr x -> pte_of m2 d x = pte_of m1 d x) -> map_view m2 m3 d a k pa perm ->
  map_view m1 m3 d a k pa perm.
Proof. intros H1 H2 x Hx. by rewrite (H2 x Hx), (H1 x Hx). Qed.

(** One round of the loop, with what follows it. *)
Definition map_round (d a pa perm : Z) (next : K Z) : K Z :=
  let* pte := walkpgdir d a true in
  if pte =? 0 then ret (-1)
  else
    let* v := kread32 pte in
    if has v (Z.lor PTE_P PTE_E) then panic "remap"
    else do* kwrite32 pte (leaf pa perm) in next.

Lemma map_round_spec ls d a pa perm s l :
  tspace s d l -> slots_ok ls -> vaddr a -> a mod 4096 = 0 -> PDX a ∈ ls ->
  mapped (pte_of (phys s) d a) = false ->
  0 <= pa < 4294967296 -> pa mod 4096 = 0 -> 0 <= perm < 4096 ->
  (l = [] /\ (0 < missing (phys s) d ls)%nat /\ forall next, map_round d a pa perm next s = Ret (-1) s) \/
  exists s' l', (forall next, map_round d a pa perm next s = next s') /\ ext ls d s l s' l' /\
    map_view (phys s) (phys s') d a 1 pa perm.
Proof.
  intros Hsp Hls Hva Hal Hin Hun Hpa Hpal Hperm.
  destruct (walkpgdir_alloc ls d a s l Hsp Hva Hls Hin) as
    [(-> & Hno & E)|(t & s1 & l1 & E & Hext & Ht & Hpte)].
  { left. split_and!; [done|by eapply missing_pos|]. intros next. unfold map_round.
    by rewrite (bind_Ret _ _ _ _ _ E). }
  right. assert (Hs1 := ext_space _ _ _ _ _ _ Hext). pose proof (ts_wf _ _ _ Hs1) as Hwf1.
  assert (Hslot : pte_slot (phys s1) d a = Some (t + 4 * PTX a)) by (unfold pte_slot; by rewrite Ht).
  assert (Ev : read32 (phys s1) (t + 4 * PTX a - KERNBASE) = pte_of (phys s1) d a)
    by (unfold pte_of; by rewrite Hslot).
  destruct (map_one ls d a t pa perm s1 l1) as (s2 & E2 & Hext2 & Hv); try done.
  exists s2, l1. split; [|split; [by eapply ext_trans|by eapply map_view_pte]].
  intros next. unfold map_round. rewrite (bind_Ret _ _ _ _ _ E).
  rewrite (proj2 (Z.eqb_neq _ 0) (pte_slot_nonzero _ _ _ _ Hwf1 Hva Hslot)).
  unfold kread32. rewrite (bind_Ret (gets _) _ s1 _ s1 eq_refl).
  rewrite (pte_slot_V2P _ _ _ _ Hwf1 Hva Hslot), Ev, (Hpte a Hva), has_lor.
  fold (mapped (pte_of (phys s) d a)). rewrite Hun. by rewrite (bind_Ret _ _ _ _ _ E2).
Qed.

Definition map_result (ls : list Z) (d a : Z) (n : nat) (pa perm : Z) (c : K Z) (s : kstate) (l : list Z) : Prop :=
  exists k r s' l', c s = Ret r s' /\ ext ls d s l s' l' /\ map_view (phys s) (phys s') d a k pa perm /\
    (r = 0 /\ k = n \/ r = -1 /\ (k < n)%nat /\ l' = [] /\ (0 < missing (phys s') d ls)%nat).

Lemma mappages_loop_S k d a last pa perm :
  mappages_loop (S k) d a last pa perm = map_round d a pa perm
    (if a =? last then ret 0 else mappages_loop k d (u32 (a + PGSIZE)) last (u32 (pa + PGSIZE)) perm).
Proof. done. Qed.

Lemma mappages_loop_spec ls d perm n : forall a pa s l,
  tspace s d l -> slots_ok ls -> 0 <= perm < 4096 ->
  a mod 4096 = 0 -> 0 <= a -> a + 4096 * (Z.of_nat n + 1) <= 4294967296 ->
  pa mod 4096 = 0 -> 0 <= pa -> pa + 4096 * (Z.of_nat n + 1) <= 4294967296 ->
  (forall x, in_range a (4096 * (Z.of_nat n + 1)) x ->
     PDX x ∈ ls /\ mapped (pte_of (phys s) d x) = false) ->
  map_result ls d a (S n) pa perm (mappages_loop (S n) d a (a + 4096 * Z.of_nat n) pa perm) s l.
Proof.
  induction n as [|n IH]; intros a pa s l Hsp Hls Hperm Hal Ha Hae Hpal Hpa Hpae Hfree.
  all: destruct (Hfree a) as [Hin Hun]; [unfold in_range; lia|].
  all: assert (Hva : vaddr a) by (unfold vaddr; lia).
  all: unfold map_result; rewrite mappages_loop_S.
  all: edestruct (map_round_spec ls d a pa perm s l) as
      [(-> & Hm & E)|(s1 & l1 & E & Hext & Hv)]; [done..|lia|done|done| |]; rewrite E.
  1,3: exists 0%nat, (-1), s, []; split_and!; [done|by apply ext_refl|apply map_view_0|];
    right; split_and!; [done|lia|done|done].
  - exists 1%nat, 0, s1, l1. rewrite (proj2 (Z.eqb_eq a _)) by lia. by eauto 10.
  - rewrite (proj2 (Z.eqb_neq a _)) by lia. unfold PGSIZE. rewrite !u32_small by lia.
    replace (a + 4096 * Z.of_nat (S n)) with (a + 4096 + 4096 * Z.of_nat n) by lia.
    destruct (IH (a + 4096) (pa + 4096) s1 l1) as (k & r & s2 & l2 & E2 & Hext2 & Hv2 & Hr); try done; try lia.
    { apply Hext. } { Z.div_mod_to_equations; lia. } { Z.div_mod_to_equations; lia. }
    { intros x Hx. unfold in_range in Hx. destruct (Hfree x) as [H1 H2]; [unfold in_range; lia|].
      rewrite (Hv x) by (unfold vaddr; lia). rewrite decide_False by (unfold in_range; lia). done. }
    exists (S k), r, s2, l2. rewrite E2. split_and!; [done|by eapply ext_trans|by eapply map_view_trans|].
    destruct Hr as [[-> ->]|(-> & ? & -> & ?)]; [by left|right]. split_and!; [done|lia|done|done].
Qed.

(** [mappages] of [n] pages at a page boundary.  The size may end anywhere in
    the last page. *)
Lemma mappages_spec ls d a sz n pa perm s l :
  tspace s d l -> slots_ok ls -> 0 <= perm < 4096 ->
  a mod 4096 = 0 -> 0 <= a -> a + 4096 * Z.of_nat n <= 4294967296 ->
  pa mod 4096 = 0 -> 0 <= pa -> pa + 4096 * Z.of_nat n <= 4294967296 ->
  (0 < n)%nat -> 4096 * (Z.of_nat n - 1) < sz <= 4096 * Z.of_nat n ->
  (forall x, in_range a (4096 * Z.of_nat n) x -> PDX x ∈ ls /\ mapped (pte_of (phys s) d x) = false) ->
  map_result ls d a n pa perm (mappages d a sz pa perm) s l.
Proof.
  intros Hsp Hls Hperm Hal Ha Hae Hpal Hpa Hpae Hn Hsz Hfree. destruct n as [|n]; [lia|].
  unfold mappages. rewrite !PGROUNDDOWN_val, (u32_small (a + sz - 1)) by lia.
  assert (a / 4096 * 4096 = a) as -> by (Z.div_mod_to_equations; lia).
  assert ((a + sz - 1) / 4096 * 4096 = a + 4096 * Z.of_nat n) as -> by (Z.div_mod_to_equations; lia).
  rewrite u32_small by lia. replace (a + 4096 * Z.of_nat n - a) with (Z.of_nat n * 4096) by lia.
  unfold PGSIZE. rewrite Z.div_mul, Nat2Z.id by lia.
  apply mappages_loop_spec; try done; try lia. intros x Hx. apply Hfree. unfold in_range in *. lia.
Qed.

End VmMap.

(** * Taking address spaces apart *)

Section VmFree.
Context `{PL : Platform}.

(** ** Address spaces and the free list *)

(** A frame that a user page of [d] is mapped to. *)
Definition uframe (m : mem) (d p : Z) : Prop :=
  exists va, uaddr va /\ mapped (pte_of m d va) = true /\ frame (pte_of m d va) = p.

(** The pages an address space is made of. *)
Definition pages (m : mem) (d p : Z) : Prop := is_ptpage m d p \/ uframe m d p.

Record space (s : kstate) (d : Z) (l : list Z) : Prop := {
  sp_kmem : kmem_inv s l;
  sp_us : uspace (phys s) d;
  sp_free : forall p, pages (phys s) d p -> p ∉ l
}.

(** The current process's clock queue has no pointer to an entry of a mapped
    page of [d]. *)
Definition cq_apart (s : kstate) (d : Z) : Prop :=
  forall va t, uaddr va -> mapped (pte_of (phys s) d va) = true ->
  table_at (phys s) d (PDX va) = Some t ->
  exists me p, curproc s = Some me /\ ptable s !! me = Some p /\
    forall n, n ∈ cq p -> cq_pte n <> t + 4 * PTX va.

Lemma space_tspace s d l : space s d l -> tspace s d l.
Proof. intros [H1 H2 H3]. split; [done|apply H2|]. intros p Hp. apply H3. by left. Qed.

Lemma pages_ok m d p : uspace m d -> pages m d p -> page_ok p.
Proof.
  intros Hus [Hp|(va & Hu & Hm & <-)]; [eapply ptpage_ok; [apply Hus|done]|by apply Hus].
Qed.

Lemma cq_find_none f q i : (forall n, n ∈ q -> f n = false) -> cq_find f q i = None.
Proof.
  revert i. induction q as [|n q IH]; intros i H; [done|]. cbn [cq_find].
  rewrite (H n) by (by left). apply IH. intros k Hk. apply H. by right.
Qed.

(** A pointer that is not queued is not removed. *)
Lemma cq_remove_none s me p a :
  curproc s = Some me -> ptable s !! me = Some p -> (forall n, n ∈ cq p -> cq_pte n <> a) ->
  cq_remove a s = Ret tt s.
Proof.
  intros Hc Hp Hq. unfold cq_remove, bind, my, get_proc. rewrite Hc, Hp.
  rewrite cq_find_none; [done|]. intros n Hn. apply Z.eqb_neq. by apply Hq.
Qed.

(** ** [deallocuvm] *)

(** The pages that begin between [lo] and [hi]. *)
Definition in_pg (lo hi x : Z) : Prop := lo <= PGROUNDDOWN x < hi.

(** The entries after the pages from [lo] to [hi] have been unmapped. *)
Definition unmap_view (m m' : mem) (d lo hi : Z) : Prop :=
  forall x, vaddr x -> pte_of m' d x =
    if decide (in_pg lo hi x /\ mapped (pte_of m d x) = true) then 0 else pte_of m d x.

Record freed (d lo hi : Z) (s : kstate) (l : list Z) (s' : kstate) (l' : list Z) : Prop := {
  fr_space : space s' d l';
  fr_only : s' = with_alloc s (phys s') (freelist (kmem s'));
  fr_view : unmap_view (phys s) (phys s') d lo hi;
  fr_tab : forall i, 0 <= i < 1024 -> table_at (phys s') d i = table_at (phys s) d i;
  fr_pages : forall p, p ∈ l' \/ uframe (phys s') d p <-> p ∈ l \/ uframe (phys s) d p;
  fr_agree : agree (fun x => forall p, pages (phys s) d p -> ~ in_page p x) (phys s) (phys s')
}.

Lemma same_tables_ptpage m m' d p :
  (forall i, 0 <= i < 1024 -> table_at m' d i = table_at m d i) -> is_ptpage m' d p <-> is_ptpage m d p.
Proof.
  intros H. unfold is_ptpage. f_equiv. f_equiv. intros i.
  split; intros [Hi E]; (split; [done|]); by rewrite ?H in * by done.
Qed.

Lemma unmap_mapped m m' d lo hi x :
  unmap_view m m' d lo hi -> vaddr x -> mapped (pte_of m' d x) = true ->
  pte_of m' d x = pte_of m d x /\ ~ in_pg lo hi x.
Proof.
  intros Hv Hx Hm. rewrite (Hv x Hx) in *. case_decide as E; [done|]. split; [done|].
  intros Hin. by apply E.
Qed.

Lemma unmap_uframe m m' d lo hi p : unmap_view m m' d lo hi -> uframe m' d p -> uframe m d p.
Proof.
  intros Hv (va & Hu & Hm & <-). destruct (unmap_mapped _ _ _ _ _ _ Hv (uaddr_vaddr va Hu) Hm) as [E _].
  exists va. by rewrite <- E.
Qed.

Lemma freed_refl d lo hi s l :
  space s d l -> (forall x, vaddr x -> in_pg lo hi x -> mapped (pte_of (phys s) d x) = false) ->
  freed d lo hi s l s l.
Proof.
  intros H Hno. split; try done; [by rewrite with_alloc_self|].
  intros x Hx. rewrite decide_False; [done|]. intros [Hin Hm]. by rewrite (Hno x Hx Hin) in Hm.
Qed.

Lemma freed_trans d lo mid hi s1 l1 s2 l2 s3 l3 :
  lo <= mid ->
  (forall x, in_pg lo mid x -> mapped (pte_of (phys s1) d x) = true -> PGROUNDDOWN x < hi) ->
  freed d lo mid s1 l1 s2 l2 -> freed d mid hi s2 l2 s3 l3 -> freed d lo hi s1 l1 s3 l3.
Proof.
  intros Hlm Hmh [A1 A2 A3 A4 A5 A6] [B1 B2 B3 B4 B5 B6]. split.
  - done.
  - rewrite B2, A2 at 1. by rewrite with_alloc_twice.
  - intros x Hx. rewrite (B3 x Hx), (A3 x Hx). specialize (Hmh x).
    destruct (decide (in_pg lo mid x /\ _)) as [[H1 H2]|H1].
    + rewrite (decide_True (P := in_pg lo hi x /\ _)) by (unfold in_pg in *; naive_solver).
      by rewrite decide_False by (by intros [_ ?]).
    + destruct (mapped (pte_of (phys s1) d x)) eqn:Em; [|by rewrite !decide_False by naive_solver].
      apply decide_ext. unfold in_pg in *. naive_solver lia.
  - intros i Hi. by rewrite B4, A4.
  - intros p. by rewrite B5.
  - eapply agree_trans; [exact A6|]. eapply agree_weaken; [|exact B6].
    intros x Hx p [Hp|Hp]; apply Hx; [left|right].
    + by rewrite same_tables_ptpage in Hp by done.
    + by eapply unmap_uframe.
Qed.

(** One page is unmapped and its frame freed. *)
Section FreeOne.
Context (s : kstate) (d va t : Z) (l : list Z).
Hypothesis Hsp : space s d l.
Hypothesis Hva : uaddr va.
Let m := phys s.
Let v := pte_of m d va.
Hypothesis Hm : mapped v = true.
Hypothesis Ht : table_at m d (PDX va) = Some t.
Let f := frame v.
Let a := t - KERNBASE + 4 * PTX va.
Let m1 := freed_mem m f (freelist (kmem s)).
Let m2 := write32 m1 a 0.

Lemma fo_frame : page_ok f /\ f ∉ l /\ ~ is_ptpage m d f.
Proof using Hm Hsp Hva.
  destruct Hsp as [_ Hus Hf]. split_and!; [by apply Hus| |by apply Hus].
  apply Hf. right. by exists va.
Qed.

Lemma fo_out x : ~ in_page f x -> ~ in_range a 4 x -> read8 m2 x = read8 m x.
Proof using Hm Hsp Hva.
  intros H1 H2. unfold m2. rewrite read8_write32_ne by done.
  apply (freed_mem_agree m f _ (fun y => ~ in_page f y)); [apply fo_frame|done|done].
Qed.

Lemma fo_ptpage p x : is_ptpage m d p -> in_page p x -> ~ in_range a 4 x -> read8 m2 x = read8 m x.
Proof using Hm Hsp Hva.
  intros Hp Hx Ha. apply fo_out; [|done]. intros Hx'. destruct fo_frame as (Hok & _ & Hn).
  apply Hn. assert (f = p) as ->; [|done].
  eapply in_page_inj; eauto; [apply Hok|].
  apply (ptpage_ok m d p (us_wf _ _ (sp_us _ _ _ Hsp)) Hp).
Qed.

Lemma fo_rd : read32 m2 a = 0.
Proof. by apply read32_write32_eq. Qed.

Let Hwf := us_wf _ _ (sp_us _ _ _ Hsp).
Let Hvv := uaddr_vaddr va Hva.

Lemma fo_table i : 0 <= i < 1024 -> table_at m2 d i = table_at m d i.
Proof using Hm Hsp Ht Hva. intros Hi. apply (store_table_at m m2 d va t); try done. apply fo_ptpage. Qed.

Lemma fo_pte_of x : vaddr x -> pte_of m2 d x = if decide (va / 4096 = x / 4096) then 0 else pte_of m d x.
Proof using Hm Hsp Ht Hva.
  intros Hx. apply (store_pte_of m m2 d va t 0); try done; [apply fo_rd|apply fo_ptpage].
Qed.

Lemma fo_mapped x : vaddr x -> mapped (pte_of m2 d x) = true ->
  pte_of m2 d x = pte_of m d x /\ va / 4096 <> x / 4096.
Proof using Hm Hsp Ht Hva. intros Hx H. rewrite fo_pte_of in * by done. by case_decide. Qed.

Lemma fo_uspace : uspace m2 d.
Proof using Hm Hsp Ht Hva.
  pose proof (sp_us _ _ _ Hsp) as Hus. destruct Hus as [U1 U2 U3 U4 U5 U6]. split.
  - apply (store_pgdir_wf m m2 d va t); try done. apply fo_ptpage.
  - intros x Hx Hmx. destruct (fo_mapped x (uaddr_vaddr x Hx) Hmx) as [E _]. rewrite E in *. by apply U2.
  - intros x Hx Hmx. destruct (fo_mapped x (uaddr_vaddr x Hx) Hmx) as [E _]. rewrite E in *.
    rewrite (same_tables_ptpage m m2) by apply fo_table. by apply U3.
  - intros x y Hx Hy Hmx Hmy. destruct (fo_mapped x (uaddr_vaddr x Hx) Hmx) as [E _].
    destruct (fo_mapped y (uaddr_vaddr y Hy) Hmy) as [E' _]. rewrite E, E' in *. by apply U4.
  - intros x Hx Hmx. destruct (fo_mapped x (uaddr_vaddr x Hx) Hmx) as [E _]. rewrite E in *. by apply U5.
  - intros x Hx. rewrite fo_pte_of by (by apply uaddr_vaddr). case_decide; [done|]. by apply U6.
Qed.

Lemma fo_uframe p : uframe m2 d p <-> uframe m d p /\ p <> f.
Proof using Hm Hsp Ht Hva.
  split.
  - intros (x & Hx & Hmx & <-). destruct (fo_mapped x (uaddr_vaddr x Hx) Hmx) as [E Hne]. rewrite E in *.
    split; [by exists x|]. intros Ef. apply Hne.
    apply (us_inj _ _ (sp_us _ _ _ Hsp)); try done. unfold f, frame, v in Ef. fold m. lia.
  - intros [(x & Hx & Hmx & Ef) Hne]. exists x. rewrite fo_pte_of by (by apply uaddr_vaddr).
    rewrite decide_False; [done|]. intros E. apply Hne. rewrite <- Ef. unfold f, v.
    by rewrite (pte_of_same_page m d va x) by (done || by apply uaddr_vaddr).
Qed.

Lemma free_one_ok : freed d (PGROUNDDOWN va) (PGROUNDDOWN va + 4096) s l (with_alloc s m2 f) (f :: l).
Proof using Hm Hsp Ht Hva.
  destruct fo_frame as (Hok & Hfl & Hfp). destruct (kfree_spec s f l (sp_kmem _ _ _ Hsp) Hok Hfl) as [_ Hk].
  assert (Hslot : forall q x, page_ok q -> in_page q x -> in_range a 4 x -> q = t).
  { intros q x Hq Hx Hx'%slot_in_page. eapply in_page_inj; eauto; [apply Hq|].
    apply (wf_tab _ _ Hwf _ _ (PDX_range va Hvv) Ht). }
  split; cbn; fold m.
  - split; cbn.
    + destruct Hk as (H1 & H2 & H3). split; [|done]. eapply free_list_agree, H1. cbn.
      intros q Hq x Hx. symmetry. apply read8_write32_ne. intros Hx'.
      apply free_list_ok in H1. rewrite Forall_forall in H1.
      assert (q = t) as -> by (by eapply Hslot; eauto).
      assert (Htp : is_ptpage m d t) by (right; eauto using PDX_range).
      apply elem_of_cons in Hq as [->|Hq]; [done|]. eapply sp_free; [exact Hsp|by left|done].
    + apply fo_uspace.
    + intros p [Hp|[Hp Hne]%fo_uframe] [->|Hl]%elem_of_cons; try done.
      * apply Hfp. by rewrite (same_tables_ptpage m m2) in Hp by apply fo_table.
      * rewrite (same_tables_ptpage m m2) in Hp by apply fo_table.
        eapply sp_free; [exact Hsp|by left|done].
      * eapply sp_free; [exact Hsp|by right|done].
  - done.
  - intros x Hx. rewrite fo_pte_of by done. unfold in_pg. rewrite !PGROUNDDOWN_val.
    destruct (decide (va / 4096 = x / 4096)) as [E|E].
    + rewrite decide_True; [done|]. split; [lia|].
      by rewrite <- (pte_of_same_page m d va x) by done.
    + rewrite decide_False; [done|]. intros [? _]. apply E. lia.
  - apply fo_table.
  - intros p. rewrite elem_of_cons, fo_uframe. destruct (decide (p = f)) as [->|]; [|naive_solver].
    split; [|by eauto]. intros _. right. by exists va.
  - intros x Hx. symmetry. apply fo_out.
    + apply Hx. right. by exists va.
    + intros Hx'%slot_in_page. apply (Hx t); [|done]. left. right. eauto using PDX_range.
Qed.
End FreeOne.

Lemma freed_cq_apart d lo hi s l s' l' : freed d lo hi s l s' l' -> cq_apart s d -> cq_apart s' d.
Proof.
  intros [_ H2 H3 H4 _ _] Hc va t Hu Hm. rewrite H2. cbn.
  destruct (unmap_mapped _ _ _ _ _ _ H3 (uaddr_vaddr va Hu) Hm) as [E _]. rewrite E in Hm.
  rewrite H4 by (by apply PDX_range, uaddr_vaddr). by apply Hc.
Qed.

(** The body of the loop for a page that has a table. *)
Definition dealloc_page (a pte v : Z) : K unit :=
  if has v (Z.lor PTE_P PTE_E) then
    let pa := PTE_ADDR v in
    if pa =? 0 then panic "kfree"
    else
      do* kfree (P2V pa) in
      do* cq_remove pte in
      kwrite32 pte 0
  else ret tt.

Lemma dealloc_page_spec s d a t l :
  space s d l -> cq_apart s d -> uaddr a -> a mod 4096 = 0 -> table_at (phys s) d (PDX a) = Some t ->
  exists s' l', dealloc_page a (t + 4 * PTX a) (pte_of (phys s) d a) s = Ret tt s' /\
    freed d a (a + 4096) s l s' l'.
Proof.
  intros Hsp Hcq Hu Hal Ht. pose proof (uaddr_vaddr a Hu) as Hv.
  assert (Ea : PGROUNDDOWN a = a) by (rewrite PGROUNDDOWN_val; Z.div_mod_to_equations; lia).
  unfold dealloc_page. rewrite has_lor. fold (mapped (pte_of (phys s) d a)).
  destruct (mapped (pte_of (phys s) d a)) eqn:Em.
  - destruct (fo_frame s d a l Hsp Hu Em) as (Hok & Hfl & _).
    pose proof (pte_of_range (phys s) d a) as Hr. pose proof (PTE_ADDR_range _ Hr) as Hr'.
    pose proof (page_ok_bounds _ Hok) as Hb. unfold frame, KERNLINK, KERNBASE, EXTMEM, PHYSTOP in Hb.
    rewrite (proj2 (Z.eqb_neq _ 0)) by lia.
    rewrite P2V_val by (unfold KERNBASE; lia). fold (frame (pte_of (phys s) d a)).
    destruct (kfree_spec s _ l (sp_kmem _ _ _ Hsp) Hok Hfl) as [E _].
    rewrite (bind_Ret _ _ _ _ _ E).
    destruct (Hcq a t Hu Em Ht) as (me & p & Hc & Hp & Hq).
    rewrite (bind_Ret _ _ _ _ _ (cq_remove_none (with_alloc s _ _) me p _ Hc Hp Hq)).
    eexists _, _. split; [reflexivity|]. rewrite <- Ea at 1 2.
    rewrite slot_addr.
    + exact (free_one_ok s d a t l Hsp Hu Em Ht).
    + by apply (wf_tab _ _ (us_wf _ _ (sp_us _ _ _ Hsp)) _ _ (PDX_range a Hv)).
  - exists s, l. split; [done|]. apply freed_refl; [done|]. intros x Hx Hin. unfold in_pg in Hin.
    rewrite PGROUNDDOWN_val in Hin. rewrite <- (pte_of_same_page _ d a x); try done.
    Z.div_mod_to_equations. lia.
Qed.

Lemma deallocuvm_loop_spec d oldsz fuel : forall a s l,
  space s d l -> cq_apart s d -> a mod 4096 = 0 -> 0 <= a <= KERNBASE -> oldsz <= KERNBASE ->
  (0 < fuel)%nat -> oldsz - a <= 4096 * (Z.of_nat fuel - 1) ->
  exists s' l', deallocuvm_loop fuel d a oldsz s = Ret tt s' /\ freed d a oldsz s l s' l'.
Proof.
  induction fuel as [|fuel IH]; intros a s l Hsp Hcq Hal Ha Hold Hf Hfu; [lia|].
  cbn [deallocuvm_loop]. destruct (Z.ltb_spec a oldsz) as [Hlt|Hge].
  2:{ exists s, l. split; [done|]. apply freed_refl; [done|]. unfold in_pg. lia. }
  assert (Hu : uaddr a) by (unfold uaddr; lia). pose proof (uaddr_vaddr a Hu) as Hv.
  pose proof (us_wf _ _ (sp_us _ _ _ Hsp)) as Hwf.
  destruct (table_at (phys s) d (PDX a)) as [t|] eqn:Et.
  - assert (Hs : pte_slot (phys s) d a = Some (t + 4 * PTX a)) by (unfold pte_slot; by rewrite Et).
    destruct (walk_some _ _ _ _ Hwf Hv Hs) as [E0 En]. rewrite (bind_Ret _ _ _ _ _ E0), En.
    rewrite (bind_Ret _ _ _ _ _ (kread_slot _ _ _ _ Hwf Hv Hs)).
    destruct (dealloc_page_spec s d a t l Hsp Hcq Hu Hal Et) as (s1 & l1 & E1 & Hf1).
    unfold dealloc_page in E1. rewrite (bind_Ret _ _ _ _ _ E1).
    unfold PGSIZE. unfold KERNBASE in *. rewrite u32_small by lia.
    destruct (IH (a + 4096) s1 l1) as (s2 & l2 & E2 & Hf2).
    { apply Hf1. } { by eapply freed_cq_apart. } { Z.div_mod_to_equations; lia. }
    { Z.div_mod_to_equations; lia. } { done. } { lia. } { lia. }
    exists s2, l2. split; [done|]. eapply freed_trans; [| |exact Hf1|exact Hf2]; [lia|].
    unfold in_pg. intros x Hx _. rewrite PGROUNDDOWN_val in *. Z.div_mod_to_equations. lia.
  - assert (Hs : pte_slot (phys s) d a = None) by (unfold pte_slot; by rewrite Et).
    rewrite (bind_Ret _ _ _ _ _ (walk_none _ _ _ Hwf Hv Hs)). cbn [Z.eqb].
    rewrite PDX_val in * by done. unfold KERNBASE in *.
    set (a' := (a / 4194304 + 1) * 4194304).
    assert (Ea : u32 (u32 (PGADDR (a / 4194304 + 1) 0 0 - PGSIZE) + PGSIZE) = a').
    { rewrite PGADDR_val by (Z.div_mod_to_equations; lia). unfold PGSIZE, a'.
      rewrite (u32_small (_ - 4096)), u32_small; Z.div_mod_to_equations; lia. }
    rewrite Ea. assert (Ha' : a < a' <= 2147483648 /\ a' mod 4096 = 0 /\ a + 4096 <= a')
      by (unfold a'; Z.div_mod_to_equations; lia).
    assert (Hno : forall x, vaddr x -> in_pg a a' x -> mapped (pte_of (phys s) d x) = false).
    { intros x Hx Hin. unfold pte_of, pte_slot. rewrite PDX_val by done.
      replace (x / 4194304) with (a / 4194304); [by rewrite Et|].
      unfold in_pg, a' in *. rewrite PGROUNDDOWN_val in Hin. Z.div_mod_to_equations. lia. }
    destruct (IH a' s l) as (s2 & l2 & E2 & Hf2); try done; try lia.
    exists s2, l2. split; [done|].
    eapply freed_trans; [| |apply (freed_refl d a a' s l); done|exact Hf2]; [lia|].
    intros x Hx Hm. destruct (decide (vaddr x)) as [Hxv|Hxv]; [by rewrite (Hno x) in Hm|].
    exfalso. apply Hxv. unfold in_pg, vaddr in *. rewrite PGROUNDDOWN_val in Hx.
    Z.div_mod_to_equations. lia.
Qed.

(** [deallocuvm] unmaps and frees the pages from [newsz] to [oldsz]. *)
Lemma deallocuvm_spec d oldsz newsz s l :
  space s d l -> cq_apart s d -> 0 <= newsz <= KERNBASE -> oldsz <= KERNBASE ->
  exists s' l', deallocuvm d oldsz newsz s = Ret (Z.min oldsz newsz) s' /\
    freed d (PGROUNDUP newsz) oldsz s l s' l'.
Proof.
  intros Hsp Hcq Hn Ho. unfold deallocuvm. unfold KERNBASE in *. rewrite PGROUNDUP_val by lia.
  destruct (Z.leb_spec oldsz newsz).
  - exists s, l. rewrite Z.min_l by done. split; [done|]. apply freed_refl; [done|].
    unfold in_pg. intros x Hx [H1 H2]. exfalso. Z.div_mod_to_equations. lia.
  - rewrite Z.min_r by lia.
    destruct (deallocuvm_loop_spec d oldsz (S (Z.to_nat (oldsz / PGSIZE + 1))) ((newsz + 4095) / 4096 * 4096) s l)
      as (s' & l' & E & Hf); try done; unfold KERNBASE, PGSIZE; try (Z.div_mod_to_equations; lia).
    exists s', l'. by rewrite (bind_Ret _ _ _ _ _ E).
Qed.

(** ** [freevm] *)

Section Tables.
Context (m0 : mem) (d : Z).
Hypothesis Hwf : pgdir_wf m0 d.

(** A table of the directory at or behind slot [i]. *)
Definition table_from (i p : Z) : Prop := exists j, i <= j < 1024 /\ 0 <= j /\ table_at m0 d j = Some p.

Lemma table_from_step i p :
  0 <= i < 1024 -> table_from i p <-> table_at m0 d i = Some p \/ table_from (i + 1) p.
Proof.
  intros Hi. unfold table_from. split.
  - intros (j & Hj & Hj0 & E). destruct (decide (j = i)) as [->|]; [by left|right].
    exists j. split_and!; try done; lia.
  - intros [E|(j & Hj & Hj0 & E)]; [exists i|exists j]; split_and!; try done; lia.
Qed.

Lemma freevm_loop_spec n : forall i s l,
  i = 1024 - Z.of_nat n -> 0 <= i -> kmem_inv s l -> agree (in_page d) m0 (phys s) ->
  (forall p, table_from i p -> p ∉ l) ->
  exists s' l', freevm_loop n d i s = Ret tt s' /\ kmem_inv s' l' /\
    s' = with_alloc s (phys s') (freelist (kmem s')) /\
    (forall p, p ∈ l' <-> p ∈ l \/ table_from i p) /\
    agree (fun x => forall p, table_from i p -> ~ in_page p x) (phys s) (phys s').
Proof using Hwf.
  induction n as [|n IH]; intros i s l Hi H0 Hk Hag Hnl; cbn [freevm_loop].
  - exists s, l. split_and!; try done; [by rewrite with_alloc_self|].
    intros p. split; [by left|]. intros [?|(j & ? & _)]; [done|lia].
  - assert (Ea : V2P (d + 4 * i) = pde_addr d i) by (rewrite page_kaddr; [done|apply Hwf|lia]).
    unfold kread32. rewrite (bind_Ret (gets _) _ s _ s eq_refl), Ea.
    assert (Ht : table_at (phys s) d i = table_at m0 d i).
    { unfold table_at. rewrite (read32_agree (in_page d) m0 (phys s)); [done|done|].
      apply pde_addr_in_page. lia. }
    assert (Hstep := fun p => table_from_step i p ltac:(lia)).
    unfold table_at in Ht at 1. destruct (has (read32 (phys s) (pde_addr d i)) PTE_P).
    + symmetry in Ht. set (t := P2V _) in *.
      destruct (wf_tab _ _ Hwf i t ltac:(lia) Ht) as (Hok & Htd & _).
      assert (Htl : t ∉ l) by (apply Hnl, Hstep; by left).
      destruct (kfree_spec s t l Hk Hok Htl) as [E Hk']. rewrite (bind_Ret _ _ _ _ _ E).
      assert (Hfm := fun P => freed_mem_agree (phys s) t (freelist (kmem s)) P Hok).
      destruct (IH (i + 1) _ (t :: l) ltac:(lia) ltac:(lia) Hk') as (s' & l' & E' & Hk2 & Hs' & Hl' & Hag').
      { eapply agree_trans; [exact Hag|]. apply agree_sym, Hfm. intros x Hx Hx'. apply Htd.
        eapply in_page_inj; eauto; [apply Hok|apply Hwf]. }
      { intros p Hp [->|Hpl]%elem_of_cons; [|revert Hpl; apply Hnl, Hstep; by right].
        destruct Hp as (j & Hj & Hj0 & Ej).
        pose proof (wf_inj _ _ Hwf i j t ltac:(lia) ltac:(lia) Ht Ej). lia. }
      exists s', l'. split_and!; try done.
      * intros p. rewrite Hl', elem_of_cons, Hstep, Ht. naive_solver.
      * eapply agree_trans; [|eapply agree_weaken; [|exact Hag']].
        -- apply agree_sym, Hfm. intros x Hx. apply Hx, Hstep. by left.
        -- intros x Hx p Hp. apply Hx, Hstep. by right.
    + rewrite (bind_Ret (ret tt) _ s tt s eq_refl).
      destruct (IH (i + 1) s l ltac:(lia) ltac:(lia) Hk Hag) as (s' & l' & E' & Hk2 & Hs' & Hl' & Hag').
      { intros p Hp. apply Hnl, Hstep. by right. }
      exists s', l'. split_and!; try done.
      * intros p. rewrite Hl', Hstep, <- Ht. naive_solver.
      * eapply agree_weaken; [|exact Hag']. intros x Hx p Hp. apply Hx, Hstep. by right.
Qed.
End Tables.

(** [freevm] gives every page of the address space back. *)
Lemma freevm_spec d s l :
  space s d l -> cq_apart s d ->
  exists s' l', freevm d s = Ret tt s' /\ kmem_inv s' l' /\
    s' = with_alloc s (phys s') (freelist (kmem s')) /\
    (forall p, p ∈ l' <-> p ∈ l \/ pages (phys s) d p) /\
    agree (fun x => forall p, pages (phys s) d p -> ~ in_page p x) (phys s) (phys s').
Proof.
  intros Hsp Hcq. assert (Hd : page_ok d) by apply (sp_us _ _ _ Hsp).
  unfold freevm. rewrite (proj2 (Z.eqb_neq d 0) (page_ok_nonzero d Hd)).
  destruct (deallocuvm_spec d KERNBASE 0 s l Hsp Hcq) as (s1 & l1 & E1 & Hf1);
    [unfold KERNBASE; lia|done|]. rewrite (bind_Ret _ _ _ _ _ E1).
  pose proof Hf1 as [[Hk1 Hus1 Hfree1] Ho1 Hv1 Ht1 Hp1 Ha1].
  assert (Hpt := fun p => same_tables_ptpage (phys s) (phys s1) d p Ht1).
  assert (Htf : forall p, is_ptpage (phys s1) d p <-> p = d \/ table_from (phys s1) d 0 p).
  { intros p. unfold is_ptpage, table_from. f_equiv. f_equiv. intros j. naive_solver. }
  assert (Hnou : forall p, ~ uframe (phys s1) d p).
  { intros p (va & Hu & Hm & _).
    destruct (unmap_mapped _ _ _ _ _ _ Hv1 (uaddr_vaddr va Hu) Hm) as [_ Hn]. apply Hn.
    unfold in_pg, uaddr in *. change (PGROUNDUP 0) with 0. rewrite PGROUNDDOWN_val.
    Z.div_mod_to_equations. lia. }
  destruct (freevm_loop_spec (phys s1) d (us_wf _ _ Hus1) (Z.to_nat NPDENTRIES) 0 s1 l1)
    as (s2 & l2 & E2 & Hk2 & Ho2 & Hl2 & Ha2); try done.
  { intros p Hp. apply Hfree1. left. apply Htf. by right. }
  rewrite (bind_Ret _ _ _ _ _ E2).
  assert (Hdl : d ∉ l2).
  { rewrite Hl2. intros [H|(j & Hj & Hj0 & E)].
    - revert H. apply Hfree1. left. by left.
    - by apply (wf_tab _ _ (us_wf _ _ Hus1) j d). }
  destruct (kfree_spec s2 d l2 Hk2 Hd Hdl) as [E3 Hk3]. rewrite E3.
  eexists _, (d :: l2). split; [reflexivity|]. split; [exact Hk3|]. split_and!.
  - rewrite Ho2, Ho1. done.
  - intros p. specialize (Hp1 p). specialize (Hnou p). rewrite elem_of_cons, Hl2. unfold pages.
    rewrite <- Hpt, Htf. clear -Hp1 Hnou. tauto.
  - cbn. eapply agree_trans; [exact Ha1|]. eapply agree_trans.
    + eapply agree_weaken; [|exact Ha2]. intros x Hx p Hp. apply Hx. left. apply Hpt, Htf. by right.
    + apply agree_sym, freed_mem_agree; [done|]. intros x Hx. apply Hx. left. by left.
Qed.

End VmFree.
