(* ===== verification/VmCopy.v ===== *)
(** * New address spaces (vm.c)

    [setupkvm] and [copyuvm].  With memory enough the new directory has the
    kernel's mappings and, for [copyuvm], a frame of its own for every page of
    the parent, with the parent's flags and bytes, and so with the same plaintext
    whether the page is encrypted or not.  Without, the call returns 0 and the
    free list has the pages that it had. *)
From S2P Require Import Prelude Memory KString Mmu State Kalloc Vm VmTables VmCrypt VmEnc VmMap.

Section VmCopy.
Context `{PL : Platform}.

(** ** The kernel's half *)

Definition klen (k : kmap_t) : Z := u32 (phys_end k - phys_start k).

(** The entry that the regions [ks] ask for, [e] outside them. *)
Fixpoint kmap_pte (ks : list kmap_t) (e x : Z) : Z :=
  match ks with
  | [] => e
  | k :: ks' =>
      kmap_pte ks'
        (if decide (in_range (virt k) (klen k) x)
         then leaf (phys_start k + (PGROUNDDOWN x - virt k)) (kperm k) else e) x
  end.

(** The directory slots of the kernel's half that are in use. *)
Definition kvm_slots : list Z := seqZ 512 56 ++ seqZ 1016 8.

Lemma kvm_slots_ok : slots_ok kvm_slots.
Proof.
  split; [|by apply (bool_decide_unpack _); vm_compute].
  apply (bool_decide_unpack _). by vm_compute.
Qed.

Lemma kvm_slots_elem i : i ∈ kvm_slots <-> 512 <= i < 568 \/ 1016 <= i < 1024.
Proof. unfold kvm_slots. rewrite elem_of_app, !elem_of_seqZ. lia. Qed.

Record region_ok (k : kmap_t) : Prop := {
  ro_virt : virt k mod 4096 = 0 /\ KERNBASE <= virt k;
  ro_len : klen k mod 4096 = 0 /\ 0 < klen k /\ virt k + klen k <= 4294967296;
  ro_phys : phys_start k mod 4096 = 0 /\ 0 <= phys_start k /\ phys_start k + klen k <= 4294967296;
  ro_perm : 0 <= kperm k < 4096;
  ro_slots : forall x, in_range (virt k) (klen k) x -> PDX x ∈ kvm_slots
}.

(** Regions in ascending order from [lo]. *)
Fixpoint ascending (lo : Z) (ks : list kmap_t) : Prop :=
  match ks with
  | [] => True
  | k :: ks' => lo <= virt k /\ region_ok k /\ ascending (virt k + klen k) ks'
  end.

Lemma in_kvm_slots x :
  KERNBASE <= x < KERNBASE + PHYSTOP \/ DEVSPACE <= x < 4294967296 -> PDX x ∈ kvm_slots.
Proof.
  unfold KERNBASE, PHYSTOP, DEVSPACE. intros H. rewrite PDX_val, kvm_slots_elem by lia.
  Z.div_mod_to_equations. lia.
Qed.

Lemma region_intro v ps pe pm n :
  u32 (pe - ps) = n -> v mod 4096 = 0 -> n mod 4096 = 0 -> ps mod 4096 = 0 ->
  KERNBASE <= v -> 0 < n -> v + n <= 4294967296 -> 0 <= ps -> ps + n <= 4294967296 -> 0 <= pm < 4096 ->
  (v + n <= KERNBASE + PHYSTOP \/ DEVSPACE <= v) -> region_ok (mk_kmap v ps pe pm).
Proof.
  intros E Hv Hn Hp. intros. split; unfold klen; cbn [virt phys_start phys_end kperm]; rewrite ?E; try done.
  intros x Hx. apply in_kvm_slots. unfold in_range in Hx. lia.
Qed.

Lemma kmap_ascending : ascending KERNBASE kmap.
Proof.
  pose proof ksym_layout as (L1 & L2 & L3 & L4). unfold KERNLINK, KERNBASE, EXTMEM, PHYSTOP in *.
  assert (Ed : V2P ksym_data = ksym_data - 2147483648) by (rewrite V2P_val; unfold KERNBASE; lia).
  unfold kmap. change (V2P KERNLINK) with 1048576. rewrite Ed.
  assert (E2 : u32 (ksym_data - 2147483648 - 1048576) = ksym_data - 2148532224)
    by (rewrite u32_small; lia).
  assert (E3 : u32 (PHYSTOP - (ksym_data - 2147483648)) = 2382364672 - ksym_data)
    by (unfold PHYSTOP; rewrite u32_small; lia).
  cbn [ascending]. unfold klen. cbn [virt phys_start phys_end]. rewrite E2, E3.
  change (u32 (EXTMEM - 0)) with 1048576.
  split_and!; try (unfold KERNLINK, KERNBASE, EXTMEM, DEVSPACE; lia); try done.
  - apply (region_intro _ _ _ _ 1048576); unfold KERNBASE, PHYSTOP, PTE_W; done || lia.
  - apply (region_intro _ _ _ _ _ E2);
      unfold KERNLINK, KERNBASE, EXTMEM, PHYSTOP in *; try done; try lia; Z.div_mod_to_equations; lia.
  - apply (region_intro _ _ _ _ _ E3);
      unfold KERNLINK, KERNBASE, EXTMEM, PHYSTOP in *; try done; try lia; Z.div_mod_to_equations; lia.
  - apply (region_intro _ _ _ _ 33554432); unfold KERNBASE, DEVSPACE, PTE_W; done || lia.
Qed.

Lemma missing_le m d ls : (missing m d ls <= length ls)%nat.
Proof. apply length_filter. Qed.

(** ** Address spaces without user pages *)

Definition no_user (m : mem) (d : Z) : Prop := forall x, uaddr x -> pte_of m d x = 0.

Lemma no_user_uframe m d p : no_user m d -> ~ uframe m d p.
Proof. intros H (va & Hu & Hm & _). by rewrite (H va Hu) in Hm. Qed.

Lemma no_user_space s d l : tspace s d l -> no_user (phys s) d -> space s d l /\ cq_apart s d.
Proof.
  intros [H1 H2 H3] Hn. split.
  - split; [done| |intros p [Hp|Hp%no_user_uframe]; auto].
    split; [done|intros va Hu; rewrite (Hn va Hu); done..| |intros va Hu; rewrite (Hn va Hu); done|].
    + intros va va' Hu _. by rewrite (Hn va Hu).
    + intros va Hu. by rewrite (Hn va Hu).
  - intros va t Hu Hm. by rewrite (Hn va Hu) in Hm.
Qed.

(** The pages that [l] lists have been put back. *)
Definition restored (s : kstate) (l : list Z) (s' : kstate) : Prop :=
  exists l', kmem_inv s' l' /\ (forall p, p ∈ l' <-> p ∈ l) /\
    s' = with_alloc s (phys s') (freelist (kmem s')) /\
    agree (fun x => forall p, p ∈ l -> ~ in_page p x) (phys s) (phys s').

(** From [s], whose free list is [l], to [s']: the pages of [l] are free or
    belong to the new address space [d], and no other page has changed. *)
Record built (s : kstate) (l : list Z) (d : Z) (s' : kstate) (l' : list Z) : Prop := {
  bu_space : space s' d l';
  bu_pages : forall p, p ∈ l <-> p ∈ l' \/ pages (phys s') d p;
  bu_only : s' = with_alloc s (phys s') (freelist (kmem s'));
  bu_agree : agree (fun x => forall p, p ∈ l -> ~ in_page p x) (phys s) (phys s')
}.

Lemma built_freevm s l d s' l' :
  built s l d s' l' -> cq_apart s' d -> exists s2, freevm d s' = Ret tt s2 /\ restored s l s2.
Proof.
  intros [H1 H2 H3 H4] Hc. destruct (freevm_spec d s' l' H1 Hc) as (s2 & l2 & E & Hk & Ho & Hl & Ha).
  exists s2. split; [done|]. exists l2. split_and!; [done| | |].
  - intros p. by rewrite Hl, H2.
  - rewrite Ho, H3 at 1. done.
  - eapply agree_trans; [exact H4|]. eapply agree_weaken; [|exact Ha].
    intros x Hx p Hp. apply Hx, H2. by right.
Qed.

Lemma built_ext ls s l d s1 l1 s2 l2 :
  built s l d s1 l1 -> ext ls d s1 l1 s2 l2 -> space s2 d l2 ->
  (forall p, uframe (phys s2) d p <-> uframe (phys s1) d p) -> built s l d s2 l2.
Proof.
  intros [A1 A2 A3 A4] [B1 B2 B3 B4 B5 B6] Hsp Hu. split.
  - done.
  - intros p. specialize (B4 p). specialize (Hu p). rewrite A2. unfold pages. clear -B4 Hu. tauto.
  - rewrite B2, A3 at 1. done.
  - eapply agree_trans; [exact A4|]. eapply agree_weaken; [|exact B3].
    intros x Hx (p & Hp & [Hl|Hl]); apply (Hx p); try done; apply A2; [by left|right; by left].
Qed.

Lemma no_user_ext s l d s1 l1 s2 l2 ls :
  built s l d s1 l1 -> no_user (phys s1) d -> ext ls d s1 l1 s2 l2 -> no_user (phys s2) d ->
  built s l d s2 l2 /\ cq_apart s2 d.
Proof.
  intros Hb Hn Hext Hn2. destruct (no_user_space s2 d l2 (ext_space _ _ _ _ _ _ Hext) Hn2) as [Hsp Hc].
  split; [|done]. apply (built_ext ls s l d s1 l1); [done..|]. intros p.
  by split; intros ?%no_user_uframe.
Qed.

Lemma kmap_pte_ext ks : forall e e' x, e = e' -> kmap_pte ks e x = kmap_pte ks e' x.
Proof. by intros ? ? ? ->. Qed.

Lemma setupkvm_loop_spec s l d ks : forall lo s1 l1,
  built s l d s1 l1 -> no_user (phys s1) d -> ascending lo ks -> KERNBASE <= lo ->
  (forall x, vaddr x -> lo <= x -> pte_of (phys s1) d x = 0) ->
  (exists s', setupkvm_loop ks d s1 = Ret 0 s' /\ restored s l s' /\
     (length l1 < missing (phys s1) d kvm_slots)%nat) \/
  (exists s' l', setupkvm_loop ks d s1 = Ret d s' /\ built s l d s' l' /\ no_user (phys s') d /\
     (forall x, vaddr x -> pte_of (phys s') d x = kmap_pte ks (pte_of (phys s1) d x) x) /\
     (length l1 + missing (phys s') d kvm_slots = length l' + missing (phys s1) d kvm_slots)%nat).
Proof.
  induction ks as [|k ks IH]; intros lo s1 l1 Hb Hn Has Hlo Hun; cbn [setupkvm_loop].
  { right. by exists s1, l1. }
  destruct Has as (Hlov & Hro & Has). pose proof Hro as [[R1 R1'] [R2 [R2' R2'']] [R3 [R3' R3'']] R4 R5].
  set (n := Z.to_nat (klen k / 4096)).
  assert (Hn' : 4096 * Z.of_nat n = klen k /\ (0 < n)%nat) by (unfold n; Z.div_mod_to_equations; lia).
  destruct (mappages_spec kvm_slots d (virt k) (klen k) n (phys_start k) (kperm k) s1 l1)
    as (j & r & s2 & l2 & E & Hext & Hv & Hr); try done; try (unfold KERNBASE in *; lia).
  { apply space_tspace, Hb. } { apply kvm_slots_ok. }
  { destruct Hn' as [-> _]. intros x Hx. split; [by apply R5|].
    rewrite Hun; [done|unfold in_range, vaddr, KERNBASE in *; lia..]. }
  fold (klen k). rewrite (bind_Ret _ _ _ _ _ E).
  assert (Hn2 : no_user (phys s2) d).
  { intros x Hx. rewrite (Hv x (uaddr_vaddr x Hx)). rewrite decide_False; [by apply Hn|].
    unfold in_range, uaddr, KERNBASE in *. lia. }
  destruct (no_user_ext s l d s1 l1 s2 l2 _ Hb Hn Hext Hn2) as [Hb2 Hc2].
  pose proof (ext_count _ _ _ _ _ _ Hext) as Hcount.
  destruct Hr as [[-> ->]|(-> & Hj & -> & Hm)]; cbn [Z.ltb Z.compare].
  - destruct (IH (virt k + klen k) s2 l2) as [(s' & E' & Hr & Hl)|(s' & l' & E' & Hb' & Hn3 & Hv' & Hl)];
      try done; try lia.
    { intros x Hx Hge. rewrite (Hv x Hx), decide_False by (unfold in_range; lia). apply Hun; [done|lia]. }
    + left. exists s'. split_and!; [done|done|lia].
    + right. exists s', l'. split_and!; [done|done|done| |lia]. intros x Hx. cbn [kmap_pte].
      rewrite (Hv' x Hx). apply kmap_pte_ext. rewrite (Hv x Hx). destruct Hn' as [-> _]. done.
  - left. destruct (built_freevm s l d s2 [] Hb2 Hc2) as (s3 & E3 & Hr3).
    rewrite (bind_Ret _ _ _ _ _ E3). exists s3. split_and!; [done|done|]. simpl in Hcount. lia.
Qed.

(** ** [setupkvm] *)

Lemma memset_page m p c x : page_ok p ->
  (in_page p x -> read8 (memset m (V2P p) c PGSIZE) x = u8 c) /\
  (~ in_page p x -> read8 (memset m (V2P p) c PGSIZE) x = read8 m x).
Proof.
  intros Hp. rewrite read8_memset by done. rewrite (page_ok_V2P p Hp). unfold in_page, in_range, PGSIZE.
  split; intros H; case_decide; try done; lia.
Qed.

(** A free page that was taken may be written. *)
Lemma kmem_inv_write s l m' :
  kmem_inv s l -> (forall p, p ∈ l -> agree (in_page p) (phys s) m') -> kmem_inv (with_phys s m') l.
Proof. intros (H1 & H2 & H3) Hag. split; [|done]. by eapply free_list_agree. Qed.

Lemma kmodify_bind {A} f (k : unit -> K A) s :
  bind (kmodify_mem f) k s = k tt (with_phys s (f (phys s))).
Proof. done. Qed.

(** The directory page as [setupkvm] clears it. *)
Lemma zero_dir s d l :
  kmem_inv s (d :: l) ->
  let s1 := with_alloc s (memset (phys s) (V2P d) 0 PGSIZE) (read32 (phys s) (V2P d)) in
  built s (d :: l) d s1 l /\ forall x, vaddr x -> pte_of (phys s1) d x = 0.
Proof.
  intros Hk s1. pose proof Hk as ((_ & Hd & _) & [Hdl _]%NoDup_cons & _).
  destruct (kalloc_cons s d l Hk) as [_ Hk1].
  assert (Ht : forall i, 0 <= i < 1024 -> table_at (phys s1) d i = None).
  { intros i Hi. unfold table_at. cbn. unfold read32.
    rewrite !(proj1 (memset_page _ d 0 _ Hd)); [done|unfold in_page, in_range, pde_addr; lia..]. }
  assert (H0 : forall x, vaddr x -> pte_of (phys s1) d x = 0).
  { intros x Hx. unfold pte_of, pte_slot. by rewrite Ht by (by apply PDX_range). }
  assert (Hpt : forall p, is_ptpage (phys s1) d p <-> p = d).
  { intros p. split; [|by left]. intros [?|(i & Hi & E)]; [done|]. by rewrite Ht in E. }
  assert (Hno : no_user (phys s1) d) by (intros x Hx; by apply H0, uaddr_vaddr).
  split; [|done]. split.
  - apply no_user_space; [|done]. split.
    + apply (kmem_inv_write _ _ _ Hk1). cbn. intros p Hp x Hx. symmetry. apply memset_page; [done|].
      intros Hx'. assert (p = d) as ->; [|done]. destruct Hk1 as (Hfl%free_list_ok & _).
      rewrite Forall_forall in Hfl. eapply in_page_inj; eauto; [by apply Hfl|apply Hd].
    + split; [done| |]; [intros i t Hi|intros i j t Hi]; by rewrite Ht.
    + intros p ->%Hpt. done.
  - intros p. unfold pages. rewrite elem_of_cons, Hpt. pose proof (no_user_uframe _ _ p Hno). tauto.
  - done.
  - intros x Hx. symmetry. apply memset_page; [done|]. apply Hx. by left.
Qed.

(** [setupkvm] gives a directory with the kernel's mappings and no user page;
    with fewer than 65 free pages it may give up, with the free list restored. *)
Lemma setupkvm_spec s l :
  kmem_inv s l ->
  (exists s', setupkvm s = Ret 0 s' /\ restored s l s' /\ (length l < 65)%nat) \/
  (exists d s' l', setupkvm s = Ret d s' /\ built s l d s' l' /\ no_user (phys s') d /\
     (forall x, vaddr x -> pte_of (phys s') d x = kmap_pte kmap 0 x) /\
     (length l <= length l' + 65)%nat).
Proof.
  intros Hk. unfold setupkvm. destruct l as [|d l].
  { left. exists s. rewrite (bind_Ret _ _ _ _ _ (kalloc_empty s Hk)). split; [done|].
    split; [|simpl; lia]. exists []. split_and!; try done. by rewrite with_alloc_self. }
  destruct (kalloc_cons s d l Hk) as [E Hk1]. rewrite (bind_Ret _ _ _ _ _ E).
  pose proof Hk as ((_ & Hd & _) & _). rewrite (proj2 (Z.eqb_neq d 0) (page_ok_nonzero d Hd)).
  destruct (zero_dir s d l Hk) as [Hb H0]. set (s1 := with_alloc s (memset _ _ _ _) _) in *.
  rewrite kmodify_bind. match goal with |- context [with_phys ?a ?b] => change (with_phys a b) with s1 end.
  change (DEVSPACE <? P2V PHYSTOP) with false. cbn iota.
  assert (Hle := missing_le (phys s1) d kvm_slots). change (length kvm_slots) with 64%nat in Hle.
  destruct (setupkvm_loop_spec s (d :: l) d kmap KERNBASE s1 l)
    as [(s' & E' & Hr & Hl)|(s' & l' & E' & Hb' & Hn & Hv & Hl)]; try done.
  - intros x Hx. by apply H0, uaddr_vaddr.
  - apply kmap_ascending.
  - intros x Hx _. by apply H0.
  - left. exists s'. split_and!; [done|done|simpl; lia].
  - right. exists d, s', l'. split_and!; [done|done|done| |simpl; lia].
    intros x Hx. rewrite (Hv x Hx). by apply kmap_pte_ext, H0.
Qed.

(** ** User pages *)

Lemma is_ptpage_tspace_page s d l p : tspace s d l -> p ∈ l \/ is_ptpage (phys s) d p -> page_ok p.
Proof.
  intros [(Hf & _) Hwf _] [Hp|Hp]; [|by eapply ptpage_ok]. apply free_list_ok in Hf.
  rewrite Forall_forall in Hf. by apply Hf.
Qed.

(** A page that is neither free nor a table keeps its bytes. *)
Lemma ext_keeps_page ls d s l s' l' f :
  tspace s d l -> ext ls d s l s' l' -> page_ok f -> f ∉ l -> ~ is_ptpage (phys s) d f ->
  agree (in_page f) (phys s) (phys s').
Proof.
  intros Hsp Hext Hf Hfl Hfp x Hx. apply (ext_agree _ _ _ _ _ _ Hext). intros (p & Hp & Hor).
  pose proof (is_ptpage_tspace_page _ _ _ _ Hsp Hor) as Hok.
  assert (f = p) as ->; [|by destruct Hor]. eapply in_page_inj; eauto; [apply Hf|apply Hok].
Qed.

(** What an extension of the directory does to the user's half, given the
    frames of the result. *)
Lemma ext_user ls d s l s' l' :
  space s d l -> ext ls d s l s' l' ->
  (forall va, uaddr va -> mapped (pte_of (phys s') d va) = true ->
     let f := frame (pte_of (phys s') d va) in
     page_ok f /\ f ∉ l /\ ~ is_ptpage (phys s) d f /\ has (pte_of (phys s') d va) PTE_W = true) ->
  (forall va va', uaddr va -> uaddr va' -> mapped (pte_of (phys s') d va) = true ->
     mapped (pte_of (phys s') d va') = true ->
     PTE_ADDR (pte_of (phys s') d va) = PTE_ADDR (pte_of (phys s') d va') -> va / 4096 = va' / 4096) ->
  (forall va, uaddr va -> has (pte_of (phys s') d va) PTE_P && has (pte_of (phys s') d va) PTE_E = false) ->
  space s' d l'.
Proof.
  intros Hsp [[B1 B2 B3] _ _ B4 B5 _] Hf Hinj Hex.
  assert (Hn : forall va, uaddr va -> mapped (pte_of (phys s') d va) = true ->
    frame (pte_of (phys s') d va) ∉ l' /\ ~ is_ptpage (phys s') d (frame (pte_of (phys s') d va))).
  { intros va Hu Hm. destruct (Hf va Hu Hm) as (_ & H1 & H2 & _).
    specialize (B4 (frame (pte_of (phys s') d va))). tauto. }
  split; [done| |].
  - split; try done; intros va Hu Hm; by apply (Hf va Hu Hm) || by apply (Hn va Hu Hm).
  - intros p [Hp|(va & Hu & Hm & <-)]; [by apply B3|by apply Hn].
Qed.

Lemma uframe_facts s d l va :
  space s d l -> uaddr va -> mapped (pte_of (phys s) d va) = true ->
  let f := frame (pte_of (phys s) d va) in
  page_ok f /\ f ∉ l /\ ~ is_ptpage (phys s) d f /\ has (pte_of (phys s) d va) PTE_W = true.
Proof.
  intros [H1 H2 H3] Hu Hm. split_and!; try (by apply H2). apply H3. right. by exists va.
Qed.

(** Extensions that map no user page. *)
Lemma ext_same_user ls d s l s' l' :
  space s d l -> ext ls d s l s' l' -> (forall x, uaddr x -> pte_of (phys s') d x = pte_of (phys s) d x) ->
  space s' d l' /\ forall p, uframe (phys s') d p <-> uframe (phys s) d p.
Proof.
  intros Hsp Hext He. split.
  - pose proof (sp_us _ _ _ Hsp) as Hus. eapply ext_user; [done|done|..].
    + intros va Hu. rewrite (He va Hu). by apply uframe_facts.
    + intros va va' Hu Hu'. rewrite (He va Hu), (He va' Hu'). by apply Hus.
    + intros va Hu. rewrite (He va Hu). by apply Hus.
  - intros p. unfold uframe. f_equiv. intros va. split; intros (Hu & H); split; try done.
    + by rewrite (He va Hu) in H.
    + by rewrite (He va Hu).
Qed.

Lemma frame_pa f : page_ok f -> 0 <= f - KERNBASE < 4294967296 /\ (f - KERNBASE) mod 4096 = 0.
Proof.
  intros Hf. pose proof (page_ok_bounds f Hf). destruct Hf as [Hf4 _].
  unfold KERNLINK, KERNBASE, EXTMEM, PHYSTOP in *. split; [lia|]. Z.div_mod_to_equations. lia.
Qed.

Section MapUser.
Context (ls : list Z) (d : Z) (s : kstate) (l : list Z) (s' : kstate) (l' : list Z) (a f perm : Z).
Hypothesis Hsp : space s d l.
Hypothesis Hext : ext ls d s l s' l'.
Hypothesis Hv : map_view (phys s) (phys s') d a 1 (f - KERNBASE) perm.
Hypothesis Ha : uaddr a.
Hypothesis Hal : a mod 4096 = 0.
Hypothesis Hun : mapped (pte_of (phys s) d a) = false.
Hypothesis Hf : page_ok f.
Hypothesis Hfl : f ∉ l.
Hypothesis Hfp : ~ pages (phys s) d f.
Hypothesis Hperm : 0 <= perm < 4096.
Hypothesis HW : has perm PTE_W = true.
Let w := leaf (f - KERNBASE) perm.

Lemma map_user_pte x : vaddr x ->
  pte_of (phys s') d x = if decide (a / 4096 = x / 4096) then w else pte_of (phys s) d x.
Proof using Hal Hv.
  intros Hx. rewrite (Hv x Hx). change (4096 * Z.of_nat 1) with 4096.
  rewrite (decide_ext _ _ _ _ (iff_sym (same_page_range a x Hal))).
  case_decide as E; [|done]. unfold w. f_equal. rewrite PGROUNDDOWN_val, <- E.
  clear -Hal. Z.div_mod_to_equations. lia.
Qed.

Lemma map_user_frame : frame w = f /\ mapped w = true /\ has w PTE_W = true.
Proof using HW Hf Hperm.
  destruct (frame_pa f Hf) as [H1 H2]. unfold frame, w. rewrite leaf_ADDR by done. split_and!; [lia| |].
  - by apply leaf_mapped.
  - change PTE_W with (2 ^ 1). by rewrite leaf_has by (done || lia).
Qed.

Lemma map_user_space : space s' d l'.
Proof using Ha HW Hal Hext Hf Hfl Hfp Hperm Hsp Hv.
  destruct map_user_frame as (Ef & Hmw & HWw). pose proof (sp_us _ _ _ Hsp) as Hus.
  eapply ext_user; [done|done|..].
  - intros va Hu. rewrite map_user_pte by (by apply uaddr_vaddr). case_decide; [|by apply uframe_facts].
    intros _. cbn zeta. rewrite Ef. split_and!; try done. intros Hp. apply Hfp. by left.
  - assert (Hnew : forall va, uaddr va -> mapped (pte_of (phys s) d va) = true ->
      PTE_ADDR (pte_of (phys s) d va) <> PTE_ADDR w).
    { intros va Hu Hm E. apply Hfp. right. exists va. split_and!; try done. unfold frame in *. lia. }
    intros va va' Hu Hu'. rewrite !map_user_pte by (by apply uaddr_vaddr).
    repeat case_decide; [congruence|intros H1 H2 H3..].
    + exfalso. by apply (Hnew va').
    + exfalso. by apply (Hnew va).
    + by apply Hus.
  - intros va Hu. rewrite map_user_pte by (by apply uaddr_vaddr). case_decide; [|by apply Hus].
    unfold w. rewrite leaf_P by (by apply frame_pa). change PTE_E with (2 ^ 10).
    rewrite (leaf_has (f - KERNBASE) perm) by (lia || by apply frame_pa). by destruct (has perm (2 ^ 10)).
Qed.

Lemma map_user_uframe p : uframe (phys s') d p <-> uframe (phys s) d p \/ p = f.
Proof using Ha HW Hal Hf Hperm Hun Hv.
  destruct map_user_frame as (Ef & Hmw & HWw). split.
  - intros (va & Hu & Hm & E). rewrite map_user_pte in * by (by apply uaddr_vaddr).
    case_decide; [right; congruence|]. left. by exists va.
  - intros [(va & Hu & Hm & E)| ->].
    + exists va. rewrite map_user_pte by (by apply uaddr_vaddr). rewrite decide_False; [done|].
      intros Ea. rewrite (pte_of_same_page _ _ a va) in Hun by (done || by apply uaddr_vaddr). congruence.
    + exists a. rewrite map_user_pte by (by apply uaddr_vaddr). by rewrite decide_True.
Qed.
End MapUser.

(** Writes to pages that are not of [d]. *)
Lemma space_foreign s d l s' l' :
  space s d l -> kmem_inv s' l' ->
  (forall p, pages (phys s) d p -> agree (in_page p) (phys s) (phys s') /\ p ∉ l') ->
  space s' d l' /\ (forall x, vaddr x -> pte_of (phys s') d x = pte_of (phys s) d x) /\
  (forall i, 0 <= i < 1024 -> table_at (phys s') d i = table_at (phys s) d i) /\
  (forall p, uframe (phys s') d p <-> uframe (phys s) d p).
Proof.
  intros [H1 H2 H3] Hk Hag. pose proof (us_wf _ _ H2) as Hwf.
  assert (Hpt : forall p, is_ptpage (phys s) d p -> agree (in_page p) (phys s) (phys s')).
  { intros p Hp. apply Hag. by left. }
  assert (He := pte_of_agree _ _ _ Hwf Hpt). assert (Ht := table_at_agree _ _ _ Hpt).
  assert (Hip := is_ptpage_agree _ _ _ Hpt).
  assert (Hu : forall p, uframe (phys s') d p <-> uframe (phys s) d p).
  { intros p. unfold uframe. f_equiv. intros va. split; intros (Hu & H); (split; [done|]);
      rewrite (He va (uaddr_vaddr va Hu)) in *; done. }
  split_and!; try done. split; [done| |].
  - destruct H2 as [U1 U2 U3 U4 U5 U6].
    assert (Hev := fun va Hu => He va (uaddr_vaddr va Hu)). split.
    + by apply (pgdir_wf_agree (phys s)).
    + intros va Hv. rewrite (Hev va Hv). by apply U2.
    + intros va Hv. rewrite (Hev va Hv), Hip. by apply U3.
    + intros va va' Hv Hv'. rewrite (Hev va Hv), (Hev va' Hv'). by apply U4.
    + intros va Hv. rewrite (Hev va Hv). by apply U5.
    + intros va Hv. rewrite (Hev va Hv). by apply U6.
  - intros p Hp. apply Hag. unfold pages in *. by rewrite Hip, Hu in Hp.
Qed.

Lemma missing_ext m m' d ls :
  Forall (fun i => 0 <= i < 1024) ls -> (forall i, 0 <= i < 1024 -> table_at m' d i = table_at m d i) ->
  missing m' d ls = missing m d ls.
Proof.
  intros Hls Ht. unfold missing. f_equal. induction Hls as [|i ls Hi _ IH]; [done|].
  rewrite !filter_cons, Ht, IH by done. done.
Qed.

(** ** [copyuvm] *)

(** A page of [c] in [m] is a copy of that of [pd] in [m0]. *)
Definition same_page (m0 : mem) (pd : Z) (m : mem) (c x : Z) : Prop :=
  mapped (pte_of m c x) = true /\ PTE_FLAGS (pte_of m c x) = PTE_FLAGS (pte_of m0 pd x) /\
  ubyte m c x = ubyte m0 pd x.

Lemma flags_testbit v n : 0 <= n -> Z.testbit (PTE_FLAGS v) n = (n <? 12) && Z.testbit v n.
Proof.
  intros Hn. rewrite PTE_FLAGS_val. change 4096 with (2 ^ 12). destruct (Z.ltb_spec n 12).
  - by rewrite Z.mod_pow2_bits_low by lia.
  - by rewrite Z.mod_pow2_bits_high by lia.
Qed.

Lemma flags_has v k : 0 <= k < 12 -> has (PTE_FLAGS v) (2 ^ k) = has v (2 ^ k).
Proof.
  intros Hk. rewrite !has_testbit, flags_testbit by lia. by replace (k <? 12) with true by lia.
Qed.

(** The flags of a mapped page go through [mappages] unchanged. *)
Lemma leaf_flags pa v :
  pa mod 4096 = 0 -> mapped v = true -> has v PTE_P && has v PTE_E = false ->
  PTE_FLAGS (leaf pa (PTE_FLAGS v)) = PTE_FLAGS v.
Proof.
  intros Hpa Hm Hex. apply Z.bits_inj'. intros n Hn. rewrite flags_testbit by done.
  destruct (Z.ltb_spec n 12) as [Hlt|]; [|rewrite flags_testbit by done; by replace (n <? 12) with false by lia].
  rewrite leaf_testbit, (pa_low pa Hpa n) by lia. unfold mapped in Hm.
  change PTE_P with (2 ^ 0) in *. change PTE_E with (2 ^ 10) in *. rewrite flags_has by lia.
  rewrite !has_testbit in * by lia.
  rewrite flags_testbit by done. replace (n <? 12) with true by lia. cbn [andb orb].
  destruct (Z.eqb_spec n 10) as [->|]; [|destruct (Z.eqb_spec n 0) as [->|]];
    destruct (Z.testbit v 10), (Z.testbit v 0); try done; by destruct (Z.testbit v n).
Qed.

Lemma same_page_plain m0 pd m c x : same_page m0 pd m c x -> plain m c x = plain m0 pd x.
Proof.
  intros (_ & Hfl & Hb). unfold plain. rewrite Hb.
  assert (has (pte_of m c x) PTE_E = has (pte_of m0 pd x) PTE_E) as ->; [|done].
  change PTE_E with (2 ^ 10). 
  by rewrite <- (flags_has (pte_of m c x) 10), <- (flags_has (pte_of m0 pd x) 10), Hfl by lia.
Qed.

Section Copy.
Context (s0 : kstate) (pd : Z) (l0 : list Z) (me : nat) (q : proc).
Let m0 := phys s0.
Hypothesis Hk0 : kmem_inv s0 l0.
Hypothesis Hpar : uspace m0 pd.
Hypothesis Hdis : forall p, pages m0 pd p -> p ∉ l0.
Hypothesis Hcur : curproc s0 = Some me.
Hypothesis Hproc : ptable s0 !! me = Some q.
Hypothesis Hcq : forall n p, n ∈ cq q -> p ∈ l0 -> ~ in_range p 4096 (cq_pte n).

Lemma free_ok p : p ∈ l0 -> page_ok p.
Proof using Hk0.
  intros Hp. destruct Hk0 as (Hf%free_list_ok & _). rewrite Forall_forall in Hf. by apply Hf.
Qed.

Section State.
Context (c : Z) (s : kstate) (l : list Z).
Hypothesis Hb : built s0 l0 c s l.

(** The parent's pages have not changed. *)
Lemma parent_agree p : pages m0 pd p -> agree (in_page p) m0 (phys s).
Proof using Hb Hdis Hk0 Hpar.
  intros Hp x Hx. apply (bu_agree _ _ _ _ _ Hb). intros r Hr Hx'. apply (Hdis p Hp).
  assert (p = r) as ->; [|done]. eapply in_page_inj; eauto.
  - apply (pages_ok m0 pd p Hpar Hp).
  - apply (free_ok r Hr).
Qed.

Lemma parent_pte x : vaddr x -> pte_of (phys s) pd x = pte_of m0 pd x.
Proof using Hb Hdis Hk0 Hpar.
  intros Hx. apply pte_of_agree; [apply Hpar| |done]. intros p Hp. apply parent_agree. by left.
Qed.

Lemma parent_wf : pgdir_wf (phys s) pd.
Proof using Hb Hdis Hk0 Hpar.
  apply (pgdir_wf_agree m0); [apply Hpar|]. intros p Hp. apply parent_agree. by left.
Qed.

Lemma parent_byte va o : uaddr va -> mapped (pte_of m0 pd va) = true -> 0 <= o < 4096 ->
  read8 (phys s) (PTE_ADDR (pte_of m0 pd va) + o) = read8 m0 (PTE_ADDR (pte_of m0 pd va) + o).
Proof using Hb Hdis Hk0 Hpar.
  intros Hu Hm Ho. symmetry. apply (parent_agree (frame (pte_of m0 pd va))).
  - right. by exists va.
  - apply in_frame. unfold in_range. lia.
Qed.

(** The child's tables are not in the current process's queue. *)
Lemma child_cq_apart : cq_apart s c.
Proof using Hb Hcq Hcur Hproc.
  intros va t Hu Hm Ht. exists me, q. rewrite (bu_only _ _ _ _ _ Hb). cbn.
  split; [done|]. split; [done|]. intros n Hn E.
  assert (Htl : t ∈ l0).
  { apply (bu_pages _ _ _ _ _ Hb). right. left. right.
    exists (PDX va). split; [by apply PDX_range, uaddr_vaddr|done]. }
  apply (Hcq n t Hn Htl). rewrite E. pose proof (PTX_range va). unfold in_range. lia.
Qed.
End State.

(** The pages below [i] have been copied. *)
Record copied (i c : Z) (s : kstate) (l : list Z) : Prop := {
  cp_built : built s0 l0 c s l;
  cp_same : forall x, uaddr x -> PGROUNDDOWN x < i -> same_page m0 pd (phys s) c x;
  cp_rest : forall x, uaddr x -> i <= PGROUNDDOWN x -> pte_of (phys s) c x = 0;
  cp_kernel : forall x, vaddr x -> KERNBASE <= x -> pte_of (phys s) c x = kmap_pte kmap 0 x
}.

Section Round.
Context (us : list Z) (i c : Z) (s : kstate) (f : Z) (l : list Z).
Hypothesis Hcp : copied i c s (f :: l).
Hypothesis Hus : slots_ok us.
Hypothesis Hi : uaddr i.
Hypothesis Hal : i mod 4096 = 0.
Hypothesis Hin : PDX i ∈ us.
Let v := pte_of m0 pd i.
Hypothesis Hm : mapped v = true.
Let m1 := memmove (phys s) (V2P f) (V2P (P2V (PTE_ADDR v))) PGSIZE.
Let s1 := with_alloc s m1 (read32 (phys s) (V2P f)).

Lemma rd_f : page_ok f /\ f ∈ l0 /\ f ∉ l /\ ~ pages (phys s) c f /\ kmem_inv (with_alloc s (phys s) (read32 (phys s) (V2P f))) l.
Proof using Hcp.
  pose proof (cp_built _ _ _ _ Hcp) as [[B1 B2 B3] B4 _ _].
  destruct (kalloc_cons s f l B1) as [_ Hk]. destruct B1 as ((_ & Hf & _) & [Hfl _]%NoDup_cons & _).
  split_and!; try done.
  - apply B4. left. by left.
  - intros Hp. apply (B3 f Hp). by left.
Qed.

Lemma rd_src : 0 <= PTE_ADDR v < PHYSTOP /\ V2P (P2V (PTE_ADDR v)) = PTE_ADDR v.
Proof using Hi Hm Hpar.
  pose proof (PTE_ADDR_range v (pte_of_range m0 pd i)) as Hr.
  pose proof (page_ok_bounds _ (us_ok _ _ Hpar i Hi Hm)) as Hb. fold v in Hb. unfold frame in Hb.
  split; [lia|]. apply V2P_P2V. lia.
Qed.

Lemma rd_read x :
  read8 m1 x = if decide (in_page f x) then read8 (phys s) (PTE_ADDR v + (x - (f - KERNBASE))) else read8 (phys s) x.
Proof using Hcp Hi Hm Hpar.
  destruct rd_f as (Hf & _). destruct rd_src as [Hr E]. unfold m1.
  rewrite E, (page_ok_V2P f Hf), read8_memmove by (unfold PHYSTOP, PGSIZE in *; lia). done.
Qed.

Lemma rd_apart p x : pages (phys s) c p \/ p ∈ l -> in_page p x -> read8 m1 x = read8 (phys s) x.
Proof using Hcp Hi Hm Hpar.
  intros Hp Hx. rewrite rd_read, decide_False; [done|]. intros Hx'.
  destruct rd_f as (Hf & _ & Hfl & Hfp & (Hok%free_list_ok & _)).
  pose proof (sp_us _ _ _ (bu_space _ _ _ _ _ (cp_built _ _ _ _ Hcp))) as Husp.
  assert (Hpo : page_ok p).
  { destruct Hp as [Hp|Hp]; [by eapply pages_ok|]. rewrite Forall_forall in Hok. by apply Hok. }
  assert (p = f) as ->; [|by destruct Hp]. eapply in_page_inj; eauto; [apply Hpo|apply Hf].
Qed.

Lemma rd_space : space s1 c l /\ (forall x, vaddr x -> pte_of m1 c x = pte_of (phys s) c x) /\
  (forall j, 0 <= j < 1024 -> table_at m1 c j = table_at (phys s) c j) /\
  (forall p, uframe m1 c p <-> uframe (phys s) c p).
Proof using Hcp Hi Hm Hpar.
  destruct rd_f as (Hf & _ & Hfl & Hfp & Hk). pose proof (cp_built _ _ _ _ Hcp) as [B1 _ _ _].
  apply (space_foreign s c (f :: l)); [done| |].
  - apply (kmem_inv_write _ _ m1 Hk). intros p Hp x Hx. symmetry. by apply (rd_apart p); [right|].
  - intros p Hp. split.
    + intros x Hx. symmetry. by apply (rd_apart p); [left|].
    + intros Hl. apply (sp_free _ _ _ B1 p Hp). by right.
Qed.
Lemma rd_pages p : is_ptpage m1 c p <-> is_ptpage (phys s) c p.
Proof using Hcp Hi Hm Hpar. apply same_tables_ptpage, rd_space. Qed.

(** The bytes that may have changed up to now are of pages that were free. *)
Lemma rd_agree s2 l2 : ext us c s1 l s2 l2 ->
  agree (fun x => forall p, p ∈ l0 -> ~ in_page p x) m0 (phys s2).
Proof using Hcp Hi Hm Hpar.
  intros Hext. destruct rd_f as (Hf & Hfl0 & _). pose proof (cp_built _ _ _ _ Hcp) as [_ B2 _ B4].
  eapply agree_trans; [exact B4|]. eapply agree_trans with m1.
  - intros x Hx. rewrite rd_read, decide_False; [done|]. by apply Hx.
  - eapply agree_weaken; [|apply (ext_agree _ _ _ _ _ _ Hext)]. cbn.
    intros x Hx (p & Hp & Hor). apply (Hx p); [|done]. apply B2. rewrite elem_of_cons.
    destruct Hor as [Hor|Hor%rd_pages]; [by eauto|right; by left].
Qed.

Lemma rd_only s2 l2 : ext us c s1 l s2 l2 -> s2 = with_alloc s0 (phys s2) (freelist (kmem s2)).
Proof using Hcp.
  intros Hext. rewrite (ext_only _ _ _ _ _ _ Hext) at 1. unfold s1. rewrite with_alloc_twice.
  rewrite (bu_only _ _ _ _ _ (cp_built _ _ _ _ Hcp)) at 1. done.
Qed.

(** [mappages] has no page for a table. *)
Lemma rd_failed s2 l2 :
  ext us c s1 l s2 l2 -> map_view m1 (phys s2) c i 0 (f - KERNBASE) (PTE_FLAGS v) ->
  exists s3, kfree f s2 = Ret tt s3 /\ built s0 l0 c s3 (f :: l2).
Proof using Hcp Hi Hm Hpar.
  intros Hext Hv. destruct rd_f as (Hf & Hfl0 & Hfl & Hfp & _).
  destruct rd_space as (Hsp & Hpte & Htab & Hfr).
  destruct (ext_same_user us c s1 l s2 l2 Hsp Hext) as [Hsp2 Hfr2].
  { intros x Hx. rewrite (Hv x (uaddr_vaddr x Hx)). by rewrite decide_False by (unfold in_range; lia). }
  pose proof (ext_pages _ _ _ _ _ _ Hext) as Hpg. cbn in Hpg.
  assert (Hf2 : f ∉ l2 /\ ~ pages (phys s2) c f).
  { specialize (Hpg f). specialize (Hfr2 f). cbn in Hfr2. unfold pages in *.
    rewrite rd_pages in Hpg. rewrite Hfr in Hfr2. clear -Hpg Hfr2 Hfl Hfp. tauto. }
  destruct Hf2 as [Hfl2 Hfp2].
  destruct (kfree_spec s2 f l2 (sp_kmem _ _ _ Hsp2) Hf Hfl2) as [E Hk]. exists (with_alloc s2 (freed_mem (phys s2) f (freelist (kmem s2))) f). split; [done|].
  destruct (space_foreign s2 c l2 _ (f :: l2) Hsp2 Hk) as (Hsp3 & _ & Ht3 & Hu3).
  { intros p Hp. pose proof (pages_ok _ _ _ (sp_us _ _ _ Hsp2) Hp) as Hpo. split.
    - apply agree_sym, freed_mem_agree; [done|]. intros x Hx Hx'. apply Hfp2.
      replace f with p; [done|]. eapply in_page_inj; eauto; [apply Hpo|apply Hf].
    - intros [->|Hl]%elem_of_cons; [done|]. by apply (sp_free _ _ _ Hsp2 p Hp). }
  split; [done| | |].
  - intros p. rewrite (bu_pages _ _ _ _ _ (cp_built _ _ _ _ Hcp)), !elem_of_cons. unfold pages.
    rewrite (same_tables_ptpage (phys s2) _ c p Ht3), Hu3, (Hfr2 p). cbn. rewrite (Hfr p).
    specialize (Hpg p). rewrite rd_pages in Hpg. clear -Hpg. tauto.
  - cbn. rewrite (rd_only s2 l2 Hext) at 1. done.
  - eapply agree_trans; [apply (rd_agree s2 l2 Hext)|]. cbn. apply agree_sym, freed_mem_agree; [done|].
    intros x Hx. by apply Hx.
Qed.

Section Done.
Context (s2 : kstate) (l2 : list Z).
Hypothesis Hext : ext us c s1 l s2 l2.
Hypothesis Hv : map_view m1 (phys s2) c i 1 (f - KERNBASE) (PTE_FLAGS v).

Lemma rd_unmapped : mapped (pte_of m1 c i) = false.
Proof using Hal Hcp Hi Hm Hpar.
  destruct rd_space as (_ & -> & _); [|by apply uaddr_vaddr]. rewrite (cp_rest _ _ _ _ Hcp i Hi); [done|].
  rewrite PGROUNDDOWN_val. Z.div_mod_to_equations. lia.
Qed.

Lemma rd_flags : 0 <= PTE_FLAGS v < 4096 /\ has (PTE_FLAGS v) PTE_W = true.
Proof using Hi Hm Hpar.
  split; [rewrite PTE_FLAGS_val; apply Z.mod_pos_bound; lia|].
  change PTE_W with (2 ^ 1). rewrite flags_has by lia. by apply (us_w _ _ Hpar i Hi).
Qed.

Lemma rd_built : built s0 l0 c s2 l2.
Proof using Hal Hcp Hext Hi Hm Hpar Hv.
  destruct rd_f as (Hf & Hfl0 & Hfl & Hfp & _). destruct rd_flags as [Hfb HW].
  destruct rd_space as (Hsp & Hpte & Htab & Hfr).
  assert (Hfp1 : ~ pages (phys s1) c f) by (unfold pages; cbn; by rewrite rd_pages, Hfr).
  pose proof rd_unmapped as Hun.
  assert (Hfr2 := map_user_uframe c s1 s2 i f (PTE_FLAGS v) Hv Hi Hal Hun Hf Hfb HW). cbn in Hfr2.
  split.
  - by apply (map_user_space us c s1 l s2 l2 i f (PTE_FLAGS v)).
  - intros p. pose proof (ext_pages _ _ _ _ _ _ Hext p) as Hpg. cbn in Hpg. rewrite rd_pages in Hpg.
    rewrite (bu_pages _ _ _ _ _ (cp_built _ _ _ _ Hcp)), elem_of_cons. unfold pages.
    rewrite Hfr2, Hfr. clear -Hpg. tauto.
  - by apply (rd_only s2 l2).
  - by apply (rd_agree s2 l2).
Qed.

Lemma rd_pte x : vaddr x ->
  pte_of (phys s2) c x = if decide (i / 4096 = x / 4096) then leaf (f - KERNBASE) (PTE_FLAGS v) else pte_of (phys s) c x.
Proof using Hal Hcp Hi Hm Hpar Hv.
  intros Hx. rewrite (map_user_pte c s1 s2 i f (PTE_FLAGS v) Hv Hal x Hx).
  destruct rd_space as (_ & Hpte & _). by rewrite <- (Hpte x Hx).
Qed.

(** Bytes of a frame of the child, old or new. *)
Lemma rd_byte p x : in_page p x -> p = f \/ uframe (phys s) c p -> read8 (phys s2) x = read8 m1 x.
Proof using Hcp Hext Hi Hm Hpar.
  intros Hx Hp. destruct rd_f as (Hf & _ & Hfl & Hfp & _). destruct rd_space as (Hsp & _).
  pose proof (cp_built _ _ _ _ Hcp) as [Hsp0 _ _ _].
  assert (Hp' : page_ok p /\ p ∉ l /\ ~ is_ptpage m1 c p).
  { rewrite rd_pages. destruct Hp as [->|Hp]; [split_and!; try done; intros H; apply Hfp; by left|].
    destruct Hp as (va & Hu & Hmv & <-). destruct (uframe_facts _ _ _ _ Hsp0 Hu Hmv) as (H1 & H2 & H3 & _).
    split_and!; try done. intros H. apply H2. by right. }
  destruct Hp' as (H1 & H2 & H3). symmetry.
  apply (ext_keeps_page us c s1 l s2 l2 p (space_tspace _ _ _ Hsp) Hext H1 H2 H3 x Hx).
Qed.

Lemma rd_same x : uaddr x -> PGROUNDDOWN x < i + 4096 -> same_page m0 pd (phys s2) c x.
Proof using Hal Hcp Hdis Hext Hi Hk0 Hm Hpar Hv.
  intros Hx Hlt. pose proof (uaddr_vaddr x Hx) as Hxv. pose proof (uaddr_vaddr i Hi) as Hiv.
  destruct rd_f as (Hf & _). destruct (frame_pa f Hf) as [Hpa Hpal]. destruct rd_flags as [Hfb _].
  pose proof (OFFSET_range x) as Ho. unfold same_page, ubyte. rewrite rd_pte by done. case_decide as E.
  - rewrite <- (pte_of_same_page m0 pd i x) by done. fold v. rewrite leaf_ADDR by done. split_and!.
    + by apply leaf_mapped.
    + by apply leaf_flags; [|done|apply (us_excl _ _ Hpar i Hi)].
    + rewrite (rd_byte f) by (unfold in_page, in_range; auto; lia).
      rewrite rd_read, decide_True by (unfold in_page, in_range; lia).
      replace (f - KERNBASE + OFFSET x - (f - KERNBASE)) with (OFFSET x) by lia.
      by apply (parent_byte c s (f :: l) (cp_built _ _ _ _ Hcp)).
  - destruct (cp_same _ _ _ _ Hcp x Hx) as (H1 & H2 & H3).
    { rewrite PGROUNDDOWN_val in *. clear -Hlt E Hal. Z.div_mod_to_equations. lia. }
    unfold ubyte in H3. split_and!; [done|done|]. rewrite <- H3.
    assert (Hp : in_page (frame (pte_of (phys s) c x)) (PTE_ADDR (pte_of (phys s) c x) + OFFSET x)).
    { apply in_frame. unfold in_range. lia. }
    assert (Hu : uframe (phys s) c (frame (pte_of (phys s) c x))) by (by exists x).
    rewrite (rd_byte _ _ Hp (or_intror Hu)). apply (rd_apart _ _ (or_introl (or_intror Hu)) Hp).
Qed.

Lemma rd_copied : copied (i + 4096) c s2 l2.
Proof using Hal Hcp Hdis Hext Hi Hk0 Hm Hpar Hv.
  split; [apply rd_built|apply rd_same|..].
  - intros x Hx Hge. rewrite rd_pte by (by apply uaddr_vaddr). rewrite PGROUNDDOWN_val in Hge.
    rewrite decide_False by (clear -Hge Hal; Z.div_mod_to_equations; lia).
    apply (cp_rest _ _ _ _ Hcp x Hx). rewrite PGROUNDDOWN_val. lia.
  - intros x Hx Hge. rewrite rd_pte by done. rewrite decide_False; [by apply (cp_kernel _ _ _ _ Hcp)|].
    unfold uaddr, KERNBASE in *. clear -Hi Hge. Z.div_mod_to_equations. lia.
Qed.
End Done.

Lemma rd_step : exists r s2, mappages c i PGSIZE (V2P f) (PTE_FLAGS v) s1 = Ret r s2 /\
  ((r = 0 /\ exists l2, copied (i + 4096) c s2 l2 /\
      (length l + missing (phys s2) c us = length l2 + missing (phys s) c us)%nat) \/
   (r = -1 /\ (length l < missing (phys s) c us)%nat /\
      exists s3, kfree f s2 = Ret tt s3 /\ built s0 l0 c s3 [f])).
Proof using Hal Hcp Hdis Hi Hin Hk0 Hm Hpar Hus.
  destruct rd_f as (Hf & _). destruct (frame_pa f Hf) as [Hpa Hpal]. destruct rd_flags as [Hfb _].
  destruct rd_space as (Hsp & _ & Htab & _). pose proof Hi as Hi'. unfold uaddr, KERNBASE in Hi'.
  assert (Hpf := page_ok_bounds f Hf). unfold KERNLINK, EXTMEM, PHYSTOP in Hpf.
  rewrite (page_ok_V2P f Hf).
  destruct (mappages_spec us c i PGSIZE 1 (f - KERNBASE) (PTE_FLAGS v) s1 l) as
    (k & r & s2 & l2 & E & Hext & Hv & Hr); try done; try (unfold PGSIZE, KERNBASE in *; lia).
  { by apply space_tspace. }
  { intros x Hx%same_page_range; [|done]. pose proof rd_unmapped as Hun.
    assert (Hxv : vaddr x) by (unfold vaddr; clear -Hx Hi' Hal; Z.div_mod_to_equations; lia).
    cbn. rewrite <- (pte_of_same_page m1 c i x) by (done || by apply uaddr_vaddr).
    destruct (PDX_same_page i x Hx) as [<- _]; [by apply uaddr_vaddr|done|]. done. }
  exists r, s2. split; [done|]. pose proof (ext_count _ _ _ _ _ _ Hext) as Hc. cbn in Hc.
  rewrite (missing_ext (phys s) m1 c us (proj1 Hus) Htab) in Hc.
  destruct Hr as [[-> ->]|(-> & Hk & -> & Hmi)].
  - left. split; [done|]. exists l2. split; [by apply rd_copied|done].
  - right. split; [done|]. split; [simpl in Hc; lia|]. assert (k = 0%nat) as -> by lia.
    by apply (rd_failed s2 []).
Qed.
End Round.

Lemma copied_fail i c s l : copied i c s l -> exists s', freevm c s = Ret tt s' /\ restored s0 l0 s'.
Proof using Hcq Hcur Hproc.
  intros Hcp. apply (built_freevm s0 l0 c s l (cp_built _ _ _ _ Hcp)).
  apply (child_cq_apart c s l), Hcp.
Qed.

Lemma copyuvm_loop_spec us sz L fuel : forall i c s l,
  copied i c s l -> i mod 4096 = 0 -> 0 <= i < sz + 4096 -> sz <= KERNBASE -> slots_ok us ->
  (forall x, 0 <= x < sz -> PDX x ∈ us /\ mapped (pte_of m0 pd x) = true) ->
  (0 < fuel)%nat -> sz - i <= 4096 * (Z.of_nat fuel - 1) ->
  L + Z.of_nat (missing (phys s) c us) <= Z.of_nat (length l) + i / 4096 ->
  (exists s', copyuvm_loop fuel pd c sz i s = Ret 0 s' /\ restored s0 l0 s' /\ L < (sz + 4095) / 4096) \/
  (exists j s' l', copyuvm_loop fuel pd c sz i s = Ret c s' /\ copied j c s' l' /\
     sz <= j < sz + 4096 /\ j mod 4096 = 0).
Proof using Hcq Hcur Hdis Hk0 Hpar Hproc.
  induction fuel as [|fuel IH]; intros i c s l Hcp Hal Hi Hsz Hus Hmap Hf Hfu HL; [lia|].
  cbn [copyuvm_loop]. destruct (Z.ltb_spec i sz) as [Hlt|Hge]; [|right; exists i, s, l; split_and!; done || lia].
  assert (Hu : uaddr i) by (unfold uaddr; lia). pose proof (uaddr_vaddr i Hu) as Hv.
  destruct (Hmap i) as [Hin Hm]; [lia|]. pose proof (cp_built _ _ _ _ Hcp) as Hb.
  assert (Epte := parent_pte c s l Hb i Hv). pose proof (parent_wf c s l Hb) as Hwf.
  destruct (mapped_table (phys s) pd i) as (t & Ht); [by rewrite Epte|].
  assert (Hs : pte_slot (phys s) pd i = Some (t + 4 * PTX i)) by (unfold pte_slot; by rewrite Ht).
  destruct (walk_some _ _ _ _ Hwf Hv Hs) as [E0 En]. rewrite (bind_Ret _ _ _ _ _ E0), En.
  rewrite (bind_Ret _ _ _ _ _ (kread_slot _ _ _ _ Hwf Hv Hs)), Epte, has_lor.
  fold (mapped (pte_of m0 pd i)). rewrite Hm. cbn [negb].
  destruct l as [|f l].
  { rewrite (bind_Ret _ _ _ _ _ (kalloc_empty s (sp_kmem _ _ _ (bu_space _ _ _ _ _ Hb)))). cbn [Z.eqb].
    destruct (copied_fail i c s [] Hcp) as (s' & E & Hr). rewrite (bind_Ret _ _ _ _ _ E).
    left. exists s'. split_and!; [done|done|]. cbn [length] in HL. Z.div_mod_to_equations. lia. }
  destruct (rd_f i c s f l Hcp) as (Hok & _).
  destruct (kalloc_cons s f l (sp_kmem _ _ _ (bu_space _ _ _ _ _ Hb))) as [E1 _].
  rewrite (bind_Ret _ _ _ _ _ E1), (proj2 (Z.eqb_neq f 0) (page_ok_nonzero f Hok)), kmodify_bind.
  destruct (rd_step us i c s f l Hcp Hus Hu Hal Hin Hm) as (r & s2 & E2 & Hr).
  rewrite (bind_Ret _ _ _ _ _ E2).
  destruct Hr as [(-> & l2 & Hcp2 & Hc)|(-> & Hc & s3 & E3 & Hb3)]; cbn [Z.ltb Z.compare].
  - cbn [length] in HL. unfold PGSIZE.
    apply (IH (i + 4096) c s2 l2); try done; try lia; [Z.div_mod_to_equations; lia|].
    replace (i + 4096) with (i + 1 * 4096) by lia. rewrite Z.div_add by lia. lia.
  - left. rewrite (bind_Ret _ _ _ _ _ E3).
    destruct (built_freevm s0 l0 c s3 [f] Hb3 (child_cq_apart c s3 [f] Hb3)) as (s4 & E4 & Hr4).
    rewrite (bind_Ret _ _ _ _ _ E4). exists s4. split_and!; [done|done|]. cbn [length] in HL.
    assert (L <= i / 4096) by lia. clear -H Hlt Hal. Z.div_mod_to_equations. lia.
Qed.

(** Pages and tables for a process of [sz] bytes, the kernel's included. *)
Definition copy_pages (sz : Z) : Z := 65 + (sz + 4095) / 4096 + (sz + 4194303) / 4194304.

(** The new address space [c], and the parent as it was. *)
Record forked (sz c : Z) (s' : kstate) (l' : list Z) : Prop := {
  fk_built : built s0 l0 c s' l';
  fk_page : forall x, uaddr x -> PGROUNDDOWN x < sz -> same_page m0 pd (phys s') c x;
  fk_rest : forall x, uaddr x -> sz <= PGROUNDDOWN x -> pte_of (phys s') c x = 0;
  fk_kernel : forall x, vaddr x -> KERNBASE <= x -> pte_of (phys s') c x = kmap_pte kmap 0 x
}.

Lemma copyuvm_spec sz :
  0 <= sz <= KERNBASE -> (forall x, 0 <= x < sz -> mapped (pte_of m0 pd x) = true) ->
  (exists s', copyuvm pd sz s0 = Ret 0 s' /\ restored s0 l0 s' /\ Z.of_nat (length l0) < copy_pages sz) \/
  (exists c s' l', copyuvm pd sz s0 = Ret c s' /\ forked sz c s' l').
Proof using Hcq Hcur Hdis Hk0 Hpar Hproc.
  intros Hsz Hmap. unfold copyuvm, copy_pages. set (k := (sz + 4194303) / 4194304).
  assert (Hk : 0 <= k <= 512) by (unfold k, KERNBASE in *; Z.div_mod_to_equations; lia).
  destruct (setupkvm_spec s0 l0 Hk0) as [(s' & E & Hr & Hl)|(c & s1 & l1 & E & Hb & Hn & Hv & Hl)];
    rewrite (bind_Ret _ _ _ _ _ E).
  { left. exists s'. cbn [Z.eqb]. split_and!; [done|done|].
    assert (0 <= (sz + 4095) / 4096) by (Z.div_mod_to_equations; lia). lia. }
  assert (Hc : page_ok c) by apply (sp_us _ _ _ (bu_space _ _ _ _ _ Hb)).
  rewrite (proj2 (Z.eqb_neq c 0) (page_ok_nonzero c Hc)).
  assert (Hus : slots_ok (seqZ 0 k)).
  { split; [|apply NoDup_seqZ]. apply Forall_forall. intros j Hj%elem_of_seqZ. lia. }
  assert (Hle := missing_le (phys s1) c (seqZ 0 k)). rewrite length_seqZ in Hle.
  destruct (copyuvm_loop_spec (seqZ 0 k) sz (Z.of_nat (length l1) - k) (S (Z.to_nat (sz / PGSIZE + 1))) 0 c s1 l1)
    as [(s' & E' & Hr & HL)|(j & s' & l' & E' & [C1 C2 C3 C4] & Hj & Hjm)]; try done; try lia.
  - split; [done| | |intros x Hx _; by apply Hv].
    + intros x Hx Hlt. rewrite PGROUNDDOWN_val in Hlt. unfold uaddr in Hx. Z.div_mod_to_equations. lia.
    + intros x Hx _. by apply Hn.
  - intros x Hx. split; [|by apply Hmap]. unfold KERNBASE in *. rewrite PDX_val, elem_of_seqZ by lia.
    unfold k. clear -Hx. Z.div_mod_to_equations. lia.
  - unfold PGSIZE. clear -Hsz. Z.div_mod_to_equations. lia.
  - change (0 / 4096) with 0. lia.
  - left. exists s'. split_and!; [done|done|lia].
  - right. exists c, s', l'. split; [done|]. split; [done| | |done].
    + intros x Hx Hlt. apply C2; [done|lia].
    + intros x Hx Hge. apply C3; [done|]. rewrite PGROUNDDOWN_val in *. clear -Hj Hjm Hge. Z.div_mod_to_equations. lia.
Qed.

End Copy.

End VmCopy.
