(* ===== verification/UserMem.v ===== *)
(** * The kernel's accesses to user memory

    A load or store of the kernel at a user address reads or writes the
    plaintext, whether or not the page is encrypted at the time: the page-fault
    path decrypts it on the way. *)
From S2P Require Import Prelude Memory KString Mmu State Kalloc.
From S2P Require Import Vm VmTables VmCrypt VmEnc VmClock VmDecrypt.

Section UserMem.
Context `{PL : Platform}.

(** Every page of a user address space is writable, so loads and stores need
    the same. *)
Lemma hw_leaf_load_eq m d va :
  uspace m d -> uaddr va -> hw_leaf_load m (d - KERNBASE) va = hw_leaf m (d - KERNBASE) va.
Proof.
  intros Hus Hva. assert (Hwf := us_wf _ _ Hus).
  unfold hw_leaf_load, hw_leaf.
  rewrite (PTE_ADDR_id (d - KERNBASE))
    by (destruct (wf_dir _ _ Hwf) as [Hd' _]; unfold KERNBASE; Z.div_mod_to_equations; lia).
  change (d - KERNBASE + 4 * PDX va) with (pde_addr d (PDX va)).
  destruct (has (read32 m (pde_addr d (PDX va))) PTE_P) eqn:HP; [|done].
  assert (Ht : table_at m d (PDX va) = Some (P2V (PTE_ADDR (read32 m (pde_addr d (PDX va)))))).
  { unfold table_at. by rewrite HP. }
  destruct (wf_tab _ _ Hwf _ _ (PDX_range va (uaddr_vaddr _ Hva)) Ht) as (Hok & _ & ->). cbn [andb].
  assert (Ea : PTE_ADDR (read32 m (pde_addr d (PDX va))) + 4 * PTX va =
    P2V (PTE_ADDR (read32 m (pde_addr d (PDX va)))) - KERNBASE + 4 * PTX va).
  { rewrite <- (page_ok_V2P _ Hok), V2P_P2V; [done|].
    pose proof (PTE_ADDR_range _ (read32_range m (pde_addr d (PDX va)))). lia. }
  rewrite Ea. pose proof (pte_of_table m d va _ Ht) as Ep. rewrite <- Ep.
  destruct (has (pte_of m d va) PTE_P) eqn:HPv; [|done].
  rewrite (us_w _ _ Hus va Hva); [done|]. unfold mapped. by rewrite HPv.
Qed.

(** The leaf entry of a present page. *)
Lemma hw_leaf_present m d va :
  uspace m d -> uaddr va -> has (pte_of m d va) PTE_P = true ->
  exists a, hw_leaf m (d - KERNBASE) va = Some a /\ read32 m a = pte_of m d va.
Proof.
  intros Hus Hva HP. assert (Hm : mapped (pte_of m d va) = true) by (unfold mapped; by rewrite HP).
  destruct (mapped_slot _ _ _ Hus Hva Hm) as (t & Ht & Hsl & _).
  rewrite hw_leaf_spec by auto using us_wf, uaddr_vaddr. rewrite Hsl, HP, (us_w _ _ Hus va Hva Hm).
  eexists. split; [done|]. rewrite (pte_of_table _ _ _ _ Ht). f_equal. lia.
Qed.

Lemma present_plain m d va :
  uspace m d -> uaddr va -> has (pte_of m d va) PTE_P = true -> plain m d va = ubyte m d va.
Proof.
  intros Hus Hva HP. unfold plain. pose proof (us_excl _ _ Hus va Hva) as HE. rewrite HP in HE.
  cbn [andb] in HE. by rewrite HE.
Qed.

Lemma hw_load_present s me p va :
  cur_ok s me p -> cq_ok (phys s) p -> uaddr va -> has (pte_of (phys s) (pgdir p) va) PTE_P = true ->
  exists s', hw_load va s = Ret (Some (plain (phys s) (pgdir p) va)) s' /\ accessed s me p s' p.
Proof.
  intros Hok Hq Hva HP. assert (Hus := co_us _ _ _ Hok).
  destruct (touch_present s me p va Hok Hq Hva HP) as (s' & E & Hac & HP'). exists s'. split; [|done].
  destruct (hw_leaf_present _ _ _ Hus Hva HP) as (a & Ea & Er).
  unfold hw_touch in E. unfold hw_load. rewrite (co_cr3 _ _ _ Hok) in *.
  rewrite hw_leaf_load_eq, Ea by done. rewrite Ea in E. cbn zeta. injection E as E.
  assert (Hcr := ac_crypt _ _ _ _ _ Hac).
  rewrite <- (cr_plain _ _ _ Hcr va Hva) by (unfold mapped; by rewrite HP).
  rewrite (present_plain _ _ _ (cr_us _ _ _ Hcr) Hva HP'). unfold ubyte.
  rewrite (cr_addr _ _ _ Hcr va Hva), <- Er, <- E. done.
Qed.

Lemma hw_load_absent s me p va :
  cur_ok s me p -> uaddr va -> has (pte_of (phys s) (pgdir p) va) PTE_P = false -> hw_load va s = Ret None s.
Proof.
  intros Hok Hva HP. unfold hw_load. rewrite (co_cr3 _ _ _ Hok), hw_leaf_load_eq by (done || apply Hok).
  rewrite hw_leaf_spec by (auto using uaddr_vaddr; apply (co_us _ _ _ Hok)).
  destruct (pte_slot _ _ _); [|done]. by rewrite HP.
Qed.

Lemma uload8_spec s me p va :
  cur_ok s me p -> cq_ok (phys s) p -> uaddr va ->
  accessible (pte_of (phys s) (pgdir p) va) = true ->
  exists s' p', uload8 va s = Ret (plain (phys s) (pgdir p) va) s' /\ accessed s me p s' p'.
Proof.
  intros Hok Hq Hva Hacc. unfold uload8. assert (Hm := accessible_mapped _ Hacc).
  destruct (has (pte_of (phys s) (pgdir p) va) PTE_P) eqn:HP.
  - destruct (hw_load_present s me p va Hok Hq Hva HP) as (s' & E & Hac).
    exists s', p. split; [|done]. by rewrite (bind_Ret _ _ _ _ _ E).
  - assert (HE : has (pte_of (phys s) (pgdir p) va) PTE_E = true) by (unfold mapped in Hm; by rewrite HP in Hm).
    destruct (mdecrypt_served s me p va Hok Hq Hva Hm) as (m1 & s1 & p1 & E1 & Hs).
    assert (Ha1 := served_accessed _ _ _ _ _ _ _ Hok Hacc HE Hs).
    destruct (cq_changed_fields _ _ (ac_proc _ _ _ _ _ Ha1)) as [_ Hpd].
    assert (HP1 : has (pte_of (phys s1) (pgdir p1) va) PTE_P = true).
    { rewrite Hpd, (proj1 (sv_PE _ _ _ _ _ _ _ Hs)). apply Hs. }
    destruct (hw_load_present s1 me p1 va) as (s' & E & Hac); [apply Ha1|apply Ha1|done|done|].
    exists s', p1. split; [|by eapply accessed_trans].
    rewrite (bind_Ret _ _ _ _ _ (hw_load_absent s me p va Hok Hva HP)). cbn beta iota.
    rewrite (bind_Ret _ _ _ _ _ E1). cbn [negb Z.eqb]. rewrite (bind_Ret _ _ _ _ _ E). cbn beta iota.
    by rewrite Hpd, (cr_plain _ _ _ (ac_crypt _ _ _ _ _ Ha1) va Hva Hm).
Qed.

(** The next access finds the page it needs. *)
Lemma accessed_accessible s me p s' p' va :
  accessed s me p s' p' -> uaddr va -> accessible (pte_of (phys s) (pgdir p) va) = true ->
  accessible (pte_of (phys s') (pgdir p') va) = true.
Proof.
  intros Hac Hva Hacc. destruct (cq_changed_fields _ _ (ac_proc _ _ _ _ _ Hac)) as [_ Hpd].
  assert (Hcr := ac_crypt _ _ _ _ _ Hac). unfold accessible in *.
  by rewrite Hpd, (cr_mapped _ _ _ Hcr), (cr_U _ _ _ Hcr).
Qed.

Lemma accessed_plain s me p s' p' va :
  accessed s me p s' p' -> uaddr va -> accessible (pte_of (phys s) (pgdir p) va) = true ->
  plain (phys s') (pgdir p') va = plain (phys s) (pgdir p) va.
Proof.
  intros Hac Hva Hacc. destruct (cq_changed_fields _ _ (ac_proc _ _ _ _ _ Hac)) as [_ Hpd].
  rewrite Hpd. apply (cr_plain _ _ _ (ac_crypt _ _ _ _ _ Hac) va Hva), accessible_mapped, Hacc.
Qed.

(** A run of bytes. *)
Definition readable (m : mem) (d va n : Z) : Prop :=
  forall i, 0 <= i < n -> uaddr (va + i) /\ accessible (pte_of m d (va + i)) = true.

Definition plain32 (m : mem) (d va : Z) : Z :=
  plain m d va + 256 * plain m d (va + 1) + 65536 * plain m d (va + 2) + 16777216 * plain m d (va + 3).

Lemma accessed_readable s me p s' p' va n :
  accessed s me p s' p' -> readable (phys s) (pgdir p) va n -> readable (phys s') (pgdir p') va n.
Proof. intros Hac Hr i Hi. destruct (Hr i Hi). split; [done|]. by eapply accessed_accessible. Qed.

(** One more byte at [va + i]. *)
Lemma uload8_next s0 p0 s me p va i :
  accessed s0 me p0 s p -> readable (phys s0) (pgdir p0) va 4 -> 0 <= i < 4 ->
  exists s' p', uload8 (u32 (va + i)) s = Ret (plain (phys s0) (pgdir p0) (va + i)) s' /\ accessed s0 me p0 s' p'.
Proof.
  intros Hac Hr Hi. destruct (Hr i Hi) as [Hva Hacc].
  destruct (uload8_spec s me p (va + i)) as (s' & p' & E & Hac'); [apply Hac|apply Hac|done|by eapply accessed_accessible|].
  rewrite (accessed_plain _ _ _ _ _ _ Hac Hva Hacc) in E.
  exists s', p'. rewrite u32_small by (unfold uaddr, KERNBASE in Hva; lia). split; [done|by eapply accessed_trans].
Qed.

Lemma uload32_spec s me p va :
  cur_ok s me p -> cq_ok (phys s) p -> readable (phys s) (pgdir p) va 4 ->
  exists s' p', uload32 va s = Ret (plain32 (phys s) (pgdir p) va) s' /\ accessed s me p s' p'.
Proof.
  intros Hok Hq Hr. destruct (Hr 0 ltac:(lia)) as [Hva Hacc]. rewrite Z.add_0_r in *.
  destruct (uload8_spec s me p va Hok Hq Hva Hacc) as (s1 & p1 & E1 & H1).
  destruct (uload8_next s p s1 me p1 va 1 H1 Hr ltac:(lia)) as (s2 & p2 & E2 & H2).
  destruct (uload8_next s p s2 me p2 va 2 H2 Hr ltac:(lia)) as (s3 & p3 & E3 & H3).
  destruct (uload8_next s p s3 me p3 va 3 H3 Hr ltac:(lia)) as (s4 & p4 & E4 & H4).
  exists s4, p4. split; [|done]. unfold uload32.
  rewrite (bind_Ret _ _ _ _ _ E1), (bind_Ret _ _ _ _ _ E2), (bind_Ret _ _ _ _ _ E3), (bind_Ret _ _ _ _ _ E4). done.
Qed.

(** ** Stores outside the page tables *)

Lemma uspace_agree m m' d :
  uspace m d -> (forall q, is_ptpage m d q -> agree (in_page q) m m') -> uspace m' d.
Proof.
  intros Hus Hag. assert (Hwf := us_wf _ _ Hus).
  assert (E : forall va, uaddr va -> pte_of m' d va = pte_of m d va).
  { intros va Hva. apply pte_of_agree; [done|done|by apply uaddr_vaddr]. }
  split.
  - by apply (pgdir_wf_agree m).
  - intros va Hva. rewrite E by done. by apply us_ok.
  - intros va Hva. rewrite E, is_ptpage_agree by done. by apply us_frame.
  - intros va va' Hva Hva'. rewrite !E by done. by apply us_inj.
  - intros va Hva. rewrite E by done. by apply us_w.
  - intros va Hva. rewrite E by done. by apply us_excl.
Qed.

Lemma cq_ok_agree m m' p :
  pgdir_wf m (pgdir p) -> cq_ok m p -> (forall q, is_ptpage m (pgdir p) q -> agree (in_page q) m m') -> cq_ok m' p.
Proof.
  intros Hwf [H1 H2 H3 H4] Hag. split; try done. intros n Hn Ho. destruct (H3 n Hn Ho) as (Hu & Hs & Ha).
  split; [done|]. assert (Hv := uaddr_vaddr _ Hu).
  by rewrite (pte_slot_agree m m'), (pte_of_agree m m').
Qed.

End UserMem.
