(* ===== verification/VmExample.v ===== *)
(** * A concrete address space

    A small machine used to instantiate the theorems about address spaces:
    a directory with one page table that maps a plaintext page at 0, an
    encrypted page at 0x1000 and a guard page (present, not accessible to the
    user) at 0x2000.  The process is running and has page 0 in its queue. *)
From S2P Require Import Prelude Memory KString Mmu State Kalloc Vm VmTables VmCrypt VmEnc VmClock.

Lemma mark_bits pte n : 0 <= n -> n <> 5 -> n <> 6 ->
  Z.testbit (Z.lor pte 0x60) n = Z.testbit pte n.
Proof.
  intros H0 H5 H6. rewrite Z.lor_spec. destruct (Z_lt_ge_dec n 7).
  - assert (n = 0 \/ n = 1 \/ n = 2 \/ n = 3 \/ n = 4) as [->|[->|[->|[->| ->]]]] by lia;
      by rewrite orb_false_r.
  - rewrite (testbit_high 0x60 7 n) by lia. by rewrite orb_false_r.
Qed.

(** A kernel image that ends below 2M, on hardware that marks every entry it
    uses as accessed and dirty. *)
Definition ex_platform : Platform.
Proof.
  refine {| ksym_data := 0x80108000; ksym_end := 0x80110000; ksym_trapret := 0x80105000;
    ksym_forkret := 0x80103000; ksym_ts := 0x80109000; hw_mark := fun p => Z.lor p 0x60;
    hw_mark_bits := mark_bits |}.
  unfold KERNLINK, KERNBASE, EXTMEM, PHYSTOP. split_and!; done.
Defined.

#[local] Existing Instance ex_platform.

Definition ex_dir : Z := 0x80200000.
Definition ex_table : Z := 0x80201000.

Definition ex_mem : mem :=
  write32 (write32 (write32 (write32 ∅ 0x200000 0x201007) 0x201000 0x202007)
    0x201004 0x203406) 0x201008 0x204003.

Definition ex_cq : list cq_node :=
  mk_cq 0 0 ex_table :: replicate 7 (mk_cq (-1) 0 0).

Definition ex_proc : proc :=
  set_clock_hand (set_cq (set_kstack (set_pgdir (set_sz zero_proc 0x3000) ex_dir) 0x80205000)
    ex_cq) 0.

Definition ex_state : kstate :=
  mk_kstate ex_mem (mk_kmem false false 0) false [ex_proc] (Some 0%nat) 2 (Some 0%nat) 0
    0x200000 0 0 0 (mk_segdesc 0 0 0 0 0 0 0 0 0 0 0 0 0) 0 false.

Lemma read32_empty a : read32 ∅ a = 0.
Proof. done. Qed.

Lemma ex_read a : a mod 4 = 0 ->
  read32 ex_mem a =
  if decide (a = 0x200000) then 0x201007 else if decide (a = 0x201000) then 0x202007
  else if decide (a = 0x201004) then 0x203406 else if decide (a = 0x201008) then 0x204003 else 0.
Proof.
  intros Ha. repeat case_decide; subst; try reflexivity.
  unfold ex_mem. rewrite !read32_write32_ne by (unfold in_range; Z.div_mod_to_equations; lia).
  apply read32_empty.
Qed.

Lemma ex_table_at i : 0 <= i < 1024 ->
  table_at ex_mem ex_dir i = if decide (i = 0) then Some ex_table else None.
Proof.
  intros Hi. unfold table_at, pde_addr, ex_dir, KERNBASE.
  rewrite ex_read by (Z.div_mod_to_equations; lia).
  repeat case_decide; try lia; done.
Qed.

Lemma ex_pte va : uaddr va ->
  pte_of ex_mem ex_dir va =
  if decide (va / 4096 = 0) then 0x202007 else if decide (va / 4096 = 1) then 0x203406
  else if decide (va / 4096 = 2) then 0x204003 else 0.
Proof.
  intros Hva. assert (Hv := uaddr_vaddr _ Hva). unfold pte_of, pte_slot.
  rewrite ex_table_at by (by apply PDX_range).
  pose proof (PDX_PTX_vpn va Hv) as E. pose proof (PTX_range va). pose proof (PDX_range va Hv).
  case_decide.
  - unfold ex_table, KERNBASE. rewrite ex_read by (Z.div_mod_to_equations; lia).
    repeat case_decide; try lia; done.
  - repeat case_decide; try lia; done.
Qed.

Lemma ex_wf : pgdir_wf ex_mem ex_dir.
Proof.
  split.
  - by vm_compute.
  - intros i t Hi. rewrite ex_table_at by done. case_decide as E; [|done]. intros; simplify_eq.
    by vm_compute.
  - intros i j t Hi Hj. rewrite !ex_table_at by done. repeat case_decide; try done. lia.
Qed.

Lemma ex_ptpage p : is_ptpage ex_mem ex_dir p -> p = ex_dir \/ p = ex_table.
Proof.
  intros [->|(i & Hi & E)]; [by left|right]. rewrite ex_table_at in E by done.
  case_decide; by simplify_eq.
Qed.

Lemma ex_uspace : uspace ex_mem ex_dir.
Proof.
  split.
  - apply ex_wf.
  - intros va Hva. rewrite ex_pte by done. repeat case_decide; intros; by vm_compute.
  - intros va Hva. rewrite ex_pte by done.
    repeat case_decide; try done; intros _ [Hp|Hp]%ex_ptpage; discriminate Hp.
  - intros va va' Hva Hva'. rewrite !ex_pte by done. repeat case_decide; try done; congruence.
  - intros va Hva. rewrite ex_pte by done. repeat case_decide; done.
  - intros va Hva. rewrite ex_pte by done. repeat case_decide; done.
Qed.

Lemma ex_cur_ok : cur_ok ex_state 0 ex_proc.
Proof. split; [done..|apply ex_uspace|done]. Qed.

Lemma ex_cq_ok : cq_ok (phys ex_state) ex_proc.
Proof.
  assert (Hocc : forall i n, cq ex_proc !! i = Some n -> occupied n = true ->
    i = 0%nat /\ n = mk_cq 0 0 ex_table).
  { intros [|i] n; simpl; [intros; by simplify_eq|].
    intros Hn%list_elem_of_lookup_2 Ho.
    apply (elem_of_replicate_inv n 7 (mk_cq (-1) 0 0)) in Hn. by subst. }
  split.
  - done.
  - by vm_compute.
  - intros n [i Hn]%list_elem_of_lookup Ho. destruct (Hocc i n Hn Ho) as [-> ->]. by vm_compute.
  - intros i j n n' Hi Hj Ho Ho' _. destruct (Hocc _ _ Hi Ho), (Hocc _ _ Hj Ho'). congruence.
Qed.
