(* ===== verification/Encryption.v ===== *)
(** * Correctness of page encryption and of the clock queue

    The theorems about [mencrypt], [mdecrypt], [cq_enset] and [cq_remove] of
    vm.c, with the concrete address space of [VmExample] as witness. *)
From S2P Require Import Prelude Memory KString Mmu State Kalloc.
From S2P Require Import Vm VmTables VmCrypt VmEnc VmClock VmDecrypt VmExample.

Section Encryption.
Context `{PL : Platform}.

(** C1. [mencrypt] on a range of user pages is all or nothing, except at a page
    without a page table.  If every page of the range is accessible, it returns 0,
    every page of the range ends encrypted and not present, the entries of all other
    pages are as before, and the address space is the same up to encryption (same
    tables, frames and permissions, same plaintext of every byte).  Otherwise the
    first page that is not accessible decides: if its page table exists, [mencrypt]
    returns -1 and changes nothing; if not, [uva2ka] dereferences the null pointer
    that [walkpgdir] returned. *)
Theorem mencrypt_all_or_nothing s me p va0 len :
  cur_ok s me p ->
  let va := PGROUNDDOWN va0 in
  (upages va (Z.to_nat len) -> all_acc (phys s) (pgdir p) va (Z.to_nat len) = true ->
    exists m', mencrypt va0 len s = Ret 0 (switched (with_phys s m') p) /\
      crypt_rel (phys s) m' (pgdir p) /\
      (forall x, uaddr x -> in_pages va (Z.to_nat len) x ->
         has (pte_of m' (pgdir p) x) PTE_E = true /\ has (pte_of m' (pgdir p) x) PTE_P = false) /\
      (forall x, uaddr x -> ~ in_pages va (Z.to_nat len) x ->
         pte_of m' (pgdir p) x = pte_of (phys s) (pgdir p) x)) /\
  (forall k, upages va (S k) -> Z.of_nat k < len ->
    all_acc (phys s) (pgdir p) va k = true ->
    accessible (pte_of (phys s) (pgdir p) (va + 4096 * Z.of_nat k)) = false ->
    mencrypt va0 len s =
      match pte_slot (phys s) (pgdir p) (va + 4096 * Z.of_nat k) with
      | Some _ => Ret (-1) s
      | None => Fault "uva2ka: null pte"
      end).
Proof.
  intros Hok va. split.
  - intros Hp Hacc. pose proof (mencrypt_spec s me p va0 len Hok Hp) as H. fold va in H.
    rewrite Hacc in H. apply H. intros i Hi.
    apply (all_acc_slot _ _ _ _ i (co_us _ _ _ Hok) Hp Hacc). lia.
  - intros k Hp Hk Hacc Hbad. by apply mencrypt_stops with me.
Qed.

(** C2. A page fault on an encrypted page of the process is served:
    [mdecrypt] returns 0, the page is present and not encrypted, it is in the
    process's queue, the queue stays well formed, and the address space is the
    same up to encryption. *)
Theorem mdecrypt_serves s me p va :
  cur_ok s me p -> cq_ok (phys s) p -> uaddr va ->
  accessible (pte_of (phys s) (pgdir p) va) = true ->
  has (pte_of (phys s) (pgdir p) va) PTE_E = true ->
  exists s' p', mdecrypt va s = Ret 0 s' /\
    cur_ok s' me p' /\ ptable s' = <[me := p']> (ptable s) /\ cq_changed p p' /\ rest_eq s s' /\
    crypt_rel (phys s) (phys s') (pgdir p) /\ cq_ok (phys s') p' /\ queued p' va /\
    has (pte_of (phys s') (pgdir p) va) PTE_P = true /\
    has (pte_of (phys s') (pgdir p) va) PTE_E = false.
Proof.
  intros Hok Hq Hva Hacc HE.
  destruct (mdecrypt_served s me p va Hok Hq Hva (accessible_mapped _ Hacc))
    as (m1 & s' & p' & E & Hs).
  destruct (served_accessed _ _ _ _ _ _ _ Hok Hacc HE Hs).
  destruct (sv_PE _ _ _ _ _ _ _ Hs) as [HP' HE'].
  exists s', p'. split_and!; try done; [apply Hs|rewrite HP'; apply Hs|rewrite HE'; apply Hs].
Qed.

(** C12. Encrypting a plaintext page and then touching it gives the page back:
    in between every byte of the page is complemented in RAM and the page is
    not present; afterwards it is present and every byte is the original. *)
Theorem encrypt_touch_roundtrip s me p va :
  cur_ok s me p -> cq_ok (phys s) p -> uaddr va ->
  accessible (pte_of (phys s) (pgdir p) va) = true ->
  has (pte_of (phys s) (pgdir p) va) PTE_P = true ->
  exists s1 s2, mencrypt va 1 s = Ret 0 s1 /\ touch va s1 = Ret tt s2 /\
    has (pte_of (phys s1) (pgdir p) va) PTE_P = false /\
    has (pte_of (phys s2) (pgdir p) va) PTE_P = true /\
    (forall x, uaddr x -> x / 4096 = va / 4096 ->
       ubyte (phys s1) (pgdir p) x = 255 - ubyte (phys s) (pgdir p) x /\
       ubyte (phys s2) (pgdir p) x = ubyte (phys s) (pgdir p) x).
Proof.
  intros Hok Hq Hva Hacc HP. assert (Hm := accessible_mapped _ Hacc).
  destruct (mapped_slot _ _ _ (co_us _ _ _ Hok) Hva Hm) as (t & _ & Ha & _).
  destruct (evict_spec s me p va _ Hok Hva Ha Hacc) as (m1 & E1 & Hcr1 & _ & HE1 & HP1).
  set (s1 := switched (with_phys s m1) p) in *.
  assert (Hok1 : cur_ok s1 me p) by (apply cur_ok_switched, cur_ok_phys, Hcr1; done).
  assert (Hacc1 : accessible (pte_of (phys s1) (pgdir p) va) = true).
  { unfold accessible in *. cbn. by rewrite (cr_mapped _ _ _ Hcr1), (cr_U _ _ _ Hcr1). }
  destruct (touch_spec s1 me p va Hok1 (cq_ok_crypt _ _ _ Hq Hcr1) Hva Hacc1)
    as (s2 & p2 & E2 & Hac & HP2).
  exists s1, s2. split_and!; try done. intros x Hx Ex.
  assert (Epte : forall m, pte_of m (pgdir p) x = pte_of m (pgdir p) va)
    by (intros; apply pte_of_same_page; auto using uaddr_vaddr).
  assert (HE := us_excl _ _ (co_us _ _ _ Hok) va Hva).
  assert (HE2 := us_excl _ _ (cr_us _ _ _ (ac_crypt _ _ _ _ _ Hac)) va Hva).
  rewrite HP in HE. rewrite HP2 in HE2. cbn [andb] in HE, HE2.
  pose proof (cr_plain _ _ _ Hcr1 x Hx) as P1.
  pose proof (cr_plain _ _ _ (ac_crypt _ _ _ _ _ Hac) x Hx) as P2.
  unfold plain in P1, P2. cbn [phys switched s1 with_phys with_cr3 with_ts] in *.
  rewrite !Epte, HE, HE1 in P1. rewrite !Epte, HE2, HE1 in P2.
  specialize (P1 Hm). rewrite (cr_mapped _ _ _ Hcr1) in P2 by done. specialize (P2 Hm). lia.
Qed.

(** A sequence of accesses. *)
Fixpoint touches (l : list Z) : K unit :=
  match l with
  | [] => ret tt
  | va :: l' => do* touch va in touches l'
  end.

Lemma touches_spec l : forall s me p,
  cur_ok s me p -> cq_ok (phys s) p ->
  Forall (fun va => uaddr va /\ accessible (pte_of (phys s) (pgdir p) va) = true) l ->
  exists s' p', touches l s = Ret tt s' /\ accessed s me p s' p'.
Proof.
  induction l as [|va l IH]; intros s me p Hok Hq Hl.
  - exists s, p. split; [done|]. split; try done; [by apply crypt_rel_refl, Hok| |by destruct p].
    by rewrite list_insert_id by apply Hok.
  - apply Forall_cons in Hl as [[Hva Hacc] Hl].
    destruct (touch_spec s me p va Hok Hq Hva Hacc) as (s1 & p1 & E1 & Ha1 & _).
    destruct (cq_changed_fields _ _ (ac_proc _ _ _ _ _ Ha1)) as [_ Hpd].
    destruct (IH s1 me p1) as (s' & p' & E' & Ha'); [apply Ha1|apply Ha1| |].
    { eapply Forall_impl; [exact Hl|]. cbn. intros x [Hx Hax]. split; [done|]. rewrite Hpd.
      unfold accessible in *. assert (Hcr := ac_crypt _ _ _ _ _ Ha1).
      by rewrite (cr_mapped _ _ _ Hcr), (cr_U _ _ _ Hcr). }
    exists s', p'. split; [|by eapply accessed_trans]. cbn. by rewrite (bind_Ret _ _ _ _ _ E1).
Qed.

Lemma wset_bound m p l :
  cq_ok m p -> wset m p -> NoDup l ->
  (forall v, v ∈ l -> exists x, uaddr x /\ x / 4096 = v /\
     has (pte_of m (pgdir p) x) PTE_P = true /\ has (pte_of m (pgdir p) x) PTE_U = true) ->
  (length l <= Z.to_nat CLOCKSIZE)%nat.
Proof.
  intros Hq Hw Hnd Hl. rewrite <- (cq_len _ _ Hq).
  rewrite <- (length_fmap (fun n => cq_va n / 4096) (cq p)).
  apply submseteq_length, NoDup_submseteq; [done|]. intros v Hv.
  destruct (Hl v Hv) as (x & Hx & <- & HP & HU). destruct (Hw x Hx HP HU) as (n & Hn & _ & <-).
  apply list_elem_of_fmap. by exists n.
Qed.

(** C3. However a process accesses its memory, at most [CLOCKSIZE] of its
    user pages are in plaintext: from a state whose plaintext pages are all in
    the queue, every sequence of accesses to accessible pages goes through,
    leaves the plaintext of all pages as it was, and ends with at most
    [CLOCKSIZE] present user pages. *)
Theorem plaintext_pages_bounded s me p accesses :
  cur_ok s me p -> cq_ok (phys s) p -> wset (phys s) p ->
  Forall (fun va => uaddr va /\ accessible (pte_of (phys s) (pgdir p) va) = true) accesses ->
  exists s' p', touches accesses s = Ret tt s' /\
    crypt_rel (phys s) (phys s') (pgdir p) /\ wset (phys s') p' /\
    forall l, NoDup l ->
      (forall v, v ∈ l -> exists x, uaddr x /\ x / 4096 = v /\
        has (pte_of (phys s') (pgdir p) x) PTE_P = true /\
        has (pte_of (phys s') (pgdir p) x) PTE_U = true) ->
      (length l <= Z.to_nat CLOCKSIZE)%nat.
Proof.
  intros Hok Hq Hw Hl. destruct (touches_spec accesses s me p Hok Hq Hl) as (s' & p' & E & Ha).
  destruct (cq_changed_fields _ _ (ac_proc _ _ _ _ _ Ha)) as [_ Hpd].
  assert (Hw' := ac_wset _ _ _ _ _ Ha Hw).
  exists s', p'. split; [done|]. split; [apply Ha|]. split; [done|]. intros l Hnd H.
  eapply (wset_bound (phys s') p'); [apply Ha|done|done|]. by rewrite Hpd.
Qed.

(** C19. [cq_enset] terminates: on a well-formed queue the hand stops within
    [2 * CLOCKSIZE + 1] steps.  It inserts the page, keeps the queue well
    formed, leaves the address space the same up to encryption, and does not
    evict the page it inserts. *)
Theorem cq_enset_terminates s me p va :
  cur_ok s me p -> cq_ok (phys s) p -> uaddr va ->
  accessible (pte_of (phys s) (pgdir p) va) = true ->
  exists s' p', cq_enset va s = Ret 0 s' /\ ptable s' = <[me := p']> (ptable s) /\
    cq_changed p p' /\ cq_ok (phys s') p' /\ queued p' va /\
    crypt_rel (phys s) (phys s') (pgdir p) /\
    same_PE (pte_of (phys s) (pgdir p) va) (pte_of (phys s') (pgdir p) va).
Proof.
  intros Hok Hq Hva Hacc.
  destruct (mapped_slot _ _ _ (co_us _ _ _ Hok) Hva (accessible_mapped _ Hacc)) as (t & _ & Ha & _).
  destruct (cq_enset_spec s me p va _ Hok Hq Hva Ha)
    as (s' & p' & E & _ & _ & Hpt & Hch & Hcr & Hok' & Hqd & _ & Hpe).
  exists s', p'. split_and!; try done; [by apply Hok'|apply Hpe..].
Qed.

(** [cq_remove] of an entry that does not lie above the hand closes the
    gap and keeps the order of the others: entries below are untouched, those
    up to the hand move down by one, the hand's slot is emptied and the hand
    steps back. *)
Theorem cq_remove_closes_gap s me p pte del :
  curproc s = Some me -> ptable s !! me = Some p -> length (cq p) = Z.to_nat CLOCKSIZE ->
  cq_find (fun n => cq_pte n =? pte) (cq p) 0 = Some del ->
  del <= clock_hand p < CLOCKSIZE ->
  exists q, cq_remove pte s = Ret tt (with_ptable s (<[me := set_clock_hand (set_cq p q)
      (if clock_hand p =? 0 then CLOCKSIZE - 1 else clock_hand p - 1)]> (ptable s))) /\
    length q = Z.to_nat CLOCKSIZE /\
    (forall k, Z.of_nat k < del -> q !! k = cq p !! k) /\
    (forall k, del <= Z.of_nat k < clock_hand p -> q !! k = cq p !! S k) /\
    (forall n, q !! Z.to_nat (clock_hand p) = Some n -> occupied n = false) /\
    (forall k, clock_hand p < Z.of_nat k -> q !! k = cq p !! k).
Proof.
  intros Hc Hp Hl Hf Hd. assert (Hd0 : 0 <= del).
  { apply cq_find_Some in Hf as (n & Hn & _). apply zget_Some in Hn. lia. }
  destruct (cq_shift_spec (Z.to_nat CLOCKSIZE) del (clock_hand p) (cq p)) as (q & E & Hlq & Hq);
    [lia|lia|done|unfold CLOCKSIZE in *; lia|].
  destruct (zget_in q (clock_hand p)) as [n Hn]; [rewrite Hlq; unfold CLOCKSIZE in *; lia|].
  eexists. split.
  { unfold cq_remove, my, get_proc, upd_proc, bind. rewrite Hc, Hp, Hf, E, Hn, Hp. done. }
  rewrite length_insert. split; [done|]. split_and!.
  - intros k Hk. rewrite list_lookup_insert_ne, Hq by lia. case_decide; [lia|done].
  - intros k Hk. rewrite list_lookup_insert_ne, Hq by lia. case_decide; [done|lia].
  - intros n'. rewrite list_lookup_insert_eq by (rewrite Hlq; unfold CLOCKSIZE in *; lia).
    intros; by simplify_eq.
  - intros k Hk. rewrite list_lookup_insert_ne, Hq by lia. case_decide; [lia|done].
Qed.

(** [cq_remove] of an entry above the hand, as there are in every full
    queue whose hand is not at the last slot, runs off the end of [p->cq]: the
    loop index is not reduced modulo [CLOCKSIZE]. *)
Theorem cq_remove_runs_off s me p pte del :
  curproc s = Some me -> ptable s !! me = Some p -> length (cq p) = Z.to_nat CLOCKSIZE ->
  cq_find (fun n => cq_pte n =? pte) (cq p) 0 = Some del ->
  clock_hand p < del ->
  cq_remove pte s = Fault "cq_remove: write outside cq".
Proof.
  intros Hc Hp Hl Hf Hd. unfold cq_remove, my, get_proc, bind. rewrite Hc, Hp, Hf.
  apply cq_find_Some in Hf as (n & Hn & _). apply zget_Some in Hn as [Hr _].
  rewrite cq_shift_oob; [done|unfold CLOCKSIZE in *; lia|lia|done].
Qed.

(** C39. [mdecrypt] does not test [PTE_E]: on a mapped page that is not
    encrypted it still returns 0, and complements every byte of the page.  The
    permissions stay as they are, so an access to a page without [PTE_U] (the
    guard page below the stack) faults again after it was "served". *)
Theorem mdecrypt_of_plaintext_corrupts s me p va :
  cur_ok s me p -> cq_ok (phys s) p -> uaddr va ->
  mapped (pte_of (phys s) (pgdir p) va) = true ->
  has (pte_of (phys s) (pgdir p) va) PTE_E = false ->
  exists s', mdecrypt va s = Ret 0 s' /\
    has (pte_of (phys s') (pgdir p) va) PTE_P = true /\
    has (pte_of (phys s') (pgdir p) va) PTE_U = has (pte_of (phys s) (pgdir p) va) PTE_U /\
    forall x, uaddr x -> x / 4096 = va / 4096 ->
      plain (phys s') (pgdir p) x = 255 - plain (phys s) (pgdir p) x.
Proof.
  intros Hok Hq Hva Hm HE.
  destruct (mdecrypt_served s me p va Hok Hq Hva Hm) as (m1 & s' & p' & E & Hs).
  assert (Hf := sv_flip _ _ _ _ _ _ _ Hs). assert (Hcr := sv_crypt _ _ _ _ _ _ _ Hs).
  exists s'. split; [done|]. split; [rewrite (proj1 (sv_PE _ _ _ _ _ _ _ Hs)); apply Hf|].
  split; [rewrite (cr_U _ _ _ Hcr) by done; apply Hf|]. intros x Hx Ex.
  assert (Epte : forall m, pte_of m (pgdir p) x = pte_of m (pgdir p) va)
    by (intros; apply pte_of_same_page; auto using uaddr_vaddr).
  rewrite (cr_plain _ _ _ Hcr x Hx) by (rewrite Epte; unfold mapped; by rewrite (ft_P _ _ _ _ Hf)).
  unfold plain. rewrite !Epte, HE, (ft_E _ _ _ _ Hf). by apply Hf.
Qed.

End Encryption.

(** ** Witnesses *)

#[local] Existing Instance ex_platform.

Lemma ex_uaddr x : (0 <=? x) && (x <? KERNBASE) = true -> uaddr x.
Proof. unfold uaddr. lia. Qed.

Lemma mencrypt_all_or_nothing_witness :
  (exists m', mencrypt 5 2 ex_state = Ret 0 (switched (with_phys ex_state m') ex_proc)) /\
  mencrypt 5 3 ex_state = Ret (-1) ex_state /\
  mencrypt 0x400000 1 ex_state = Fault "uva2ka: null pte".
Proof.
  split; [|split].
  - destruct (mencrypt_all_or_nothing ex_state 0 ex_proc 5 2 ex_cur_ok) as [H _].
    destruct H as (m' & E & _); [by vm_compute|reflexivity|]. exists m'. exact E.
  - destruct (mencrypt_all_or_nothing ex_state 0 ex_proc 5 3 ex_cur_ok) as [_ H].
    apply (H 2%nat); [by vm_compute|lia|reflexivity|reflexivity].
  - destruct (mencrypt_all_or_nothing ex_state 0 ex_proc 0x400000 1 ex_cur_ok) as [_ H].
    apply (H 0%nat); [by vm_compute|lia|reflexivity|reflexivity].
Defined.

Lemma mdecrypt_serves_witness :
  has (pte_of (phys ex_state) (pgdir ex_proc) 0x1000) PTE_E = true /\
  exists s', mdecrypt 0x1000 ex_state = Ret 0 s'.
Proof.
  split; [reflexivity|].
  destruct (mdecrypt_serves ex_state 0 ex_proc 0x1000 ex_cur_ok ex_cq_ok) as (s' & _ & E & _);
    [by apply ex_uaddr|reflexivity..|]. exists s'. exact E.
Defined.

Lemma encrypt_touch_roundtrip_witness :
  exists s1 s2, mencrypt 12 1 ex_state = Ret 0 s1 /\ touch 12 s1 = Ret tt s2.
Proof.
  destruct (encrypt_touch_roundtrip ex_state 0 ex_proc 12 ex_cur_ok ex_cq_ok)
    as (s1 & s2 & E1 & E2 & _); [by apply ex_uaddr|reflexivity..|]. exists s1, s2. split; [exact E1|exact E2].
Defined.

Lemma ex_wset : wset (phys ex_state) ex_proc.
Proof.
  intros x Hx. change (phys ex_state) with ex_mem. change (pgdir ex_proc) with ex_dir.
  rewrite ex_pte by done. repeat case_decide; try done. intros _ _.
  exists (mk_cq 0 0 ex_table). split; [apply list_elem_of_here|]. split; [done|]. by rewrite H.
Qed.

Lemma plaintext_pages_bounded_witness :
  exists s', touches [0x1000; 0x10; 0x1abc] ex_state = Ret tt s'.
Proof.
  destruct (plaintext_pages_bounded ex_state 0 ex_proc [0x1000; 0x10; 0x1abc]
    ex_cur_ok ex_cq_ok ex_wset) as (s' & _ & E & _); [|exists s'; exact E].
  repeat (apply Forall_cons; split); [split; [by apply ex_uaddr|reflexivity]..|apply Forall_nil_2].
Defined.

Lemma cq_enset_terminates_witness : exists s', cq_enset 0x1000 ex_state = Ret 0 s'.
Proof.
  destruct (cq_enset_terminates ex_state 0 ex_proc 0x1000 ex_cur_ok ex_cq_ok) as (s' & _ & E & _);
    [by apply ex_uaddr|reflexivity|]. exists s'. exact E.
Defined.

Lemma cq_remove_closes_gap_witness : exists s', cq_remove ex_table ex_state = Ret tt s'.
Proof.
  destruct (cq_remove_closes_gap ex_state 0 ex_proc ex_table 0) as (q & E & _);
    [reflexivity..|by vm_compute|]. eexists. exact E.
Defined.

(** A full queue whose hand is at slot 2, in which the page of slot 5 is
    freed. *)
Definition ex_full : kstate :=
  with_ptable ex_state [set_clock_hand (set_cq ex_proc
    ((fun i => mk_cq 0 (4096 * Z.of_nat i) (ex_table + 4 * Z.of_nat i)) <$> seq 0 8)) 2].

Lemma cq_remove_runs_off_witness :
  cq_remove (ex_table + 20) ex_full = Fault "cq_remove: write outside cq".
Proof. eapply (cq_remove_runs_off ex_full 0 _ _ 5); by vm_compute. Defined.

Lemma mdecrypt_of_plaintext_corrupts_witness :
  has (pte_of (phys ex_state) (pgdir ex_proc) 0x2000) PTE_U = false /\
  exists s', mdecrypt 0x2000 ex_state = Ret 0 s'.
Proof.
  split; [reflexivity|].
  destruct (mdecrypt_of_plaintext_corrupts ex_state 0 ex_proc 0x2000 ex_cur_ok ex_cq_ok)
    as (s' & E & _); [by apply ex_uaddr|reflexivity..|]. exists s'. exact E.
Defined.
