(* ===== verification/Clock.v ===== *)
(** * The stand-alone clock (clock.c)

    The user-space model of the eviction policy: a ring buffer of
    [CLOCKSIZE] nodes with a hand, over a small array of page-table entries.
    A [pte_t *] is an index of that array; what the program prints is kept as
    a list of events. *)
From S2P Require Import Prelude Mmu.

Definition CLOCKSIZE : Z := 8.
Definition PTE_P : Z := 0x001.
Definition PTE_A : Z := 0x020.
Definition PTE_E : Z := 0x200.

Record node_t := mk_node { vpn : Z; pte : Z }.

Inductive event :=
| Ref (v : Z)
| Remove (v : Z)
| Enter
| Queue (l : list (Z * bool)).

Record clk := mk_clk {
  clk_queue : list node_t;
  clk_hand : Z;
  pgtable : list Z;
  printed : list event
}.

(** Globals of the program start zeroed, the hand at -1. *)
Definition clk0 (pt : list Z) : clk :=
  mk_clk (replicate (Z.to_nat CLOCKSIZE) (mk_node 0 0)) (-1) pt [].

Definition C := M clk.

Definition set_queue (q : list node_t) : C unit :=
  modify (fun s => mk_clk q (clk_hand s) (pgtable s) (printed s)).
Definition set_hand (h : Z) : C unit :=
  modify (fun s => mk_clk (clk_queue s) h (pgtable s) (printed s)).
Definition print (e : event) : C unit :=
  modify (fun s => mk_clk (clk_queue s) (clk_hand s) (pgtable s) (printed s ++ [e])).

Definition load (a : Z) : C Z :=
  fun s => match zget (pgtable s) a with
           | Some v => Ret v s
           | None => Fault "pte"
           end.
Definition store (a v : Z) : C unit :=
  fun s => match zset (pgtable s) a v with
           | Some pt => Ret tt (mk_clk (clk_queue s) (clk_hand s) pt (printed s))
           | None => Fault "pte"
           end.
Definition slot (i : Z) : C node_t :=
  fun s => match zget (clk_queue s) i with
           | Some n => Ret n s
           | None => Fault "clk_queue"
           end.
Definition set_slot (i : Z) (n : node_t) : C unit :=
  fun s => match zset (clk_queue s) i n with
           | Some q => Ret tt (mk_clk q (clk_hand s) (pgtable s) (printed s))
           | None => Fault "clk_queue"
           end.

(** ** Encryption placeholders *)

Definition mencrypt (v a : Z) : C unit :=
  let* p := load a in
  if has p PTE_E then ret tt
  else
    do* store a (set p PTE_E) in
    let* p := load a in
    store a (clear p PTE_P).

Definition mdecrypt (v a : Z) : C unit :=
  let* p := load a in
  if negb (has p PTE_E) then ret tt
  else
    do* store a (clear p PTE_E) in
    let* p := load a in
    store a (set p PTE_P).

(** ** Queue operations *)

Fixpoint clk_insert_loop (fuel : nat) (v a : Z) : C unit :=
  match fuel with
  | O => fun _ => OutOfFuel
  | S k =>
      let* h := gets clk_hand in
      let h := Z.rem (h + 1) CLOCKSIZE in
      do* set_hand h in
      let* n := slot h in
      if vpn n =? -1 then set_slot h (mk_node v a)
      else
        let* p := load (pte n) in
        if negb (has p PTE_A) then
          do* mencrypt (vpn n) (pte n) in
          set_slot h (mk_node v a)
        else
          do* store (pte n) (clear p PTE_A) in
          clk_insert_loop k v a
  end.

(** The hand meets a slot it can take in its second turn at the latest. *)
Definition clk_insert (v a : Z) : C unit :=
  do* clk_insert_loop (Z.to_nat (CLOCKSIZE + 1)) v a in
  mdecrypt v a.

Fixpoint clk_search (n : nat) (i v : Z) : C Z :=
  match n with
  | O => ret (-1)
  | S k =>
      let* h := gets clk_hand in
      let idx := Z.rem (h + i) CLOCKSIZE in
      let* x := slot idx in
      if vpn x =? v then ret idx else clk_search k (i + 1) v
  end.

Fixpoint clk_shift (fuel : nat) (idx prev_tail : Z) : C unit :=
  if idx =? prev_tail then ret tt
  else match fuel with
       | O => fun _ => OutOfFuel
       | S k =>
           let next_idx := Z.rem (idx + 1) CLOCKSIZE in
           let* n := slot next_idx in
           do* set_slot idx n in
           clk_shift k (Z.rem (idx + 1) CLOCKSIZE) prev_tail
       end.

Definition clk_remove (v : Z) : C unit :=
  let* prev_tail := gets clk_hand in
  let* match_idx := clk_search (Z.to_nat CLOCKSIZE) 0 v in
  if match_idx =? -1 then ret tt
  else
    do* clk_shift (Z.to_nat CLOCKSIZE) match_idx prev_tail in
    let* n := slot prev_tail in
    do* set_slot prev_tail (mk_node (-1) (pte n)) in
    let* h := gets clk_hand in
    set_hand (if h =? 0 then CLOCKSIZE - 1 else h - 1).

Fixpoint clk_clear_loop (n : nat) (i : Z) : C unit :=
  match n with
  | O => ret tt
  | S k =>
      let* x := slot i in
      do* set_slot i (mk_node (-1) (pte x)) in
      clk_clear_loop k (i + 1)
  end.

Definition clk_clear : C unit :=
  do* clk_clear_loop (Z.to_nat CLOCKSIZE) 0 in
  set_hand (-1).

Fixpoint clk_print_loop (n : nat) (print_idx : Z) : C (list (Z * bool)) :=
  match n with
  | O => ret []
  | S k =>
      let print_idx := Z.rem (print_idx + 1) CLOCKSIZE in
      let* x := slot print_idx in
      if negb (vpn x =? -1) then
        let* p := load (pte x) in
        let* l := clk_print_loop k print_idx in
        ret ((vpn x, 0 <? Z.land p PTE_A) :: l)
      else clk_print_loop k print_idx
  end.

Definition clk_print : C unit :=
  let* h := gets clk_hand in
  let* l := clk_print_loop (Z.to_nat CLOCKSIZE) h in
  print (Queue l).

Definition do_ref_page (v a : Z) : C unit :=
  do* print (Ref v) in
  let* p := load a in
  if has p PTE_P then store a (set p PTE_A)
  else
    do* clk_insert v a in
    let* p := load a in
    store a (set p PTE_A).

Definition do_remove_page (v : Z) : C unit :=
  do* print (Remove v) in
  clk_remove v.

Definition wait_for_enter : C unit := print Enter.

Fixpoint refs (l : list Z) : C unit :=
  match l with
  | [] => ret tt
  | v :: l' => do* do_ref_page v v in refs l'
  end.

(** [pte_t pgtable[12] = {0}; for(...) pgtable[i] |= PTE_E;] *)
Definition init_pgtable : C unit :=
  modify (fun s => mk_clk (clk_queue s) (clk_hand s)
    ((fun p => Z.lor p PTE_E) <$> replicate 12 0) (printed s)).

Definition main : C unit :=
  do* init_pgtable in
  do* clk_clear in
  do* refs [0; 3; 1; 2] in do* clk_print in
  do* refs [9; 7; 4; 6] in do* wait_for_enter in do* clk_print in
  do* refs [2] in do* wait_for_enter in do* clk_print in
  do* refs [10] in do* wait_for_enter in do* clk_print in
  do* refs [1; 2; 3] in do* wait_for_enter in do* clk_print in
  do* refs [11] in do* wait_for_enter in do* clk_print in
  do* do_remove_page 10 in do* do_remove_page 11 in do* wait_for_enter in clk_print.
