(* ===== verification/ClockProof.v ===== *)
(** * The clock of clock.c is a second-chance FIFO

    The ring buffer with its hand, seen in head-to-tail order, and what
    [clk_insert] and [clk_remove] do to that order. *)
From S2P Require Import Prelude Mmu Clock.

(** ** The queue in head-to-tail order

    [ring] lists the slots from the one after the hand round to the hand.  In
    this view the program is a plain second-chance FIFO: the head is
    examined, and either goes to the tail or is replaced by the new page at
    the tail. *)

Definition ring (q : list node_t) (h : Z) : list node_t :=
  drop (Z.to_nat (h + 1)) q ++ take (Z.to_nat (h + 1)) q.

Definition occupied (n : node_t) : bool := negb (vpn n =? -1).
Definition referenced (pt : list Z) (n : node_t) : bool :=
  match pt !! Z.to_nat (pte n) with Some p => has p PTE_A | None => false end.
(** The hand takes the slot. *)
Definition takeable (pt : list Z) (n : node_t) : bool :=
  negb (occupied n) || negb (referenced pt n).

Definition clearA (pt : list Z) (n : node_t) : list Z :=
  alter (fun p => clear p PTE_A) (Z.to_nat (pte n)) pt.
Definition enc (p : Z) : Z := if has p PTE_E then p else clear (set p PTE_E) PTE_P.
Definition dec (p : Z) : Z := if has p PTE_E then set (clear p PTE_E) PTE_P else p.
Definition evict (pt : list Z) (n : node_t) : list Z :=
  if occupied n then alter enc (Z.to_nat (pte n)) pt else pt.

(** Entries of occupied slots point into the page table. *)
Definition valid (pt : list Z) (a : Z) : Prop := 0 <= a < Z.of_nat (length pt).
Record clk_ok (s : clk) : Prop := {
  ok_len : length (clk_queue s) = Z.to_nat CLOCKSIZE;
  ok_hand : -1 <= clk_hand s < CLOCKSIZE;
  ok_pte : forall n, n ∈ clk_queue s -> occupied n = true -> valid (pgtable s) (pte n)
}.

Lemma ring_Permutation q h : ring q h ≡ₚ q.
Proof. unfold ring. rewrite Permutation_app_comm. by rewrite take_drop. Qed.

Lemma ring_length q h : length (ring q h) = length q.
Proof. by rewrite ring_Permutation. Qed.

(** Advancing the hand moves the head to the tail. *)
Lemma ring_advance q h x R :
  length q = Z.to_nat CLOCKSIZE -> -1 <= h < CLOCKSIZE -> ring q h = x :: R ->
  let h' := Z.rem (h + 1) CLOCKSIZE in
  0 <= h' < CLOCKSIZE /\ zget q h' = Some x /\ forall y, ring (<[Z.to_nat h' := y]> q) h' = R ++ [y].
Proof.
  intros Hl Hh HR h'. unfold CLOCKSIZE in *. change (Z.to_nat 8) with 8%nat in Hl.
  assert (Hw : 0 <= h' < 8) by (apply Z.rem_bound_pos; lia). split; [done|].
  assert (HR' : drop (Z.to_nat h') q ++ take (Z.to_nat h') q = x :: R).
  { rewrite <- HR. unfold ring. destruct (decide (h = 7)) as [->|Hne].
    - change (Z.to_nat h') with 0%nat. change (Z.to_nat (7 + 1)) with 8%nat.
      by rewrite (drop_ge q 8), (take_ge q 8), drop_0, app_nil_r by lia.
    - unfold h'. rewrite Z.rem_small by lia. done. }
  destruct (lookup_lt_is_Some_2 q (Z.to_nat h')) as [z Hz]; [lia|].
  rewrite (drop_S q z) in HR' by done. cbn in HR'. injection HR' as -> <-.
  split; [unfold zget; by destruct (Z.ltb_spec h' 0); [lia|]|]. intros y. unfold ring.
  replace (Z.to_nat (h' + 1)) with (S (Z.to_nat h')) by lia.
  rewrite drop_insert_lt by lia. rewrite (take_S_r _ _ y).
  - by rewrite take_insert_ge, app_assoc by lia.
  - apply list_lookup_insert_eq. lia.
Qed.

Lemma alter_Some_insert {A} (f : A -> A) (l : list A) i x :
  l !! i = Some x -> alter f i l = <[i := f x]> l.
Proof. intros H. rewrite list_insert_alter. apply list_alter_ext; naive_solver. Qed.

Lemma load_ok s a : valid (pgtable s) a ->
  exists v, pgtable s !! Z.to_nat a = Some v /\ load a s = Ret v s.
Proof.
  intros [H0 H1]. destruct (lookup_lt_is_Some_2 (pgtable s) (Z.to_nat a)) as [v Hv]; [lia|].
  exists v. split; [done|]. unfold load, zget. destruct (Z.ltb_spec a 0); [lia|]. by rewrite Hv.
Qed.

Lemma store_ok s a v : valid (pgtable s) a ->
  store a v s = Ret tt (mk_clk (clk_queue s) (clk_hand s) (<[Z.to_nat a := v]> (pgtable s)) (printed s)).
Proof.
  intros [H0 H1]. unfold store, zset.
  by rewrite (proj2 (Z.leb_le _ _) H0), (proj2 (Z.ltb_lt _ _) H1).
Qed.

Lemma with_id s : mk_clk (clk_queue s) (clk_hand s) (pgtable s) (printed s) = s.
Proof. by destruct s. Qed.

(** [mencrypt] and [mdecrypt] are [enc] and [dec] on the entry. *)
Lemma clk_mencrypt_spec s v a : valid (pgtable s) a ->
  mencrypt v a s = Ret tt (mk_clk (clk_queue s) (clk_hand s) (alter enc (Z.to_nat a) (pgtable s)) (printed s)).
Proof.
  intros Hv. destruct (load_ok s a Hv) as (p & Hp & E). unfold mencrypt.
  rewrite (bind_Ret _ _ _ _ _ E), (alter_Some_insert _ _ _ _ Hp). unfold enc.
  destruct (has p PTE_E).
  - rewrite list_insert_id by done. by rewrite with_id.
  - rewrite (bind_Ret _ _ _ _ _ (store_ok s a _ Hv)).
    set (s1 := mk_clk _ _ _ _). assert (Hv1 : valid (pgtable s1) a)
      by (unfold valid; cbn; by rewrite length_insert).
    destruct (load_ok s1 a Hv1) as (p1 & Hp1 & E1). rewrite (bind_Ret _ _ _ _ _ E1).
    cbn in Hp1. rewrite list_lookup_insert_eq in Hp1 by (unfold valid in Hv; lia). simplify_eq.
    rewrite store_ok by done. cbn. by rewrite list_insert_insert_eq.
Qed.

Lemma mdecrypt_spec s v a : valid (pgtable s) a ->
  mdecrypt v a s = Ret tt (mk_clk (clk_queue s) (clk_hand s) (alter dec (Z.to_nat a) (pgtable s)) (printed s)).
Proof.
  intros Hv. destruct (load_ok s a Hv) as (p & Hp & E). unfold mdecrypt.
  rewrite (bind_Ret _ _ _ _ _ E), (alter_Some_insert _ _ _ _ Hp). unfold dec.
  destruct (has p PTE_E); cbn [negb].
  - rewrite (bind_Ret _ _ _ _ _ (store_ok s a _ Hv)).
    set (s1 := mk_clk _ _ _ _). assert (Hv1 : valid (pgtable s1) a)
      by (unfold valid; cbn; by rewrite length_insert).
    destruct (load_ok s1 a Hv1) as (p1 & Hp1 & E1). rewrite (bind_Ret _ _ _ _ _ E1).
    cbn in Hp1. rewrite list_lookup_insert_eq in Hp1 by (unfold valid in Hv; lia). simplify_eq.
    rewrite store_ok by done. cbn. by rewrite list_insert_insert_eq.
  - rewrite list_insert_id by done. by rewrite with_id.
Qed.

Lemma slot_ok s h n : zget (clk_queue s) h = Some n -> slot h s = Ret n s.
Proof. unfold slot. by intros ->. Qed.

Lemma set_slot_ok s h n : length (clk_queue s) = Z.to_nat CLOCKSIZE -> 0 <= h < CLOCKSIZE ->
  set_slot h n s =
  Ret tt (mk_clk (<[Z.to_nat h := n]> (clk_queue s)) (clk_hand s) (pgtable s) (printed s)).
Proof.
  intros Hl Hh. unfold set_slot, zset. rewrite Hl. unfold CLOCKSIZE in *.
  by rewrite (proj2 (Z.leb_le 0 h)), (proj2 (Z.ltb_lt h _)) by lia.
Qed.

Lemma ring_elem q h n : n ∈ ring q h <-> n ∈ q.
Proof. by rewrite ring_Permutation. Qed.

Section Step.
Context (s : clk) (x : node_t) (R : list node_t) (v a : Z).
Hypothesis Hok : clk_ok s.
Hypothesis HR : ring (clk_queue s) (clk_hand s) = x :: R.
Let h' := Z.rem (clk_hand s + 1) CLOCKSIZE.

Lemma head_valid : occupied x = true -> valid (pgtable s) (pte x).
Proof using Hok HR.
  intros Ho. apply (ok_pte s Hok); [|done]. apply (ring_elem _ (clk_hand s)).
  rewrite HR. apply list_elem_of_here.
Qed.

(** The head has been referenced: it goes to the tail without its bit. *)
Lemma insert_step_clear fuel :
  occupied x = true -> referenced (pgtable s) x = true ->
  let s' := mk_clk (clk_queue s) h' (clearA (pgtable s) x) (printed s) in
  clk_insert_loop (S fuel) v a s = clk_insert_loop fuel v a s' /\
  clk_ok s' /\ ring (clk_queue s') (clk_hand s') = R ++ [x].
Proof using Hok HR.
  intros Ho Hr s'. destruct (ring_advance _ _ _ _ (ok_len s Hok) (ok_hand s Hok) HR) as (Hh & Hx & Hins).
  fold h' in Hh, Hx, Hins. assert (Hv := head_valid Ho). split; [|split].
  - cbn [clk_insert_loop]. unfold gets at 1, set_hand, modify, bind at 1 2. fold h'.
    set (s1 := mk_clk _ _ _ _). rewrite (bind_Ret _ _ s1 x s1) by (by apply slot_ok).
    unfold occupied in Ho. apply negb_true_iff in Ho. rewrite Ho.
    destruct (load_ok s1 (pte x) Hv) as (p & Hp & E). rewrite (bind_Ret _ _ _ _ _ E).
    unfold referenced in Hr. change (pgtable s1) with (pgtable s) in Hp. rewrite Hp in Hr.
    rewrite Hr. cbn [negb]. rewrite (bind_Ret _ _ _ _ _ (store_ok s1 (pte x) _ Hv)).
    unfold s', clearA. by rewrite (alter_Some_insert _ _ _ _ Hp).
  - split; cbn; [apply Hok|lia|]. intros n Hn Hon. unfold valid, clearA.
    rewrite length_alter. by apply (ok_pte s Hok).
  - cbn. rewrite <- (Hins x). apply zget_Some in Hx as [_ Hx]. by rewrite list_insert_id.
Qed.

(** The head's slot is free or its page unreferenced: the new page takes it. *)
Lemma insert_step_take fuel :
  takeable (pgtable s) x = true ->
  exists q, clk_insert_loop (S fuel) v a s = Ret tt (mk_clk q h' (evict (pgtable s) x) (printed s)) /\
    ring q h' = R ++ [mk_node v a] /\ length q = Z.to_nat CLOCKSIZE /\ 0 <= h' < CLOCKSIZE.
Proof using Hok HR.
  intros Ht. destruct (ring_advance _ _ _ _ (ok_len s Hok) (ok_hand s Hok) HR) as (Hh & Hx & Hins).
  fold h' in Hh, Hx, Hins. exists (<[Z.to_nat h' := mk_node v a]> (clk_queue s)).
  split; [|split; [apply Hins|split; [rewrite length_insert; apply Hok|done]]].
  cbn [clk_insert_loop]. unfold gets at 1, set_hand, modify, bind at 1 2. fold h'.
  set (s1 := mk_clk _ _ _ _). rewrite (bind_Ret _ _ s1 x s1) by (by apply slot_ok).
  unfold takeable, evict in *. destruct (occupied x) eqn:Ho; unfold occupied in Ho.
  - apply negb_true_iff in Ho as Ho'. rewrite Ho'. assert (Hv := head_valid Ho).
    destruct (load_ok s1 (pte x) Hv) as (p & Hp & E). rewrite (bind_Ret _ _ _ _ _ E).
    cbn in Ht. unfold referenced in Ht. change (pgtable s1) with (pgtable s) in Hp.
    rewrite Hp in Ht. rewrite Ht, (bind_Ret _ _ _ _ _ (clk_mencrypt_spec s1 (vpn x) _ Hv)).
    by rewrite set_slot_ok by (done || apply Hok).
  - apply negb_false_iff in Ho. rewrite Ho. by rewrite set_slot_ok by (done || apply Hok).
Qed.
End Step.

(** ** Clearing bits *)

Lemma has_clear_same p b : has (clear p b) b = false.
Proof.
  unfold has, clear. rewrite <- Z.land_assoc, (Z.land_comm (Z.lnot b)), Z.land_lnot_diag, Z.land_0_r. done.
Qed.

Lemma referenced_clear_ne pt x y :
  0 <= pte x -> 0 <= pte y -> pte x <> pte y -> referenced (clearA pt y) x = referenced pt x.
Proof. intros. unfold referenced, clearA. by rewrite list_lookup_alter_ne by lia. Qed.

Lemma referenced_clear_eq pt x y : pte x = pte y -> referenced (clearA pt y) x = false.
Proof.
  intros E. unfold referenced, clearA. rewrite E, list_lookup_alter_eq.
  destruct (pt !! _); [apply has_clear_same|done].
Qed.

Lemma referenced_clear_le pt x y : referenced pt x = false -> referenced (clearA pt y) x = false.
Proof.
  intros H. unfold referenced, clearA in *. destruct (decide (Z.to_nat (pte x) = Z.to_nat (pte y))) as [E|].
  - rewrite E, list_lookup_alter_eq. destruct (pt !! Z.to_nat (pte y)); [apply has_clear_same|done].
  - by rewrite list_lookup_alter_ne.
Qed.

Lemma referenced_fold_le A x : forall pt, referenced pt x = false -> referenced (foldl clearA pt A) x = false.
Proof. induction A as [|y A IH]; intros pt H; [done|]. cbn. by apply IH, referenced_clear_le. Qed.

Lemma referenced_fold_in A x : forall pt, x ∈ A -> referenced (foldl clearA pt A) x = false.
Proof.
  induction A as [|y A IH]; intros pt H; [by apply elem_of_nil in H|].
  apply elem_of_cons in H as [->|H]; cbn; [|by apply IH].
  by apply referenced_fold_le, referenced_clear_eq.
Qed.

Lemma takeable_fold A x pt : takeable pt x = true -> takeable (foldl clearA pt A) x = true.
Proof.
  unfold takeable. destruct (occupied x); [|done]. cbn. rewrite !negb_true_iff.
  apply referenced_fold_le.
Qed.

(** Referenced pages at the head go round to the tail, in order. *)
Lemma insert_rotate A : forall B s fuel v a,
  clk_ok s -> ring (clk_queue s) (clk_hand s) = A ++ B ->
  Forall (fun n => occupied n = true /\ referenced (pgtable s) n = true) A -> NoDup (pte <$> A) ->
  exists s', clk_insert_loop (length A + fuel) v a s = clk_insert_loop fuel v a s' /\
    clk_ok s' /\ ring (clk_queue s') (clk_hand s') = B ++ A /\
    pgtable s' = foldl clearA (pgtable s) A /\ printed s' = printed s.
Proof.
  induction A as [|y A IH]; intros B s fuel v a Hok HR Hall Hnd.
  - exists s. by rewrite app_nil_r.
  - apply Forall_cons in Hall as [[Hoy Hry] Hall]. cbn in Hnd. apply NoDup_cons in Hnd as [Hny Hnd].
    destruct (insert_step_clear s y (A ++ B) v a Hok HR (length A + fuel) Hoy Hry) as (E & Hok1 & HR1).
    cbn [length plus]. rewrite E. set (s1 := mk_clk _ _ _ _) in *.
    assert (Hval : forall n, n ∈ y :: A ++ B -> occupied n = true -> 0 <= pte n).
    { intros n Hn Ho. assert (Hn' : n ∈ clk_queue s) by (apply (ring_elem _ (clk_hand s)); rewrite HR; done).
      apply (ok_pte s Hok n Hn' Ho). }
    destruct (IH (B ++ [y]) s1 fuel v a Hok1) as (s' & E' & Hok' & HR' & Hpt & Hpr).
    + by rewrite HR1, app_assoc.
    + apply Forall_forall. intros n Hn. rewrite Forall_forall in Hall. destruct (Hall n Hn) as [Ho Hr].
      split; [done|]. cbn. rewrite referenced_clear_ne; [done| | |].
      * apply Hval; [|done]. apply elem_of_cons. right. apply elem_of_app. by left.
      * apply Hval; [apply list_elem_of_here|done].
      * intros En. apply Hny. rewrite <- En. by apply (list_elem_of_fmap_2 pte).
    + done.
    + exists s'. rewrite E'. split; [done|]. split; [done|]. rewrite HR', <- app_assoc. done.
Qed.

(** The two ways [clk_insert_loop] ends: at the first slot it can take, or,
    when every page has been referenced, at the slot it started from. *)
Lemma insert_loop_spec s A x B v a :
  clk_ok s -> ring (clk_queue s) (clk_hand s) = A ++ x :: B ->
  Forall (fun n => occupied n = true /\ referenced (pgtable s) n = true) A -> NoDup (pte <$> A) ->
  takeable (foldl clearA (pgtable s) A) x = true ->
  exists q h, clk_insert_loop (Z.to_nat (CLOCKSIZE + 1)) v a s =
      Ret tt (mk_clk q h (evict (foldl clearA (pgtable s) A) x) (printed s)) /\
    ring q h = B ++ A ++ [mk_node v a] /\ length q = Z.to_nat CLOCKSIZE /\ 0 <= h < CLOCKSIZE.
Proof.
  intros Hok HR Hall Hnd Ht. assert (HlA : (length A < 8)%nat).
  { pose proof (ring_length (clk_queue s) (clk_hand s)) as Hl. rewrite HR, (ok_len s Hok), length_app in Hl.
    cbn in Hl. change (Z.to_nat CLOCKSIZE) with 8%nat in Hl. lia. }
  destruct (insert_rotate A (x :: B) s (S (8 - length A)) v a Hok HR Hall Hnd)
    as (s' & E & Hok' & HR' & Hpt & Hpr).
  change (Z.to_nat (CLOCKSIZE + 1)) with 9%nat.
  replace 9%nat with (length A + S (8 - length A))%nat by lia. rewrite E.
  destruct (insert_step_take s' x (B ++ A) v a Hok' HR' (8 - length A)) as (q & E' & Hq & Hl & Hh);
    [by rewrite Hpt|].
  exists q. eexists. rewrite E', Hpt, Hpr. split; [done|]. split; [|done]. by rewrite Hq, <- app_assoc.
Qed.

Lemma insert_loop_full s x R v a :
  clk_ok s -> ring (clk_queue s) (clk_hand s) = x :: R ->
  Forall (fun n => occupied n = true /\ referenced (pgtable s) n = true) (x :: R) ->
  NoDup (pte <$> x :: R) ->
  exists q h, clk_insert_loop (Z.to_nat (CLOCKSIZE + 1)) v a s =
      Ret tt (mk_clk q h (evict (foldl clearA (pgtable s) (x :: R)) x) (printed s)) /\
    ring q h = R ++ [mk_node v a] /\ length q = Z.to_nat CLOCKSIZE /\ 0 <= h < CLOCKSIZE.
Proof.
  intros Hok HR Hall Hnd.
  pose proof (ring_length (clk_queue s) (clk_hand s)) as Hl. rewrite HR, (ok_len s Hok) in Hl.
  destruct (insert_rotate (x :: R) [] s 1 v a Hok ltac:(by rewrite app_nil_r) Hall Hnd)
    as (s' & E & Hok' & HR' & Hpt & Hpr).
  rewrite Hl in E. change (Z.to_nat CLOCKSIZE + 1)%nat with (Z.to_nat (CLOCKSIZE + 1)) in E.
  destruct (insert_step_take s' x R v a Hok' HR' 0) as (q & E' & Hq & Hlq & Hh).
  { unfold takeable. rewrite Hpt, referenced_fold_in; [by rewrite orb_true_r|apply list_elem_of_here]. }
  exists q. eexists. by rewrite E, E', Hpt, Hpr.
Qed.

(** ** Removal *)

(** Slot [idx] is position [pos] of the ring. *)
Lemma ring_lookup q h pos :
  length q = Z.to_nat CLOCKSIZE -> -1 <= h < CLOCKSIZE -> 0 <= pos < CLOCKSIZE ->
  ring q h !! Z.to_nat pos = q !! Z.to_nat (Z.rem (h + 1 + pos) CLOCKSIZE).
Proof.
  intros Hl Hh Hp. unfold ring, CLOCKSIZE in *. change (Z.to_nat 8) with 8%nat in Hl.
  destruct (Z_lt_ge_dec (h + 1 + pos) 8).
  - rewrite Z.rem_small by lia. rewrite lookup_app_l by (rewrite length_drop; lia).
    rewrite lookup_drop. f_equal. lia.
  - replace (Z.rem (h + 1 + pos) 8) with (h + 1 + pos - 8).
    2:{ rewrite Z.rem_mod_nonneg by lia. apply (Z.mod_unique _ _ 1); lia. }
    rewrite lookup_app_r by (rewrite length_drop; lia). rewrite length_drop, Hl.
    rewrite lookup_take_lt by lia. f_equal. lia.
Qed.

Lemma ring_insert q h pos x :
  length q = Z.to_nat CLOCKSIZE -> -1 <= h < CLOCKSIZE -> 0 <= pos < CLOCKSIZE ->
  ring (<[Z.to_nat (Z.rem (h + 1 + pos) CLOCKSIZE) := x]> q) h = <[Z.to_nat pos := x]> (ring q h).
Proof.
  intros Hl Hh Hp. unfold ring, CLOCKSIZE in *. change (Z.to_nat 8) with 8%nat in Hl.
  destruct (Z_lt_ge_dec (h + 1 + pos) 8).
  - rewrite Z.rem_small by lia. rewrite insert_app_l by (rewrite length_drop; lia).
    rewrite drop_insert_ge, take_insert_ge by lia. do 2 f_equal. lia.
  - replace (Z.rem (h + 1 + pos) 8) with (h + 1 + pos - 8).
    2:{ rewrite Z.rem_mod_nonneg by lia. apply (Z.mod_unique _ _ 1); lia. }
    rewrite drop_insert_lt, take_insert_lt by lia.
    replace (Z.to_nat pos) with (length (drop (Z.to_nat (h + 1)) q) + Z.to_nat (h + 1 + pos - 8))%nat
      by (rewrite length_drop; lia).
    by rewrite insert_app_r.
Qed.

Lemma ring_retreat q h R z :
  length q = Z.to_nat CLOCKSIZE -> 0 <= h < CLOCKSIZE -> ring q h = R ++ [z] ->
  ring q (if h =? 0 then CLOCKSIZE - 1 else h - 1) = z :: R.
Proof.
  intros Hl Hh HR. set (h' := if h =? 0 then _ else _).
  assert (Hh' : 0 <= h' < CLOCKSIZE /\ Z.rem (h' + 1) CLOCKSIZE = h).
  { unfold h', CLOCKSIZE in *. destruct (Z.eqb_spec h 0) as [->|]; [done|].
    rewrite Z.rem_small; lia. }
  destruct Hh' as [Hh' Erem].
  destruct (ring q h') as [|x R'] eqn:E.
  { pose proof (ring_length q h') as H. rewrite E, Hl in H. done. }
  destruct (ring_advance q h' x R' Hl ltac:(lia) E) as (_ & Hx & Hins). rewrite Erem in Hx, Hins.
  apply zget_Some in Hx as [_ Hx]. specialize (Hins x). rewrite list_insert_id, HR in Hins by done.
  apply app_inj_tail in Hins as [-> ->]. done.
Qed.

Lemma rem_tail h pos : 0 <= h < CLOCKSIZE -> 0 <= pos < CLOCKSIZE ->
  Z.rem (h + 1 + pos) CLOCKSIZE = h <-> pos = CLOCKSIZE - 1.
Proof.
  unfold CLOCKSIZE. intros Hh Hp. rewrite Z.rem_mod_nonneg by lia.
  destruct (Z_lt_ge_dec (h + 1 + pos) 8).
  - rewrite Z.mod_small by lia. lia.
  - rewrite <- (Z.mod_unique (h + 1 + pos) 8 1 (h + 1 + pos - 8)) by lia. lia.
Qed.

Lemma rem_next h pos : 0 <= h -> 0 <= pos ->
  Z.rem (Z.rem (h + 1 + pos) CLOCKSIZE + 1) CLOCKSIZE = Z.rem (h + 1 + (pos + 1)) CLOCKSIZE.
Proof.
  unfold CLOCKSIZE. intros Hh Hp. rewrite !Z.rem_mod_nonneg; try lia.
  - rewrite Z.add_mod_idemp_l by lia. f_equal. lia.
  - pose proof (Z.mod_pos_bound (h + 1 + pos) 8). rewrite Z.rem_mod_nonneg by lia. lia.
Qed.

Lemma zget_rem (q : list node_t) i : length q = Z.to_nat CLOCKSIZE -> 0 <= i ->
  zget q (Z.rem i CLOCKSIZE) = q !! Z.to_nat (Z.rem i CLOCKSIZE).
Proof.
  intros Hl Hi. unfold zget. pose proof (Z.rem_bound_pos i CLOCKSIZE).
  unfold CLOCKSIZE in *. destruct (Z.ltb_spec (Z.rem i 8) 0); [lia|done].
Qed.

Lemma clk_shift_spec B : forall A x fuel s,
  length (clk_queue s) = Z.to_nat CLOCKSIZE -> 0 <= clk_hand s < CLOCKSIZE ->
  ring (clk_queue s) (clk_hand s) = A ++ x :: B -> (length B <= fuel)%nat ->
  exists q z, clk_shift fuel (Z.rem (clk_hand s + 1 + Z.of_nat (length A)) CLOCKSIZE) (clk_hand s) s =
      Ret tt (mk_clk q (clk_hand s) (pgtable s) (printed s)) /\
    length q = Z.to_nat CLOCKSIZE /\ ring q (clk_hand s) = A ++ B ++ [z].
Proof.
  induction B as [|y B IH]; intros A x fuel s Hl Hh HR Hf;
    pose proof (ring_length (clk_queue s) (clk_hand s)) as Hlen;
    rewrite HR, Hl, length_app in Hlen; cbn [length] in Hlen; change (Z.to_nat CLOCKSIZE) with 8%nat in Hlen.
  - rewrite (proj2 (rem_tail (clk_hand s) (Z.of_nat (length A)) Hh ltac:(unfold CLOCKSIZE; lia)))
      by (unfold CLOCKSIZE; lia).
    exists (clk_queue s), x. split; [|done]. destruct fuel; cbn; by rewrite Z.eqb_refl, with_id.
  - set (pos := Z.of_nat (length A)). destruct fuel as [|fuel]; [cbn in Hf; lia|]. cbn [clk_shift].
    destruct (Z.eqb_spec (Z.rem (clk_hand s + 1 + pos) CLOCKSIZE) (clk_hand s)) as [E|_].
    { apply rem_tail in E; unfold pos, CLOCKSIZE in *; lia. }
    rewrite rem_next by lia.
    assert (Hy : zget (clk_queue s) (Z.rem (clk_hand s + 1 + (pos + 1)) CLOCKSIZE) = Some y).
    { rewrite zget_rem by (done || lia). rewrite <- ring_lookup by (unfold pos, CLOCKSIZE in *; lia || done).
      rewrite HR, lookup_app_r by (unfold pos; lia).
      replace (Z.to_nat (pos + 1) - length A)%nat with 1%nat by (unfold pos; lia). done. }
    rewrite (bind_Ret _ _ s y s) by (by apply slot_ok).
    assert (Hb : 0 <= Z.rem (clk_hand s + 1 + pos) CLOCKSIZE < CLOCKSIZE)
      by (apply Z.rem_bound_pos; unfold pos, CLOCKSIZE in *; lia).
    rewrite (bind_Ret _ _ _ _ _ (set_slot_ok s _ y Hl Hb)).
    set (s1 := mk_clk _ _ _ _).
    destruct (IH (A ++ [y]) y fuel s1) as (q & z & E & Hlq & HRq).
    + cbn. by rewrite length_insert.
    + done.
    + cbn. rewrite ring_insert by (unfold CLOCKSIZE in *; lia || done). rewrite HR.
      replace (Z.to_nat pos) with (length A + 0)%nat by (unfold pos; lia). rewrite insert_app_r. cbn. by rewrite <- app_assoc.
    + cbn in Hf. lia.
    + exists q, z. rewrite length_app in E. cbn [length clk_hand s1 pgtable printed] in E.
      replace (Z.of_nat (length A + 1)) with (pos + 1) in E by (unfold pos; lia). rewrite E. split; [done|].
      split; [done|]. cbn in HRq. by rewrite HRq, <- app_assoc.
Qed.

Lemma clk_search_hit n : forall i s v t,
  (forall j, i <= j < i + Z.of_nat n -> exists y,
     zget (clk_queue s) (Z.rem (clk_hand s + j) CLOCKSIZE) = Some y /\
     (vpn y = v <-> Z.rem (clk_hand s + j) CLOCKSIZE = t)) ->
  (exists j, i <= j < i + Z.of_nat n /\ Z.rem (clk_hand s + j) CLOCKSIZE = t) ->
  clk_search n i v s = Ret t s.
Proof.
  induction n as [|n IH]; intros i s v t Hall (j & Hj & Ej); [lia|].
  cbn [clk_search]. unfold gets at 1, bind at 1.
  destruct (Hall i) as (y & Hy & Hiff); [lia|]. rewrite (bind_Ret _ _ s y s) by (by apply slot_ok).
  destruct (Z.eqb_spec (vpn y) v) as [Ev|Hv].
  - unfold ret. f_equal. by apply Hiff.
  - apply IH; [intros; apply Hall; lia|]. exists j. split; [|done].
    destruct (decide (i = j)) as [->|]; [|lia]. exfalso. by apply Hv, Hiff.
Qed.

Lemma clk_search_miss n : forall i s v,
  (forall j, i <= j < i + Z.of_nat n -> exists y,
     zget (clk_queue s) (Z.rem (clk_hand s + j) CLOCKSIZE) = Some y /\ vpn y <> v) ->
  clk_search n i v s = Ret (-1) s.
Proof.
  induction n as [|n IH]; intros i s v Hall; [done|].
  cbn [clk_search]. unfold gets at 1, bind at 1.
  destruct (Hall i) as (y & Hy & Hv); [lia|]. rewrite (bind_Ret _ _ s y s) by (by apply slot_ok).
  rewrite (proj2 (Z.eqb_neq _ _) Hv). apply IH. intros; apply Hall; lia.
Qed.

(** The slot the search looks at in step [j]. *)
Lemma search_slot q h j :
  length q = Z.to_nat CLOCKSIZE -> 0 <= h < CLOCKSIZE -> 0 <= j < CLOCKSIZE ->
  exists y pos, zget q (Z.rem (h + j) CLOCKSIZE) = Some y /\ 0 <= pos < CLOCKSIZE /\
    ring q h !! Z.to_nat pos = Some y /\ Z.rem (h + j) CLOCKSIZE = Z.rem (h + 1 + pos) CLOCKSIZE.
Proof.
  intros Hl Hh Hj. set (pos := if j =? 0 then 7 else j - 1).
  assert (Hpos : 0 <= pos < CLOCKSIZE) by (unfold pos, CLOCKSIZE in *; destruct (Z.eqb_spec j 0); lia).
  assert (E : Z.rem (h + j) CLOCKSIZE = Z.rem (h + 1 + pos) CLOCKSIZE).
  { unfold pos, CLOCKSIZE in *. destruct (Z.eqb_spec j 0) as [->|]; [|f_equal; lia].
    rewrite !Z.rem_mod_nonneg by lia. replace (h + 1 + 7) with (h + 0 + 1 * 8) by lia.
    by rewrite Z.mod_add by lia. }
  assert (Hb : 0 <= Z.rem (h + j) CLOCKSIZE < CLOCKSIZE)
    by (apply Z.rem_bound_pos; unfold CLOCKSIZE in *; lia).
  destruct (lookup_lt_is_Some_2 q (Z.to_nat (Z.rem (h + j) CLOCKSIZE))) as [y Hy].
  { rewrite Hl. unfold CLOCKSIZE in *. lia. }
  exists y, pos. split; [by rewrite zget_rem by (done || lia)|]. split; [done|]. split; [|done].
  by rewrite ring_lookup, <- E by (done || lia).
Qed.

Lemma rem_search h pos : 0 <= h < CLOCKSIZE -> 0 <= pos < CLOCKSIZE ->
  exists j, 0 <= j < CLOCKSIZE /\ Z.rem (h + j) CLOCKSIZE = Z.rem (h + 1 + pos) CLOCKSIZE.
Proof.
  unfold CLOCKSIZE. intros Hh Hp. destruct (decide (pos = 7)) as [->|].
  - exists 0. split; [lia|]. rewrite !Z.rem_mod_nonneg by lia.
    replace (h + 1 + 7) with (h + 0 + 1 * 8) by lia. by rewrite Z.mod_add by lia.
  - exists (pos + 1). split; [lia|]. f_equal. lia.
Qed.

Lemma clk_search_found s A x B v :
  length (clk_queue s) = Z.to_nat CLOCKSIZE -> 0 <= clk_hand s < CLOCKSIZE ->
  ring (clk_queue s) (clk_hand s) = A ++ x :: B -> vpn x = v ->
  Forall (fun n => vpn n <> v) (A ++ B) ->
  clk_search (Z.to_nat CLOCKSIZE) 0 v s =
  Ret (Z.rem (clk_hand s + 1 + Z.of_nat (length A)) CLOCKSIZE) s.
Proof.
  intros Hl Hh HR Hx Hne. rewrite Forall_forall in Hne. setoid_rewrite elem_of_app in Hne.
  assert (HlA : Z.of_nat (length A) < CLOCKSIZE).
  { pose proof (ring_length (clk_queue s) (clk_hand s)) as H. rewrite HR, Hl, length_app in H.
    cbn in H. unfold CLOCKSIZE in *. lia. }
  apply clk_search_hit.
  - intros j Hj. destruct (search_slot (clk_queue s) (clk_hand s) j Hl Hh) as (y & pos & Hy & Hpos & Hr & E).
    { unfold CLOCKSIZE in *. lia. }
    exists y. split; [done|]. rewrite E. split.
    + intros Ev. do 2 f_equal. destruct (Z.eq_dec pos (Z.of_nat (length A))) as [->|Hnp]; [done|].
      exfalso. rewrite HR in Hr. destruct (Z_lt_ge_dec pos (Z.of_nat (length A))).
      * rewrite lookup_app_l in Hr by lia. apply (Hne y); [|done]. left. by eapply list_elem_of_lookup_2.
      * rewrite lookup_app_r in Hr by lia. replace (Z.to_nat pos - length A)%nat with
          (S (Z.to_nat pos - length A - 1))%nat in Hr by lia. cbn in Hr.
        apply (Hne y); [|done]. right. by eapply list_elem_of_lookup_2.
    + intros Et. rewrite E, Et, zget_rem in Hy by (done || lia).
      rewrite <- ring_lookup in Hy by (done || lia). rewrite HR, Nat2Z.id, lookup_app_r in Hy by lia.
      rewrite Nat.sub_diag in Hy. cbn in Hy. by simplify_eq.
  - destruct (rem_search (clk_hand s) (Z.of_nat (length A)) Hh ltac:(lia)) as (j & Hj & E).
    exists j. split; [unfold CLOCKSIZE in *; lia|done].
Qed.

(** ** The policy *)

(** The head-to-tail order split at the first slot the hand takes. *)
Fixpoint first_takeable (pt : list Z) (R : list node_t) : option (list node_t * node_t * list node_t) :=
  match R with
  | [] => None
  | x :: R' =>
      if takeable pt x then Some ([], x, R')
      else match first_takeable pt R' with
           | Some (A, y, B) => Some (x :: A, y, B)
           | None => None
           end
  end.

(** Second chance: the referenced pages before the victim lose their bit and
    go to the tail, the victim is evicted, and the new page is the new tail.
    If all have been referenced, all lose their bit and the head is evicted. *)
Definition second_chance (pt : list Z) (R : list node_t) (new : node_t) : list node_t * list Z :=
  match first_takeable pt R with
  | Some (A, x, B) => (B ++ A ++ [new], evict (foldl clearA pt A) x)
  | None => match R with
            | [] => ([], pt)
            | x :: R' => (R' ++ [new], evict (foldl clearA pt R) x)
            end
  end.

Definition occ (l : list node_t) : list node_t := filter (fun n => occupied n = true) l.

Lemma not_takeable pt x : takeable pt x = false -> occupied x = true /\ referenced pt x = true.
Proof. unfold takeable. by destruct (occupied x), (referenced pt x). Qed.

Lemma first_takeable_Some pt R : forall A x B,
  first_takeable pt R = Some (A, x, B) ->
  R = A ++ x :: B /\ takeable pt x = true /\
  Forall (fun n => occupied n = true /\ referenced pt n = true) A.
Proof.
  induction R as [|y R IH]; intros A x B H; [done|]. cbn in H.
  destruct (takeable pt y) eqn:Ey; [by simplify_eq|].
  destruct (first_takeable pt R) as [[[A' x'] B']|]; [|done]. simplify_eq.
  destruct (IH A' x B eq_refl) as (-> & Hx & HA). split; [done|]. split; [done|].
  apply Forall_cons. split; [by apply not_takeable|done].
Qed.

Lemma first_takeable_None pt R :
  first_takeable pt R = None -> Forall (fun n => occupied n = true /\ referenced pt n = true) R.
Proof.
  induction R as [|y R IH]; intros H; [by apply Forall_nil|]. cbn in H.
  destruct (takeable pt y) eqn:Ey; [done|]. apply Forall_cons. split; [by apply not_takeable|].
  apply IH. by destruct (first_takeable pt R) as [[[]]|].
Qed.

Lemma occ_all A : Forall (fun n => occupied n = true) A -> occ A = A.
Proof.
  induction 1 as [|n A Hn _ IH]; [done|]. unfold occ in *. rewrite filter_cons_True by done. by f_equal.
Qed.

Lemma occ_app A B : occ (A ++ B) = occ A ++ occ B.
Proof. apply filter_app. Qed.

Lemma occ_ring q h : occ (ring q h) ≡ₚ occ q.
Proof. unfold occ. by rewrite ring_Permutation. Qed.

Lemma occ_elem n l : n ∈ occ l <-> occupied n = true /\ n ∈ l.
Proof. unfold occ. by rewrite list_elem_of_filter. Qed.

Lemma occ_Forall (P : node_t -> Prop) A :
  Forall (fun n => occupied n = true /\ P n) A -> occ A = A.
Proof. intros H. apply occ_all. eapply Forall_impl; [exact H|]. by intros n [? _]. Qed.

(** No entry is queued twice. *)
Definition distinct (s : clk) : Prop := NoDup (pte <$> occ (clk_queue s)).

Lemma insert_loop_second_chance s v a :
  clk_ok s -> distinct s ->
  exists q h, clk_insert_loop (Z.to_nat (CLOCKSIZE + 1)) v a s =
      Ret tt (mk_clk q h (second_chance (pgtable s) (ring (clk_queue s) (clk_hand s)) (mk_node v a)).2 (printed s)) /\
    ring q h = (second_chance (pgtable s) (ring (clk_queue s) (clk_hand s)) (mk_node v a)).1 /\
    length q = Z.to_nat CLOCKSIZE /\ 0 <= h < CLOCKSIZE.
Proof.
  intros Hok Hd. unfold distinct in Hd. rewrite <- (occ_ring _ (clk_hand s)) in Hd.
  unfold second_chance. destruct (first_takeable _ _) as [[[A x] B]|] eqn:Ef.
  - apply first_takeable_Some in Ef as (HR & Hx & HA).
    rewrite HR, occ_app, (occ_Forall _ _ HA), fmap_app in Hd. apply NoDup_app in Hd as (Hd & _).
    destruct (insert_loop_spec s A x B v a Hok HR HA Hd) as (q & h & H); [by apply takeable_fold|].
    by exists q, h.
  - apply first_takeable_None in Ef.
    destruct (ring (clk_queue s) (clk_hand s)) as [|x R] eqn:HR.
    { pose proof (ring_length (clk_queue s) (clk_hand s)) as H. by rewrite HR, (ok_len s Hok) in H. }
    rewrite (occ_Forall _ _ Ef) in Hd. exact (insert_loop_full s x R v a Hok HR Ef Hd).
Qed.

Lemma length_clear_fold A : forall pt, length (foldl clearA pt A) = length pt.
Proof. induction A as [|x A IH]; intros pt; [done|]. cbn. rewrite IH. apply length_alter. Qed.

Lemma length_evict pt x : length (evict pt x) = length pt.
Proof. unfold evict. case_match; [apply length_alter|done]. Qed.

Lemma second_chance_length pt R new : length (second_chance pt R new).2 = length pt.
Proof.
  unfold second_chance. destruct (first_takeable _ _) as [[[A x] B]|].
  - cbn. by rewrite length_evict, length_clear_fold.
  - destruct R; [done|]. cbn [snd]. by rewrite length_evict, length_clear_fold.
Qed.

Lemma clk_insert_spec s v a :
  clk_ok s -> distinct s -> valid (pgtable s) a ->
  let sc := second_chance (pgtable s) (ring (clk_queue s) (clk_hand s)) (mk_node v a) in
  exists q h, clk_insert v a s = Ret tt (mk_clk q h (alter dec (Z.to_nat a) sc.2) (printed s)) /\
    ring q h = sc.1 /\ length q = Z.to_nat CLOCKSIZE /\ 0 <= h < CLOCKSIZE.
Proof.
  intros Hok Hd Ha sc. destruct (insert_loop_second_chance s v a Hok Hd) as (q & h & E & HR & Hl & Hh).
  exists q, h. split; [|done]. unfold clk_insert. rewrite (bind_Ret _ _ _ _ _ E).
  rewrite mdecrypt_spec; [done|]. unfold valid. cbn [pgtable]. by rewrite second_chance_length.
Qed.

Lemma clk_remove_spec s A x B :
  length (clk_queue s) = Z.to_nat CLOCKSIZE -> 0 <= clk_hand s < CLOCKSIZE ->
  ring (clk_queue s) (clk_hand s) = A ++ x :: B ->
  Forall (fun n => vpn n <> vpn x) (A ++ B) ->
  exists q h z, clk_remove (vpn x) s = Ret tt (mk_clk q h (pgtable s) (printed s)) /\
    ring q h = mk_node (-1) z :: A ++ B /\ length q = Z.to_nat CLOCKSIZE /\ 0 <= h < CLOCKSIZE.
Proof.
  intros Hl Hh HR Hne. unfold clk_remove, gets at 1, bind at 1.
  rewrite (bind_Ret _ _ _ _ _ (clk_search_found s A x B (vpn x) Hl Hh HR eq_refl Hne)).
  set (idx := Z.rem _ _).
  assert (Hi : 0 <= idx) by (apply Z.rem_nonneg; unfold CLOCKSIZE in *; lia).
  destruct (Z.eqb_spec idx (-1)); [lia|].
  pose proof (ring_length (clk_queue s) (clk_hand s)) as Hlen. rewrite HR, Hl, length_app in Hlen.
  cbn [length] in Hlen.
  destruct (clk_shift_spec B A x (Z.to_nat CLOCKSIZE) s Hl Hh HR) as (q & z & E & Hlq & HRq); [lia|].
  rewrite (bind_Ret _ _ _ _ _ E). set (s1 := mk_clk _ _ _ _).
  destruct (lookup_lt_is_Some_2 q (Z.to_nat (clk_hand s))) as [n' Hn'].
  { rewrite Hlq. unfold CLOCKSIZE in *. lia. }
  rewrite (bind_Ret _ _ s1 n' s1).
  2:{ apply slot_ok. unfold zget. destruct (Z.ltb_spec (clk_hand s) 0); [lia|done]. }
  rewrite (bind_Ret _ _ _ _ _ (set_slot_ok s1 (clk_hand s) _ Hlq Hh)). unfold gets, bind at 1.
  cbn [clk_hand s1 clk_queue pgtable printed].
  set (q' := <[Z.to_nat (clk_hand s) := mk_node (-1) (pte n')]> q).
  set (h' := if clk_hand s =? 0 then _ else _).
  assert (Hh' : 0 <= h' < CLOCKSIZE).
  { unfold h', CLOCKSIZE in *. destruct (Z.eqb_spec (clk_hand s) 0); lia. }
  assert (Hlq' : length q' = Z.to_nat CLOCKSIZE) by (unfold q'; by rewrite length_insert).
  exists q', h', (pte n'). split; [done|]. split; [|done].
  apply ring_retreat; [done|done|]. unfold q'.
  assert (E7 : clk_hand s = Z.rem (clk_hand s + 1 + 7) CLOCKSIZE).
  { symmetry. apply rem_tail; unfold CLOCKSIZE in *; lia. }
  rewrite E7 at 1. rewrite ring_insert, HRq by (unfold CLOCKSIZE in *; lia || done).
  change (Z.to_nat CLOCKSIZE) with 8%nat in Hlen.
  change (Z.to_nat 7) with 7%nat. rewrite app_assoc.
  replace 7%nat with (length (A ++ B) + 0)%nat by (rewrite length_app; lia).
  by rewrite insert_app_r.
Qed.

(** ** The invariant of every run *)

(** Presence and encryption of entry [i]. *)
Definition pe (pt : list Z) (i : nat) : option (bool * bool) :=
  (fun p => (has p PTE_P, has p PTE_E)) <$> pt !! i.

Record inv (s : clk) : Prop := {
  inv_ok : clk_ok s;
  inv_nodup : NoDup (vpn <$> occ (clk_queue s));
  inv_node : forall n, n ∈ clk_queue s -> occupied n = true ->
    pte n = vpn n /\ pe (pgtable s) (Z.to_nat (vpn n)) = Some (true, false);
  inv_pe : forall i b, pe (pgtable s) i = Some b -> b.1 = negb b.2
}.

#[local] Arguments clear : simpl never.
#[local] Arguments set : simpl never.

Ltac clk_bits :=
  change PTE_P with (2 ^ 0) in *; change PTE_A with (2 ^ 5) in *; change PTE_E with (2 ^ 9) in *;
  repeat first [rewrite has_set by lia | rewrite has_clear by lia]; simpl Z.eqb; simpl negb;
  rewrite ?orb_false_r, ?orb_true_r, ?andb_true_r, ?andb_false_r.

Lemma pe_alter f pt i j :
  pe (alter f i pt) j =
  if decide (i = j) then (fun p => (has (f p) PTE_P, has (f p) PTE_E)) <$> pt !! j else pe pt j.
Proof.
  unfold pe. case_decide as E; [subst|by rewrite list_lookup_alter_ne].
  rewrite list_lookup_alter_eq. by destruct (pt !! j).
Qed.

Lemma pe_clearA pt x i : pe (clearA pt x) i = pe pt i.
Proof.
  unfold clearA. rewrite pe_alter. case_decide; [|done]. unfold pe. destruct (pt !! i); [|done].
  simpl fmap. clk_bits. done.
Qed.

Lemma pe_fold A i : forall pt, pe (foldl clearA pt A) i = pe pt i.
Proof. induction A as [|x A IH]; intros pt; [done|]. cbn. by rewrite IH, pe_clearA. Qed.

Lemma pe_evict_ne pt x i :
  (occupied x = true -> Z.to_nat (pte x) <> i) -> pe (evict pt x) i = pe pt i.
Proof.
  intros H. unfold evict. destruct (occupied x); [|done]. rewrite pe_alter.
  case_decide; [by destruct H|done].
Qed.

Lemma pe_enc_xor p : has p PTE_P = negb (has p PTE_E) -> has (enc p) PTE_P = negb (has (enc p) PTE_E).
Proof. intros H. unfold enc. destruct (has p PTE_E) eqn:E; [by rewrite H, E|]. clk_bits. done. Qed.

Lemma has_dec p : has p PTE_P = negb (has p PTE_E) -> (has (dec p) PTE_P, has (dec p) PTE_E) = (true, false).
Proof. intros H. unfold dec. destruct (has p PTE_E) eqn:E; [clk_bits; done|]. by rewrite H, E. Qed.

Lemma sc_shape pt R new : R <> [] ->
  exists x R' L, R ≡ₚ x :: R' /\ (second_chance pt R new).1 ≡ₚ new :: R' /\
    (second_chance pt R new).2 = evict (foldl clearA pt L) x.
Proof.
  intros Hne. unfold second_chance. destruct (first_takeable _ _) as [[[A x] B]|] eqn:Ef.
  - apply first_takeable_Some in Ef as (-> & _). exists x, (A ++ B), A.
    split; [by rewrite Permutation_middle|]. split; [|done]. cbn.
    rewrite (app_assoc B A), <- Permutation_cons_append. by rewrite (Permutation_app_comm B A).
  - destruct R as [|x R]; [done|]. exists x, R, (x :: R). split; [done|]. split; [|done]. cbn.
    by rewrite <- Permutation_cons_append.
Qed.

Lemma inv_distinct s : inv s -> distinct s.
Proof.
  intros Hi. unfold distinct. replace (pte <$> occ (clk_queue s)) with (vpn <$> occ (clk_queue s)).
  { apply Hi. }
  apply list_fmap_ext. intros i n Hn%list_elem_of_lookup_2.
  apply occ_elem in Hn as [Ho Hn]. symmetry. by apply Hi.
Qed.

(** A change of one entry that leaves presence and encryption alone. *)
Lemma inv_same_pe s pt :
  inv s -> length pt = length (pgtable s) -> (forall i, pe pt i = pe (pgtable s) i) ->
  inv (mk_clk (clk_queue s) (clk_hand s) pt (printed s)).
Proof.
  intros [[H1 H2 H3] H4 H5 H6] Hl Hpe. split; cbn; [split; cbn; try done|done| |].
  - intros n Hn Ho. unfold valid. rewrite Hl. by apply H3.
  - intros n Hn Ho. rewrite Hpe. by apply H5.
  - intros i b. rewrite Hpe. apply H6.
Qed.

Lemma inv_print s e : inv s -> inv (mk_clk (clk_queue s) (clk_hand s) (pgtable s) (printed s ++ [e])).
Proof. intros [[H1 H2 H3] H4 H5 H6]. by split; [split|..]. Qed.

Lemma pe_setA pt i j p : pt !! i = Some p -> pe (<[i := set p PTE_A]> pt) j = pe pt j.
Proof.
  intros Hp. rewrite <- (alter_Some_insert (fun p => set p PTE_A) _ _ _ Hp), pe_alter.
  case_decide; [|done]. unfold pe. destruct (pt !! j); [|done]. simpl fmap. clk_bits. done.
Qed.

(** Evicting keeps entries either present or encrypted. *)
Lemma evict_xor s x L j p :
  inv s -> evict (foldl clearA (pgtable s) L) x !! j = Some p -> has p PTE_P = negb (has p PTE_E).
Proof.
  intros Hi Hj. unfold evict in Hj.
  assert (H0 : forall p', foldl clearA (pgtable s) L !! j = Some p' -> has p' PTE_P = negb (has p' PTE_E)).
  { intros p' Hp'. apply (inv_pe s Hi j (has p' PTE_P, has p' PTE_E)).
    rewrite <- (pe_fold L). unfold pe. by rewrite Hp'. }
  destruct (occupied x); [|by apply H0].
  destruct (decide (Z.to_nat (pte x) = j)) as [<-|Hne]; [|rewrite list_lookup_alter_ne in Hj by done; by apply H0].
  rewrite list_lookup_alter_eq in Hj. destruct (foldl _ _ _ !! _) as [p'|] eqn:E; [|done].
  cbn in Hj. simplify_eq. apply pe_enc_xor. by apply H0.
Qed.

(** A page that is not queued enters the queue. *)
Lemma inv_insert s v q h :
  inv s -> valid (pgtable s) v -> pe (pgtable s) (Z.to_nat v) = Some (false, true) ->
  let sc := second_chance (pgtable s) (ring (clk_queue s) (clk_hand s)) (mk_node v v) in
  ring q h = sc.1 -> length q = Z.to_nat CLOCKSIZE -> 0 <= h < CLOCKSIZE ->
  inv (mk_clk q h (alter dec (Z.to_nat v) sc.2) (printed s)).
Proof.
  intros Hi Hv Hpe sc HR Hl Hh. assert (Hok := inv_ok s Hi).
  destruct (sc_shape (pgtable s) (ring (clk_queue s) (clk_hand s)) (mk_node v v))
    as (x & R' & L & Hp1 & Hp2 & Ept).
  { intros E. pose proof (ring_length (clk_queue s) (clk_hand s)) as H. by rewrite E, (ok_len s Hok) in H. }
  fold sc in Hp2, Ept. rewrite <- HR in Hp2. rewrite ring_Permutation in Hp1, Hp2.
  assert (Hxor : forall p j, sc.2 !! j = Some p -> has p PTE_P = negb (has p PTE_E)).
  { intros p j. rewrite Ept. by apply evict_xor. }
  assert (Hnew : forall n, n ∈ occ R' -> n ∈ clk_queue s /\ occupied n = true /\ vpn n <> v).
  { intros n [Ho Hn]%occ_elem. assert (Hq : n ∈ clk_queue s) by (rewrite Hp1; by right).
    split; [done|]. split; [done|]. intros En. destruct (inv_node s Hi n Hq Ho) as [_ H].
    rewrite En in H. congruence. }
  assert (Hnd := inv_nodup s Hi). unfold occ in Hnd. rewrite Hp1 in Hnd.
  assert (Hx : occupied x = true -> forall n, n ∈ occ R' -> vpn n <> vpn x).
  { intros Hox n Hn E. rewrite filter_cons_True in Hnd by done. cbn in Hnd.
    apply NoDup_cons in Hnd as [Hnx _]. apply Hnx. rewrite <- E. by apply list_elem_of_fmap_2. }
  assert (Hlen : length (alter dec (Z.to_nat v) sc.2) = length (pgtable s))
    by (rewrite length_alter; apply second_chance_length).
  assert (Hvo : occupied (mk_node v v) = true)
    by (unfold occupied, valid in *; cbn; destruct (Z.eqb_spec v (-1)); [lia|done]).
  split; cbn.
  - split; cbn; [done|lia|]. intros n Hn Ho. unfold valid. rewrite Hlen. rewrite Hp2 in Hn.
    apply elem_of_cons in Hn as [->|Hn]; [done|]. apply (ok_pte s Hok); [|done]. rewrite Hp1. by right.
  - unfold occ. rewrite Hp2, filter_cons_True by done. cbn. apply NoDup_cons. split.
    + intros [n [E Hn]]%list_elem_of_fmap. destruct (Hnew n Hn) as (_ & _ & H). by apply H.
    + destruct (occupied x) eqn:Ex.
      * rewrite filter_cons_True in Hnd by done. by apply NoDup_cons in Hnd as [_ ?].
      * rewrite filter_cons_False in Hnd by (by rewrite Ex). done.
  - intros n Hn Ho. rewrite Hp2 in Hn. apply elem_of_cons in Hn as [->|Hn].
    + split; [done|]. cbn. rewrite pe_alter, decide_True by done.
      destruct (sc.2 !! Z.to_nat v) as [p|] eqn:Ep.
      * cbn. f_equal. by eapply has_dec, Hxor.
      * apply lookup_ge_None in Ep. unfold sc in Ep. rewrite second_chance_length in Ep.
        unfold valid in Hv. lia.
    + destruct (Hnew n) as (Hq & _ & Hne); [by apply occ_elem|].
      destruct (inv_node s Hi n Hq Ho) as [Epte Hpn]. split; [done|].
      destruct (ok_pte s Hok n Hq Ho) as [H0 _].
      rewrite pe_alter, decide_False by (unfold valid in Hv; lia).
      rewrite Ept, pe_evict_ne, pe_fold; [done|]. intros Hox E.
      assert (Hxq : x ∈ clk_queue s) by (rewrite Hp1; apply list_elem_of_here).
      destruct (inv_node s Hi x Hxq Hox) as [Epx _]. destruct (ok_pte s Hok x Hxq Hox) as [Hx0 _].
      apply (Hx Hox n); [by apply occ_elem|]. lia.
  - intros i b Hb. rewrite pe_alter in Hb. case_decide.
    + destruct (sc.2 !! i) as [p|] eqn:Ep; [|done]. cbn in Hb. simplify_eq.
      by rewrite has_dec by (by eapply Hxor).
    + unfold pe in Hb. destruct (sc.2 !! i) as [p|] eqn:Ep; [|done]. cbn in Hb. simplify_eq.
      by eapply Hxor.
Qed.

Lemma do_ref_page_inv s v :
  inv s -> valid (pgtable s) v ->
  exists s', do_ref_page v v s = Ret tt s' /\ inv s' /\ length (pgtable s') = length (pgtable s) /\
    (0 <= clk_hand s \/ pe (pgtable s) (Z.to_nat v) = Some (false, true) -> 0 <= clk_hand s') /\
    pe (pgtable s') (Z.to_nat v) = Some (true, false).
Proof.
  intros Hi Hv. unfold do_ref_page, print, modify, bind at 1.
  set (s1 := mk_clk _ _ _ _). assert (Hi1 : inv s1) by (by apply inv_print).
  destruct (load_ok s1 v Hv) as (p & Hp & E). rewrite (bind_Ret _ _ _ _ _ E).
  assert (Hpe : pe (pgtable s1) (Z.to_nat v) = Some (has p PTE_P, has p PTE_E))
    by (unfold pe; by rewrite Hp).
  assert (Hx := inv_pe s1 Hi1 _ _ Hpe). cbn in Hx.
  destruct (has p PTE_P) eqn:EP.
  - rewrite store_ok by done. eexists. split; [done|]. split; [|split; [|split]].
    + apply inv_same_pe; [done|apply length_insert|]. intros i. by apply pe_setA.
    + apply length_insert.
    + change (pgtable s1) with (pgtable s) in Hpe. rewrite Hpe. by intros [?|[=]].
    + cbn [pgtable]. rewrite pe_setA by done. rewrite Hpe. by destruct (has p PTE_E).
  - assert (EE : has p PTE_E = true) by (by destruct (has p PTE_E)). rewrite EE in Hpe.
    destruct (clk_insert_spec s1 v v (inv_ok _ Hi1) (inv_distinct _ Hi1) Hv)
      as (q & h & E2 & HR & Hl & Hh). rewrite (bind_Ret _ _ _ _ _ E2).
    pose proof (inv_insert s1 v q h Hi1 Hv Hpe HR Hl Hh) as Hi2. set (s2 := mk_clk q h _ _) in *.
    assert (Hl2 : length (pgtable s2) = length (pgtable s1))
      by (cbn [pgtable s2]; rewrite length_alter; apply second_chance_length).
    assert (Hv2 : valid (pgtable s2) v) by (unfold valid; by rewrite Hl2).
    destruct (load_ok s2 v Hv2) as (p2 & Hp2 & E3). rewrite (bind_Ret _ _ _ _ _ E3), store_ok by done.
    eexists. split; [done|]. split; [|split; [|split]].
    + apply inv_same_pe; [done|apply length_insert|]. intros i. by apply pe_setA.
    + cbn [pgtable]. by rewrite length_insert.
    + cbn. lia.
    + cbn [pgtable]. rewrite pe_setA by done.
      apply (inv_node s2 Hi2 (mk_node v v)).
      * apply (ring_elem _ h). cbn [clk_queue s2]. rewrite HR.
        destruct (sc_shape (pgtable s1) (ring (clk_queue s1) (clk_hand s1)) (mk_node v v))
          as (x & R' & L & _ & Hp' & _).
        { intros E0. pose proof (ring_length (clk_queue s1) (clk_hand s1)) as H.
          by rewrite E0, (ok_len _ (inv_ok _ Hi1)) in H. }
        rewrite Hp'. apply list_elem_of_here.
      * unfold occupied, valid in *. cbn. destruct (Z.eqb_spec v (-1)); [lia|done].
Qed.

Lemma inv_unique s A x B :
  inv s -> ring (clk_queue s) (clk_hand s) = A ++ x :: B -> occupied x = true ->
  Forall (fun n => vpn n <> vpn x) (A ++ B).
Proof.
  intros Hi HR Ho. apply Forall_forall. intros n Hn E.
  assert (Hon : occupied n = true) by (unfold occupied in *; by rewrite E).
  assert (Hnd := inv_nodup s Hi). rewrite <- (occ_ring _ (clk_hand s)), HR in Hnd.
  unfold occ in Hnd. rewrite <- Permutation_middle, filter_cons_True in Hnd by done. cbn in Hnd.
  apply NoDup_cons in Hnd as [Hx _]. apply Hx. rewrite <- E. apply list_elem_of_fmap_2.
  by apply list_elem_of_filter.
Qed.

Lemma clk_remove_absent s v :
  length (clk_queue s) = Z.to_nat CLOCKSIZE -> 0 <= clk_hand s < CLOCKSIZE ->
  (forall n, n ∈ clk_queue s -> vpn n <> v) -> clk_remove v s = Ret tt s.
Proof.
  intros Hl Hh Hne. unfold clk_remove, gets at 1, bind at 1.
  rewrite (bind_Ret _ _ s (-1) s); [done|]. apply clk_search_miss. intros j Hj.
  destruct (search_slot (clk_queue s) (clk_hand s) j Hl Hh) as (y & pos & Hy & _);
    [unfold CLOCKSIZE in *; lia|].
  exists y. split; [done|]. apply Hne. apply zget_Some in Hy as [_ Hy]. by eapply list_elem_of_lookup_2.
Qed.

Lemma filter_keep (P : node_t -> Prop) `{!forall n, Decision (P n)} (l : list node_t) :
  (forall n, n ∈ l -> P n) -> filter P l = l.
Proof.
  induction l as [|n l IH]; intros Hl; [done|].
  rewrite filter_cons_True by (apply Hl, list_elem_of_here). f_equal. apply IH. intros x Hx. apply Hl.
  by right.
Qed.

Lemma NoDup_fmap_filter {B} (f : node_t -> B) (P : node_t -> Prop) `{!forall n, Decision (P n)}
  (l : list node_t) : NoDup (f <$> l) -> NoDup (f <$> filter P l).
Proof.
  intros Hl. eapply sublist_NoDup; [exact Hl|]. apply fmap_sublist, sublist_filter.
Qed.

Lemma occ_cons x l : occupied x = true -> occ (x :: l) = x :: occ l.
Proof. intros H. unfold occ. by rewrite filter_cons_True. Qed.

Lemma occ_cons_empty x l : occupied x = false -> occ (x :: l) = occ l.
Proof. intros H. unfold occ. by rewrite filter_cons_False by (by rewrite H). Qed.

(** Removal keeps the order of the others. *)
Lemma clk_remove_ring s v :
  inv s -> 0 <= clk_hand s -> v <> -1 ->
  exists q h, clk_remove v s = Ret tt (mk_clk q h (pgtable s) (printed s)) /\
    length q = Z.to_nat CLOCKSIZE /\ 0 <= h < CLOCKSIZE /\
    occ (ring q h) = filter (fun n => vpn n <> v) (occ (ring (clk_queue s) (clk_hand s))).
Proof.
  intros Hi H0 Hv. assert (Hok := inv_ok s Hi).
  assert (Hh : 0 <= clk_hand s < CLOCKSIZE) by (pose proof (ok_hand s Hok); lia).
  destruct (decide (v ∈ vpn <$> clk_queue s)) as [Hin|Hout].
  - apply list_elem_of_fmap in Hin as (x & -> & Hx).
    assert (Ho : occupied x = true) by (unfold occupied; by rewrite (proj2 (Z.eqb_neq _ _) Hv)).
    apply (ring_elem _ (clk_hand s)) in Hx. apply list_elem_of_split in Hx as (A & B & HR).
    pose proof (inv_unique s A x B Hi HR Ho) as Hne.
    destruct (clk_remove_spec s A x B (ok_len s Hok) Hh HR Hne) as (q & h & z & E & HRq & Hl & Hh').
    exists q, h. split_and!; try done; try lia. rewrite HRq, HR, occ_cons_empty, !occ_app by done.
    rewrite (occ_cons x) by done. rewrite filter_app, filter_cons_False by (intros Hx; by apply Hx).
    rewrite Forall_app, !Forall_forall in Hne. destruct Hne as [HA HB].
    rewrite !filter_keep; [done|..]; intros n [_ Hn]%occ_elem; auto.
  - exists (clk_queue s), (clk_hand s). rewrite clk_remove_absent; [|apply Hok|done|].
    + rewrite with_id. split_and!; try done; try lia; [apply Hok|].
      rewrite filter_keep; [done|]. intros n [_ Hn]%occ_elem <-. apply Hout.
      apply list_elem_of_fmap_2. by rewrite ring_elem in Hn.
    + intros n Hn <-. apply Hout. by apply list_elem_of_fmap_2.
Qed.

Lemma do_remove_page_inv s v :
  inv s -> 0 <= clk_hand s -> v <> -1 ->
  exists s', do_remove_page v s = Ret tt s' /\ inv s' /\ pgtable s' = pgtable s /\
    0 <= clk_hand s' /\
    occ (ring (clk_queue s') (clk_hand s')) =
    filter (fun n => vpn n <> v) (occ (ring (clk_queue s) (clk_hand s))).
Proof.
  intros Hi H0 Hv. unfold do_remove_page, print, modify, bind.
  set (s1 := mk_clk _ _ _ _). assert (Hi1 : inv s1) by (by apply inv_print).
  destruct (clk_remove_ring s1 v Hi1 H0 Hv) as (q & h & E & Hl & Hh & HR). rewrite E.
  eexists. split; [done|]. cbn [pgtable clk_hand clk_queue]. cbn [s1 clk_queue clk_hand] in HR.
  split; [|split; [done|split; [lia|done]]].
  assert (Hsub : forall n, n ∈ q -> occupied n = true -> n ∈ clk_queue s).
  { intros n Hn Ho. assert (Hn' : n ∈ occ (ring q h)) by (apply occ_elem; by rewrite ring_elem).
    rewrite HR in Hn'. apply list_elem_of_filter in Hn' as [_ Hn'].
    apply occ_elem in Hn' as [_ Hn']. by rewrite ring_elem in Hn'. }
  split; cbn.
  - split; cbn; [done|lia|]. intros n Hn Ho. apply (ok_pte s (inv_ok s Hi)); auto.
  - rewrite <- (occ_ring q h), HR. apply NoDup_fmap_filter. rewrite occ_ring. apply (inv_nodup s Hi).
  - intros n Hn Ho. apply (inv_node s Hi); auto.
  - apply (inv_pe s Hi).
Qed.

(** ** Claims *)

(** C4. [clk_insert] terminates (the hand stops within [CLOCKSIZE + 1]
    steps) and implements second chance: in head-to-tail order the queue
    becomes the one of [second_chance], the victim is encrypted, the pages
    passed over lose their referenced bit, and the new page is decrypted. *)
Theorem clk_insert_second_chance s v a :
  clk_ok s -> distinct s -> valid (pgtable s) a ->
  let sc := second_chance (pgtable s) (ring (clk_queue s) (clk_hand s)) (mk_node v a) in
  exists s', clk_insert v a s = Ret tt s' /\
    ring (clk_queue s') (clk_hand s') = sc.1 /\
    pgtable s' = alter dec (Z.to_nat a) sc.2 /\ printed s' = printed s /\
    length (clk_queue s') = Z.to_nat CLOCKSIZE /\ 0 <= clk_hand s' < CLOCKSIZE.
Proof.
  intros Hok Hd Ha sc. destruct (clk_insert_spec s v a Hok Hd Ha) as (q & h & E & HR & Hl & Hh).
  eexists. split; [exact E|]. done.
Qed.

(** The two requests a run is made of. *)
Inductive op := ORef (v : Z) | ORemove (v : Z).

Definition do_op (o : op) : C unit :=
  match o with ORef v => do_ref_page v v | ORemove v => do_remove_page v end.

Fixpoint run (l : list op) : C unit :=
  match l with [] => ret tt | o :: l' => do* do_op o in run l' end.

Definition op_ok (n : nat) (o : op) : Prop :=
  match o with ORef v => 0 <= v < Z.of_nat n | ORemove v => v <> -1 end.

Lemma run_inv l : forall s,
  inv s -> 0 <= clk_hand s -> Forall (op_ok (length (pgtable s))) l ->
  exists s', run l s = Ret tt s' /\ inv s'.
Proof.
  induction l as [|o l IH]; intros s Hi Hh Hl; [by exists s|].
  apply Forall_cons in Hl as [Ho Hl]. destruct o as [v|v]; cbn [run do_op op_ok] in *.
  - destruct (do_ref_page_inv s v Hi Ho) as (s1 & E & Hi1 & Hlen & Hh1 & _).
    rewrite (bind_Ret _ _ _ _ _ E). apply IH; [done|by auto|by rewrite Hlen].
  - destruct (do_remove_page_inv s v Hi Hh Ho) as (s1 & E & Hi1 & Hpt & Hh1 & _).
    rewrite (bind_Ret _ _ _ _ _ E). apply IH; [done|done|by rewrite Hpt].
Qed.

Definition cleared (pt : list Z) : clk := mk_clk (replicate 8 (mk_node (-1) 0)) (-1) pt [].

Lemma clk_clear_spec pt : clk_clear (clk0 pt) = Ret tt (cleared pt).
Proof. vm_compute. reflexivity. Qed.

Lemma clear_inv pt :
  (forall i b, pe pt i = Some b -> b.1 = negb b.2) ->
  inv (cleared pt).
Proof.
  intros Hpt.
  assert (Hq : forall n, n ∈ replicate 8 (mk_node (-1) 0) -> occupied n = false).
  { intros n Hn. apply elem_of_replicate_inv in Hn. by subst. }
  split; [split; cbn; [done|unfold CLOCKSIZE; lia|]| | |done].
  - intros n Hn Ho. by rewrite Hq in Ho.
  - constructor.
  - intros n Hn Ho. by rewrite Hq in Ho.
Qed.

(** Every run of references and removals that starts, like [main], with a
    reference from the cleared queue goes through without a fault, and in
    every state it reaches: no page is queued twice, every queued page is
    present and not encrypted, and every page is either present or encrypted. *)
Theorem clock_run_invariant pt v l :
  (forall i b, pe pt i = Some b -> b.1 = negb b.2) ->
  pe pt (Z.to_nat v) = Some (false, true) ->
  Forall (op_ok (length pt)) (ORef v :: l) ->
  exists s0 s', clk_clear (clk0 pt) = Ret tt s0 /\ run (ORef v :: l) s0 = Ret tt s' /\ inv s'.
Proof.
  intros Hpt Hv Hl. assert (Hi0 := clear_inv pt Hpt). exists (cleared pt).
  apply Forall_cons in Hl as [Ho Hl]. cbn in Ho.
  destruct (do_ref_page_inv _ v Hi0) as (s1 & E1 & Hi1 & Hlen & Hh & _); [done|].
  destruct (run_inv l s1) as (s' & E' & Hi'); [done|apply Hh; by right|by rewrite Hlen|].
  exists s'. split; [apply clk_clear_spec|]. split; [|done]. cbn [run do_op]. by rewrite (bind_Ret _ _ _ _ _ E1).
Qed.

(** [clk_remove] of a queued page keeps the head-to-tail order of all the
    others, wherever the hand is, and of a page that is not queued changes
    nothing in that order; the page table is not touched. *)
Theorem clk_remove_keeps_order s v :
  inv s -> 0 <= clk_hand s -> v <> -1 ->
  exists s', clk_remove v s = Ret tt s' /\ pgtable s' = pgtable s /\ printed s' = printed s /\
    occ (ring (clk_queue s') (clk_hand s')) =
    filter (fun n => vpn n <> v) (occ (ring (clk_queue s) (clk_hand s))).
Proof.
  intros Hi Hh Hv. destruct (clk_remove_ring s v Hi Hh Hv) as (q & h & E & _ & _ & HR).
  eexists. split; [exact E|]. done.
Qed.

(** [clk_remove] on a cleared queue reads [clk_queue[-1]]: the search
    starts at the hand, which is then -1. *)
Theorem clk_remove_cleared_faults pt v :
  exists s, clk_clear (clk0 pt) = Ret tt s /\ clk_remove v s = Fault "clk_queue".
Proof. exists (cleared pt). split; [apply clk_clear_spec|]. vm_compute. reflexivity. Qed.

(** What [main] prints: the queue in head-to-tail order with the
    referenced bits, after each batch of references and after the removals. *)
Theorem main_prints :
  exists s, main (clk0 []) = Ret tt s /\
    List.filter (fun e => match e with Queue _ => true | _ => false end) (printed s) = [
      Queue [(0, true); (3, true); (1, true); (2, true)];
      Queue [(0, true); (3, true); (1, true); (2, true); (9, true); (7, true); (4, true); (6, true)];
      Queue [(0, true); (3, true); (1, true); (2, true); (9, true); (7, true); (4, true); (6, true)];
      Queue [(3, false); (1, false); (2, false); (9, false); (7, false); (4, false); (6, false); (10, true)];
      Queue [(3, true); (1, true); (2, true); (9, false); (7, false); (4, false); (6, false); (10, true)];
      Queue [(7, false); (4, false); (6, false); (10, true); (3, false); (1, false); (2, false); (11, true)];
      Queue [(7, false); (4, false); (6, false); (3, false); (1, false); (2, false)]].
Proof. eexists. split; vm_compute; reflexivity. Qed.

(** ** Witnesses *)

Lemma pe_two i b : pe [PTE_E; PTE_E] i = Some b -> b = (false, true).
Proof. destruct i as [|[|]]; vm_compute; congruence. Qed.

Lemma two_xor i b : pe [PTE_E; PTE_E] i = Some b -> b.1 = negb b.2.
Proof. by intros ->%pe_two. Qed.

Lemma clk_insert_second_chance_witness :
  exists s', clk_insert 1 1 (cleared [PTE_E; PTE_E]) = Ret tt s' /\
    ring (clk_queue s') (clk_hand s') = replicate 7 (mk_node (-1) 0) ++ [mk_node 1 1].
Proof.
  destruct (clk_insert_second_chance (cleared [PTE_E; PTE_E]) 1 1) as (s' & E & HR & _).
  - apply inv_ok, clear_inv, two_xor.
  - apply inv_distinct, clear_inv, two_xor.
  - by vm_compute.
  - exists s'. split; [exact E|]. rewrite HR. vm_compute. reflexivity.
Defined.

Lemma clock_run_invariant_witness :
  exists s0 s', clk_clear (clk0 [PTE_E; PTE_E]) = Ret tt s0 /\
    run [ORef 1; ORef 0; ORemove 1; ORef 1] s0 = Ret tt s' /\ inv s'.
Proof.
  apply (clock_run_invariant [PTE_E; PTE_E] 1 [ORef 0; ORemove 1; ORef 1]).
  - exact two_xor.
  - reflexivity.
  - repeat (apply Forall_cons; split); [cbn; lia..|apply Forall_nil_2].
Defined.

Definition ex_clk : clk :=
  mk_clk (mk_node 0 0 :: replicate 7 (mk_node (-1) 0)) 0 [PTE_P; PTE_E] [].

Lemma ex_clk_inv : inv ex_clk.
Proof.
  assert (Hocc : forall n, n ∈ clk_queue ex_clk -> occupied n = true -> n = mk_node 0 0).
  { intros n [->|Hn]%elem_of_cons Ho; [done|]. apply elem_of_replicate_inv in Hn. by subst. }
  split; [split|..].
  - done.
  - by vm_compute.
  - intros n Hn Ho. rewrite (Hocc n Hn Ho). by vm_compute.
  - apply NoDup_singleton.
  - intros n Hn Ho. rewrite (Hocc n Hn Ho). by vm_compute.
  - intros [|[|i]] b; vm_compute; by intros [= <-] || done.
Qed.

Lemma clk_remove_keeps_order_witness :
  exists s', clk_remove 0 ex_clk = Ret tt s' /\ occ (ring (clk_queue s') (clk_hand s')) = [].
Proof.
  destruct (clk_remove_keeps_order ex_clk 0 ex_clk_inv) as (s' & E & _ & _ & HR); [by vm_compute|lia|].
  exists s'. split; [exact E|]. rewrite HR. vm_compute. reflexivity.
Defined.
