(* ===== verification/Proc.v ===== *)
(** * Processes (proc.c)

    The process table and the operations on it.  A [struct proc *] is an
    index of [ptable].  The code runs on one CPU; [curproc] is [None] while
    that CPU is in [scheduler].

    A function that switches stacks ([sched]) is modelled by its two halves:
    the part up to [swtch], after which the CPU is in the scheduler, and the
    part that runs when the process is scheduled again.

    [ptable.lock] is a flag here, and [sched]'s tests of the interrupt state
    ([ncli], [FL_IF]) are about the CPU that Spinlock.v models.

    The file system, which [fork], [exit] and [userinit] call, is reached
    through the interface [FsOps]. *)
From S2P Require Import Prelude Memory KString Mmu State Kalloc Vm.

(** What proc.c and exec.c use of file.c, fs.c and log.c.  Files and inodes are
    not part of [kstate]: taking or dropping a reference leaves it alone. *)
Class FsOps := {
  filedup : Z -> K Z;
  idup : Z -> K Z;
  fileclose : Z -> K unit;
  iput : Z -> K unit;
  namei_root : K Z;
  begin_op : K unit;
  end_op : K unit;
  iinit : Z -> K unit;
  initlog : Z -> K unit;
  filedup_law : forall f s, filedup f s = Ret f s;
  idup_law : forall ip s, idup ip s = Ret ip s
}.

(** ** x86.h and proc.h: frames on the kernel stack *)

Definition sizeof_trapframe : Z := 76.
Definition tf_eax : Z := 28.
Definition tf_es : Z := 40.
Definition tf_ds : Z := 44.
Definition tf_eip : Z := 56.
Definition tf_cs : Z := 60.
Definition tf_eflags : Z := 64.
Definition tf_esp : Z := 68.
Definition tf_ss : Z := 72.
Definition sizeof_context : Z := 20.
Definition ctx_eip : Z := 16.
Definition FL_IF : Z := 0x200.

Section Proc.
Context `{PL : Platform} `{FS : FsOps}.

(** ** ptable.lock *)

Definition acquire_ptable : K unit :=
  fun s => if ptable_lock s then Panic "acquire" else Ret tt (with_ptable_lock s true).
Definition release_ptable : K unit :=
  fun s => if ptable_lock s then Ret tt (with_ptable_lock s false) else Panic "release".

(** The first slot that satisfies [f]. *)
Fixpoint find_proc (f : proc -> bool) (t : list proc) (i : nat) : option nat :=
  match t with
  | [] => None
  | p :: t' => if f p then Some i else find_proc f t' (S i)
  end.

Definition is_state (st : procstate) (p : proc) : bool := bool_decide (state p = st).

(** ** Creation *)

Definition kwrite16 (v x : Z) : K unit := kmodify_mem (fun m => write16 m (V2P v) x).

Definition allocproc : K (option nat) :=
  do* acquire_ptable in
  let* t := gets ptable in
  match find_proc (is_state UNUSED) t 0 with
  | None => do* release_ptable in ret None
  | Some i =>
      do* upd_proc i (fun p => set_state p EMBRYO) in
      let* np := gets nextpid in
      do* upd_proc i (fun p => set_pid p np) in
      do* modify (fun s => with_nextpid s (s32 (np + 1))) in
      do* release_ptable in
      let* k := kalloc in
      do* upd_proc i (fun p => set_kstack p k) in
      if k =? 0 then
        do* upd_proc i (fun p => set_state p UNUSED) in
        ret None
      else
        let sp := u32 (k + KSTACKSIZE) in
        let sp := u32 (sp - sizeof_trapframe) in
        do* upd_proc i (fun p => set_tf p sp) in
        let sp := u32 (sp - 4) in
        do* kwrite32 sp ksym_trapret in
        let sp := u32 (sp - sizeof_context) in
        do* upd_proc i (fun p => set_context p sp) in
        do* kmodify_mem (fun m => memset m (V2P sp) 0 sizeof_context) in
        do* kwrite32 (u32 (sp + ctx_eip)) ksym_forkret in
        ret (Some i)
  end.

(** [safestrcpy(p->name, s, sizeof(p->name))] for a string given as bytes: at
    most 15 characters, then a NUL; a NUL that was copied is followed by a
    second one. *)
Fixpoint take_str (n : nat) (s : list Z) : list Z :=
  match n, s with
  | S k, c :: s' => if c =? 0 then [] else c :: take_str k s'
  | _, _ => []
  end.
Definition set_name_str (p : proc) (s : list Z) : proc :=
  let t := take_str 15 s in
  if (length t <? 15)%nat then set_name p (t ++ 0 :: 0 :: drop (length t + 2) (name p))
  else set_name p (t ++ [0]).

Definition userinit (initcode_start initcode_size : Z) : K unit :=
  let* r := allocproc in
  do* modify (fun s => with_initproc s r) in
  match r with
  | None => fault "userinit: p is null"
  | Some i =>
      let* d := setupkvm in
      do* upd_proc i (fun p => set_pgdir p d) in
      if d =? 0 then panic "userinit: out of memory?"
      else
        do* inituvm d initcode_start initcode_size in
        do* upd_proc i (fun p => set_sz p PGSIZE) in
        let* p := get_proc i in
        do* kmodify_mem (fun m => memset m (V2P (tf p)) 0 sizeof_trapframe) in
        do* kwrite16 (tf p + tf_cs) (Z.lor (Z.shiftl SEG_UCODE 3) DPL_USER) in
        do* kwrite16 (tf p + tf_ds) (Z.lor (Z.shiftl SEG_UDATA 3) DPL_USER) in
        do* kwrite16 (tf p + tf_es) (Z.lor (Z.shiftl SEG_UDATA 3) DPL_USER) in
        do* kwrite16 (tf p + tf_ss) (Z.lor (Z.shiftl SEG_UDATA 3) DPL_USER) in
        do* kwrite32 (tf p + tf_eflags) FL_IF in
        do* kwrite32 (tf p + tf_esp) PGSIZE in
        do* kwrite32 (tf p + tf_eip) 0 in
        do* upd_proc i (fun p => set_name_str p [105; 110; 105; 116; 99; 111; 100; 101; 0]) in
        let* ip := namei_root in
        do* upd_proc i (fun p => set_cwd p ip) in
        do* acquire_ptable in
        do* upd_proc i (fun p => set_state p RUNNABLE) in
        release_ptable
  end.

(** [n] is an [int], [sz] unsigned; [n/PGSIZE] is the signed quotient. *)
Definition growproc (n : Z) : K Z :=
  let* me := my in
  let* p := get_proc me in
  let* sz' :=
    (if 0 <? n then allocuvm (pgdir p) (sz p) (u32 (sz p + n))
     else if n <? 0 then deallocuvm (pgdir p) (sz p) (u32 (sz p + n))
     else ret (sz p)) in
  if negb (n =? 0) && (sz' =? 0) then ret (-1)
  else
    do* upd_proc me (fun p => set_sz p sz') in
    do* switchuvm (Some me) in
    let page_num := u32 (Z.quot n PGSIZE) in
    let* r := mencrypt (PGROUNDUP (u32 (sz' - n))) (s32 page_num) in
    if negb (r =? 0) then ret (-1) else ret 0.

(** [np->ofile[i] = filedup(curproc->ofile[i])] for the open ones. *)
Fixpoint fork_files (np : nat) (fs : list Z) (i : nat) : K unit :=
  match fs with
  | [] => ret tt
  | f :: fs' =>
      do* (if f =? 0 then ret tt
           else let* f' := filedup f in
                upd_proc np (fun q => set_ofile q (<[i := f']> (ofile q)))) in
      fork_files np fs' (S i)
  end.

Definition fork : K Z :=
  let* me := my in
  let* r := allocproc in
  match r with
  | None => ret (-1)
  | Some np =>
      let* p := get_proc me in
      let* d := copyuvm (pgdir p) (sz p) in
      do* upd_proc np (fun q => set_pgdir q d) in
      if d =? 0 then
        let* q := get_proc np in
        do* kfree (kstack q) in
        do* upd_proc np (fun q => set_kstack q 0) in
        do* upd_proc np (fun q => set_state q UNUSED) in
        ret (-1)
      else
        do* upd_proc np (fun q => set_sz q (sz p)) in
        do* upd_proc np (fun q => set_parent q (Some me)) in
        let* q := get_proc np in
        do* kmodify_mem (fun m => memmove m (V2P (tf q)) (V2P (tf p)) sizeof_trapframe) in
        do* kwrite32 (tf q + tf_eax) 0 in
        do* fork_files np (ofile p) 0 in
        let* ip := idup (cwd p) in
        do* upd_proc np (fun q => set_cwd q ip) in
        do* upd_proc np (fun q => set_name_str q (name p)) in
        let* q := get_proc np in
        let fpid := pid q in
        do* acquire_ptable in
        do* upd_proc np (fun q => set_state q RUNNABLE) in
        do* release_ptable in
        do* upd_proc np (fun q => set_cq q (cq p)) in
        do* upd_proc np (fun q => set_clock_hand q (clock_hand p)) in
        ret fpid
  end.

(** ** Scheduling *)

Definition modify_ptable (f : list proc -> list proc) : K unit :=
  modify (fun s => with_ptable s (f (ptable s))).

Definition wakeup1_proc (c : chan) (p : proc) : proc :=
  if is_state SLEEPING p && bool_decide (pchan p = c) then set_state p RUNNABLE else p.

Definition wakeup1 (c : chan) : K unit := modify_ptable (fmap (wakeup1_proc c)).

Definition wakeup (c : chan) : K unit :=
  do* acquire_ptable in
  do* wakeup1 c in
  release_ptable.

(** [sched] up to the switch into [scheduler], and the two statements that follow
    the [swtch] there: kernel page table, no current process.  [scheduler_resume]
    is what comes next. *)
Definition sched : K unit :=
  let* me := my in
  let* p := get_proc me in
  let* l := gets ptable_lock in
  if negb l then panic "sched ptable.lock"
  else if is_state RUNNING p then panic "sched running"
  else
    do* switchkvm in
    modify (fun s => with_curproc s None).

(** One turn of the scan in [scheduler] at slot [i]. *)
Definition scheduler_run (i : nat) : K bool :=
  let* p := get_proc i in
  if negb (is_state RUNNABLE p) then ret false
  else
    do* modify (fun s => with_curproc s (Some i)) in
    do* switchuvm (Some i) in
    do* upd_proc i (fun p => set_state p RUNNING) in
    ret true.

(** The scan itself, from slot [i] on: the process that gets the CPU. *)
Fixpoint scheduler_scan (n i : nat) : K (option nat) :=
  match n with
  | O => ret None
  | S k =>
      let* ran := scheduler_run i in
      if ran then ret (Some i) else scheduler_scan k (S i)
  end.

(** The rest of the scan from slot [i], with [ptable.lock] held; at the end of
    the table the lock is given back. *)
Definition scheduler_from (i : nat) : K (option nat) :=
  let* r := scheduler_scan (Z.to_nat NPROC - i) i in
  match r with
  | Some j => ret (Some j)
  | None => do* release_ptable in ret None
  end.

(** The top of the outer loop: a scan from the first slot. *)
Definition scheduler_turn : K (option nat) :=
  do* acquire_ptable in
  scheduler_from 0.

(** After the [swtch] for slot [i] has returned: the lock is held, as [sched]
    left it, and the scan goes on with the next slot. *)
Definition scheduler_resume (i : nat) : K (option nat) := scheduler_from (S i).

(** Where a new process starts; [first] is the function's static variable. *)
Definition ROOTDEV : Z := 1.
Definition forkret (first : bool) : K bool :=
  do* release_ptable in
  if first then
    do* iinit ROOTDEV in
    do* initlog ROOTDEV in
    ret false
  else ret first.

Definition yield_out : K unit :=
  do* acquire_ptable in
  let* me := my in
  do* upd_proc me (fun p => set_state p RUNNABLE) in
  sched.
Definition yield_in : K unit := release_ptable.

(** A lock other than [ptable.lock], named by its address; [None] is
    [&ptable.lock]. *)
Definition sleep_out (c : chan) (rel : option (K unit)) : K unit :=
  let* r := myproc in
  match r with
  | None => panic "sleep"
  | Some me =>
      do* match rel with
          | Some release_lk => do* acquire_ptable in release_lk
          | None => ret tt
          end in
      do* upd_proc me (fun p => set_chan p c) in
      do* upd_proc me (fun p => set_state p SLEEPING) in
      sched
  end.
Definition sleep_in (acq : option (K unit)) : K unit :=
  let* me := my in
  do* upd_proc me (fun p => set_chan p CNull) in
  match acq with
  | Some acquire_lk => do* release_ptable in acquire_lk
  | None => ret tt
  end.

(** ** Exit and wait *)

Fixpoint close_files (me : nat) (fs : list Z) (fd : nat) : K unit :=
  match fs with
  | [] => ret tt
  | f :: fs' =>
      do* (if f =? 0 then ret tt
           else do* fileclose f in
                upd_proc me (fun p => set_ofile p (<[fd := 0]> (ofile p)))) in
      close_files me fs' (S fd)
  end.

(** The scan over the table that hands children to init. *)
Fixpoint reparent_loop (n : nat) (i me : nat) : K unit :=
  match n with
  | O => ret tt
  | S k =>
      let* p := get_proc i in
      do* (if bool_decide (parent p = Some me) then
             let* ini := gets initproc in
             do* upd_proc i (fun p => set_parent p ini) in
             if is_state ZOMBIE p then
               wakeup1 (match ini with Some j => CProc j | None => CNull end)
             else ret tt
           else ret tt) in
      reparent_loop k (S i) me
  end.

Definition chan_of (o : option nat) : chan :=
  match o with Some i => CProc i | None => CNull end.

(** The part of [exit] after the files are closed, up to the switch. *)
Definition exit_locked : K unit :=
  let* me := my in
  do* acquire_ptable in
  let* p := get_proc me in
  do* wakeup1 (chan_of (parent p)) in
  do* reparent_loop (Z.to_nat NPROC) 0 me in
  do* upd_proc me (fun p => set_state p ZOMBIE) in
  sched.

Definition exit : K unit :=
  let* me := my in
  let* ini := gets initproc in
  if bool_decide (ini = Some me) then panic "init exiting"
  else
    let* p := get_proc me in
    do* close_files me (ofile p) 0 in
    do* begin_op in
    let* p := get_proc me in
    do* iput (cwd p) in
    do* end_op in
    do* upd_proc me (fun p => set_cwd p 0) in
    exit_locked.

(** One scan of [wait], with [ptable.lock] held: the pid of a reaped child,
    -1, or nothing, when it goes to sleep on its own slot. *)
Fixpoint wait_scan (n : nat) (i me : nat) (havekids : bool) : K (option Z + bool) :=
  match n with
  | O => ret (inr havekids)
  | S k =>
      let* p := get_proc i in
      if negb (bool_decide (parent p = Some me)) then wait_scan k (S i) me havekids
      else if is_state ZOMBIE p then
        do* kfree (kstack p) in
        do* upd_proc i (fun p => set_kstack p 0) in
        do* freevm (pgdir p) in
        do* upd_proc i (fun p => set_pid p 0) in
        do* upd_proc i (fun p => set_parent p None) in
        do* upd_proc i (fun p => set_name p (<[0%nat := 0]> (name p))) in
        do* upd_proc i (fun p => set_killed p 0) in
        do* upd_proc i (fun p => set_state p UNUSED) in
        do* release_ptable in
        ret (inl (Some (pid p)))
      else wait_scan k (S i) me true
  end.

Definition wait_turn : K (option Z) :=
  let* me := my in
  let* r := wait_scan (Z.to_nat NPROC) 0 me false in
  match r with
  | inl x => ret x
  | inr havekids =>
      let* p := get_proc me in
      if negb havekids || negb (killed p =? 0) then
        do* release_ptable in ret (Some (-1))
      else
        do* sleep_out (CProc me) None in ret None
  end.

Definition wait : K (option Z) :=
  do* acquire_ptable in
  wait_turn.
(** The next turn of the loop, when the process runs again. *)
Definition wait_resume : K (option Z) :=
  do* sleep_in None in
  wait_turn.

(** ** Kill *)

Definition kill (kpid : Z) : K Z :=
  do* acquire_ptable in
  let* t := gets ptable in
  match find_proc (fun p => pid p =? kpid) t 0 with
  | Some i =>
      do* upd_proc i (fun p => set_killed p 1) in
      do* cq_init i in
      let* p := get_proc i in
      do* (if is_state SLEEPING p then upd_proc i (fun p => set_state p RUNNABLE) else ret tt) in
      do* release_ptable in
      ret 0
  | None =>
      do* release_ptable in
      ret (-1)
  end.

(** [procdump]'s lines: pid, state and name of every slot in use. *)
Definition procdump (t : list proc) : list (Z * procstate * list Z) :=
  (fun p => (pid p, state p, name p)) <$> List.filter (fun p => negb (is_state UNUSED p)) t.

End Proc.
