(* ===== verification/ProcProof.v ===== *)
(** * The process table

    At most one process is RUNNING, the one on the CPU, and process ids are
    unique, whatever sequence of process operations runs.  Most of what proc.c
    does leaves the scheduling state of other processes alone; that part is the
    relation [calm], which composes, so that each function needs one line. *)
From S2P Require Import Prelude Memory KString Mmu State Kalloc Vm VmExample Proc.

(** ** Functions whose runs stay within a relation *)

Definition pres {A} (R : kstate -> kstate -> Prop) (m : K A) : Prop :=
  forall s, match m s with Ret _ s' => R s s' | _ => True end.

Section Pres.
Context (R : kstate -> kstate -> Prop) `{HR : !PreOrder R}.

Lemma pres_ret {A} (a : A) : pres R (ret a).
Proof using HR. intros s. cbn. reflexivity. Qed.
Lemma pres_bind {A B} (m : K A) (f : A -> K B) : pres R m -> (forall a, pres R (f a)) -> pres R (bind m f).
Proof using HR.
  intros Hm Hf s. unfold bind. specialize (Hm s). destruct (m s) as [a s1| | |]; [|done..].
  specialize (Hf a s1). destruct (f a s1); [|done..]. by transitivity s1.
Qed.
Lemma pres_gets {A} (f : kstate -> A) : pres R (gets f).
Proof using HR. intros s. cbn. reflexivity. Qed.
Lemma pres_panic {A} msg : pres R (panic (A := A) msg).
Proof. done. Qed.
Lemma pres_fault {A} msg : pres R (fault (A := A) msg).
Proof. done. Qed.
Lemma pres_fuel {A} : pres R (fun _ : kstate => OutOfFuel (A := A)).
Proof. done. Qed.
Lemma pres_modify f : (forall s, R s (f s)) -> pres R (modify f).
Proof. intros H s. apply H. Qed.
Lemma pres_run {A} (m : K A) s a s' : pres R m -> m s = Ret a s' -> R s s'.
Proof. intros H E. specialize (H s). by rewrite E in H. Qed.
Lemma pres_get_proc i : pres R (get_proc i).
Proof using HR. intros s. unfold get_proc. destruct (ptable s !! i); [cbn; reflexivity|done]. Qed.
Lemma pres_my : pres R my.
Proof using HR. intros s. unfold my. destruct (curproc s); [cbn; reflexivity|done]. Qed.
End Pres.

(** Steps that make no process RUNNING, move no process on or off the CPU, and
    change no process id except to 0. *)
Definition calm_proc (p p' : proc) : Prop :=
  (state p' = RUNNING -> state p = RUNNING) /\ (pid p' = pid p \/ pid p' = 0).
Record calm (s s' : kstate) : Prop := {
  ca_cur : curproc s' = curproc s;
  ca_next : nextpid s' = nextpid s;
  ca_table : Forall2 calm_proc (ptable s) (ptable s')
}.

#[export] Instance calm_proc_preorder : PreOrder calm_proc.
Proof.
  split; [split; auto|]. intros p1 p2 p3 [A1 A2] [B1 B2]. split; [auto|].
  destruct B2 as [->|]; [done|by right].
Qed.

#[export] Instance calm_preorder : PreOrder calm.
Proof.
  split.
  - intros s. split; [done|done|reflexivity].
  - intros s1 s2 s3 [A1 A2 A3] [B1 B2 B3]. split; [congruence|congruence|].
    by transitivity (ptable s2).
Qed.

(** A state that differs only in what [calm] does not look at. *)
Lemma calm_same s s' :
  curproc s' = curproc s -> nextpid s' = nextpid s -> ptable s' = ptable s -> calm s s'.
Proof. intros H1 H2 H3. split; [done|done|]. rewrite H3. apply (ca_table s s). reflexivity. Qed.

Lemma calm_upd i f : (forall p, calm_proc p (f p)) -> pres calm (upd_proc i f).
Proof.
  intros Hf s. unfold upd_proc. destruct (ptable s !! i) as [p|] eqn:E; [|done]. split; [done|done|]. cbn.
  rewrite <- (list_insert_id (ptable s) i p E) at 1. apply Forall2_insert; [reflexivity|apply Hf].
Qed.

(** The steps of the memory code. *)
Create HintDb calm.

Ltac calm_step :=
  first
    [ apply pres_ret | apply pres_gets | apply pres_panic | apply pres_fault | apply pres_fuel
    | apply pres_get_proc | apply pres_my
    | apply pres_modify; intros ?; by apply calm_same
    | solve [eauto with calm]
    | apply calm_upd; intros ?; split; [done || (cbn; congruence)|cbn; auto]
    | apply pres_bind; [apply _| |intros ?]
    | case_match ].
Ltac calm := repeat (first [apply _ | calm_step]).

Section Calm.
Context `{PL : Platform}.

Lemma calm_kread32 v : pres calm (kread32 v).
Proof. apply pres_gets, _. Qed.
Lemma calm_kwrite32 v x : pres calm (kwrite32 v x).
Proof. apply pres_modify. intros s. by apply calm_same. Qed.
Lemma calm_kmodify_mem f : pres calm (kmodify_mem f).
Proof. apply pres_modify. intros s. by apply calm_same. Qed.
#[local] Hint Resolve calm_kread32 calm_kwrite32 calm_kmodify_mem : calm.

Lemma calm_kmem_acquire : pres calm kmem_acquire.
Proof. intros s. unfold kmem_acquire. repeat case_match; simplify_eq; try done; by apply calm_same. Qed.
Lemma calm_kmem_release : pres calm kmem_release.
Proof. intros s. unfold kmem_release. repeat case_match; simplify_eq; try done; by apply calm_same. Qed.
#[local] Hint Resolve calm_kmem_acquire calm_kmem_release : calm.

Lemma calm_kfree v : pres calm (kfree v).
Proof. unfold kfree, when, set_freelist. calm. Qed.
Lemma calm_kalloc : pres calm kalloc.
Proof. unfold kalloc, when, set_freelist. calm. Qed.
#[local] Hint Resolve calm_kfree calm_kalloc : calm.

Lemma calm_walkpgdir d va a : pres calm (walkpgdir d va a).
Proof. unfold walkpgdir. calm. Qed.
#[local] Hint Resolve calm_walkpgdir : calm.

Lemma calm_mappages_loop n : forall d a l pa perm, pres calm (mappages_loop n d a l pa perm).
Proof. induction n as [|n IH]; intros; cbn [mappages_loop]; calm. Qed.
Lemma calm_mappages d va sz pa perm : pres calm (mappages d va sz pa perm).
Proof. apply calm_mappages_loop. Qed.
#[local] Hint Resolve calm_mappages : calm.

Lemma calm_cq_remove pte : pres calm (cq_remove pte).
Proof. unfold cq_remove. calm. Qed.
#[local] Hint Resolve calm_cq_remove : calm.

Lemma calm_deallocuvm_loop n : forall d a o, pres calm (deallocuvm_loop n d a o).
Proof. induction n as [|n IH]; intros; cbn [deallocuvm_loop]; calm. Qed.
Lemma calm_deallocuvm d o n : pres calm (deallocuvm d o n).
Proof. unfold deallocuvm. case_match; [calm|]. apply pres_bind; [apply _|apply calm_deallocuvm_loop|calm]. Qed.
#[local] Hint Resolve calm_deallocuvm : calm.

Lemma calm_allocuvm_loop n : forall d a o nsz, pres calm (allocuvm_loop n d a o nsz).
Proof. induction n as [|n IH]; intros; cbn [allocuvm_loop]; calm. Qed.
Lemma calm_allocuvm d o n : pres calm (allocuvm d o n).
Proof. unfold allocuvm. repeat case_match; [calm..|apply calm_allocuvm_loop]. Qed.
#[local] Hint Resolve calm_allocuvm : calm.

Lemma calm_freevm_loop n : forall d i, pres calm (freevm_loop n d i).
Proof. induction n as [|n IH]; intros; cbn [freevm_loop]; calm. Qed.
Lemma calm_freevm d : pres calm (freevm d).
Proof.
  unfold freevm. case_match; [calm|]. apply pres_bind; [apply _|calm|intros ?].
  apply pres_bind; [apply _|apply calm_freevm_loop|calm].
Qed.
#[local] Hint Resolve calm_freevm : calm.

Lemma calm_setupkvm_loop l : forall d, pres calm (setupkvm_loop l d).
Proof. induction l as [|k l IH]; intros; cbn [setupkvm_loop]; calm. Qed.
Lemma calm_setupkvm : pres calm setupkvm.
Proof.
  unfold setupkvm. apply pres_bind; [apply _|calm|intros ?]. case_match; [calm|].
  apply pres_bind; [apply _|calm|intros ?]. case_match; [calm|apply calm_setupkvm_loop].
Qed.
#[local] Hint Resolve calm_setupkvm : calm.

Lemma calm_copyuvm_loop n : forall d d' sz i, pres calm (copyuvm_loop n d d' sz i).
Proof. induction n as [|n IH]; intros; cbn [copyuvm_loop]; calm. Qed.
Lemma calm_copyuvm d sz : pres calm (copyuvm d sz).
Proof.
  unfold copyuvm. apply pres_bind; [apply _|calm|intros ?]. case_match; [calm|apply calm_copyuvm_loop].
Qed.
#[local] Hint Resolve calm_copyuvm : calm.

Lemma calm_switchkvm : pres calm switchkvm.
Proof. apply pres_modify. intros s. by apply calm_same. Qed.
Lemma calm_switchuvm o : pres calm (switchuvm o).
Proof. unfold switchuvm. calm. Qed.
#[local] Hint Resolve calm_switchkvm calm_switchuvm : calm.

Lemma calm_uva2ka d va : pres calm (uva2ka d va).
Proof. unfold uva2ka. calm. Qed.
#[local] Hint Resolve calm_uva2ka : calm.
Lemma calm_flip_bytes n : forall va, pres calm (flip_bytes n va).
Proof.
  induction n as [|n IH]; intros va; cbn [flip_bytes]; [calm|]. apply pres_bind; [apply _| |intros ?; apply IH].
  intros s. unfold flip_byte. destruct (hw_leaf _ _ _); [by apply calm_same|done].
Qed.
Lemma calm_mencrypt_check n : forall d va, pres calm (mencrypt_check n d va).
Proof. induction n as [|n IH]; intros; cbn [mencrypt_check]; calm. Qed.
Lemma calm_encrypt_page pte va : pres calm (encrypt_page pte va).
Proof. unfold encrypt_page. apply pres_bind; [apply _|apply calm_flip_bytes|intros ?; calm]. Qed.
#[local] Hint Resolve calm_encrypt_page calm_mencrypt_check : calm.
Lemma calm_mencrypt_loop n : forall d va, pres calm (mencrypt_loop n d va).
Proof. induction n as [|n IH]; intros; cbn [mencrypt_loop]; calm. Qed.
#[local] Hint Resolve calm_mencrypt_loop : calm.
Lemma calm_mencrypt va len : pres calm (mencrypt va len).
Proof. unfold mencrypt. calm. Qed.
End Calm.

#[export] Hint Resolve calm_kread32 calm_kwrite32 calm_kmodify_mem calm_kfree calm_kalloc calm_deallocuvm
  calm_allocuvm calm_freevm calm_setupkvm calm_copyuvm calm_switchkvm calm_switchuvm calm_mencrypt : calm.

(** ** The invariant *)

Record proc_inv (s : kstate) : Prop := {
  pv_run : forall i p, ptable s !! i = Some p -> state p = RUNNING -> curproc s = Some i;
  pv_pid : forall i j p q, ptable s !! i = Some p -> ptable s !! j = Some q -> pid p = pid q -> pid p <> 0 -> i = j;
  pv_next : forall i p, ptable s !! i = Some p -> 0 <= pid p < nextpid s
}.

Lemma calm_inv s s' : proc_inv s -> calm s s' -> proc_inv s'.
Proof.
  intros [H1 H2 H3] [Hc Hn Ht].
  assert (Hl : forall i p', ptable s' !! i = Some p' -> exists p, ptable s !! i = Some p /\ calm_proc p p').
  { intros i p' Hp'. destruct (Forall2_lookup_r _ _ _ _ _ Ht Hp') as (p & Hp & Hcp). eauto. }
  split.
  - intros i p' Hp' Hr. destruct (Hl i p' Hp') as (p & Hp & [Hcs _]). rewrite Hc. apply (H1 i p Hp). auto.
  - intros i j p' q' Hp' Hq' E Hnz. destruct (Hl i p' Hp') as (p & Hp & [_ [Ep|Ep]]); [|congruence].
    destruct (Hl j q' Hq') as (q & Hq & [_ [Eq|Eq]]); [|congruence]. apply (H2 i j p q Hp Hq); congruence.
  - intros i p' Hp'. destruct (Hl i p' Hp') as (p & Hp & [_ [-> | ->]]); rewrite Hn; specialize (H3 i p Hp); lia.
Qed.

Section Ops.
Context `{PL : Platform} `{FS : FsOps}.

(** The file system leaves the process table to proc.c. *)
Hypothesis fs_fileclose : forall f, pres calm (fileclose f).
Hypothesis fs_iput : forall ip, pres calm (iput ip).
Hypothesis fs_begin : pres calm begin_op.
Hypothesis fs_end : pres calm end_op.
#[local] Hint Resolve fs_fileclose fs_iput fs_begin fs_end : calm.

Lemma calm_acquire_ptable : pres calm acquire_ptable.
Proof using Type. intros s. unfold acquire_ptable. destruct (ptable_lock s); [done|by apply calm_same]. Qed.
Lemma calm_release_ptable : pres calm release_ptable.
Proof using Type. intros s. unfold release_ptable. destruct (ptable_lock s); [by apply calm_same|done]. Qed.
#[local] Hint Resolve calm_acquire_ptable calm_release_ptable : calm.

Lemma calm_wakeup1 c : pres calm (wakeup1 c).
Proof using Type.
  assert (Hp : forall p, calm_proc p (wakeup1_proc c p)).
  { intros p. unfold wakeup1_proc. destruct (is_state SLEEPING p && bool_decide (pchan p = c)); [|reflexivity].
    split; [cbn; congruence|by left]. }
  apply pres_modify. intros s. split; [done|done|]. cbn [ptable with_ptable].
  induction (ptable s); constructor; auto.
Qed.
#[local] Hint Resolve calm_wakeup1 : calm.
Lemma calm_wakeup c : pres calm (wakeup c).
Proof using Type. unfold wakeup. calm. Qed.

Lemma calm_filedup f : pres calm (filedup f).
Proof using Type. intros s. rewrite filedup_law. reflexivity. Qed.
Lemma calm_idup ip : pres calm (idup ip).
Proof using Type. intros s. rewrite idup_law. reflexivity. Qed.
#[local] Hint Resolve calm_filedup calm_idup : calm.
Lemma calm_fork_files np l : forall i, pres calm (fork_files np l i).
Proof using Type. induction l as [|f l IH]; intros i; cbn [fork_files]; calm. Qed.
Lemma calm_close_files me l : forall i, pres calm (close_files me l i).
Proof using fs_fileclose. induction l as [|f l IH]; intros i; cbn [close_files]; calm. Qed.
Lemma calm_reparent n : forall i me, pres calm (reparent_loop n i me).
Proof using Type. induction n as [|n IH]; intros i me; cbn [reparent_loop]; calm. Qed.
Lemma calm_set_name np l : pres calm (upd_proc np (fun q => set_name_str q l)).
Proof using Type. apply calm_upd. intros p. unfold set_name_str. case_match; (split; [done|by left]). Qed.
Lemma calm_cq_init i : pres calm (cq_init i).
Proof using Type. unfold cq_init. calm. Qed.
#[local] Hint Resolve calm_fork_files calm_close_files calm_reparent calm_set_name calm_cq_init : calm.

Lemma calm_kill n : pres calm (kill n).
Proof using Type. unfold kill. calm. Qed.
Lemma calm_wait_scan n : forall i me h, pres calm (wait_scan n i me h).
Proof using Type. induction n as [|n IH]; intros i me h; cbn [wait_scan]; calm. Qed.
Lemma calm_growproc n : pres calm (growproc n).
Proof using Type. unfold growproc. calm. Qed.

(** [allocproc] takes a fresh id. *)
Lemma fresh_pid_inv s i p :
  proc_inv s -> ptable s !! i = Some p -> nextpid s < 2147483647 -> 0 < nextpid s ->
  proc_inv (with_nextpid (with_ptable s (<[i := set_pid p (nextpid s)]> (ptable s))) (s32 (nextpid s + 1))).
Proof using Type.
  intros [H1 H2 H3] Hi Hmax Hpos. rewrite s32_small by lia. split; cbn.
  - intros j q Hj Hr. destruct (decide (j = i)) as [->|Hne].
    + rewrite list_lookup_insert_eq in Hj by (by eapply lookup_lt_Some). simplify_eq. by apply (H1 i p).
    + rewrite list_lookup_insert_ne in Hj by done. by apply (H1 j q).
  - intros j k q r Hj Hk E Hnz. destruct (decide (j = i)) as [->|Hj'], (decide (k = i)) as [->|Hk']; [done|..].
    + rewrite list_lookup_insert_eq in Hj by (by eapply lookup_lt_Some). rewrite list_lookup_insert_ne in Hk by done.
      simplify_eq. cbn in E. specialize (H3 k r Hk). lia.
    + rewrite list_lookup_insert_ne in Hj by done. rewrite list_lookup_insert_eq in Hk by (by eapply lookup_lt_Some).
      simplify_eq. cbn in E. specialize (H3 j q Hj). lia.
    + rewrite list_lookup_insert_ne in Hj, Hk by done. by apply (H2 j k q r).
  - intros j q Hj. destruct (decide (j = i)) as [->|Hne].
    + rewrite list_lookup_insert_eq in Hj by (by eapply lookup_lt_Some). simplify_eq. cbn. lia.
    + rewrite list_lookup_insert_ne in Hj by done. specialize (H3 j q Hj). lia.
Qed.

Lemma allocproc_inv s r s' :
  proc_inv s -> 0 < nextpid s < 2147483647 -> allocproc s = Ret r s' ->
  proc_inv s' /\ nextpid s <= nextpid s' <= nextpid s + 1 /\ curproc s' = curproc s.
Proof using Type.
  intros Hinv Hn E. unfold allocproc in E. kinv E. apply (pres_run calm _ _ _ _ calm_acquire_ptable) in E0 as C0.
  assert (I0 := calm_inv _ _ Hinv C0). kinv E. unfold gets in E1. simplify_eq.
  destruct (find_proc _ _ _) as [i|].
  2:{ apply (pres_run calm) in E as C; [|calm]. split; [by eapply calm_inv|].
      rewrite (ca_next _ _ C), (ca_cur _ _ C), (ca_next _ _ C0), (ca_cur _ _ C0). split; [lia|done]. }
  kinv E. apply (pres_run calm) in E1 as C1; [|calm]. assert (I1 := calm_inv _ _ I0 C1).
  kinv E. unfold gets in E2. simplify_eq. kinv E. unfold upd_proc in E2.
  destruct (ptable s2 !! i) as [p|] eqn:Ep; [|done]. simplify_eq. kinv E. unfold modify in E2. simplify_eq.
  assert (Hnp : nextpid s2 = nextpid s) by (rewrite (ca_next _ _ C1); apply C0).
  assert (Hcp : curproc s2 = curproc s) by (rewrite (ca_cur _ _ C1); apply C0).
  assert (I2 := fresh_pid_inv s2 i p I1 Ep ltac:(lia) ltac:(lia)). cbn [nextpid with_ptable] in E.
  apply (pres_run calm) in E as C; [|calm]. split; [by eapply calm_inv|].
  rewrite (ca_next _ _ C), (ca_cur _ _ C). cbn. rewrite Hnp, s32_small by lia. split; [lia|done].
Qed.

(** After the last step of a process on the CPU nothing is RUNNING. *)
Lemma sched_inv s r s' : proc_inv s -> sched s = Ret r s' ->
  proc_inv s' /\ nextpid s' = nextpid s /\ curproc s' = None /\ ptable_lock s' = true.
Proof using Type.
  intros [H1 H2 H3] E. unfold sched, bind, my, get_proc, gets, switchkvm, modify in E. cbn in E.
  destruct (curproc s) as [me|] eqn:Ec; [|done]. destruct (ptable s !! me) as [p|] eqn:Ep; [|done].
  destruct (ptable_lock s) eqn:El; [|done]. cbn [negb] in E. destruct (is_state RUNNING p) eqn:Er; [done|].
  injection E as <- <-. split; [|done]. split; cbn; [|exact H2|exact H3].
  intros i q Hi Hr. specialize (H1 i q Hi Hr). simplify_eq. unfold is_state in Er.
  by rewrite bool_decide_eq_false in Er.
Qed.

(** The scheduler marks RUNNING only the process it puts on the CPU. *)
Lemma run_slot_inv s i p :
  proc_inv s -> curproc s = Some i -> ptable s !! i = Some p ->
  proc_inv (with_ptable s (<[i := set_state p RUNNING]> (ptable s))).
Proof using Type.
  intros [H1 H2 H3] Hc Hi. assert (Hlt := lookup_lt_Some _ _ _ Hi).
  assert (Hl : forall j q, <[i := set_state p RUNNING]> (ptable s) !! j = Some q ->
            exists q0, ptable s !! j = Some q0 /\ pid q = pid q0 /\ (j = i \/ q = q0)).
  { intros j q Hj. destruct (decide (j = i)) as [->|Hne].
    - rewrite list_lookup_insert_eq in Hj by done. simplify_eq. eauto.
    - rewrite list_lookup_insert_ne in Hj by done. eauto 6. }
  split; cbn.
  - intros j q Hj Hr. destruct (Hl j q Hj) as (q0 & Hq & _ & [->| ->]); [done|by apply (H1 j q0)].
  - intros j k q r Hj Hk E Hnz. destruct (Hl j q Hj) as (q0 & Hq & Eq & _), (Hl k r Hk) as (r0 & Hr & Er & _).
    apply (H2 j k q0 r0); congruence.
  - intros j q Hj. destruct (Hl j q Hj) as (q0 & Hq & -> & _). by apply (H3 j q0).
Qed.

Lemma idle_inv s o : proc_inv s -> curproc s = None -> proc_inv (with_curproc s o).
Proof using Type.
  intros [H1 H2 H3] Hc. split; cbn; [|exact H2|exact H3].
  intros i p Hi Hr. specialize (H1 i p Hi Hr). congruence.
Qed.

(** What a scheduler's scan leaves: the slot it switched to is on the CPU and the
    lock is for that process to release; or it found none. *)
Definition scanned (s : kstate) (r : option nat) (s' : kstate) : Prop :=
  proc_inv s' /\ nextpid s' = nextpid s /\ curproc s' = r /\ ptable_lock s' = ptable_lock s.

Lemma scheduler_run_inv s i r s' :
  proc_inv s -> curproc s = None -> scheduler_run i s = Ret r s' ->
  scanned s (if r then Some i else None) s'.
Proof using Type.
  intros Hinv Hc E. unfold scheduler_run in E. unfold bind at 1, get_proc at 1 in E.
  destruct (ptable s !! i) as [p|] eqn:Ep; [|done]. destruct (is_state RUNNABLE p); cbn [negb] in E.
  - unfold bind at 1, modify in E. kinv E. apply (pres_run calm) in E0 as C; [|apply calm_switchuvm].
    assert (I1 := calm_inv _ _ (idle_inv _ (Some i) Hinv Hc) C).
    assert (El : ptable_lock s0 = ptable_lock s).
    { unfold switchuvm, bind, get_proc in E0. cbn in E0. rewrite Ep in E0. repeat case_match; try done.
      injection E0 as <- <-. done. }
    kinv E. unfold upd_proc in E1.
    destruct (ptable s0 !! i) as [q|] eqn:Eq; [|done]. injection E1 as <- <-. injection E as <- <-.
    split; [apply run_slot_inv; [done|apply C|done]|]. cbn. rewrite (ca_next _ _ C), (ca_cur _ _ C). done.
  - injection E as <- <-. by split.
Qed.

Lemma scheduler_scan_inv n : forall s i r s',
  proc_inv s -> curproc s = None -> scheduler_scan n i s = Ret r s' -> scanned s r s'.
Proof using Type.
  induction n as [|n IH]; intros s i r s' Hinv Hc E; cbn [scheduler_scan] in E; [injection E as <- <-; by split|].
  kinv E. pose proof (scheduler_run_inv _ _ _ _ Hinv Hc E0) as (I & N & C & L).
  destruct a; [by injection E as <- <-|].
  destruct (IH s0 (S i) r s' I C E) as (I2 & N2 & C2 & L2). split; [done|]. split_and!; congruence.
Qed.

Lemma scheduler_scan_bound n : forall s i r s',
  scheduler_scan n i s = Ret r s' -> forall j, r = Some j -> (j < i + n)%nat.
Proof using Type.
  induction n as [|n IH]; intros s i r s' E j ->; cbn [scheduler_scan] in E; [done|].
  kinv E. destruct a; [injection E as <- <-; lia|]. specialize (IH _ _ _ _ E j eq_refl). lia.
Qed.

Lemma scheduler_from_bound i s r s' :
  (i <= Z.to_nat NPROC)%nat -> scheduler_from i s = Ret r s' -> forall j, r = Some j -> (j < Z.to_nat NPROC)%nat.
Proof using Type.
  intros Hi E j ->. unfold scheduler_from in E. kinv E. destruct a as [j'|].
  - injection E as <- <-. pose proof (scheduler_scan_bound _ _ _ _ _ E0 j' eq_refl). lia.
  - kinv E. done.
Qed.

(** [scheduler_from] holds the lock on entry. *)
Lemma scheduler_from_inv i s r s' :
  proc_inv s -> curproc s = None -> ptable_lock s = true -> scheduler_from i s = Ret r s' ->
  proc_inv s' /\ nextpid s' = nextpid s /\ curproc s' = r /\ (r = None -> ptable_lock s' = false).
Proof using Type.
  intros Hinv Hc Hl E. unfold scheduler_from in E. kinv E.
  destruct (scheduler_scan_inv _ _ _ _ _ Hinv Hc E0) as (I & N & C & L).
  destruct a as [j|]; [by injection E as <- <-|]. kinv E. unfold release_ptable in E1.
  rewrite L, Hl in E1. injection E1 as <- <-. injection E as <- <-. split; [|done].
  eapply calm_inv; [exact I|]. by apply calm_same.
Qed.

(** ** Runs of process operations *)

(** Off the CPU a process leaves [ptable.lock] to the scheduler. *)
Definition off_or_same (s s' : kstate) : Prop :=
  curproc s' = curproc s \/ (curproc s' = None /\ ptable_lock s' = true).
Definition keeps {A} (m : K A) : Prop := forall s r s', proc_inv s -> m s = Ret r s' ->
  proc_inv s' /\ nextpid s' = nextpid s /\ off_or_same s s'.

Lemma keeps_calm {A} (m : K A) : pres calm m -> keeps m.
Proof using Type.
  intros Hm s r s' Hinv E. apply (pres_run calm) in E as C; [|done].
  split; [by eapply calm_inv|]. split; [apply C|left; apply C].
Qed.
Lemma keeps_bind {A B} (m : K A) (f : A -> K B) : pres calm m -> (forall a, keeps (f a)) -> keeps (bind m f).
Proof using Type.
  intros Hm Hf s r s' Hinv E. kinv E. apply (pres_run calm) in E0 as C; [|done].
  destruct (Hf a s0 r s' (calm_inv _ _ Hinv C) E) as (I & N & O). unfold off_or_same in *.
  rewrite (ca_next _ _ C), (ca_cur _ _ C) in *. done.
Qed.
Lemma keeps_then_ret {A B} (m : K A) (b : B) : keeps m -> keeps (bind m (fun _ => ret b)).
Proof using Type. intros Hm s r s' Hinv E. kinv E. injection E as <- <-. by eapply Hm. Qed.
Lemma keeps_sched : keeps sched.
Proof using Type.
  intros s r s' Hinv E. destruct (sched_inv s r s' Hinv E) as (I & N & C & L).
  split; [done|]. split; [done|by right].
Qed.

Ltac keeps :=
  repeat first
    [ apply keeps_sched | solve [apply keeps_calm; calm] | apply keeps_bind; [solve [calm]|intros ?] | case_match ].

Lemma keeps_exit : keeps exit.
Proof using fs_fileclose fs_iput fs_begin fs_end. unfold exit, exit_locked. keeps. Qed.
Lemma keeps_sleep_out c rel : (forall m, rel = Some m -> pres calm m) -> keeps (sleep_out c rel).
Proof using Type.
  intros Hrel. unfold sleep_out. destruct rel as [m|]; [specialize (Hrel m eq_refl)|]; keeps.
Qed.
Lemma calm_sleep_in acq : (forall m, acq = Some m -> pres calm m) -> pres calm (sleep_in acq).
Proof using Type.
  intros Hacq. unfold sleep_in. destruct acq as [m|]; [specialize (Hacq m eq_refl)|]; calm.
Qed.
Lemma keeps_wait_turn : keeps wait_turn.
Proof using Type.
  unfold wait_turn. apply keeps_bind; [calm|intros me].
  apply keeps_bind; [apply calm_wait_scan|intros [x|h]]; [apply keeps_calm; calm|].
  apply keeps_bind; [calm|intros p]. case_match; [apply keeps_calm; calm|].
  by apply keeps_then_ret, keeps_sleep_out.
Qed.
Lemma keeps_wait : keeps wait.
Proof using Type. apply keeps_bind; [calm|intros ?; apply keeps_wait_turn]. Qed.
Lemma keeps_wait_resume : keeps wait_resume.
Proof using Type. apply keeps_bind; [by apply calm_sleep_in|intros ?; apply keeps_wait_turn]. Qed.
Lemma keeps_yield_out : keeps yield_out.
Proof using Type. unfold yield_out. keeps. Qed.

(** After [allocproc], [fork] is calm. *)
Lemma fork_inv s r s' :
  proc_inv s -> 0 < nextpid s < 2147483647 -> fork s = Ret r s' ->
  proc_inv s' /\ nextpid s <= nextpid s' <= nextpid s + 1 /\ curproc s' = curproc s.
Proof using Type.
  intros Hinv Hn E. unfold fork in E. kinv E. apply (pres_run calm) in E0 as C; [|apply pres_my, _].
  assert (I := calm_inv _ _ Hinv C). kinv E. rewrite <- (ca_next _ _ C) in Hn.
  destruct (allocproc_inv _ _ _ I Hn E1) as (I1 & N1 & C1). apply (pres_run calm) in E as C2; [|calm].
  split; [by eapply calm_inv|]. rewrite (ca_next _ _ C2), (ca_cur _ _ C2), C1, (ca_cur _ _ C).
  rewrite (ca_next _ _ C) in N1. done.
Qed.

(** What the process on the CPU can do to the process table: make a call, or go on
    with one when it runs again.  Locks other than [ptable.lock], which [sleep]
    releases and takes again, are any calm action. *)
Inductive proc_call (s s' : kstate) : Prop :=
| PFork r : fork s = Ret r s' -> proc_call s s'
| PExit r : exit s = Ret r s' -> proc_call s s'
| PWait r : wait s = Ret r s' -> proc_call s s'
| PWaitResume r : wait_resume s = Ret r s' -> proc_call s s'
| PYield r : yield_out s = Ret r s' -> proc_call s s'
| PYieldIn r : yield_in s = Ret r s' -> proc_call s s'
| PSleep c rel r : (forall m, rel = Some m -> pres calm m) -> sleep_out c rel s = Ret r s' -> proc_call s s'
| PSleepIn acq r : (forall m, acq = Some m -> pres calm m) -> sleep_in acq s = Ret r s' -> proc_call s s'
| PWakeup c r : wakeup c s = Ret r s' -> proc_call s s'
| PKill k r : kill k s = Ret r s' -> proc_call s s'
| PGrow n r : growproc n s = Ret r s' -> proc_call s s'.

(** A configuration of the CPU: the slot for which [scheduler] is in [swtch]
    ([None] at the top of its loop), and the kernel's state. *)
Definition config : Type := option nat * kstate.

(** What the scheduler does next. *)
Definition scheduler_next (a : option nat) : K (option nat) :=
  match a with None => scheduler_turn | Some i => scheduler_resume i end.

(** The process on the CPU makes a call; with no process on it, an interrupt
    wakes sleepers or the scheduler goes on. *)
Inductive proc_step : config -> config -> Prop :=
| PCall a s s' : curproc s <> None -> proc_call s s' -> proc_step (a, s) (a, s')
| PIntr a s s' c r : curproc s = None -> wakeup c s = Ret r s' -> proc_step (a, s) (a, s')
| PSchedule a s r s' : curproc s = None -> scheduler_next a s = Ret r s' -> proc_step (a, s) (r, s').

Record config_inv (c : config) : Prop := {
  cv_table : proc_inv c.2;
  cv_slot : forall i, curproc c.2 = Some i -> c.1 = Some i;
  cv_lock : curproc c.2 = None -> ptable_lock c.2 = bool_decide (is_Some c.1);
  cv_bound : forall i, c.1 = Some i -> (i < Z.to_nat NPROC)%nat
}.

Lemma proc_call_inv s s' : proc_inv s -> 0 < nextpid s < 2147483647 -> proc_call s s' ->
  proc_inv s' /\ nextpid s <= nextpid s' <= nextpid s + 1 /\ off_or_same s s'.
Proof using fs_fileclose fs_iput fs_begin fs_end.
  assert (Hk : forall (A : Type) (m : K A) r, keeps m -> proc_inv s -> m s = Ret r s' ->
    proc_inv s' /\ nextpid s <= nextpid s' <= nextpid s + 1 /\ off_or_same s s').
  { intros A m r Hm Hinv E. destruct (Hm s r s' Hinv E) as (I & -> & O). split; [done|]. split; [lia|done]. }
  intros Hinv Hn [r E|r E|r E|r E|r E|r E|c rel r Hr E|acq r Ha E|c r E|k r E|n r E].
  - destruct (fork_inv s r s' Hinv Hn E) as (I & N & C). split; [done|]. split; [done|by left].
  - by apply (Hk _ _ r keeps_exit).
  - by apply (Hk _ _ r keeps_wait).
  - by apply (Hk _ _ r keeps_wait_resume).
  - by apply (Hk _ _ r keeps_yield_out).
  - by apply (Hk _ _ r (keeps_calm _ calm_release_ptable)).
  - by apply (Hk _ _ r (keeps_sleep_out c rel Hr)).
  - by apply (Hk _ _ r (keeps_calm _ (calm_sleep_in acq Ha))).
  - by apply (Hk _ _ r (keeps_calm _ (calm_wakeup c))).
  - by apply (Hk _ _ r (keeps_calm _ (calm_kill k))).
  - by apply (Hk _ _ r (keeps_calm _ (calm_growproc n))).
Qed.

Lemma wakeup_lock c s r s' : wakeup c s = Ret r s' -> ptable_lock s' = ptable_lock s.
Proof using Type.
  unfold wakeup, wakeup1, modify_ptable, modify, acquire_ptable, release_ptable, bind.
  destruct (ptable_lock s) eqn:E; [done|]. cbn. intros. by simplify_eq.
Qed.

Lemma scheduler_next_inv a s r s' :
  config_inv (a, s) -> curproc s = None -> scheduler_next a s = Ret r s' ->
  config_inv (r, s') /\ nextpid s' = nextpid s.
Proof using Type.
  intros [I _ L B] Hc E. cbn in I, L, B. specialize (L Hc).
  assert (H : exists s1 i, (i <= Z.to_nat NPROC)%nat /\ proc_inv s1 /\ curproc s1 = None /\ ptable_lock s1 = true /\ nextpid s1 = nextpid s /\
    scheduler_from i s1 = Ret r s').
  { destruct a as [i|]; cbn in E, L; [exists s, (S i); specialize (B i eq_refl); split; [lia|done]|].
    unfold scheduler_turn in E. kinv E.
    unfold acquire_ptable in E0. rewrite L in E0. injection E0 as <- <-. exists (with_ptable_lock s true), 0%nat.
    split; [lia|]. split_and!; try done. eapply calm_inv; [exact I|by apply calm_same]. }
  destruct H as (s1 & i & Hi & I1 & C1 & L1 & N1 & E1).
  destruct (scheduler_from_inv i s1 r s' I1 C1 L1 E1) as (I2 & N2 & C2 & L2).
  split; [|congruence]. split; cbn; [done|congruence| |by apply (scheduler_from_bound i s1 r s')].
  intros Hn. rewrite L2 by congruence. rewrite Hn in C2. by subst r.
Qed.

Lemma proc_step_inv c c' :
  config_inv c -> 0 < nextpid c.2 < 2147483647 -> proc_step c c' ->
  config_inv c' /\ nextpid c.2 <= nextpid c'.2 <= nextpid c.2 + 1.
Proof using fs_fileclose fs_iput fs_begin fs_end.
  intros Hinv Hn Hs. destruct Hs as [a s s' Hc E|a s s' ch r Hc E|a s r s' Hc E]; cbn in Hn |- *.
  - destruct Hinv as [I S L B]. cbn in *. destruct (proc_call_inv s s' I Hn E) as (I' & N' & O). split; [|done].
    destruct (curproc s) as [i|] eqn:Ei; [|done]. specialize (S i eq_refl). subst a. split; cbn; [done| | |done].
    + intros j Hj. destruct O as [O|[O _]]; congruence.
    + intros Hc'. destruct O as [O|[_ O]]; [congruence|done].
  - destruct Hinv as [I S L B]. cbn in *. pose proof (pres_run calm _ _ _ _ (calm_wakeup ch) E) as C.
    rewrite (ca_next _ _ C). split; [|lia]. split; cbn; [by eapply calm_inv| | |done].
    + intros j. by rewrite (ca_cur _ _ C), Hc.
    + intros _. rewrite (wakeup_lock _ _ _ _ E). auto.
  - destruct (scheduler_next_inv a s r s' Hinv Hc E) as [I ->]. split; [done|lia].
Qed.

(** In such a configuration the scheduler can go on: it does not meet its own
    lock, and a process that it picks has a stack and a directory. *)
Definition schedulable (s : kstate) : Prop :=
  length (ptable s) = Z.to_nat NPROC /\
  Forall (fun p => state p = RUNNABLE -> kstack p <> 0 /\ pgdir p <> 0) (ptable s).

(** The table of a booted kernel, and the first process. *)
Lemma boot_inv s :
  Forall (fun p => state p = UNUSED /\ pid p = 0) (ptable s) -> 0 < nextpid s -> proc_inv s.
Proof using Type.
  intros Ht Hn. assert (Hl : forall i p, ptable s !! i = Some p -> state p = UNUSED /\ pid p = 0).
  { intros i p Hi. exact (Forall_lookup_1 _ _ _ _ Ht Hi). }
  split.
  - intros i p Hi. destruct (Hl i p Hi). congruence.
  - intros i j p q Hi _ _. destruct (Hl i p Hi). congruence.
  - intros i p Hi. destruct (Hl i p Hi). lia.
Qed.
Lemma userinit_inv start size s r s' :
  pres calm namei_root -> proc_inv s -> 0 < nextpid s < 2147483647 ->
  userinit start size s = Ret r s' -> proc_inv s'.
Proof using Type.
  intros Hroot Hinv Hn E. unfold userinit in E. kinv E. destruct (allocproc_inv _ _ _ Hinv Hn E0) as (I & _).
  eapply calm_inv, (pres_run calm); [exact I| |exact E]. unfold inituvm. calm.
Qed.

(** ** What the scheduler runs *)

Lemma find_proc_split f t : forall i k,
  find_proc f t i = Some k ->
  exists n p, k = (i + n)%nat /\ t !! n = Some p /\ f p = true /\ (forall m q, (m < n)%nat -> t !! m = Some q -> f q = false).
Proof using Type.
  induction t as [|p t IH]; intros i k E; cbn in E; [done|]. destruct (f p) eqn:Ef.
  - simplify_eq. exists 0%nat, p. rewrite Nat.add_0_r. repeat split; try done. intros m q Hm. lia.
  - destruct (IH (S i) k E) as (n & q & -> & Hq & Hf & Hlt). exists (S n), q. split; [lia|]. repeat split; try done.
    intros [|m] r Hm Hr; cbn in Hr; [congruence|]. apply (Hlt m); [lia|done].
Qed.
Lemma find_proc_none f t : forall i, find_proc f t i = None -> forall n p, t !! n = Some p -> f p = false.
Proof using Type.
  induction t as [|p t IH]; intros i E [|n] q Hq; cbn in *; [done..| |]; destruct (f p) eqn:Ef; simplify_eq; eauto.
Qed.

(** The state in which [scheduler] switches to slot [i]. *)
Definition on_cpu (s s' : kstate) (i : nat) (p : proc) : Prop :=
  curproc s' = Some i /\ ptable s' = <[i := set_state p RUNNING]> (ptable s) /\
  cr3 s' = V2P (pgdir p) /\ ts_esp0 s' = u32 (kstack p + KSTACKSIZE) /\
  ptable_lock s' = ptable_lock s /\ phys s' = phys s /\ kmem s' = kmem s.

Lemma scheduler_run_skip s i p :
  ptable s !! i = Some p -> is_state RUNNABLE p = false -> scheduler_run i s = Ret false s.
Proof using Type. intros Hp Hs. unfold scheduler_run, bind at 1, get_proc. rewrite Hp, Hs. done. Qed.
Lemma scheduler_run_go s i p :
  ptable s !! i = Some p -> is_state RUNNABLE p = true -> kstack p <> 0 -> pgdir p <> 0 ->
  exists s', scheduler_run i s = Ret true s' /\ on_cpu s s' i p.
Proof using Type.
  intros Hp Hs Hk Hd. unfold scheduler_run. unfold bind at 1, get_proc at 1. rewrite Hp, Hs. cbn [negb].
  apply Z.eqb_neq in Hk, Hd. unfold switchuvm, upd_proc, modify, bind, get_proc. cbn. rewrite !Hp, Hk, Hd. cbn. rewrite Hp.
  eexists. split; [reflexivity|]. done.
Qed.

Lemma scheduler_scan_skip s n : forall i m,
  (forall j p, (i <= j < i + n)%nat -> ptable s !! j = Some p -> is_state RUNNABLE p = false) ->
  (i + n <= length (ptable s))%nat ->
  scheduler_scan (n + m) i s = scheduler_scan m (i + n) s.
Proof using Type.
  induction n as [|n IH]; intros i m Hf Hlen; cbn [scheduler_scan Nat.add]; [by rewrite Nat.add_0_r|].
  destruct (lookup_lt_is_Some_2 (ptable s) i ltac:(lia)) as [p Hp].
  rewrite (bind_Ret _ _ _ _ _ (scheduler_run_skip s i p Hp (Hf i p ltac:(lia) Hp))).
  rewrite IH; [f_equal; lia| |lia]. intros j q Hj. apply Hf. lia.
Qed.

(** From slot [i] on the scheduler runs the first RUNNABLE process: it is RUNNING
    and on the CPU, on its own page directory and kernel stack, with
    [ptable.lock] held for it to release, and no other process and no memory has
    changed.  When there is none the lock is given back. *)
Lemma scheduler_from_runs s i :
  schedulable s -> ptable_lock s = true -> (i <= Z.to_nat NPROC)%nat ->
  match find_proc (is_state RUNNABLE) (drop i (ptable s)) i with
  | Some j => exists p s', ptable s !! j = Some p /\ state p = RUNNABLE /\
      scheduler_from i s = Ret (Some j) s' /\ on_cpu s s' j p
  | None => scheduler_from i s = Ret None (with_ptable_lock s false)
  end.
Proof using Type.
  intros [Hlen Hok] Hl Hi. unfold scheduler_from. destruct (find_proc _ _ _) as [j|] eqn:Ef.
  - apply find_proc_split in Ef as (n & p & -> & Hp & Hs & Hlt). rewrite lookup_drop in Hp.
    assert (Hst : state p = RUNNABLE) by (unfold is_state in Hs; by apply bool_decide_eq_true in Hs).
    destruct (Forall_lookup_1 _ _ _ _ Hok Hp Hst) as [Hk Hd]. assert (Hn := lookup_lt_Some _ _ _ Hp).
    destruct (scheduler_run_go s (i + n) p Hp Hs Hk Hd) as (s' & Er & Hcpu). exists p, s'. split_and!; try done.
    replace (Z.to_nat NPROC - i)%nat with (n + S (Z.to_nat NPROC - i - n - 1))%nat by lia. unfold bind at 1.
    rewrite scheduler_scan_skip; [| |lia].
    + cbn [scheduler_scan]. rewrite (bind_Ret _ _ _ _ _ Er). done.
    + intros j q Hj Hq. apply (Hlt (j - i)%nat); [lia|]. rewrite lookup_drop. by replace (i + (j - i))%nat with j by lia.
  - unfold bind at 1. replace (Z.to_nat NPROC - i)%nat with (Z.to_nat NPROC - i + 0)%nat by lia.
    rewrite scheduler_scan_skip; [| |lia].
    + cbn [scheduler_scan ret]. unfold release_ptable, bind. by rewrite Hl.
    + intros j q Hj Hq. apply (find_proc_none _ _ _ Ef (j - i)). rewrite lookup_drop.
      by replace (i + (j - i))%nat with j by lia.
Qed.

(** The scheduler at the top of its loop and after a [swtch]. *)
Lemma scheduler_next_runs a s :
  schedulable s -> ptable_lock s = bool_decide (is_Some a) -> (forall i, a = Some i -> (i < Z.to_nat NPROC)%nat) ->
  exists r s', scheduler_next a s = Ret r s' /\
    r = find_proc (is_state RUNNABLE) (drop (from_option S 0%nat a) (ptable s)) (from_option S 0%nat a).
Proof using Type.
  intros Hs Hl Ha. set (s1 := with_ptable_lock s true).
  assert (E : scheduler_next a s = scheduler_from (from_option S 0%nat a) s1).
  { destruct a as [i|]; cbn in Hl |- *.
    - unfold scheduler_resume. f_equal. destruct s; cbn in *. by subst.
    - unfold scheduler_turn, bind, acquire_ptable. by rewrite Hl. }
  pose proof (scheduler_from_runs s1 (from_option S 0%nat a) Hs eq_refl) as H.
  rewrite E. change (ptable s1) with (ptable s) in H. destruct (find_proc _ _ _) as [j|].
  - destruct H as (p & s' & _ & _ & -> & _); [destruct a; cbn; [specialize (Ha _ eq_refl); lia|lia]|eauto].
  - rewrite H; [eauto|]. destruct a; cbn; [specialize (Ha _ eq_refl); lia|lia].
Qed.

(** C15. However the processes of a CPU fork, exit, wait, sleep, wake, yield, are
    killed, grow and are scheduled, in runs of [k] steps that do not use up the
    process ids: a process that is RUNNING is the one on the CPU, no two processes
    share a process id, and every id is below the next one to be given out.  With
    no process on the CPU the scheduler holds [ptable.lock] exactly when it goes on
    behind a slot it had switched to, and its next turn picks the first RUNNABLE
    process from there.  ([nextpid] is an [int] that is incremented without a
    check; a run that takes it to the end of its range is not covered.) *)
Theorem process_table_invariant c c' k :
  config_inv c -> 0 < nextpid c.2 -> nextpid c.2 + Z.of_nat k <= 2147483647 -> nsteps proc_step k c c' ->
  config_inv c' /\
  (curproc c'.2 = None -> schedulable c'.2 ->
   let from := from_option S 0%nat c'.1 in
   exists s'', scheduler_next c'.1 c'.2 =
     Ret (find_proc (is_state RUNNABLE) (drop from (ptable c'.2)) from) s'').
Proof using fs_fileclose fs_iput fs_begin fs_end.
  intros Hinv Hpos Hk Hs. assert (H : config_inv c').
  { revert Hinv Hpos Hk. induction Hs as [c|k c c1 c' H1 Hs IH]; intros Hinv Hpos Hk; [done|].
    destruct (proc_step_inv c c1 Hinv ltac:(lia) H1) as [I1 N1]. apply IH; [done|lia..]. }
  split; [done|]. intros Hc Hsc from. destruct H as [_ _ L B].
  destruct (scheduler_next_runs c'.1 c'.2 Hsc (L Hc) B) as (r & s'' & E & ->). by exists s''.
Qed.

End Ops.

(** ** A run *)

#[local] Existing Instance ex_platform.
#[local] Instance ex_proc_fs : FsOps := {|
  filedup := fun f => ret f; idup := fun ip => ret ip; fileclose := fun _ => ret tt; iput := fun _ => ret tt;
  namei_root := ret 1; begin_op := ret tt; end_op := ret tt; iinit := fun _ => ret tt; initlog := fun _ => ret tt;
  filedup_law := fun f s => eq_refl; idup_law := fun ip s => eq_refl
|}.

(** One RUNNABLE process, in slot 3, and an idle CPU. *)
Definition ex_idle : kstate :=
  mk_kstate ∅ (mk_kmem false false 0) false
    (<[3%nat := set_pid (set_state ex_proc RUNNABLE) 1]> (replicate 64 zero_proc)) None 2 (Some 3%nat) 0
    0 0 0 0 (gdt_tss ex_state) 0 false.

Definition ex_after {A} (m : K A) (s : kstate) : kstate := match m s with Ret _ s' => s' | _ => s end.
Definition ex_ran : kstate := ex_after scheduler_turn ex_idle.
Definition ex_released : kstate := ex_after yield_in ex_ran.
Definition ex_yielded : kstate := ex_after yield_out ex_released.
Definition ex_scanned : kstate := ex_after (scheduler_resume 3) ex_yielded.

Lemma ex_idle_inv : proc_inv ex_idle.
Proof.
  assert (Hl : forall i p, ptable ex_idle !! i = Some p ->
            (i = 3%nat /\ state p = RUNNABLE /\ pid p = 1) \/ (state p = UNUSED /\ pid p = 0)).
  { intros i p Hi. apply list_lookup_insert_Some in Hi as [(-> & <- & _)|(_ & Hi)]; [by left|right].
    apply lookup_replicate_1 in Hi as [-> _]. done. }
  split.
  - intros i p Hi Hr. destruct (Hl i p Hi) as [(_ & E & _)|[E _]]; congruence.
  - intros i j p q Hi Hj E Hnz. destruct (Hl i p Hi) as [(-> & _ & _)|[_ E']]; [|congruence].
    destruct (Hl j q Hj) as [(-> & _ & _)|[_ E']]; [done|congruence].
  - intros i p Hi. change (nextpid ex_idle) with 2. destruct (Hl i p Hi) as [(_ & _ & ->)|[_ ->]]; lia.
Qed.

(** A process runs, yields, and the scheduler finishes its scan behind it. *)
Lemma process_table_invariant_witness :
  config_inv (None, ex_scanned) /\ curproc ex_released = Some 3%nat /\ curproc ex_yielded = None /\
  ptable_lock ex_yielded = true.
Proof.
  split; [|split_and!; vm_compute; reflexivity].
  apply (process_table_invariant (FS := ex_proc_fs)) with (c := (None, ex_idle)) (k := 4%nat);
    [intros ?|intros ?|..]; [apply pres_ret, _..| | | |].
  - split; [exact ex_idle_inv|discriminate|reflexivity|discriminate].
  - reflexivity.
  - vm_compute. discriminate.
  - eapply nsteps_l; [apply (PSchedule None ex_idle (Some 3%nat) ex_ran); vm_compute; reflexivity|].
    eapply nsteps_l; [apply (PCall (Some 3%nat) ex_ran ex_released); [vm_compute; discriminate|]|].
    { apply (PYieldIn _ _ tt). vm_compute. reflexivity. }
    eapply nsteps_l; [apply (PCall (Some 3%nat) ex_released ex_yielded); [vm_compute; discriminate|]|].
    { apply (PYield _ _ tt). vm_compute. reflexivity. }
    apply nsteps_once, (PSchedule (Some 3%nat) ex_yielded None); vm_compute; reflexivity.
Defined.
