(* ===== verification/Fork.v ===== *)
(** * [fork], whole (proc.c with vm.c and kalloc.c)

    [allocproc], [copyuvm] and the rest of [fork] together: the child is a
    runnable process with the parent's registers, files and plaintext, on pages of
    its own; or there is not enough memory, and every page is given back. *)
From S2P Require Import Prelude Memory KString Mmu State Kalloc Vm VmTables VmCrypt VmEnc VmMap VmCopy VmExample Proc ProcProof.

Section Fork.
Context `{PL : Platform} `{FS : FsOps}.

(** ** Running updates of the process table *)

Definition upd (i : nat) (f : proc -> proc) (s : kstate) : kstate := with_ptable s (alter f i (ptable s)).

Lemma bind_upd {A} i f (k : unit -> K A) s :
  (i < length (ptable s))%nat -> bind (upd_proc i f) k s = k tt (upd i f s).
Proof.
  intros [p E]%lookup_lt_is_Some. unfold bind, upd_proc, upd. rewrite E. do 3 f_equal. symmetry.
  apply list_eq. intros j. destruct (decide (i = j)) as [->|].
  - rewrite list_lookup_alter_eq, E, list_lookup_insert_eq; [done|by eapply lookup_lt_Some].
  - by rewrite list_lookup_alter_ne, list_lookup_insert_ne.
Qed.

Lemma upd_lookup i f p s : ptable s !! i = Some p -> ptable (upd i f s) !! i = Some (f p).
Proof. intros E. cbn. by rewrite list_lookup_alter_eq, E. Qed.

Lemma upd_upd i f g s : upd i f (upd i g s) = upd i (fun p => f (g p)) s.
Proof. unfold upd. cbn. by rewrite list_alter_alter_eq. Qed.

Lemma bind_gets {A B} (g : kstate -> A) (k : A -> K B) s : bind (gets g) k s = k (g s) s.
Proof. done. Qed.
Lemma bind_modify {B} g (k : unit -> K B) s : bind (modify g) k s = k tt (g s).
Proof. done. Qed.
Lemma bind_get_proc {B} i p (k : proc -> K B) s : ptable s !! i = Some p -> bind (get_proc i) k s = k p s.
Proof. intros E. unfold bind, get_proc. by rewrite E. Qed.
Lemma bind_kwrite {B} a x (k : unit -> K B) s :
  bind (kwrite32 a x) k s = k tt (with_phys s (write32 (phys s) (V2P a) x)).
Proof. done. Qed.

Lemma upd_with_phys i f s m : upd i f (with_phys s m) = with_phys (upd i f s) m.
Proof. done. Qed.
Lemma upd_with_lock i f s b : upd i f (with_ptable_lock s b) = with_ptable_lock (upd i f s) b.
Proof. done. Qed.

Lemma bind_acquire {B} (k : unit -> K B) s :
  ptable_lock s = false -> bind acquire_ptable k s = k tt (with_ptable_lock s true).
Proof. intros E. unfold bind, acquire_ptable. by rewrite E. Qed.
Lemma bind_release {B} (k : unit -> K B) s :
  ptable_lock s = true -> bind release_ptable k s = k tt (with_ptable_lock s false).
Proof. intros E. unfold bind, release_ptable. by rewrite E. Qed.

(** [upd_step] runs the next update of slot [i]. *)
Ltac upd_step :=
  rewrite bind_upd by (unfold upd; cbn [ptable with_alloc with_phys with_kmem with_ptable with_ptable_lock with_nextpid];
    rewrite ?length_alter; assumption); rewrite ?upd_with_lock, ?upd_with_phys, ?upd_upd.

(** ** [allocproc] *)

(** The slot as [allocproc] leaves it, with the kernel stack [k]. *)
Definition embryo (n k : Z) (p : proc) : proc :=
  set_context (set_tf (set_kstack (set_pid (set_state p EMBRYO) n) k) (k + 4096 - 76)) (k + 4096 - 100).

(** The return addresses and the context on the new stack. *)
Definition stack_mem (m : mem) (k : Z) : mem :=
  write32 (memset (write32 m (V2P (k + 4096 - 80)) ksym_trapret) (V2P (k + 4096 - 100)) 0 20)
    (V2P (k + 4096 - 84)) ksym_forkret.

Lemma stack_mem_agree m k : page_ok k -> agree (fun x => ~ in_page k x) m (stack_mem m k).
Proof.
  intros Hk x Hx. pose proof (page_kaddr k) as Ha. unfold stack_mem.
  replace (k + 4096 - 84) with (k + 4012) by lia. replace (k + 4096 - 80) with (k + 4016) by lia.
  replace (k + 4096 - 100) with (k + 3996) by lia. rewrite !Ha by (done || lia).
  unfold in_page, in_range in Hx. rewrite read8_write32_ne by (unfold in_range; lia).
  rewrite read8_memset, decide_False by (unfold in_range; lia).
  by rewrite read8_write32_ne by (unfold in_range; lia).
Qed.

Lemma allocproc_spec s i q k l :
  kmem_inv s (k :: l) -> ptable_lock s = false -> find_proc (is_state UNUSED) (ptable s) 0 = Some i ->
  ptable s !! i = Some q ->
  let s1 := with_alloc (upd i (embryo (nextpid s) k) (with_nextpid s (s32 (nextpid s + 1))))
              (stack_mem (phys s) k) (read32 (phys s) (V2P k)) in
  allocproc s = Ret (Some i) s1 /\ kmem_inv s1 l.
Proof.
  intros Hk Hlk Hf Hq s1. destruct (kalloc_cons s k l Hk) as [_ Hk1].
  pose proof Hk as ((_ & Hok & _) & [Hkl _]%NoDup_cons & _).
  pose proof (page_ok_bounds k Hok) as Hb. unfold KERNLINK, KERNBASE, EXTMEM, PHYSTOP in Hb.
  unfold allocproc. rewrite bind_acquire by done.
  rewrite bind_gets. cbn [ptable with_ptable_lock]. rewrite Hf.
  assert (Hlt := lookup_lt_Some _ _ _ Hq). upd_step. rewrite bind_gets. upd_step. rewrite bind_modify.
  rewrite bind_release by done.
  match goal with |- context [bind kalloc _ ?x] =>
    destruct (kalloc_cons x k l Hk) as [E _]; rewrite (bind_Ret _ _ _ _ _ E); clear E end.
  upd_step. rewrite (proj2 (Z.eqb_neq k 0)) by lia.
  cbv zeta. change KSTACKSIZE with 4096. change sizeof_trapframe with 76. change sizeof_context with 20.
  unfold ctx_eip. rewrite (u32_small (k + 4096)), (u32_small (k + 4096 - 76)), (u32_small (_ - 4)),
    (u32_small (_ - 20)), (u32_small (_ + 16)) by lia.
  upd_step. rewrite bind_kwrite. upd_step. rewrite kmodify_bind, bind_kwrite. unfold ret.
  split.
  - replace (k + 4096 - 76 - 4) with (k + 4096 - 80) by lia.
    replace (k + 4096 - 80 - 20) with (k + 4096 - 100) by lia.
    replace (k + 4096 - 100 + 16) with (k + 4096 - 84) by lia.
    destruct s as [m [kl ul fl] lk pt cp np ip kd cr a1 a2 a3 a4 tk tl]. cbn in Hlk. subst lk.
    unfold with_alloc, upd. cbn. by rewrite !list_alter_alter_eq.
  - apply (kmem_inv_write (with_alloc s (phys s) _) l); [done|]. cbn. intros p Hp x Hx.
    apply stack_mem_agree; [done|]. intros Hx'. apply Hkl. replace k with p; [done|].
    destruct Hk1 as (Hfl%free_list_ok & _). rewrite Forall_forall in Hfl.
    eapply in_page_inj; eauto; [by apply Hfl|apply Hok].
Qed.

(** No page for the kernel stack. *)
Lemma allocproc_no_page s i q :
  kmem_inv s [] -> ptable_lock s = false -> find_proc (is_state UNUSED) (ptable s) 0 = Some i ->
  ptable s !! i = Some q ->
  allocproc s = Ret None (upd i (fun p => set_state (set_kstack (set_pid (set_state p EMBRYO) (nextpid s)) 0) UNUSED)
    (with_nextpid s (s32 (nextpid s + 1)))).
Proof.
  intros Hk Hlk Hf Hq. assert (Hlt := lookup_lt_Some _ _ _ Hq). unfold allocproc.
  rewrite bind_acquire by done.
  rewrite bind_gets. cbn [ptable with_ptable_lock]. rewrite Hf.
  upd_step. rewrite bind_gets. upd_step. rewrite bind_modify. rewrite bind_release by done.
  match goal with |- context [bind kalloc _ ?x] => rewrite (bind_Ret _ _ _ _ _ (kalloc_empty x Hk)) end.
  upd_step. cbn [Z.eqb]. upd_step. unfold ret.
  destruct s as [m [kl ul fl] lk pt cp np ip kd cr a1 a2 a3 a4 tk tl]. cbn in Hlk. subst lk.
  unfold upd. cbn. by rewrite !list_alter_alter_eq.
Qed.

(** ** The rest of [fork] *)

Fixpoint dup_files (fs : list Z) (j : nat) (o : list Z) : list Z :=
  match fs with
  | [] => o
  | f :: fs' => dup_files fs' (S j) (if f =? 0 then o else <[j := f]> o)
  end.

Lemma upd_proc_id i s : upd i (fun p => p) s = s.
Proof. unfold upd. rewrite list_alter_id by done. by destruct s. Qed.

Lemma upd_ext i f g s : (forall p, f p = g p) -> upd i f s = upd i g s.
Proof. intros H. unfold upd. f_equal. apply list_alter_ext; [by intros; apply H|done]. Qed.

Lemma set_ofile_id q : set_ofile q (ofile q) = q.
Proof. by destruct q. Qed.

Lemma fork_files_spec np fs : forall j s, (np < length (ptable s))%nat ->
  fork_files np fs j s = Ret tt (upd np (fun q => set_ofile q (dup_files fs j (ofile q))) s).
Proof.
  induction fs as [|f fs IH]; intros j s Hlt; cbn [fork_files dup_files].
  - unfold ret. f_equal. rewrite <- (upd_proc_id np s) at 1. apply upd_ext. intros q. by rewrite set_ofile_id.
  - destruct (f =? 0).
    + rewrite (bind_Ret (ret tt) _ s tt s eq_refl). by apply IH.
    + rewrite bind_assoc, (bind_Ret _ _ _ _ _ (filedup_law f s)). rewrite bind_upd by done.
      rewrite IH by (cbn; by rewrite length_alter). by rewrite upd_upd.
Qed.

Lemma bind_fork_files {A} np fs j (k : unit -> K A) s : (np < length (ptable s))%nat ->
  bind (fork_files np fs j) k s = k tt (upd np (fun q => set_ofile q (dup_files fs j (ofile q))) s).
Proof. intros H. by rewrite (bind_Ret _ _ _ _ _ (fork_files_spec np fs j s H)). Qed.

(** The files of the parent, in a slot that had none open. *)
Lemma dup_files_all fs n : length fs = n -> dup_files fs 0 (replicate n 0) = fs.
Proof.
  assert (H : forall fs pre, dup_files fs (length pre) (pre ++ replicate (length fs) 0) = pre ++ fs).
  { clear. induction fs as [|f fs IH]; intros pre; cbn [dup_files length replicate]; [done|].
    replace (if f =? 0 then _ else _) with ((pre ++ [f]) ++ replicate (length fs) 0).
    - replace (S (length pre)) with (length (pre ++ [f])) by (rewrite length_app; simpl; lia).
      rewrite IH. by rewrite <- app_assoc.
    - rewrite <- app_assoc. destruct (Z.eqb_spec f 0) as [->|]; [done|].
      rewrite insert_app_r_alt by lia. by rewrite Nat.sub_diag. }
  intros <-. apply (H fs []).
Qed.

(** The child of [p] in slot [q], with address space [c]. *)
Definition child (p : proc) (me : nat) (c : Z) (q : proc) : proc :=
  set_clock_hand (set_cq (set_state (set_name_str (set_cwd (set_ofile
    (set_parent (set_sz (set_pgdir q c) (sz p)) (Some me)) (dup_files (ofile p) 0 (ofile q)))
    (cwd p)) (name p)) RUNNABLE) (cq p)) (clock_hand p).

(** Memory with the parent's trap frame at [a], and 0 for [%eax]. *)
Definition frame_mem (m : mem) (a src : Z) : mem :=
  write32 (memmove m (V2P a) (V2P src) sizeof_trapframe) (V2P (a + tf_eax)) 0.

Lemma fork_after me i p q c s s1 s2 :
  curproc s = Some me -> allocproc s = Ret (Some i) s1 -> i <> me -> ptable s1 !! me = Some p ->
  ptable s1 !! i = Some q -> copyuvm (pgdir p) (sz p) s1 = Ret c s2 ->
  ptable s2 = ptable s1 -> ptable_lock s2 = false -> c <> 0 ->
  fork s = Ret (pid q) (with_phys (upd i (child p me c) s2) (frame_mem (phys s2) (tf q) (tf p))).
Proof.
  intros Hc Ea Him Hp Hq Ecp Ept Hlk Hc0. assert (Hlt := lookup_lt_Some _ _ _ Hq). rewrite <- Ept in Hlt, Hq.
  unfold fork. rewrite (bind_Ret my _ s me s) by (unfold my; by rewrite Hc).
  rewrite (bind_Ret _ _ _ _ _ Ea), (bind_get_proc me p) by done. rewrite (bind_Ret _ _ _ _ _ Ecp).
  upd_step. rewrite (proj2 (Z.eqb_neq c 0) Hc0). upd_step. upd_step.
  rewrite (bind_get_proc i _) by (exact (upd_lookup i _ q s2 Hq)).
  rewrite kmodify_bind, bind_kwrite.
  match goal with |- context [with_phys (with_phys ?x _) _] =>
    change (with_phys (with_phys x _) _) with (with_phys x (frame_mem (phys s2) (tf q) (tf p))) end.
  rewrite bind_fork_files, upd_with_phys, upd_upd by (cbn; by rewrite length_alter).
  rewrite (bind_Ret _ _ _ _ _ (idup_law (cwd p) _)). upd_step. upd_step.
  rewrite (bind_get_proc i _) by (exact (upd_lookup i _ q s2 Hq)).
  rewrite bind_acquire by done. upd_step. rewrite bind_release by done. upd_step. upd_step. unfold ret.
  f_equal; [unfold set_name_str; by case_match|]. destruct s2 as [m [kl ul fl] lk pt cp np ip kd cr a1 a2 a3 a4 tk tl]. cbn in Hlk. by subst lk.
Qed.

(** Without an address space the slot and its stack are given back. *)
Lemma fork_undo me i p q s s1 s2 l :
  curproc s = Some me -> allocproc s = Ret (Some i) s1 -> i <> me -> ptable s1 !! me = Some p ->
  ptable s1 !! i = Some q -> copyuvm (pgdir p) (sz p) s1 = Ret 0 s2 -> ptable s2 = ptable s1 ->
  kmem_inv s2 l -> page_ok (kstack q) -> kstack q ∉ l ->
  exists s3, fork s = Ret (-1) s3 /\ kmem_inv s3 (kstack q :: l) /\
    ptable s3 = alter (fun q => set_state (set_kstack (set_pgdir q 0) 0) UNUSED) i (ptable s1) /\
    agree (fun x => ~ in_page (kstack q) x) (phys s2) (phys s3).
Proof.
  intros Hc Ea Him Hp Hq Ecp Ept Hk Hok Hl. assert (Hlt := lookup_lt_Some _ _ _ Hq). rewrite <- Ept in Hlt, Hq.
  destruct (kfree_spec (upd i (fun q => set_pgdir q 0) s2) (kstack q) l Hk Hok Hl) as [E Hk'].
  unfold fork. rewrite (bind_Ret my _ s me s) by (unfold my; by rewrite Hc).
  rewrite (bind_Ret _ _ _ _ _ Ea), (bind_get_proc me p) by done. rewrite (bind_Ret _ _ _ _ _ Ecp).
  upd_step. cbn [Z.eqb]. rewrite (bind_get_proc i _) by (exact (upd_lookup i _ q s2 Hq)).
  change (kstack (set_pgdir q 0)) with (kstack q). rewrite (bind_Ret _ _ _ _ _ E). upd_step. upd_step.
  eexists. split; [reflexivity|]. split; [exact Hk'|]. split.
  - cbn. by rewrite Ept, list_alter_alter_eq.
  - cbn. by apply agree_sym, freed_mem_agree.
Qed.

(** ** Plaintext under writes elsewhere *)

Lemma plain_foreign m m' d x :
  uspace m d -> (forall p, pages m d p -> agree (in_page p) m m') -> uaddr x ->
  mapped (pte_of m d x) = true -> plain m' d x = plain m d x.
Proof.
  intros Hus Hag Hx Hm.
  assert (E : pte_of m' d x = pte_of m d x).
  { apply pte_of_agree; [apply Hus|intros p Hp; apply Hag; by left|by apply uaddr_vaddr]. }
  unfold plain, ubyte. rewrite E. pose proof (OFFSET_range x).
  assert (Hf : pages m d (frame (pte_of m d x))) by (right; by exists x).
  rewrite <- (Hag _ Hf (PTE_ADDR (pte_of m d x) + OFFSET x)); [done|].
  apply in_frame. unfold in_range. lia.
Qed.

(** The trap frame goes into page [k] only. *)
Lemma frame_mem_agree m k src :
  page_ok k -> 0 <= V2P src -> V2P src + 76 < 4294967296 ->
  agree (fun x => ~ in_page k x) m (frame_mem m (k + 4096 - 76) src).
Proof.
  intros Hk H1 H2 x Hx. unfold frame_mem, tf_eax, sizeof_trapframe.
  replace (k + 4096 - 76 + 28) with (k + 4048) by lia. replace (k + 4096 - 76) with (k + 4020) by lia.
  rewrite !page_kaddr by (done || lia). unfold in_page, in_range in Hx.
  rewrite read8_write32_ne by (unfold in_range; lia).
  by rewrite read8_memmove, decide_False by (unfold in_range; lia).
Qed.

Lemma frame_mem_read m k src o :
  page_ok k -> 0 <= V2P src -> V2P src + 76 < 4294967296 -> 0 <= o < 76 -> ~ in_range tf_eax 4 o ->
  read8 (frame_mem m (k + 4096 - 76) src) (k + 4096 - 76 - KERNBASE + o) = read8 m (V2P src + o).
Proof.
  intros Hk H1 H2 Ho He. unfold frame_mem, tf_eax, sizeof_trapframe, in_range in *.
  replace (k + 4096 - 76 + 28) with (k + 4048) by lia. replace (k + 4096 - 76) with (k + 4020) by lia.
  rewrite !page_kaddr by (done || lia). rewrite read8_write32_ne by (unfold in_range; lia).
  rewrite read8_memmove, decide_True by (unfold in_range; lia). f_equal. lia.
Qed.

Lemma frame_mem_eax m k src : page_ok k ->
  read32 (frame_mem m (k + 4096 - 76) src) (k + 4096 - 76 + tf_eax - KERNBASE) = 0.
Proof.
  intros Hk. unfold frame_mem, tf_eax. replace (k + 4096 - 76 + 28) with (k + 4048) by lia.
  rewrite !(page_kaddr k 4048) by (done || lia).
  replace (k + 4048 - KERNBASE) with (k - KERNBASE + 4048) by lia. by apply read32_write32_eq.
Qed.

(** ** [fork] *)

(** What [fork] finds: the parent [p] in slot [me] with its image mapped, a free
    slot [i], and the free list [l]. *)
Record forking (s : kstate) (me : nat) (p : proc) (i : nat) (q : proc) (l : list Z) : Prop := {
  fg_cur : curproc s = Some me;
  fg_proc : ptable s !! me = Some p;
  fg_running : state p <> UNUSED;
  fg_lock : ptable_lock s = false;
  fg_slot : find_proc (is_state UNUSED) (ptable s) 0 = Some i;
  fg_free : ptable s !! i = Some q;
  fg_files : ofile q = replicate (length (ofile p)) 0;
  fg_space : space s (pgdir p) l;
  fg_sz : 0 <= sz p <= KERNBASE;
  fg_image : forall x, 0 <= x < sz p -> mapped (pte_of (phys s) (pgdir p) x) = true;
  fg_stack : page_ok (kstack p) /\ kstack p ∉ l;
  fg_tf : tf p = kstack p + 4096 - 76;
  fg_cq : forall n pg, n ∈ cq p -> pg ∈ l -> ~ in_range pg 4096 (cq_pte n)
}.

(** The state after a [fork] that has failed. *)
Record fork_failed (s : kstate) (i : nat) (l : list Z) (s' : kstate) : Prop := {
  ff_pages : exists l', kmem_inv s' l' /\ l' ≡ₚ l;
  ff_slot : exists q, ptable s' !! i = Some q /\ state q = UNUSED;
  ff_others : forall j, j <> i -> ptable s' !! j = ptable s !! j;
  ff_mem : agree (fun x => forall pg, pg ∈ l -> ~ in_page pg x) (phys s) (phys s')
}.

(** The child [q] in slot [i] after a [fork] of [p]. *)
Record fork_child (s : kstate) (me : nat) (p : proc) (i : nat) (s' : kstate) (q : proc) (l : list Z) : Prop := {
  fc_table : ptable s' = <[i := q]> (ptable s);
  fc_proc : state q = RUNNABLE /\ pid q = nextpid s /\ parent q = Some me /\ sz q = sz p /\
    ofile q = ofile p /\ cwd q = cwd p;
  fc_queue : cq q = cq p /\ clock_hand q = clock_hand p;
  fc_space : space s' (pgdir q) l;
  fc_parent : space s' (pgdir p) l;
  fc_apart : forall pg, pages (phys s') (pgdir q) pg -> ~ pages (phys s') (pgdir p) pg;
  fc_image : forall x, uaddr x -> PGROUNDDOWN x < sz p ->
    PTE_FLAGS (pte_of (phys s') (pgdir q) x) = PTE_FLAGS (pte_of (phys s) (pgdir p) x) /\
    plain (phys s') (pgdir q) x = plain (phys s) (pgdir p) x;
  fc_rest : forall x, uaddr x -> sz p <= PGROUNDDOWN x -> pte_of (phys s') (pgdir q) x = 0;
  fc_kept : forall x, uaddr x -> mapped (pte_of (phys s) (pgdir p) x) = true ->
    plain (phys s') (pgdir p) x = plain (phys s) (pgdir p) x;
  fc_eax : read32 (phys s') (tf q + tf_eax - KERNBASE) = 0;
  fc_regs : forall o, 0 <= o < sizeof_trapframe -> ~ in_range tf_eax 4 o ->
    read8 (phys s') (tf q - KERNBASE + o) = read8 (phys s) (tf p - KERNBASE + o)
}.

Lemma forking_slots s me p i q l : forking s me p i q l -> i <> me.
Proof.
  intros [_ Hp Hr _ Hf Hq _ _ _ _ _ _ _] ->.
  apply find_proc_split in Hf as (n & r & -> & Hr' & Hs & _). cbn in *.
  rewrite Hp in Hr'. injection Hr' as <-. unfold is_state in Hs. by apply bool_decide_eq_true in Hs.
Qed.

Section Run.
Context (s : kstate) (me : nat) (p : proc) (i : nat) (q0 : proc) (k : Z) (l : list Z).
Hypothesis Hfg : forking s me p i q0 (k :: l).
Let s1 := with_alloc (upd i (embryo (nextpid s) k) (with_nextpid s (s32 (nextpid s + 1))))
            (stack_mem (phys s) k) (read32 (phys s) (V2P k)).

Lemma run_k : page_ok k /\ k ∉ l /\ ~ pages (phys s) (pgdir p) k.
Proof using Hfg.
  pose proof (fg_space _ _ _ _ _ _ Hfg) as [Hk _ Hf]. destruct Hk as ((_ & Hok & _) & [Hkl _]%NoDup_cons & _).
  split_and!; try done. intros Hp. apply (Hf k Hp). by left.
Qed.

Lemma run_alloc : allocproc s = Ret (Some i) s1 /\ kmem_inv s1 l.
Proof using Hfg. destruct Hfg. eapply allocproc_spec; eauto. apply fg_space0. Qed.

(** A page that is not [k] is as before. *)
Lemma run_page pg x : page_ok pg -> pg <> k -> in_page pg x -> read8 (stack_mem (phys s) k) x = read8 (phys s) x.
Proof using Hfg.
  intros Hok Hne Hx. destruct run_k as (Hk & _). symmetry. apply stack_mem_agree; [done|].
  intros Hx'. apply Hne. eapply in_page_inj; eauto; [apply Hok|apply Hk].
Qed.

Lemma run_parent : space s1 (pgdir p) l /\
  (forall x, vaddr x -> pte_of (phys s1) (pgdir p) x = pte_of (phys s) (pgdir p) x) /\
  (forall pg, pages (phys s) (pgdir p) pg -> agree (in_page pg) (phys s) (phys s1)).
Proof using Hfg.
  destruct run_k as (Hk & Hkl & Hkp). destruct run_alloc as [_ Hk1].
  pose proof (fg_space _ _ _ _ _ _ Hfg) as Hsp. pose proof (sp_us _ _ _ Hsp) as Hus.
  assert (Hag : forall pg, pages (phys s) (pgdir p) pg -> agree (in_page pg) (phys s) (phys s1)).
  { intros pg Hpg x Hx. symmetry. apply (run_page pg); [by eapply pages_ok| |done]. by intros ->. }
  destruct (space_foreign s (pgdir p) (k :: l) s1 l Hsp Hk1) as (H1 & H2 & _); [|by split_and!].
  intros pg Hpg. split; [by apply Hag|]. intros Hl. apply (sp_free _ _ _ Hsp pg Hpg). by right.
Qed.

Lemma run_lookup : ptable s1 !! me = Some p /\ ptable s1 !! i = Some (embryo (nextpid s) k q0).
Proof using Hfg.
  pose proof (forking_slots _ _ _ _ _ _ Hfg) as Hne. destruct Hfg. cbn. split.
  - by rewrite list_lookup_alter_ne.
  - by rewrite list_lookup_alter_eq, fg_free0.
Qed.

Lemma run_copy :
  (exists s2, copyuvm (pgdir p) (sz p) s1 = Ret 0 s2 /\ restored s1 l s2 /\ Z.of_nat (length l) < copy_pages (sz p)) \/
  (exists c s2 l2, copyuvm (pgdir p) (sz p) s1 = Ret c s2 /\ forked s1 (pgdir p) l (sz p) c s2 l2).
Proof using Hfg.
  destruct run_alloc as [_ Hk1]. destruct run_parent as (Hsp & Hpte & _). destruct run_lookup as [Hp _].
  pose proof Hfg as [F1 F2 F3 F4 F5 F6 F7 F8 F9 F10 F11 F12 F13].
  apply (copyuvm_spec s1 (pgdir p) l me p); try done.
  - apply Hsp.
  - apply Hsp.
  - intros n pg Hn Hpg. apply F13; [done|by right].
  - intros x Hx. rewrite Hpte; [by apply F10|]. unfold vaddr, KERNBASE in *. lia.
Qed.
Lemma run_fails s2 :
  copyuvm (pgdir p) (sz p) s1 = Ret 0 s2 -> restored s1 l s2 ->
  exists s3, fork s = Ret (-1) s3 /\ fork_failed s i (k :: l) s3.
Proof using Hfg.
  intros E (l2 & Hk2 & Hl2 & Ho & Hag). destruct run_k as (Hk & Hkl & _). destruct run_alloc as [Ea Hk1].
  destruct run_lookup as [Hp Hq]. pose proof (forking_slots _ _ _ _ _ _ Hfg) as Hne.
  destruct (fork_undo me i p _ s s1 s2 l2 (fg_cur _ _ _ _ _ _ Hfg) Ea Hne Hp Hq E) as (s3 & E3 & Hk3 & Hpt & Hag3);
    [by rewrite Ho|done|done|by rewrite Hl2|].
  exists s3. split; [done|]. cbn [kstack embryo set_context set_tf set_kstack] in *. split.
  - exists (k :: l2). split; [done|]. constructor. apply NoDup_Permutation; [apply Hk2|apply Hk1|done].
  - eexists. rewrite Hpt, list_lookup_alter_eq, Hq. by split.
  - intros j Hj. rewrite Hpt, list_lookup_alter_ne by done. cbn. by rewrite list_lookup_alter_ne.
  - eapply agree_trans; [|eapply agree_trans]; [| |eapply agree_weaken; [|exact Hag3]].
    + eapply agree_weaken; [|apply (stack_mem_agree (phys s) k Hk)]. intros x Hx. apply Hx. by left.
    + eapply agree_weaken; [|exact Hag]. intros x Hx pg Hpg. apply Hx. by right.
    + intros x Hx. apply Hx. by left.
Qed.

Section Born.
Context (c : Z) (s2 : kstate) (l2 : list Z).
Hypothesis Hfk : forked s1 (pgdir p) l (sz p) c s2 l2.
Let m3 := frame_mem (phys s2) (k + 4096 - 76) (tf p).
Let q := child p me c (embryo (nextpid s) k q0).
Let s3 := with_phys (upd i (child p me c) s2) m3.

Lemma born_src : 0 <= V2P (tf p) /\ V2P (tf p) + 76 < 4294967296 /\ V2P (tf p) = tf p - KERNBASE.
Proof using Hfg.
  destruct (fg_stack _ _ _ _ _ _ Hfg) as [Hk _]. pose proof (page_ok_bounds _ Hk) as Hb.
  rewrite (fg_tf _ _ _ _ _ _ Hfg). replace (kstack p + 4096 - 76) with (kstack p + 4020) by lia.
  rewrite page_kaddr by (done || lia). unfold KERNLINK, KERNBASE, EXTMEM, PHYSTOP in *. lia.
Qed.

Lemma born_page pg : page_ok pg -> pg <> k -> agree (in_page pg) (phys s2) m3.
Proof using Hfg.
  intros Hok Hne x Hx. destruct run_k as (Hk & _). destruct born_src as (H1 & H2 & _).
  apply frame_mem_agree; try done. intros Hx'. apply Hne. eapply in_page_inj; eauto; [apply Hok|apply Hk].
Qed.

Lemma born_not_k pg : pg ∈ l2 \/ pages (phys s2) c pg -> page_ok pg /\ pg <> k.
Proof using Hfg Hfk.
  intros Hpg. destruct run_k as (_ & Hkl & _). destruct run_alloc as [_ (Hok%free_list_ok & _)].
  apply (bu_pages _ _ _ _ _ (fk_built _ _ _ _ _ _ _ Hfk)) in Hpg. rewrite Forall_forall in Hok.
  split; [by apply Hok|]. by intros ->.
Qed.

Lemma born_kmem : kmem_inv s3 l2.
Proof using Hfg Hfk.
  pose proof (bu_space _ _ _ _ _ (fk_built _ _ _ _ _ _ _ Hfk)) as [Hk2 _ _].
  apply (kmem_inv_write s2 l2 m3 Hk2). intros pg Hpg.
  destruct (born_not_k pg (or_introl Hpg)). by apply born_page.
Qed.

Lemma born_child : space s3 c l2 /\ (forall x, vaddr x -> pte_of m3 c x = pte_of (phys s2) c x) /\
  (forall pg, pages m3 c pg <-> pages (phys s2) c pg) /\
  (forall pg, pages (phys s2) c pg -> agree (in_page pg) (phys s2) m3).
Proof using Hfg Hfk.
  pose proof (bu_space _ _ _ _ _ (fk_built _ _ _ _ _ _ _ Hfk)) as Hsp.
  assert (Hag : forall pg, pages (phys s2) c pg -> agree (in_page pg) (phys s2) m3).
  { intros pg Hpg. destruct (born_not_k pg (or_intror Hpg)). by apply born_page. }
  destruct (space_foreign s2 c l2 s3 l2 Hsp born_kmem) as (H1 & H2 & H3 & H4).
  { intros pg Hpg. split; [by apply Hag|]. by apply (sp_free _ _ _ Hsp). }
  split_and!; try done. intros pg. unfold pages.
  change (phys s3) with m3 in H4. by rewrite (same_tables_ptpage (phys s2) m3), H4.
Qed.

(** The parent's pages are as they were before the call. *)
Lemma born_parent_agree pg : pages (phys s) (pgdir p) pg -> agree (in_page pg) (phys s) m3.
Proof using Hfg Hfk.
  intros Hpg. destruct run_k as (_ & _ & Hkp). destruct run_parent as (Hsp1 & _ & Hag1).
  pose proof (sp_us _ _ _ (fg_space _ _ _ _ _ _ Hfg)) as Hus. pose proof (pages_ok _ _ _ Hus Hpg) as Hok.
  eapply agree_trans; [by apply Hag1|]. eapply agree_trans; [|apply born_page; [done|by intros ->]].
  intros x Hx. apply (bu_agree _ _ _ _ _ (fk_built _ _ _ _ _ _ _ Hfk)). intros r Hr Hx'.
  apply (sp_free _ _ _ (fg_space _ _ _ _ _ _ Hfg) pg Hpg). right. replace pg with r; [done|].
  destruct run_alloc as [_ (Hl%free_list_ok & _)]. rewrite Forall_forall in Hl.
  eapply in_page_inj; eauto; [by apply Hl|apply Hok].
Qed.

Lemma born_parent : space s3 (pgdir p) l2 /\
  (forall pg, pages m3 (pgdir p) pg <-> pages (phys s) (pgdir p) pg).
Proof using Hfg Hfk.
  pose proof (fg_space _ _ _ _ _ _ Hfg) as Hsp.
  destruct (space_foreign s (pgdir p) (k :: l) s3 l2 Hsp born_kmem) as (H1 & H2 & H3 & H4).
  { intros pg Hpg. split; [by apply born_parent_agree|]. intros Hl. apply (sp_free _ _ _ Hsp pg Hpg). right.
    apply (bu_pages _ _ _ _ _ (fk_built _ _ _ _ _ _ _ Hfk)). by left. }
  split; [done|]. intros pg. unfold pages. change (phys s3) with m3 in H4.
  by rewrite (same_tables_ptpage (phys s) m3), H4.
Qed.

Lemma born_image x : uaddr x -> PGROUNDDOWN x < sz p ->
  PTE_FLAGS (pte_of m3 c x) = PTE_FLAGS (pte_of (phys s) (pgdir p) x) /\
  plain m3 c x = plain (phys s) (pgdir p) x.
Proof using Hfg Hfk.
  intros Hx Hlt. pose proof (uaddr_vaddr x Hx) as Hv.
  destruct (fk_page _ _ _ _ _ _ _ Hfk x Hx Hlt) as (Hm & Hfl & Hb).
  pose proof (same_page_plain _ _ _ _ _ (conj Hm (conj Hfl Hb))) as Hpl.
  destruct run_parent as (_ & Hpte1 & Hag1). destruct born_child as (_ & Hpte & _ & Hag).
  rewrite (Hpte1 x Hv) in Hfl. rewrite (Hpte x Hv). split; [done|].
  rewrite (plain_foreign (phys s2) m3 c x); [|apply (fk_built _ _ _ _ _ _ _ Hfk)|done..].
  rewrite Hpl. pose proof (fg_space _ _ _ _ _ _ Hfg) as Hsp.
  apply plain_foreign; [apply Hsp|done|done|].
  assert (E : pte_of (phys s) (pgdir p) x = pte_of (phys s) (pgdir p) (PGROUNDDOWN x)).
  { apply pte_of_same_page; [done| |]; unfold vaddr, uaddr, KERNBASE in *; rewrite PGROUNDDOWN_val;
      Z.div_mod_to_equations; lia. }
  rewrite E. apply (fg_image _ _ _ _ _ _ Hfg). split; [|done].
  unfold uaddr in Hx. rewrite PGROUNDDOWN_val. Z.div_mod_to_equations. lia.
Qed.

Lemma born_proc : state q = RUNNABLE /\ pid q = nextpid s /\ parent q = Some me /\ sz q = sz p /\
  ofile q = ofile p /\ cwd q = cwd p /\ pgdir q = c /\ tf q = k + 4096 - 76.
Proof using Hfg.
  assert (Hfs : dup_files (ofile p) 0 (ofile q0) = ofile p).
  { rewrite (fg_files _ _ _ _ _ _ Hfg). by apply dup_files_all. }
  unfold q, child, set_name_str. cbn [ofile embryo set_context set_tf set_kstack set_pid set_state].
  rewrite Hfs. by case_match.
Qed.

(** Reading the parent's trap frame. *)
Lemma born_regs o : 0 <= o < sizeof_trapframe -> ~ in_range tf_eax 4 o ->
  read8 m3 (tf q - KERNBASE + o) = read8 (phys s) (tf p - KERNBASE + o).
Proof using Hfg Hfk.
  intros Ho He. destruct run_k as (Hk & _). destruct born_src as (H1 & H2 & H3).
  destruct born_proc as (_ & _ & _ & _ & _ & _ & _ & ->). unfold m3. rewrite frame_mem_read by done. rewrite H3.
  destruct (fg_stack _ _ _ _ _ _ Hfg) as [Hok Hkp]. unfold sizeof_trapframe in Ho.
  assert (Hin : in_page (kstack p) (tf p - KERNBASE + o)).
  { rewrite (fg_tf _ _ _ _ _ _ Hfg). unfold in_page, in_range. lia. }
  rewrite <- (run_page (kstack p) _ Hok) by (try done; intros Ek; apply Hkp; rewrite Ek; by left). symmetry.
  apply (bu_agree _ _ _ _ _ (fk_built _ _ _ _ _ _ _ Hfk)). intros pg Hpg Hx. apply Hkp. right.
  replace (kstack p) with pg; [done|]. destruct run_alloc as [_ (Hl%free_list_ok & _)].
  rewrite Forall_forall in Hl. eapply in_page_inj; eauto; [by apply Hl|apply Hok].
Qed.

Lemma born_table : ptable s3 = <[i := q]> (ptable s).
Proof using Hfg Hfk.
  pose proof (bu_only _ _ _ _ _ (fk_built _ _ _ _ _ _ _ Hfk)) as Ho. pose proof (fg_free _ _ _ _ _ _ Hfg) as Hq.
  unfold s3. cbn. rewrite Ho. cbn. rewrite list_alter_alter_eq.
  apply list_eq. intros j. destruct (decide (i = j)) as [<-|].
  - rewrite list_lookup_alter_eq, Hq, list_lookup_insert_eq; [done|by eapply lookup_lt_Some].
  - by rewrite list_lookup_alter_ne, list_lookup_insert_ne.
Qed.

Lemma born_ok : fork_child s me p i s3 q l2.
Proof using Hfg Hfk.
  destruct born_child as (Hsp & Hpte & Hpg & _). destruct born_parent as (Hspp & Hpgp).
  destruct born_proc as (P1 & P2 & P3 & P4 & P5 & P6 & P7 & P8).
  split; rewrite ?P7; cbn [phys with_phys].
  - apply born_table.
  - by split_and!.
  - by split_and!.
  - done.
  - done.
  - intros pg H1%Hpg H2%Hpgp. apply (sp_free _ _ _ (fg_space _ _ _ _ _ _ Hfg) pg H2). right.
    apply (bu_pages _ _ _ _ _ (fk_built _ _ _ _ _ _ _ Hfk)). by right.
  - apply born_image.
  - intros x Hx Hge. rewrite Hpte by (by apply uaddr_vaddr). by apply (fk_rest _ _ _ _ _ _ _ Hfk).
  - intros x Hx Hm. apply plain_foreign; [apply (fg_space _ _ _ _ _ _ Hfg)|apply born_parent_agree|done|done].
  - rewrite P8. apply frame_mem_eax, run_k.
  - apply born_regs.
Qed.

Lemma born_fork : copyuvm (pgdir p) (sz p) s1 = Ret c s2 -> fork s = Ret (nextpid s) s3.
Proof using Hfg Hfk.
  intros E. destruct run_lookup as [Hp Hq]. destruct run_alloc as [Ea _].
  pose proof (bu_only _ _ _ _ _ (fk_built _ _ _ _ _ _ _ Hfk)) as Ho.
  apply (fork_after me i p (embryo (nextpid s) k q0) c s s1 s2); try done.
  - apply Hfg.
  - by apply (forking_slots _ _ _ _ _ _ Hfg).
  - by rewrite Ho.
  - rewrite Ho. cbn. apply Hfg.
  - apply page_ok_nonzero, (bu_space _ _ _ _ _ (fk_built _ _ _ _ _ _ _ Hfk)).
Qed.
End Born.
End Run.

(** C18. [fork] gives the caller the pid of a runnable child with the parent's
    registers (but 0 in [%eax]), files, size and clock queue, whose pages have the
    parent's flags and plaintext, encrypted or not, on frames of its own; the
    parent's are as they were.  It fails only when pages run out, and then the slot is free
    again and the free list has the pages it had. *)
Theorem fork_duplicates s me p i q0 l :
  forking s me p i q0 l ->
  (exists s', fork s = Ret (-1) s' /\ fork_failed s i l s' /\ Z.of_nat (length l) <= copy_pages (sz p)) \/
  (exists s' q l', fork s = Ret (nextpid s) s' /\ fork_child s me p i s' q l').
Proof.
  intros Hfg. destruct l as [|k l].
  - left. pose proof Hfg as [F1 F2 F3 F4 F5 F6 F7 F8 F9 F10 F11 F12 F13].
    pose proof (allocproc_no_page s i q0 (sp_kmem _ _ _ F8) F4 F5 F6) as E.
    eexists. split.
    { unfold fork. rewrite (bind_Ret my _ s me s) by (unfold my; by rewrite F1).
      rewrite (bind_Ret _ _ _ _ _ E). reflexivity. }
    split; [split|].
    + exists []. split; [apply F8|done].
    + eexists. cbn. rewrite list_lookup_alter_eq, F6. by split.
    + intros j Hj. cbn. by rewrite list_lookup_alter_ne.
    + done.
    + unfold copy_pages. cbn. Z.div_mod_to_equations. lia.
  - destruct (run_copy _ _ _ _ _ _ _ Hfg) as [(s2 & E & Hr & Hl)|(c & s2 & l2 & E & Hfk)].
    + left. destruct (run_fails _ _ _ _ _ _ _ Hfg s2 E Hr) as (s3 & E3 & Hf).
      exists s3. split_and!; [done|done|]. cbn [length]. lia.
    + right. eexists _, _, l2. split; [exact (born_fork _ _ _ _ _ _ _ Hfg c s2 l2 Hfk E)|].
      exact (born_ok _ _ _ _ _ _ _ Hfg c s2 l2 Hfk).
Qed.

End Fork.

(** ** A process with an encrypted page *)

#[local] Existing Instance ex_platform.
#[local] Existing Instance ex_proc_fs.

Definition fork_parent : proc := set_tf (set_state ex_proc RUNNING) 0x80205fb4.
Definition fork_before : kstate := with_ptable ex_state [fork_parent; zero_proc].

Lemma fork_pages p : pages (phys fork_before) ex_dir p -> 0x80200000 <= p < 0x80205000.
Proof.
  intros [Hp%ex_ptpage|(va & Hu & Hm & <-)].
  - destruct Hp as [->| ->]; by vm_compute.
  - cbn [phys fork_before with_ptable ex_state] in *. revert Hm. rewrite ex_pte by done.
    repeat case_decide; intros Hm; by vm_compute.
Qed.

Lemma pages_from_range p n r : r ∈ pages_from p n -> p <= r < p + 4096 * Z.of_nat n.
Proof.
  revert p. induction n as [|n IH]; intros p; cbn [pages_from]; [by intros ?%not_elem_of_nil|].
  intros [->|H%IH]%elem_of_cons; lia.
Qed.

Lemma fork_kmem : kmem_inv fork_before [].
Proof. split; [done|split; [constructor|done]]. Qed.

(** The machine after the boot code has freed the 128 pages from [0x80300000]. *)
Lemma fork_ready : exists s l, length l = 128%nat /\ nextpid s = 2 /\ forking s 0 fork_parent 1 zero_proc l.
Proof.
  destruct (freerange_loop_spec 128 129 0x80300000 0x80380000 fork_before [])
    as (s & _ & Hk & Ho & Hag); [lia|apply fork_kmem|done|by vm_compute|by vm_compute|by vm_compute| |].
  { intros q Hq. by apply not_elem_of_nil in Hq. }
  rewrite app_nil_r in Hk. set (l := rev (pages_from 0x80300000 128)) in *.
  assert (Hl : forall p, p ∈ l -> 0x80300000 <= p < 0x80380000).
  { intros p Hp. unfold l in Hp. apply list_elem_of_In, in_rev, list_elem_of_In, pages_from_range in Hp. lia. }
  assert (Hpt : ptable s = [fork_parent; zero_proc] /\ curproc s = Some 0%nat /\ ptable_lock s = false /\ nextpid s = 2).
  { split_and!; [change (ptable s) with (ptable (with_alloc s (phys fork_before) (freelist (kmem fork_before))))|
      change (curproc s) with (curproc (with_alloc s (phys fork_before) (freelist (kmem fork_before))))|
      change (ptable_lock s) with (ptable_lock (with_alloc s (phys fork_before) (freelist (kmem fork_before))))|
      change (nextpid s) with (nextpid (with_alloc s (phys fork_before) (freelist (kmem fork_before))))];
    by rewrite Ho. }
  destruct Hpt as (Hpt & Hcu & Hlk & Hnp).
  destruct (space_foreign fork_before ex_dir [] s l) as (Hsp & Hpte & _); [|done| |].
  { split; [apply fork_kmem|apply ex_uspace|]. intros p _. apply not_elem_of_nil. }
  { intros p Hp%fork_pages. split; [|intros ?%Hl; lia]. intros x Hx. symmetry. apply Hag.
    unfold in_page, in_range, KERNBASE in *. lia. }
  exists s, l. split; [done|]. split; [done|]. split; try done.
  - by rewrite Hpt.
  - by rewrite Hpt.
  - by rewrite Hpt.
  - intros x Hx. cbn in Hx. change (pgdir fork_parent) with ex_dir.
    rewrite Hpte by (unfold vaddr; lia). cbn [phys fork_before with_ptable ex_state].
    rewrite ex_pte by (unfold uaddr, KERNBASE; lia). repeat case_decide; try done.
    Z.div_mod_to_equations. lia.
  - split; [by vm_compute|]. intros ?%Hl. cbn in *. lia.
  - intros n pg Hn Hpg%Hl. unfold in_range. change (cq fork_parent) with (mk_cq 0 0 ex_table :: replicate 7 (mk_cq (-1) 0 0)) in Hn.
    cbn [replicate] in Hn. unfold ex_table in Hn. repeat (apply elem_of_cons in Hn as [->|Hn]; [cbn; lia|]).
    by apply not_elem_of_nil in Hn.
Qed.

Lemma fork_duplicates_witness : exists s s' q l', fork s = Ret 2 s' /\ fork_child s 0 fork_parent 1 s' q l'.
Proof.
  destruct fork_ready as (s & l & Hl & Hn & Hf).
  destruct (fork_duplicates s 0 fork_parent 1 zero_proc l Hf) as [(s' & _ & _ & H)|(s' & q & l' & E & Hc)].
  - exfalso. rewrite Hl in H. by vm_compute in H.
  - exists s, s', q, l'. rewrite <- Hn. split; [exact E|exact Hc].
Defined.
