(* ===== verification/Syscall.v ===== *)
(** * System calls and traps (syscall.c, sysproc.c, trap.c)

    The trap frame is bytes of the kernel stack; user arguments are read
    through the MMU, so that an argument on an encrypted page is decrypted by
    the page-fault path on the way.

    A call that gives up the CPU before it returns ([exit], [wait] and [sleep]
    when they block) has the result [None]. *)
From S2P Require Import Prelude Traps Memory KString Mmu State Kalloc Vm Proc.

(** ** syscall.h and traps.h *)

Definition SYS_fork : Z := 1.
Definition SYS_exit : Z := 2.
Definition SYS_wait : Z := 3.
Definition SYS_pipe : Z := 4.
Definition SYS_read : Z := 5.
Definition SYS_kill : Z := 6.
Definition SYS_exec : Z := 7.
Definition SYS_fstat : Z := 8.
Definition SYS_chdir : Z := 9.
Definition SYS_dup : Z := 10.
Definition SYS_getpid : Z := 11.
Definition SYS_sbrk : Z := 12.
Definition SYS_sleep : Z := 13.
Definition SYS_uptime : Z := 14.
Definition SYS_open : Z := 15.
Definition SYS_write : Z := 16.
Definition SYS_mknod : Z := 17.
Definition SYS_unlink : Z := 18.
Definition SYS_link : Z := 19.
Definition SYS_mkdir : Z := 20.
Definition SYS_close : Z := 21.
Definition SYS_mencrypt : Z := 22.
Definition SYS_getpgtable : Z := 23.
Definition SYS_dump_rawphymem : Z := 24.

Definition tf_trapno : Z := 48.

(** What the calls of sysfile.c do to [kstate], by call number, and the device
    interrupts: of ide.c, which finishes a disk transfer and wakes its process,
    and of kbd.c and uart.c, which feed the console. *)
Class SysOps := {
  sys_file : Z -> K (option Z);
  ideintr : K unit;
  kbdintr : K unit;
  uartintr : K unit
}.

Section Syscall.
Context `{PL : Platform} `{FS : FsOps} `{SO : SysOps}.

(** ** Arguments *)

(** [int *ip] is filled in on success: the result is the value, or [None] for
    -1. *)
Definition fetchint (addr : Z) : K (option Z) :=
  let* me := my in
  let* p := get_proc me in
  if (sz p <=? addr) || (sz p <? u32 (addr + 4)) then ret None
  else let* x := uload32 addr in ret (Some (s32 x)).

(** [char **pp] is set to [addr] unless [addr] is outside; the result is the
    length of the string. *)
Fixpoint fetchstr_loop (n : nat) (addr s : Z) : K (option Z) :=
  match n with
  | O => ret None
  | S k =>
      let* c := uload8 s in
      if c =? 0 then ret (Some (s - addr)) else fetchstr_loop k addr (s + 1)
  end.
Definition fetchstr (addr : Z) : K (option Z) :=
  let* me := my in
  let* p := get_proc me in
  if sz p <=? addr then ret None
  else fetchstr_loop (Z.to_nat (sz p - addr)) addr addr.

Definition argint (n : Z) : K (option Z) :=
  let* me := my in
  let* p := get_proc me in
  let* esp := kread32 (tf p + tf_esp) in
  fetchint (u32 (esp + 4 + 4 * n)).

(** The pointer, as an unsigned number. *)
Definition argptr (n size : Z) : K (option Z) :=
  let* me := my in
  let* p := get_proc me in
  let* r := argint n in
  match r with
  | None => ret None
  | Some i =>
      if (size <? 0) || (sz p <=? u32 i) || (sz p <? u32 (u32 i + size)) then ret None
      else ret (Some (u32 i))
  end.

Definition argstr (n : Z) : K (option (Z * Z)) :=
  let* r := argint n in
  match r with
  | None => ret None
  | Some addr =>
      let* l := fetchstr (u32 addr) in
      match l with
      | None => ret None
      | Some len => ret (Some (u32 addr, len))
      end
  end.

(** ** sysproc.c *)

Definition sys_fork : K (option Z) := let* r := fork in ret (Some r).
Definition sys_exit : K (option Z) := do* exit in ret None.
Definition sys_wait : K (option Z) := wait.

Definition sys_kill : K (option Z) :=
  let* r := argint 0 in
  match r with
  | None => ret (Some (-1))
  | Some n => let* r := kill n in ret (Some r)
  end.

Definition sys_getpid : K (option Z) :=
  let* me := my in
  let* p := get_proc me in
  ret (Some (pid p)).

Definition sys_sbrk : K (option Z) :=
  let* r := argint 0 in
  match r with
  | None => ret (Some (-1))
  | Some n =>
      let* me := my in
      let* p := get_proc me in
      let addr := s32 (sz p) in
      let* r := growproc n in
      if r <? 0 then ret (Some (-1)) else ret (Some addr)
  end.

Definition acquire_ticks : K unit :=
  fun s => if tickslock s then Panic "acquire" else Ret tt (with_tickslock s true).
Definition release_ticks : K unit :=
  fun s => if tickslock s then Ret tt (with_tickslock s false) else Panic "release".

(** [&ticks] *)
Context (ticks_addr : Z).

(** One turn of the loop of [sys_sleep]: the comparison is unsigned. *)
Definition sleep_turn (ticks0 n : Z) : K (option Z) :=
  let* t := gets ticks in
  if u32 (t - ticks0) <? u32 n then
    let* me := my in
    let* p := get_proc me in
    if negb (killed p =? 0) then
      do* release_ticks in
      ret (Some (-1))
    else
      do* sleep_out (CPtr ticks_addr) (Some release_ticks) in
      ret None
  else
    do* release_ticks in
    ret (Some 0).

Definition sys_sleep : K (option Z) :=
  let* r := argint 0 in
  match r with
  | None => ret (Some (-1))
  | Some n =>
      do* acquire_ticks in
      let* ticks0 := gets ticks in
      sleep_turn ticks0 n
  end.
(** When the process runs again. *)
Definition sys_sleep_resume (ticks0 n : Z) : K (option Z) :=
  do* sleep_in (Some acquire_ticks) in
  sleep_turn ticks0 n.

Definition sys_uptime : K (option Z) :=
  do* acquire_ticks in
  let* xticks := gets ticks in
  do* release_ticks in
  ret (Some (s32 xticks)).

Definition sys_mencrypt : K (option Z) :=
  let* r := argint 1 in
  match r with
  | None => ret (Some (-1))
  | Some len =>
      if len =? 0 then ret (Some 0)
      else if len <? 0 then ret (Some (-1))
      else
        let* r := argptr 0 1 in
        match r with
        | None => ret (Some (-1))
        | Some va =>
            if KERNBASE <=? va then ret (Some (-1))
            else let* r := mencrypt va len in ret (Some r)
        end
  end.

Definition sys_getpgtable : K (option Z) :=
  let* r := argint 1 in
  match r with
  | None => ret (Some (-1))
  | Some num =>
      let* r := argint 2 in
      match r with
      | None => ret (Some (-1))
      | Some wsetOnly =>
          (* the product is a uint, the parameter an int *)
          let* r := argptr 0 (s32 (u32 (u32 num * sizeof_pt_entry))) in
          match r with
          | None => ret (Some (-1))
          | Some entries => let* r := getpgtable entries num wsetOnly in ret (Some r)
          end
      end
  end.

Definition sys_dump_rawphymem : K (option Z) :=
  let* r := argptr 1 PGSIZE in
  match r with
  | None => ret (Some (-1))
  | Some buffer =>
      let* r := argint 0 in
      match r with
      | None => ret (Some (-1))
      | Some physical_addr =>
          let* r := dump_rawphymem (u32 physical_addr) buffer in ret (Some r)
      end
  end.

(** ** Dispatch *)

(** [syscalls[num]]: every number from 1 to 24 has an entry. *)
Definition syscalls (num : Z) : option (K (option Z)) :=
  if num =? SYS_fork then Some sys_fork
  else if num =? SYS_exit then Some sys_exit
  else if num =? SYS_wait then Some sys_wait
  else if num =? SYS_kill then Some sys_kill
  else if num =? SYS_getpid then Some sys_getpid
  else if num =? SYS_sbrk then Some sys_sbrk
  else if num =? SYS_sleep then Some sys_sleep
  else if num =? SYS_uptime then Some sys_uptime
  else if num =? SYS_mencrypt then Some sys_mencrypt
  else if num =? SYS_getpgtable then Some sys_getpgtable
  else if num =? SYS_dump_rawphymem then Some sys_dump_rawphymem
  else if (1 <=? num) && (num <=? 24) then Some (sys_file num)
  else None.

(** The result goes to the saved [%eax]; [false] when the call has given up
    the CPU instead of returning. *)
Definition syscall : K bool :=
  let* me := my in
  let* p := get_proc me in
  let* eax := kread32 (tf p + tf_eax) in
  match syscalls (s32 eax) with
  | Some f =>
      let* r := f in
      match r with
      | Some v =>
          let* p := get_proc me in
          do* kwrite32 (tf p + tf_eax) v in
          ret true
      | None => ret false
      end
  | None =>
      do* kwrite32 (tf p + tf_eax) (-1) in
      ret true
  end.

(** ** trap.c *)

Inductive trap_result :=
| Back       (* returns to the interrupted code *)
| Gone       (* switched away for good or inside the system call *)
| Yielded.   (* switched away in yield() *)

Definition kread16 (v : Z) : K Z := gets (fun s => read16 (phys s) (V2P v)).

(** [myproc() && myproc()->killed && (tf->cs&3) == DPL_USER], then [exit]. *)
Definition exit_if_killed (tfp : Z) : K bool :=
  let* o := myproc in
  match o with
  | None => ret false
  | Some me =>
      let* p := get_proc me in
      let* cs := kread16 (tfp + tf_cs) in
      if negb (killed p =? 0) && (Z.land cs 3 =? DPL_USER) then do* exit in ret true else ret false
  end.

Definition timer_tick (cpuid : Z) : K unit :=
  if cpuid =? 0 then
    do* acquire_ticks in
    do* modify (fun s => with_ticks s (u32 (ticks s + 1))) in
    do* wakeup (CPtr ticks_addr) in
    release_ticks
  else ret tt.

(** The [default] case. *)
Definition unexpected (tfp : Z) : K unit :=
  let* o := myproc in
  let* cs := kread16 (tfp + tf_cs) in
  match o with
  | None => panic "trap"
  | Some me =>
      if Z.land cs 3 =? 0 then panic "trap"
      else upd_proc me (fun p => set_killed p 1)
  end.

(** The switch on [tf->trapno]; [cr2] is the faulting address. *)
Definition trap_dispatch (tfp trapno cpuid cr2 : Z) : K unit :=
  if trapno =? T_IRQ0 + IRQ_TIMER then timer_tick cpuid
  else if trapno =? T_IRQ0 + IRQ_IDE then ideintr
  else if trapno =? T_IRQ0 + IRQ_IDE + 1 then ret tt
  else if trapno =? T_IRQ0 + IRQ_KBD then kbdintr
  else if trapno =? T_IRQ0 + IRQ_COM1 then uartintr
  else if (trapno =? T_IRQ0 + 7) || (trapno =? T_IRQ0 + IRQ_SPURIOUS) then ret tt
  else if trapno =? T_PGFLT then
    let* r := mdecrypt cr2 in
    if r =? 0 then ret tt else unexpected tfp
  else unexpected tfp.

Definition trap_syscall (tfp : Z) : K trap_result :=
  let* me := my in
  let* p := get_proc me in
  if negb (killed p =? 0) then do* exit in ret Gone
  else
    do* upd_proc me (fun p => set_tf p tfp) in
    let* done := syscall in
    if negb done then ret Gone
    else
      let* me := my in
      let* p := get_proc me in
      if negb (killed p =? 0) then do* exit in ret Gone else ret Back.

Definition trap (tfp cpuid cr2 : Z) : K trap_result :=
  let* trapno := kread32 (tfp + tf_trapno) in
  if trapno =? T_SYSCALL then trap_syscall tfp
  else
    do* trap_dispatch tfp trapno cpuid cr2 in
    let* gone := exit_if_killed tfp in
    if gone then ret Gone
    else
      let* o := myproc in
      let* run := match o with
                  | None => ret false
                  | Some me => let* p := get_proc me in ret (is_state RUNNING p)
                  end in
      if run && (trapno =? T_IRQ0 + IRQ_TIMER) then do* yield_out in ret Yielded
      else
        let* gone := exit_if_killed tfp in
        ret (if gone then Gone else Back).

(** The rest of a trap that yielded, when the process runs again. *)
Definition trap_resume (tfp : Z) : K trap_result :=
  do* yield_in in
  let* gone := exit_if_killed tfp in
  ret (if gone then Gone else Back).

End Syscall.
