(* ===== verification/SyscallProof.v ===== *)
(** * System-call arguments and page faults

    What [argint] and [argptr] return, and what [trap] does with a page
    fault. *)
From S2P Require Import Prelude Traps Memory KString Mmu State Kalloc.
From S2P Require Import Vm VmTables VmCrypt VmEnc VmClock VmDecrypt UserMem VmExample Proc Syscall.

Section SyscallProof.
Context `{PL : Platform} `{FS : FsOps} `{SO : SysOps}.

Lemma my_spec s me p : cur_ok s me p -> my s = Ret me s.
Proof. intros Hok. unfold my. by rewrite (co_cur _ _ _ Hok). Qed.
Lemma get_proc_spec s me p : cur_ok s me p -> get_proc me s = Ret p s.
Proof. intros Hok. unfold get_proc. by rewrite (co_proc _ _ _ Hok). Qed.

(** The user address of argument [n]. *)
Definition arg_addr (s : kstate) (p : proc) (n : Z) : Z :=
  u32 (read32 (phys s) (V2P (tf p + tf_esp)) + 4 + 4 * n).
Definition arg_in (p : proc) (a : Z) : bool := negb ((sz p <=? a) || (sz p <? u32 (a + 4))).

Lemma argint_spec s me p n :
  cur_ok s me p -> cq_ok (phys s) p ->
  (arg_in p (arg_addr s p n) = true -> readable (phys s) (pgdir p) (arg_addr s p n) 4) ->
  exists s' p', accessed s me p s' p' /\
    argint n s = Ret (if arg_in p (arg_addr s p n) then Some (s32 (plain32 (phys s) (pgdir p) (arg_addr s p n)))
                      else None) s' /\
    (arg_in p (arg_addr s p n) = false -> s' = s /\ p' = p).
Proof.
  intros Hok Hq Hr. unfold argint, fetchint, kread32, gets.
  rewrite (bind_Ret _ _ _ _ _ (my_spec _ _ _ Hok)), (bind_Ret _ _ _ _ _ (get_proc_spec _ _ _ Hok)).
  unfold bind at 1. rewrite (bind_Ret _ _ _ _ _ (my_spec _ _ _ Hok)), (bind_Ret _ _ _ _ _ (get_proc_spec _ _ _ Hok)).
  fold (arg_addr s p n). destruct (arg_in p (arg_addr s p n)) eqn:Ein; unfold arg_in in Ein.
  - apply negb_true_iff in Ein. rewrite Ein.
    destruct (uload32_spec s me p _ Hok Hq (Hr eq_refl)) as (s' & p' & E & Hac).
    exists s', p'. split; [done|]. split; [|done]. by rewrite (bind_Ret _ _ _ _ _ E).
  - apply negb_false_iff in Ein. rewrite Ein. exists s, p. split; [|done].
    split; try done; [by apply crypt_rel_refl, Hok| |by destruct p].
    by rewrite list_insert_id by apply Hok.
Qed.

(** The kernel stack, where the trap frame is, is neither page table nor user
    page, so accesses to user memory leave the frame alone. *)
Definition frame_apart_from_user (m : mem) (d a n : Z) : Prop :=
  forall b, in_range a n b ->
    (forall q, is_ptpage m d q -> ~ in_page q b) /\
    (forall x, uaddr x -> mapped (pte_of m d x) = true -> ~ in_page (frame (pte_of m d x)) b).

Lemma accessed_frame s me p s' p' a n :
  accessed s me p s' p' -> frame_apart_from_user (phys s) (pgdir p) a n -> agree (in_range a n) (phys s') (phys s).
Proof. intros Hac Hf b Hb. destruct (Hf b Hb). by apply (cr_out _ _ _ (ac_crypt _ _ _ _ _ Hac)). Qed.

(** C21. [argint] refuses an argument slot that is not inside the process's
    memory, without touching anything; otherwise it returns the plaintext of the
    four bytes there, although the page they are on may be encrypted, and the
    only effect is that of accesses by the process itself (the address space is
    the same up to encryption, and the clock queue stays well formed). *)
Theorem argint_reads_plaintext s me p n :
  cur_ok s me p -> cq_ok (phys s) p ->
  (arg_in p (arg_addr s p n) = true -> readable (phys s) (pgdir p) (arg_addr s p n) 4) ->
  (arg_in p (arg_addr s p n) = false -> argint n s = Ret None s) /\
  (arg_in p (arg_addr s p n) = true -> exists s' p', accessed s me p s' p' /\
    argint n s = Ret (Some (s32 (plain32 (phys s) (pgdir p) (arg_addr s p n)))) s').
Proof.
  intros Hok Hq Hr. destruct (argint_spec s me p n Hok Hq Hr) as (s' & p' & Hac & E & Hun).
  split; intros Ein; rewrite Ein in E.
  - by destruct (Hun Ein) as [-> _].
  - by exists s', p'.
Qed.

Lemma u32_s32 x : u32 (s32 x) = u32 x.
Proof. unfold u32, s32. Z.div_mod_to_equations; lia. Qed.

Lemma plain32_u32 m d va : u32 (plain32 m d va) = plain32 m d va.
Proof.
  apply u32_small. unfold plain32.
  assert (H : forall x, 0 <= plain m d x < 256).
  { intros x. unfold plain, ubyte. case_match; [|apply read8_range].
    pose proof (read8_range m (PTE_ADDR (pte_of m d x) + OFFSET x)). lia. }
  pose proof (H va). pose proof (H (va + 1)). pose proof (H (va + 2)). pose proof (H (va + 3)). lia.
Qed.

(** [argptr] once the argument slot has been read. *)
Lemma argptr_spec s me p n size :
  cur_ok s me p -> cq_ok (phys s) p -> readable (phys s) (pgdir p) (arg_addr s p n) 4 ->
  arg_in p (arg_addr s p n) = true ->
  let i := plain32 (phys s) (pgdir p) (arg_addr s p n) in
  exists s' p', accessed s me p s' p' /\
    argptr n size s = Ret (if (size <? 0) || (sz p <=? i) || (sz p <? u32 (i + size)) then None else Some i) s'.
Proof.
  intros Hok Hq Hr Hin i. destruct (argint_spec s me p n Hok Hq (fun _ => Hr)) as (s' & p' & Hac & E & _).
  rewrite Hin in E. exists s', p'. split; [done|]. unfold argptr.
  rewrite (bind_Ret _ _ _ _ _ (my_spec _ _ _ Hok)), (bind_Ret _ _ _ _ _ (get_proc_spec _ _ _ Hok)).
  rewrite (bind_Ret _ _ _ _ _ E). cbn beta iota. fold i.
  assert (Hu : u32 (s32 i) = i) by (rewrite u32_s32; apply plain32_u32).
  rewrite !Hu. by destruct ((size <? 0) || (sz p <=? i) || (sz p <? u32 (i + size))).
Qed.

(** C22. [argptr] hands out a pointer only if the whole block of [size] bytes
    lies inside the process's memory (no wrap-around gets past the check), and
    hands it out whenever it does. *)
Theorem argptr_in_bounds s me p n size :
  cur_ok s me p -> cq_ok (phys s) p -> readable (phys s) (pgdir p) (arg_addr s p n) 4 ->
  arg_in p (arg_addr s p n) = true -> sz p <= KERNBASE -> -2147483648 <= size < 2147483648 ->
  let i := plain32 (phys s) (pgdir p) (arg_addr s p n) in
  exists s' p', accessed s me p s' p' /\
    ((0 <= size /\ i < sz p /\ i + size <= sz p /\ argptr n size s = Ret (Some i) s') \/
     ((size < 0 \/ sz p <= i \/ sz p < i + size) /\ argptr n size s = Ret None s')).
Proof.
  intros Hok Hq Hr Hin Hsz Hs i. destruct (argptr_spec s me p n size Hok Hq Hr Hin) as (s' & p' & Hac & E).
  exists s', p'. split; [done|]. rewrite E. fold i.
  assert (Hi : 0 <= i < 4294967296) by (unfold i; rewrite <- plain32_u32; apply u32_range).
  unfold KERNBASE in Hsz.
  destruct (Z.ltb_spec size 0); [right; split; [lia|done]|].
  destruct (Z.leb_spec (sz p) i); [right; split; [lia|done]|].
  rewrite u32_small by lia. destruct (Z.ltb_spec (sz p) (i + size)); [right; split; [lia|done]|].
  left. split_and!; (done || lia).
Qed.

(** ** Page faults *)

Lemma exit_if_killed_alive s me p tfp :
  curproc s = Some me -> ptable s !! me = Some p -> killed p = 0 -> exit_if_killed tfp s = Ret false s.
Proof.
  intros Hc Hp Hk. unfold exit_if_killed, myproc, get_proc, kread16, gets, bind. rewrite Hc, Hp, Hk. done.
Qed.

Lemma exit_if_killed_user s me p tfp :
  curproc s = Some me -> ptable s !! me = Some p -> killed p <> 0 ->
  Z.land (read16 (phys s) (V2P (tfp + tf_cs))) 3 = DPL_USER ->
  exit_if_killed tfp s = (do* exit in ret true) s.
Proof.
  intros Hc Hp Hk Hcs. unfold exit_if_killed, myproc, get_proc, kread16, gets. unfold bind at 1 2 3.
  rewrite Hc, Hp, Hcs. by destruct (Z.eqb_spec (killed p) 0).
Qed.

Lemma trap_dispatch_pgflt taddr tfp cpuid va :
  trap_dispatch taddr tfp T_PGFLT cpuid va =
  let* r := mdecrypt va in if r =? 0 then ret tt else unexpected tfp.
Proof. reflexivity. Qed.

(** After [dispatch] a trap that is neither a system call nor the timer only
    looks whether the process is to die. *)
Lemma trap_tail s s1 taddr tfp cpuid cr2 :
  read32 (phys s) (V2P (tfp + tf_trapno)) = T_PGFLT ->
  trap_dispatch taddr tfp T_PGFLT cpuid cr2 s = Ret tt s1 ->
  trap taddr tfp cpuid cr2 s =
  (let* gone := exit_if_killed tfp in
   if gone then ret Gone
   else let* o := myproc in
        let* run := match o with
                    | None => ret false
                    | Some me => let* p := get_proc me in ret (is_state RUNNING p)
                    end in
        let* gone := exit_if_killed tfp in
        ret (if gone then Gone else Back)) s1.
Proof.
  intros Ht Hd. unfold trap, kread32, gets. unfold bind at 1. rewrite Ht.
  change (T_PGFLT =? T_SYSCALL) with false. cbn beta iota. rewrite (bind_Ret _ _ _ _ _ Hd).
  unfold bind. destruct (exit_if_killed tfp s1) as [[] s2| | |]; try done.
  destruct (myproc s2) as [[me|] s3| | |]; try done.
  - destruct (get_proc me s3) as [p s4| | |]; try done. unfold ret.
    by destruct (is_state RUNNING p).
Qed.

(** A page fault on an encrypted page of the current process, in user or
    kernel mode, is transparent: [trap] returns to the interrupted code with
    the page present, with the same plaintext everywhere, and with the trap
    frame it came with. *)
Lemma trap_serves_page_fault taddr s me p va tfp cpuid :
  cur_ok s me p -> cq_ok (phys s) p -> uaddr va -> killed p = 0 ->
  accessible (pte_of (phys s) (pgdir p) va) = true ->
  has (pte_of (phys s) (pgdir p) va) PTE_E = true ->
  read32 (phys s) (V2P (tfp + tf_trapno)) = T_PGFLT ->
  frame_apart_from_user (phys s) (pgdir p) (V2P tfp) sizeof_trapframe ->
  exists s' p', trap taddr tfp cpuid va s = Ret Back s' /\ accessed s me p s' p' /\
    has (pte_of (phys s') (pgdir p) va) PTE_P = true /\
    agree (in_range (V2P tfp) sizeof_trapframe) (phys s') (phys s).
Proof.
  intros Hok Hq Hva Hk Hacc HE Ht Hf.
  destruct (mdecrypt_served s me p va Hok Hq Hva (accessible_mapped _ Hacc)) as (m1 & s1 & p1 & E1 & Hs).
  assert (Ha1 := served_accessed _ _ _ _ _ _ _ Hok Hacc HE Hs).
  assert (Hok1 := ac_cur _ _ _ _ _ Ha1).
  assert (Hk1 : killed p1 = 0) by (by rewrite (ac_proc _ _ _ _ _ Ha1)).
  exists s1, p1. split; [|split; [done|split; [|by eapply accessed_frame]]].
  - assert (Hd : trap_dispatch taddr tfp T_PGFLT cpuid va s = Ret tt s1).
    { rewrite trap_dispatch_pgflt. by rewrite (bind_Ret _ _ _ _ _ E1). }
    assert (Hx := exit_if_killed_alive s1 me p1 tfp (co_cur _ _ _ Hok1) (co_proc _ _ _ Hok1) Hk1).
    rewrite (trap_tail s s1) by done. rewrite (bind_Ret _ _ _ _ _ Hx). cbn beta iota.
    unfold myproc, gets. unfold bind at 1. rewrite (co_cur _ _ _ Hok1). unfold bind at 1.
    rewrite (bind_Ret _ _ _ _ _ (get_proc_spec _ _ _ Hok1)). unfold ret at 1. by rewrite (bind_Ret _ _ _ _ _ Hx).
  - rewrite (proj1 (sv_PE _ _ _ _ _ _ _ Hs)). apply Hs.
Qed.

(** The addresses [mdecrypt] refuses. *)
Definition unserved (s : kstate) (p : proc) (va : Z) : Prop :=
  KERNBASE <= va \/ (uaddr va /\ pte_of (phys s) (pgdir p) va = 0).

Lemma mdecrypt_refuses s me p va :
  cur_ok s me p -> vaddr va -> unserved s p va -> mdecrypt va s = Ret (-1) s.
Proof.
  intros Hok Hv [Hva|[Hva Hz]]; unfold mdecrypt.
  - change 2147483648 with KERNBASE. by destruct (Z.leb_spec KERNBASE va); [|lia].
  - change 2147483648 with KERNBASE. destruct (Z.leb_spec KERNBASE va); [unfold uaddr in Hva; lia|].
    rewrite (bind_Ret _ _ _ _ _ (my_spec _ _ _ Hok)), (bind_Ret _ _ _ _ _ (get_proc_spec _ _ _ Hok)).
    assert (Hwf := us_wf _ _ (co_us _ _ _ Hok)).
    destruct (pte_slot (phys s) (pgdir p) va) as [a|] eqn:Ea.
    + destruct (walk_some _ _ _ _ Hwf Hv Ea) as [Ew Enz]. rewrite (bind_Ret _ _ _ _ _ Ew), Enz.
      rewrite (bind_Ret _ _ _ _ _ (kread_slot _ _ _ _ Hwf Hv Ea)), Hz. done.
    + by rewrite (bind_Ret _ _ _ _ _ (walk_none _ _ _ Hwf Hv Ea)).
Qed.

(** The state in which the faulting process is marked to die. *)
Definition marked (s : kstate) (me : nat) (p : proc) : kstate :=
  with_ptable s (<[me := set_killed p 1]> (ptable s)).

(** A page fault that [mdecrypt] refuses (a kernel address, or an address
    with no page behind it) is fatal: in user mode the process is marked killed
    and [exit]s before it runs again, in kernel mode the kernel panics. *)
Theorem trap_bad_address taddr s me p va tfp cpuid :
  cur_ok s me p -> vaddr va -> unserved s p va ->
  read32 (phys s) (V2P (tfp + tf_trapno)) = T_PGFLT ->
  let cpl := Z.land (read16 (phys s) (V2P (tfp + tf_cs))) 3 in
  (cpl = DPL_USER -> trap taddr tfp cpuid va s = (do* exit in ret Gone) (marked s me p)) /\
  (cpl = 0 -> trap taddr tfp cpuid va s = Panic "trap").
Proof.
  intros Hok Hv Hun Ht cpl. assert (Em := mdecrypt_refuses s me p va Hok Hv Hun).
  assert (Hd : trap_dispatch taddr tfp T_PGFLT cpuid va s = unexpected tfp s).
  { rewrite trap_dispatch_pgflt. by rewrite (bind_Ret _ _ _ _ _ Em). }
  unfold unexpected, myproc, kread16, gets in Hd. unfold bind at 1 2 in Hd. rewrite (co_cur _ _ _ Hok) in Hd.
  fold cpl in Hd. split; intros Hc; rewrite Hc in Hd.
  - assert (Hd' : trap_dispatch taddr tfp T_PGFLT cpuid va s = Ret tt (marked s me p)).
    { rewrite Hd. change (DPL_USER =? 0) with false. unfold upd_proc. by rewrite (co_proc _ _ _ Hok). }
    rewrite (trap_tail _ _ _ _ _ _ Ht Hd').
    assert (Hx : exit_if_killed tfp (marked s me p) = (do* exit in ret true) (marked s me p)).
    { apply (exit_if_killed_user _ me (set_killed p 1)); [apply Hok| |done|done].
      apply list_lookup_insert_eq. eapply lookup_lt_Some, Hok. }
    unfold bind in Hx |- *. rewrite Hx. by destruct (exit (marked s me p)).
  - unfold trap, kread32, gets. unfold bind at 1. rewrite Ht. change (T_PGFLT =? T_SYSCALL) with false.
    cbn beta iota. unfold bind at 1. by rewrite Hd.
Qed.

End SyscallProof.

(** ** Witnesses: the example address space with a trap frame on the kernel stack *)

#[local] Existing Instance ex_platform.

#[local] Instance ex_fs : FsOps := {|
  filedup := fun f => ret f; idup := fun ip => ret ip; fileclose := fun _ => ret tt; iput := fun _ => ret tt;
  namei_root := ret 1; begin_op := ret tt; end_op := ret tt; iinit := fun _ => ret tt; initlog := fun _ => ret tt;
  filedup_law := fun _ _ => eq_refl; idup_law := fun _ _ => eq_refl |}.
#[local] Instance ex_sys : SysOps := {| sys_file := fun _ => ret (Some (-1)); ideintr := ret tt; kbdintr := ret tt; uartintr := ret tt |}.

Definition ex_tf : Z := 0x80205000.
Definition ex_tf_mem (trapno cs esp : Z) : mem :=
  write32 (write32 (write32 ex_mem 0x205030 trapno) 0x20503c cs) 0x205044 esp.
Definition ex_tf_proc : proc := set_tf ex_proc ex_tf.
Definition ex_tf_state (trapno cs esp : Z) : kstate :=
  with_ptable (with_phys ex_state (ex_tf_mem trapno cs esp)) [ex_tf_proc].

Lemma ex_tf_agree trapno cs esp q :
  is_ptpage ex_mem ex_dir q -> agree (in_page q) ex_mem (ex_tf_mem trapno cs esp).
Proof.
  intros Hq%ex_ptpage b Hb. unfold ex_tf_mem. rewrite !read8_write32_ne; [done|..];
    unfold in_page, in_range, KERNBASE in *; destruct Hq as [-> | ->]; unfold ex_dir, ex_table in *; lia.
Qed.

Lemma ex_tf_cur_ok trapno cs esp : cur_ok (ex_tf_state trapno cs esp) 0 ex_tf_proc.
Proof. split; [done..| |done]. apply (uspace_agree ex_mem); [apply ex_uspace|apply ex_tf_agree]. Qed.

Lemma ex_tf_cq_ok trapno cs esp : cq_ok (ex_tf_mem trapno cs esp) ex_tf_proc.
Proof.
  apply (cq_ok_agree ex_mem); [apply ex_wf| |apply ex_tf_agree]. destruct ex_cq_ok. by split.
Qed.

Lemma ex_tf_pte trapno cs esp va : uaddr va -> pte_of (ex_tf_mem trapno cs esp) ex_dir va = pte_of ex_mem ex_dir va.
Proof. intros Hva. apply pte_of_agree; [apply ex_wf|apply ex_tf_agree|by apply uaddr_vaddr]. Qed.

(** Pages 0 (present) and 1 (encrypted) are readable. *)
Lemma ex_readable trapno cs esp va : 0 <= va <= 8188 -> readable (ex_tf_mem trapno cs esp) ex_dir va 4.
Proof.
  intros Hva i Hi. assert (Hu : uaddr (va + i)) by (unfold uaddr, KERNBASE; lia). split; [done|].
  rewrite ex_tf_pte, ex_pte by done. repeat case_decide; try done; exfalso; Z.div_mod_to_equations; lia.
Qed.

(** Argument 0 on the encrypted page: its bytes in memory are 0, so the
    plaintext is -1. *)
Lemma argint_reads_plaintext_witness :
  exists s', argint 0 (ex_tf_state T_SYSCALL 0x1b 0x1ff0) = Ret (Some (-1)) s'.
Proof.
  destruct (argint_reads_plaintext (ex_tf_state T_SYSCALL 0x1b 0x1ff0) 0 ex_tf_proc 0) as [_ H].
  - apply ex_tf_cur_ok.
  - apply ex_tf_cq_ok.
  - intros _. apply ex_readable. by vm_compute.
  - destruct H as (s' & p' & _ & E); [by vm_compute|]. exists s'. exact E.
Defined.

Lemma argptr_in_bounds_witness :
  exists s', argptr 0 1 (ex_tf_state T_SYSCALL 0x1b 0xff0) = Ret (Some 0) s'.
Proof.
  destruct (argptr_in_bounds (ex_tf_state T_SYSCALL 0x1b 0xff0) 0 ex_tf_proc 0 1) as (s' & p' & _ & H).
  - apply ex_tf_cur_ok.
  - apply ex_tf_cq_ok.
  - apply ex_readable. by vm_compute.
  - by vm_compute.
  - by vm_compute.
  - lia.
  - destruct H as [(_ & _ & _ & E)|[H _]].
    + exists s'. exact E.
    + exfalso. vm_compute in H. intuition congruence.
Defined.

Lemma ex_tf_apart trapno cs esp :
  frame_apart_from_user (ex_tf_mem trapno cs esp) ex_dir (V2P ex_tf) sizeof_trapframe.
Proof.
  intros b Hb. change (V2P ex_tf) with 0x205000 in Hb. unfold in_range, sizeof_trapframe in Hb. split.
  - intros q Hq Hin. rewrite is_ptpage_agree in Hq by apply ex_tf_agree. apply ex_ptpage in Hq.
    unfold in_page, in_range, KERNBASE in Hin. destruct Hq as [-> | ->]; unfold ex_dir, ex_table in *; lia.
  - intros x Hx. rewrite ex_tf_pte, ex_pte by done. intros Hm Hin. unfold in_page, in_range, frame, KERNBASE in Hin.
    revert Hm Hin. repeat case_decide; try done; intros _ Hin;
      [change (PTE_ADDR 0x202007) with 0x202000 in Hin|change (PTE_ADDR 0x203406) with 0x203000 in Hin
      |change (PTE_ADDR 0x204003) with 0x204000 in Hin]; lia.
Qed.

Lemma trap_serves_page_fault_witness : exists s',
  trap 0 ex_tf 0 0x1000 (ex_tf_state T_PGFLT 0x1b 0x1ff0) = Ret Back s'.
Proof.
  destruct (trap_serves_page_fault 0 (ex_tf_state T_PGFLT 0x1b 0x1ff0) 0 ex_tf_proc 0x1000 ex_tf 0)
    as (s' & p' & E & _).
  - apply ex_tf_cur_ok.
  - apply ex_tf_cq_ok.
  - by vm_compute.
  - done.
  - by vm_compute.
  - by vm_compute.
  - by vm_compute.
  - apply ex_tf_apart.
  - exists s'. exact E.
Defined.

Lemma trap_bad_address_witness :
  trap 0 ex_tf 0 0x5000 (ex_tf_state T_PGFLT 0x8 0x1ff0) = Panic "trap".
Proof.
  apply (trap_bad_address 0 (ex_tf_state T_PGFLT 0x8 0x1ff0) 0 ex_tf_proc).
  - apply ex_tf_cur_ok.
  - by vm_compute.
  - right. split; [by vm_compute|]. change (pte_of (ex_tf_mem T_PGFLT 0x8 0x1ff0) ex_dir 0x5000 = 0).
    rewrite (ex_tf_pte T_PGFLT 0x8 0x1ff0 0x5000) by (by vm_compute). apply ex_pte. by vm_compute.
  - by vm_compute.
  - by vm_compute.
Defined.
