(* ===== verification/Exec.v ===== *)
(** * Program loading (exec.c)

    [exec] builds the new address space beside the old one, commits to it, and
    then encrypts every page of it.  The path and the argument strings are in
    the old address space and are read through the MMU; each is read once here,
    where the code measures it and then copies it. *)
From S2P Require Import Prelude Memory KString Mmu State Kalloc Vm Proc.

Definition MAXARG : Z := 32.

(** ** elf.h *)

Definition ELF_MAGIC : Z := 0x464C457F.
Definition ELF_PROG_LOAD : Z := 1.
Definition sizeof_elfhdr : Z := 52.
Definition elf_magic : Z := 0.
Definition elf_entry : Z := 24.
Definition elf_phoff : Z := 28.
Definition elf_phnum : Z := 44.
Definition sizeof_proghdr : Z := 32.
Definition ph_type : Z := 0.
Definition ph_off : Z := 4.
Definition ph_vaddr : Z := 8.
Definition ph_filesz : Z := 16.
Definition ph_memsz : Z := 20.

(** What exec.c uses of fs.c; [readi ip dst off n] copies into kernel memory
    at [dst] and returns the number of bytes. *)
Class ExecOps := {
  namei : Z -> K Z;
  ilock : Z -> K unit;
  iunlockput : Z -> K unit;
  readi : Z -> Z -> Z -> Z -> K Z
}.

Section Exec.
Context `{PL : Platform} `{FS : FsOps} `{EO : ExecOps}.

(** The locals [elf] and [ph], on the kernel stack. *)
Context (elf ph : Z).

(** ** Strings of the old address space *)

(** The bytes up to the NUL, at most [n] of them; [None] if there is none. *)
Fixpoint ustring (n : nat) (va : Z) : K (option (list Z)) :=
  match n with
  | O => ret None
  | S k =>
      let* c := uload8 va in
      if c =? 0 then ret (Some [])
      else
        let* r := ustring k (u32 (va + 1)) in
        ret (cons c <$> r)
  end.

(** [sys_exec] has checked that the string ends below [sz]. *)
Definition ustring_of (va : Z) : K (list Z) :=
  let* me := my in
  let* p := get_proc me in
  let* r := ustring (S (Z.to_nat (sz p - va))) va in
  match r with
  | Some l => ret l
  | None => fun _ => OutOfFuel
  end.

(** ** Copying to the new address space *)

Fixpoint write_list (m : mem) (a : Z) (bs : list Z) : mem :=
  match bs with
  | [] => m
  | b :: bs' => write_list (write8 m a b) (a + 1) bs'
  end.

(** [copyout] with the bytes of the source. *)
Fixpoint copyout_bytes (fuel : nat) (pgdir va : Z) (bs : list Z) : K Z :=
  match fuel with
  | O => fun _ => OutOfFuel
  | S k =>
      match bs with
      | [] => ret 0
      | _ =>
          let va0 := PGROUNDDOWN va in
          let* pa0 := uva2ka pgdir va0 in
          if pa0 =? 0 then ret (-1)
          else
            let n := Z.to_nat (PGSIZE - (va - va0)) in
            do* kmodify_mem (fun m => write_list m (V2P (u32 (pa0 + (va - va0)))) (take n bs)) in
            copyout_bytes k pgdir (u32 (va0 + PGSIZE)) (drop n bs)
      end
  end.
Definition copyout_list (pgdir va : Z) (bs : list Z) : K Z :=
  copyout_bytes (S (length bs)) pgdir va bs.

Definition le32 (x : Z) : list Z :=
  [u8 x; u8 (Z.shiftr x 8); u8 (Z.shiftr x 16); u8 (Z.shiftr x 24)].

(** ** The image *)

(** [bad:] *)
Definition bad (pgdir ip : Z) : K Z :=
  do* (if pgdir =? 0 then ret tt else freevm pgdir) in
  do* (if ip =? 0 then ret tt else do* iunlockput ip in end_op) in
  ret (-1).

(** The loop over the program headers: the size of the image, or [None] for
    [goto bad]. *)
Fixpoint load_segments (n : nat) (pgdir ip off sz : Z) : K (option Z) :=
  match n with
  | O => ret (Some sz)
  | S k =>
      let* r := readi ip ph off sizeof_proghdr in
      if negb (r =? sizeof_proghdr) then ret None
      else
        let* type := kread32 (ph + ph_type) in
        if negb (type =? ELF_PROG_LOAD) then load_segments k pgdir ip (u32 (off + sizeof_proghdr)) sz
        else
          let* memsz := kread32 (ph + ph_memsz) in
          let* filesz := kread32 (ph + ph_filesz) in
          let* vaddr := kread32 (ph + ph_vaddr) in
          let* poff := kread32 (ph + ph_off) in
          if memsz <? filesz then ret None
          else if u32 (vaddr + memsz) <? vaddr then ret None
          else
            let* sz := allocuvm pgdir sz (u32 (vaddr + memsz)) in
            if sz =? 0 then ret None
            else if negb (vaddr mod PGSIZE =? 0) then ret None
            else
              let* r := loaduvm readi pgdir vaddr ip poff filesz in
              if r <? 0 then ret None
              else load_segments k pgdir ip (u32 (off + sizeof_proghdr)) sz
  end.

(** The loop over [argv]: the stack pointer and the addresses of the strings
    on the new stack, or [None] for [goto bad]. *)
Fixpoint push_args (argc : Z) (pgdir sp : Z) (argv : list Z) : K (option (Z * list Z)) :=
  match argv with
  | [] => ret (Some (sp, []))
  | a :: argv' =>
      if MAXARG <=? argc then ret None
      else
        let* str := ustring_of a in
        let sp := Z.land (u32 (sp - (Z.of_nat (length str) + 1))) (Z.lnot 3) in
        let* r := copyout_list pgdir sp (str ++ [0]) in
        if r <? 0 then ret None
        else
          let* r := push_args (argc + 1) pgdir sp argv' in
          match r with
          | None => ret None
          | Some (sp', us) => ret (Some (sp', sp :: us))
          end
  end.

Definition ustack (argc sp : Z) (us : list Z) : list Z :=
  [0xffffffff; argc; u32 (sp - (argc + 1) * 4)] ++ us ++ [0].

(** The component of a path after its last slash. *)
Fixpoint last_component (last s : list Z) : list Z :=
  match s with
  | [] => last
  | c :: s' => last_component (if c =? 47 then s' else last) s'
  end.

(** The loop that encrypts the image page by page; a page that cannot be
    encrypted (the guard page) is passed over. *)
Fixpoint encrypt_image (n : nat) (i : Z) : K unit :=
  match n with
  | O => ret tt
  | S k => do* mencrypt i 1 in encrypt_image k (i + PGSIZE)
  end.

Definition commit_image (me : nat) (path : list Z) (pgdir' sz' sp entry : Z) : K Z :=
  do* upd_proc me (fun p => set_name_str p (last_component path path ++ [0])) in
  do* cq_init me in
  let* p := get_proc me in
  let oldpgdir := pgdir p in
  do* upd_proc me (fun p => set_pgdir p pgdir') in
  do* upd_proc me (fun p => set_sz p sz') in
  do* kwrite32 (tf p + tf_eip) entry in
  do* kwrite32 (tf p + tf_esp) sp in
  do* switchuvm (Some me) in
  do* encrypt_image (Z.to_nat ((sz' + PGSIZE - 1) / PGSIZE)) 0 in
  do* freevm oldpgdir in
  ret 0.

(** The stack and the commit, when the file is closed again. *)
Definition exec_stack (me : nat) (path : Z) (argv : list Z) (pgdir sz entry : Z) : K Z :=
  let sz := PGROUNDUP sz in
  let* sz := allocuvm pgdir sz (u32 (sz + 2 * PGSIZE)) in
  if sz =? 0 then bad pgdir 0
  else
    do* clearpteu pgdir (u32 (sz - 2 * PGSIZE)) in
    let* r := push_args 0 pgdir sz argv in
    match r with
    | None => bad pgdir 0
    | Some (sp, us) =>
        let argc := Z.of_nat (length us) in
        let words := ustack argc sp us in
        let sp := u32 (sp - (3 + argc + 1) * 4) in
        let* r := copyout_list pgdir sp (concat (le32 <$> words)) in
        if r <? 0 then bad pgdir 0
        else
          let* str := ustring_of path in
          commit_image me str pgdir sz sp entry
    end.

Definition exec (path : Z) (argv : list Z) : K Z :=
  let* me := my in
  do* begin_op in
  let* ip := namei path in
  if ip =? 0 then do* end_op in ret (-1)
  else
    do* ilock ip in
    let* r := readi ip elf 0 sizeof_elfhdr in
    if negb (r =? sizeof_elfhdr) then bad 0 ip
    else
      let* magic := kread32 (elf + elf_magic) in
      if negb (magic =? ELF_MAGIC) then bad 0 ip
      else
        let* pgdir := setupkvm in
        if pgdir =? 0 then bad 0 ip
        else
          let* phoff := kread32 (elf + elf_phoff) in
          let* phnum := gets (fun s => read16 (phys s) (V2P (elf + elf_phnum))) in
          let* r := load_segments (Z.to_nat phnum) pgdir ip phoff 0 in
          match r with
          | None => bad pgdir ip
          | Some sz =>
              do* iunlockput ip in
              do* end_op in
              let* entry := kread32 (elf + elf_entry) in
              exec_stack me path argv pgdir sz entry
          end.

End Exec.
