(* ===== verification/ExecProof.v ===== *)
(** * A program starts encrypted

    The loop at the end of [exec] leaves no accessible page of the new image in
    plaintext. *)
From S2P Require Import Prelude Memory KString Mmu State Kalloc.
From S2P Require Import Vm VmTables VmCrypt VmEnc VmClock VmDecrypt VmExample Proc Exec.

Section ExecProof.
Context `{PL : Platform}.

(** The state up to the encryption of some pages of the current process. *)
Record recrypted (s s' : kstate) (me : nat) (p : proc) : Prop := {
  rc_cur : cur_ok s' me p;
  rc_crypt : crypt_rel (phys s) (phys s') (pgdir p);
  rc_rest : rest_eq s s';
  rc_ptable : ptable s' = ptable s
}.

Lemma recrypted_refl s me p : cur_ok s me p -> recrypted s s me p.
Proof. intros Hok. split; try done. by apply crypt_rel_refl, Hok. Qed.

Lemma recrypted_trans s1 s2 s3 me p : recrypted s1 s2 me p -> recrypted s2 s3 me p -> recrypted s1 s3 me p.
Proof.
  intros [A1 A2 A3 A4] [B1 B2 B3 B4]. split; [done|by eapply crypt_rel_trans|by eapply rest_eq_trans|congruence].
Qed.

(** One page: encrypted if it is accessible, else left alone. *)
Lemma mencrypt_page s me p va :
  cur_ok s me p -> upages va 1 -> is_Some (pte_slot (phys s) (pgdir p) va) ->
  exists r s', mencrypt va 1 s = Ret r s' /\ recrypted s s' me p /\
    same_else (phys s) (phys s') (pgdir p) va /\
    if accessible (pte_of (phys s) (pgdir p) va)
    then has (pte_of (phys s') (pgdir p) va) PTE_E = true /\ has (pte_of (phys s') (pgdir p) va) PTE_P = false
    else pte_of (phys s') (pgdir p) va = pte_of (phys s) (pgdir p) va.
Proof.
  intros Hok Hup [a Ha]. destruct (upages_S va 0 Hup) as (Hva & _ & _).
  destruct (accessible (pte_of (phys s) (pgdir p) va)) eqn:Hacc.
  - destruct (evict_spec s me p va a Hok Hva Ha Hacc) as (m' & E & Hcr & Hse & HE & HP).
    exists 0, (switched (with_phys s m') p). split; [done|]. split; [|done].
    split; try done. by apply cur_ok_switched, cur_ok_phys, Hcr.
  - exists (-1), s. assert (Epg : PGROUNDDOWN va = va).
    { destruct Hup as (Hal & _ & _). rewrite PGROUNDDOWN_val. Z.div_mod_to_equations. lia. }
    pose proof (mencrypt_spec s me p va 1 Hok) as H. change (Z.to_nat 1) with 1%nat in H. rewrite Epg in H.
    cbn [all_acc] in H. rewrite Hacc in H. cbn [andb] in H. split_and!; [|by apply recrypted_refl|done|done].
    apply H; [done|]. intros i Hi. replace (va + 4096 * i) with va by lia. by exists a.
Qed.

Lemma encrypt_image_spec n : forall va s me p,
  cur_ok s me p -> upages va n ->
  (forall i, 0 <= i < Z.of_nat n -> is_Some (pte_slot (phys s) (pgdir p) (va + 4096 * i))) ->
  exists s', encrypt_image n va s = Ret tt s' /\ recrypted s s' me p /\
    forall x, uaddr x ->
      if bool_decide (in_pages va n x) && accessible (pte_of (phys s) (pgdir p) x)
      then has (pte_of (phys s') (pgdir p) x) PTE_E = true /\ has (pte_of (phys s') (pgdir p) x) PTE_P = false
      else pte_of (phys s') (pgdir p) x = pte_of (phys s) (pgdir p) x.
Proof.
  induction n as [|n IH]; intros va s me p Hok Hup Hsl.
  - exists s. split; [done|]. split; [by apply recrypted_refl|]. intros x Hx.
    rewrite bool_decide_eq_false_2 by (unfold in_pages, in_range; lia). done.
  - destruct (upages_S va n Hup) as (Hva & Hup' & _).
    assert (Hup1 : upages va 1) by (destruct Hup as (? & ? & ?); split_and!; [done|done|lia]).
    destruct (mencrypt_page s me p va Hok Hup1) as (r & s1 & E1 & Hrc & Hse & Hpg).
    { replace va with (va + 4096 * 0) by lia. apply Hsl. lia. }
    assert (Hcr := rc_crypt _ _ _ _ Hrc).
    destruct (IH (va + 4096) s1 me p) as (s' & E' & Hrc' & Hall); [apply Hrc|done| |].
    { intros i Hi. rewrite (cr_slot _ _ _ _ Hcr) by (unfold uaddr; unfold upages, KERNBASE in *; lia).
      replace (va + 4096 + 4096 * i) with (va + 4096 * (i + 1)) by lia. apply Hsl. lia. }
    exists s'. split; [cbn [encrypt_image]; rewrite (bind_Ret _ _ _ _ _ E1); exact E'|].
    split; [by eapply recrypted_trans|]. intros x Hx. specialize (Hall x Hx).
    assert (Hacc : accessible (pte_of (phys s1) (pgdir p) x) = accessible (pte_of (phys s) (pgdir p) x)).
    { unfold accessible. by rewrite (cr_mapped _ _ _ Hcr), (cr_U _ _ _ Hcr). }
    rewrite Hacc in Hall. destruct (decide (x / 4096 = va / 4096)) as [Exv|Exv].
    + assert (bool_decide (in_pages va (S n) x) = true /\ bool_decide (in_pages (va + 4096) n x) = false) as [-> Hn].
      { rewrite bool_decide_eq_true, bool_decide_eq_false. destruct Hup as (Hal & _). unfold in_pages, in_range.
        split; Z.div_mod_to_equations; lia. }
      rewrite Hn in Hall. cbn [andb] in *. rewrite Hall.
      rewrite !(pte_of_same_page _ (pgdir p) x va) in * by auto using uaddr_vaddr. done.
    + assert (bool_decide (in_pages (va + 4096) n x) = bool_decide (in_pages va (S n) x)) as <-.
      { apply bool_decide_ext. destruct Hup as (Hal & _). unfold in_pages, in_range.
        split; Z.div_mod_to_equations; lia. }
      rewrite (Hse x Hx Exv) in Hall. exact Hall.
Qed.

(** C14. After [exec]'s encryption loop every page of the image that the program
    may access is encrypted and not present; the other entries (the guard page
    below the stack, and everything outside the image) are as they were, and
    the contents of the image are the same up to encryption. *)
Theorem exec_image_encrypted s me p n :
  cur_ok s me p -> upages 0 n ->
  (forall i, 0 <= i < Z.of_nat n -> is_Some (pte_slot (phys s) (pgdir p) (4096 * i))) ->
  exists s', encrypt_image n 0 s = Ret tt s' /\ cur_ok s' me p /\
    crypt_rel (phys s) (phys s') (pgdir p) /\ rest_eq s s' /\ ptable s' = ptable s /\
    (forall x, uaddr x -> in_pages 0 n x -> accessible (pte_of (phys s) (pgdir p) x) = true ->
       has (pte_of (phys s') (pgdir p) x) PTE_E = true /\ has (pte_of (phys s') (pgdir p) x) PTE_P = false) /\
    (forall x, uaddr x -> ~ in_pages 0 n x \/ accessible (pte_of (phys s) (pgdir p) x) = false ->
       pte_of (phys s') (pgdir p) x = pte_of (phys s) (pgdir p) x).
Proof.
  intros Hok Hup Hsl. destruct (encrypt_image_spec n 0 s me p Hok Hup Hsl) as (s' & E & [H1 H2 H3 H4] & Hall).
  exists s'. split_and!; try done; intros x Hx.
  - intros Hin Hacc. specialize (Hall x Hx). by rewrite bool_decide_eq_true_2, Hacc in Hall.
  - intros [Hn|Hacc]; specialize (Hall x Hx).
    + by rewrite bool_decide_eq_false_2 in Hall.
    + by rewrite Hacc, andb_false_r in Hall.
Qed.

End ExecProof.

#[local] Existing Instance ex_platform.

Lemma exec_image_encrypted_witness : exists s', encrypt_image 3 0 ex_state = Ret tt s'.
Proof.
  destruct (exec_image_encrypted ex_state 0 ex_proc 3) as (s' & E & _).
  - apply ex_cur_ok.
  - by vm_compute.
  - intros i Hi. assert (i = 0 \/ i = 1 \/ i = 2) as [-> | [-> | ->]] by lia; (eexists; vm_compute; reflexivity).
  - exists s'. exact E.
Defined.
