(* ===== verification/Spinlock.v ===== *)
(** * Spin locks (spinlock.c) and [mycpu] (proc.c)

    CPUs with their interrupt state, one spin lock, and the instructions of
    [acquire] and [release] as steps that any number of CPUs interleave.  The
    back trace that [acquire] records for debugging ([pcs]) is not modelled. *)
From S2P Require Import Prelude.

(** ** State *)

Record cpu := mk_cpu {
  apicid : Z;
  ncli : Z;
  intena : bool;
  eflags_if : bool   (* FL_IF of the CPU's eflags *)
}.

Record spinlock := mk_spinlock {
  locked : Z;
  lcpu : option nat
}.

Record machine := mk_machine {
  cpus : list cpu;
  lk : spinlock
}.

Definition L := M machine.

(** Every operation is executed by a CPU, given by its local APIC id. *)

Fixpoint find_cpu (id : Z) (cs : list cpu) (i : nat) : option nat :=
  match cs with
  | [] => None
  | c :: cs' => if apicid c =? id then Some i else find_cpu id cs' (S i)
  end.

(** ** Code *)

Section Cpu.
(** The executing processor: its index in [cpus] as [lapicid] gives it. *)
Context (me : Z).

(** What [readeflags] reads is the register of the physical processor, which
    is the one [me] names. *)
Definition this_cpu : L (nat * cpu) :=
  fun s => match find_cpu me (cpus s) 0 with
           | Some i => match cpus s !! i with
                       | Some c => Ret (i, c) s
                       | None => Fault "cpus"
                       end
           | None => Panic "unknown apicid"
           end.

Definition mycpu : L nat :=
  let* ic := this_cpu in
  if eflags_if ic.2 then panic "mycpu called with interrupts enabled" else ret ic.1.

Definition set_cpu (i : nat) (c : cpu) : L unit :=
  modify (fun s => mk_machine (<[i := c]> (cpus s)) (lk s)).

Definition readeflags_if : L bool := let* ic := this_cpu in ret (eflags_if ic.2).
Definition write_if (b : bool) : L unit :=
  let* ic := this_cpu in
  set_cpu ic.1 (mk_cpu (apicid ic.2) (ncli ic.2) (intena ic.2) b).
Definition cli : L unit := write_if false.
Definition sti : L unit := write_if true.

Definition get_cpu (i : nat) : L cpu :=
  fun s => match cpus s !! i with Some c => Ret c s | None => Fault "cpus" end.

Definition pushcli : L unit :=
  let* eflags := readeflags_if in
  do* cli in
  let* i := mycpu in
  let* c := get_cpu i in
  do* (if ncli c =? 0 then set_cpu i (mk_cpu (apicid c) (ncli c) eflags (eflags_if c)) else ret tt) in
  let* i := mycpu in
  let* c := get_cpu i in
  set_cpu i (mk_cpu (apicid c) (ncli c + 1) (intena c) (eflags_if c)).

Definition popcli : L unit :=
  let* eflags := readeflags_if in
  if eflags then panic "popcli - interruptible"
  else
    let* i := mycpu in
    let* c := get_cpu i in
    do* set_cpu i (mk_cpu (apicid c) (ncli c - 1) (intena c) (eflags_if c)) in
    if ncli c - 1 <? 0 then panic "popcli"
    else
      let* i := mycpu in
      let* c := get_cpu i in
      if (ncli c =? 0) && intena c then sti else ret tt.

Definition holding : L bool :=
  do* pushcli in
  let* l := gets lk in
  let* i := mycpu in
  let r := negb (locked l =? 0) && bool_decide (lcpu l = Some i) in
  do* popcli in
  ret r.

Definition set_lk (l : spinlock) : L unit := modify (fun s => mk_machine (cpus s) l).

Definition initlock : L unit := set_lk (mk_spinlock 0 None).

(** [acquire] up to the loop, one turn of the loop, and the rest. *)
Definition acquire_enter : L unit :=
  do* pushcli in
  let* h := holding in
  if h then panic "acquire" else ret tt.
Definition xchg_locked : L Z :=
  fun s => Ret (locked (lk s)) (mk_machine (cpus s) (mk_spinlock 1 (lcpu (lk s)))).
Definition acquire_finish : L unit :=
  let* i := mycpu in
  let* l := gets lk in
  set_lk (mk_spinlock (locked l) (Some i)).

(** [release] up to the store to [locked], the store, and the rest. *)
Definition release_enter : L unit :=
  let* h := holding in
  if negb h then panic "release"
  else
    let* l := gets lk in
    set_lk (mk_spinlock (locked l) None).
Definition release_store : L unit :=
  let* l := gets lk in
  set_lk (mk_spinlock 0 (lcpu l)).
Definition release_finish : L unit := popcli.

(** The uncontended [acquire], and [release]. *)
Definition acquire : L bool :=
  do* acquire_enter in
  let* old := xchg_locked in
  if negb (old =? 0) then ret false
  else do* acquire_finish in ret true.
Definition release : L unit :=
  do* release_enter in
  do* release_store in
  release_finish.
End Cpu.

(** ** One CPU: [pushcli] and [popcli] nest *)

Definition machine_ok (s : machine) : Prop := NoDup (apicid <$> cpus s).

Lemma find_cpu_shift id cs i : forall j, find_cpu id cs (i + j) = (fun k => (i + k)%nat) <$> find_cpu id cs j.
Proof.
  induction cs as [|c cs IH]; intros j; [done|]. cbn. destruct (apicid c =? id); [done|].
  rewrite <- IH. f_equal. lia.
Qed.

Lemma find_cpu_lookup cs : NoDup (apicid <$> cs) -> forall i c,
  cs !! i = Some c -> find_cpu (apicid c) cs 0 = Some i.
Proof.
  induction cs as [|c0 cs IH]; intros Hnd i c Hi; [done|].
  cbn in Hnd. apply NoDup_cons in Hnd as [Hn Hnd]. cbn. destruct i as [|i].
  - cbn in Hi. simplify_eq. by rewrite Z.eqb_refl.
  - cbn in Hi. destruct (Z.eqb_spec (apicid c0) (apicid c)) as [E|_].
    { exfalso. apply Hn. rewrite E. apply (list_elem_of_fmap_2 apicid). by eapply list_elem_of_lookup_2. }
    rewrite (find_cpu_shift _ _ 1 0), (IH Hnd i c Hi). done.
Qed.

(** Replacing a CPU by one with the same APIC id. *)
Lemma fmap_apicid_insert (cs : list cpu) (i : nat) c c' :
  cs !! i = Some c -> apicid c' = apicid c -> apicid <$> <[i := c']> cs = apicid <$> cs.
Proof.
  intros Hi E. rewrite list_fmap_insert, E. apply list_insert_id. by rewrite list_lookup_fmap, Hi.
Qed.

Lemma machine_eta s : mk_machine (cpus s) (lk s) = s.
Proof. by destruct s. Qed.

Section One.
Context (s : machine) (i : nat) (c : cpu).
Hypothesis Hok : machine_ok s.
Hypothesis Hi : cpus s !! i = Some c.
Let id := apicid c.

(** The machine in which this CPU is [c']. *)
Definition upd (c' : cpu) : machine := mk_machine (<[i := c']> (cpus s)) (lk s).

Lemma upd_ok c' : apicid c' = id -> machine_ok (upd c').
Proof using Hok Hi. intros E. unfold machine_ok, upd. cbn. by rewrite (fmap_apicid_insert _ _ c). Qed.

Lemma this_upd c' : apicid c' = id -> this_cpu id (upd c') = Ret (i, c') (upd c').
Proof using Hok Hi.
  intros E. unfold this_cpu. cbn. assert (Hl : <[i := c']> (cpus s) !! i = Some c')
    by (apply list_lookup_insert_eq; by eapply lookup_lt_Some).
  pose proof (find_cpu_lookup _ (upd_ok c' E) i c' Hl) as Hf. cbn in Hf. rewrite E in Hf.
  by rewrite Hf, Hl.
Qed.

Lemma get_upd c' : get_cpu i (upd c') = Ret c' (upd c').
Proof using Hi.
  unfold get_cpu. cbn. by rewrite list_lookup_insert_eq by (by eapply lookup_lt_Some).
Qed.

Lemma set_upd c1 c2 : set_cpu i c2 (upd c1) = Ret tt (upd c2).
Proof. unfold set_cpu, modify, upd. cbn. by rewrite list_insert_insert_eq. Qed.

Lemma upd_id : upd c = s.
Proof using Hi. unfold upd. rewrite list_insert_id by done. apply machine_eta. Qed.

Lemma mycpu_upd c' : apicid c' = id -> eflags_if c' = false -> mycpu id (upd c') = Ret i (upd c').
Proof using Hok Hi.
  intros E Hif. unfold mycpu. rewrite (bind_Ret _ _ _ _ _ (this_upd c' E)). cbn. by rewrite Hif.
Qed.

Lemma pushcli_upd c' : apicid c' = id ->
  pushcli id (upd c') = Ret tt (upd (mk_cpu id (ncli c' + 1)
    (if ncli c' =? 0 then eflags_if c' else intena c') false)).
Proof using Hok Hi.
  intros E. unfold pushcli, readeflags_if, cli, write_if, bind.
  rewrite (this_upd c' E). cbn [ret fst snd]. rewrite (this_upd c' E). cbn [fst snd].
  rewrite set_upd, mycpu_upd, get_upd by done. cbn [ncli apicid intena eflags_if].
  destruct (ncli c' =? 0); cbn [ret]; rewrite ?set_upd, mycpu_upd, get_upd by done;
    cbn [ncli apicid intena eflags_if]; by rewrite set_upd, E.
Qed.

Lemma popcli_upd c' : apicid c' = id -> eflags_if c' = false -> 1 <= ncli c' ->
  popcli id (upd c') = Ret tt (upd (mk_cpu id (ncli c' - 1) (intena c')
    ((ncli c' - 1 =? 0) && intena c'))).
Proof using Hok Hi.
  intros E Hif Hn. unfold popcli, readeflags_if, sti, write_if, bind.
  rewrite (this_upd c' E). cbn [ret fst snd]. rewrite Hif, mycpu_upd, get_upd, set_upd by done.
  destruct (Z.ltb_spec (ncli c' - 1) 0); [lia|]. rewrite mycpu_upd, get_upd by done.
  cbn [ncli apicid intena eflags_if].
  destruct ((ncli c' - 1 =? 0) && intena c'); [|by rewrite E, Hif].
  rewrite this_upd by done. cbn [fst snd ncli apicid intena eflags_if]. by rewrite set_upd, E.
Qed.
End One.

(** Counting is consistent: interrupts are off inside. *)
Definition cpu_ok (c : cpu) : Prop := 0 <= ncli c /\ (0 < ncli c -> eflags_if c = false).

Fixpoint iter (n : nat) (m : L unit) : L unit :=
  match n with O => ret tt | S k => do* m in iter k m end.

Section Nest.
Context (s : machine) (i : nat) (c : cpu).
Hypothesis Hok : machine_ok s.
Hypothesis Hi : cpus s !! i = Some c.

Lemma push_iter n : forall c', apicid c' = apicid c -> 0 < ncli c' -> eflags_if c' = false ->
  iter n (pushcli (apicid c)) (upd s i c') =
  Ret tt (upd s i (mk_cpu (apicid c) (ncli c' + Z.of_nat n) (intena c') false)).
Proof using Hok Hi.
  induction n as [|n IH]; intros c' E Hn Hif; cbn [iter].
  - rewrite Z.add_0_r, <- E, <- Hif. by destruct c'.
  - rewrite (bind_Ret _ _ _ _ _ (pushcli_upd s i c Hok Hi c' E)).
    destruct (Z.eqb_spec (ncli c') 0); [lia|]. rewrite IH by (cbn; lia || done). cbn.
    do 3 f_equal. lia.
Qed.

Lemma pop_iter n : forall c', apicid c' = apicid c -> Z.of_nat n < ncli c' -> eflags_if c' = false ->
  iter n (popcli (apicid c)) (upd s i c') =
  Ret tt (upd s i (mk_cpu (apicid c) (ncli c' - Z.of_nat n) (intena c') false)).
Proof using Hok Hi.
  induction n as [|n IH]; intros c' E Hn Hif; cbn [iter].
  - rewrite Z.sub_0_r, <- E, <- Hif. by destruct c'.
  - rewrite (bind_Ret _ _ _ _ _ (popcli_upd s i c Hok Hi c' E Hif ltac:(lia))).
    destruct (Z.eqb_spec (ncli c' - 1) 0); [lia|]. cbn [andb]. rewrite IH by (cbn; lia || done). cbn.
    do 3 f_equal. lia.
Qed.
End Nest.

(** ** The lock *)

Definition saved (c : cpu) : cpu :=
  mk_cpu (apicid c) (ncli c) (if ncli c =? 0 then eflags_if c else intena c) (eflags_if c).

Section Holding.
Context (s : machine) (i : nat) (c : cpu).
Hypothesis Hok : machine_ok s.
Hypothesis Hi : cpus s !! i = Some c.

Lemma holding_upd c' : apicid c' = apicid c -> cpu_ok c' ->
  holding (apicid c) (upd s i c') =
  Ret (negb (locked (lk s) =? 0) && bool_decide (lcpu (lk s) = Some i)) (upd s i (saved c')).
Proof using Hok Hi.
  intros E [Hn Hif]. unfold holding.
  rewrite (bind_Ret _ _ _ _ _ (pushcli_upd s i c Hok Hi c' E)).
  unfold gets. unfold bind at 1. rewrite (bind_Ret _ _ _ _ _ (mycpu_upd s i c Hok Hi (mk_cpu _ _ _ _) eq_refl eq_refl)).
  rewrite (bind_Ret _ _ _ _ _ (popcli_upd s i c Hok Hi
    (mk_cpu (apicid c) (ncli c' + 1) (if ncli c' =? 0 then eflags_if c' else intena c') false)
    eq_refl eq_refl ltac:(cbn; lia))).
  unfold ret. do 2 f_equal. unfold saved. cbn [apicid ncli intena eflags_if upd lk]. rewrite E.
  f_equal; [lia|]. replace (ncli c' + 1 - 1) with (ncli c') by lia.
  destruct (Z.eqb_spec (ncli c') 0); [done|]. cbn. symmetry. apply Hif. lia.
Qed.

Lemma acquire_enter_upd c' : apicid c' = apicid c -> cpu_ok c' ->
  negb (locked (lk s) =? 0) && bool_decide (lcpu (lk s) = Some i) = false ->
  acquire_enter (apicid c) (upd s i c') =
  Ret tt (upd s i (mk_cpu (apicid c) (ncli c' + 1) (if ncli c' =? 0 then eflags_if c' else intena c') false)).
Proof using Hok Hi.
  intros E [Hn Hif] Hh. unfold acquire_enter.
  rewrite (bind_Ret _ _ _ _ _ (pushcli_upd s i c Hok Hi c' E)).
  rewrite (bind_Ret _ _ _ _ _ (holding_upd (mk_cpu (apicid c) (ncli c' + 1) _ false) eq_refl
    ltac:(split; cbn; [lia|done]))).
  rewrite Hh. unfold ret, saved. cbn. destruct (Z.eqb_spec (ncli c' + 1) 0); [lia|done].
Qed.
End Holding.

(** ** Mutual exclusion

    Where a CPU is in [acquire]; critical section; [release]. *)

Inductive pc := Out | Spin | Got | Crit | Leaving | Left.

Record sys := mk_sys { mach : machine; pcs : list pc }.

(** One CPU executes the next instruction group of its program. *)
Definition instr (id : Z) (p : pc) : L pc :=
  match p with
  | Out => do* acquire_enter id in ret Spin
  | Spin => let* old := xchg_locked in ret (if negb (old =? 0) then Spin else Got)
  | Got => do* acquire_finish id in ret Crit
  | Crit => do* release_enter id in ret Leaving
  | Leaving => do* release_store in ret Left
  | Left => do* release_finish id in ret Out
  end.

Inductive step : sys -> sys -> Prop :=
| step_cpu s i c p m' p' :
    cpus (mach s) !! i = Some c -> pcs s !! i = Some p ->
    instr (apicid c) p (mach s) = Ret p' m' ->
    step s (mk_sys m' (<[i := p']> (pcs s))).

Inductive reachable : sys -> sys -> Prop :=
| reach_refl s : reachable s s
| reach_step s s' s'' : reachable s s' -> step s' s'' -> reachable s s''.

(** The CPU owns the lock word. *)
Definition owns (p : pc) : bool := match p with Got | Crit | Leaving => true | _ => false end.

Record lock_inv (s : sys) : Prop := {
  li_ok : machine_ok (mach s);
  li_len : length (pcs s) = length (cpus (mach s));
  li_cpu : forall i c p, cpus (mach s) !! i = Some c -> pcs s !! i = Some p ->
    cpu_ok c /\ (p <> Out -> 1 <= ncli c);
  li_free : locked (lk (mach s)) = 0 -> forall i p, pcs s !! i = Some p -> owns p = false;
  li_one : forall i j p q, pcs s !! i = Some p -> pcs s !! j = Some q ->
    owns p = true -> owns q = true -> i = j;
  li_owner : forall i, lcpu (lk (mach s)) = Some i <-> pcs s !! i = Some Crit
}.

(** What a step of CPU [i] may do to the shared state. *)
Definition cpu_part (i : nat) (c : cpu) (s : sys) (l : spinlock) (c' : cpu) (p' : pc) : sys :=
  mk_sys (mk_machine (<[i := c']> (cpus (mach s))) l) (<[i := p']> (pcs s)).

Lemma instr_spec s i c p :
  lock_inv s -> cpus (mach s) !! i = Some c -> pcs s !! i = Some p ->
  exists c' p' l, instr (apicid c) p (mach s) = Ret p' (mk_machine (<[i := c']> (cpus (mach s))) l) /\
    apicid c' = apicid c /\ cpu_ok c' /\ (p' <> Out -> 1 <= ncli c') /\
    match p with
    | Out => p' = Spin /\ l = lk (mach s)
    | Spin => (p' = Spin /\ locked (lk (mach s)) <> 0 \/ p' = Got /\ locked (lk (mach s)) = 0) /\
              l = mk_spinlock 1 (lcpu (lk (mach s)))
    | Got => p' = Crit /\ l = mk_spinlock (locked (lk (mach s))) (Some i)
    | Crit => p' = Leaving /\ l = mk_spinlock (locked (lk (mach s))) None
    | Leaving => p' = Left /\ l = mk_spinlock 0 (lcpu (lk (mach s)))
    | Left => p' = Out /\ l = lk (mach s)
    end.
Proof.
  intros Hinv Hc Hp. destruct (li_cpu s Hinv i c p Hc Hp) as [[Hn Hif] Hout].
  assert (Hok := li_ok s Hinv). assert (Eid := upd_id (mach s) i c Hc).
  assert (Hself : <[i := c]> (cpus (mach s)) = cpus (mach s)) by (by apply list_insert_id).
  destruct p; cbn [instr].
  - assert (Hh : negb (locked (lk (mach s)) =? 0) && bool_decide (lcpu (lk (mach s)) = Some i) = false).
    { rewrite bool_decide_false, andb_false_r; [done|]. rewrite (li_owner s Hinv), Hp. done. }
    pose proof (acquire_enter_upd (mach s) i c Hok Hc c eq_refl (conj Hn Hif) Hh) as E.
    rewrite Eid in E. rewrite (bind_Ret _ _ _ _ _ E). eexists _, _, _. split; [done|].
    split; [done|]. split; [split; cbn; [lia|done]|]. split; [cbn; lia|done].
  - exists c. unfold xchg_locked, bind, ret. rewrite Hself. eexists _, _. split; [done|].
    split; [done|]. split; [done|]. split; [auto|]. split; [|done].
    destruct (Z.eqb_spec (locked (lk (mach s))) 0); auto.
  - exists c. assert (Hif' : eflags_if c = false) by (apply Hif; specialize (Hout ltac:(done)); lia).
    pose proof (mycpu_upd (mach s) i c Hok Hc c eq_refl Hif') as E. rewrite Eid in E.
    unfold acquire_finish, bind at 1. rewrite (bind_Ret _ _ _ _ _ E). rewrite Hself.
    eexists _, _. split; [done|]. split; [done|]. split; [done|]. split; [auto|done].
  - pose proof (holding_upd (mach s) i c Hok Hc c eq_refl (conj Hn Hif)) as E. rewrite Eid in E.
    assert (Hl : negb (locked (lk (mach s)) =? 0) && bool_decide (lcpu (lk (mach s)) = Some i) = true).
    { rewrite bool_decide_true by (by apply (li_owner s Hinv)). rewrite andb_true_r, negb_true_iff.
      apply Z.eqb_neq. intros E0. pose proof (li_free s Hinv E0 i Crit Hp). done. }
    unfold release_enter, bind at 1. rewrite (bind_Ret _ _ _ _ _ E), Hl. cbn [negb].
    exists (saved c). eexists _, _. split; [done|]. split; [done|]. split; [done|]. split; [|done].
    intros _. cbn. by apply Hout.
  - exists c. rewrite Hself. eexists _, _. split; [done|]. split; [done|]. split; [done|].
    split; [intros _; by apply Hout|done].
  - assert (Hif' : eflags_if c = false) by (apply Hif; specialize (Hout ltac:(done)); lia).
    pose proof (popcli_upd (mach s) i c Hok Hc c eq_refl Hif' (Hout ltac:(done))) as E. rewrite Eid in E.
    unfold release_finish. rewrite (bind_Ret _ _ _ _ _ E). eexists _, _, _. split; [done|].
    split; [done|]. specialize (Hout ltac:(done)). split; [|done]. split; cbn; [lia|].
    intros Hpos. by rewrite (proj2 (Z.eqb_neq (ncli c - 1) 0)) by lia.
Qed.

Lemma insert_lookup_cases {A} (l : list A) i j x y :
  <[i := x]> l !! j = Some y -> (i = j /\ x = y) \/ (i <> j /\ l !! j = Some y).
Proof. intros [(? & ? & _)|[? ?]]%list_lookup_insert_Some; auto. Qed.

Lemma cpu_part_cpus s i c p c' p' :
  lock_inv s -> cpus (mach s) !! i = Some c -> apicid c' = apicid c -> cpu_ok c' -> (p' <> Out -> 1 <= ncli c') ->
  pcs s !! i = Some p -> forall l,
  let s' := cpu_part i c s l c' p' in
  machine_ok (mach s') /\ length (pcs s') = length (cpus (mach s')) /\
  (forall j d q, cpus (mach s') !! j = Some d -> pcs s' !! j = Some q -> cpu_ok d /\ (q <> Out -> 1 <= ncli d)).
Proof.
  intros Hinv Hc E Hc' Hn Hp l s'. split; [|split].
  - unfold machine_ok, s'. cbn. rewrite (fmap_apicid_insert _ _ c) by done. apply (li_ok s Hinv).
  - cbn. rewrite !length_insert. apply (li_len s Hinv).
  - intros j d q Hd Hq. cbn in Hd, Hq.
    destruct (insert_lookup_cases _ _ _ _ _ Hd) as [[<- <-]|[Hne Hd']];
      destruct (insert_lookup_cases _ _ _ _ _ Hq) as [[? <-]|[? Hq']]; try done.
    by apply (li_cpu s Hinv j).
Qed.

(** The pcs after a step, seen through [owns] and [Crit]. *)
Lemma lock_step_inv s i c p c' p' l :
  lock_inv s -> cpus (mach s) !! i = Some c -> pcs s !! i = Some p ->
  apicid c' = apicid c -> cpu_ok c' -> (p' <> Out -> 1 <= ncli c') ->
  (locked l = 0 -> forall j q, <[i := p']> (pcs s) !! j = Some q -> owns q = false) ->
  (owns p' = true -> owns p = true \/ forall j q, pcs s !! j = Some q -> owns q = false) ->
  (forall j, lcpu l = Some j <-> <[i := p']> (pcs s) !! j = Some Crit) ->
  lock_inv (cpu_part i c s l c' p').
Proof.
  intros Hinv Hc Hp E Hc' Hn Hfree Hown Hl.
  destruct (cpu_part_cpus s i c p c' p' Hinv Hc E Hc' Hn Hp l) as (H1 & H2 & H3).
  split; [done|done|done|done| |done].
  intros j k q r Hj Hk Hqj Hrk. cbn in Hj, Hk.
  destruct (insert_lookup_cases _ _ _ _ _ Hj) as [[<- <-]|[Hne Hj']];
    destruct (insert_lookup_cases _ _ _ _ _ Hk) as [[? <-]|[Hne' Hk']]; try done.
  - exfalso. destruct (Hown Hqj) as [Ho|Ho]; [|by rewrite (Ho k r Hk') in Hrk].
    apply Hne'. by apply (li_one s Hinv i k p r).
  - exfalso. subst k. destruct (Hown Hrk) as [Ho|Ho]; [|by rewrite (Ho j q Hj') in Hqj].
    apply Hne. by apply (li_one s Hinv i j p q).
  - by apply (li_one s Hinv j k q r).
Qed.

Lemma step_preserves s s' : lock_inv s -> step s s' -> lock_inv s'.
Proof.
  intros Hinv Hstep. revert Hinv. destruct Hstep as [s i c p m' p' Hc Hp E]. intros Hinv.
  destruct (instr_spec s i c p Hinv Hc Hp) as (c' & p1 & l & E1 & Ea & Hok & Hn & Hl).
  rewrite E1 in E. injection E as <- <-. change (lock_inv (cpu_part i c s l c' p1)).
  assert (Hil : (i < length (pcs s))%nat) by (by eapply lookup_lt_Some).
  assert (Hown : owns p = true -> locked (lk (mach s)) <> 0).
  { intros Ho E0. by rewrite (li_free s Hinv E0 i p Hp) in Ho. }
  assert (Hself : owns p = true -> forall j q, i <> j -> pcs s !! j = Some q -> owns q = false).
  { intros Ho j q Hne Hq. destruct (owns q) eqn:Eq; [|done]. exfalso. apply Hne.
    by apply (li_one s Hinv i j p q). }
  eapply lock_step_inv; try done.
  - intros El j q Hq. destruct (insert_lookup_cases _ _ _ _ _ Hq) as [[<- <-]|[Hne Hq']].
    + destruct p; destruct Hl as [Hl ->]; cbn in *; try (by subst); try lia.
      all: try (subst; exfalso; by apply Hown).
    + destruct p; destruct Hl as [Hl ->]; cbn in *; try lia; try (by eapply (li_free s Hinv)).
      all: by apply (Hself eq_refl j).
  - intros Ho. destruct p; destruct Hl as [Hl ->]; cbn in *; subst; try done; try (by left).
    destruct Hl as [[-> _]|[-> E0]]; [done|]. right. intros j q. by apply (li_free s Hinv E0).
  - intros j. destruct (decide (i = j)) as [<-|Hne].
    + rewrite list_lookup_insert_eq by done. pose proof (li_owner s Hinv i) as Ho. rewrite Hp in Ho.
      destruct p; destruct Hl as [Hl ->]; cbn; try (destruct Hl as [[-> _]|[-> _]]);
        subst; split; intros Hx; try congruence; apply Ho in Hx; congruence.
    + rewrite list_lookup_insert_ne by done. pose proof (li_owner s Hinv j) as Hj.
      pose proof (li_owner s Hinv i) as Hoi. rewrite Hp in Hoi.
      destruct p; destruct Hl as [Hl ->]; cbn; try done.
      * split; [congruence|]. intros Hq. exfalso. by pose proof (Hself eq_refl j Crit Hne Hq).
      * split; [done|]. intros Hq. exfalso. by pose proof (Hself eq_refl j Crit Hne Hq).
Qed.

(** ** Claims *)

(** The machine after [initlock], with every CPU outside. *)
Record initial (s : sys) : Prop := {
  in_ok : machine_ok (mach s);
  in_len : length (pcs s) = length (cpus (mach s));
  in_out : Forall (fun p => p = Out) (pcs s);
  in_cpu : Forall cpu_ok (cpus (mach s));
  in_lk : lk (mach s) = mk_spinlock 0 None
}.

Lemma initial_inv s : initial s -> lock_inv s.
Proof.
  intros [H1 H2 H3 H4 H5]. rewrite Forall_forall in H3. rewrite Forall_forall in H4.
  assert (Hout : forall i p, pcs s !! i = Some p -> p = Out)
    by (intros i p Hp; apply H3; by eapply list_elem_of_lookup_2).
  split; try done.
  - intros i c p Hc Hp. split; [apply H4; by eapply list_elem_of_lookup_2|]. by rewrite (Hout i p Hp).
  - intros _ i p Hp. by rewrite (Hout i p Hp).
  - intros i j p q Hp Hq Ho. by rewrite (Hout i p Hp) in Ho.
  - intros i. rewrite H5. cbn. split; [done|]. intros Hp. by pose proof (Hout i _ Hp).
Qed.

Lemma lock_reachable_inv s0 s : lock_inv s0 -> reachable s0 s -> lock_inv s.
Proof. intros H0 H. induction H as [|s s' s'' _ IH Hs]; [done|]. eapply step_preserves; [apply IH|]; done. Qed.

(** C27. Spin locks exclude: whatever the interleaving of the CPUs'
    instructions in [acquire] and [release], at most one CPU is in its
    critical section, it runs with interrupts off, the lock's [cpu] field names
    it, and no CPU's next instruction panics. *)
Theorem spinlock_mutual_exclusion s0 s :
  initial s0 -> reachable s0 s ->
  (forall i j, pcs s !! i = Some Crit -> pcs s !! j = Some Crit -> i = j) /\
  (forall i c, pcs s !! i = Some Crit -> cpus (mach s) !! i = Some c ->
     eflags_if c = false /\ lcpu (lk (mach s)) = Some i) /\
  (forall i c p, pcs s !! i = Some p -> cpus (mach s) !! i = Some c ->
     exists p' m', instr (apicid c) p (mach s) = Ret p' m').
Proof.
  intros H0 Hr. assert (Hinv := lock_reachable_inv _ _ (initial_inv _ H0) Hr). split; [|split].
  - intros i j Hi Hj. by apply (li_one s Hinv i j Crit Crit).
  - intros i c Hi Hc. destruct (li_cpu s Hinv i c Crit Hc Hi) as [[Hn Hif] Hout].
    split; [apply Hif; specialize (Hout ltac:(done)); lia|by apply (li_owner s Hinv)].
  - intros i c p Hp Hc. destruct (instr_spec s i c p Hinv Hc Hp) as (c' & p' & l & E & _).
    by eexists _, _.
Qed.

(** [pushcli] and [popcli] nest: [n] of each restore the interrupt flag
    and the nesting depth, and interrupts are off in between. *)
Theorem pushcli_popcli_nest s i c n :
  machine_ok s -> cpus s !! i = Some c -> cpu_ok c ->
  exists c1 c2, iter (S n) (pushcli (apicid c)) s = Ret tt (upd s i c1) /\
    eflags_if c1 = false /\ ncli c1 = ncli c + 1 + Z.of_nat n /\
    iter (S n) (popcli (apicid c)) (upd s i c1) = Ret tt (upd s i c2) /\
    eflags_if c2 = eflags_if c /\ ncli c2 = ncli c /\ apicid c2 = apicid c.
Proof.
  intros Hok Hi [Hn Hif]. assert (Eid := upd_id s i c Hi).
  pose proof (pushcli_upd s i c Hok Hi c eq_refl) as E1. rewrite Eid in E1.
  set (ie := if ncli c =? 0 then eflags_if c else intena c) in *.
  pose proof (push_iter s i c Hok Hi n (mk_cpu (apicid c) (ncli c + 1) ie false) eq_refl
    ltac:(cbn; lia) eq_refl) as E2. cbn [ncli intena] in E2.
  set (c1 := mk_cpu (apicid c) (ncli c + 1 + Z.of_nat n) ie false) in *.
  assert (Hpop : exists c2, iter (S n) (popcli (apicid c)) (upd s i c1) = Ret tt (upd s i c2) /\
    eflags_if c2 = eflags_if c /\ ncli c2 = ncli c /\ apicid c2 = apicid c).
  { assert (Hsplit : forall k m st, iter (S k) m st = bind (iter k m) (fun _ => m) st).
    { intros k m. induction k as [|k IH]; intros st; cbn [iter].
      - unfold bind, ret. by destruct (m st) as [[] ?| | |].
      - unfold bind at 1. unfold bind at 2. unfold bind at 2. destruct (m st) as [[] st'| | |]; try done. apply IH. }
    rewrite Hsplit.
    rewrite (bind_Ret _ _ _ _ _ (pop_iter s i c Hok Hi n c1 eq_refl ltac:(cbn; lia) eq_refl)).
    rewrite (popcli_upd s i c Hok Hi (mk_cpu (apicid c) (ncli c1 - Z.of_nat n) (intena c1) false)
      eq_refl eq_refl ltac:(cbn; lia)).
    eexists. split; [done|]. cbn. split; [|split; [lia|done]].
    replace (ncli c + 1 + Z.of_nat n - Z.of_nat n - 1) with (ncli c) by lia. unfold ie.
    destruct (Z.eqb_spec (ncli c) 0); [done|]. cbn. symmetry. apply Hif. lia. }
  destruct Hpop as (c2 & Hp2 & Hrest). exists c1, c2. split; [|done].
  cbn [iter]. by rewrite (bind_Ret _ _ _ _ _ E1).
Qed.

(** ** Witnesses *)

Definition two_cpus : machine :=
  mk_machine [mk_cpu 0 0 false true; mk_cpu 4 0 false true] (mk_spinlock 0 None).

Lemma two_cpus_ok : machine_ok two_cpus.
Proof. unfold machine_ok. cbn. apply NoDup_cons. split; [set_solver|apply NoDup_singleton]. Qed.

Lemma two_cpus_initial : initial (mk_sys two_cpus [Out; Out]).
Proof.
  split; [apply two_cpus_ok|done|by repeat constructor| |done].
  repeat (apply Forall_cons; split); [split; cbn; [lia|lia]..|apply Forall_nil_2].
Qed.

Lemma spinlock_mutual_exclusion_witness :
  exists p' m', instr 4 Out two_cpus = Ret p' m'.
Proof.
  destruct (spinlock_mutual_exclusion _ _ two_cpus_initial (reach_refl _)) as (_ & _ & H).
  exact (H 1%nat (mk_cpu 4 0 false true) Out eq_refl eq_refl).
Defined.

Lemma pushcli_popcli_nest_witness :
  exists c1, iter 3 (pushcli 4) two_cpus = Ret tt (upd two_cpus 1 c1) /\ eflags_if c1 = false.
Proof.
  destruct (pushcli_popcli_nest two_cpus 1 (mk_cpu 4 0 false true) 2 two_cpus_ok eq_refl)
    as (c1 & c2 & E & Hif & _); [split; cbn; lia|]. exists c1. split; [exact E|exact Hif].
Defined.
