(* ===== verification/Sleeplock.v ===== *)
(** * Sleep locks (sleeplock.c) and [sleep]/[wakeup] (proc.c)

    One sleep lock [lk], its inner spin lock [lk->lk], [ptable.lock], and any
    number of processes that each go round [acquiresleep], critical section
    and [releasesleep].  A step is what a process does between two points
    where another one can come in, or a [kill], which can wake a process early;
    [acquire] of a taken spin lock is a step that is not enabled. *)
From S2P Require Import Prelude.

(** ** The program of a process

    [sleep(lk, &lk->lk)] is the three states [Sleep*]: it takes
    [ptable.lock], releases [lk->lk], marks itself [SLEEPING] and gives the
    CPU (and [ptable.lock]) to the scheduler. *)
Inductive pc :=
| Idle            (* before acquiresleep *)
| Test            (* holds lk->lk, at while(lk->locked) *)
| SleepLock       (* sleep: before acquire(&ptable.lock) *)
| SleepRel        (* before release(lk) *)
| SleepSet        (* before p->state = SLEEPING; sched() *)
| Asleep          (* SLEEPING on lk *)
| Woken           (* RUNNABLE, not yet back from sched() *)
| Again           (* before acquire(lk) at the end of sleep *)
| Take            (* before lk->locked = 1; lk->pid = pid *)
| TakeRel         (* before release(&lk->lk) *)
| Held            (* between acquiresleep and releasesleep *)
| Clear           (* holds lk->lk, before lk->locked = 0; lk->pid = 0 *)
| WakeLock        (* wakeup: before acquire(&ptable.lock) *)
| Wake            (* before wakeup1(lk); release(&ptable.lock) *)
| Drop.           (* before the last release(&lk->lk) *)

#[export] Instance pc_eq_dec : EqDecision pc.
Proof. solve_decision. Defined.

Record sleeplock := mk_sleeplock {
  slocked : bool;
  spid : Z;
  slk : option nat;     (* holder of lk->lk *)
  ptlock : option nat;  (* holder of ptable.lock *)
  procs : list pc
}.

Definition wakeup1 (p : pc) : pc := match p with Asleep => Woken | _ => p end.

(** [pids i] is the pid of process [i]. *)
Section Step.
Context (pids : nat -> Z).

(** What process [i], at [p], does next; [None] while it cannot go on. *)
Definition instr (s : sleeplock) (i : nat) (p : pc) : option sleeplock :=
  let go q := <[i := q]> (procs s) in
  let free (o : option nat) (s' : sleeplock) := match o with None => Some s' | Some _ => None end in
  match p with
  | Idle => free (slk s) (mk_sleeplock (slocked s) (spid s) (Some i) (ptlock s) (go Test))
  | Test => Some (mk_sleeplock (slocked s) (spid s) (slk s) (ptlock s)
                    (go (if slocked s then SleepLock else Take)))
  | SleepLock => free (ptlock s) (mk_sleeplock (slocked s) (spid s) (slk s) (Some i) (go SleepRel))
  | SleepRel => Some (mk_sleeplock (slocked s) (spid s) None (ptlock s) (go SleepSet))
  | SleepSet => Some (mk_sleeplock (slocked s) (spid s) (slk s) None (go Asleep))
  | Asleep => None
  | Woken => free (ptlock s) (mk_sleeplock (slocked s) (spid s) (slk s) None (go Again))
  | Again => free (slk s) (mk_sleeplock (slocked s) (spid s) (Some i) (ptlock s) (go Test))
  | Take => Some (mk_sleeplock true (pids i) (slk s) (ptlock s) (go TakeRel))
  | TakeRel => Some (mk_sleeplock (slocked s) (spid s) None (ptlock s) (go Held))
  | Held => free (slk s) (mk_sleeplock (slocked s) (spid s) (Some i) (ptlock s) (go Clear))
  | Clear => Some (mk_sleeplock false 0 (slk s) (ptlock s) (go WakeLock))
  | WakeLock => free (ptlock s) (mk_sleeplock (slocked s) (spid s) (slk s) (Some i) (go Wake))
  | Wake => Some (mk_sleeplock (slocked s) (spid s) (slk s) None (wakeup1 <$> go Drop))
  | Drop => Some (mk_sleeplock (slocked s) (spid s) None (ptlock s) (go Idle))
  end.

(** [kill] of process [i], which some process outside the lock calls: under
    [ptable.lock] it makes a sleeping process runnable.  Neither loop looks at
    [p->killed]. *)
Definition kill (s : sleeplock) (i : nat) : option sleeplock :=
  match ptlock s with
  | Some _ => None
  | None => Some (mk_sleeplock (slocked s) (spid s) (slk s) None (alter wakeup1 i (procs s)))
  end.

Inductive step : sleeplock -> sleeplock -> Prop :=
| step_proc s i p s' : procs s !! i = Some p -> instr s i p = Some s' -> step s s'
| step_kill s i s' : kill s i = Some s' -> step s s'.

Inductive reachable (s0 : sleeplock) : sleeplock -> Prop :=
| reach_init : reachable s0 s0
| reach_step s s' : reachable s0 s -> step s s' -> reachable s0 s'.

(** [initsleeplock], with every process outside. *)
Definition initsleeplock (n : nat) : sleeplock := mk_sleeplock false 0 None None (replicate n Idle).

(** [holdingsleep] *)
Definition holdingsleep (s : sleeplock) (i : nat) : bool := slocked s && (spid s =? pids i).

(** ** Invariant *)

Definition in_slk (p : pc) : bool :=
  match p with
  | Test | SleepLock | SleepRel | Take | TakeRel | Clear | WakeLock | Wake | Drop => true
  | _ => false
  end.
Definition in_ptlock (p : pc) : bool := match p with SleepRel | SleepSet | Wake => true | _ => false end.
Definition in_locked (p : pc) : bool := match p with TakeRel | Held | Clear => true | _ => false end.
(** Has seen [lk->locked] set and will sleep, with [lk->lk] still held. *)
Definition in_sleep (p : pc) : bool := match p with SleepLock | SleepRel => true | _ => false end.
Definition waits (p : pc) : bool := match p with SleepSet | Asleep => true | _ => false end.
Definition wakes (p : pc) : bool := match p with WakeLock | Wake => true | _ => false end.

Record inv (s : sleeplock) : Prop := {
  i_slk : forall i p, procs s !! i = Some p -> in_slk p = true <-> slk s = Some i;
  i_pt : forall i p, procs s !! i = Some p -> in_ptlock p = true <-> ptlock s = Some i;
  i_one : forall i j p q, procs s !! i = Some p -> procs s !! j = Some q ->
    in_locked p = true -> in_locked q = true -> i = j;
  i_locked : forall i p, procs s !! i = Some p -> in_locked p = true ->
    slocked s = true /\ spid s = pids i;
  i_take : forall i, procs s !! i = Some Take -> slocked s = false;
  i_sleep : forall i p, procs s !! i = Some p -> in_sleep p = true -> slocked s = true;
  i_wake : forall i p, procs s !! i = Some p -> waits p = true -> slocked s = false ->
    exists j q, procs s !! j = Some q /\ wakes q = true
}.

(** The processes after a step of [i]: itself, the others, and in [Wake] the
    sleepers. *)
Lemma after s i q j r :
  <[i := q]> (procs s) !! j = Some r -> (j = i /\ r = q) \/ (j <> i /\ procs s !! j = Some r).
Proof. intros [(? & ? & _)|[? ?]]%list_lookup_insert_Some; auto. Qed.

Lemma after_wake s i q j r :
  (wakeup1 <$> <[i := q]> (procs s)) !! j = Some r ->
  (j = i /\ r = wakeup1 q) \/ (j <> i /\ exists r0, procs s !! j = Some r0 /\ r = wakeup1 r0).
Proof.
  rewrite list_lookup_fmap. destruct (<[i := q]> (procs s) !! j) as [r0|] eqn:E; [|done].
  intros [= <-]. destruct (after _ _ _ _ _ E) as [[-> ->]|[? ?]]; [auto|right; eauto].
Qed.

(** [wakeup1] changes none of the classes but [waits]. *)
Lemma wakeup1_in_slk r : in_slk (wakeup1 r) = in_slk r.
Proof. by destruct r. Qed.
Lemma wakeup1_in_ptlock r : in_ptlock (wakeup1 r) = in_ptlock r.
Proof. by destruct r. Qed.
Lemma wakeup1_in_locked r : in_locked (wakeup1 r) = in_locked r.
Proof. by destruct r. Qed.
Lemma wakeup1_in_sleep r : in_sleep (wakeup1 r) = in_sleep r.
Proof. by destruct r. Qed.
Lemma wakeup1_Take r : wakeup1 r = Take -> r = Take.
Proof. by destruct r. Qed.
Lemma wakeup1_waits r : waits (wakeup1 r) = true -> r = SleepSet.
Proof. by destruct r. Qed.

Section Preserve.
Context (s s' : sleeplock) (i : nat) (p : pc).
Hypothesis Hinv : inv s.
Hypothesis Hp : procs s !! i = Some p.
Hypothesis Hs : instr s i p = Some s'.

(** Case analysis on the step; then [s'] is known. *)
Ltac cases :=
  assert (Hi := i_slk s Hinv i p Hp); assert (Hj := i_pt s Hinv i p Hp);
  revert Hp Hi Hj Hs; destruct p; cbn [instr in_slk in_ptlock]; intros Hp' Hi Hj Hs';
  try (destruct (slk s) as [?|] eqn:Esl; [done|]);
  try (destruct (ptlock s) as [?|] eqn:Ept; [done|]);
  try done; injection Hs' as <-; cbn [procs slk ptlock slocked spid].
Ltac who H :=
  first [apply after_wake in H as [[-> ->]|(? & ? & H & ->)] | apply after in H as [[-> ->]|[? H]]].

Lemma pres_slk j q : procs s' !! j = Some q -> in_slk q = true <-> slk s' = Some j.
Proof using All.
  cases; intros Hq; who Hq; rewrite ?wakeup1_in_slk; cbn [in_slk wakeup1];
    try (by (destruct (slocked s); cbn [in_slk]; intuition congruence));
    (assert (Hjq := i_slk s Hinv _ _ Hq)); intuition congruence.
Qed.

Lemma pres_pt j q : procs s' !! j = Some q -> in_ptlock q = true <-> ptlock s' = Some j.
Proof using All.
  cases; intros Hq; who Hq; rewrite ?wakeup1_in_ptlock; cbn [in_ptlock wakeup1];
    try (by (destruct (slocked s); cbn [in_ptlock]; intuition congruence));
    (assert (Hjq := i_pt s Hinv _ _ Hq)); intuition congruence.
Qed.

Lemma pres_one j k q r : procs s' !! j = Some q -> procs s' !! k = Some r ->
  in_locked q = true -> in_locked r = true -> j = k.
Proof using All.
  cases; intros Hq Hr; who Hq; who Hr; rewrite ?wakeup1_in_locked; cbn [in_locked wakeup1];
    try (by destruct (slocked s)); intros Hq' Hr'; try done;
    try (by apply (i_one s Hinv _ _ _ _ Hp' Hr)); try (by apply (i_one s Hinv _ _ _ _ Hq Hp'));
    try (by apply (i_one s Hinv _ _ _ _ Hq Hr)); exfalso; pose proof (i_take s Hinv _ Hp') as Hf.
  - destruct (i_locked s Hinv _ _ Hr Hr') as [Hl _]. congruence.
  - destruct (i_locked s Hinv _ _ Hq Hq') as [Hl _]. congruence.
Qed.

Lemma pres_locked j q : procs s' !! j = Some q -> in_locked q = true ->
  slocked s' = true /\ spid s' = pids j.
Proof using All.
  cases; intros Hq; who Hq; rewrite ?wakeup1_in_locked; cbn [in_locked wakeup1];
    try (by destruct (slocked s)); intros Hq'; try done;
    try (by apply (i_locked s Hinv _ _ Hq)); try (by apply (i_locked s Hinv _ _ Hp')); exfalso.
  - destruct (i_locked s Hinv _ _ Hq Hq') as [Hl _]. rewrite (i_take s Hinv _ Hp') in Hl. done.
  - apply H. by apply (i_one s Hinv _ _ _ _ Hq Hp').
Qed.

(** Two processes cannot both hold [lk->lk]. *)
Lemma slk_excl j q : in_slk p = true -> procs s !! j = Some q -> in_slk q = true -> j = i.
Proof using All.
  intros H1 Hq H2. apply (i_slk s Hinv _ _ Hp) in H1. apply (i_slk s Hinv _ _ Hq) in H2. congruence.
Qed.

Lemma pres_take j : procs s' !! j = Some Take -> slocked s' = false.
Proof using All.
  assert (Hex := slk_excl j Take).
  cases; intros Hq; first [apply after_wake in Hq as [[-> Hq0]|(? & ? & Hq & Hq0%eq_sym%wakeup1_Take)] |
    apply after in Hq as [[-> Hq0]|[? Hq]]]; try done;
    try (by destruct (slocked s)); subst; try (by apply (i_take s Hinv j)).
  all: exfalso; apply H; by apply Hex.
Qed.

Lemma pres_sleep j q : procs s' !! j = Some q -> in_sleep q = true -> slocked s' = true.
Proof using All.
  assert (Hex := slk_excl j).
  cases; intros Hq; who Hq; rewrite ?wakeup1_in_sleep; cbn [in_sleep wakeup1];
    try (by destruct (slocked s)); intros Hq'; try done;
    try (by apply (i_sleep s Hinv _ _ Hq)); try (by apply (i_sleep s Hinv _ _ Hp')).
  exfalso. apply H. apply (Hex q); [done|done|]. by destruct q.
Qed.

Lemma pres_wake j q : procs s' !! j = Some q -> waits q = true -> slocked s' = false ->
  exists k r, procs s' !! k = Some r /\ wakes r = true.
Proof using All.
  assert (Hlen : (i < length (procs s))%nat) by (by eapply lookup_lt_Some).
  assert (Hold : forall r0, (wakes p = false \/ wakes r0 = true) ->
    (exists j q, procs s !! j = Some q /\ waits q = true) -> slocked s = false ->
    exists k r, <[i := r0]> (procs s) !! k = Some r /\ wakes r = true).
  { intros r0 Hr0 (j0 & q0 & Hq0 & Hw0) Hf. destruct (i_wake s Hinv _ _ Hq0 Hw0 Hf) as (k & r & Hk & Hr).
    destruct (decide (k = i)) as [->|Hne].
    - exists i, r0. split; [by apply list_lookup_insert_eq|]. rewrite Hp in Hk. simplify_eq.
      destruct Hr0 as [Hr0|]; [congruence|done].
    - exists k, r. by rewrite list_lookup_insert_ne. }
  cases; intros Hq; who Hq; cbn [waits wakeup1]; try (by destruct (slocked s)); intros Hw Hf; try done.
  all: try (apply Hold; [by auto|by eauto|done]).
  - by rewrite (i_sleep s Hinv _ _ Hp' eq_refl) in Hf.
  - exists i, WakeLock. split; [by apply list_lookup_insert_eq|done].
  - exfalso. apply wakeup1_waits in Hw. subst. apply proj1 in Hj. specialize (Hj eq_refl).
    pose proof (proj1 (i_pt s Hinv _ _ Hq) eq_refl). congruence.
Qed.
End Preserve.

(** [kill] leaves every process where it was, but for a sleeper it wakes. *)
Lemma after_kill s i j q : alter wakeup1 i (procs s) !! j = Some q ->
  exists r, procs s !! j = Some r /\ (q = r \/ q = wakeup1 r).
Proof.
  destruct (decide (i = j)) as [->|Hne]; [rewrite list_lookup_alter_eq|rewrite list_lookup_alter_ne by done; eauto].
  destruct (procs s !! j) as [r|]; [|done]. intros [= <-]. eauto.
Qed.

Lemma alter_wakes s i j q : procs s !! j = Some q -> wakes q = true -> alter wakeup1 i (procs s) !! j = Some q.
Proof.
  intros Hq Hw. destruct (decide (i = j)) as [->|Hne]; [rewrite list_lookup_alter_eq|by rewrite list_lookup_alter_ne].
  rewrite Hq. by destruct q.
Qed.

Lemma kill_inv s i s' : inv s -> kill s i = Some s' -> inv s'.
Proof.
  intros [H1 H2 H3 H4 H5 H6 H7]. unfold kill. destruct (ptlock s) eqn:Ept; [done|]. intros [= <-].
  split; cbn [procs slk ptlock slocked spid].
  - intros j q (r & Hr & [-> | ->])%after_kill; rewrite ?wakeup1_in_slk; by apply H1.
  - intros j q (r & Hr & [-> | ->])%after_kill; rewrite ?wakeup1_in_ptlock; by apply H2.
  - intros j k q q' (r & Hr & Eq)%after_kill (r' & Hr' & Eq')%after_kill.
    assert (in_locked q = in_locked r) as -> by (destruct Eq as [-> | ->]; by rewrite ?wakeup1_in_locked).
    assert (in_locked q' = in_locked r') as -> by (destruct Eq' as [-> | ->]; by rewrite ?wakeup1_in_locked).
    by eapply H3.
  - intros j q (r & Hr & [-> | ->])%after_kill; rewrite ?wakeup1_in_locked; by apply H4.
  - intros j (r & Hr & [Eq|Eq%eq_sym%wakeup1_Take])%after_kill; subst; by eapply H5.
  - intros j q (r & Hr & [-> | ->])%after_kill; rewrite ?wakeup1_in_sleep; by eapply H6.
  - intros j q (r & Hr & Eq)%after_kill Hw Hf. assert (Hwr : waits r = true).
    { destruct Eq as [-> | ->]; [done|]. by apply wakeup1_waits in Hw as ->. }
    destruct (H7 _ _ Hr Hwr Hf) as (k & q' & Hk & Hq'). exists k, q'. split; [by apply alter_wakes|done].
Qed.

Lemma sleep_step_inv s s' : inv s -> step s s' -> inv s'.
Proof.
  intros Hinv Hstep. revert Hinv. destruct Hstep as [s i p s' Hp Hs|s i s' Hk]; intros Hinv; [|by eapply kill_inv]. split.
  - intros. by eapply pres_slk.
  - intros. by eapply pres_pt.
  - intros. by eapply pres_one.
  - intros. by eapply pres_locked.
  - intros. by eapply pres_take.
  - intros. by eapply pres_sleep.
  - intros. by eapply pres_wake.
Qed.

Lemma init_inv n : inv (initsleeplock n).
Proof.
  assert (H : forall i p, procs (initsleeplock n) !! i = Some p -> p = Idle).
  { intros i p Hp%list_elem_of_lookup_2. by apply elem_of_replicate_inv in Hp. }
  split; intros i; intros; repeat match goal with
    | Hq : procs _ !! _ = Some _ |- _ => apply H in Hq; subst
    end; try done.
Qed.

Lemma sleep_reachable_inv n s : reachable (initsleeplock n) s -> inv s.
Proof. induction 1 as [|s s' _ IH Hs]; [apply init_inv|by eapply sleep_step_inv]. Qed.

(** A sleep lock excludes: in every reachable state at most one process is
    between [acquiresleep] and [releasesleep], and the lock then is locked
    under its pid, so that [holdingsleep] is true for it. *)
Theorem sleeplock_mutual_exclusion n s :
  reachable (initsleeplock n) s ->
  (forall i j, procs s !! i = Some Held -> procs s !! j = Some Held -> i = j) /\
  (forall i, procs s !! i = Some Held -> holdingsleep s i = true).
Proof.
  intros Hinv%sleep_reachable_inv. split.
  - intros i j Hi Hj. by apply (i_one s Hinv i j Held Held).
  - intros i Hi. destruct (i_locked s Hinv i Held Hi eq_refl) as [Hl Hpid].
    unfold holdingsleep. by rewrite Hl, Hpid, Z.eqb_refl.
Qed.

(** C28. No wakeup is lost: in every state that the processes and any [kill]s reach, if
    a process sleeps on a lock that is free, some process is in [releasesleep],
    about to wake it. *)
Theorem no_lost_wakeup n s i :
  reachable (initsleeplock n) s -> procs s !! i = Some Asleep -> slocked s = false ->
  exists j q, procs s !! j = Some q /\ (q = WakeLock \/ q = Wake).
Proof.
  intros Hinv%sleep_reachable_inv Hi Hf. destruct (i_wake s Hinv i Asleep Hi eq_refl Hf) as (j & q & Hq & Hw).
  exists j, q. split; [done|]. destruct q; auto; done.
Qed.

End Step.

(** ** Witnesses *)

Definition two_pids (i : nat) : Z := Z.of_nat i + 1.

(** Run process [i] for one step. *)
Definition run1 (s : sleeplock) (i : nat) : sleeplock :=
  match procs s !! i with
  | Some p => default s (instr two_pids s i p)
  | None => s
  end.

Lemma run1_reachable s0 s l : reachable two_pids s0 s -> reachable two_pids s0 (foldl run1 s l).
Proof.
  revert s. induction l as [|i l IH]; intros s Hr; [done|]. cbn. apply IH. unfold run1.
  destruct (procs s !! i) as [p|] eqn:Ep; [|done]. destruct (instr two_pids s i p) as [s'|] eqn:E; [|done].
  cbn. eapply reach_step; [done|]. by eapply step_proc.
Qed.

(** Process 0 takes the lock; process 1 goes to sleep on it; process 0 clears
    the lock. *)
Definition asleep_free : sleeplock :=
  foldl run1 (initsleeplock 2) [0; 0; 0; 0; 1; 1; 1; 1; 1; 0; 0]%nat.

Lemma asleep_free_reachable : reachable two_pids (initsleeplock 2) asleep_free.
Proof. apply run1_reachable. constructor. Qed.

Lemma sleeplock_mutual_exclusion_witness :
  holdingsleep two_pids (foldl run1 (initsleeplock 2) [0; 0; 0; 0]%nat) 0 = true.
Proof.
  apply (sleeplock_mutual_exclusion two_pids 2); [|reflexivity]. apply run1_reachable. constructor.
Defined.

Lemma no_lost_wakeup_witness :
  exists j q, procs asleep_free !! j = Some q /\ (q = WakeLock \/ q = Wake).
Proof.
  apply (no_lost_wakeup two_pids 2 asleep_free 1); [apply asleep_free_reachable|reflexivity..].
Defined.
