(* ===== verification/Pipe.v ===== *)
(** * Pipes (pipe.c)

    The ring buffer of a pipe and the two transfer loops.  [pipewrite] and
    [piperead] run with [p->lock] held except while they sleep, so a call is a
    sequence of runs: a run goes from the acquisition of the lock, or from
    waking up, to the release of the lock, or to the next [sleep].  Runs of
    different callers interleave freely.  Allocation of the pipe and its files
    is in File.v. *)
From S2P Require Import Prelude.

Definition PIPESIZE : Z := 512.

Record pipe := mk_pipe {
  data : list Z;
  nread : Z;
  nwrite : Z;
  readopen : bool;
  writeopen : bool
}.

(** The channels [&p->nread] and [&p->nwrite], where readers and writers
    sleep. *)
Inductive pchannel := Nread | Nwrite.

(** ** Code *)

(** How a run ends. *)
Inductive wres :=
| WDone                    (* return n *)
| WFail (left : list Z)    (* return -1 with these bytes not written *)
| WSleep (left : list Z).  (* asleep on Nwrite with these bytes still to write *)

(** A run of [pipewrite]'s loop over the bytes still to write; [killed] is
    [myproc()->killed].  Result: the pipe, how the run ends and the channels
    woken up. *)
Fixpoint pipewrite_run (killed : bool) (addr : list Z) (p : pipe) : pipe * wres * list pchannel :=
  match addr with
  | [] => (p, WDone, [Nread])
  | c :: rest =>
      if nwrite p =? u32 (nread p + PIPESIZE) then
        if negb (readopen p) || killed then (p, WFail addr, [])
        else (p, WSleep addr, [Nread])
      else
        pipewrite_run killed rest
          (mk_pipe (<[Z.to_nat (nwrite p mod PIPESIZE) := c]> (data p)) (nread p)
             (u32 (nwrite p + 1)) (readopen p) (writeopen p))
  end.

Inductive rres :=
| RDone (bytes : list Z)   (* return i, these bytes copied out *)
| RFail
| RSleep.                  (* asleep on Nread *)

Fixpoint read_copy (n : nat) (p : pipe) : pipe * list Z :=
  match n with
  | O => (p, [])
  | S k =>
      if nread p =? nwrite p then (p, [])
      else
        let c := default 0 (data p !! Z.to_nat (nread p mod PIPESIZE)) in
        let '(p', l) := read_copy k
          (mk_pipe (data p) (u32 (nread p + 1)) (nwrite p) (readopen p) (writeopen p)) in
        (p', c :: l)
  end.

Definition piperead_run (killed : bool) (n : Z) (p : pipe) : pipe * rres * list pchannel :=
  if (nread p =? nwrite p) && writeopen p then
    if killed then (p, RFail, []) else (p, RSleep, [])
  else
    let '(p', l) := read_copy (Z.to_nat n) p in (p', RDone l, [Nwrite]).

(** [pipeclose]; the flag says whether the page of the pipe is freed. *)
Definition pipeclose (writable : bool) (p : pipe) : pipe * bool * list pchannel :=
  let p' := if writable then mk_pipe (data p) (nread p) (nwrite p) (readopen p) false
            else mk_pipe (data p) (nread p) (nwrite p) false (writeopen p) in
  (p', negb (readopen p') && negb (writeopen p'), [if writable then Nread else Nwrite]).

(** The pipe as [pipealloc] sets it up in a page. *)
Definition pipe_init (page : list Z) : pipe := mk_pipe page 0 0 true true.

(** ** The queue a pipe implements *)

Definition count (p : pipe) : Z := u32 (nwrite p - nread p).

Record pipe_ok (p : pipe) : Prop := {
  po_len : length (data p) = Z.to_nat PIPESIZE;
  po_r : 0 <= nread p < 4294967296;
  po_w : 0 <= nwrite p < 4294967296;
  po_count : count p <= PIPESIZE
}.

(** The byte [k] places behind the read position. *)
Definition byte_at (p : pipe) (k : nat) : Z :=
  default 0 (data p !! Z.to_nat ((nread p + Z.of_nat k) mod PIPESIZE)).
Definition buffered (p : pipe) : list Z := byte_at p <$> seq 0 (Z.to_nat (count p)).

Lemma u32_mod_pipe x : u32 x mod PIPESIZE = x mod PIPESIZE.
Proof.
  unfold u32, PIPESIZE. change 4294967296 with (512 * 8388608).
  rewrite Z.rem_mul_r by lia. rewrite (Z.mul_comm 512 (_ mod _)), Z.mod_add by lia. by rewrite Z.mod_mod.
Qed.

Lemma count_zero p : pipe_ok p -> nread p = nwrite p <-> count p = 0.
Proof.
  intros [_ Hr Hw _]. unfold count, u32. split; [intros ->; by rewrite Z.sub_diag|].
  intros H. apply Z.mod_divide in H as [k Hk]; lia.
Qed.

Lemma count_full p : pipe_ok p -> nwrite p = u32 (nread p + PIPESIZE) <-> count p = PIPESIZE.
Proof.
  intros [_ Hr Hw Hc]. unfold count, u32, PIPESIZE in *. split; intros H.
  - rewrite H. rewrite Zminus_mod_idemp_l. replace (nread p + 512 - nread p) with 512 by lia. done.
  - assert (E : nwrite p = (nread p + (nwrite p - nread p) mod 4294967296) mod 4294967296).
    { rewrite Zplus_mod_idemp_r. replace (nread p + (nwrite p - nread p)) with (nwrite p) by lia.
      by rewrite Z.mod_small. }
    by rewrite H in E.
Qed.

Lemma nwrite_mod p : pipe_ok p -> nwrite p mod PIPESIZE = (nread p + count p) mod PIPESIZE.
Proof.
  intros [_ Hr Hw _]. unfold count. rewrite <- (Zplus_mod_idemp_r (u32 _)), u32_mod_pipe, Zplus_mod_idemp_r.
  f_equal. lia.
Qed.

(** Slots of different queue positions differ. *)
Lemma slot_ne x (j k : Z) : 0 <= j < PIPESIZE -> 0 <= k < PIPESIZE -> j <> k ->
  (x + j) mod PIPESIZE <> (x + k) mod PIPESIZE.
Proof.
  unfold PIPESIZE. intros Hj Hk Hne E. apply Hne.
  assert (H : (x + j - (x + k)) mod 512 = 0) by (rewrite Zminus_mod, E, Z.sub_diag; done).
  apply Z.mod_divide in H as [q Hq]; [|lia]. nia.
Qed.

Section Put.
Context (p : pipe) (c : Z).
Hypothesis Hok : pipe_ok p.
Hypothesis Hroom : count p < PIPESIZE.

Definition put : pipe :=
  mk_pipe (<[Z.to_nat (nwrite p mod PIPESIZE) := c]> (data p)) (nread p) (u32 (nwrite p + 1))
    (readopen p) (writeopen p).

Lemma count_nonneg : 0 <= count p.
Proof. unfold count, u32. by apply Z.mod_pos_bound. Qed.

Lemma put_count : count put = count p + 1.
Proof using Hok Hroom.
  unfold count, put, u32 in *. cbn. rewrite Zminus_mod_idemp_l.
  replace (nwrite p + 1 - nread p) with ((nwrite p - nread p) + 1) by lia.
  rewrite <- Zplus_mod_idemp_l. apply Z.mod_small. unfold PIPESIZE in *.
  pose proof (Z.mod_pos_bound (nwrite p - nread p) 4294967296). lia.
Qed.

Lemma put_ok : pipe_ok put.
Proof using Hok Hroom.
  split.
  - cbn. rewrite length_insert. apply Hok.
  - apply Hok.
  - cbn. unfold u32. by apply Z.mod_pos_bound.
  - rewrite put_count. lia.
Qed.

Lemma put_buffered : buffered put = buffered p ++ [c].
Proof using Hok Hroom.
  pose proof count_nonneg as H0.
  assert (Hb : forall x, 0 <= x mod PIPESIZE < PIPESIZE) by (intros; by apply Z.mod_pos_bound).
  unfold buffered. rewrite put_count. replace (Z.to_nat (count p + 1)) with (Z.to_nat (count p) + 1)%nat by lia.
  rewrite seq_app, fmap_app. f_equal.
  - apply list_fmap_ext. intros j k Hk. apply lookup_seq in Hk as [-> Hlt]. cbn.
    unfold byte_at, put. cbn. rewrite list_lookup_insert_ne; [done|].
    rewrite nwrite_mod by done. pose proof (Hb (nread p + count p)). pose proof (Hb (nread p + Z.of_nat j)).
    intros E%Z2Nat.inj; [|lia..]. apply (slot_ne (nread p) (count p) (Z.of_nat j)) in E; lia.
  - cbn. f_equal. unfold byte_at, put. cbn.
    rewrite Z2Nat.id, <- nwrite_mod by done. pose proof (Hb (nwrite p)).
    rewrite list_lookup_insert_eq; [done|]. rewrite (po_len p Hok). lia.
Qed.
End Put.

Section Get.
Context (p : pipe).
Hypothesis Hok : pipe_ok p.
Hypothesis Hne : nread p <> nwrite p.

Definition getp : pipe :=
  mk_pipe (data p) (u32 (nread p + 1)) (nwrite p) (readopen p) (writeopen p).

Lemma get_count_pos : 0 < count p.
Proof using Hok Hne.
  pose proof (count_nonneg p) as Hc. pose proof (count_zero p Hok) as [_ Hz].
  destruct (Z.eq_dec (count p) 0); [|lia].
  exfalso. auto.
Qed.

Lemma get_count : count getp = count p - 1.
Proof using Hok Hne.
  pose proof get_count_pos as H0. unfold count, getp, u32 in *. cbn.
  rewrite Zminus_mod_idemp_r. replace (nwrite p - (nread p + 1)) with ((nwrite p - nread p) - 1) by lia.
  rewrite <- Zminus_mod_idemp_l. apply Z.mod_small.
  pose proof (Z.mod_pos_bound (nwrite p - nread p) 4294967296). lia.
Qed.

Lemma get_ok : pipe_ok getp.
Proof using Hok Hne.
  split; [apply Hok| |apply Hok|].
  - cbn. unfold u32. by apply Z.mod_pos_bound.
  - rewrite get_count. pose proof (po_count p Hok). lia.
Qed.

Lemma get_buffered : buffered p = default 0 (data p !! Z.to_nat (nread p mod PIPESIZE)) :: buffered getp.
Proof using Hok Hne.
  pose proof get_count_pos as H0. unfold buffered. rewrite get_count.
  replace (Z.to_nat (count p)) with (S (Z.to_nat (count p - 1))) by lia. cbn [seq fmap list_fmap]. f_equal.
  - unfold byte_at. by rewrite Z.add_0_r.
  - rewrite <- fmap_S_seq, <- list_fmap_compose. apply list_fmap_ext. intros j k _. cbn.
    unfold byte_at, getp. cbn. do 2 f_equal. rewrite <- (Zplus_mod_idemp_l (u32 _)), u32_mod_pipe, Zplus_mod_idemp_l.
    do 2 f_equal. lia.
Qed.
End Get.

(** ** Runs *)

Definition left_of (r : wres) : list Z := match r with WDone => [] | WFail l | WSleep l => l end.

Lemma pipewrite_run_spec killed addr : forall p, pipe_ok p ->
  exists p' r w put_bytes, pipewrite_run killed addr p = (p', r, w) /\ pipe_ok p' /\
    addr = put_bytes ++ left_of r /\ buffered p' = buffered p ++ put_bytes /\
    nread p' = nread p /\ readopen p' = readopen p /\ writeopen p' = writeopen p /\
    (left_of r <> [] -> count p' = PIPESIZE) /\
    match r with
    | WDone => True
    | WFail _ => readopen p = false \/ killed = true
    | WSleep l => l <> [] /\ readopen p = true /\ killed = false
    end.
Proof.
  induction addr as [|c rest IH]; intros p Hok.
  - exists p, WDone, [Nread], []. cbn. by rewrite app_nil_r.
  - cbn [pipewrite_run]. destruct (Z.eqb_spec (nwrite p) (u32 (nread p + PIPESIZE))) as [Ef|Hn].
    + apply count_full in Ef; [|done]. destruct (negb (readopen p) || killed) eqn:Ek.
      * exists p, (WFail (c :: rest)), [], []. cbn. rewrite app_nil_r. split_and!; try done.
        apply orb_true_iff in Ek as [Ek|Ek]; [left; by apply negb_true_iff|by right].
      * exists p, (WSleep (c :: rest)), [Nread], []. cbn. rewrite app_nil_r. split_and!; try done.
        -- apply orb_false_iff in Ek as [Ek _]. by apply negb_false_iff.
        -- by apply orb_false_iff in Ek as [_ Ek].
    + assert (Hroom : count p < PIPESIZE).
      { pose proof (po_count p Hok). pose proof (count_full p Hok). destruct (Z.eq_dec (count p) PIPESIZE); [|lia].
        exfalso. tauto. }
      destruct (IH (put p c) (put_ok p c Hok Hroom))
        as (p' & r & w & b & E & Hok' & Ea & Eb & H1 & H2 & H3 & H4 & H5).
      exists p', r, w, (c :: b). split; [exact E|]. split; [done|]. split; [by rewrite Ea|].
      split; [by rewrite Eb, put_buffered, <- app_assoc|]. done.
Qed.

Lemma read_copy_spec n : forall p, pipe_ok p ->
  exists p' l, read_copy n p = (p', l) /\ pipe_ok p' /\ buffered p = l ++ buffered p' /\
    Z.of_nat (length l) = Z.min (Z.of_nat n) (count p) /\
    nwrite p' = nwrite p /\ readopen p' = readopen p /\ writeopen p' = writeopen p.
Proof.
  induction n as [|n IH]; intros p Hok; pose proof (count_nonneg p) as H0.
  - exists p, []. cbn. split_and!; try done. lia.
  - cbn [read_copy]. destruct (Z.eqb_spec (nread p) (nwrite p)) as [E|Hne].
    + exists p, []. cbn. apply count_zero in E; [|done]. split_and!; try done. lia.
    + destruct (IH (getp p) (get_ok p Hok Hne)) as (p' & l & E & Hok' & Eb & El & H1 & H2 & H3).
      unfold getp in E. rewrite E. eexists _, _. split; [done|]. split; [done|].
      split; [by rewrite (get_buffered p Hok Hne), Eb|]. split; [|done].
      rewrite get_count in El by done. pose proof (get_count_pos p Hok Hne). cbn [length]. lia.
Qed.

(** The calls on a pipe, run by run. *)
Inductive pop := OWrite (killed : bool) (bytes : list Z) | ORead (killed : bool) (n : Z) | OClose (w : bool).

(** The pipe after a run, with the bytes put in and the bytes handed out. *)
Definition do_pop (o : pop) (p : pipe) : pipe * list Z * list Z :=
  match o with
  | OWrite killed b =>
      let '(p', r, _) := pipewrite_run killed b p in
      (p', take (length b - length (left_of r)) b, [])
  | ORead killed n =>
      let '(p', r, _) := piperead_run killed n p in
      (p', [], match r with RDone l => l | _ => [] end)
  | OClose w => let '(p', _, _) := pipeclose w p in (p', [], [])
  end.

Fixpoint do_pops (l : list pop) (p : pipe) : pipe * list Z * list Z :=
  match l with
  | [] => (p, [], [])
  | o :: l' =>
      let '(p1, i1, o1) := do_pop o p in
      let '(p2, i2, o2) := do_pops l' p1 in
      (p2, i1 ++ i2, o1 ++ o2)
  end.

Lemma do_pop_spec o p p' i out : pipe_ok p -> do_pop o p = (p', i, out) ->
  pipe_ok p' /\ buffered p ++ i = out ++ buffered p'.
Proof.
  intros Hok. destruct o as [k b|k n|w]; cbn.
  - destruct (pipewrite_run_spec k b p Hok) as (p1 & r & w & d & E & Hok1 & Eb & Ebuf & _). rewrite E.
    intros [= <- <- <-]. split; [done|]. cbn. rewrite Ebuf. f_equal. rewrite Eb at 2.
    rewrite Eb at 1. rewrite length_app. replace (length d + length (left_of r) - length (left_of r))%nat
      with (length d) by lia. by rewrite take_app_length.
  - unfold piperead_run. destruct (_ && _); [destruct k; intros [= <- <- <-]; by rewrite app_nil_r|].
    destruct (read_copy_spec (Z.to_nat n) p Hok) as (p1 & l & E & Hok1 & Eb & _). rewrite E.
    intros [= <- <- <-]. split; [done|]. by rewrite app_nil_r.
  - unfold pipeclose. intros [= <- <- <-]. rewrite app_nil_r. destruct w; split; try done; by destruct Hok; split.
Qed.

(** ** Claims *)

(** C36. A pipe is a first-in first-out queue of at most [PIPESIZE] bytes:
    over any interleaving of runs of writers, readers and closes, what is put
    in, behind what was buffered at the start, is what is handed out followed
    by what is buffered at the end. *)
Theorem pipe_fifo p ops p' put_in got :
  pipe_ok p -> do_pops ops p = (p', put_in, got) ->
  pipe_ok p' /\ buffered p ++ put_in = got ++ buffered p'.
Proof.
  revert p put_in got. induction ops as [|o ops IH]; intros p put_in got Hok; cbn.
  - intros [= <- <- <-]. by rewrite app_nil_r.
  - destruct (do_pop o p) as [[p1 i1] o1] eqn:E1. destruct (do_pops ops p1) as [[p2 i2] o2] eqn:E2.
    intros [= <- <- <-]. destruct (do_pop_spec o p _ _ _ Hok E1) as [Hok1 H1].
    destruct (IH p1 _ _ Hok1 E2) as [Hok2 H2]. split; [done|].
    by rewrite app_assoc, H1, <- app_assoc, H2, app_assoc.
Qed.

(** A writer gives up the CPU only on a full pipe with its read end open,
    after waking the readers, and fails only on a full pipe with its read end
    closed or when killed; otherwise all its bytes are in the pipe. *)
Theorem pipewrite_outcomes killed addr p :
  pipe_ok p ->
  exists p' r w, pipewrite_run killed addr p = (p', r, w) /\
    match r with
    | WDone => buffered p' = buffered p ++ addr
    | WFail _ => (readopen p = false \/ killed = true)
    | WSleep l => count p' = PIPESIZE /\ readopen p = true /\ killed = false /\
                  exists d, addr = d ++ l /\ buffered p' = buffered p ++ d
    end.
Proof.
  intros Hok. destruct (pipewrite_run_spec killed addr p Hok)
    as (p' & r & w & d & E & _ & Ea & Eb & _ & _ & _ & Hfull & Hr).
  exists p', r, w. split; [done|]. destruct r; cbn in *.
  - rewrite app_nil_r in Ea. by subst.
  - done.
  - destruct Hr as (Hl & Ho & Hk). eauto 10.
Qed.

(** A reader that is not killed gets the oldest [min n count] bytes,
    nothing (end of file) from an empty pipe whose write end is closed, and
    sleeps only on an empty pipe whose write end is open. *)
Theorem piperead_outcomes n p :
  pipe_ok p -> 0 <= n ->
  exists p' r w, piperead_run false n p = (p', r, w) /\
    match r with
    | RDone l => l = take (Z.to_nat n) (buffered p) /\ buffered p = l ++ buffered p'
    | RFail => False
    | RSleep => p' = p /\ buffered p = [] /\ writeopen p = true
    end.
Proof.
  intros Hok Hn. unfold piperead_run.
  destruct ((nread p =? nwrite p) && writeopen p) eqn:E.
  - apply andb_true_iff in E as [E Ew]. apply Z.eqb_eq, (count_zero p Hok) in E.
    eexists _, _, _. split; [done|]. unfold buffered. by rewrite E.
  - destruct (read_copy_spec (Z.to_nat n) p Hok) as (p' & l & Er & _ & Eb & El & _). rewrite Er.
    eexists _, _, _. split; [done|]. split; [|done]. rewrite Eb.
    assert (Hlen : length (buffered p) = Z.to_nat (count p))
      by (unfold buffered; by rewrite length_fmap, length_seq).
    pose proof (count_nonneg p). rewrite Eb, length_app in Hlen.
    destruct (decide (Z.to_nat n <= length l)%nat) as [Hle|Hgt].
    + rewrite take_app_le by done. rewrite take_ge; [done|lia].
    + assert (buffered p' = []) as -> by (apply length_zero_iff_nil; lia).
      rewrite app_nil_r, take_ge; [done|lia].
Qed.

(** ** Witnesses *)

Definition ex_pipe : pipe := pipe_init (replicate 512 0).

Lemma ex_pipe_ok : pipe_ok ex_pipe.
Proof. split; by vm_compute. Qed.

Lemma pipe_fifo_witness :
  pipe_ok (do_pops [OWrite false [1; 2; 3]; ORead false 2; OWrite false [4]; OClose true; ORead false 9] ex_pipe).1.1 /\
  buffered ex_pipe ++ [1; 2; 3; 4] = [1; 2; 3; 4] ++
    buffered (do_pops [OWrite false [1; 2; 3]; ORead false 2; OWrite false [4]; OClose true; ORead false 9] ex_pipe).1.1.
Proof.
  apply (pipe_fifo ex_pipe [OWrite false [1; 2; 3]; ORead false 2; OWrite false [4]; OClose true; ORead false 9]).
  - apply ex_pipe_ok.
  - vm_compute. reflexivity.
Defined.

Lemma pipewrite_outcomes_witness :
  exists p' r w, pipewrite_run false (replicate 600 7) ex_pipe = (p', r, w).
Proof.
  destruct (pipewrite_outcomes false (replicate 600 7) ex_pipe ex_pipe_ok) as (p' & r & w & E & _).
  exists p', r, w. exact E.
Defined.

Lemma piperead_outcomes_witness : exists p' r w, piperead_run false 5 ex_pipe = (p', r, w).
Proof.
  destruct (piperead_outcomes 5 ex_pipe ex_pipe_ok) as (p' & r & w & E & _); [lia|].
  exists p', r, w. exact E.
Defined.
