(* ===== verification/Log.v ===== *)
(** * The write-ahead log (log.c)

    Blocks on disk, the modified blocks that the buffer cache holds pinned,
    and the redo log.  [bread] gives the cached contents of a block or the
    disk's, and [bwrite] writes one block to disk, which is atomic; Bio.v
    models the cache that provides this.  Every block written to disk is also
    appended to [trace], so that a crash can be put between any two writes. *)
From S2P Require Import Prelude Memory.

(** A disk block: its bytes at offsets 0 to 511. *)
Notation block := mem (only parsing).

Definition BSIZE : Z := 512.
Definition MAXOPBLOCKS : Z := 10.
Definition LOGSIZE : Z := MAXOPBLOCKS * 3.

(** ** State *)

Record superblock := mk_superblock {
  sb_size : Z; sb_nblocks : Z; sb_ninodes : Z; sb_nlog : Z;
  sb_logstart : Z; sb_inodestart : Z; sb_bmapstart : Z
}.

Record log_t := mk_log {
  start : Z;
  size : Z;
  outstanding : Z;
  committing : bool;
  lh_block : list Z  (* lh.block[0..lh.n-1] *)
}.

Record dstate := mk_dstate {
  disk : gmap Z block;
  cached : gmap Z block;
  trace : list (Z * block);
  log : log_t
}.

Definition D := M dstate.

Definition disk_at (d : gmap Z block) (b : Z) : block := default ∅ (d !! b).
Definition view (s : dstate) (b : Z) : block :=
  match cached s !! b with Some x => x | None => disk_at (disk s) b end.

Definition bread (b : Z) : D block := gets (fun s => view s b).
Definition bwrite (b : Z) (x : block) : D unit :=
  modify (fun s => mk_dstate (<[b := x]> (disk s)) (delete b (cached s)) (trace s ++ [(b, x)]) (log s)).

Definition with_log (s : dstate) (l : log_t) : dstate := mk_dstate (disk s) (cached s) (trace s) l.
Definition set_lh (bs : list Z) : D unit :=
  modify (fun s => with_log s
    (mk_log (start (log s)) (size (log s)) (outstanding (log s)) (committing (log s)) bs)).
Definition set_outstanding (n : Z) : D unit :=
  modify (fun s => with_log s
    (mk_log (start (log s)) (size (log s)) n (committing (log s)) (lh_block (log s)))).
Definition set_committing (c : bool) : D unit :=
  modify (fun s => with_log s
    (mk_log (start (log s)) (size (log s)) (outstanding (log s)) c (lh_block (log s)))).

(** ** Code *)

(** [readsb] of fs.c: the super block is block 1. *)
Definition readsb : D superblock :=
  let* x := bread 1 in
  ret (mk_superblock (read32 x 0) (read32 x 4) (read32 x 8) (read32 x 12) (read32 x 16)
         (read32 x 20) (read32 x 24)).

(** [struct logheader] in a block: [n], then [block[i]]. *)
Fixpoint put_blocks (x : block) (i : Z) (bs : list Z) : block :=
  match bs with
  | [] => x
  | b :: bs' => put_blocks (write32 x (4 + 4 * i) b) (i + 1) bs'
  end.
Fixpoint get_blocks (x : block) (i : Z) (n : nat) : list Z :=
  match n with
  | O => []
  | S k => s32 (read32 x (4 + 4 * i)) :: get_blocks x (i + 1) k
  end.

Fixpoint install_loop (tail : Z) (bs : list Z) : D unit :=
  match bs with
  | [] => ret tt
  | b :: bs' =>
      let* st := gets (fun s => start (log s)) in
      let* lbuf := bread (st + tail + 1) in
      let* dbuf := bread b in
      do* bwrite b lbuf in
      install_loop (tail + 1) bs'
  end.
Definition install_trans : D unit :=
  let* bs := gets (fun s => lh_block (log s)) in
  install_loop 0 bs.

Definition read_head : D unit :=
  let* st := gets (fun s => start (log s)) in
  let* lh := bread st in
  let n := s32 (read32 lh 0) in
  set_lh (get_blocks lh 0 (Z.to_nat n)).

Definition write_head : D unit :=
  let* st := gets (fun s => start (log s)) in
  let* hb := bread st in
  let* bs := gets (fun s => lh_block (log s)) in
  bwrite st (put_blocks (write32 hb 0 (Z.of_nat (length bs))) 0 bs).

Definition recover_from_log : D unit :=
  do* read_head in
  do* install_trans in
  do* set_lh [] in
  write_head.

Definition sizeof_logheader : Z := 4 + 4 * LOGSIZE.

Definition initlog : D unit :=
  if BSIZE <=? sizeof_logheader then panic "initlog: too big logheader"
  else
    let* sb := readsb in
    do* modify (fun s => with_log s (mk_log (s32 (sb_logstart sb)) (s32 (sb_nlog sb))
      (outstanding (log s)) (committing (log s)) (lh_block (log s)))) in
    recover_from_log.

(** One turn of [begin_op]'s loop; [false] when it sleeps on the log. *)
Definition begin_op_turn : D bool :=
  let* l := gets log in
  if committing l then ret false
  else if LOGSIZE <? Z.of_nat (length (lh_block l)) + (outstanding l + 1) * MAXOPBLOCKS then ret false
  else do* set_outstanding (outstanding l + 1) in ret true.

Fixpoint write_log_loop (tail : Z) (bs : list Z) : D unit :=
  match bs with
  | [] => ret tt
  | b :: bs' =>
      let* st := gets (fun s => start (log s)) in
      let* to := bread (st + tail + 1) in
      let* from := bread b in
      do* bwrite (st + tail + 1) from in
      write_log_loop (tail + 1) bs'
  end.
Definition write_log : D unit :=
  let* bs := gets (fun s => lh_block (log s)) in
  write_log_loop 0 bs.

Definition commit : D unit :=
  let* bs := gets (fun s => lh_block (log s)) in
  if (0 <? Z.of_nat (length bs)) then
    do* write_log in
    do* write_head in
    do* install_trans in
    do* set_lh [] in
    write_head
  else ret tt.

(** [end_op] up to the call of [commit] (whether it commits), and after it. *)
Definition end_op_enter : D bool :=
  let* l := gets log in
  do* set_outstanding (outstanding l - 1) in
  if committing l then panic "log.committing"
  else if outstanding l - 1 =? 0 then do* set_committing true in ret true
  else ret false.
Definition end_op_leave : D unit := set_committing false.
Definition end_op : D unit :=
  let* do_commit := end_op_enter in
  if do_commit then do* commit in end_op_leave else ret tt.

(** [log_write] of a buffer for block [b] whose contents are now [x]. *)
Definition log_write (b : Z) (x : block) : D unit :=
  let* l := gets log in
  let n := Z.of_nat (length (lh_block l)) in
  if (LOGSIZE <=? n) || (size l - 1 <=? n) then panic "too big a transaction"
  else if outstanding l <? 1 then panic "log_write outside of trans"
  else
    do* set_lh (if bool_decide (b ∈ lh_block l) then lh_block l else lh_block l ++ [b]) in
    modify (fun s => mk_dstate (disk s) (<[b := x]> (cached s)) (trace s) (log s)).

(** ** Crashes *)

(** The disk after the writes [ws]. *)
Definition apply_writes (d : gmap Z block) (ws : list (Z * block)) : gmap Z block :=
  foldl (fun d w => <[w.1 := w.2]> d) d ws.

(** The machine as it comes up on disk [d]: nothing cached, the log where the
    super block puts it. *)
Definition boot (d : gmap Z block) (st sz : Z) : dstate := mk_dstate d ∅ [] (mk_log st sz 0 false []).
