(* ===== verification/LogProof.v ===== *)
(** * Crash safety of the log

    [commit] writes its blocks to the log, then the header, then the home
    locations, then the empty header.  Whatever prefix of these writes reaches
    the disk, [recover_from_log] brings the disk to the state before the
    transaction or to the state after it. *)
From S2P Require Import Prelude Memory Log.

(** ** The header block *)

Lemma read32_put_blocks bs : forall x i a,
  0 <= i -> a + 4 <= 4 + 4 * i -> read32 (put_blocks x i bs) a = read32 x a.
Proof.
  induction bs as [|b bs IH]; intros x i a Hi Ha; [done|]. cbn. rewrite IH by lia.
  apply read32_write32_ne. unfold in_range. lia.
Qed.

Lemma get_put_blocks bs : forall x i,
  0 <= i -> Forall (fun b => 0 <= b < 2147483648) bs -> get_blocks (put_blocks x i bs) i (length bs) = bs.
Proof.
  induction bs as [|b bs IH]; intros x i Hi Hb; [done|]. cbn.
  apply Forall_cons in Hb as [Hb Hbs]. rewrite IH by (lia || done).
  rewrite read32_put_blocks by lia. rewrite read32_write32_eq by lia. by rewrite s32_small by lia.
Qed.

(** ** Writes *)

Lemma disk_at_insert d b x b' : disk_at (<[b := x]> d) b' = if decide (b = b') then x else disk_at d b'.
Proof.
  unfold disk_at. case_decide; [subst; by rewrite lookup_insert_eq|by rewrite lookup_insert_ne].
Qed.

Lemma apply_writes_app d ws ws' : apply_writes d (ws ++ ws') = apply_writes (apply_writes d ws) ws'.
Proof. apply foldl_app. Qed.

Lemma apply_writes_notin ws : forall d b,
  b ∉ ws.*1 -> disk_at (apply_writes d ws) b = disk_at d b.
Proof.
  induction ws as [|w ws IH]; intros d b Hb; [done|]. cbn in *. rewrite not_elem_of_cons in Hb.
  destruct Hb as [Hw Hb]. unfold apply_writes in *. rewrite IH by done. rewrite disk_at_insert.
  by rewrite decide_False.
Qed.

Lemma apply_writes_in ws : forall d b x,
  NoDup ws.*1 -> (b, x) ∈ ws -> disk_at (apply_writes d ws) b = x.
Proof.
  induction ws as [|w ws IH]; intros d b x Hnd Hin; [by apply elem_of_nil in Hin|].
  cbn in Hnd. apply NoDup_cons in Hnd as [Hw Hnd]. apply elem_of_cons in Hin as [<-|Hin]; cbn.
  - rewrite (apply_writes_notin ws); [|done]. by rewrite disk_at_insert, decide_True.
  - by apply IH.
Qed.

(** ** The loops *)

(** The writes of [install_loop] and of [write_log_loop]. *)
Fixpoint installs (v : Z -> block) (st tail : Z) (bs : list Z) : list (Z * block) :=
  match bs with [] => [] | b :: bs' => (b, v (st + tail + 1)) :: installs v st (tail + 1) bs' end.
Fixpoint logged (v : Z -> block) (st tail : Z) (bs : list Z) : list (Z * block) :=
  match bs with [] => [] | b :: bs' => (st + tail + 1, v b) :: logged v st (tail + 1) bs' end.

(** Outside the log of [sz] blocks at [st]: neither the header nor one of the
    [sz - 1] data blocks that follow it. *)
Definition home (st sz b : Z) : Prop := b < st \/ st + sz <= b.

Lemma installs_fst v st bs : forall tail, (installs v st tail bs).*1 = bs.
Proof. induction bs as [|b bs IH]; intros tail; [done|]. cbn. by rewrite IH. Qed.

Lemma logged_fst v st bs : forall tail b, b ∈ (logged v st tail bs).*1 ->
  st + tail + 1 <= b < st + tail + 1 + Z.of_nat (length bs).
Proof.
  induction bs as [|c bs IH]; intros tail b Hb; [by apply elem_of_nil in Hb|].
  cbn in *. apply elem_of_cons in Hb as [->|Hb]; [lia|]. apply IH in Hb. lia.
Qed.

Lemma logged_nodup v st bs : forall tail, NoDup (logged v st tail bs).*1.
Proof.
  induction bs as [|c bs IH]; intros tail; [constructor|]. cbn. apply NoDup_cons. split; [|apply IH].
  intros Hb%logged_fst. lia.
Qed.

Lemma installs_ext v v' st bs : forall tail,
  (forall k, 0 <= k < Z.of_nat (length bs) -> v (st + tail + k + 1) = v' (st + tail + k + 1)) ->
  installs v st tail bs = installs v' st tail bs.
Proof.
  induction bs as [|b bs IH]; intros tail H; [done|]. cbn. f_equal.
  - f_equal. replace (st + tail + 1) with (st + tail + 0 + 1) by lia. apply H. cbn. lia.
  - apply IH. intros k Hk. replace (st + (tail + 1) + k + 1) with (st + tail + (k + 1) + 1) by lia.
    apply H. cbn. lia.
Qed.

Lemma logged_ext v v' st bs : forall tail,
  (forall b, b ∈ bs -> v b = v' b) -> logged v st tail bs = logged v' st tail bs.
Proof.
  induction bs as [|b bs IH]; intros tail H; [done|]. cbn. f_equal.
  - f_equal. apply H, list_elem_of_here.
  - apply IH. intros c Hc. apply H. by right.
Qed.

Lemma view_bwrite s b x b' :
  view (mk_dstate (<[b := x]> (disk s)) (delete b (cached s)) (trace s ++ [(b, x)]) (log s)) b' =
  if decide (b = b') then x else view s b'.
Proof.
  unfold view. cbn. case_decide as E.
  - subst. by rewrite lookup_delete_eq, disk_at_insert, decide_True.
  - rewrite lookup_delete_ne by done. destruct (cached s !! b'); [done|]. by rewrite disk_at_insert, decide_False.
Qed.

(** After the writes [ws], in any state. *)
Definition wrote (s : dstate) (ws : list (Z * block)) (c : gmap Z block) : dstate :=
  mk_dstate (apply_writes (disk s) ws) c (trace s ++ ws) (log s).

Definition deletes (c : gmap Z block) (ks : list Z) : gmap Z block := foldl (fun c k => delete k c) c ks.

Lemma deletes_lookup ks : forall c b, deletes c ks !! b = if decide (b ∈ ks) then None else c !! b.
Proof.
  induction ks as [|k ks IH]; intros c b; cbn.
  - by rewrite decide_False by apply not_elem_of_nil.
  - unfold deletes in IH. rewrite IH. destruct (decide (k = b)) as [->|Hne].
    + rewrite lookup_delete_eq. rewrite (decide_True (P := b ∈ b :: ks)) by apply list_elem_of_here.
      by case_decide.
    + rewrite lookup_delete_ne by done. case_decide as H1; case_decide as H2; try done.
      * destruct H2. by right.
      * apply elem_of_cons in H2 as [->|H2]; done.
Qed.

Lemma install_loop_spec bs : forall tail s,
  0 <= tail -> tail + Z.of_nat (length bs) < size (log s) -> Forall (home (start (log s)) (size (log s))) bs ->
  install_loop tail bs s =
  Ret tt (wrote s (installs (view s) (start (log s)) tail bs) (deletes (cached s) bs)).
Proof.
  induction bs as [|b bs IH]; intros tail s Ht Hl Hh; cbn [install_loop].
  - unfold wrote, ret. cbn. rewrite app_nil_r. by destruct s.
  - apply Forall_cons in Hh as [Hb Hh]. cbn [length] in Hl. unfold gets at 1, bread, bwrite, modify, gets, bind.
    set (s1 := mk_dstate _ _ _ _). rewrite IH by (exact Hh || cbn; lia). unfold wrote. cbn [installs log disk trace cached s1].
    rewrite <- app_assoc. do 2 f_equal; cbn; f_equal; try done.
    all: erewrite (installs_ext (view s1) (view s)); [done|].
    all: intros k Hk; cbn; unfold s1; rewrite view_bwrite, decide_False; [done|].
    all: unfold home in Hb; lia.
Qed.

Lemma write_log_loop_spec bs : forall tail s,
  0 <= tail -> tail + Z.of_nat (length bs) < size (log s) -> Forall (home (start (log s)) (size (log s))) bs ->
  write_log_loop tail bs s =
  Ret tt (wrote s (logged (view s) (start (log s)) tail bs)
    (deletes (cached s) (logged (view s) (start (log s)) tail bs).*1)).
Proof.
  induction bs as [|b bs IH]; intros tail s Ht Hl Hh; cbn [write_log_loop].
  - unfold wrote, ret. cbn. rewrite app_nil_r. by destruct s.
  - apply Forall_cons in Hh as [Hb Hh]. cbn [length] in Hl. unfold gets at 1, bread, bwrite, modify, gets, bind.
    set (s1 := mk_dstate _ _ _ _). rewrite IH by (exact Hh || cbn; lia).
    assert (E : logged (view s1) (start (log s1)) (tail + 1) bs = logged (view s) (start (log s)) (tail + 1) bs).
    { apply logged_ext. intros c Hc. unfold s1. rewrite view_bwrite, decide_False; [done|].
      rewrite Forall_forall in Hh. specialize (Hh c Hc). unfold home in Hh. lia. }
    rewrite E. unfold wrote. cbn [logged log disk trace cached s1]. by rewrite <- app_assoc.
Qed.

Lemma wrote_wrote s ws c ws' c' : wrote (wrote s ws c) ws' c' = wrote s (ws ++ ws') c'.
Proof. unfold wrote. cbn. by rewrite apply_writes_app, app_assoc. Qed.

Definition header (x : block) (bs : list Z) : block := put_blocks (write32 x 0 (Z.of_nat (length bs))) 0 bs.

Lemma header_n x bs : Z.of_nat (length bs) <= LOGSIZE -> read32 (header x bs) 0 = Z.of_nat (length bs).
Proof.
  intros H. unfold header. rewrite read32_put_blocks by lia. rewrite read32_write32_eq; [done|].
  unfold LOGSIZE, MAXOPBLOCKS in H. lia.
Qed.

Definition decode (x : block) : list Z := get_blocks x 0 (Z.to_nat (s32 (read32 x 0))).

Lemma decode_header x bs :
  Z.of_nat (length bs) <= LOGSIZE -> Forall (fun b => 0 <= b < 2147483648) bs -> decode (header x bs) = bs.
Proof.
  intros Hl Hb. unfold decode. rewrite header_n by done. unfold LOGSIZE, MAXOPBLOCKS in Hl.
  rewrite s32_small, Nat2Z.id by lia. unfold header. by apply get_put_blocks.
Qed.

Lemma write_head_spec s :
  write_head s = Ret tt (wrote s [(start (log s), header (view s (start (log s))) (lh_block (log s)))]
    (delete (start (log s)) (cached s))).
Proof. done. Qed.

Lemma installs_map (v v' : Z -> block) st bs : forall tail,
  (forall k b, bs !! k = Some b -> v (st + tail + Z.of_nat k + 1) = v' b) ->
  installs v st tail bs = (fun b => (b, v' b)) <$> bs.
Proof.
  induction bs as [|b bs IH]; intros tail H; [done|]. cbn. f_equal.
  - f_equal. replace (st + tail + 1) with (st + tail + Z.of_nat 0 + 1) by lia. by apply H.
  - apply IH. intros k c Hk. replace (st + (tail + 1) + Z.of_nat k + 1) with (st + tail + Z.of_nat (S k) + 1) by lia.
    by apply H.
Qed.

Lemma logged_elem v st bs : forall tail k b,
  bs !! k = Some b -> (st + tail + Z.of_nat k + 1, v b) ∈ logged v st tail bs.
Proof.
  induction bs as [|c bs IH]; intros tail k b Hk; [done|]. cbn. destruct k as [|k].
  - cbn in Hk. simplify_eq. apply elem_of_cons. left. f_equal. lia.
  - apply elem_of_cons. right. replace (st + tail + Z.of_nat (S k) + 1) with (st + (tail + 1) + Z.of_nat k + 1) by lia.
    by apply IH.
Qed.

(** ** A transaction ready to commit *)

Record log_ready (s : dstate) : Prop := {
  lr_len : Z.of_nat (length (lh_block (log s))) <= LOGSIZE;
  lr_size : Z.of_nat (length (lh_block (log s))) < size (log s);
  lr_nodup : NoDup (lh_block (log s));
  lr_range : Forall (fun b => 0 <= b < 2147483648) (lh_block (log s));
  lr_home : Forall (home (start (log s)) (size (log s))) (lh_block (log s));
  lr_cached : forall b, b ∉ lh_block (log s) -> cached s !! b = None;
  lr_empty : decode (disk_at (disk s) (start (log s))) = []
}.

Definition home_writes (s : dstate) : list (Z * block) := (fun b => (b, view s b)) <$> lh_block (log s).

Lemma home_writes_fst s : (home_writes s).*1 = lh_block (log s).
Proof. unfold home_writes. rewrite <- list_fmap_compose. apply list_fmap_id. Qed.

(** The writes of [commit], in order. *)
Definition commit_writes (s : dstate) (h0 : block) : list (Z * block) :=
  let st := start (log s) in
  logged (view s) st 0 (lh_block (log s)) ++
  [(st, header (disk_at (disk s) st) (lh_block (log s)))] ++
  home_writes s ++ [(st, h0)].

Lemma home_not_start st sz b : 0 < sz -> home st sz b -> b <> st.
Proof. unfold home. lia. Qed.

(** A block outside the log is not the header. *)
Ltac off_start := match goal with H : home _ _ _ |- _ => unfold home in H; lia end.

Lemma lr_pos s : log_ready s -> 0 < size (log s).
Proof. intros H. pose proof (lr_size s H). lia. Qed.

Lemma start_uncached s : log_ready s -> cached s !! start (log s) = None.
Proof.
  intros H. apply (lr_cached s H). intros Hin. pose proof (lr_home s H) as Hh. rewrite Forall_forall in Hh.
  by apply (home_not_start _ _ _ (lr_pos s H) (Hh _ Hin)).
Qed.

Lemma view_uncached s b : cached s !! b = None -> view s b = disk_at (disk s) b.
Proof. unfold view. by intros ->. Qed.

Lemma start_not_logged v st bs : st ∉ (logged v st 0 bs).*1.
Proof. intros H%logged_fst. lia. Qed.

Lemma commit_spec s : log_ready s -> lh_block (log s) <> [] ->
  exists h0 s', commit s = Ret tt s' /\ decode h0 = [] /\
    disk s' = apply_writes (disk s) (commit_writes s h0) /\
    trace s' = trace s ++ commit_writes s h0 /\ cached s' = ∅ /\
    log s' = mk_log (start (log s)) (size (log s)) (outstanding (log s)) (committing (log s)) [].
Proof.
  intros Hr Hne. set (st := start (log s)). set (bs := lh_block (log s)).
  assert (Hpos : (0 <? Z.of_nat (length bs)) = true).
  { apply Z.ltb_lt. destruct bs eqn:E; [done|]. cbn. lia. }
  set (W1 := logged (view s) st 0 bs). set (s1 := wrote s W1 (deletes (cached s) W1.*1)).
  assert (E1 : write_log s = Ret tt s1).
  { unfold write_log, gets, bind. rewrite write_log_loop_spec; [done|lia| |apply Hr].
    rewrite Z.add_0_l. apply Hr. }
  assert (Hst : st ∉ W1.*1) by apply start_not_logged.
  assert (Hv1 : view s1 st = disk_at (disk s) st).
  { unfold view, s1. cbn. rewrite deletes_lookup, decide_False by done.
    rewrite (start_uncached s Hr : cached s !! st = None). by apply apply_writes_notin. }
  set (h1 := header (disk_at (disk s) st) bs).
  set (s2 := wrote s1 [(st, h1)] (delete st (cached s1))).
  assert (E2 : write_head s1 = Ret tt s2).
  { rewrite write_head_spec. unfold s2. cbn [log s1 wrote]. fold st bs. by rewrite Hv1. }
  assert (Hv2 : forall k b, bs !! k = Some b -> view s2 (st + 0 + Z.of_nat k + 1) = view s b).
  { intros k b Hk. pose proof (logged_elem (view s) st bs 0 k b Hk) as Hin. fold W1 in Hin.
    unfold view, s2. cbn. rewrite lookup_delete_ne by lia. unfold s1. cbn. rewrite deletes_lookup, decide_True.
    - change (disk_at (<[st := h1]> (apply_writes (disk s) W1)) (st + 0 + Z.of_nat k + 1) = view s b).
      rewrite disk_at_insert, decide_False by lia. apply apply_writes_in; [apply logged_nodup|done].
    - by apply (list_elem_of_fmap_2 fst) in Hin. }
  set (s3 := wrote s2 (home_writes s) (deletes (cached s2) bs)).
  assert (E3 : install_trans s2 = Ret tt s3).
  { unfold install_trans, gets, bind. rewrite install_loop_spec; [|lia| |apply Hr].
    - unfold s3. do 2 f_equal. by apply installs_map.
    - rewrite Z.add_0_l. apply Hr. }
  set (h0 := header (view s3 st) []).
  exists h0, (mk_dstate (apply_writes (disk s3) [(st, h0)]) (delete st (cached s3)) (trace s3 ++ [(st, h0)])
    (mk_log st (size (log s)) (outstanding (log s)) (committing (log s)) [])).
  split; [|split; [by apply decode_header; [unfold LOGSIZE, MAXOPBLOCKS; cbn; lia|constructor]|]].
  { unfold commit, gets, bind at 1. fold bs. rewrite Hpos.
    rewrite (bind_Ret _ _ _ _ _ E1), (bind_Ret _ _ _ _ _ E2), (bind_Ret _ _ _ _ _ E3). done. }
  cbn [disk trace log cached]. unfold s3, s2, s1. rewrite !wrote_wrote. cbn [disk trace wrote cached].
  unfold commit_writes. fold st bs h1 W1.
  split; [by rewrite <- apply_writes_app, <- !app_assoc|]. split; [by rewrite <- !app_assoc|].
  split; [|done]. apply map_empty. intros b. destruct (decide (b = st)) as [->|Hb]; [by rewrite lookup_delete_eq|].
  rewrite lookup_delete_ne, deletes_lookup by done. case_decide as Hin; [done|].
  rewrite lookup_delete_ne, deletes_lookup by done. case_decide; [done|]. by apply (lr_cached s Hr).
Qed.

Lemma apply_map (d : gmap Z block) (v : Z -> block) bs b :
  NoDup bs -> b ∈ bs -> disk_at (apply_writes d ((fun b => (b, v b)) <$> bs)) b = v b.
Proof.
  intros Hnd Hb. apply apply_writes_in.
  - rewrite <- list_fmap_compose. by rewrite list_fmap_id.
  - apply list_elem_of_fmap. by exists b.
Qed.

(** After the writes of [commit] every block outside the log is as the transaction
    left it, and the header is the last one written. *)
Lemma commit_home s h0 b : log_ready s -> home (start (log s)) (size (log s)) b ->
  disk_at (apply_writes (disk s) (commit_writes s h0)) b = view s b.
Proof.
  intros Hr Hb. pose proof (lr_pos s Hr) as Hz. unfold commit_writes. rewrite !apply_writes_app. cbn.
  rewrite disk_at_insert, decide_False by off_start.
  destruct (decide (b ∈ lh_block (log s))) as [Hin|Hout]; [by apply apply_map; [apply Hr|]|].
  rewrite apply_writes_notin by (by rewrite home_writes_fst).
  rewrite disk_at_insert, decide_False by off_start.
  rewrite apply_writes_notin, view_uncached; [done|by apply Hr|].
  intros Hin%logged_fst. pose proof (lr_size s Hr). unfold home in Hb. lia.
Qed.

Lemma commit_header s h0 : disk_at (apply_writes (disk s) (commit_writes s h0)) (start (log s)) = h0.
Proof. unfold commit_writes. rewrite !apply_writes_app. cbn. by rewrite disk_at_insert, decide_True. Qed.

(** ** Recovery *)

(** The home blocks that recovery will leave on disk [d] are [v]. *)
Definition recoverable (st sz : Z) (d : gmap Z block) (v : Z -> block) : Prop :=
  exists bs, decode (disk_at d st) = bs /\ Z.of_nat (length bs) < sz /\ NoDup bs /\
    Forall (home st sz) bs /\
    (forall k b, bs !! k = Some b -> disk_at d (st + Z.of_nat k + 1) = v b) /\
    (forall b, home st sz b -> b ∉ bs -> disk_at d b = v b).

(** Disks that agree on the log and outside it. *)
Lemma recoverable_installs st sz d v bs ws :
  decode (disk_at d st) = bs -> Z.of_nat (length bs) < sz -> NoDup bs -> Forall (home st sz) bs ->
  (forall k b, bs !! k = Some b -> disk_at d (st + Z.of_nat k + 1) = v b) ->
  (forall b, home st sz b -> b ∉ bs -> disk_at d b = v b) ->
  Forall (fun w => w.1 ∈ bs /\ w.2 = v w.1) ws ->
  recoverable st sz (apply_writes d ws) v.
Proof.
  intros Hd Hl Hnd Hh Hlog Hrest Hws. rewrite Forall_forall in Hws. rewrite Forall_forall in Hh.
  assert (Hk : forall b, b ∈ ws.*1 -> home st sz b).
  { intros b [w [-> Hw]]%list_elem_of_fmap. apply Hh. by apply Hws. }
  exists bs. split_and!; try done.
  - rewrite apply_writes_notin; [done|]. intros Hin%Hk. apply home_not_start in Hin; [done|lia].
  - by apply Forall_forall.
  - intros k b Hkb. rewrite apply_writes_notin; [by apply Hlog|]. intros Hin%Hk.
    apply lookup_lt_Some in Hkb. unfold home in Hin. lia.
  - intros b Hb Hnb. rewrite apply_writes_notin; [by apply Hrest|].
    intros [w [-> Hw]]%list_elem_of_fmap. apply Hnb. by apply Hws.
Qed.

Lemma recoverable_clean st sz d v :
  0 < sz -> decode (disk_at d st) = [] -> (forall b, home st sz b -> disk_at d b = v b) -> recoverable st sz d v.
Proof.
  intros Hz Hd Hh. exists []. split_and!; try done; try constructor. intros b Hb _. by apply Hh.
Qed.

Lemma take_cases {A} k (l : list A) x :
  (take k (l ++ [x]) = take k l /\ (k <= length l)%nat) \/ take k (l ++ [x]) = l ++ [x].
Proof.
  destruct (decide (k <= length l)%nat) as [H|H]; [left|right].
  - by rewrite take_app_le.
  - rewrite take_ge; [done|]. rewrite length_app. cbn. lia.
Qed.

Lemma Forall_take_sub {A} (P : A -> Prop) k l : Forall P l -> Forall P (take k l).
Proof. intros H. by apply Forall_take. Qed.

Lemma recover_spec st sz d v : recoverable st sz d v ->
  exists r, recover_from_log (boot d st sz) = Ret tt r /\ disk r = apply_writes d (trace r) /\
    decode (disk_at (disk r) st) = [] /\ (forall b, home st sz b -> disk_at (disk r) b = v b) /\
    forall k, recoverable st sz (apply_writes d (take k (trace r))) v.
Proof.
  intros (bs & Hd & Hl & Hnd & Hh & Hlog & Hrest).
  set (s1 := mk_dstate d ∅ [] (mk_log st sz 0 false bs)).
  assert (E1 : read_head (boot d st sz) = Ret tt s1).
  { assert (Hv : view (boot d st sz) st = disk_at d st) by (apply view_uncached, lookup_empty).
    unfold read_head, gets, bread, bind, set_lh, modify, gets. cbv beta. change (start (log (boot d st sz))) with st. rewrite Hv.
    unfold decode in Hd. by rewrite Hd. }
  set (W := (fun b => (b, v b)) <$> bs).
  assert (E2 : install_trans s1 = Ret tt (wrote s1 W (deletes ∅ bs))).
  { unfold install_trans, gets, bind. rewrite install_loop_spec by (done || lia). do 2 f_equal.
    apply installs_map. intros k b Hk. rewrite Z.add_0_r, view_uncached by apply lookup_empty. by apply Hlog. }
  set (s2 := mk_dstate (apply_writes d W) (deletes ∅ bs) W (mk_log st sz 0 false [])).
  set (h0 := header (view s2 st) []).
  assert (Hh0 : decode h0 = []) by (apply decode_header; [unfold LOGSIZE, MAXOPBLOCKS; cbn; lia|constructor]).
  assert (HW : Forall (fun w => w.1 ∈ bs /\ w.2 = v w.1) W).
  { apply Forall_forall. intros w [b [-> Hb]]%list_elem_of_fmap. done. }
  assert (Hhome : forall b, home st sz b -> disk_at (apply_writes d (W ++ [(st, h0)])) b = v b).
  { intros b Hb. rewrite apply_writes_app. cbn. rewrite disk_at_insert, decide_False by off_start.
    destruct (decide (b ∈ bs)) as [Hin|Hout]; [by apply apply_map|].
    rewrite apply_writes_notin; [by apply Hrest|]. unfold W. rewrite <- list_fmap_compose. by rewrite list_fmap_id. }
  assert (Hst : disk_at (apply_writes d (W ++ [(st, h0)])) st = h0).
  { rewrite apply_writes_app. cbn. by rewrite disk_at_insert, decide_True. }
  exists (mk_dstate (apply_writes d (W ++ [(st, h0)])) (delete st (deletes ∅ bs)) (W ++ [(st, h0)])
    (mk_log st sz 0 false [])).
  split.
  { unfold recover_from_log. rewrite (bind_Ret _ _ _ _ _ E1), (bind_Ret _ _ _ _ _ E2). cbn. by rewrite apply_writes_app. }
  cbn [disk trace]. split; [done|]. split; [by rewrite Hst|]. split; [done|].
  intros k. destruct (take_cases k W (st, h0)) as [[-> _]| ->].
  - by apply (recoverable_installs st sz d v bs); [..|apply Forall_take_sub].
  - apply recoverable_clean; [lia|by rewrite Hst|done].
Qed.

(** ** Every prefix of a commit is recoverable *)

Lemma commit_prefix s h0 k : log_ready s -> decode h0 = [] ->
  let d := apply_writes (disk s) (take k (commit_writes s h0)) in
  recoverable (start (log s)) (size (log s)) d (disk_at (disk s)) \/ recoverable (start (log s)) (size (log s)) d (view s).
Proof.
  intros Hr Hh0 d. pose proof (lr_pos s Hr) as Hz. set (sz := size (log s)) in *. set (st := start (log s)) in *. set (bs := lh_block (log s)).
  set (W1 := logged (view s) st 0 bs). set (h1 := header (disk_at (disk s) st) bs).
  assert (Hlog : forall w, w ∈ W1.*1 -> ~ home st sz w).
  { intros w Hw%logged_fst Hb. pose proof (lr_size s Hr). fold bs sz in H. unfold home in Hb. lia. }
  destruct (decide (k <= length W1)%nat) as [Hk|Hk].
  - (* before the header: the old state *)
    left. assert (Ed : d = apply_writes (disk s) (take k W1)).
    { unfold d, commit_writes. fold st bs W1. by rewrite take_app_le. }
    assert (Hsub : forall w, w ∈ (take k W1).*1 -> w ∈ W1.*1).
    { intros w. rewrite fmap_take. apply subseteq_take. }
    apply recoverable_clean; [done|..]; rewrite Ed.
    + rewrite apply_writes_notin; [apply Hr|]. intros Hin%Hsub. by apply start_not_logged in Hin.
    + intros b Hb. apply apply_writes_notin. intros Hin%Hsub. by apply (Hlog b).
  - (* from the header on: the new state *)
    right. set (d1 := apply_writes (disk s) (W1 ++ [(st, h1)])).
    assert (Ed : d = apply_writes d1 (take (k - length W1 - 1) (home_writes s ++ [(st, h0)]))).
    { unfold d, d1, commit_writes. fold st bs W1 h1. rewrite <- apply_writes_app. f_equal.
      rewrite take_app_ge by lia. rewrite <- app_assoc. f_equal.
      replace (k - length W1)%nat with (S (k - length W1 - 1)) by lia. cbn. by rewrite Nat.sub_0_r. }
    assert (Hd1 : forall b, b <> st -> disk_at d1 b = disk_at (apply_writes (disk s) W1) b).
    { intros b Hb. unfold d1. rewrite apply_writes_app. cbn. by rewrite disk_at_insert, decide_False by congruence. }
    assert (Hrest : forall b, home st sz b -> b ∉ bs -> disk_at d1 b = view s b).
    { intros b Hb Hnb. rewrite Hd1 by off_start.
      rewrite apply_writes_notin by (intros Hin; by apply (Hlog b)). symmetry. apply view_uncached, (lr_cached s Hr b Hnb). }
    assert (Hdec : decode (disk_at d1 st) = bs).
    { unfold d1. rewrite apply_writes_app. cbn. rewrite disk_at_insert, decide_True by done.
      apply decode_header; [apply (lr_len s Hr)|apply (lr_range s Hr)]. }
    rewrite Ed. destruct (take_cases (k - length W1 - 1) (home_writes s) (st, h0)) as [[-> _]| ->].
    + apply (recoverable_installs st sz d1 (view s) bs); try done; try apply Hr.
      * intros i b Hi. rewrite Hd1 by lia. pose proof (logged_elem (view s) st bs 0 i b Hi) as Hin.
        rewrite Z.add_0_r in Hin. apply apply_writes_in; [apply logged_nodup|exact Hin].
      * apply Forall_take_sub, Forall_forall. unfold home_writes. intros w [b [-> Hb]]%list_elem_of_fmap. done.
    + rewrite apply_writes_app. apply recoverable_clean; [done|..]; cbn.
      * by rewrite disk_at_insert, decide_True.
      * intros b Hb. rewrite disk_at_insert, decide_False by off_start.
        destruct (decide (b ∈ bs)) as [Hin|Hout]; [by apply apply_map; [apply Hr|]|].
        rewrite apply_writes_notin; [by apply Hrest|]. by rewrite home_writes_fst.
Qed.

(** ** Claims *)

Lemma commit_atomic s :
  log_ready s -> lh_block (log s) <> [] ->
  exists s' ws, commit s = Ret tt s' /\ trace s' = trace s ++ ws /\ lh_block (log s') = [] /\
    (forall b, home (start (log s)) (size (log s)) b -> disk_at (disk s') b = view s b) /\
    forall k, exists r,
      recover_from_log (boot (apply_writes (disk s) (take k ws)) (start (log s)) (size (log s))) = Ret tt r /\
      ((forall b, home (start (log s)) (size (log s)) b -> disk_at (disk r) b = disk_at (disk s) b) \/
       (forall b, home (start (log s)) (size (log s)) b -> disk_at (disk r) b = view s b)).
Proof.
  intros Hr Hne. destruct (commit_spec s Hr Hne) as (h0 & s' & E & Hh0 & Hd & Ht & _ & Hlg).
  exists s', (commit_writes s h0). split; [done|]. split; [done|]. split; [by rewrite Hlg|]. split.
  - intros b Hb. rewrite Hd. by apply commit_home.
  - intros k. destruct (commit_prefix s h0 k Hr Hh0) as [Hrec|Hrec];
      destruct (recover_spec _ (size (log s)) _ _ Hrec) as (r & Er & _ & _ & Hv & _); exists r; auto.
Qed.

(** C5. Commit is atomic under crashes.  [commit] returns with all modified
    blocks at home and the log empty; and if the machine stops after any
    number [k] of its block writes, recovery on what is then on disk brings
    every block outside the log to its contents before the transaction or
    every one to its contents after it. *)
Theorem commit_crash_atomic s :
  log_ready s -> lh_block (log s) <> [] ->
  exists s' ws, commit s = Ret tt s' /\ trace s' = trace s ++ ws /\ lh_block (log s') = [] /\
    (forall b, home (start (log s)) (size (log s)) b -> disk_at (disk s') b = view s b) /\
    forall k, exists r,
      recover_from_log (boot (apply_writes (disk s) (take k ws)) (start (log s)) (size (log s))) = Ret tt r /\
      ((forall b, home (start (log s)) (size (log s)) b -> disk_at (disk r) b = disk_at (disk s) b) \/
       (forall b, home (start (log s)) (size (log s)) b -> disk_at (disk r) b = view s b)).
Proof. apply commit_atomic. Qed.

(** C24. Recovery may itself be interrupted: if the machine stops after any
    number of recovery's own writes, the next recovery ends with the same
    contents outside the log, and with an empty log. *)
Theorem recovery_restartable st sz d v :
  recoverable st sz d v ->
  exists r, recover_from_log (boot d st sz) = Ret tt r /\
    (forall b, home st sz b -> disk_at (disk r) b = v b) /\
    forall k, exists r', recover_from_log (boot (apply_writes d (take k (trace r))) st sz) = Ret tt r' /\
      decode (disk_at (disk r') st) = [] /\ forall b, home st sz b -> disk_at (disk r') b = v b.
Proof.
  intros Hrec. destruct (recover_spec st sz d v Hrec) as (r & E & _ & _ & Hv & Hk).
  exists r. split; [done|]. split; [done|]. intros k.
  destruct (recover_spec st sz _ v (Hk k)) as (r' & E' & _ & Hdec & Hv' & _). by exists r'.
Qed.

(** ** Log space

    FS system calls in progress, each with the number of [log_write]s it may
    still make. *)
Record ops := mk_ops { dst : dstate; budgets : list Z }.

Fixpoint sum (l : list Z) : Z := match l with [] => 0 | x :: l' => x + sum l' end.

Inductive op_step : ops -> ops -> Prop :=
| os_begin s s' bud : begin_op_turn s = Ret true s' -> op_step (mk_ops s bud) (mk_ops s' (MAXOPBLOCKS :: bud))
| os_write s s' bud i n b x :
    bud !! i = Some n -> 0 < n -> log_write b x s = Ret tt s' ->
    op_step (mk_ops s bud) (mk_ops s' (<[i := n - 1]> bud))
| os_end s s' bud1 n bud2 :
    end_op_enter s = Ret false s' -> op_step (mk_ops s (bud1 ++ n :: bud2)) (mk_ops s' (bud1 ++ bud2))
| os_commit s s1 s' n :
    end_op s = Ret tt s' -> end_op_enter s = Ret true s1 -> op_step (mk_ops s [n]) (mk_ops s' []).

Record ops_ok (o : ops) : Prop := {
  oo_out : outstanding (log (dst o)) = Z.of_nat (length (budgets o));
  oo_idle : committing (log (dst o)) = false;
  oo_bud : Forall (fun n => 0 <= n <= MAXOPBLOCKS) (budgets o);
  oo_space : Z.of_nat (length (lh_block (log (dst o)))) + sum (budgets o) <= LOGSIZE;
  oo_nodup : NoDup (lh_block (log (dst o)));
  oo_size : LOGSIZE < size (log (dst o))
}.

Lemma sum_app l1 l2 : sum (l1 ++ l2) = sum l1 + sum l2.
Proof. induction l1 as [|x l1 IH]; cbn; lia. Qed.

Lemma sum_bound l : Forall (fun n => 0 <= n <= MAXOPBLOCKS) l -> 0 <= sum l <= Z.of_nat (length l) * MAXOPBLOCKS.
Proof. unfold MAXOPBLOCKS. induction 1 as [|x l Hx _ IH]; cbn; lia. Qed.

Lemma sum_insert l : forall i n m, l !! i = Some n -> sum (<[i := m]> l) = sum l - n + m.
Proof.
  induction l as [|x l IH]; intros i n m Hi; [done|]. destruct i as [|i]; cbn in Hi.
  - simplify_eq. cbn. lia.
  - change (<[S i := m]> (x :: l)) with (x :: <[i := m]> l). cbn [sum]. rewrite (IH i n m Hi). lia.
Qed.

Lemma sum_ge l : Forall (fun n => 0 <= n <= MAXOPBLOCKS) l -> forall i n, l !! i = Some n -> n <= sum l.
Proof.
  induction 1 as [|x l Hx Hl IH]; intros i n Hi; [done|]. pose proof (sum_bound l Hl).
  destruct i as [|i]; cbn in *; [simplify_eq; lia|]. specialize (IH i n Hi). lia.
Qed.

(** [commit] empties the header and changes nothing else of the log. *)
Lemma install_loop_log bs : forall tail s s', install_loop tail bs s = Ret tt s' -> log s' = log s.
Proof.
  induction bs as [|b bs IH]; intros tail s s' E; cbn [install_loop] in E.
  - by injection E as <-.
  - apply IH in E. exact E.
Qed.
Lemma write_log_loop_log bs : forall tail s s', write_log_loop tail bs s = Ret tt s' -> log s' = log s.
Proof.
  induction bs as [|b bs IH]; intros tail s s' E; cbn [write_log_loop] in E.
  - by injection E as <-.
  - apply IH in E. exact E.
Qed.
Lemma commit_log s s' : commit s = Ret tt s' ->
  log s' = mk_log (start (log s)) (size (log s)) (outstanding (log s)) (committing (log s)) [].
Proof.
  unfold commit, gets, bind at 1. destruct (Z.ltb_spec 0 (Z.of_nat (length (lh_block (log s))))) as [|H].
  - intros E. kinv E. destruct a. unfold write_log, gets, bind in E0. apply write_log_loop_log in E0.
    kinv E. injection E1 as _ <-. kinv E. destruct a0. unfold install_trans, gets, bind in E1.
    apply install_loop_log in E1. injection E as <-. cbn in *. by rewrite E1, E0.
  - intros [= <-]. destruct (log s) as [st sz o c [|b bs]]; [done|cbn in H; lia].
Qed.

(** A [log_write] within the budget. *)
Lemma log_write_fits o i n b x : ops_ok o -> budgets o !! i = Some n -> 0 < n ->
  exists lh, log_write b x (dst o) = Ret tt (mk_dstate (disk (dst o)) (<[b := x]> (cached (dst o))) (trace (dst o))
      (mk_log (start (log (dst o))) (size (log (dst o))) (outstanding (log (dst o)))
         (committing (log (dst o))) lh)) /\
    NoDup lh /\ b ∈ lh /\ Z.of_nat (length lh) <= Z.of_nat (length (lh_block (log (dst o)))) + 1.
Proof.
  intros Hok Hi Hn. pose proof (sum_ge _ (oo_bud o Hok) i n Hi) as Hs. pose proof (oo_space o Hok) as Hsp.
  pose proof (oo_size o Hok) as Hz. pose proof (lookup_lt_Some _ _ _ Hi) as Hlt.
  unfold log_write, gets, bind at 1. set (l := log (dst o)) in *.
  rewrite (proj2 (Z.leb_gt LOGSIZE _)), (proj2 (Z.leb_gt (size l - 1) _)) by lia. cbn [orb].
  rewrite (proj2 (Z.ltb_ge _ _)) by (unfold l; rewrite (oo_out o Hok); lia).
  case_bool_decide as Hb.
  - exists (lh_block l). split; [done|]. split; [apply Hok|]. split; [done|lia].
  - exists (lh_block l ++ [b]). split; [done|]. split; [|split; [|rewrite length_app; cbn; lia]].
    + apply NoDup_app. split; [apply Hok|]. split; [|apply NoDup_singleton].
      intros c Hc ->%list_elem_of_singleton. done.
    + apply elem_of_app. right. by apply list_elem_of_singleton.
Qed.

Lemma op_step_ok o o' : ops_ok o -> op_step o o' -> ops_ok o'.
Proof.
  intros Hok Hs. revert Hok. destruct Hs as [s s' bud E|s s' bud i n b x Hi Hn E|s s' bud1 n bud2 E|s s1 s' n E E1];
    intros Hok; pose proof Hok as [H1 H2 H3 H4 H5 H6]; cbn [dst budgets] in H1, H2, H3, H4, H5, H6.
  - unfold begin_op_turn, gets, bind in E. rewrite H2 in E.
    destruct (Z.ltb_spec LOGSIZE (Z.of_nat (length (lh_block (log s))) + (outstanding (log s) + 1) * MAXOPBLOCKS)); [done|].
    injection E as <-. pose proof (sum_bound _ H3). split; cbn; try done; [lia| |].
    + apply Forall_cons. split; [unfold MAXOPBLOCKS; lia|done].
    + rewrite H1 in *. lia.
  - destruct (log_write_fits _ i n b x Hok Hi Hn) as (lh & E' & Hnd & _ & Hlen). cbn [dst] in E'. rewrite E in E'.
    injection E' as ->. split; cbn; try done; [by rewrite length_insert| |].
    + apply Forall_insert; [done|]. rewrite Forall_forall in H3.
      specialize (H3 n (list_elem_of_lookup_2 _ _ _ Hi)). lia.
    + cbn in Hlen. rewrite (sum_insert _ _ n) by done. lia.
  - unfold end_op_enter, gets, bind in E. cbn in E. rewrite H2 in E.
    destruct (Z.eqb_spec (outstanding (log s) - 1) 0); [done|]. injection E as <-.
    rewrite length_app in H1. rewrite sum_app in H4. cbn [length sum] in *.
    apply Forall_app in H3 as [H3 [Hn H3']%Forall_cons]. split; cbn; try done.
    + rewrite length_app. lia.
    + by apply Forall_app.
    + rewrite sum_app. lia.
  - unfold end_op in E. rewrite (bind_Ret _ _ _ _ _ E1) in E. kinv E. destruct a. apply commit_log in E0. injection E as <-.
    unfold end_op_enter, gets, bind in E1. cbn in E1. rewrite H2 in E1.
    destruct (Z.eqb_spec (outstanding (log s) - 1) 0) as [E2|]; [|done]. injection E1 as <-. cbn in E0.
    split; cbn; rewrite ?E0; cbn; try done; constructor.
Qed.

Inductive ops_reachable (o0 : ops) : ops -> Prop :=
| or_init : ops_reachable o0 o0
| or_step o o' : ops_reachable o0 o -> op_step o o' -> ops_reachable o0 o'.

Lemma ops_reachable_ok o0 o : ops_ok o0 -> ops_reachable o0 o -> ops_ok o.
Proof. intros H0 Hr. induction Hr as [|o o' _ IH Hs]; [done|]. by apply (op_step_ok o). Qed.

(** C25. In a log of more than [LOGSIZE] blocks [begin_op]'s reservation is enough: in every state that calls of
    [begin_op], [log_write] and [end_op] reach from an idle log, an FS system
    call that has not used up its [MAXOPBLOCKS] can [log_write] any block
    without the panic "too big a transaction", and no block is in the header
    twice. *)
Theorem log_space_reserved o0 o i n b x :
  ops_ok o0 -> ops_reachable o0 o -> budgets o !! i = Some n -> 0 < n ->
  NoDup (lh_block (log (dst o))) /\ exists s', log_write b x (dst o) = Ret tt s' /\ view s' b = x.
Proof.
  intros H0 Hr Hi Hn. assert (Hok := ops_reachable_ok _ _ H0 Hr). split; [apply Hok|].
  destruct (log_write_fits o i n b x Hok Hi Hn) as (lh & E & _). eexists. split; [exact E|].
  unfold view. cbn. by rewrite lookup_insert_eq.
Qed.

(** One process's steps, run: [begin_op], or a [log_write] by call [i]. *)
Definition op_begin (o : ops) : option ops :=
  match begin_op_turn (dst o) with Ret true s' => Some (mk_ops s' (MAXOPBLOCKS :: budgets o)) | _ => None end.
Definition op_write (o : ops) (ib : nat * Z) : option ops :=
  match budgets o !! ib.1 with
  | Some n =>
      if 0 <? n then
        match log_write ib.2 ∅ (dst o) with
        | Ret _ s' => Some (mk_ops s' (<[ib.1 := n - 1]> (budgets o)))
        | _ => None
        end
      else None
  | None => None
  end.
Fixpoint op_writes (o : ops) (l : list (nat * Z)) : option ops :=
  match l with [] => Some o | ib :: l' => match op_write o ib with Some o' => op_writes o' l' | None => None end end.

Lemma op_begin_reachable o0 o o' : ops_reachable o0 o -> op_begin o = Some o' -> ops_reachable o0 o'.
Proof.
  intros Hr. unfold op_begin. destruct o as [s bud]. cbn [dst budgets]. destruct (begin_op_turn s) as [[|] s'| | |] eqn:E; try done.
  intros H. simplify_eq. eapply or_step; [exact Hr|]. by apply os_begin.
Qed.
Lemma op_writes_reachable o0 l : forall o o', ops_reachable o0 o -> op_writes o l = Some o' -> ops_reachable o0 o'.
Proof.
  induction l as [|[i b] l IH]; intros o o' Hr E; cbn in E; [by injection E as <-|].
  destruct (op_write o (i, b)) as [o1|] eqn:E1; [|done]. refine (IH o1 o' _ E). eapply or_step; [exact Hr|].
  destruct o as [s bud]. unfold op_write in E1. cbn [dst budgets fst snd] in E1. destruct (bud !! i) as [n|] eqn:En; [|done].
  destruct (Z.ltb_spec 0 n); [|done]. destruct (log_write b ∅ s) as [[] s'| | |] eqn:Ew; try done.
  injection E1 as <-. by eapply os_write.
Qed.

(** C26. The reservation counts [LOGSIZE] data blocks, but a log of [LOGSIZE] blocks
    in all, which is what [mkfs] makes, has one fewer.  Three calls that
    [begin_op] admitted can fill it: they are all within their [MAXOPBLOCKS],
    one of them has a block left, and whatever block it then passes to
    [log_write], the kernel panics. *)
Theorem log_space_short d st :
  exists o, ops_reachable (mk_ops (boot d st LOGSIZE) []) o /\ budgets o = [1; 0; 0] /\
    forall b x, log_write b x (dst o) = Panic "too big a transaction".
Proof.
  set (o0 := mk_ops (boot d st LOGSIZE) []).
  assert (exists o1 o2 o3 o4, op_begin o0 = Some o1 /\ op_begin o1 = Some o2 /\ op_begin o2 = Some o3 /\
    op_writes o3 ((fun k => ((2 - k / 10)%nat, 100 + Z.of_nat k)) <$> seq 0 29) = Some o4 /\
    budgets o4 = [1; 0; 0] /\ forall b x, log_write b x (dst o4) = Panic "too big a transaction")
    as (o1 & o2 & o3 & o4 & E1 & E2 & E3 & E4 & Hb & Hp).
  { do 4 eexists. split_and!; [vm_compute; reflexivity..|by intros b x]. }
  exists o4. split; [|done]. eapply op_writes_reachable; [|exact E4].
  do 3 (eapply op_begin_reachable; [|eassumption]). apply or_init.
Qed.

(** ** Witnesses *)

(** Block 40 modified in a file system whose log has the place and the size that
    [mkfs] gives it. *)
Definition ex_log : dstate :=
  mk_dstate ∅ {[40 := {[0 := 7]}]} [] (mk_log 2 30 0 true [40]).

Lemma ex_log_ready : log_ready ex_log.
Proof.
  split.
  - by vm_compute.
  - by vm_compute.
  - apply NoDup_singleton.
  - apply Forall_singleton. lia.
  - apply Forall_singleton. right. by vm_compute.
  - intros b Hb. apply lookup_singleton_ne. intros <-. apply Hb. apply list_elem_of_here.
  - reflexivity.
Qed.

Lemma commit_crash_atomic_witness : exists s', commit ex_log = Ret tt s' /\ lh_block (log s') = [].
Proof.
  destruct (commit_crash_atomic ex_log ex_log_ready) as (s' & ws & E & _ & Hl & _); [done|].
  exists s'. split; [exact E|exact Hl].
Defined.

Lemma recovery_restartable_witness : exists r, recover_from_log (boot ∅ 2 30) = Ret tt r.
Proof.
  destruct (recovery_restartable 2 30 ∅ (fun _ => ∅)) as (r & E & _).
  - apply recoverable_clean; [lia|reflexivity|done].
  - exists r. exact E.
Defined.

Lemma log_space_reserved_witness :
  exists s', log_write 40 ∅ (mk_dstate ∅ ∅ [] (mk_log 2 31 1 false [])) = Ret tt s' /\ view s' 40 = ∅.
Proof.
  apply (log_space_reserved (mk_ops (mk_dstate ∅ ∅ [] (mk_log 2 31 1 false [])) [MAXOPBLOCKS])
    (mk_ops (mk_dstate ∅ ∅ [] (mk_log 2 31 1 false [])) [MAXOPBLOCKS]) 0 MAXOPBLOCKS).
  - split; cbn; try done; [apply Forall_singleton; by vm_compute|constructor].
  - constructor.
  - reflexivity.
  - by vm_compute.
Defined.
