(* ===== verification/Bio.v ===== *)
(** * The buffer cache (bio.c) on the in-memory disk (memide.c)

    Buffers are the array [bcache.buf], a [struct buf *] an index of it; the
    index [NBUF] is [bcache.head].  The recency list is the doubly linked list
    the code keeps, with its [prev] and [next] fields.  The code runs in one
    process: a buffer that it has to wait for ([acquiresleep]) is one that it
    holds itself. *)
From S2P Require Import Prelude Memory Mmu Log.

Definition NBUF : nat := 30.
Definition head : nat := NBUF.

Definition B_VALID : Z := 0x2.
Definition B_DIRTY : Z := 0x4.

Record buf := mk_buf {
  flags : Z;
  dev : Z;
  blockno : Z;
  block_held : bool;   (* the sleep lock *)
  refcnt : Z;
  bdata : block
}.

Record bstate := mk_bstate {
  bufs : nat -> buf;
  prev : nat -> nat;
  next : nat -> nat;
  memdisk : gmap Z block;
  disksize : Z
}.

Definition B := M bstate.

Definition fupd {A} (f : nat -> A) (i : nat) (x : A) : nat -> A :=
  fun j => if decide (j = i) then x else f j.

Definition upd_buf (i : nat) (b : buf) : B unit :=
  modify (fun s => mk_bstate (fupd (bufs s) i b) (prev s) (next s) (memdisk s) (disksize s)).
Definition set_prev (i v : nat) : B unit :=
  modify (fun s => mk_bstate (bufs s) (fupd (prev s) i v) (next s) (memdisk s) (disksize s)).
Definition set_next (i v : nat) : B unit :=
  modify (fun s => mk_bstate (bufs s) (prev s) (fupd (next s) i v) (memdisk s) (disksize s)).
Definition get_buf (i : nat) : B buf := gets (fun s => bufs s i).
Definition get_next (i : nat) : B nat := gets (fun s => next s i).
Definition get_prev (i : nat) : B nat := gets (fun s => prev s i).

(** ** Code *)

(** memide.c.  [_binary_fs_img_start] and [_binary_fs_img_size] are symbols of the
    linker: the image, by block, and its size in bytes. *)
Definition ideinit (img : gmap Z block) (img_size : Z) : B unit :=
  modify (fun s => mk_bstate (bufs s) (prev s) (next s) img (u32 img_size / BSIZE)).

Definition ideintr : B unit := ret tt.

Definition iderw (i : nat) : B unit :=
  let* b := get_buf i in
  let* n := gets disksize in
  if negb (block_held b) then panic "iderw: buf not locked"
  else if Z.land (flags b) (Z.lor B_VALID B_DIRTY) =? B_VALID then panic "iderw: nothing to do"
  else if negb (dev b =? 1) then panic "iderw: request not for disk 1"
  else if n <=? blockno b then panic "iderw: block out of range"
  else if has (flags b) B_DIRTY then
    do* upd_buf i (mk_buf (set (clear (flags b) B_DIRTY) B_VALID) (dev b) (blockno b) (block_held b)
                     (refcnt b) (bdata b)) in
    modify (fun s => mk_bstate (bufs s) (prev s) (next s) (<[blockno b := bdata b]> (memdisk s)) (disksize s))
  else
    let* d := gets memdisk in
    upd_buf i (mk_buf (set (flags b) B_VALID) (dev b) (blockno b) (block_held b) (refcnt b)
                 (disk_at d (blockno b))).

(** The insertion of one buffer behind the head in [binit]. *)
Definition link_front (b : nat) : B unit :=
  let* n := get_next head in
  do* set_next b n in
  do* set_prev b head in
  let* n := get_next head in
  do* set_prev n b in
  set_next head b.

Fixpoint binit_loop (n : nat) (b : nat) : B unit :=
  match n with
  | O => ret tt
  | S k => do* link_front b in binit_loop k (S b)
  end.
Definition binit : B unit :=
  do* set_prev head head in
  do* set_next head head in
  binit_loop NBUF 0.

(** The scans of [bget]: from [b] along [step], up to the head. *)
Fixpoint scan (fuel : nat) (step : nat -> nat) (f : nat -> bool) (b : nat) : option nat :=
  match fuel with
  | O => None
  | S k => if decide (b = head) then None
           else if f b then Some b
           else scan k step f (step b)
  end.

Definition acquiresleep (i : nat) : B unit :=
  let* b := get_buf i in
  if block_held b then fault "acquiresleep: deadlock"
  else upd_buf i (mk_buf (flags b) (dev b) (blockno b) true (refcnt b) (bdata b)).

Definition cached_at (s : bstate) (d n : Z) (i : nat) : bool :=
  (dev (bufs s i) =? d) && (blockno (bufs s i) =? n).
Definition free_clean (s : bstate) (i : nat) : bool :=
  (refcnt (bufs s i) =? 0) && (Z.land (flags (bufs s i)) B_DIRTY =? 0).

Definition bget (d n : Z) : B nat :=
  let* s := get in
  match scan (S NBUF) (next s) (cached_at s d n) (next s head) with
  | Some i =>
      let* b := get_buf i in
      do* upd_buf i (mk_buf (flags b) (dev b) (blockno b) (block_held b) (u32 (refcnt b + 1)) (bdata b)) in
      do* acquiresleep i in
      ret i
  | None =>
      match scan (S NBUF) (prev s) (free_clean s) (prev s head) with
      | Some i =>
          let* b := get_buf i in
          do* upd_buf i (mk_buf 0 d n (block_held b) 1 (bdata b)) in
          do* acquiresleep i in
          ret i
      | None => panic "bget: no buffers"
      end
  end.

Definition bread (d n : Z) : B nat :=
  let* i := bget d n in
  let* b := get_buf i in
  if Z.land (flags b) B_VALID =? 0 then do* iderw i in ret i else ret i.

Definition bwrite (i : nat) : B unit :=
  let* b := get_buf i in
  if negb (block_held b) then panic "bwrite"
  else
    do* upd_buf i (mk_buf (set (flags b) B_DIRTY) (dev b) (blockno b) (block_held b) (refcnt b) (bdata b)) in
    iderw i.

(** [unlink]: the first two assignments of [brelse]'s relinking. *)
Definition unlink (b : nat) : B unit :=
  let* nx := get_next b in
  let* pv := get_prev b in
  do* set_prev nx pv in
  let* pv := get_prev b in
  let* nx := get_next b in
  set_next pv nx.

Definition brelse (i : nat) : B unit :=
  let* b := get_buf i in
  if negb (block_held b) then panic "brelse"
  else
    do* upd_buf i (mk_buf (flags b) (dev b) (blockno b) false (u32 (refcnt b - 1)) (bdata b)) in
    if u32 (refcnt b - 1) =? 0 then
      do* unlink i in
      link_front i
    else ret tt.

(** The owner of a locked buffer changes its contents. *)
Definition set_data (i : nat) (x : block) : B unit :=
  let* b := get_buf i in
  upd_buf i (mk_buf (flags b) (dev b) (blockno b) (block_held b) (refcnt b) x).
