(* ===== verification/BioProof.v ===== *)
(** * The buffer cache keeps its list and its contents

    The pointer structure of bio.c is a recency list, and what [bread] returns
    is the current contents of the block. *)
From S2P Require Import Prelude Memory Mmu Log Bio.

#[local] Opaque NBUF.

(** ** Doubly linked lists *)

Fixpoint chain (nx pv : nat -> nat) (l : list nat) : Prop :=
  match l with
  | a :: ((b :: _) as t) => nx a = b /\ pv b = a /\ chain nx pv t
  | _ => True
  end.

Lemma chain_cons nx pv a b t : chain nx pv (a :: b :: t) <-> nx a = b /\ pv b = a /\ chain nx pv (b :: t).
Proof. done. Qed.

Lemma chain_app nx pv a l2 : forall l1, chain nx pv (l1 ++ a :: l2) <-> chain nx pv (l1 ++ [a]) /\ chain nx pv (a :: l2).
Proof.
  induction l1 as [|x l1 IH]; [by cbn; tauto|]. destruct l1 as [|y l1].
  - cbn [app]. rewrite !chain_cons. cbn. tauto.
  - cbn [app] in *. rewrite !chain_cons. tauto.
Qed.

(** Nodes whose [next] (all but the last), respectively [prev] (all but the
    first), the chain constrains. *)
Lemma chain_next nx pv c v l : c ∉ removelast l -> chain (fupd nx c v) pv l <-> chain nx pv l.
Proof.
  induction l as [|a [|b t] IH]; [done|done|]. intros Hc. rewrite !chain_cons.
  change (removelast (a :: b :: t)) with (a :: removelast (b :: t)) in Hc. apply not_elem_of_cons in Hc as [Ha Hc].
  rewrite IH by done. unfold fupd at 1. by rewrite decide_False by congruence.
Qed.

Lemma chain_prev nx pv c v l : c ∉ tail l -> chain nx (fupd pv c v) l <-> chain nx pv l.
Proof.
  induction l as [|a [|b t] IH]; [done|done|]. intros Hc. rewrite !chain_cons. cbn in Hc.
  apply not_elem_of_cons in Hc as [Hb Hc]. rewrite IH by done. unfold fupd at 1. by rewrite decide_False by congruence.
Qed.

Lemma removelast_snoc (l : list nat) x : removelast (l ++ [x]) = l.
Proof. apply removelast_last. Qed.

(** The list of the cache: from the head round to the head. *)
Record linked (s : bstate) (order : list nat) : Prop := {
  ln_chain : chain (next s) (prev s) (head :: order ++ [head]);
  ln_nodup : NoDup order;
  ln_head : head ∉ order
}.

Definition same_but_links (s s' : bstate) : Prop :=
  bufs s' = bufs s /\ memdisk s' = memdisk s /\ disksize s' = disksize s.

Lemma link_front_spec s order b :
  linked s order -> b ∉ order -> b <> head ->
  exists s', link_front b s = Ret tt s' /\ same_but_links s s' /\ linked s' (b :: order).
Proof.
  intros [Hc Hnd Hh] Hb Hbh.
  destruct (order ++ [head]) as [|n R] eqn:E; [by destruct order|].
  assert (Hn : next s head = n) by (by destruct Hc).
  assert (Hnb : n <> b).
  { intros ->. destruct order as [|o order]; cbn [app] in E; injection E as E _; [congruence|].
    apply Hb. rewrite E. apply list_elem_of_here. }
  unfold link_front, get_next, set_next, set_prev, gets, modify, bind. cbn [next prev bufs memdisk disksize].
  rewrite Hn.
  eexists. split; [done|]. split; [done|]. split; [|by apply NoDup_cons|by apply not_elem_of_cons].
  cbn [next prev]. assert (Hfn : fupd (next s) b n head = n) by (unfold fupd; by rewrite decide_False).
  rewrite Hfn. change (b :: order) with ([b] ++ order). rewrite <- app_assoc, E. cbn [app].
  rewrite !chain_cons. destruct Hc as (_ & _ & Hc).
  assert (HnR : n ∉ R).
  { assert (Hnd' : NoDup (order ++ [head])) by (apply NoDup_app; split; [done|]; split;
      [intros x Hx ->%list_elem_of_singleton; done|apply NoDup_singleton]).
    rewrite E in Hnd'. by apply NoDup_cons in Hnd' as [? _]. }
  assert (HbR : b ∉ n :: R).
  { rewrite <- E. rewrite elem_of_app, list_elem_of_singleton. tauto. }
  split_and!.
  - unfold fupd. by rewrite decide_True.
  - unfold fupd. rewrite decide_False by done. by rewrite decide_True.
  - unfold fupd. rewrite decide_False by done. by rewrite decide_True.
  - unfold fupd. by rewrite decide_True.
  - rewrite chain_next.
    2:{ rewrite <- E, removelast_snoc. done. }
    rewrite chain_next by (rewrite <- E, removelast_snoc; done).
    rewrite !chain_prev; [done|..].
    + cbn. intros Hin. apply HbR. by right.
    + done.
Qed.

Lemma unlink_spec s A b B :
  linked s (A ++ b :: B) ->
  exists s', unlink b s = Ret tt s' /\ same_but_links s s' /\ linked s' (A ++ B).
Proof.
  intros [Hc Hnd Hh]. rewrite <- app_assoc in Hc. cbn [app] in Hc.
  destruct (exists_last (l := head :: A)) as (A' & x & EA); [done|].
  destruct (B ++ [head]) as [|y B'] eqn:EB; [by destruct B|].
  change (head :: A ++ b :: y :: B') with ((head :: A) ++ b :: y :: B') in Hc. rewrite EA, <- app_assoc in Hc.
  cbn [app] in Hc. apply chain_app in Hc as [Hc1 Hc2]. rewrite !chain_cons in Hc2.
  destruct Hc2 as (Hxb & Hbx & Hby & Hyb & Hc2).
  apply NoDup_app in Hnd as (HndA & HAB & HndB). apply NoDup_cons in HndB as [HbB HndB].
  rewrite elem_of_app, elem_of_cons in Hh.
  assert (Hx : x = head \/ x ∈ A).
  { assert (x ∈ head :: A) as [?|?]%elem_of_cons; [rewrite EA; apply elem_of_app; right; apply list_elem_of_here|auto|auto]. }
  assert (Hy : y = head \/ y ∈ B).
  { assert (y ∈ B ++ [head]) as [?|?%list_elem_of_singleton]%elem_of_app; [rewrite EB; apply list_elem_of_here|auto|auto]. }
  assert (Hbh : b <> head) by (intros ->; tauto).
  assert (HbA : b ∉ A) by (intros Hin; apply (HAB b Hin), list_elem_of_here).
  assert (Hyb' : y <> b) by (destruct Hy as [->|Hy]; congruence).
  unfold unlink, get_next, get_prev, set_next, set_prev, gets, modify, bind.
  cbn [next prev bufs memdisk disksize]. rewrite Hby, Hbx.
  assert (Hf : fupd (prev s) y x b = x) by (unfold fupd; by rewrite decide_False).
  rewrite Hf. eexists. split; [done|]. split; [done|]. cbn [next prev].
  split; [|apply NoDup_app; split; [done|]; split; [|done]|rewrite elem_of_app; tauto].
  2:{ intros z Hz Hz'. apply (HAB z Hz). by right. }
  cbn [next prev]. rewrite <- app_assoc, EB. change (head :: A ++ y :: B') with ((head :: A) ++ y :: B').
  rewrite EA, <- app_assoc. cbn [app]. apply chain_app. rewrite chain_cons.
  assert (HndA' : NoDup (A' ++ [x])) by (rewrite <- EA; apply NoDup_cons; tauto).
  assert (HndB' : NoDup (y :: B')).
  { rewrite <- EB. apply NoDup_app. split; [done|]. split; [|apply NoDup_singleton].
    intros z Hz ->%list_elem_of_singleton. tauto. }
  split; [|split; [unfold fupd; by rewrite decide_True|split; [unfold fupd; by rewrite decide_True|]]].
  - rewrite chain_next, chain_prev; [done| |].
    + rewrite <- EA. cbn. destruct Hy as [->|Hy]; [tauto|]. intros Hin. apply (HAB y Hin). by right.
    + rewrite removelast_snoc. apply NoDup_app in HndA' as (_ & H & _). intros Hin. apply (H x Hin), list_elem_of_here.
  - rewrite chain_next, chain_prev; [done| |].
    + cbn. by apply NoDup_cons in HndB' as [? _].
    + rewrite <- EB, removelast_snoc. destruct Hx as [->|Hx]; [tauto|]. intros Hin. apply (HAB x Hx). by right.
Qed.

(** ** [binit] and the scans *)

Lemma binit_loop_spec n : forall b s order,
  linked s order -> (forall i, i ∈ order -> (i < b)%nat) -> (b + n <= NBUF)%nat ->
  exists s', binit_loop n b s = Ret tt s' /\ same_but_links s s' /\ linked s' (reverse (seq b n) ++ order).
Proof.
  induction n as [|n IH]; intros b s order Hl Hlt Hn.
  - by exists s.
  - destruct (link_front_spec s order b Hl) as (s1 & E1 & (H1 & H2 & H3) & Hl1).
    + intros Hin%Hlt. lia.
    + unfold head. lia.
    + destruct (IH (S b) s1 (b :: order)) as (s' & E' & (G1 & G2 & G3) & Hl'); [done| |lia|].
      { intros i [->|Hi]%elem_of_cons; [lia|]. specialize (Hlt i Hi). lia. }
      exists s'. split; [cbn [binit_loop]; by rewrite (bind_Ret _ _ _ _ _ E1)|].
      split; [unfold same_but_links; split_and!; congruence|].
      cbn [seq]. by rewrite reverse_cons, <- app_assoc.
Qed.

Lemma binit_spec s : exists s', binit s = Ret tt s' /\ same_but_links s s' /\ linked s' (reverse (seq 0 NBUF)).
Proof.
  unfold binit. set (s1 := mk_bstate (bufs s) (fupd (prev s) head head) (fupd (next s) head head)
    (memdisk s) (disksize s)).
  assert (E1 : forall k : B unit, bind (set_prev head head) (fun _ => bind (set_next head head) (fun _ => k)) s = k s1) by done.
  destruct (binit_loop_spec NBUF 0 s1 []) as (s' & E' & H & Hl).
  - split; [|constructor|apply not_elem_of_nil]. cbn [app chain]. unfold s1, fupd. cbn [next prev].
    by rewrite !decide_True.
  - intros i Hi. by apply elem_of_nil in Hi.
  - lia.
  - exists s'. rewrite E1, app_nil_r in *. split; [exact E'|]. split; [exact H|exact Hl].
Qed.

Fixpoint first (f : nat -> bool) (l : list nat) : option nat :=
  match l with [] => None | x :: l' => if f x then Some x else first f l' end.

Lemma scan_chain f nx pv l : forall fuel a,
  chain nx pv (a :: l ++ [head]) -> head ∉ l -> (length l < fuel)%nat -> scan fuel nx f (nx a) = first f l.
Proof.
  induction l as [|x l IH]; intros fuel a Hc Hh Hf; (destruct fuel as [|fuel]; [cbn in Hf; lia|]).
  - destruct Hc as (-> & _). cbn [scan]. by rewrite decide_True.
  - cbn [app] in Hc. apply chain_cons in Hc as (-> & _ & Hc). apply not_elem_of_cons in Hh as [Hx Hh].
    cbn [scan first]. rewrite decide_False by congruence. destruct (f x); [done|].
    apply IH; [done|done|cbn in Hf; lia].
Qed.

Lemma chain_reverse nx pv l : chain nx pv l -> chain pv nx (reverse l).
Proof.
  induction l as [|a [|b t] IH]; [done|done|]. intros (H1 & H2 & Hc). specialize (IH Hc).
  rewrite reverse_cons. rewrite reverse_cons in IH |- *. rewrite <- app_assoc. cbn [app].
  apply chain_app. split; [done|]. by cbn.
Qed.

Section Scans.
Context (s : bstate) (order : list nat).
Hypothesis Hl : linked s order.
Hypothesis Hn : (length order <= NBUF)%nat.

Lemma scan_next f : scan (S NBUF) (next s) f (next s head) = first f order.
Proof using Hl Hn. apply (scan_chain f _ (prev s)); [apply Hl|apply Hl|lia]. Qed.

Lemma scan_prev f : scan (S NBUF) (prev s) f (prev s head) = first f (reverse order).
Proof using Hl Hn.
  apply (scan_chain f _ (next s)).
  - pose proof (chain_reverse _ _ _ (ln_chain s order Hl)) as Hc. rewrite reverse_cons, reverse_app in Hc. done.
  - rewrite elem_of_reverse. apply Hl.
  - rewrite length_reverse. lia.
Qed.
End Scans.

Lemma first_Some f l i : first f l = Some i -> i ∈ l /\ f i = true.
Proof.
  induction l as [|x l IH]; [done|]. cbn. destruct (f x) eqn:E.
  - intros [= ->]. split; [apply list_elem_of_here|done].
  - intros H. destruct (IH H). split; [by right|done].
Qed.

Lemma first_None f l i : first f l = None -> i ∈ l -> f i = false.
Proof.
  induction l as [|x l IH]; [by intros _ ?%elem_of_nil|]. cbn. destruct (f x) eqn:E; [done|].
  intros H [->|Hi]%elem_of_cons; auto.
Qed.

(** ** Contents *)

Definition valid (b : buf) : bool := has (flags b) B_VALID.
Definition dirty (b : buf) : bool := has (flags b) B_DIRTY.
Definition holds (b : buf) (n : Z) : Prop := dev b = 1 /\ blockno b = n.

Record bio_inv (s : bstate) (order : list nat) : Prop := {
  bi_linked : linked s order;
  bi_all : forall i, i ∈ order <-> (i < NBUF)%nat;
  bi_len : (length order <= NBUF)%nat;
  bi_uniq : forall i j n, (i < NBUF)%nat -> (j < NBUF)%nat -> holds (bufs s i) n -> holds (bufs s j) n -> i = j;
  bi_valid : forall i n, (i < NBUF)%nat -> holds (bufs s i) n -> valid (bufs s i) = true;
  bi_clean : forall i n, (i < NBUF)%nat -> holds (bufs s i) n ->
    dirty (bufs s i) = false -> bdata (bufs s i) = disk_at (memdisk s) n;
  bi_ref : forall i, (i < NBUF)%nat -> refcnt (bufs s i) = if block_held (bufs s i) then 1 else 0
}.

(** The current contents of block [n]. *)
Definition is_view (s : bstate) (n : Z) (x : block) : Prop :=
  (exists i, (i < NBUF)%nat /\ holds (bufs s i) n /\ bdata (bufs s i) = x) \/
  ((forall i, (i < NBUF)%nat -> ~ holds (bufs s i) n) /\ x = disk_at (memdisk s) n).

(** Replacing buffer [i] by [b], and the disk by [d]. *)
Definition with_buf (s : bstate) (i : nat) (b : buf) (d : gmap Z block) : bstate :=
  mk_bstate (fupd (bufs s) i b) (prev s) (next s) d (disksize s).

Lemma fupd_eq {A} (f : nat -> A) i x : fupd f i x i = x.
Proof. unfold fupd. by rewrite decide_True. Qed.
Lemma fupd_ne {A} (f : nat -> A) i j x : j <> i -> fupd f i x j = f j.
Proof. intros. unfold fupd. by rewrite decide_False. Qed.
Lemma fupd_twice {A} (f : nat -> A) i x y j : fupd (fupd f i x) i y j = fupd f i y j.
Proof. unfold fupd. by case_decide. Qed.

(** States with the same buffers, pointwise. *)
Definition beq (s s' : bstate) : Prop :=
  (forall i, bufs s' i = bufs s i) /\ prev s' = prev s /\ next s' = next s /\
  memdisk s' = memdisk s /\ disksize s' = disksize s.

#[export] Instance beq_equiv : Equivalence beq.
Proof.
  split; unfold beq.
  - done.
  - intros s s' (H & ? & ? & ? & ?). split_and!; done.
  - intros s1 s2 s3 (H & ? & ? & ? & ?) (H' & ? & ? & ? & ?). split_and!; congruence.
Qed.

#[export] Instance is_view_proper : Proper (beq ==> eq ==> eq ==> iff) is_view.
Proof.
  intros s s' (H & _ & _ & Hd & _) n ? <- x ? <-. unfold is_view. rewrite Hd. by setoid_rewrite H.
Qed.

#[export] Instance bio_inv_proper : Proper (beq ==> eq ==> iff) bio_inv.
Proof.
  assert (Hone : forall s s' order, beq s s' -> bio_inv s order -> bio_inv s' order).
  { intros s s' order (H & Hp & Hn & Hd & _) [[H1 H2 H3] H4 H5 H6 H7 H8 H9]. split; [split|..]; rewrite ?Hp, ?Hn; try done.
    - intros i j n. rewrite !H. apply H6.
    - intros i n. rewrite !H. apply H7.
    - intros i n. rewrite !H, Hd. apply H8.
    - intros i. rewrite !H. apply H9. }
  intros s s' E order ? <-. split; apply Hone; [done|by symmetry].
Qed.

(** ** Replacing one buffer *)

Section WithBuf.
Context (s : bstate) (order : list nat) (i : nat) (b : buf) (d : gmap Z block).
Hypothesis Hinv : bio_inv s order.
Hypothesis Hi : (i < NBUF)%nat.

Lemma with_buf_inv :
  (refcnt b = if block_held b then 1 else 0) ->
  (forall n, holds b n -> valid b = true) ->
  (forall n, holds b n -> dirty b = false -> bdata b = disk_at d n) ->
  (forall n j, holds b n -> j <> i -> (j < NBUF)%nat -> ~ holds (bufs s j) n) ->
  (forall j n, j <> i -> (j < NBUF)%nat -> holds (bufs s j) n -> disk_at d n = disk_at (memdisk s) n) ->
  bio_inv (with_buf s i b d) order.
Proof using Hinv.
  intros Hr Hv Hc Hu Hd. destruct Hinv as [[H1 H2 H3] H4 H5 H6 H7 H8 H9].
  split; [by split|done|done|..]; cbn [bufs with_buf memdisk].
  - intros j k n Hj Hk. unfold fupd. do 2 case_decide; subst; try done.
    + intros Hb Hx. by destruct (Hu n k).
    + intros Hx Hb. by destruct (Hu n j).
    + by apply H6.
  - intros j n Hj. unfold fupd. case_decide; [by apply Hv|by apply H7].
  - intros j n Hj. unfold fupd. case_decide; [by apply Hc|]. intros Hx Hdr. rewrite (H8 j n) by done. symmetry.
    by apply (Hd j).
  - intros j Hj. unfold fupd. case_decide; [done|by apply H9].
Qed.

(** The contents of a block that the buffer held before or holds after. *)
Lemma with_buf_view n x :
  (forall n' j, holds b n' -> j <> i -> (j < NBUF)%nat -> ~ holds (bufs s j) n') ->
  is_view (with_buf s i b d) n x <->
  (holds b n /\ bdata b = x) \/
  (~ holds b n /\ (exists j, j <> i /\ (j < NBUF)%nat /\ holds (bufs s j) n /\ bdata (bufs s j) = x)) \/
  (~ holds b n /\ (forall j, j <> i -> (j < NBUF)%nat -> ~ holds (bufs s j) n) /\ x = disk_at d n).
Proof using Hi.
  intros Hu. unfold is_view. cbn [bufs with_buf memdisk]. split.
  - intros [(j & Hj & Hh & Hx)|[Hn Hx]].
    + unfold fupd in *. case_decide; [by left|]. right. left. split; [|by exists j].
      intros Hb. by apply (Hu n j).
    + assert (Hb : ~ holds b n) by (specialize (Hn i Hi); by rewrite fupd_eq in Hn).
      right. right. split; [done|]. split; [|done]. intros j Hji Hj. specialize (Hn j Hj). by rewrite fupd_ne in Hn.
  - intros [[Hb Hx]|[(Hb & j & Hji & Hj & Hh & Hx)|(Hb & Hn & Hx)]].
    + left. exists i. by rewrite fupd_eq.
    + left. exists j. by rewrite fupd_ne.
    + right. split; [|done]. intros j Hj. destruct (decide (j = i)) as [->|Hji]; [by rewrite fupd_eq|].
      rewrite fupd_ne by done. by apply Hn.
Qed.
End WithBuf.

(** ** Operations *)

Lemma valid_2 f : (Z.land f B_VALID =? 0) = negb (has f B_VALID).
Proof. unfold has. by rewrite negb_involutive. Qed.
Lemma dirty_4 f : (Z.land f B_DIRTY =? 0) = negb (has f B_DIRTY).
Proof. unfold has. by rewrite negb_involutive. Qed.

Lemma cached_at_holds s n i : cached_at s 1 n i = true <-> holds (bufs s i) n.
Proof. unfold cached_at, holds. rewrite andb_true_iff, !Z.eqb_eq. done. Qed.

(** The state after [bread] found block [n] in buffer [i], and after it
    recycled buffer [i]. *)
Definition hit (b : buf) : buf := mk_buf (flags b) (dev b) (blockno b) true (u32 (refcnt b + 1)) (bdata b).
Definition miss (n : Z) (d : gmap Z block) : buf := mk_buf B_VALID 1 n true 1 (disk_at d n).

Lemma bread_hit s order n i :
  bio_inv s order -> first (cached_at s 1 n) order = Some i -> block_held (bufs s i) = false ->
  exists s', bread 1 n s = Ret i s' /\ beq (with_buf s i (hit (bufs s i)) (memdisk s)) s'.
Proof.
  intros Hinv Hf Hh. destruct (first_Some _ _ _ Hf) as [Hin Hc]. apply cached_at_holds in Hc.
  assert (Hi : (i < NBUF)%nat) by (by apply (bi_all s order Hinv)).
  assert (Hv := bi_valid s order Hinv i n Hi Hc).
  unfold bread, bget, get, bind at 1 2 3. rewrite (scan_next s order (bi_linked _ _ Hinv) (bi_len _ _ Hinv)), Hf.
  unfold get_buf, gets, acquiresleep, upd_buf, modify, get_buf, gets, ret, bind. cbn [bufs].
  rewrite ?fupd_eq. cbn [block_held flags]. rewrite Hh. cbn [bufs]. rewrite ?fupd_eq. cbn [flags].
  rewrite valid_2. unfold valid in Hv. rewrite Hv. cbn [negb]. eexists. split; [done|].
  unfold beq, with_buf. cbn. split_and!; try done. intros j. rewrite fupd_twice. done.
Qed.

Lemma bread_miss s order n i :
  bio_inv s order -> first (cached_at s 1 n) order = None ->
  first (free_clean s) (reverse order) = Some i -> block_held (bufs s i) = false -> 0 <= n < disksize s ->
  exists s', bread 1 n s = Ret i s' /\ beq (with_buf s i (miss n (memdisk s)) (memdisk s)) s'.
Proof.
  intros Hinv Hf Hr Hh Hn.
  unfold bread, bget, get, bind at 1 2 3. rewrite (scan_next s order (bi_linked _ _ Hinv) (bi_len _ _ Hinv)), Hf.
  rewrite (scan_prev s order (bi_linked _ _ Hinv) (bi_len _ _ Hinv)), Hr.
  unfold get_buf, gets, acquiresleep, upd_buf, modify, get_buf, gets, ret, bind. cbn [bufs].
  rewrite ?fupd_eq. cbn [block_held flags]. rewrite Hh. cbn [bufs]. rewrite ?fupd_eq. cbn [flags].
  rewrite Z.land_0_l. cbn [Z.eqb]. unfold iderw, get_buf, gets, upd_buf, modify, bind. cbn [bufs disksize memdisk].
  rewrite fupd_eq. cbn [block_held flags dev blockno negb Z.land Z.eqb].
  destruct (Z.leb_spec (disksize s) n); [lia|]. cbn. eexists. split; [done|].
  unfold beq, with_buf. cbn. split_and!; try done. intros j. by rewrite !fupd_twice.
Qed.

Lemma bread_full s order n :
  bio_inv s order -> first (cached_at s 1 n) order = None -> first (free_clean s) (reverse order) = None ->
  bread 1 n s = Panic "bget: no buffers".
Proof.
  intros Hinv Hf Hr.
  unfold bread, bget, get, bind at 1 2 3. rewrite (scan_next s order (bi_linked _ _ Hinv) (bi_len _ _ Hinv)), Hf.
  by rewrite (scan_prev s order (bi_linked _ _ Hinv) (bi_len _ _ Hinv)), Hr.
Qed.

(** A buffer whose block and contents stay what they are leaves every block's
    contents alone. *)
Lemma same_content_view s i b d n x :
  (forall m, holds b m <-> holds (bufs s i) m) -> bdata b = bdata (bufs s i) ->
  ((forall j, (j < NBUF)%nat -> ~ holds (bufs s j) n) -> disk_at d n = disk_at (memdisk s) n) ->
  is_view (with_buf s i b d) n x <-> is_view s n x.
Proof.
  intros Hh Hb Hd. unfold is_view. cbn [bufs with_buf memdisk].
  assert (He : forall j, (holds (fupd (bufs s) i b j) n <-> holds (bufs s j) n) /\
    bdata (fupd (bufs s) i b j) = bdata (bufs s j)).
  { intros j. unfold fupd. case_decide; [subst j; by rewrite Hh|done]. }
  split; (intros [(j & Hj & H1 & H2)|[H1 H2]]; [left; exists j|right]).
  - destruct (He j) as [He1 He2]. rewrite He1 in H1. by rewrite He2 in H2.
  - assert (Hn : forall j, (j < NBUF)%nat -> ~ holds (bufs s j) n).
    { intros j Hj. rewrite <- (proj1 (He j)). by apply H1. }
    split; [done|]. by rewrite <- Hd.
  - destruct (He j) as [He1 He2]. by rewrite He1, He2.
  - split; [|by rewrite Hd]. intros j Hj. rewrite (proj1 (He j)). by apply H1.
Qed.

Lemma hit_ok s order n i :
  bio_inv s order -> (i < NBUF)%nat -> holds (bufs s i) n -> block_held (bufs s i) = false ->
  bio_inv (with_buf s i (hit (bufs s i)) (memdisk s)) order.
Proof.
  intros Hinv Hi Hh Hk. apply with_buf_inv; [done|..].
  - cbn. rewrite (bi_ref s order Hinv i Hi), Hk. done.
  - intros m. apply (bi_valid s order Hinv i m Hi).
  - intros m. apply (bi_clean s order Hinv i m Hi).
  - intros m j Hm Hji Hj Hx. apply Hji. by apply (bi_uniq s order Hinv j i m).
  - done.
Qed.

Lemma miss_ok s order n i :
  bio_inv s order -> (forall j, (j < NBUF)%nat -> ~ holds (bufs s j) n) ->
  bio_inv (with_buf s i (miss n (memdisk s)) (memdisk s)) order.
Proof.
  intros Hinv Hno. apply with_buf_inv; [done|done|done|..].
  - by intros m [_ <-] _.
  - intros m j [_ <-] _ Hj. by apply Hno.
  - done.
Qed.

Lemma miss_view s order n i m x :
  bio_inv s order -> (forall j, (j < NBUF)%nat -> ~ holds (bufs s j) n) -> (i < NBUF)%nat ->
  free_clean s i = true ->
  is_view (with_buf s i (miss n (memdisk s)) (memdisk s)) m x <-> is_view s m x.
Proof.
  intros Hinv Hno Hi Hf. apply andb_true_iff in Hf as [_ Hf]. rewrite dirty_4, negb_true_iff in Hf.
  rewrite with_buf_view; [|done|by intros m' j [_ <-] _ Hj; apply Hno].
  destruct (decide (m = n)) as [->|Hmn].
  - unfold is_view. split.
    + intros [[_ <-]|[[H _]|[H _]]]; [by right|by destruct H|by destruct H].
    + intros [(j & Hj & Hh & _)|[_ ->]]; [by destruct (Hno j)|by left].
  - assert (Hnh : ~ holds (miss n (memdisk s)) m) by (intros [_ H]; cbn in H; congruence).
    unfold is_view. split.
    + intros [[H _]|[(_ & j & _ & H)|(_ & Hall & ->)]]; [done|left; by exists j|].
      destruct (decide (dev (bufs s i) = 1 /\ blockno (bufs s i) = m)) as [Hh|Hh].
      * left. exists i. split; [done|]; split; [exact Hh|]. by apply (bi_clean s order Hinv i m Hi).
      * right. split; [|done]. intros j Hj. destruct (decide (j = i)) as [->|Hji]; [done|by apply Hall].
    + intros [(j & Hj & Hh & <-)|[Hall ->]]; right.
      * destruct (decide (j = i)) as [->|Hji]; [|left; split; [done|]; by exists j].
        right. split; [done|]. split; [|by apply (bi_clean s order Hinv)].
        intros k Hki Hk Hx. apply Hki. by apply (bi_uniq s order Hinv k i m).
      * right. split; [done|]. split; [|done]. intros j _ Hj. by apply Hall.
Qed.

(** [bread] of a block of the disk, when no buffer of the block is already
    locked and some buffer is neither locked nor pinned by the log, returns a
    locked buffer of that block whose data is the block's current contents
    (the cached copy if there is one, else the disk's); it changes the contents
    of no block and keeps the cache well formed: one buffer per block at most,
    the recency list intact, unpinned buffers equal to the disk. *)
Theorem bread_current s order n :
  bio_inv s order -> 0 <= n < disksize s ->
  (forall i, (i < NBUF)%nat -> holds (bufs s i) n -> block_held (bufs s i) = false) ->
  (exists i, (i < NBUF)%nat /\ block_held (bufs s i) = false /\ dirty (bufs s i) = false) ->
  exists i s', bread 1 n s = Ret i s' /\ bio_inv s' order /\ holds (bufs s' i) n /\
    block_held (bufs s' i) = true /\ is_view s n (bdata (bufs s' i)) /\
    (forall m x, is_view s' m x <-> is_view s m x) /\ memdisk s' = memdisk s.
Proof.
  intros Hinv Hn Hun (f & Hf & Hfh & Hfd). destruct (first (cached_at s 1 n) order) as [i|] eqn:Ec.
  - destruct (first_Some _ _ _ Ec) as [Hin Hc]. apply cached_at_holds in Hc. apply (bi_all s order Hinv) in Hin.
    specialize (Hun i Hin Hc). destruct (bread_hit s order n i Hinv Ec Hun) as (s' & E & Hb).
    exists i, s'. split; [done|]. split; [rewrite <- Hb; by apply (hit_ok s order n)|].
    assert (Hbi : bufs s' i = hit (bufs s i)) by (rewrite (proj1 Hb); apply fupd_eq).
    rewrite Hbi. split_and!; [exact Hc|done|left; by exists i| |apply Hb].
    intros m x. rewrite <- Hb. by apply same_content_view.
  - assert (Hno : forall j, (j < NBUF)%nat -> ~ holds (bufs s j) n).
    { intros j Hj Hh%cached_at_holds. rewrite (first_None _ _ j Ec) in Hh; [done|]. by apply (bi_all s order Hinv). }
    destruct (first (free_clean s) (reverse order)) as [i|] eqn:Er.
    + destruct (first_Some _ _ _ Er) as [Hin Hc]. rewrite elem_of_reverse in Hin. apply (bi_all s order Hinv) in Hin.
      assert (Hih : block_held (bufs s i) = false).
      { unfold free_clean in Hc. rewrite (bi_ref s order Hinv i Hin) in Hc. destruct (block_held (bufs s i)); [cbn in Hc; discriminate|done]. }
      destruct (bread_miss s order n i Hinv Ec Er Hih Hn) as (s' & E & Hb).
      exists i, s'. split; [done|]. split; [rewrite <- Hb; by apply miss_ok|].
      assert (Hbi : bufs s' i = miss n (memdisk s)) by (rewrite (proj1 Hb); apply fupd_eq).
      rewrite Hbi. split_and!; [done|done|by right| |apply Hb].
      intros m x. rewrite <- Hb. by apply (miss_view s order).
    + exfalso. apply (first_None _ _ f) in Er; [|rewrite elem_of_reverse; by apply (bi_all s order Hinv)].
      unfold free_clean in Er. rewrite (bi_ref s order Hinv f Hf), Hfh, dirty_4 in Er. unfold dirty in Hfd.
      by rewrite Hfd in Er.
Qed.

(** ** From boot *)

(** Buffers in the kernel's bss. *)
Definition zero_buf : buf := mk_buf 0 0 0 false 0 ∅.

(** With the in-memory disk and the cache initialised as at boot, the first [bread]
    of any block of the image returns a locked buffer with the image's contents. *)
Theorem boot_reads_image s img size n :
  (forall i, bufs s i = zero_buf) -> 0 <= size < 4294967296 -> 0 <= n < size / BSIZE ->
  exists i s', (do* ideinit img size in do* binit in bread 1 n) s = Ret i s' /\
    holds (bufs s' i) n /\ block_held (bufs s' i) = true /\ bdata (bufs s' i) = disk_at img n /\ memdisk s' = img.
Proof.
  intros Hz Hsz Hn. set (s0 := mk_bstate (bufs s) (prev s) (next s) img (u32 size / BSIZE)).
  rewrite (bind_Ret (ideinit img size) _ s tt s0 eq_refl). destruct (binit_spec s0) as (s1 & E1 & (Hb & Hm & Hd) & Hl).
  rewrite (bind_Ret _ _ _ _ _ E1). set (order := reverse (seq 0 NBUF)) in *.
  assert (Hz1 : forall i, bufs s1 i = zero_buf) by (intros i; rewrite Hb; exact (Hz i)).
  assert (Hno : forall i m, ~ holds (bufs s1 i) m) by (intros i m [Hh _]; by rewrite Hz1 in Hh).
  assert (Hinv : bio_inv s1 order).
  { split; [exact Hl|..].
    - intros i. unfold order. rewrite elem_of_reverse, elem_of_seq. lia.
    - unfold order. by rewrite length_reverse, length_seq.
    - intros i j m _ _ Hh _. destruct (Hno i m Hh).
    - intros i m _ Hh. destruct (Hno i m Hh).
    - intros i m _ Hh _. destruct (Hno i m Hh).
    - intros i _. by rewrite Hz1. }
  assert (Hf : first (cached_at s1 1 n) order = None).
  { destruct (first (cached_at s1 1 n) order) as [i|] eqn:E; [|done]. apply first_Some in E as [_ E]. apply cached_at_holds in E. destruct (Hno i n E). }
  assert (Hc : first (free_clean s1) (reverse order) = Some 0%nat).
  { unfold order. rewrite reverse_involutive. change (seq 0 NBUF) with (0%nat :: seq 1 29). cbn [first]. unfold free_clean. by rewrite Hz1. }
  destruct (bread_miss s1 order n 0 Hinv Hf Hc) as (s' & E' & Hbe); [by rewrite Hz1|rewrite Hd; cbn [disksize s0]; by rewrite u32_small|].
  exists 0%nat, s'. split; [exact E'|]. rewrite (proj1 Hbe). cbn [bufs with_buf]. rewrite fupd_eq, Hm.
  split; [split; reflexivity|]. split; [reflexivity|]. split; [reflexivity|].
  destruct Hbe as (_ & _ & _ & -> & _). exact Hm.
Qed.

Lemma dirty_request f : has f B_DIRTY = true -> (Z.land f (Z.lor B_VALID B_DIRTY) =? B_VALID) = false.
Proof.
  intros Hd. apply Z.eqb_neq. intros E. apply (f_equal (fun z => Z.testbit z 2)) in E.
  rewrite Z.land_spec in E. change B_DIRTY with (2 ^ 2) in Hd. rewrite has_testbit in Hd by lia. by rewrite Hd in E.
Qed.

(** The buffer after its owner stored [x] in it and called [bwrite]. *)
Definition written (b : buf) (x : block) : buf :=
  mk_buf (set (clear (set (flags b) B_DIRTY) B_DIRTY) B_VALID) (dev b) (blockno b) true (refcnt b) x.

Lemma bwrite_run s i n x :
  holds (bufs s i) n -> block_held (bufs s i) = true -> 0 <= n < disksize s ->
  exists s', bind (set_data i x) (fun _ => bwrite i) s = Ret tt s' /\
    beq (with_buf s i (written (bufs s i) x) (<[n := x]> (memdisk s))) s'.
Proof.
  intros [Hd Hb] Hh Hn.
  unfold bwrite, iderw, set_data, get_buf, gets, upd_buf, modify, bind. cbn [bufs disksize memdisk].
  rewrite !fupd_eq. cbn [block_held flags]. rewrite Hh. cbn [negb bufs disksize memdisk]. rewrite !fupd_eq.
  cbn [block_held flags dev blockno refcnt bdata negb]. rewrite ?Hh. cbn [negb].
  assert (Hset : has (set (flags (bufs s i)) B_DIRTY) B_DIRTY = true).
  { change B_DIRTY with (2 ^ 2). rewrite has_set by lia. apply orb_true_r. }
  rewrite dirty_request, Hset, Hd, Hb by done. cbn [Z.eqb negb].
  destruct (Z.leb_spec (disksize s) n); [lia|]. eexists. split; [done|].
  unfold beq, with_buf, written. cbn. split_and!; try done. intros j. rewrite Hd, Hb. by rewrite !fupd_twice.
Qed.

(** Storing new data in a locked buffer and calling [bwrite] puts that data
    on the disk and makes it the contents of the block; no other block changes,
    in the cache or on the disk, and the cache stays well formed. *)
Theorem bwrite_through s order i n x :
  bio_inv s order -> (i < NBUF)%nat -> holds (bufs s i) n -> block_held (bufs s i) = true -> 0 <= n < disksize s ->
  exists s', bind (set_data i x) (fun _ => bwrite i) s = Ret tt s' /\ bio_inv s' order /\
    memdisk s' = <[n := x]> (memdisk s) /\
    forall m y, is_view s' m y <-> (if decide (m = n) then y = x else is_view s m y).
Proof.
  intros Hinv Hi Hh Hk Hn. destruct (bwrite_run s i n x Hh Hk Hn) as (s' & E & Hb). exists s'.
  assert (Huq : forall n' j, holds (written (bufs s i) x) n' -> j <> i -> (j < NBUF)%nat -> ~ holds (bufs s j) n').
  { intros n' j Hw Hji Hj Hx. apply Hji. by apply (bi_uniq s order Hinv j i n'). }
  split; [done|]. split; [|split; [apply Hb|]].
  - rewrite <- Hb. apply with_buf_inv; [done|..].
    + cbn. by rewrite (bi_ref s order Hinv i Hi), Hk.
    + intros _ _. unfold valid, written. cbn [flags]. change B_VALID with (2 ^ 1). rewrite has_set by lia. apply orb_true_r.
    + intros m [_ <-] _. destruct Hh as [_ <-]. cbn. unfold disk_at. by rewrite lookup_insert_eq.
    + done.
    + intros j m Hji Hj Hm. unfold disk_at. rewrite lookup_insert_ne; [done|]. intros <-. by apply (Huq n j).
  - intros m y. rewrite <- Hb. rewrite with_buf_view by done. case_decide as Hmn.
    + subst m. cbn. split; [|by left]. intros [[_ ?]|[[H _]|[H _]]]; [done|by destruct H|by destruct H].
    + assert (Hnm : forall b, holds b n -> ~ holds b m) by (intros b [_ ?] [_ ?]; congruence).
      rewrite <- (same_content_view s i (bufs s i) (memdisk s)) by done.
      rewrite with_buf_view; [|done|by intros n' j Hx; apply Huq].
      unfold disk_at. rewrite lookup_insert_ne by done. unfold written, holds. cbn [dev blockno bdata].
      assert (~ (dev (bufs s i) = 1 /\ blockno (bufs s i) = m)) by (by apply Hnm). tauto.
Qed.

(** [brelse] of the only reference: the buffer becomes the most recent. *)
Lemma brelse_run s A i R :
  bio_inv s (A ++ i :: R) -> block_held (bufs s i) = true ->
  exists s', brelse i s = Ret tt s' /\ linked s' (i :: A ++ R) /\ memdisk s' = memdisk s /\ disksize s' = disksize s /\
    bufs s' = fupd (bufs s) i (mk_buf (flags (bufs s i)) (dev (bufs s i)) (blockno (bufs s i)) false 0 (bdata (bufs s i))).
Proof.
  intros Hinv Hh. assert (Hi : (i < NBUF)%nat).
  { apply (bi_all _ _ Hinv), elem_of_app. right. apply list_elem_of_here. }
  pose proof (bi_ref _ _ Hinv i Hi) as Hr. rewrite Hh in Hr.
  set (s1 := with_buf s i (mk_buf (flags (bufs s i)) (dev (bufs s i)) (blockno (bufs s i)) false 0 (bdata (bufs s i)))
    (memdisk s)).
  assert (Hl1 : linked s1 (A ++ i :: R)) by (destruct (bi_linked _ _ Hinv); by split).
  destruct (unlink_spec s1 A i R Hl1) as (s2 & E2 & (H1 & H2 & H3) & Hl2).
  assert (HiA : i ∉ A ++ R).
  { pose proof (ln_nodup _ _ Hl1) as Hnd. apply NoDup_app in Hnd as (_ & HA & HR). apply NoDup_cons in HR as [HR _].
    rewrite elem_of_app. intros [Hx|Hx]; [|done]. apply (HA i Hx), list_elem_of_here. }
  destruct (link_front_spec s2 (A ++ R) i Hl2 HiA) as (s3 & E3 & (G1 & G2 & G3) & Hl3); [unfold head; lia|].
  exists s3. split; [|split_and!; congruence || (rewrite ?G1, ?H1, ?G2, ?H2, ?G3, ?H3; done)].
  unfold brelse, get_buf, upd_buf, gets, modify. unfold bind at 1. rewrite Hh. cbn [negb].
  unfold bind at 1. rewrite Hr. cbn -[unlink link_front bind]. fold s1.
  change (bind (unlink i) (fun _ => link_front i) s1 = Ret tt s3). by rewrite (bind_Ret _ _ _ _ _ E2).
Qed.

(** [brelse] unlocks the buffer and moves it to the front of the recency
    list, the rest of the list keeping its order; no block changes. *)
Theorem brelse_most_recent s A i R :
  bio_inv s (A ++ i :: R) -> block_held (bufs s i) = true ->
  exists s', brelse i s = Ret tt s' /\ bio_inv s' (i :: A ++ R) /\ block_held (bufs s' i) = false /\
    (forall m x, is_view s' m x <-> is_view s m x) /\ memdisk s' = memdisk s.
Proof.
  intros Hinv Hh. destruct (brelse_run s A i R Hinv Hh) as (s' & E & Hl & Hd & Hz & Hb).
  assert (Hi : (i < NBUF)%nat).
  { apply (bi_all _ _ Hinv), elem_of_app. right. apply list_elem_of_here. }
  set (b := mk_buf (flags (bufs s i)) (dev (bufs s i)) (blockno (bufs s i)) false 0 (bdata (bufs s i))) in *.
  assert (Hw : bio_inv (with_buf s i b (memdisk s)) (A ++ i :: R)).
  { apply with_buf_inv; [done|done|..].
    - intros m. apply (bi_valid _ _ Hinv i m Hi).
    - intros m. apply (bi_clean _ _ Hinv i m Hi).
    - intros m j Hm Hji Hj Hx. apply Hji. by apply (bi_uniq _ _ Hinv j i m).
    - done. }
  exists s'. split; [done|]. split; [|split; [by rewrite Hb, fupd_eq|split; [|done]]].
  - destruct Hw as [_ H4 H5 H6 H7 H8 H9]. cbn [bufs with_buf memdisk] in *. split; rewrite ?Hb, ?Hd; try done.
    + intros j. rewrite <- H4. rewrite elem_of_cons, !elem_of_app, elem_of_cons. tauto.
    + rewrite length_app in H5. cbn in *. rewrite length_app. lia.
  - intros m x. rewrite <- (same_content_view s i b (memdisk s) m x) by done. unfold is_view.
    cbn [bufs with_buf memdisk]. by rewrite Hb, Hd.
Qed.

(** The scan for a victim runs from the least recent end. *)
Lemma first_app_skip f A i R :
  (forall j, j ∈ A -> f j = false) -> f i = true -> first f (A ++ i :: R) = Some i.
Proof.
  induction A as [|a A IH]; cbn; intros HA Hi; [by rewrite Hi|].
  rewrite (HA a (list_elem_of_here _ _)). apply IH; [|done]. intros j Hj. apply HA. by right.
Qed.

Lemma first_all_false f l : (forall j, j ∈ l -> f j = false) -> first f l = None.
Proof.
  induction l as [|a l IH]; intros H; [done|]. cbn. rewrite (H a (list_elem_of_here _ _)). apply IH.
  intros j Hj. apply H. by right.
Qed.

Lemma free_clean_spec s order i :
  bio_inv s order -> (i < NBUF)%nat ->
  free_clean s i = negb (block_held (bufs s i) || dirty (bufs s i)).
Proof.
  intros Hinv Hi. unfold free_clean, dirty. rewrite (bi_ref s order Hinv i Hi), dirty_4.
  by destruct (block_held (bufs s i)), (has (flags (bufs s i)) B_DIRTY).
Qed.

Lemma uncached s order n :
  bio_inv s order -> (forall j, (j < NBUF)%nat -> ~ holds (bufs s j) n) -> first (cached_at s 1 n) order = None.
Proof.
  intros Hinv Hno. apply first_all_false. intros j Hj. apply not_true_iff_false. rewrite cached_at_holds.
  apply Hno. by apply (bi_all s order Hinv).
Qed.

(** [bread] of a block that is not cached recycles the least recently
    released buffer among those neither locked nor pinned by the log. *)
Theorem bread_recycles_lru s A i R n :
  bio_inv s (A ++ i :: R) -> (forall j, (j < NBUF)%nat -> ~ holds (bufs s j) n) -> 0 <= n < disksize s ->
  block_held (bufs s i) = false -> dirty (bufs s i) = false ->
  (forall j, j ∈ R -> block_held (bufs s j) = true \/ dirty (bufs s j) = true) ->
  exists s', bread 1 n s = Ret i s' /\ holds (bufs s' i) n /\
    forall j, j <> i -> bufs s' j = bufs s j.
Proof.
  intros Hinv Hno Hn Hk Hd HR. pose proof (bi_all _ _ Hinv) as Hall.
  assert (Hi : (i < NBUF)%nat) by (apply Hall, elem_of_app; right; apply list_elem_of_here).
  destruct (bread_miss s (A ++ i :: R) n i Hinv) as (s' & E & Hb & _); [by apply uncached| |done|done|].
  - rewrite reverse_app, reverse_cons, <- app_assoc. cbn [app]. apply first_app_skip.
    + intros j Hj. rewrite elem_of_reverse in Hj. rewrite (free_clean_spec s _ j Hinv).
      2:{ apply Hall, elem_of_app. right. by right. }
      destruct (HR j Hj) as [-> | ->]; [done|by rewrite orb_true_r].
    + by rewrite (free_clean_spec s _ i Hinv Hi), Hk, Hd.
  - exists s'. split; [done|]. split; [by rewrite Hb; cbn [bufs with_buf]; rewrite fupd_eq|].
    intros j Hj. rewrite Hb. cbn [bufs with_buf]. by rewrite fupd_ne.
Qed.

(** When every buffer is locked or pinned by the log, [bread] of a block
    that is not cached panics.  The log may pin [LOGSIZE] = [NBUF] buffers, so
    one maximal transaction is enough for [write_log]'s own [bread] to end up
    here. *)
Theorem bread_no_buffers s order n :
  bio_inv s order -> (forall j, (j < NBUF)%nat -> ~ holds (bufs s j) n) ->
  (forall j, (j < NBUF)%nat -> block_held (bufs s j) = true \/ dirty (bufs s j) = true) ->
  bread 1 n s = Panic "bget: no buffers".
Proof.
  intros Hinv Hno Hall. apply (bread_full s order); [done|by apply uncached|].
  apply first_all_false. intros j Hj. rewrite elem_of_reverse in Hj. apply (bi_all s order Hinv) in Hj.
  rewrite (free_clean_spec s order j Hinv Hj). destruct (Hall j Hj) as [-> | ->]; [done|by rewrite orb_true_r].
Qed.

(** [binit] on the zeroed static array builds a well-formed cache in which
    every block's contents are the disk's. *)
Theorem binit_empty_cache s :
  (forall i, bufs s i = mk_buf 0 0 0 false 0 ∅) ->
  exists s', binit s = Ret tt s' /\ bio_inv s' (reverse (seq 0 NBUF)) /\
    forall n, is_view s' n (disk_at (memdisk s) n).
Proof.
  intros Hz. destruct (binit_spec s) as (s' & E & (Hb & Hd & _) & Hl). exists s'. split; [done|].
  assert (Hno : forall i n, ~ holds (bufs s' i) n) by (intros i n; rewrite Hb, Hz; by intros [? _]).
  split.
  - split; [done|..].
    + intros i. rewrite elem_of_reverse, elem_of_seq. lia.
    + by rewrite length_reverse, length_seq.
    + intros i j n _ _ H. by destruct (Hno i n).
    + intros i n _ H. by destruct (Hno i n).
    + intros i n _ H. by destruct (Hno i n).
    + intros i _. by rewrite Hb, Hz.
  - intros n. right. split; [by intros i _|by rewrite Hd].
Qed.

(** ** A cache at boot, and one with buffers in use *)

#[local] Transparent NBUF.
Definition ex_links_next (i : nat) : nat := match i with O => head | S k => k end.
Definition ex_links_prev (i : nat) : nat := if decide (i = head) then O else S i.
Definition ex_cache (b : nat -> buf) : bstate := mk_bstate b ex_links_prev ex_links_next ∅ 1000.

Lemma ex_linked b : linked (ex_cache b) (reverse (seq 0 NBUF)).
Proof.
  split.
  - vm_compute. repeat split.
  - rewrite reverse_Permutation. apply NoDup_seq.
  - rewrite elem_of_reverse, elem_of_seq. unfold head. lia.
Qed.

(** Buffer [i] holds block [i] with the given flags and lock. *)
Definition ex_buf (f : Z) (k : bool) (i : nat) : buf := mk_buf f 1 (Z.of_nat i) k (if k then 1 else 0) ∅.

Lemma ex_inv f k : has f B_VALID = true -> bio_inv (ex_cache (ex_buf f k)) (reverse (seq 0 NBUF)).
Proof.
  intros Hf. split; [apply ex_linked|..].
  - intros i. rewrite elem_of_reverse, elem_of_seq. lia.
  - by rewrite length_reverse, length_seq.
  - intros i j n _ _ [_ Hi] [_ Hj]. cbn in *. lia.
  - done.
  - intros i n _ [_ Hi] _. done.
  - done.
Qed.

Lemma ex_not_held f k n j : 30 <= n -> (j < NBUF)%nat -> ~ holds (bufs (ex_cache (ex_buf f k)) j) n.
Proof. intros Hn Hj [_ H]. cbn in H. unfold NBUF in Hj. lia. Qed.

Lemma bread_current_witness : exists i s', bread 1 50 (ex_cache (ex_buf B_VALID false)) = Ret i s'.
Proof.
  destruct (bread_current (ex_cache (ex_buf B_VALID false)) (reverse (seq 0 NBUF)) 50) as (i & s' & E & _).
  - by apply ex_inv.
  - cbn. lia.
  - done.
  - exists 0%nat. split_and!; [unfold NBUF; lia|done|done].
  - exists i, s'. exact E.
Defined.

Lemma bwrite_through_witness : exists s',
  bind (set_data 3 {[ 0 := 7 ]}) (fun _ => bwrite 3) (ex_cache (ex_buf B_VALID true)) = Ret tt s' /\
  memdisk s' = <[3 := {[ 0 := 7 ]}]> ∅.
Proof.
  destruct (bwrite_through (ex_cache (ex_buf B_VALID true)) (reverse (seq 0 NBUF)) 3 3 {[ 0 := 7 ]}) as (s' & E & _ & H & _).
  - by apply ex_inv.
  - unfold NBUF. lia.
  - done.
  - done.
  - cbn. lia.
  - exists s'. split; [exact E|exact H].
Defined.

Lemma brelse_most_recent_witness : exists s', brelse 28 (ex_cache (ex_buf B_VALID true)) = Ret tt s'.
Proof.
  destruct (brelse_most_recent (ex_cache (ex_buf B_VALID true)) [29%nat] 28 (reverse (seq 0 28))) as (s' & E & _).
  - exact (ex_inv B_VALID true eq_refl).
  - done.
  - exists s'. exact E.
Defined.

Lemma bread_recycles_lru_witness : exists s', bread 1 50 (ex_cache (ex_buf B_VALID false)) = Ret 0%nat s'.
Proof.
  destruct (bread_recycles_lru (ex_cache (ex_buf B_VALID false)) (reverse (seq 1 29)) 0 [] 50) as (s' & E & _).
  - exact (ex_inv B_VALID false eq_refl).
  - intros j. by apply ex_not_held.
  - cbn. lia.
  - done.
  - done.
  - intros j Hj. by apply elem_of_nil in Hj.
  - exists s'. exact E.
Defined.

Lemma bread_no_buffers_witness :
  bread 1 50 (ex_cache (ex_buf (Z.lor B_VALID B_DIRTY) false)) = Panic "bget: no buffers".
Proof.
  apply (bread_no_buffers _ (reverse (seq 0 NBUF))).
  - by apply ex_inv.
  - intros j. by apply ex_not_held.
  - intros j _. by right.
Defined.

Lemma binit_empty_cache_witness : exists s', binit (ex_cache (fun _ => mk_buf 0 0 0 false 0 ∅)) = Ret tt s'.
Proof.
  destruct (binit_empty_cache (ex_cache (fun _ => mk_buf 0 0 0 false 0 ∅))) as (s' & E & _); [done|].
  exists s'. exact E.
Defined.

Lemma boot_reads_image_witness : exists i s',
  (do* ideinit ∅ 512000 in do* binit in bread 1 7) (mk_bstate (fun _ => zero_buf) (fun _ => 0%nat) (fun _ => 0%nat) ∅ 0) = Ret i s'.
Proof.
  destruct (boot_reads_image (mk_bstate (fun _ => zero_buf) (fun _ => 0%nat) (fun _ => 0%nat) ∅ 0) ∅ 512000 7) as (i & s' & E & _).
  - done.
  - lia.
  - vm_compute. split; [discriminate|reflexivity].
  - exists i, s'. exact E.
Defined.
