(* ===== verification/Fs.v ===== *)
(** * The file system (fs.c)

    Blocks, inodes, inode contents, directories and path names, on the logged
    blocks of Log.v.  A [struct inode *] is an index of the inode cache, and a
    [struct buf *] between [bread] and [brelse] is its block number with the
    bytes in it.  The code runs in one process: an inode lock that it would have
    to wait for is one that it holds itself.

    Strings are lists of bytes, read as if a NUL followed them. *)
From S2P Require Import Prelude Memory KString Log.

Definition NINODE : Z := 50.
Definition NDEV : Z := 10.
Definition ROOTDEV : Z := 1.
Definition ROOTINO : Z := 1.
Definition NDIRECT : Z := 12.
Definition NINDIRECT : Z := BSIZE / 4.
Definition MAXFILE : Z := NDIRECT + NINDIRECT.
Definition sizeof_dinode : Z := 64.
Definition IPB : Z := BSIZE / sizeof_dinode.
Definition BPB : Z := BSIZE * 8.
Definition DIRSIZ : Z := 14.
Definition sizeof_dirent : Z := 16.
Definition T_DIR : Z := 1.
Definition T_FILE : Z := 2.
Definition T_DEV : Z := 3.

(** ** State *)

Record inode := mk_inode {
  idev : Z;
  inum : Z;
  iref : Z;
  ilocked : bool;
  ivalid : bool;
  itype : Z;
  imajor : Z;
  iminor : Z;
  inlink : Z;
  isize : Z;
  iaddrs : list Z
}.

Record fstate := mk_fstate {
  ds : dstate;
  sb : superblock;
  icache : list inode
}.

Definition F := M fstate.

Definition lift {A} (m : D A) : F A :=
  fun s => match m (ds s) with
           | Ret a d => Ret a (mk_fstate d (sb s) (icache s))
           | Panic msg => Panic msg
           | Fault msg => Fault msg
           | OutOfFuel => OutOfFuel
           end.

Definition get_inode (i : nat) : F inode :=
  fun s => match icache s !! i with Some ip => Ret ip s | None => Fault "bad inode pointer" end.
Definition put_inode (i : nat) (ip : inode) : F unit :=
  modify (fun s => mk_fstate (ds s) (sb s) (<[i := ip]> (icache s))).

Definition set_ref (ip : inode) (n : Z) : inode :=
  mk_inode (idev ip) (inum ip) n (ilocked ip) (ivalid ip) (itype ip) (imajor ip) (iminor ip) (inlink ip)
    (isize ip) (iaddrs ip).
Definition set_ilocked (ip : inode) (b : bool) : inode :=
  mk_inode (idev ip) (inum ip) (iref ip) b (ivalid ip) (itype ip) (imajor ip) (iminor ip) (inlink ip)
    (isize ip) (iaddrs ip).
Definition set_valid (ip : inode) (b : bool) : inode :=
  mk_inode (idev ip) (inum ip) (iref ip) (ilocked ip) b (itype ip) (imajor ip) (iminor ip) (inlink ip)
    (isize ip) (iaddrs ip).
Definition set_type (ip : inode) (t : Z) : inode :=
  mk_inode (idev ip) (inum ip) (iref ip) (ilocked ip) (ivalid ip) t (imajor ip) (iminor ip) (inlink ip)
    (isize ip) (iaddrs ip).
Definition set_isize (ip : inode) (n : Z) : inode :=
  mk_inode (idev ip) (inum ip) (iref ip) (ilocked ip) (ivalid ip) (itype ip) (imajor ip) (iminor ip) (inlink ip)
    n (iaddrs ip).
Definition set_addrs (ip : inode) (l : list Z) : inode :=
  mk_inode (idev ip) (inum ip) (iref ip) (ilocked ip) (ivalid ip) (itype ip) (imajor ip) (iminor ip) (inlink ip)
    (isize ip) l.

(** The bytes of a block from an offset, and storing bytes in it. *)
Fixpoint block_bytes (x : block) (o : Z) (n : nat) : list Z :=
  match n with
  | O => []
  | S k => read8 x o :: block_bytes x (o + 1) k
  end.
Fixpoint put_bytes (x : block) (o : Z) (bs : list Z) : block :=
  match bs with
  | [] => x
  | b :: bs' => put_bytes (write8 x o b) (o + 1) bs'
  end.

(** ** Blocks *)

Definition bzero (bno : Z) : F unit :=
  let* x := lift (bread bno) in
  lift (log_write bno (memset x 0 0 BSIZE)).

Definition BBLOCK (b : Z) (sb : superblock) : Z := b / BPB + sb_bmapstart sb.

(** The inner loop of [balloc]: the first clear bit of the bitmap block. *)
Definition bit_mask (bi : Z) : Z := Z.shiftl 1 (bi mod 8).
Fixpoint balloc_scan (n : nat) (x : block) (b bi size : Z) : option Z :=
  match n with
  | O => None
  | S k =>
      if b + bi <? size then
        if Z.land (read8 x (bi / 8)) (bit_mask bi) =? 0 then Some bi
        else balloc_scan k x b (bi + 1) size
      else None
  end.

Fixpoint balloc_loop (n : nat) (b : Z) : F Z :=
  match n with
  | O => panic "balloc: out of blocks"
  | S k =>
      let* s := gets sb in
      let* x := lift (bread (BBLOCK b s)) in
      match balloc_scan (Z.to_nat BPB) x b 0 (sb_size s) with
      | Some bi =>
          do* lift (log_write (BBLOCK b s)
                (write8 x (bi / 8) (Z.lor (read8 x (bi / 8)) (bit_mask bi)))) in
          do* bzero (b + bi) in
          ret (b + bi)
      | None => balloc_loop k (b + BPB)
      end
  end.
(** [for(b = 0; b < sb.size; b += BPB)] makes as many turns as the bitmap has
    blocks. *)
Definition balloc : F Z :=
  let* s := gets sb in
  balloc_loop (Z.to_nat ((sb_size s + BPB - 1) / BPB)) 0.

Definition bfree (b : Z) : F unit :=
  let* s := gets sb in
  let* x := lift (bread (BBLOCK b s)) in
  let bi := b mod BPB in
  if Z.land (read8 x (bi / 8)) (bit_mask bi) =? 0 then panic "freeing free block"
  else lift (log_write (BBLOCK b s)
         (write8 x (bi / 8) (Z.land (read8 x (bi / 8)) (Z.lnot (bit_mask bi))))).

(** ** Inodes *)

Definition iinit : F unit :=
  let* s := lift readsb in
  modify (fun f => mk_fstate (ds f) s
    ((fun ip => set_ilocked ip false) <$> icache f)).

Definition IBLOCK (i : Z) (sb : superblock) : Z := i / IPB + sb_inodestart sb.

(** [struct dinode] at offset [o] of a block. *)
Definition di_type (x : block) (o : Z) : Z := s16 (read16 x o).
Definition di_major (x : block) (o : Z) : Z := s16 (read16 x (o + 2)).
Definition di_minor (x : block) (o : Z) : Z := s16 (read16 x (o + 4)).
Definition di_nlink (x : block) (o : Z) : Z := s16 (read16 x (o + 6)).
Definition di_size (x : block) (o : Z) : Z := read32 x (o + 8).
Fixpoint get_addrs (x : block) (o : Z) (n : nat) : list Z :=
  match n with
  | O => []
  | S k => read32 x o :: get_addrs x (o + 4) k
  end.
Fixpoint put_addrs (x : block) (o : Z) (l : list Z) : block :=
  match l with
  | [] => x
  | a :: l' => put_addrs (write32 x o a) (o + 4) l'
  end.

(** [iget]'s scan: a referenced entry for the inode, and the first free one. *)
Fixpoint icache_find (f : inode -> bool) (l : list inode) (i : nat) : option nat :=
  match l with
  | [] => None
  | ip :: l' => if f ip then Some i else icache_find f l' (S i)
  end.

Definition iget (dev n : Z) : F nat :=
  let* l := gets icache in
  match icache_find (fun ip => (0 <? iref ip) && (idev ip =? dev) && (inum ip =? n)) l 0 with
  | Some i =>
      let* ip := get_inode i in
      do* put_inode i (set_ref ip (iref ip + 1)) in
      ret i
  | None =>
      match icache_find (fun ip => iref ip =? 0) l 0 with
      | None => panic "iget: no inodes"
      | Some i =>
          let* ip := get_inode i in
          do* put_inode i (mk_inode dev n 1 (ilocked ip) false (itype ip) (imajor ip) (iminor ip)
                (inlink ip) (isize ip) (iaddrs ip)) in
          ret i
      end
  end.

Fixpoint ialloc_loop (k : nat) (dev type n : Z) : F nat :=
  match k with
  | O => panic "ialloc: no inodes"
  | S k' =>
      let* s := gets sb in
      let* x := lift (bread (IBLOCK n s)) in
      let o := (n mod IPB) * sizeof_dinode in
      if di_type x o =? 0 then
        do* lift (log_write (IBLOCK n s) (write16 (memset x o 0 sizeof_dinode) o type)) in
        iget dev n
      else ialloc_loop k' dev type (n + 1)
  end.
Definition ialloc (dev type : Z) : F nat :=
  let* s := gets sb in
  ialloc_loop (Z.to_nat (sb_ninodes s - 1)) dev type 1.

Definition put_dinode (x : block) (o : Z) (ip : inode) : block :=
  let x := write16 x o (itype ip) in
  let x := write16 x (o + 2) (imajor ip) in
  let x := write16 x (o + 4) (iminor ip) in
  let x := write16 x (o + 6) (inlink ip) in
  let x := write32 x (o + 8) (isize ip) in
  put_addrs x (o + 12) (iaddrs ip).

Definition iupdate (i : nat) : F unit :=
  let* ip := get_inode i in
  let* s := gets sb in
  let* x := lift (bread (IBLOCK (inum ip) s)) in
  lift (log_write (IBLOCK (inum ip) s) (put_dinode x ((inum ip mod IPB) * sizeof_dinode) ip)).

Definition idup (i : nat) : F nat :=
  let* ip := get_inode i in
  do* put_inode i (set_ref ip (iref ip + 1)) in
  ret i.

Definition acquire_ilock (i : nat) : F unit :=
  let* ip := get_inode i in
  if ilocked ip then fault "acquiresleep: deadlock" else put_inode i (set_ilocked ip true).
Definition release_ilock (i : nat) : F unit :=
  let* ip := get_inode i in
  put_inode i (set_ilocked ip false).

Definition ilock (o : option nat) : F unit :=
  match o with
  | None => panic "ilock"
  | Some i =>
      let* ip := get_inode i in
      if iref ip <? 1 then panic "ilock"
      else
        do* acquire_ilock i in
        let* ip := get_inode i in
        if ivalid ip then ret tt
        else
          let* s := gets sb in
          let* x := lift (bread (IBLOCK (inum ip) s)) in
          let o := (inum ip mod IPB) * sizeof_dinode in
          do* put_inode i (mk_inode (idev ip) (inum ip) (iref ip) (ilocked ip) true (di_type x o)
                (di_major x o) (di_minor x o) (di_nlink x o) (di_size x o)
                (get_addrs x (o + 12) (Z.to_nat (NDIRECT + 1)))) in
          if di_type x o =? 0 then panic "ilock: no type" else ret tt
  end.

Definition iunlock (o : option nat) : F unit :=
  match o with
  | None => panic "iunlock"
  | Some i =>
      let* ip := get_inode i in
      if negb (ilocked ip) || (iref ip <? 1) then panic "iunlock" else release_ilock i
  end.

(** ** Contents *)

Definition addr_at (l : list Z) (k : Z) : Z := default 0 (l !! Z.to_nat k).

Definition bmap (i : nat) (bn : Z) : F Z :=
  let* ip := get_inode i in
  if bn <? NDIRECT then
    let addr := addr_at (iaddrs ip) bn in
    if addr =? 0 then
      let* addr := balloc in
      do* put_inode i (set_addrs ip (<[Z.to_nat bn := addr]> (iaddrs ip))) in
      ret addr
    else ret addr
  else
    let bn := bn - NDIRECT in
    if bn <? NINDIRECT then
      let addr := addr_at (iaddrs ip) NDIRECT in
      let* addr := (if addr =? 0 then
                      let* addr := balloc in
                      do* put_inode i (set_addrs ip (<[Z.to_nat NDIRECT := addr]> (iaddrs ip))) in
                      ret addr
                    else ret addr) in
      let* a := lift (bread addr) in
      let x := read32 a (4 * bn) in
      if x =? 0 then
        let* b := balloc in
        (* the buffer as it is now *)
        let* a := lift (bread addr) in
        do* lift (log_write addr (write32 a (4 * bn) b)) in
        ret b
      else ret x
    else panic "bmap: out of range".

Fixpoint itrunc_direct (n : nat) (k : Z) (i : nat) : F unit :=
  match n with
  | O => ret tt
  | S n' =>
      let* ip := get_inode i in
      let a := addr_at (iaddrs ip) k in
      do* (if a =? 0 then ret tt
           else do* bfree a in
                put_inode i (set_addrs ip (<[Z.to_nat k := 0]> (iaddrs ip)))) in
      itrunc_direct n' (k + 1) i
  end.
Fixpoint itrunc_indirect (n : nat) (j ind : Z) : F unit :=
  match n with
  | O => ret tt
  | S n' =>
      let* a := lift (bread ind) in
      let b := read32 a (4 * j) in
      do* (if b =? 0 then ret tt else bfree b) in
      itrunc_indirect n' (j + 1) ind
  end.
Definition itrunc (i : nat) : F unit :=
  do* itrunc_direct (Z.to_nat NDIRECT) 0 i in
  let* ip := get_inode i in
  let ind := addr_at (iaddrs ip) NDIRECT in
  do* (if ind =? 0 then ret tt
       else
         do* itrunc_indirect (Z.to_nat NINDIRECT) 0 ind in
         do* bfree ind in
         put_inode i (set_addrs ip (<[Z.to_nat NDIRECT := 0]> (iaddrs ip)))) in
  let* ip := get_inode i in
  do* put_inode i (set_isize ip 0) in
  iupdate i.

Definition iput (i : nat) : F unit :=
  do* acquire_ilock i in
  let* ip := get_inode i in
  do* (if ivalid ip && (inlink ip =? 0) && (iref ip =? 1) then
         do* itrunc i in
         let* ip := get_inode i in
         do* put_inode i (set_type ip 0) in
         do* iupdate i in
         let* ip := get_inode i in
         put_inode i (set_valid ip false)
       else ret tt) in
  do* release_ilock i in
  let* ip := get_inode i in
  put_inode i (set_ref ip (iref ip - 1)).

Definition iunlockput (i : nat) : F unit :=
  do* iunlock (Some i) in
  iput i.

Record stat := mk_stat { st_dev : Z; st_ino : Z; st_type : Z; st_nlink : Z; st_size : Z }.
Definition stati (ip : inode) : stat :=
  mk_stat (idev ip) (inum ip) (itype ip) (inlink ip) (isize ip).

Section Content.
(** [devsw]: the device drivers. *)
Context (dev_read : Z -> option (nat -> Z -> F (option (list Z)))).
Context (dev_write : Z -> option (nat -> list Z -> F (option Z))).

(** The loop of [readi]; every turn moves at least one byte. *)
Fixpoint readi_loop (fuel : nat) (i : nat) (off n : Z) : F (list Z) :=
  match fuel with
  | O => fun _ => OutOfFuel
  | S k =>
      if 0 <? n then
        let* b := bmap i (off / BSIZE) in
        let* x := lift (bread b) in
        let m := Z.min n (BSIZE - off mod BSIZE) in
        let* rest := readi_loop k i (off + m) (n - m) in
        ret (block_bytes x (off mod BSIZE) (Z.to_nat m) ++ rest)
      else ret []
  end.

(** [None] is -1; otherwise the bytes, as many as the return value. *)
Definition readi (i : nat) (off n : Z) : F (option (list Z)) :=
  let* ip := get_inode i in
  if itype ip =? T_DEV then
    if (imajor ip <? 0) || (NDEV <=? imajor ip) then ret None
    else match dev_read (imajor ip) with
         | None => ret None
         | Some f => f i n
         end
  else if (isize ip <? off) || (u32 (off + n) <? off) then ret None
  else
    let n := if isize ip <? u32 (off + n) then isize ip - off else n in
    let* bs := readi_loop (S (Z.to_nat n)) i off n in
    ret (Some bs).

Fixpoint writei_loop (fuel : nat) (i : nat) (off : Z) (src : list Z) : F Z :=
  match fuel with
  | O => fun _ => OutOfFuel
  | S k =>
      match src with
      | [] => ret off
      | _ =>
          let* b := bmap i (off / BSIZE) in
          let* x := lift (bread b) in
          let m := Z.min (Z.of_nat (length src)) (BSIZE - off mod BSIZE) in
          do* lift (log_write b (put_bytes x (off mod BSIZE) (take (Z.to_nat m) src))) in
          writei_loop k i (off + m) (drop (Z.to_nat m) src)
      end
  end.

(** [src] is the [n] bytes to write; the result is [n], or [None] for -1. *)
Definition writei (i : nat) (src : list Z) (off : Z) : F (option Z) :=
  let n := Z.of_nat (length src) in
  let* ip := get_inode i in
  if itype ip =? T_DEV then
    if (imajor ip <? 0) || (NDEV <=? imajor ip) then ret None
    else match dev_write (imajor ip) with
         | None => ret None
         | Some f => f i src
         end
  else if (isize ip <? off) || (u32 (off + n) <? off) then ret None
  else if MAXFILE * BSIZE <? u32 (off + n) then ret None
  else
    let* off := writei_loop (S (length src)) i off src in
    let* ip := get_inode i in
    do* (if (0 <? n) && (isize ip <? off) then
           do* put_inode i (set_isize ip off) in
           iupdate i
         else ret tt) in
    ret (Some n).

(** ** Directories *)

Definition char_at (s : list Z) (k : nat) : Z := default 0 (s !! k).

(** [strncmp] on such strings. *)
Fixpoint strncmp_list (n : nat) (s t : list Z) : Z :=
  match n with
  | O => 0
  | S k =>
      if negb (char_at s 0 =? 0) && (char_at s 0 =? char_at t 0) then strncmp_list k (tail s) (tail t)
      else char_at s 0 - char_at t 0
  end.
Definition namecmp (s t : list Z) : Z := strncmp_list (Z.to_nat DIRSIZ) s t.

(** [strncpy(de.name, name, DIRSIZ)]: copied up to the NUL, then padded. *)
Fixpoint strncpy_list (n : nat) (s : list Z) : list Z :=
  match n with
  | O => []
  | S k =>
      if char_at s 0 =? 0 then replicate n 0
      else char_at s 0 :: strncpy_list k (tail s)
  end.

(** [struct dirent]: a 16-bit number and the name. *)
Definition de_inum (de : list Z) : Z := char_at de 0 + 256 * char_at de 1.
Definition de_name (de : list Z) : list Z := drop 2 de.
Definition mk_dirent (n : Z) (nm : list Z) : list Z := [u8 n; u8 (Z.shiftr n 8)] ++ nm.

(** The entry, or [panic msg] when the file ends within it. *)
Definition read_dirent (i : nat) (off : Z) (msg : string) : F (list Z) :=
  let* r := readi i off sizeof_dirent in
  match r with
  | Some de => if Z.of_nat (length de) =? sizeof_dirent then ret de else panic msg
  | None => panic msg
  end.

Fixpoint dirlookup_loop (fuel : nat) (i : nat) (nm : list Z) (off : Z) : F (option (nat * Z)) :=
  match fuel with
  | O => fun _ => OutOfFuel
  | S k =>
      let* dp := get_inode i in
      if off <? isize dp then
        let* de := read_dirent i off "dirlookup read" in
        if de_inum de =? 0 then dirlookup_loop k i nm (off + sizeof_dirent)
        else if namecmp nm (de_name de) =? 0 then
          let* r := iget (idev dp) (de_inum de) in
          ret (Some (r, off))
        else dirlookup_loop k i nm (off + sizeof_dirent)
      else ret None
  end.

(** The inode and the offset of its entry. *)
Definition dirlookup (i : nat) (nm : list Z) : F (option (nat * Z)) :=
  let* dp := get_inode i in
  if negb (itype dp =? T_DIR) then panic "dirlookup not DIR"
  else dirlookup_loop (S (Z.to_nat (isize dp / sizeof_dirent + 1))) i nm 0.

(** The offset of the first empty entry, or of the end. *)
Fixpoint dirlink_slot (fuel : nat) (i : nat) (off : Z) : F Z :=
  match fuel with
  | O => fun _ => OutOfFuel
  | S k =>
      let* dp := get_inode i in
      if off <? isize dp then
        let* de := read_dirent i off "dirlink read" in
        if de_inum de =? 0 then ret off else dirlink_slot k i (off + sizeof_dirent)
      else ret off
  end.

Definition dirlink (i : nat) (nm : list Z) (n : Z) : F Z :=
  let* r := dirlookup i nm in
  match r with
  | Some (j, _) => do* iput j in ret (-1)
  | None =>
      let* dp := get_inode i in
      let* off := dirlink_slot (S (Z.to_nat (isize dp / sizeof_dirent + 1))) i 0 in
      let* r := writei i (mk_dirent n (strncpy_list (Z.to_nat DIRSIZ) nm)) off in
      match r with
      | Some w => if w =? sizeof_dirent then ret 0 else panic "dirlink"
      | None => panic "dirlink"
      end
  end.

(** ** Paths *)

Fixpoint skip_slashes (p : list Z) : list Z :=
  match p with
  | c :: p' => if c =? 47 then skip_slashes p' else p
  | [] => []
  end.
Fixpoint take_elem (p : list Z) : list Z * list Z :=
  match p with
  | [] => ([], [])
  | c :: p' =>
      if (c =? 47) || (c =? 0) then ([], p)
      else let '(e, r) := take_elem p' in (c :: e, r)
  end.

(** [name] is the caller's buffer of [DIRSIZ] bytes. *)
Definition skipelem (path name : list Z) : option (list Z * list Z) :=
  let path := skip_slashes path in
  if char_at path 0 =? 0 then None
  else
    let '(e, r) := take_elem path in
    let len := length e in
    let name := if DIRSIZ <=? Z.of_nat len then take (Z.to_nat DIRSIZ) e
                else e ++ 0 :: drop (len + 1) name in
    Some (skip_slashes r, name).

(** The loop of [namex]: the inode, with the name of the last element. *)
Fixpoint namex_loop (fuel : nat) (i : nat) (path : list Z) (parent : bool) (name : list Z) :
    F (option (nat * list Z)) :=
  match fuel with
  | O => fun _ => OutOfFuel
  | S k =>
      match skipelem path name with
      | None =>
          if parent then do* iput i in ret None
          else ret (Some (i, name))
      | Some (path, name) =>
          do* ilock (Some i) in
          let* ip := get_inode i in
          if negb (itype ip =? T_DIR) then do* iunlockput i in ret None
          else if parent && (char_at path 0 =? 0) then
            do* iunlock (Some i) in
            ret (Some (i, name))
          else
            let* r := dirlookup i name in
            match r with
            | None => do* iunlockput i in ret None
            | Some (next, _) =>
                do* iunlockput i in
                namex_loop k next path parent name
            end
      end
  end.

(** [cwd] is the current directory of the process; every turn consumes an
    element of the path. *)
Definition namex (cwd : nat) (path : list Z) (parent : bool) (name : list Z) : F (option (nat * list Z)) :=
  let* i := (if char_at path 0 =? 47 then iget ROOTDEV ROOTINO else idup cwd) in
  namex_loop (S (length path)) i path parent name.

Definition namei (cwd : nat) (path : list Z) : F (option nat) :=
  let* r := namex cwd path false (replicate (Z.to_nat DIRSIZ) 0) in
  ret (fst <$> r).
Definition nameiparent (cwd : nat) (path name : list Z) : F (option (nat * list Z)) :=
  namex cwd path true name.

End Content.
