(* ===== verification/FsProof.v ===== *)
(** * Blocks and file contents

    The bitmap hands out each block once and zeroed, and a file reads back
    what was written to it.  The statements speak about the logged view of the
    disk, which Log.v makes durable. *)
From S2P Require Import Prelude Memory KString Log LogProof Fs.

#[local] Opaque BSIZE BPB.

Definition vw (s : fstate) (b : Z) : block := view (ds s) b.

(** The log is at [lst] and has [lsz] blocks; [D0] is the state of the disk when the transaction
    began. *)
Section Disk.
Context (lst lsz : Z) (D0 : dstate).

(** ** Room in the log *)

(** Blocks a transaction may log: not those of the log itself. *)
Definition loggable (b : Z) : Prop := 0 <= b < 2147483648 /\ home lst lsz b.

(** A transaction is open, and the log is as a transaction keeps it. *)
Record in_txn (d : dstate) : Prop := {
  tx_open : outstanding (log d) = outstanding (log D0) /\ 1 <= outstanding (log D0);
  tx_quiet : committing (log d) = false;
  tx_start : start (log d) = lst;
  tx_size : size (log d) = lsz;
  tx_disk : disk d = disk D0 /\ trace d = trace D0;
  tx_nodup : NoDup (lh_block (log d));
  tx_blocks : Forall loggable (lh_block (log d));
  tx_cached : forall b, b ∉ lh_block (log d) -> cached d !! b = None;
  tx_empty : decode (disk_at (disk d) lst) = []
}.

(** There is room for [k] more blocks in it. *)
Definition room (s : fstate) (k : Z) : Prop :=
  in_txn (ds s) /\
  Z.of_nat (length (lh_block (log (ds s)))) + k <= Z.min LOGSIZE (size (log (ds s)) - 1).

Lemma room_weaken s k k' : room s k -> k' <= k -> room s k'.
Proof. intros [H1 H2] Hk. split; [done|lia]. Qed.

Lemma lift_bread b s : lift (bread b) s = Ret (vw s b) s.
Proof. unfold lift, bread, gets, vw. by destruct s. Qed.

Lemma lift_log_write b x s k :
  room s k -> loggable b -> 1 <= k ->
  exists s', lift (log_write b x) s = Ret tt s' /\ sb s' = sb s /\ icache s' = icache s /\ room s' (k - 1) /\
    forall b', vw s' b' = if decide (b' = b) then x else vw s b'.
Proof.
  intros [[[Ho Ho1] Hq Hst Hsz Hdk Hnd Hbl Hca He] Hr] Hb Hk. unfold lift, log_write, gets, set_lh, modify, bind. destruct s as [d sb0 ic]. cbn in *.
  destruct (Z.leb_spec LOGSIZE (Z.of_nat (length (lh_block (log d))))); [lia|].
  destruct (Z.leb_spec (size (log d) - 1) (Z.of_nat (length (lh_block (log d))))); [lia|].
  destruct (Z.ltb_spec (outstanding (log d)) 1); [lia|]. cbn. eexists. split; [done|]. split; [done|]. split; [done|].
  split; [split|].
  - split; cbn; try done.
    + case_bool_decide; [done|]. apply NoDup_app. split_and!; [done|set_solver|apply NoDup_singleton].
    + case_bool_decide; [done|]. apply Forall_app. by split; [|apply Forall_singleton].
    + intros b' Hb'. rewrite lookup_insert_ne; [apply Hca|]; case_bool_decide; set_solver.
  - cbn. case_bool_decide; [lia|]. rewrite length_app. cbn. lia.
  - intros b'. unfold vw, view. cbn. case_decide; [subst; by rewrite lookup_insert_eq|].
    by rewrite lookup_insert_ne.
Qed.

(** ** Bits of a bitmap block *)

Definition bitv (x : block) (bi : Z) : bool := Z.testbit (read8 x (bi / 8)) (bi mod 8).

Lemma bit_mask_test y bi : (Z.land y (bit_mask bi) =? 0) = negb (Z.testbit y (bi mod 8)).
Proof.
  unfold bit_mask. rewrite Z.shiftl_1_l. apply land_pow2_eqb. pose proof (Z.mod_pos_bound bi 8). lia.
Qed.

Lemma bit_mask_bit bi k : Z.testbit (bit_mask bi) k = (bi mod 8 =? k).
Proof.
  unfold bit_mask. rewrite Z.shiftl_1_l. pose proof (Z.mod_pos_bound bi 8).
  destruct (Z.ltb_spec k 0); [rewrite Z.testbit_neg_r by done; symmetry; apply Z.eqb_neq; lia|].
  apply Z.pow2_bits_eqb. lia.
Qed.

Lemma u8_testbit x k : 0 <= k < 8 -> Z.testbit (u8 x) k = Z.testbit x k.
Proof. intros. unfold u8. change 256 with (2 ^ 8). apply Z.mod_pow2_bits_low. lia. Qed.

Lemma div8_eqb bi bi' : (bi' =? bi) = (bi' / 8 =? bi / 8) && (bi mod 8 =? bi' mod 8).
Proof.
  pose proof (Z.div_mod bi 8). pose proof (Z.div_mod bi' 8). destruct (Z.eqb_spec bi' bi) as [->|Hne].
  - by rewrite !Z.eqb_refl.
  - destruct (Z.eqb_spec (bi' / 8) (bi / 8)); [|done]. destruct (Z.eqb_spec (bi mod 8) (bi' mod 8)); [lia|done].
Qed.

Lemma bitv_set x bi bi' :
  bitv (write8 x (bi / 8) (Z.lor (read8 x (bi / 8)) (bit_mask bi))) bi' = bitv x bi' || (bi' =? bi).
Proof.
  unfold bitv. pose proof (Z.mod_pos_bound bi' 8). rewrite read8_write8, div8_eqb. case_decide as E.
  - rewrite u8_testbit, Z.lor_spec, bit_mask_bit, E by lia. by rewrite Z.eqb_refl.
  - destruct (Z.eqb_spec (bi' / 8) (bi / 8)); [congruence|]. by rewrite orb_false_r.
Qed.

Lemma bitv_clear x bi bi' :
  bitv (write8 x (bi / 8) (Z.land (read8 x (bi / 8)) (Z.lnot (bit_mask bi)))) bi' =
  bitv x bi' && negb (bi' =? bi).
Proof.
  unfold bitv. pose proof (Z.mod_pos_bound bi' 8). rewrite read8_write8, div8_eqb. case_decide as E.
  - rewrite u8_testbit, Z.land_spec, Z.lnot_spec, bit_mask_bit, E by lia. by rewrite Z.eqb_refl.
  - destruct (Z.eqb_spec (bi' / 8) (bi / 8)); [congruence|]. by rewrite andb_true_r.
Qed.

Lemma balloc_scan_Some x b size n : forall bi r,
  balloc_scan n x b bi size = Some r -> bi <= r < bi + Z.of_nat n /\ b + r < size /\ bitv x r = false.
Proof.
  induction n as [|n IH]; intros bi r; [done|]. cbn [balloc_scan].
  destruct (Z.ltb_spec (b + bi) size); [|done]. rewrite bit_mask_test. fold (bitv x bi).
  destruct (bitv x bi) eqn:E; cbn [negb].
  - intros H1%IH. split; [lia|]. split; [lia|apply H1].
  - intros [= <-]. split; [lia|]. done.
Qed.

Lemma balloc_scan_None x b size n : forall bi,
  balloc_scan n x b bi size = None ->
  forall r, bi <= r < bi + Z.of_nat n -> b + r < size -> bitv x r = true.
Proof.
  induction n as [|n IH]; intros bi Hs r Hr Hsz; [lia|]. cbn [balloc_scan] in Hs.
  destruct (Z.ltb_spec (b + bi) size); [|lia]. rewrite bit_mask_test in Hs. fold (bitv x bi) in Hs.
  destruct (bitv x bi) eqn:E; cbn [negb] in Hs; [|done].
  destruct (Z.eq_dec r bi) as [->|Hne]; [done|]. apply (IH (bi + 1)); [done|lia|done].
Qed.

(** ** Layout and bitmap *)

(** The blocks below [dstart] are metadata: super block, log, inodes, bitmap. *)
Context (dstart : Z).

Record layout (b : superblock) : Prop := {
  ly_pos : 0 < dstart;
  ly_size : dstart <= sb_size b < 4294967296;
  ly_bmap : forall n, 0 <= n < sb_size b -> 0 <= BBLOCK n b < dstart;
  ly_inode : forall n, 0 <= n < sb_ninodes b -> 0 <= IBLOCK n b < dstart /\
    forall m, 0 <= m < sb_size b -> IBLOCK n b <> BBLOCK m b;
  ly_log : lst + lsz <= dstart /\ sb_size b <= 2147483648 /\
    (forall n, 0 <= n < sb_size b -> home lst lsz (BBLOCK n b)) /\
    (forall n, 0 <= n < sb_ninodes b -> home lst lsz (IBLOCK n b))
}.

Definition used (s : fstate) (b : Z) : bool := bitv (vw s (BBLOCK b (sb s))) (b mod BPB).

(** The metadata blocks are never free. *)
Record fs_ok (s : fstate) : Prop := {
  fo_layout : layout (sb s);
  fo_meta : forall b, 0 <= b < dstart -> used s b = true
}.

Definition free_blocks (s : fstate) (k : nat) : Prop :=
  exists l, NoDup l /\ (k <= length l)%nat /\ forall b, b ∈ l -> 0 <= b < sb_size (sb s) /\ used s b = false.

Definition is_bmap (b : superblock) (a : Z) : Prop := exists n, 0 <= n < sb_size b /\ a = BBLOCK n b.

(** What [balloc] does when it returns [b]. *)
Record allocated (s s' : fstate) (b : Z) : Prop := {
  al_range : dstart <= b < sb_size (sb s);
  al_free : used s b = false;
  al_sb : sb s' = sb s;
  al_icache : icache s' = icache s;
  al_used : forall n, 0 <= n < sb_size (sb s) -> used s' n = used s n || (n =? b);
  al_zero : forall o, 0 <= o < 512 -> read8 (vw s' b) o = 0;
  al_frame : forall a, a <> b -> ~ is_bmap (sb s) a -> vw s' a = vw s a
}.

Lemma BPB_val : BPB = 4096.
Proof. reflexivity. Qed.
Lemma BSIZE_val : BSIZE = 512.
Proof. reflexivity. Qed.

Lemma loggable_data b n : layout b -> dstart <= n < sb_size b -> loggable n.
Proof. intros [H1 H2 _ _ (H5 & H6 & _)] Hn. split; [lia|]. right. lia. Qed.
Lemma loggable_bmap b n : layout b -> 0 <= n < sb_size b -> loggable (BBLOCK n b).
Proof. intros [H1 H2 H3 _ (_ & H6 & H7 & _)] Hn. specialize (H3 n Hn). split; [lia|]. by apply H7. Qed.
Lemma loggable_inode b n : layout b -> 0 <= n < sb_ninodes b -> loggable (IBLOCK n b).
Proof. intros [H1 H2 _ H4 (_ & H6 & _ & H8)] Hn. destruct (H4 n Hn). split; [lia|]. by apply H8. Qed.

Lemma BBLOCK_eq b b' sb0 : BBLOCK b sb0 = BBLOCK b' sb0 <-> b / 4096 = b' / 4096.
Proof. unfold BBLOCK. rewrite BPB_val. lia. Qed.

(** The two log writes of [balloc], once the bit is found. *)
Lemma balloc_take s b k :
  fs_ok s -> dstart <= b < sb_size (sb s) -> used s b = false -> room s k -> 2 <= k ->
  exists s', (do* lift (log_write (BBLOCK b (sb s))
      (write8 (vw s (BBLOCK b (sb s))) (b mod BPB / 8)
         (Z.lor (read8 (vw s (BBLOCK b (sb s))) (b mod BPB / 8)) (bit_mask (b mod BPB))))) in
      do* bzero b in ret b) s = Ret b s' /\ allocated s s' b /\ room s' (k - 2).
Proof.
  intros [Hl Hm] Hb Hu Hr Hk. set (x := vw s (BBLOCK b (sb s))).
  destruct (lift_log_write (BBLOCK b (sb s)) (write8 x (b mod BPB / 8)
    (Z.lor (read8 x (b mod BPB / 8)) (bit_mask (b mod BPB)))) s k Hr (loggable_bmap (sb s) b Hl ltac:(pose proof (ly_pos _ Hl); lia)) ltac:(lia)) as (s1 & E1 & Hsb1 & Hic1 & Hr1 & Hv1).
  destruct (lift_log_write b (memset (vw s1 b) 0 0 BSIZE) s1 (k - 1) Hr1 (loggable_data (sb s) b Hl Hb) ltac:(lia)) as (s2 & E2 & Hsb2 & Hic2 & Hr2 & Hv2).
  assert (Hne : b <> BBLOCK b (sb s)).
  { destruct Hl as [? ? Hbm _ _]. specialize (Hbm b ltac:(lia)). lia. }
  exists s2. split; [|split; [|by replace (k - 2) with (k - 1 - 1) by lia]].
  - rewrite (bind_Ret _ _ _ _ _ E1). unfold bzero. rewrite (bind_Ret _ _ _ tt s2); [done|].
    rewrite (bind_Ret _ _ _ _ _ (lift_bread b s1)). exact E2.
  - split; [done|done|congruence|congruence|..].
    + intros n Hn. unfold used. rewrite Hsb2, Hsb1, Hv2. rewrite decide_False.
      2:{ destruct Hl as [? ? Hbm _ _]. specialize (Hbm n Hn). lia. }
      rewrite Hv1. case_decide as E.
      * apply BBLOCK_eq in E as E'. rewrite bitv_set. unfold x. rewrite <- E. f_equal.
        rewrite BPB_val. destruct (Z.eqb_spec (n mod 4096) (b mod 4096)), (Z.eqb_spec n b); try done;
          exfalso; Z.div_mod_to_equations; lia.
      * destruct (Z.eqb_spec n b) as [->|]; [done|by rewrite orb_false_r].
    + intros o Ho. rewrite Hv2, decide_True by done. rewrite read8_memset, decide_True; [done| |].
      * unfold in_range. rewrite BSIZE_val. lia.
      * rewrite BSIZE_val. lia.
    + intros a Hab Hbm. rewrite Hv2, decide_False by done. rewrite Hv1, decide_False; [done|].
      intros ->. apply Hbm. exists b. split; [|done]. destruct Hl. lia.
Qed.

Lemma balloc_loop_spec n : forall b s k,
  fs_ok s -> room s k -> 2 <= k -> 0 <= b -> b mod BPB = 0 ->
  sb_size (sb s) <= b + BPB * Z.of_nat n ->
  (exists f, b <= f < sb_size (sb s) /\ used s f = false) ->
  exists r s', balloc_loop n b s = Ret r s' /\ allocated s s' r /\ room s' (k - 2).
Proof.
  induction n as [|n IH]; intros b s k Hok Hr Hk Hb Hal Hn (f & Hf & Huf); [lia|].
  cbn [balloc_loop]. unfold gets. unfold bind at 1. rewrite (bind_Ret _ _ _ _ _ (lift_bread _ s)).
  destruct (balloc_scan _ _ _ _ _) as [bi|] eqn:Es.
  - apply balloc_scan_Some in Es as (Hbi & Hsz & Hbit). rewrite Z2Nat.id in Hbi by (rewrite BPB_val; lia).
    assert (Hd : b / BPB = (b + bi) / BPB /\ (b + bi) mod BPB = bi).
    { rewrite BPB_val in *. Z.div_mod_to_equations. lia. }
    assert (Hu : used s (b + bi) = false).
    { unfold used, BBLOCK in *. destruct Hd as [<- ->]. exact Hbit. }
    assert (Hge : dstart <= b + bi).
    { destruct (Z.le_gt_cases dstart (b + bi)); [done|]. rewrite (fo_meta s Hok (b + bi)) in Hu by lia. done. }
    destruct (balloc_take s (b + bi) k Hok ltac:(lia) Hu Hr Hk) as (s' & E & Ha & Hr').
    exists (b + bi), s'. split; [|done]. unfold BBLOCK in *. destruct Hd as [Hd1 Hd2]. rewrite <- Hd1, Hd2 in E. exact E.
  - apply (IH (b + BPB) s k); try done; [rewrite BPB_val in *; lia|rewrite BPB_val in *; Z.div_mod_to_equations; lia|lia|].
    exists f. split; [|done]. split; [|lia]. destruct (Z.le_gt_cases (b + BPB) f); [done|].
    exfalso. assert (Hx := balloc_scan_None _ _ _ _ _ Es (f - b)). rewrite Z2Nat.id in Hx by (rewrite BPB_val; lia).
    unfold used, BBLOCK in Huf. assert (f / BPB = b / BPB /\ f mod BPB = f - b) as [Hq Hm].
    { rewrite BPB_val in *. Z.div_mod_to_equations. lia. }
    rewrite Hq, Hm in Huf. unfold BBLOCK in Hx. rewrite Hx in Huf by lia. done.
Qed.

Lemma balloc_spec s k :
  fs_ok s -> room s k -> 2 <= k -> free_blocks s 1 ->
  exists b s', balloc s = Ret b s' /\ allocated s s' b /\ room s' (k - 2).
Proof.
  intros Hok Hr Hk ([|f l] & Hnd & Hlen & Hl); [cbn in Hlen; lia|].
  unfold balloc, gets. unfold bind at 1. destruct (Hl f (list_elem_of_here _ _)) as [Hf Hu].
  apply (balloc_loop_spec _ 0 s k); try done.
  - rewrite BPB_val. rewrite Z2Nat.id; Z.div_mod_to_equations; lia.
  - exists f. split; [lia|done].
Qed.

Lemma allocated_used s s' b n : allocated s s' b -> 0 <= n < sb_size (sb s) -> used s n = true -> used s' n = true.
Proof. intros Ha Hn Hu. rewrite (al_used _ _ _ Ha n Hn), Hu. done. Qed.

Lemma free_blocks_alloc s s' b k :
  (forall n, 0 <= n < sb_size (sb s) -> used s' n = used s n || (n =? b)) -> sb s' = sb s ->
  free_blocks s (S k) -> free_blocks s' k.
Proof.
  intros Hu Hsb (l & Hnd & Hlen & Hl). exists (List.filter (fun x => negb (x =? b)) l). split_and!.
  - apply NoDup_ListNoDup, List.NoDup_filter, NoDup_ListNoDup, Hnd.
  - clear Hl. revert k Hlen. induction l as [|x l IH]; intros k Hlen; [cbn in Hlen; lia|].
    apply NoDup_cons in Hnd as [Hx Hnd]. cbn. destruct (Z.eqb_spec x b) as [->|Hxb]; cbn [negb].
    + assert (Heq : List.filter (fun x => negb (x =? b)) l = l).
      { clear -Hx. induction l as [|y l IH]; [done|]. apply not_elem_of_cons in Hx as [Hy Hx]. cbn.
        destruct (Z.eqb_spec y b); [congruence|]. cbn. f_equal. by apply IH. }
      rewrite Heq. cbn in Hlen. lia.
    + cbn. destruct k as [|k]; [lia|]. specialize (IH Hnd k). cbn in Hlen. lia.
  - intros x Hx. apply list_elem_of_In, filter_In in Hx as [Hx Hb]. apply list_elem_of_In, Hl in Hx as [Hr Hf].
    rewrite Hsb, Hu, Hf by done. split; [done|]. by destruct (x =? b).
Qed.

(** ** The blocks of an inode *)

(** Block [k] of the file for [k < 140], and the indirect block for [k = 140];
    0 where there is none. *)
Definition sl (s : fstate) (ip : inode) (k : Z) : Z :=
  if k <? 12 then addr_at (iaddrs ip) k
  else
    let ind := addr_at (iaddrs ip) 12 in
    if k =? 140 then ind
    else if ind =? 0 then 0
    else read32 (vw s ind) (4 * (k - 12)).

Record ino_ok (s : fstate) (ip : inode) : Prop := {
  io_len : length (iaddrs ip) = 13%nat;
  io_range : forall k, 0 <= k <= 140 -> sl s ip k <> 0 ->
    dstart <= sl s ip k < sb_size (sb s) /\ used s (sl s ip k) = true;
  io_inj : forall k k', 0 <= k <= 140 -> 0 <= k' <= 140 -> sl s ip k <> 0 -> sl s ip k = sl s ip k' -> k = k'
}.

Definition owned (s : fstate) (ip : inode) (a : Z) : Prop := a <> 0 /\ exists k, 0 <= k <= 140 /\ sl s ip k = a.

(** Byte [off] of the file; what has no block yet reads as 0. *)
Definition content (s : fstate) (ip : inode) (off : Z) : Z :=
  let a := sl s ip (off / 512) in
  if a =? 0 then 0 else read8 (vw s a) (off mod 512).

(** The file has got more blocks, out of the free ones; nothing else changed,
    but bytes of its own blocks. *)
Record grow (s : fstate) (ip : inode) (s' : fstate) (ip' : inode) : Prop := {
  g_sb : sb s' = sb s;
  g_ip : ip' = set_addrs ip (iaddrs ip');
  g_used : forall b, 0 <= b < sb_size (sb s) -> used s b = true -> used s' b = true;
  g_old : forall k, 0 <= k <= 140 -> sl s ip k <> 0 -> sl s' ip' k = sl s ip k;
  g_new : forall k, 0 <= k <= 140 -> sl s ip k = 0 -> sl s' ip' k <> 0 ->
    0 <= sl s' ip' k < sb_size (sb s) /\ used s (sl s' ip' k) = false;
  g_frame : forall a, 0 <= a < sb_size (sb s) -> used s a = true -> ~ is_bmap (sb s) a -> ~ owned s ip a ->
    vw s' a = vw s a
}.

Lemma grow_refl s ip : grow s ip s ip.
Proof. split; try done. by destruct ip. Qed.

Lemma grow_trans s1 ip1 s2 ip2 s3 ip3 : grow s1 ip1 s2 ip2 -> grow s2 ip2 s3 ip3 -> grow s1 ip1 s3 ip3.
Proof.
  intros [A1 A2 A3 A4 A5 A6] [B1 B2 B3 B4 B5 B6]. rewrite A1 in *. split.
  - congruence.
  - rewrite B2, A2. done.
  - intros b Hb Hu. by apply B3, A3.
  - intros k Hk Hn. rewrite B4, A4; [done..|]. by rewrite A4.
  - intros k Hk Hz Hn. destruct (Z.eq_dec (sl s2 ip2 k) 0) as [E|E].
    + destruct (B5 k Hk E Hn) as [Hr Hu]. split; [done|]. destruct (used s1 _) eqn:E1; [|done].
      by rewrite A3 in Hu.
    + rewrite B4 by done. by apply A5.
  - intros a Ha Hu Hbm Ho. rewrite B6, A6; [done..|by apply A3|done|].
    intros [Hz (k & Hk & E)]. destruct (Z.eq_dec (sl s1 ip1 k) 0) as [E1|E1].
    + destruct (A5 k Hk E1) as [_ Hf]; [congruence|]. rewrite E in Hf. congruence.
    + apply Ho. split; [done|]. exists k. by rewrite <- A4.
Qed.

(** The superblock's bitmap blocks are metadata. *)
Lemma loggable_slot s ip k : fs_ok s -> ino_ok s ip -> 0 <= k <= 140 -> sl s ip k <> 0 -> loggable (sl s ip k).
Proof. intros Hok Hino Hk Hn. destruct (io_range s ip Hino k Hk Hn) as [H _]. exact (loggable_data _ _ (fo_layout _ Hok) H). Qed.

Lemma is_bmap_meta s a : fs_ok s -> is_bmap (sb s) a -> a < dstart.
Proof. intros [Hl _] (n & Hn & ->). destruct Hl as [_ _ H _]. by apply H. Qed.

(** One more block [b] in slot [k]; [w] is the only other block that may have
    changed. *)
Section Add.
Context (s s' : fstate) (ip ip' : inode) (k b w : Z).
Hypothesis Hok : fs_ok s.
Hypothesis Hino : ino_ok s ip.
Hypothesis Hk : 0 <= k <= 140.
Hypothesis Hfree : sl s ip k = 0.
Hypothesis Hb : dstart <= b < sb_size (sb s).
Hypothesis Hbfree : used s b = false.
Hypothesis Hsb : sb s' = sb s.
Hypothesis Hused : forall n, 0 <= n < sb_size (sb s) -> used s' n = used s n || (n =? b).
Hypothesis Hip : ip' = set_addrs ip (iaddrs ip').
Hypothesis Hlen : length (iaddrs ip') = 13%nat.
Hypothesis Hsl : forall j, 0 <= j <= 140 -> sl s' ip' j = if decide (j = k) then b else sl s ip j.
Hypothesis Hw : w = b \/ (w <> 0 /\ sl s ip 140 = w).
Hypothesis Hv : forall a, a <> b -> a <> w -> ~ is_bmap (sb s) a -> vw s' a = vw s a.
Hypothesis Hzero : forall o, 0 <= o < 512 -> read8 (vw s' b) o = 0.

Lemma add_fs_ok : fs_ok s'.
Proof using All.
  destruct Hok as [Hl Hm]. split; [by rewrite Hsb|]. intros a Ha. rewrite Hused, Hm; [done..|].
  destruct Hl. lia.
Qed.

Lemma add_not_b j : 0 <= j <= 140 -> sl s ip j <> b.
Proof using All.
  intros Hj E. assert (Hnz : sl s ip j <> 0) by (pose proof (ly_pos _ (fo_layout _ Hok)); lia).
  destruct (io_range s ip Hino j Hj Hnz) as [_ Hu]. rewrite E in Hu. congruence.
Qed.

Lemma add_ino_ok : ino_ok s' ip'.
Proof using All.
  split; [done|..].
  - intros j Hj. rewrite Hsl, Hsb by done. case_decide as E.
    + intros _. split; [done|]. rewrite Hused, Z.eqb_refl, orb_true_r; [done|].
      pose proof (ly_pos _ (fo_layout _ Hok)). lia.
    + intros Hn. destruct (io_range s ip Hino j Hj Hn) as [Hr Hu]. split; [done|].
      rewrite Hused, Hu; [done|]. pose proof (ly_pos _ (fo_layout _ Hok)). lia.
  - intros j j' Hj Hj'. rewrite !Hsl by done. repeat case_decide; subst; try done.
    + intros _ E. by destruct (add_not_b j' Hj').
    + intros _ E. by destruct (add_not_b j Hj).
    + by apply io_inj.
Qed.

Lemma add_grow : grow s ip s' ip'.
Proof using All.
  assert (Hpos := ly_pos _ (fo_layout _ Hok)). split; try done.
  - intros a Ha Hu. by rewrite Hused, Hu.
  - intros j Hj Hn. rewrite Hsl by done. case_decide; [congruence|done].
  - intros j Hj Hz. rewrite Hsl by done. case_decide; [|done]. intros _. split; [lia|done].
  - intros a Ha Hu Hbm Ho. apply Hv; [congruence| |done]. intros ->. destruct Hw as [->|[Hn0 Ew]]; [congruence|].
    apply Ho. split; [done|]. exists 140. split; [lia|done].
Qed.

(** The contents are the same: the new block reads as zeros. *)
Lemma add_content off : 0 <= off < 140 * 512 -> content s' ip' off = content s ip off.
Proof using All.
  intros Hoff. assert (Hpos := ly_pos _ (fo_layout _ Hok)). unfold content.
  assert (Hj : 0 <= off / 512 <= 140 /\ off / 512 <> 140) by (Z.div_mod_to_equations; lia).
  rewrite Hsl by lia. case_decide as E.
  - rewrite E, Hfree. cbn [Z.eqb]. destruct (Z.eqb_spec b 0); [lia|]. apply Hzero. Z.div_mod_to_equations. lia.
  - destruct (Z.eqb_spec (sl s ip (off / 512)) 0) as [_|Hn]; [done|].
    destruct (io_range s ip Hino (off / 512) ltac:(lia) Hn) as [Hr Hu]. rewrite Hv; [done|apply add_not_b; lia| |].
    + destruct Hw as [Hwb|[Hn0 Ew]]; [rewrite Hwb; apply add_not_b; lia|]. rewrite <- Ew. intros E'.
      apply (io_inj s ip Hino) in E'; [lia|lia|lia|done].
    + intros Hbm. apply (is_bmap_meta s) in Hbm; [lia|done].
Qed.
End Add.

(** ** [bmap] *)

Lemma addr_at_insert l k j b :
  length l = 13%nat -> 0 <= k < 13 -> 0 <= j ->
  addr_at (<[Z.to_nat k := b]> l) j = if decide (j = k) then b else addr_at l j.
Proof.
  intros Hl Hk Hj. unfold addr_at. case_decide as E.
  - subst. rewrite list_lookup_insert_eq; [done|lia].
  - rewrite list_lookup_insert_ne; [done|lia].
Qed.

Lemma read32_zero x o : (forall i, 0 <= i < 512 -> read8 x i = 0) -> 0 <= o <= 508 -> read32 x o = 0.
Proof. intros Hx Ho. unfold read32. rewrite !Hx by lia. done. Qed.

Lemma sl_ind s ip k : 12 <= k < 140 -> addr_at (iaddrs ip) 12 <> 0 ->
  sl s ip k = read32 (vw s (addr_at (iaddrs ip) 12)) (4 * (k - 12)).
Proof.
  intros Hk Hn. unfold sl. destruct (Z.ltb_spec k 12); [lia|]. destruct (Z.eqb_spec k 140); [lia|].
  destruct (Z.eqb_spec (addr_at (iaddrs ip) 12) 0); done.
Qed.
Lemma sl_140 s ip : sl s ip 140 = addr_at (iaddrs ip) 12.
Proof. done. Qed.
Lemma sl_direct s ip k : k < 12 -> sl s ip k = addr_at (iaddrs ip) k.
Proof. intros Hk. unfold sl. by destruct (Z.ltb_spec k 12); [|lia]. Qed.
Lemma sl_no_ind s ip k : 12 <= k < 140 -> addr_at (iaddrs ip) 12 = 0 -> sl s ip k = 0.
Proof.
  intros Hk Hn. unfold sl. destruct (Z.ltb_spec k 12); [lia|]. destruct (Z.eqb_spec k 140); [lia|]. by rewrite Hn.
Qed.

(** The state after a step of [bmap] on inode [i]. *)
Record mapped_to (s : fstate) (i : nat) (ip : inode) (s' : fstate) (ip' : inode) : Prop := {
  mt_icache : icache s' = <[i := ip']> (icache s);
  mt_fs : fs_ok s';
  mt_ino : ino_ok s' ip';
  mt_grow : grow s ip s' ip';
  mt_content : forall off, 0 <= off < 140 * 512 -> content s' ip' off = content s ip off
}.

Lemma mapped_refl s i ip : fs_ok s -> ino_ok s ip -> icache s !! i = Some ip -> mapped_to s i ip s ip.
Proof. intros. split; try done; [by rewrite list_insert_id|apply grow_refl]. Qed.

Lemma mapped_trans s1 i ip1 s2 ip2 s3 ip3 :
  mapped_to s1 i ip1 s2 ip2 -> mapped_to s2 i ip2 s3 ip3 -> mapped_to s1 i ip1 s3 ip3.
Proof.
  intros [A1 A2 A3 A4 A5] [B1 B2 B3 B4 B5]. split; try done.
  - by rewrite B1, A1, list_insert_insert_eq.
  - by eapply grow_trans.
  - intros off Hoff. by rewrite B5, A5.
Qed.

Definition with_inode (s : fstate) (i : nat) (ip : inode) : fstate := mk_fstate (ds s) (sb s) (<[i := ip]> (icache s)).

(** A fresh block in a direct slot, or as the indirect block. *)
Lemma alloc_ptr s s' i ip b k idx :
  fs_ok s -> ino_ok s ip -> allocated s s' b -> (0 <= k < 12 /\ idx = k) \/ (k = 140 /\ idx = 12) ->
  sl s ip k = 0 ->
  let ip' := set_addrs ip (<[Z.to_nat idx := b]> (iaddrs ip)) in
  mapped_to s i ip (with_inode s' i ip') ip' /\ sl (with_inode s' i ip') ip' k = b.
Proof.
  intros Hok Hino Ha Hkx Hz ip'. set (s1 := with_inode s' i ip').
  assert (Hpos := ly_pos _ (fo_layout _ Hok)).
  assert (Hlen := io_len s ip Hino).
  assert (Hat : forall j, 0 <= j -> addr_at (iaddrs ip') j = if decide (j = idx) then b else addr_at (iaddrs ip) j).
  { intros j Hj. apply addr_at_insert; [done|lia|done]. }
  assert (Hsl : forall j, 0 <= j <= 140 -> sl s1 ip' j = if decide (j = k) then b else sl s ip j).
  { intros j Hj. assert (j < 12 \/ j = 140 \/ 12 <= j < 140) as [Hj'|[->|Hj']] by lia.
    - rewrite !sl_direct, Hat by lia. repeat case_decide; try done; lia.
    - rewrite !sl_140, Hat by lia. repeat case_decide; try done; lia.
    - destruct Hkx as [[Hk ->]|[-> ->]].
      + rewrite decide_False by lia. unfold sl. destruct (Z.ltb_spec j 12); [lia|]. destruct (Z.eqb_spec j 140); [lia|].
        rewrite Hat, decide_False by lia. destruct (Z.eqb_spec (addr_at (iaddrs ip) 12) 0) as [|Hn]; [done|].
        destruct (io_range s ip Hino 140) as [Hr Hu]; [lia|done|]. rewrite sl_140 in *.
        change (vw s1 (addr_at (iaddrs ip) 12)) with (vw s' (addr_at (iaddrs ip) 12)). rewrite (al_frame _ _ _ Ha); [done| |].
        * intros E. pose proof (al_free _ _ _ Ha). congruence.
        * intros Hbm. apply is_bmap_meta in Hbm; [lia|done].
      + rewrite sl_140 in Hz. rewrite decide_False, (sl_no_ind s ip j Hj' Hz) by lia.
        assert (Hb : addr_at (iaddrs ip') 12 = b) by (rewrite Hat, decide_True by lia; done).
        rewrite sl_ind by (try done; rewrite Hb; pose proof (al_range _ _ _ Ha); lia). rewrite Hb.
        apply read32_zero; [|lia]. apply (al_zero _ _ _ Ha). }
  assert (Hk : 0 <= k <= 140) by lia.
  assert (Hu1 : forall n, 0 <= n < sb_size (sb s) -> used s1 n = used s n || (n =? b)) by apply (al_used _ _ _ Ha).
  assert (Hl' : length (iaddrs ip') = 13%nat) by (cbn; by rewrite length_insert).
  assert (Hv : forall a, a <> b -> a <> b -> ~ is_bmap (sb s) a -> vw s1 a = vw s a) by (intros a H _; by apply (al_frame _ _ _ Ha)).
  split; [|rewrite Hsl, decide_True; done].
  split.
  - cbn. by rewrite (al_icache _ _ _ Ha).
  - apply (add_fs_ok s s1 ip ip' k b b); try done; try apply Ha; by left.
  - apply (add_ino_ok s s1 ip ip' k b b); try done; try apply Ha; by left.
  - apply (add_grow s s1 ip ip' k b b); try done; try apply Ha; by left.
  - intros off Hoff. apply (add_content s s1 ip ip' k b b); try done; try apply Ha; by left.
Qed.


(** A fresh block in an entry of the indirect block. *)
Lemma alloc_entry s s1 s2 i ip b k :
  fs_ok s -> ino_ok s ip -> icache s !! i = Some ip -> allocated s s1 b -> 12 <= k < 140 ->
  let ind := addr_at (iaddrs ip) 12 in
  ind <> 0 -> sl s ip k = 0 -> sb s2 = sb s1 -> icache s2 = icache s1 ->
  (forall a, vw s2 a = if decide (a = ind) then write32 (vw s1 ind) (4 * (k - 12)) b else vw s1 a) ->
  mapped_to s i ip s2 ip /\ sl s2 ip k = b.
Proof.
  intros Hok Hino Hi Ha Hk ind Hn Hz Hsb Hic Hv2. assert (Hly := fo_layout _ Hok). assert (Hpos := ly_pos _ Hly).
  assert (Hrb := al_range _ _ _ Ha). assert (Hsz := ly_size _ Hly).
  destruct (io_range s ip Hino 140) as [Hri Hui]; [lia|done|]. rewrite sl_140 in Hri, Hui. fold ind in Hri, Hui.
  assert (Hib : ind <> b) by (intros E; pose proof (al_free _ _ _ Ha); congruence).
  assert (Hnb : ~ is_bmap (sb s) ind) by (intros Hbm; apply is_bmap_meta in Hbm; [lia|done]).
  assert (Hfr := al_frame _ _ _ Ha).
  assert (Hsl : forall j, 0 <= j <= 140 -> sl s2 ip j = if decide (j = k) then b else sl s ip j).
  { intros j Hj. assert (j < 12 \/ j = 140 \/ 12 <= j < 140) as [Hj'|[->|Hj']] by lia.
    - rewrite !sl_direct, decide_False by lia. done.
    - rewrite !sl_140, decide_False by lia. done.
    - rewrite !sl_ind by done. fold ind. rewrite Hv2, decide_True, (Hfr ind Hib Hnb) by done. case_decide as E.
      + subst. apply read32_write32_eq. lia.
      + apply read32_write32_ne. lia. }
  assert (Hu : forall n, 0 <= n < sb_size (sb s) -> used s2 n = used s n || (n =? b)).
  { intros n Hn'. rewrite <- (al_used _ _ _ Ha n Hn'). unfold used. rewrite Hsb, Hv2, decide_False; [done|].
    intros E. apply Hnb. exists n. split; [done|]. by rewrite <- E, (al_sb _ _ _ Ha). }
  assert (Hv : forall a, a <> b -> a <> ind -> ~ is_bmap (sb s) a -> vw s2 a = vw s a).
  { intros a Hab Hai Hbm. rewrite Hv2, decide_False by done. by apply Hfr. }
  assert (Hz2 : forall o, 0 <= o < 512 -> read8 (vw s2 b) o = 0).
  { intros o Ho. rewrite Hv2, decide_False by done. by apply (al_zero _ _ _ Ha). }
  assert (Hsb' : sb s2 = sb s) by (rewrite Hsb; apply Ha).
  assert (Hip : ip = set_addrs ip (iaddrs ip)) by (by destruct ip).
  assert (Hw : ind = b \/ (ind <> 0 /\ sl s ip 140 = ind)) by (by right).
  assert (Hlen := io_len s ip Hino). assert (Hk' : 0 <= k <= 140) by lia. assert (Hf := al_free _ _ _ Ha).
  split; [|rewrite Hsl, decide_True; done]. split.
  - rewrite Hic, (al_icache _ _ _ Ha), list_insert_id; done.
  - by apply (add_fs_ok s s2 ip ip k b ind).
  - by apply (add_ino_ok s s2 ip ip k b ind).
  - by apply (add_grow s s2 ip ip k b ind).
  - intros off Hoff. by apply (add_content s s2 ip ip k b ind).
Qed.

(** The resources [bmap] may use: log blocks and free blocks. *)
Definition supply (s : fstate) (r : Z) (f : nat) : Prop := room s r /\ free_blocks s f.

Lemma balloc_supply s r f :
  fs_ok s -> supply s r (S f) -> 2 <= r ->
  exists b s', balloc s = Ret b s' /\ allocated s s' b /\ supply s' (r - 2) f.
Proof.
  intros Hok [Hr Hf] H2. destruct (balloc_spec s r Hok Hr H2) as (b & s' & E & Ha & Hr').
  { destruct Hf as (l & ? & ? & ?). exists l. split; [done|]. split; [lia|done]. }
  exists b, s'. split; [done|]. split; [done|]. split; [done|].
  by apply (free_blocks_alloc s s' b); [apply Ha|apply Ha|].
Qed.

Lemma free_blocks_same s s' f :
  sb s' = sb s -> (forall n, 0 <= n < sb_size (sb s) -> used s' n = used s n) -> free_blocks s f -> free_blocks s' f.
Proof.
  intros Hsb Hu (l & H1 & H2 & H3). exists l. split; [done|]. split; [done|]. intros b Hb. destruct (H3 b Hb).
  by rewrite Hsb, Hu.
Qed.

(** The second half of [bmap] for a file block behind the indirect block. *)
Lemma bmap_entry s i ip k r f :
  fs_ok s -> ino_ok s ip -> icache s !! i = Some ip -> 12 <= k < 140 -> addr_at (iaddrs ip) 12 <> 0 ->
  supply s r (S f) -> 3 <= r ->
  exists b s', (let* a := lift (bread (addr_at (iaddrs ip) 12)) in
    let x := read32 a (4 * (k - 12)) in
    if x =? 0 then
      let* b := balloc in
      let* a := lift (bread (addr_at (iaddrs ip) 12)) in
      do* lift (log_write (addr_at (iaddrs ip) 12) (write32 a (4 * (k - 12)) b)) in
      ret b
    else ret x) s = Ret b s' /\ mapped_to s i ip s' ip /\ sl s' ip k = b /\ b <> 0 /\ supply s' (r - 3) f.
Proof.
  intros Hok Hino Hi Hk Hn Hs Hr. set (ind := addr_at (iaddrs ip) 12) in *.
  rewrite (bind_Ret _ _ _ _ _ (lift_bread ind s)). cbn zeta. pose proof (sl_ind s ip k Hk Hn) as Es. fold ind in Es. rewrite <- Es.
  destruct (Z.eqb_spec (sl s ip k) 0) as [Hz|Hnz].
  - destruct (balloc_supply s r f Hok Hs ltac:(lia)) as (b & s1 & E1 & Ha & [Hr1 Hf1]).
    assert (Hlg : loggable ind) by (unfold ind in *; rewrite <- (sl_140 s) in *; by apply loggable_slot).
    destruct (lift_log_write ind (write32 (vw s1 ind) (4 * (k - 12)) b) s1 (r - 2) Hr1 Hlg ltac:(lia))
      as (s2 & E2 & Hsb2 & Hic2 & Hr2 & Hv2).
    destruct (alloc_entry s s1 s2 i ip b k Hok Hino Hi Ha Hk Hn Hz Hsb2 Hic2 Hv2) as [Hm Hsl].
    exists b, s2. split_and!; [|done|done| |].
    + rewrite (bind_Ret _ _ _ _ _ E1), (bind_Ret _ _ _ _ _ (lift_bread ind s1)). by rewrite (bind_Ret _ _ _ _ _ E2).
    + pose proof (al_range _ _ _ Ha). pose proof (ly_pos _ (fo_layout _ Hok)). lia.
    + split; [by replace (r - 3) with (r - 2 - 1) by lia|]. destruct Hf1 as (l & Hnd & Hlen & Hl).
      exists l. split; [done|]. split; [done|]. intros x Hx. rewrite Hsb2. destruct (Hl x Hx) as [Hx1 Hx2].
      split; [done|]. unfold used in *. rewrite Hsb2, Hv2, decide_False; [done|]. intros E.
      destruct (io_range s ip Hino 140) as [Hri _]; [lia|done|]. rewrite sl_140 in Hri. fold ind in Hri.
      pose proof (ly_bmap _ (fo_layout _ Hok) x). rewrite (al_sb _ _ _ Ha) in *. lia.
  - exists (sl s ip k), s. split_and!; try done; [by apply mapped_refl|]. destruct Hs as [Hr0 (l & ? & ? & ?)]. split.
    + eapply room_weaken; [done|lia].
    + exists l. split; [done|]. split; [lia|done].
Qed.

Lemma NINDIRECT_val : NINDIRECT = 128.
Proof. reflexivity. Qed.
Lemma MAXFILE_val : MAXFILE = 140.
Proof. reflexivity. Qed.

Lemma get_inode_spec s i ip : icache s !! i = Some ip -> get_inode i s = Ret ip s.
Proof. intros H. unfold get_inode. by rewrite H. Qed.

Lemma supply_weaken s r f r' f' : supply s r f -> r' <= r -> (f' <= f)%nat -> supply s r' f'.
Proof.
  intros [Hr (l & ? & ? & ?)] Hle1 Hle2. split; [by eapply room_weaken|]. exists l. split; [done|]. split; [lia|done].
Qed.

Lemma bmap_spec s i ip bn r f :
  fs_ok s -> ino_ok s ip -> icache s !! i = Some ip -> 0 <= bn < 140 -> supply s r (S (S f)) -> 5 <= r ->
  exists b s' ip', bmap i bn s = Ret b s' /\ mapped_to s i ip s' ip' /\ sl s' ip' bn = b /\ b <> 0 /\
    supply s' (r - 5) f.
Proof.
  intros Hok Hino Hi Hbn Hs Hr. unfold bmap. rewrite (bind_Ret _ _ _ _ _ (get_inode_spec _ _ _ Hi)).
  unfold NDIRECT. destruct (Z.ltb_spec bn 12) as [Hd|Hd].
  - rewrite <- (sl_direct s ip bn Hd). destruct (Z.eqb_spec (sl s ip bn) 0) as [Hz|Hnz].
    + destruct (balloc_supply s r (S f) Hok Hs ltac:(lia)) as (b & s1 & E1 & Ha & Hs1).
      destruct (alloc_ptr s s1 i ip b bn bn Hok Hino Ha (or_introl (conj (conj (proj1 Hbn) Hd) eq_refl)) Hz) as [Hm Hsl].
      rewrite (bind_Ret _ _ _ _ _ E1).
      eexists b, _, _. split; [done|]. split; [exact Hm|]. split; [exact Hsl|]. split.
      * pose proof (al_range _ _ _ Ha). pose proof (ly_pos _ (fo_layout _ Hok)). lia.
      * eapply supply_weaken; [exact Hs1|lia|lia].
    + eexists _, s, ip. split; [done|]. split; [by apply mapped_refl|]. split; [done|]. split; [done|].
      eapply supply_weaken; [exact Hs|lia|lia].
  - rewrite NINDIRECT_val. destruct (Z.ltb_spec (bn - 12) 128); [|lia].
    destruct (Z.eqb_spec (addr_at (iaddrs ip) 12) 0) as [Hz|Hnz].
    + destruct (balloc_supply s r (S f) Hok Hs ltac:(lia)) as (ind & s1 & E1 & Ha & Hs1).
      destruct (alloc_ptr s s1 i ip ind 140 12 Hok Hino Ha (or_intror (conj eq_refl eq_refl)) Hz) as [Hm Hsl].
      cbn zeta in Hm, Hsl. set (ip1 := set_addrs ip (<[Z.to_nat 12 := ind]> (iaddrs ip))) in *.
      set (s2 := with_inode s1 i ip1) in *. rewrite sl_140 in Hsl.
      assert (Hi2 : icache s2 !! i = Some ip1).
      { unfold s2, with_inode. cbn. apply list_lookup_insert_eq. rewrite (al_icache _ _ _ Ha). by eapply lookup_lt_Some. }
      assert (Hn0 : addr_at (iaddrs ip1) 12 <> 0).
      { rewrite Hsl. pose proof (al_range _ _ _ Ha). pose proof (ly_pos _ (fo_layout _ Hok)). lia. }
      destruct (bmap_entry s2 i ip1 bn (r - 2) f (mt_fs _ _ _ _ _ Hm) (mt_ino _ _ _ _ _ Hm) Hi2 ltac:(lia) Hn0 Hs1 ltac:(lia))
        as (b & s' & E & Hm' & Hb & Hnz & Hs').
      exists b, s', ip1. split; [|split; [by eapply mapped_trans|split; [done|split; [done|]]]].
      * unfold bind at 1 2. rewrite E1. rewrite Hsl in E. exact E.
      * by replace (r - 5) with (r - 2 - 3) by lia.
    + destruct (bmap_entry s i ip bn r f Hok Hino Hi ltac:(lia) Hnz) as (b & s' & E & Hm & Hb & Hn & Hs').
      { eapply supply_weaken; [exact Hs|lia|lia]. } { lia. }
      exists b, s', ip. split; [exact E|]. split; [done|]. split; [done|]. split; [done|].
      eapply supply_weaken; [exact Hs'|lia|lia].
Qed.

(** ** Writing bytes *)

Lemma read8_put_bytes bs : forall x o a, Forall (fun b => 0 <= b < 256) bs ->
  read8 (put_bytes x o bs) a =
  if decide (o <= a < o + Z.of_nat (length bs)) then default 0 (bs !! Z.to_nat (a - o)) else read8 x a.
Proof.
  induction bs as [|b bs IH]; intros x o a Hb; cbn [put_bytes length].
  - rewrite decide_False by lia. done.
  - apply Forall_cons in Hb as [Hb Hbs]. rewrite IH by done. destruct (decide (a = o)) as [->|Hao].
    + rewrite decide_False, decide_True by lia. rewrite Z.sub_diag. cbn.
      rewrite read8_write8_eq. by apply u8_small.
    + rewrite read8_write8_ne by congruence. repeat case_decide; try lia.
      replace (Z.to_nat (a - o)) with (S (Z.to_nat (a - (o + 1)))) by lia. done.
Qed.

(** A write to a block that is not metadata of the bitmap kind, and not the
    indirect block of the file. *)
Lemma plain_write s s' ip b x :
  fs_ok s -> ino_ok s ip -> sb s' = sb s -> (addr_at (iaddrs ip) 12 <> 0 -> b <> addr_at (iaddrs ip) 12) -> ~ is_bmap (sb s) b ->
  (forall a, vw s' a = if decide (a = b) then x else vw s a) ->
  fs_ok s' /\ ino_ok s' ip /\ (forall k, 0 <= k <= 140 -> sl s' ip k = sl s ip k) /\
  (forall n, 0 <= n < sb_size (sb s) -> used s' n = used s n).
Proof.
  intros [Hly Hme] Hino Hsb Hbi Hbm Hv.
  assert (Hu : forall n, 0 <= n < sb_size (sb s) -> used s' n = used s n).
  { intros n Hn. unfold used. rewrite Hsb, Hv, decide_False; [done|]. intros E. apply Hbm. by exists n. }
  assert (Hsl : forall k, 0 <= k <= 140 -> sl s' ip k = sl s ip k).
  { intros k Hk. unfold sl. destruct (k <? 12); [done|]. destruct (k =? 140); [done|].
    destruct (Z.eqb_spec (addr_at (iaddrs ip) 12) 0) as [|Hn]; [done|]. rewrite Hv, decide_False; [done|].
    intros E. by apply (Hbi Hn). }
  assert (Hsz := ly_size _ Hly). assert (Hpos := ly_pos _ Hly).
  split_and!; [| |done|done].
  - split; [by rewrite Hsb|]. intros a Ha. rewrite Hu by lia. by apply Hme.
  - destruct Hino as [H1 H2 H3]. split; [done|..].
    + intros k Hk. rewrite Hsl, Hsb by done. intros Hn. destruct (H2 k Hk Hn). split; [done|]. rewrite Hu; [done|lia].
    + intros k k' Hk Hk'. rewrite !Hsl by done. by apply H3.
Qed.

Record written (s : fstate) (i : nat) (ip : inode) (off : Z) (src : list Z) (s' : fstate) (ip' : inode) : Prop := {
  wr_icache : icache s' = <[i := ip']> (icache s);
  wr_fs : fs_ok s';
  wr_ino : ino_ok s' ip';
  wr_grow : grow s ip s' ip';
  wr_blocks : forall o, off <= o < off + Z.of_nat (length src) -> sl s' ip' (o / 512) <> 0;
  wr_content : forall o, 0 <= o < 140 * 512 -> content s' ip' o =
    if decide (off <= o < off + Z.of_nat (length src)) then default 0 (src !! Z.to_nat (o - off)) else content s ip o
}.

(** One turn of the loop: the part of [src] that goes to one block. *)
Lemma write_chunk s i ip off src r f :
  fs_ok s -> ino_ok s ip -> icache s !! i = Some ip -> 0 <= off -> src <> [] ->
  off mod 512 + Z.of_nat (length src) <= 512 -> off / 512 < 140 -> Forall (fun b => 0 <= b < 256) src ->
  supply s r (S (S f)) -> 6 <= r ->
  exists b s1 s' ip', bmap i (off / 512) s = Ret b s1 /\
    lift (log_write b (put_bytes (vw s1 b) (off mod 512) src)) s1 = Ret tt s' /\
    written s i ip off src s' ip' /\ supply s' (r - 6) f.
Proof.
  intros Hok Hino Hi Hoff Hne Hlen Hbn Hby Hs Hr.
  assert (Hj : 0 <= off / 512) by (Z.div_mod_to_equations; lia).
  destruct (bmap_spec s i ip (off / 512) r f Hok Hino Hi ltac:(lia) Hs ltac:(lia)) as (b & s1 & ip1 & E1 & Hm & Hsl & Hb & [Hr1 Hf1]).
  assert (Hlg : loggable b) by (rewrite <- Hsl in *; apply loggable_slot; [apply Hm|apply Hm|lia|done]).
  destruct (lift_log_write b (put_bytes (vw s1 b) (off mod 512) src) s1 (r - 5) Hr1 Hlg ltac:(lia)) as (s2 & E2 & Hsb2 & Hic2 & Hr2 & Hv2).
  exists b, s1, s2, ip1. split; [done|]. split; [done|].
  assert (Hok1 := mt_fs _ _ _ _ _ Hm). assert (Hino1 := mt_ino _ _ _ _ _ Hm).
  destruct (io_range s1 ip1 Hino1 (off / 512) ltac:(lia)) as [Hrb Hub]; [congruence|]. rewrite Hsl in Hrb, Hub.
  assert (Hbi : b <> addr_at (iaddrs ip1) 12).
  { intros E. rewrite <- (sl_140 s1), <- Hsl in E. apply (io_inj s1 ip1 Hino1) in E; [lia|lia|lia|congruence]. }
  assert (Hnb : ~ is_bmap (sb s1) b) by (intros H; apply is_bmap_meta in H; [lia|done]).
  destruct (plain_write s1 s2 ip1 b _ Hok1 Hino1 Hsb2 (fun _ => Hbi) Hnb Hv2) as (Hok2 & Hino2 & Hsl2 & Hu2).
  assert (Hg2 : grow s1 ip1 s2 ip1).
  { split; try done.
    - by destruct ip1.
    - intros a Ha. by rewrite Hu2.
    - intros k Hk Hn. by apply Hsl2.
    - intros k Hk Hz. rewrite Hsl2 by done. congruence.
    - intros a Ha _ _ Ho. rewrite Hv2, decide_False; [done|]. intros ->. apply Ho. split; [done|].
      exists (off / 512). split; [lia|done]. }
  split.
  - split.
    + rewrite Hic2. apply Hm.
    + done.
    + done.
    + eapply grow_trans; [apply Hm|done].
    + intros o Ho. assert (o / 512 = off / 512) as -> by (Z.div_mod_to_equations; lia). rewrite Hsl2 by lia. congruence.
    + intros o Ho. rewrite <- (mt_content _ _ _ _ _ Hm o Ho). unfold content.
      assert (Hq : 0 <= o / 512 <= 140) by (Z.div_mod_to_equations; lia). rewrite Hsl2 by done.
      destruct (decide (o / 512 = off / 512)) as [Eq|Eq].
      * rewrite Eq, Hsl. destruct (Z.eqb_spec b 0); [done|]. rewrite Hv2, decide_True, read8_put_bytes by done.
        repeat case_decide; try (Z.div_mod_to_equations; lia).
        replace (o mod 512 - off mod 512) with (o - off) by (Z.div_mod_to_equations; lia). done.
      * rewrite (decide_False (P := off <= o < _)) by (Z.div_mod_to_equations; lia).
        destruct (Z.eqb_spec (sl s1 ip1 (o / 512)) 0); [done|]. rewrite Hv2, decide_False; [done|].
        intros E. rewrite <- Hsl in E. apply (io_inj s1 ip1 Hino1) in E; [lia|done|lia|done].
  - split; [by replace (r - 6) with (r - 5 - 1) by lia|].
    destruct Hf1 as (l & Hnd & Hl & Hall). exists l. split; [done|]. split; [done|]. intros x Hx.
    rewrite Hsb2. destruct (Hall x Hx). rewrite Hu2; done.
Qed.

Lemma written_app s1 i ip1 off src1 s2 ip2 src2 s3 ip3 :
  0 <= off -> off + Z.of_nat (length (src1 ++ src2)) <= 140 * 512 ->
  written s1 i ip1 off src1 s2 ip2 -> written s2 i ip2 (off + Z.of_nat (length src1)) src2 s3 ip3 ->
  written s1 i ip1 off (src1 ++ src2) s3 ip3.
Proof.
  intros Hoff Hlen [A1 A2 A3 A4 A5 A6] [B1 B2 B3 B4 B5 B6]. rewrite length_app in Hlen.
  assert (Hsplit : Z.of_nat (length (src1 ++ src2)) = Z.of_nat (length src1) + Z.of_nat (length src2))
    by (rewrite length_app; lia).
  split; try done.
  - by rewrite B1, A1, list_insert_insert_eq.
  - by eapply grow_trans.
  - intros o Ho. destruct (Z.lt_ge_cases o (off + Z.of_nat (length src1))) as [H|H].
    + specialize (A5 o ltac:(lia)). rewrite (g_old _ _ _ _ B4); [done| |done]. Z.div_mod_to_equations. lia.
    + apply B5. lia.
  - intros o Ho. rewrite B6 by done. destruct (Z.lt_ge_cases o (off + Z.of_nat (length src1))) as [H|H].
    + rewrite decide_False, A6 by lia. destruct (decide (off <= o < off + Z.of_nat (length src1))).
      * rewrite decide_True by lia. rewrite lookup_app_l by lia. done.
      * rewrite decide_False by lia. done.
    + destruct (decide (off + Z.of_nat (length src1) <= o < off + Z.of_nat (length src1) + Z.of_nat (length src2))).
      * rewrite decide_True by lia. rewrite lookup_app_r by lia. f_equal. f_equal. lia.
      * rewrite decide_False, A6, decide_False by lia. done.
Qed.

Lemma written_nil s i ip off : fs_ok s -> ino_ok s ip -> icache s !! i = Some ip -> written s i ip off [] s ip.
Proof.
  intros Hok Hino Hi. split; try done; [by rewrite list_insert_id|apply grow_refl|..].
  - intros o Ho. cbn in Ho. lia.
  - intros o Ho. rewrite decide_False; [done|]. cbn. lia.
Qed.

Lemma written_lookup s i ip off src s' ip' :
  icache s !! i = Some ip -> written s i ip off src s' ip' -> icache s' !! i = Some ip'.
Proof. intros Hi Hw. rewrite (wr_icache _ _ _ _ _ _ _ Hw). apply list_lookup_insert_eq. by eapply lookup_lt_Some. Qed.

Lemma writei_loop_spec K : forall fuel src off s i ip r f,
  fs_ok s -> ino_ok s ip -> icache s !! i = Some ip -> (length src < fuel)%nat -> 0 <= off ->
  off + Z.of_nat (length src) <= 140 * 512 ->
  length src = 0%nat \/ off mod 512 + Z.of_nat (length src) <= 512 * Z.of_nat K ->
  Forall (fun b => 0 <= b < 256) src -> supply s (6 * Z.of_nat K + r) (2 * K + f) -> 0 <= r ->
  exists s' ip', writei_loop fuel i off src s = Ret (off + Z.of_nat (length src)) s' /\
    written s i ip off src s' ip' /\ supply s' r f.
Proof.
  induction K as [|K IH]; intros fuel src off s i ip r f Hok Hino Hi Hfuel Hoff Hmax HK Hby Hs Hr;
    (destruct fuel as [|fuel]; [lia|]); (destruct src as [|c src0] eqn:Esrc;
      [exists s, ip; rewrite Z.add_0_r; split; [done|]; split; [by apply written_nil|];
       eapply supply_weaken; [done|lia|lia]|]).
  - cbn [length] in HK. pose proof (Z.mod_pos_bound off 512). lia.
  - rewrite <- Esrc in *. assert (Hne : src <> []) by congruence.
    assert (Hl0 : 0 < Z.of_nat (length src)) by (rewrite Esrc; cbn; lia).
    set (m := Z.min (Z.of_nat (length src)) (512 - off mod 512)).
    assert (Hmod := Z.mod_pos_bound off 512 ltac:(lia)). assert (Hm : 0 < m <= Z.of_nat (length src)) by lia.
    assert (Hlt : Z.of_nat (length (take (Z.to_nat m) src)) = m) by (rewrite length_take; lia).
    destruct (write_chunk s i ip off (take (Z.to_nat m) src) (6 * Z.of_nat (S K) + r) (2 * K + f))
      as (b & s1 & s2 & ip2 & E1 & E2 & Hw & Hs2); try done.
    { intros E. rewrite E in Hlt. cbn in Hlt. lia. } { lia. } { Z.div_mod_to_equations. lia. }
    { by apply Forall_take. } { by replace (S (S (2 * K + f))) with (2 * S K + f)%nat by lia. } { lia. }
    assert (Hi2 := written_lookup _ _ _ _ _ _ _ Hi Hw).
    destruct (IH fuel (drop (Z.to_nat m) src) (off + m) s2 i ip2 r f) as (s' & ip' & E & Hw' & Hs');
      try done; try apply Hw; rewrite ?length_drop; try lia.
    { destruct (Z.le_gt_cases (Z.of_nat (length src)) (512 - off mod 512)).
      - left. lia.
      - right. assert ((off + m) mod 512 = 0) as ->; [|lia]. unfold m. Z.div_mod_to_equations. lia. }
    { by apply Forall_drop. }
    { replace (6 * Z.of_nat K + r) with (6 * Z.of_nat (S K) + r - 6) by lia. exact Hs2. }
    exists s', ip'. split; [|split; [|done]].
    + rewrite Esrc at 1. cbn [writei_loop]. rewrite <- Esrc, BSIZE_val. rewrite (bind_Ret _ _ _ _ _ E1).
      rewrite (bind_Ret _ _ _ _ _ (lift_bread b s1)). fold m. rewrite (bind_Ret _ _ _ _ _ E2), E. f_equal.
      rewrite length_drop. lia.
    + rewrite <- (take_drop (Z.to_nat m) src). apply (written_app s i ip off _ s2 ip2); [done| |done|].
      * rewrite take_drop. done.
      * by rewrite Hlt.
Qed.

(** ** Reading *)

Lemma length_block_bytes x n : forall o, length (block_bytes x o n) = n.
Proof. induction n as [|n IH]; intros o; [done|]. cbn. by rewrite IH. Qed.

Lemma block_bytes_lookup x n : forall o k, (k < n)%nat -> block_bytes x o n !! k = Some (read8 x (o + Z.of_nat k)).
Proof.
  induction n as [|n IH]; intros o k Hk; [lia|]. destruct k as [|k]; cbn.
  - by rewrite Z.add_0_r.
  - rewrite IH by lia. f_equal. f_equal. lia.
Qed.

(** The bytes [off .. off + n) of the file. *)
Definition contents (s : fstate) (ip : inode) (off : Z) (n : nat) : list Z :=
  (fun k => content s ip (off + Z.of_nat k)) <$> seq 0 n.

Lemma contents_app s ip off n m : contents s ip off (n + m) = contents s ip off n ++ contents s ip (off + Z.of_nat n) m.
Proof.
  unfold contents. rewrite seq_app, fmap_app. f_equal. cbn. apply list_eq. intros k.
  rewrite !list_lookup_fmap. destruct (decide (k < m)%nat) as [Hk|Hk].
  - rewrite !lookup_seq_lt by lia. cbn. f_equal. f_equal. lia.
  - rewrite !lookup_seq_ge by lia. done.
Qed.

Lemma contents_block s ip off n :
  0 <= off -> off mod 512 + Z.of_nat n <= 512 -> sl s ip (off / 512) <> 0 ->
  block_bytes (vw s (sl s ip (off / 512))) (off mod 512) n = contents s ip off n.
Proof.
  intros Hoff Hn Hnz. apply list_eq. intros k. unfold contents. rewrite list_lookup_fmap.
  destruct (decide (k < n)%nat) as [Hk|Hk].
  - rewrite block_bytes_lookup, lookup_seq_lt by done. cbn. unfold content.
    assert ((off + Z.of_nat k) / 512 = off / 512 /\ (off + Z.of_nat k) mod 512 = off mod 512 + Z.of_nat k) as [-> ->].
    { Z.div_mod_to_equations. lia. }
    by destruct (Z.eqb_spec (sl s ip (off / 512)) 0).
  - rewrite lookup_seq_ge by lia. apply lookup_ge_None. rewrite length_block_bytes. lia.
Qed.

(** [bmap] finds a block that is there without touching anything. *)
Lemma bmap_hit s i ip bn :
  icache s !! i = Some ip -> 0 <= bn < 140 -> sl s ip bn <> 0 -> bmap i bn s = Ret (sl s ip bn) s.
Proof.
  intros Hi Hbn Hn. unfold bmap. rewrite (bind_Ret _ _ _ _ _ (get_inode_spec _ _ _ Hi)). unfold NDIRECT.
  destruct (Z.ltb_spec bn 12) as [Hd|Hd].
  - rewrite <- (sl_direct s ip bn Hd). by destruct (Z.eqb_spec (sl s ip bn) 0).
  - rewrite NINDIRECT_val. destruct (Z.ltb_spec (bn - 12) 128); [|lia].
    destruct (Z.eqb_spec (addr_at (iaddrs ip) 12) 0) as [Hz|Hnz].
    + rewrite sl_no_ind in Hn by (done || lia). done.
    + unfold ret at 1. unfold bind at 1. rewrite (bind_Ret _ _ _ _ _ (lift_bread _ s)). cbn zeta.
      rewrite <- (sl_ind s ip bn) by (done || lia). by destruct (Z.eqb_spec (sl s ip bn) 0).
Qed.

Lemma readi_loop_spec fuel : forall i ip off n s,
  icache s !! i = Some ip -> (n < fuel)%nat -> 0 <= off -> off + Z.of_nat n <= 140 * 512 ->
  (forall o, off <= o < off + Z.of_nat n -> sl s ip (o / 512) <> 0) ->
  readi_loop fuel i off (Z.of_nat n) s = Ret (contents s ip off n) s.
Proof.
  induction fuel as [|fuel IH]; intros i ip off n s Hi Hf Hoff Hmax Hall; [lia|]. cbn [readi_loop].
  destruct (Z.ltb_spec 0 (Z.of_nat n)) as [Hn|Hn].
  - rewrite BSIZE_val. assert (Hs := Hall off ltac:(lia)).
    rewrite (bind_Ret _ _ _ _ _ (bmap_hit s i ip (off / 512) Hi ltac:(Z.div_mod_to_equations; lia) Hs)).
    rewrite (bind_Ret _ _ _ _ _ (lift_bread _ s)). set (m := Z.min (Z.of_nat n) (512 - off mod 512)).
    assert (Hmod := Z.mod_pos_bound off 512 ltac:(lia)).
    assert (Hnm : Z.of_nat n - m = Z.of_nat (n - Z.to_nat m)) by lia. rewrite Hnm.
    rewrite (bind_Ret _ _ _ _ _ (IH i ip (off + m) (n - Z.to_nat m)%nat s Hi
      ltac:(lia) ltac:(lia) ltac:(lia) ltac:(intros o Ho; apply Hall; lia))).
    unfold ret. rewrite contents_block by (done || lia).
    replace n with (Z.to_nat m + (n - Z.to_nat m))%nat at 2 by lia. rewrite contents_app, Z2Nat.id by lia. done.
  - assert (n = 0)%nat as -> by lia. done.
Qed.

Lemma iupdate_spec s i ip :
  fs_ok s -> ino_ok s ip -> icache s !! i = Some ip -> 0 <= inum ip < sb_ninodes (sb s) -> room s 1 ->
  exists s', iupdate i s = Ret tt s' /\ icache s' = icache s /\ sb s' = sb s /\ fs_ok s' /\ ino_ok s' ip /\
    (forall k, 0 <= k <= 140 -> sl s' ip k = sl s ip k) /\
    (forall o, 0 <= o < 140 * 512 -> content s' ip o = content s ip o) /\
    (forall a, a <> IBLOCK (inum ip) (sb s) -> vw s' a = vw s a) /\ room s' 0 /\
    (forall n, 0 <= n < sb_size (sb s) -> used s' n = used s n).
Proof.
  intros Hok Hino Hi Hn Hr. destruct (ly_inode _ (fo_layout _ Hok) (inum ip) Hn) as [Hrg Hnb].
  set (ib := IBLOCK (inum ip) (sb s)) in *.
  destruct (lift_log_write ib (put_dinode (vw s ib) ((inum ip mod IPB) * sizeof_dinode) ip) s 1 Hr
    (loggable_inode _ _ (fo_layout _ Hok) Hn) ltac:(lia))
    as (s' & E & Hsb & Hic & Hr' & Hv).
  assert (Hown : forall k, 0 <= k <= 140 -> sl s ip k <> 0 -> sl s ip k <> ib).
  { intros k Hk Hnz. destruct (io_range s ip Hino k Hk Hnz). lia. }
  destruct (plain_write s s' ip ib (put_dinode (vw s ib) ((inum ip mod IPB) * sizeof_dinode) ip) Hok Hino Hsb)
    as (Hok' & Hino' & Hsl & Hu'); [| |exact Hv|].
  { intros Hnz E'. apply (Hown 140); [lia|done|]. by rewrite sl_140. }
  { intros (m & Hm & E'). by apply (Hnb m). }
  exists s'. split_and!; try done.
  - unfold iupdate. rewrite (bind_Ret _ _ _ _ _ (get_inode_spec _ _ _ Hi)). unfold gets. unfold bind at 1.
    rewrite (bind_Ret _ _ _ _ _ (lift_bread _ s)). exact E.
  - intros o Ho. unfold content. assert (Hq : 0 <= o / 512 <= 140) by (Z.div_mod_to_equations; lia).
    rewrite Hsl by done. destruct (Z.eqb_spec (sl s ip (o / 512)) 0) as [|Hnz]; [done|].
    rewrite Hv, decide_False; [done|]. by apply Hown.
  - intros a Ha. by rewrite Hv, decide_False.
Qed.

(** [readi] within the file, where all the blocks are there. *)
Lemma readi_spec dev_read s i ip off n :
  icache s !! i = Some ip -> itype ip <> T_DEV -> 0 <= off -> off + Z.of_nat n <= isize ip ->
  off + Z.of_nat n <= 140 * 512 -> (forall o, off <= o < off + Z.of_nat n -> sl s ip (o / 512) <> 0) ->
  readi dev_read i off (Z.of_nat n) s = Ret (Some (contents s ip off n)) s.
Proof.
  intros Hi Ht Hoff Hsz Hmax Hall. unfold readi. rewrite (bind_Ret _ _ _ _ _ (get_inode_spec _ _ _ Hi)).
  destruct (Z.eqb_spec (itype ip) T_DEV); [done|]. rewrite u32_small by lia.
  destruct (Z.ltb_spec (isize ip) off); [lia|]. destruct (Z.ltb_spec (off + Z.of_nat n) off); [lia|]. cbn [orb].
  destruct (Z.ltb_spec (isize ip) (off + Z.of_nat n)); [lia|]. rewrite Nat2Z.id.
  rewrite (bind_Ret _ _ _ _ _ (readi_loop_spec (S n) i ip off n s Hi ltac:(lia) Hoff Hmax Hall)). done.
Qed.

(** The end of [writei]: the new size, if the file has grown. *)
Lemma writei_size s i ip n off f :
  fs_ok s -> ino_ok s ip -> icache s !! i = Some ip -> 0 <= inum ip < sb_ninodes (sb s) -> supply s 1 f -> 0 <= n ->
  let ip' := if (0 <? n) && (isize ip <? off) then set_isize ip off else ip in
  exists s', (do* (if (0 <? n) && (isize ip <? off) then do* put_inode i (set_isize ip off) in iupdate i else ret tt) in
    ret (Some n)) s = Ret (Some n) s' /\ icache s' = <[i := ip']> (icache s) /\ fs_ok s' /\ ino_ok s' ip' /\
    (forall k, 0 <= k <= 140 -> sl s' ip' k = sl s ip k) /\
    (forall o, 0 <= o < 140 * 512 -> content s' ip' o = content s ip o) /\
    (forall a, a <> IBLOCK (inum ip) (sb s) -> vw s' a = vw s a) /\ supply s' 0 f /\ sb s' = sb s.
Proof.
  intros Hok Hino Hi Hin Hr Hn ip'. destruct ((0 <? n) && (isize ip <? off)) eqn:Ec.
  - set (s1 := with_inode s i (set_isize ip off)).
    assert (Hok1 : fs_ok s1) by (destruct Hok; by split). assert (Hino1 : ino_ok s1 ip') by (destruct Hino; by split).
    assert (Hi1 : icache s1 !! i = Some ip') by (apply list_lookup_insert_eq; by eapply lookup_lt_Some).
    destruct (iupdate_spec s1 i ip' Hok1 Hino1 Hi1 Hin (proj1 Hr)) as (s' & E & Hic & Hsb & H1 & H2 & H3 & H4 & H5 & H6 & H7).
    exists s'. split; [|rewrite Hic; split_and!; try done; split; [exact H6|]; apply (free_blocks_same s1); [done..|apply Hr]]. unfold put_inode, modify. unfold bind at 1 2. fold (with_inode s i (set_isize ip off)).
    fold s1. by rewrite E.
  - exists s. split; [done|]. unfold ip'. rewrite list_insert_id by done. split_and!; try done.
    split; [eapply room_weaken; [apply Hr|lia]|apply Hr].
Qed.

Lemma writei_supply dev_write s i ip src off K f :
  fs_ok s -> ino_ok s ip -> icache s !! i = Some ip -> itype ip <> T_DEV -> 0 <= inum ip < sb_ninodes (sb s) ->
  0 <= off <= isize ip -> off + Z.of_nat (length src) <= 140 * 512 -> Forall (fun b => 0 <= b < 256) src ->
  off mod 512 + Z.of_nat (length src) <= 512 * Z.of_nat K -> supply s (6 * Z.of_nat K + 1) (2 * K + f) ->
  exists s' ip', writei dev_write i src off s = Ret (Some (Z.of_nat (length src))) s' /\
    icache s' = <[i := ip']> (icache s) /\
    ip' = set_isize (set_addrs ip (iaddrs ip')) (Z.max (isize ip) (off + Z.of_nat (length src))) /\
    (forall o, 0 <= o < 140 * 512 -> content s' ip' o =
       if decide (off <= o < off + Z.of_nat (length src)) then default 0 (src !! Z.to_nat (o - off))
       else content s ip o) /\
    (forall o, off <= o < off + Z.of_nat (length src) -> sl s' ip' (o / 512) <> 0) /\
    (forall k, 0 <= k <= 140 -> sl s ip k <> 0 -> sl s' ip' k = sl s ip k) /\
    fs_ok s' /\ ino_ok s' ip' /\
    (forall a, 0 <= a < sb_size (sb s) -> used s a = true -> ~ is_bmap (sb s) a -> ~ owned s ip a ->
       a <> IBLOCK (inum ip) (sb s) -> vw s' a = vw s a) /\ supply s' 0 f /\ sb s' = sb s.
Proof.
  intros Hok Hino Hi Ht Hin Hoff Hmax Hby HK Hs.
  destruct (writei_loop_spec K (S (length src)) src off s i ip 1 f Hok Hino Hi ltac:(lia) (proj1 Hoff) Hmax (or_intror HK) Hby)
    as (s1 & ip1 & E1 & Hw & Hr1); [done|lia|].
  assert (Hi1 := written_lookup _ _ _ _ _ _ _ Hi Hw). destruct (wr_grow _ _ _ _ _ _ _ Hw) as [Hsb Hip _ Hold _ Hfr].
  assert (Hnu : inum ip1 = inum ip) by (by rewrite Hip).
  destruct (writei_size s1 i ip1 (Z.of_nat (length src)) (off + Z.of_nat (length src)) f (wr_fs _ _ _ _ _ _ _ Hw)
    (wr_ino _ _ _ _ _ _ _ Hw) Hi1 ltac:(by rewrite Hnu, Hsb) Hr1 ltac:(lia)) as (s' & E' & Hic & Hok' & Hino' & Hsl' & Hco' & Hv' & Hs' & Hsb').
  set (ip' := if (0 <? Z.of_nat (length src)) && (isize ip1 <? off + Z.of_nat (length src))
    then set_isize ip1 (off + Z.of_nat (length src)) else ip1) in *.
  exists s', ip'. split_and!; try done.
  - unfold writei. rewrite (bind_Ret _ _ _ _ _ (get_inode_spec _ _ _ Hi)). destruct (Z.eqb_spec (itype ip) T_DEV); [done|].
    rewrite u32_small by lia. destruct (Z.ltb_spec (isize ip) off); [lia|].
    destruct (Z.ltb_spec (off + Z.of_nat (length src)) off); [lia|]. cbn [orb]. rewrite MAXFILE_val, BSIZE_val.
    destruct (Z.ltb_spec (140 * 512) (off + Z.of_nat (length src))); [lia|].
    rewrite (bind_Ret _ _ _ _ _ E1), (bind_Ret _ _ _ _ _ (get_inode_spec _ _ _ Hi1)). exact E'.
  - rewrite Hic, (wr_icache _ _ _ _ _ _ _ Hw), list_insert_insert_eq. done.
  - unfold ip'. rewrite Hip. cbn [isize set_addrs].
    destruct (Z.ltb_spec 0 (Z.of_nat (length src))), (Z.ltb_spec (isize ip) (off + Z.of_nat (length src))); cbn [andb];
      [rewrite Z.max_r by lia; done|rewrite Z.max_l by lia; by destruct ip..].
  - intros o Ho. by rewrite Hco', (wr_content _ _ _ _ _ _ _ Hw).
  - intros o Ho. rewrite Hsl' by (Z.div_mod_to_equations; lia). by apply (wr_blocks _ _ _ _ _ _ _ Hw).
  - intros k Hk Hn. rewrite Hsl', Hold; done.
  - intros a Ha Hu Hbm Ho Hib. rewrite Hv', Hfr; [done..|]. by rewrite Hnu, Hsb.
  - congruence.
Qed.

Lemma writei_spec dev_write s i ip src off K :
  fs_ok s -> ino_ok s ip -> icache s !! i = Some ip -> itype ip <> T_DEV -> 0 <= inum ip < sb_ninodes (sb s) ->
  0 <= off <= isize ip -> off + Z.of_nat (length src) <= 140 * 512 -> Forall (fun b => 0 <= b < 256) src ->
  off mod 512 + Z.of_nat (length src) <= 512 * Z.of_nat K -> supply s (6 * Z.of_nat K + 1) (2 * K) ->
  exists s' ip', writei dev_write i src off s = Ret (Some (Z.of_nat (length src))) s' /\
    icache s' = <[i := ip']> (icache s) /\
    ip' = set_isize (set_addrs ip (iaddrs ip')) (Z.max (isize ip) (off + Z.of_nat (length src))) /\
    (forall o, 0 <= o < 140 * 512 -> content s' ip' o =
       if decide (off <= o < off + Z.of_nat (length src)) then default 0 (src !! Z.to_nat (o - off))
       else content s ip o) /\
    (forall o, off <= o < off + Z.of_nat (length src) -> sl s' ip' (o / 512) <> 0) /\
    (forall k, 0 <= k <= 140 -> sl s ip k <> 0 -> sl s' ip' k = sl s ip k) /\
    fs_ok s' /\ ino_ok s' ip' /\
    (forall a, 0 <= a < sb_size (sb s) -> used s a = true -> ~ is_bmap (sb s) a -> ~ owned s ip a ->
       a <> IBLOCK (inum ip) (sb s) -> vw s' a = vw s a).
Proof.
  intros Hok Hino Hi Ht Hin Hoff Hmax Hby HK Hs.
  destruct (writei_supply dev_write s i ip src off K 0 Hok Hino Hi Ht Hin Hoff Hmax Hby HK) as (s' & ip' & H); [by rewrite Nat.add_0_r|].
  exists s', ip'. naive_solver.
Qed.

Lemma contents_eq s ip off src :
  (forall k, (k < length src)%nat -> content s ip (off + Z.of_nat k) = default 0 (src !! k)) ->
  contents s ip off (length src) = src.
Proof.
  intros H. apply list_eq. intros k. unfold contents. rewrite list_lookup_fmap.
  destruct (decide (k < length src)%nat) as [Hk|Hk].
  - rewrite lookup_seq_lt by done. cbn. rewrite H by done. by destruct (lookup_lt_is_Some_2 src k Hk) as [x ->].
  - rewrite lookup_seq_ge by lia. symmetry. apply lookup_ge_None. lia.
Qed.

(** C6. Writing to a file and reading back.  [writei] of bytes at an offset
    within the file (growing it when they go past the end, allocating blocks as
    needed) succeeds when the log and the free space suffice; then [readi] at
    that offset returns exactly those bytes and changes nothing, every other
    byte of the file is as before, the size is the larger of the old size and the
    end of the write, and no block that belongs to anything else (another file,
    the log, the super block) has changed. *)
Theorem writei_readi dev_read dev_write s i ip src off K :
  fs_ok s -> ino_ok s ip -> icache s !! i = Some ip -> itype ip <> T_DEV -> 0 <= inum ip < sb_ninodes (sb s) ->
  0 <= off <= isize ip -> off + Z.of_nat (length src) <= MAXFILE * BSIZE -> Forall (fun b => 0 <= b < 256) src ->
  off mod BSIZE + Z.of_nat (length src) <= BSIZE * Z.of_nat K -> supply s (6 * Z.of_nat K + 1) (2 * K) ->
  exists s' ip', writei dev_write i src off s = Ret (Some (Z.of_nat (length src))) s' /\
    icache s' = <[i := ip']> (icache s) /\ isize ip' = Z.max (isize ip) (off + Z.of_nat (length src)) /\
    readi dev_read i off (Z.of_nat (length src)) s' = Ret (Some src) s' /\
    (forall o, 0 <= o < MAXFILE * BSIZE -> ~ off <= o < off + Z.of_nat (length src) ->
       content s' ip' o = content s ip o) /\
    fs_ok s' /\ ino_ok s' ip' /\
    (forall a, 0 <= a < sb_size (sb s) -> used s a = true -> ~ is_bmap (sb s) a -> ~ owned s ip a ->
       a <> IBLOCK (inum ip) (sb s) -> vw s' a = vw s a).
Proof.
  rewrite MAXFILE_val, BSIZE_val. intros Hok Hino Hi Ht Hin Hoff Hmax Hby HK Hs.
  destruct (writei_spec dev_write s i ip src off K Hok Hino Hi Ht Hin Hoff Hmax Hby HK Hs)
    as (s' & ip' & E & Hic & Hip & Hco & Hbl & _ & Hok' & Hino' & Hfr).
  assert (Hsz : isize ip' = Z.max (isize ip) (off + Z.of_nat (length src))) by (by rewrite Hip).
  exists s', ip'. split_and!; try done.
  - rewrite (readi_spec dev_read s' i ip' off (length src)); try done; try lia.
    + rewrite contents_eq; [done|]. intros k Hk. rewrite Hco, decide_True by lia. f_equal. f_equal. lia.
    + rewrite Hic. apply list_lookup_insert_eq. by eapply lookup_lt_Some.
    + by rewrite Hip.
  - intros o Ho Hn. by rewrite Hco, decide_False.
Qed.

(** [bfree] of a block in use. *)
Lemma bfree_spec s b k :
  fs_ok s -> 0 <= b < sb_size (sb s) -> used s b = true -> room s k -> 1 <= k ->
  exists s', bfree b s = Ret tt s' /\ sb s' = sb s /\ icache s' = icache s /\ room s' (k - 1) /\
    (forall n, 0 <= n < sb_size (sb s) -> used s' n = used s n && negb (n =? b)) /\
    (forall a, ~ is_bmap (sb s) a -> vw s' a = vw s a).
Proof.
  intros [Hl Hm] Hb Hu Hr Hk. unfold bfree, gets. unfold bind at 1. rewrite (bind_Ret _ _ _ _ _ (lift_bread _ s)).
  cbn zeta. rewrite bit_mask_test. fold (bitv (vw s (BBLOCK b (sb s))) (b mod BPB)). fold (used s b). rewrite Hu. cbn [negb].
  edestruct (lift_log_write (BBLOCK b (sb s))) as (s' & E & Hsb & Hic & Hr' & Hv); [exact Hr|by apply loggable_bmap|done|].
  exists s'. split; [exact E|]. split_and!; try done.
  - intros n Hn. unfold used. rewrite Hsb, Hv. case_decide as En.
    + apply BBLOCK_eq in En as En'. rewrite bitv_clear, <- En. f_equal. f_equal.
      rewrite BPB_val. destruct (Z.eqb_spec (n mod 4096) (b mod 4096)), (Z.eqb_spec n b); try done;
        exfalso; Z.div_mod_to_equations; lia.
    + destruct (Z.eqb_spec n b) as [->|]; [done|by rewrite andb_true_r].
  - intros a Ha. rewrite Hv, decide_False; [done|]. intros ->. apply Ha. by exists b.
Qed.

(** [balloc] returns a data block that was free, marked in use and filled
    with zeros, and changes no other block but the bitmap, in which no other bit
    changes; [bfree] of it restores the bitmap, and a second [bfree] panics. *)
Theorem balloc_bfree s k :
  fs_ok s -> room s k -> 3 <= k -> free_blocks s 1 ->
  exists b s1 s2, balloc s = Ret b s1 /\ bfree b s1 = Ret tt s2 /\ bfree b s2 = Panic "freeing free block" /\
    dstart <= b < sb_size (sb s) /\ used s b = false /\
    (forall o, 0 <= o < BSIZE -> read8 (vw s1 b) o = 0) /\
    (forall a, a <> b -> ~ is_bmap (sb s) a -> vw s1 a = vw s a) /\
    (forall n, 0 <= n < sb_size (sb s) -> used s1 n = used s n || (n =? b)) /\
    (forall n, 0 <= n < sb_size (sb s) -> used s2 n = used s n).
Proof.
  intros Hok Hr Hk Hf. destruct (balloc_spec s k Hok Hr ltac:(lia) Hf) as (b & s1 & E1 & [A1 A2 A3 A4 A5 A6 A7] & Hr1).
  assert (Hpos := ly_pos _ (fo_layout _ Hok)). assert (Hsz := ly_size _ (fo_layout _ Hok)).
  assert (Hok1 : fs_ok s1).
  { destruct Hok as [Hl Hm]. split; [by rewrite A3|]. intros n Hn. rewrite A5, Hm by lia. done. }
  assert (Hu1 : used s1 b = true) by (rewrite A5, Z.eqb_refl, orb_true_r; [done|lia]).
  destruct (bfree_spec s1 b (k - 2) Hok1 ltac:(rewrite A3; lia) Hu1 Hr1 ltac:(lia)) as (s2 & E2 & B1 & B2 & B3 & B4 & B5).
  assert (Hu2 : used s2 b = false) by (rewrite B4, Z.eqb_refl, andb_false_r by (rewrite A3; lia); done).
  exists b, s1, s2. split_and!; try done.
  - unfold bfree, gets. unfold bind at 1. rewrite (bind_Ret _ _ _ _ _ (lift_bread _ s2)).
    cbn zeta. rewrite bit_mask_test. fold (bitv (vw s2 (BBLOCK b (sb s2))) (b mod BPB)). fold (used s2 b). by rewrite Hu2.
  - apply A1.
  - apply A1.
  - intros n Hn. rewrite B4, A5 by (rewrite ?A3; lia). destruct (Z.eqb_spec n b) as [->|]; [by rewrite A2|].
    by rewrite orb_false_r, andb_true_r.
Qed.

End Disk.

(** ** A small file system with one empty file *)

#[local] Transparent BSIZE BPB.

(** The log in blocks 2 to 31, 16 inodes from 32, the bitmap in 35: the places
    that [mkfs] gives them. *)
Definition ex_sb : superblock := mk_superblock 100 64 16 30 2 32 35.
Definition ex_disk : gmap Z block := {[ 35 := write8 (write32 ∅ 0 0xffffffff) 4 0x0f ]}.
Definition ex_inode : inode := mk_inode 1 1 1 true true T_FILE 0 0 1 0 (replicate 13 0).
Definition ex_fs_state : fstate :=
  mk_fstate (mk_dstate ex_disk ∅ [] (mk_log 2 30 1 false [])) ex_sb [ex_inode].

Lemma ex_fs_ok : fs_ok 2 30 36 ex_fs_state.
Proof.
  split.
  - split; cbn.
    + lia.
    + lia.
    + intros n Hn. unfold BBLOCK, BPB, BSIZE. cbn. Z.div_mod_to_equations. lia.
    + intros n Hn. unfold IBLOCK, BBLOCK, IPB, BPB, BSIZE, sizeof_dinode. cbn.
      split; [Z.div_mod_to_equations; lia|]. intros m Hm. Z.div_mod_to_equations. lia.
    + unfold home, LOGSIZE, MAXOPBLOCKS, IBLOCK, BBLOCK, IPB, BPB, BSIZE, sizeof_dinode. cbn.
      split_and!; [lia|lia|intros n Hn; right; Z.div_mod_to_equations; lia..].
  - intros b Hb. assert (H : Forall (fun k => used ex_fs_state (Z.of_nat k) = true) (seq 0 36))
      by (apply (bool_decide_unpack _); vm_compute; done).
    rewrite Forall_forall in H. specialize (H (Z.to_nat b)). rewrite Z2Nat.id in H by lia. apply H, elem_of_seq. lia.
Qed.

Lemma ex_ino_ok : ino_ok 36 ex_fs_state ex_inode.
Proof.
  assert (H : forall k, sl ex_fs_state ex_inode k = 0).
  { intros k. assert (Ha : forall j, addr_at (iaddrs ex_inode) j = 0).
    { intros j. unfold addr_at. destruct (iaddrs ex_inode !! Z.to_nat j) as [x|] eqn:E; [|done].
      apply list_elem_of_lookup_2, (elem_of_replicate_inv x 13 0) in E. by subst. }
    unfold sl. rewrite !Ha. by repeat case_match. }
  split; [done|..].
  - intros k _. by rewrite H.
  - intros k k' _ _. by rewrite H.
Qed.

Lemma ex_supply : supply 2 30 (ds ex_fs_state) ex_fs_state 7 2.
Proof.
  split; [split; [|by vm_compute]; split; try done; constructor|]. exists [36; 37]. split_and!.
  - by apply (bool_decide_unpack _); vm_compute.
  - done.
  - intros b Hb. apply elem_of_cons in Hb as [->|Hb]; [by vm_compute|]. apply list_elem_of_singleton in Hb as ->. by vm_compute.
Qed.

Lemma writei_readi_witness : exists s',
  writei (fun _ => None) 0 [104; 105] 0 ex_fs_state = Ret (Some 2) s' /\
  readi (fun _ => None) 0 0 2 s' = Ret (Some [104; 105]) s'.
Proof.
  destruct (writei_readi 2 30 (ds ex_fs_state) 36 (fun _ => None) (fun _ => None) ex_fs_state 0 ex_inode [104; 105] 0 1)
    as (s' & ip' & E1 & _ & _ & E2 & _).
  - apply ex_fs_ok.
  - apply ex_ino_ok.
  - done.
  - done.
  - vm_compute. intuition congruence.
  - vm_compute. intuition congruence.
  - vm_compute. intuition congruence.
  - repeat constructor; lia.
  - vm_compute. intuition congruence.
  - apply ex_supply.
  - exists s'. split; [exact E1|exact E2].
Defined.

Lemma balloc_bfree_witness : exists b s1, balloc ex_fs_state = Ret b s1.
Proof.
  destruct (balloc_bfree 2 30 (ds ex_fs_state) 36 ex_fs_state 7) as (b & s1 & s2 & E & _).
  - apply ex_fs_ok.
  - apply ex_supply.
  - lia.
  - destruct ex_supply as [_ (l & H1 & H2 & H3)]. exists l. split; [exact H1|]. split; [lia|exact H3].
  - exists b, s1. exact E.
Defined.
