(* ===== verification/FsInode.v ===== *)
(** * Inodes on disk

    What [iupdate] stores of an inode is what [ilock] loads: the layout of
    [struct dinode] in its block, and the other inodes of the block. *)
From S2P Require Import Prelude Memory KString Log LogProof Fs FsProof.

(** ** Block addresses *)

Lemma read8_put_addrs l : forall x o a, a < o \/ o + 4 * Z.of_nat (length l) <= a ->
  read8 (put_addrs x o l) a = read8 x a.
Proof.
  induction l as [|v l IH]; intros x o a Ha; [done|]. cbn [put_addrs length] in *.
  rewrite IH by lia. apply read8_write32_ne. unfold in_range. lia.
Qed.

Lemma get_addrs_ext n : forall m m' o, (forall b, o <= b < o + 4 * Z.of_nat n -> read8 m b = read8 m' b) ->
  get_addrs m o n = get_addrs m' o n.
Proof.
  induction n as [|n IH]; intros m m' o H; [done|]. cbn [get_addrs]. f_equal.
  - apply read32_ext. intros k Hk. unfold in_range in Hk. apply H. lia.
  - apply IH. intros b Hb. apply H. lia.
Qed.

Lemma get_put_addrs l : Forall (fun v => 0 <= v < 4294967296) l ->
  forall x o, get_addrs (put_addrs x o l) o (length l) = l.
Proof.
  induction 1 as [|v l Hv Hl IH]; intros x o; [done|]. cbn [put_addrs get_addrs length]. f_equal; [|apply IH].
  rewrite (read32_ext _ (write32 x o v)), read32_write32_eq by first [done | intros k Hk; unfold in_range in Hk; apply read8_put_addrs; lia]. done.
Qed.

(** ** [struct dinode] *)

(** What the fields of [struct dinode] can hold. *)
Record storable (ip : inode) : Prop := {
  st_type_range : -32768 <= itype ip < 32768;
  st_major_range : -32768 <= imajor ip < 32768;
  st_minor_range : -32768 <= iminor ip < 32768;
  st_nlink_range : -32768 <= inlink ip < 32768;
  st_size_range : 0 <= isize ip < 4294967296;
  st_addrs_len : length (iaddrs ip) = 13%nat;
  st_addrs_range : Forall (fun v => 0 <= v < 4294967296) (iaddrs ip)
}.

(** The inode that [ilock] makes of the 64 bytes at [o]. *)
Definition load_dinode (x : block) (o : Z) (ip : inode) : inode :=
  mk_inode (idev ip) (inum ip) (iref ip) (ilocked ip) true (di_type x o) (di_major x o) (di_minor x o)
    (di_nlink x o) (di_size x o) (get_addrs x (o + 12) 13).

Lemma read8_put_dinode x o ip a : length (iaddrs ip) = 13%nat -> a < o \/ o + 64 <= a ->
  read8 (put_dinode x o ip) a = read8 x a.
Proof.
  intros Hl Ha. unfold put_dinode. rewrite read8_put_addrs by lia.
  rewrite read8_write32_ne by (unfold in_range; lia). rewrite !read8_write16_ne by lia. done.
Qed.

(** Reading one 16-bit field under the writes of the later ones. *)
Ltac read_field :=
  erewrite read16_ext;
  [rewrite read16_write16_eq; by rewrite s16_u16
  |intros ? ?; rewrite ?read8_put_addrs by lia; rewrite ?read8_write32_ne by (unfold in_range; lia);
   rewrite ?read8_write16_ne by lia; reflexivity].

Lemma load_put_dinode x o ip : storable ip ->
  di_type (put_dinode x o ip) o = itype ip /\ di_major (put_dinode x o ip) o = imajor ip /\
  di_minor (put_dinode x o ip) o = iminor ip /\ di_nlink (put_dinode x o ip) o = inlink ip /\
  di_size (put_dinode x o ip) o = isize ip /\ get_addrs (put_dinode x o ip) (o + 12) 13 = iaddrs ip.
Proof.
  intros [H1 H2 H3 H4 H5 H6 H7]. unfold di_type, di_major, di_minor, di_nlink, di_size, put_dinode.
  split_and!; [read_field..| |].
  - erewrite read32_ext; [by rewrite read32_write32_eq|]. intros b Hb. unfold in_range in Hb. by rewrite read8_put_addrs by lia.
  - rewrite <- H6. by apply get_put_addrs.
Qed.

(** The inode's slot in its block. *)
Definition ioff (n : Z) : Z := (n mod IPB) * sizeof_dinode.

Lemma inode_apart n m b : 0 <= n -> 0 <= m -> n <> m -> IBLOCK n b = IBLOCK m b -> ioff n + 64 <= ioff m \/ ioff m + 64 <= ioff n.
Proof.
  unfold IBLOCK, ioff. change IPB with 8. change sizeof_dinode with 64. intros Hn Hm Hne E.
  Z.div_mod_to_equations. lia.
Qed.

(** Storing one inode leaves the others of the block alone. *)
Lemma load_other x n m b ip jp : 0 <= n -> 0 <= m -> n <> m -> IBLOCK n b = IBLOCK m b -> length (iaddrs ip) = 13%nat ->
  load_dinode (put_dinode x (ioff n) ip) (ioff m) jp = load_dinode x (ioff m) jp.
Proof.
  intros Hn Hm Hne E Hl. pose proof (inode_apart n m b Hn Hm Hne E) as Ha.
  assert (Hr : forall a, ioff m <= a < ioff m + 64 -> read8 (put_dinode x (ioff n) ip) a = read8 x a)
    by (intros a Ha'; apply read8_put_dinode; [done|lia]).
  unfold load_dinode, di_type, di_major, di_minor, di_nlink, di_size.
  f_equal; [f_equal; apply read16_ext; intros c Hc; apply Hr; lia..|apply read32_ext|apply get_addrs_ext];
    intros c Hc; unfold in_range in *; apply Hr; lia.
Qed.

Lemma iupdate_stores lst lsz D0 dstart s i ip :
  fs_ok lst lsz dstart s -> icache s !! i = Some ip -> 0 <= inum ip < sb_ninodes (sb s) -> room lst lsz D0 s 1 ->
  exists s', iupdate i s = Ret tt s' /\ icache s' = icache s /\ sb s' = sb s /\
    forall a, vw s' a = if decide (a = IBLOCK (inum ip) (sb s)) then put_dinode (vw s a) (ioff (inum ip)) ip else vw s a.
Proof.
  intros Hok Hi Hn Hr. set (ib := IBLOCK (inum ip) (sb s)).
  destruct (lift_log_write lst lsz D0 ib (put_dinode (vw s ib) (ioff (inum ip)) ip) s 1 Hr
    (loggable_inode _ _ _ _ _ (fo_layout _ _ _ _ Hok) Hn) ltac:(lia)) as (s' & E & Hsb & Hic & _ & Hv).
  exists s'. split_and!; [|done|done|].
  - unfold iupdate. rewrite (bind_Ret _ _ _ _ _ (get_inode_spec _ _ _ Hi)). unfold gets. unfold bind at 1.
    rewrite (bind_Ret _ _ _ _ _ (lift_bread _ s)). exact E.
  - intros a. rewrite Hv. case_decide; [by subst|done].
Qed.

Lemma ilock_loads s j jp :
  icache s !! j = Some jp -> 1 <= iref jp -> ilocked jp = false -> ivalid jp = false ->
  let x := vw s (IBLOCK (inum jp) (sb s)) in di_type x (ioff (inum jp)) <> 0 ->
  ilock (Some j) s = Ret tt (with_inode s j (load_dinode x (ioff (inum jp)) (set_ilocked jp true))).
Proof.
  intros Hj Hr Hl Hv x Ht. unfold ilock, acquire_ilock, put_inode, bind, modify, gets.
  rewrite (get_inode_spec _ _ _ Hj). destruct (Z.ltb_spec (iref jp) 1); [lia|]. rewrite (get_inode_spec _ _ _ Hj), Hl.
  assert (Hj' : icache (with_inode s j (set_ilocked jp true)) !! j = Some (set_ilocked jp true))
    by (apply list_lookup_insert_eq; by eapply lookup_lt_Some).
  unfold with_inode in Hj'. rewrite (get_inode_spec _ _ _ Hj'). cbn [ivalid set_ilocked sb ds icache inum]. rewrite Hv.
  rewrite lift_bread. fold (ioff (inum jp)). unfold vw in *. cbn [ds]. apply Z.eqb_neq in Ht. unfold x in *. cbn. rewrite Ht.
  unfold ret, with_inode. cbn. rewrite list_insert_insert_eq. reflexivity.
Qed.

(** The round trip of an inode through its block: after [iupdate], an inode
    cache entry for the same inode that [ilock] has to load gets the type, the
    device numbers, the link count, the size and the block addresses that were
    stored, and every other inode loads as it did before. *)
Theorem iupdate_ilock lst lsz D0 dstart s i ip j jp :
  fs_ok lst lsz dstart s -> room lst lsz D0 s 1 -> icache s !! i = Some ip -> storable ip -> itype ip <> 0 ->
  0 <= inum ip < sb_ninodes (sb s) -> icache s !! j = Some jp -> inum jp = inum ip -> 1 <= iref jp ->
  ilocked jp = false -> ivalid jp = false ->
  exists s' s'', iupdate i s = Ret tt s' /\ ilock (Some j) s' = Ret tt s'' /\
    icache s'' !! j = Some (mk_inode (idev jp) (inum ip) (iref jp) true true (itype ip) (imajor ip) (iminor ip)
      (inlink ip) (isize ip) (iaddrs ip)) /\
    forall n x, 0 <= n < sb_ninodes (sb s) -> n <> inum ip ->
      load_dinode (vw s'' (IBLOCK n (sb s))) (ioff n) x = load_dinode (vw s (IBLOCK n (sb s))) (ioff n) x.
Proof.
  intros Hok Hr Hi Hst Ht Hn Hj Hnum Hrf Hl Hv. destruct (iupdate_stores _ _ _ _ s i ip Hok Hi Hn Hr) as (s' & E & Hic & Hsb & Hvw).
  assert (Hx : vw s' (IBLOCK (inum jp) (sb s')) = put_dinode (vw s (IBLOCK (inum ip) (sb s))) (ioff (inum ip)) ip)
    by (by rewrite Hsb, Hnum, Hvw, decide_True).
  destruct (load_put_dinode (vw s (IBLOCK (inum ip) (sb s))) (ioff (inum ip)) ip Hst) as (H1 & H2 & H3 & H4 & H5 & H6).
  rewrite <- Hic in Hj. pose proof (ilock_loads s' j jp Hj Hrf Hl Hv) as El. cbn zeta in El. rewrite Hx, Hnum in El.
  eexists s', _. split; [done|]. split; [apply El; by rewrite H1|]. split.
  - cbn. rewrite list_lookup_insert_eq by (by eapply lookup_lt_Some). unfold load_dinode. by rewrite H1, H2, H3, H4, H5, H6, <- Hnum.
  - intros n x Hn' Hne. unfold vw at 1. cbn. fold (vw s' (IBLOCK n (sb s))). rewrite Hvw. case_decide as Hd; [|done].
    rewrite Hd. rewrite <- Hd. apply (load_other _ _ _ (sb s)); [lia|lia|done|done|apply Hst].
Qed.

(** The file of the example, and a second cache entry for its inode. *)
Definition ex_stale : inode := mk_inode 1 1 1 false false 0 0 0 0 0 [].
Definition ex_two : fstate := mk_fstate (ds ex_fs_state) ex_sb [ex_inode; ex_stale].

Lemma iupdate_ilock_witness : exists s' s'', iupdate 0 ex_two = Ret tt s' /\ ilock (Some 1%nat) s' = Ret tt s'' /\
  icache s'' !! 1%nat = Some ex_inode.
Proof.
  destruct (iupdate_ilock 2 30 (ds ex_fs_state) 36 ex_two 0 ex_inode 1 ex_stale) as (s' & s'' & E1 & E2 & E3 & _).
  - destruct ex_fs_ok as [H1 H2]. split; [exact H1|exact H2].
  - destruct ex_supply as [[H1 H2] _]. split; [exact H1|]. cbn in H2 |- *. lia.
  - reflexivity.
  - split; [cbn; unfold T_FILE; lia|cbn; lia..|reflexivity|]. apply Forall_replicate. lia.
  - discriminate.
  - cbn. lia.
  - reflexivity.
  - reflexivity.
  - cbn. lia.
  - reflexivity.
  - reflexivity.
  - exists s', s''. split; [exact E1|]. split; [exact E2|exact E3].
Defined.
