(* ===== verification/FsDir.v ===== *)
(** * Directories and path names

    A directory is a file of 16-byte entries: [dirlink] makes a name that
    [dirlookup] finds, and [skipelem] takes a path apart at its slashes. *)
From S2P Require Import Prelude Memory KString Log LogProof Fs FsProof.

#[local] Opaque BSIZE BPB.

(** ** Names *)

Lemma length_strncpy_list n : forall s, length (strncpy_list n s) = n.
Proof.
  induction n as [|n IH]; intros s; [done|]. cbn [strncpy_list]. destruct (_ =? 0).
  - apply length_replicate.
  - cbn. by rewrite IH.
Qed.

Lemma strncmp_strncpy n : forall s, strncmp_list n s (strncpy_list n s) = 0.
Proof.
  induction n as [|n IH]; intros s; [done|]. cbn [strncmp_list strncpy_list].
  destruct (Z.eqb_spec (char_at s 0) 0) as [E|E].
  - rewrite E. done.
  - cbn [negb andb]. change (char_at (char_at s 0 :: strncpy_list n (tail s)) 0) with (char_at s 0).
    rewrite Z.eqb_refl. cbn [tail]. apply IH.
Qed.

Lemma strncpy_list_bytes n : forall s, Forall (fun b => 0 <= b < 256) s -> Forall (fun b => 0 <= b < 256) (strncpy_list n s).
Proof.
  induction n as [|n IH]; intros s Hs; [constructor|]. cbn [strncpy_list]. destruct (_ =? 0) eqn:E.
  - apply Forall_replicate. lia.
  - destruct s as [|c s]; [done|]. apply Forall_cons in Hs as [Hc Hs]. constructor; [done|]. by apply IH.
Qed.

(** ** Directories *)

Record dir_ok (s : fstate) (ip : inode) : Prop := {
  do_type : itype ip = T_DIR;
  do_size : 0 <= isize ip /\ isize ip mod 16 = 0;
  do_max : isize ip <= 140 * 512;
  do_blocks : forall o, 0 <= o < isize ip -> sl s ip (o / 512) <> 0
}.

Definition entry (s : fstate) (ip : inode) (off : Z) : list Z := contents s ip off 16.
Definition matches (nm : list Z) (de : list Z) : bool :=
  negb (de_inum de =? 0) && (namecmp nm (de_name de) =? 0).

(** The offset of the first of [n] entries from [off] that satisfies [f]. *)
Fixpoint first_entry (f : list Z -> bool) (s : fstate) (ip : inode) (n : nat) (off : Z) : option Z :=
  match n with
  | O => None
  | S k => if f (entry s ip off) then Some off else first_entry f s ip k (off + 16)
  end.

Lemma length_entry s ip off : length (entry s ip off) = 16%nat.
Proof. unfold entry, contents. by rewrite length_fmap, length_seq. Qed.

Lemma read_dirent_spec dev_read s i ip off msg :
  icache s !! i = Some ip -> dir_ok s ip -> 0 <= off -> off mod 16 = 0 -> off < isize ip ->
  read_dirent dev_read i off msg s = Ret (entry s ip off) s.
Proof.
  intros Hi [Ht [Hs0 Hs] Hm Hb] H0 Hal Hlt. unfold read_dirent.
  assert (Hoff : off + 16 <= isize ip) by (Z.div_mod_to_equations; lia).
  rewrite (bind_Ret _ _ _ _ _ (readi_spec dev_read s i ip off 16 Hi ltac:(by rewrite Ht) H0 Hoff ltac:(lia)
    ltac:(intros o Ho; apply Hb; lia))).
  fold (entry s ip off). by rewrite length_entry.
Qed.

Lemma dirlookup_loop_spec dev_read nm s i ip :
  icache s !! i = Some ip -> dir_ok s ip ->
  forall n fuel off, (n < fuel)%nat -> 0 <= off -> off mod 16 = 0 -> isize ip - off = 16 * Z.of_nat n ->
  dirlookup_loop dev_read fuel i nm off s =
  match first_entry (matches nm) s ip n off with
  | Some o => (let* r := iget (idev ip) (de_inum (entry s ip o)) in ret (Some (r, o))) s
  | None => Ret None s
  end.
Proof.
  intros Hi Hd. induction n as [|n IH]; intros fuel off Hf H0 Hal Hsz; (destruct fuel as [|fuel]; [lia|]);
    cbn [dirlookup_loop]; rewrite (bind_Ret _ _ _ _ _ (get_inode_spec _ _ _ Hi)).
  - destruct (Z.ltb_spec off (isize ip)); [lia|done].
  - destruct (Z.ltb_spec off (isize ip)); [|lia]. cbn [first_entry].
    rewrite (bind_Ret _ _ _ _ _ (read_dirent_spec dev_read s i ip off _ Hi Hd H0 Hal ltac:(lia))).
    assert (Hnext : dirlookup_loop dev_read fuel i nm (off + sizeof_dirent) s =
      match first_entry (matches nm) s ip n (off + 16) with
      | Some o => (let* r := iget (idev ip) (de_inum (entry s ip o)) in ret (Some (r, o))) s
      | None => Ret None s
      end) by (apply IH; [lia|unfold sizeof_dirent; lia|unfold sizeof_dirent; Z.div_mod_to_equations; lia|unfold sizeof_dirent; lia]).
    unfold matches at 1. destruct (de_inum (entry s ip off) =? 0); [exact Hnext|].
    destruct (namecmp nm (de_name (entry s ip off)) =? 0); [done|exact Hnext].
Qed.

Lemma dirlookup_spec dev_read s i ip nm :
  icache s !! i = Some ip -> dir_ok s ip ->
  dirlookup dev_read i nm s =
  match first_entry (matches nm) s ip (Z.to_nat (isize ip / 16)) 0 with
  | Some o => (let* r := iget (idev ip) (de_inum (entry s ip o)) in ret (Some (r, o))) s
  | None => Ret None s
  end.
Proof.
  intros Hi Hd. pose proof Hd as [Ht [Hs0 Hs] Hm Hb]. unfold dirlookup.
  rewrite (bind_Ret _ _ _ _ _ (get_inode_spec _ _ _ Hi)), Ht. cbn [negb Z.eqb T_DIR Pos.eqb].
  apply (dirlookup_loop_spec dev_read nm s i ip Hi Hd); unfold sizeof_dirent; [lia|lia|done|].
  rewrite Z2Nat.id by (Z.div_mod_to_equations; lia). Z.div_mod_to_equations. lia.
Qed.

(** Where [dirlink] puts an entry. *)
Definition slot_from (s : fstate) (ip : inode) (n : nat) (off : Z) : Z :=
  default (off + 16 * Z.of_nat n) (first_entry (fun de => de_inum de =? 0) s ip n off).

Lemma dirlink_slot_spec dev_read s i ip :
  icache s !! i = Some ip -> dir_ok s ip ->
  forall n fuel off, (n < fuel)%nat -> 0 <= off -> off mod 16 = 0 -> isize ip - off = 16 * Z.of_nat n ->
  dirlink_slot dev_read fuel i off s = Ret (slot_from s ip n off) s.
Proof.
  intros Hi Hd. unfold slot_from. induction n as [|n IH]; intros fuel off Hf H0 Hal Hsz; (destruct fuel as [|fuel]; [lia|]);
    cbn [dirlink_slot first_entry]; rewrite (bind_Ret _ _ _ _ _ (get_inode_spec _ _ _ Hi)).
  - destruct (Z.ltb_spec off (isize ip)); [lia|]. cbn. f_equal. lia.
  - destruct (Z.ltb_spec off (isize ip)); [|lia].
    rewrite (bind_Ret _ _ _ _ _ (read_dirent_spec dev_read s i ip off _ Hi Hd H0 Hal ltac:(lia))).
    destruct (de_inum (entry s ip off) =? 0); [done|]. unfold sizeof_dirent. rewrite IH; [|lia|lia| |lia].
    + do 2 f_equal. lia.
    + Z.div_mod_to_equations. lia.
Qed.

Lemma first_entry_Some f s ip : forall n off o,
  first_entry f s ip n off = Some o -> off <= o < off + 16 * Z.of_nat n /\ (o - off) mod 16 = 0 /\ f (entry s ip o) = true.
Proof.
  induction n as [|n IH]; intros off o; [done|]. cbn [first_entry]. destruct (f (entry s ip off)) eqn:E.
  - intros [= <-]. split; [lia|]. split; [by rewrite Z.sub_diag|done].
  - intros (H1 & H2 & H3)%IH. split; [lia|]. split; [|done]. Z.div_mod_to_equations. lia.
Qed.

(** The first match, when an entry that matches comes after entries that do
    not. *)
Lemma first_entry_at f s ip : forall n off o,
  off <= o < off + 16 * Z.of_nat n -> (o - off) mod 16 = 0 -> f (entry s ip o) = true ->
  (forall o', off <= o' < o -> (o' - off) mod 16 = 0 -> f (entry s ip o') = false) ->
  first_entry f s ip n off = Some o.
Proof.
  induction n as [|n IH]; intros off o Ho Hal Hf Hn; [lia|]. cbn [first_entry]. destruct (Z.eq_dec o off) as [->|Hne].
  - by rewrite Hf.
  - rewrite Hn by (rewrite ?Z.sub_diag; (done || lia)). apply IH; [Z.div_mod_to_equations; lia|Z.div_mod_to_equations; lia|done|].
    intros o' Ho' Hal'. apply Hn; [lia|]. Z.div_mod_to_equations. lia.
Qed.

Lemma first_entry_None f s ip : forall n off,
  first_entry f s ip n off = None ->
  forall o, off <= o < off + 16 * Z.of_nat n -> (o - off) mod 16 = 0 -> f (entry s ip o) = false.
Proof.
  induction n as [|n IH]; intros off H o Ho Hal; [lia|]. cbn [first_entry] in H. destruct (f (entry s ip off)) eqn:E; [done|].
  destruct (Z.eq_dec o off) as [->|Hne]; [done|]. apply (IH (off + 16)); [done|Z.div_mod_to_equations; lia|Z.div_mod_to_equations; lia].
Qed.

Lemma slot_from_range s ip n off :
  off mod 16 = 0 -> off <= slot_from s ip n off <= off + 16 * Z.of_nat n /\ slot_from s ip n off mod 16 = 0.
Proof.
  intros Hal. unfold slot_from. destruct (first_entry _ _ _ _ _) as [o|] eqn:E; cbn.
  - destruct (first_entry_Some _ _ _ _ _ _ E) as (H1 & H2 & _). split; [lia|]. Z.div_mod_to_equations. lia.
  - split; [lia|]. Z.div_mod_to_equations. lia.
Qed.

Lemma mk_dirent_inum n nm : 0 <= n < 65536 -> de_inum (mk_dirent n nm) = n.
Proof.
  intros Hn. unfold de_inum, mk_dirent, char_at. cbn. unfold u8. rewrite Z.shiftr_div_pow2 by lia.
  change (2 ^ 8) with 256. Z.div_mod_to_equations. lia.
Qed.

(** C23. [dirlink] of a name that the directory does not have, with a nonzero
    inode number, succeeds when the log and free space suffice, and afterwards
    [dirlookup] of that name gives the inode of that number; no other entry of
    the directory has changed. *)
Theorem dirlink_dirlookup lst lsz D0 dstart dev_read dev_write s i ip nm n :
  fs_ok lst lsz dstart s -> ino_ok dstart s ip -> icache s !! i = Some ip -> dir_ok s ip -> isize ip + 16 <= 140 * 512 ->
  0 <= inum ip < sb_ninodes (sb s) -> 0 < n < 65536 -> Forall (fun b => 0 <= b < 256) nm ->
  dirlookup dev_read i nm s = Ret None s -> supply lst lsz D0 s 7 2 ->
  exists off s' ip', dirlink dev_read dev_write i nm n s = Ret 0 s' /\ icache s' !! i = Some ip' /\ dir_ok s' ip' /\
    dirlookup dev_read i nm s' = (let* r := iget (idev ip) n in ret (Some (r, off))) s' /\
    (forall o, 0 <= o < isize ip -> o mod 16 = 0 -> o <> off -> entry s' ip' o = entry s ip o).
Proof.
  intros Hok Hino Hi Hd Hmax Hin Hn Hnm Hlk Hs. pose proof Hd as [Ht [Hs0 Hs16] Hm Hb].
  set (N := Z.to_nat (isize ip / 16)). assert (HN : isize ip = 16 * Z.of_nat N) by (unfold N; Z.div_mod_to_equations; lia).
  set (off := slot_from s ip N 0). destruct (slot_from_range s ip N 0 eq_refl) as [Hoff Hal]. fold off in Hoff, Hal.
  set (de := mk_dirent n (strncpy_list 14 nm)).
  assert (Hlen : length de = 16%nat) by (unfold de, mk_dirent; by rewrite length_app, length_strncpy_list).
  assert (Hby : Forall (fun b => 0 <= b < 256) de).
  { unfold de, mk_dirent. apply Forall_app. split; [|by apply strncpy_list_bytes].
    repeat constructor; apply Z.mod_pos_bound; lia. }
  destruct (writei_spec lst lsz D0 dstart dev_write s i ip de off 1 Hok Hino Hi) as
    (s' & ip' & E & Hic & Hip & Hco & Hbl & Hold & Hok' & Hino' & _); rewrite ?Hlen; try done; try lia.
  { by rewrite Ht. } { Z.div_mod_to_equations. lia. }
  rewrite Hlen in E, Hip, Hco, Hbl. assert (Hi' : icache s' !! i = Some ip').
  { rewrite Hic. apply list_lookup_insert_eq. by eapply lookup_lt_Some. }
  assert (Hsz' : isize ip' = Z.max (isize ip) (off + 16)) by (by rewrite Hip).
  assert (Hd' : dir_ok s' ip').
  { split; [by rewrite Hip|rewrite Hsz'; split; [lia|Z.div_mod_to_equations; lia]|lia|]. intros o Ho.
    destruct (Z.lt_ge_cases o (isize ip)) as [Hlt|Hge].
    - rewrite Hold; [apply Hb; lia|Z.div_mod_to_equations; lia|apply Hb; lia].
    - apply Hbl. lia. }
  assert (Hent : forall o, 0 <= o -> o mod 16 = 0 -> o + 16 <= 140 * 512 -> o <> off -> entry s' ip' o = entry s ip o).
  { intros o H0 Ho Hom Hne. unfold entry, contents. apply list_fmap_ext. intros j k Hk%lookup_seq.
    rewrite Hco, decide_False; [done|Z.div_mod_to_equations; lia|lia]. }
  assert (Hnew : entry s' ip' off = de).
  { unfold entry. rewrite <- Hlen. apply contents_eq. intros k Hk. rewrite Hco, decide_True by lia. f_equal. f_equal. lia. }
  exists off, s', ip'. split; [|split; [done|split; [done|split]]].
  - unfold dirlink. rewrite (bind_Ret _ _ _ _ _ Hlk), (bind_Ret _ _ _ _ _ (get_inode_spec _ _ _ Hi)).
    rewrite (bind_Ret _ _ _ _ _ (dirlink_slot_spec dev_read s i ip Hi Hd N (S (Z.to_nat (isize ip / sizeof_dirent + 1))) 0 ltac:(unfold N, sizeof_dirent; lia) ltac:(lia) eq_refl ltac:(lia))).
    fold off de. by rewrite (bind_Ret _ _ _ _ _ E).
  - rewrite (dirlookup_spec dev_read s' i ip' nm Hi' Hd'). rewrite (first_entry_at _ _ _ _ 0 off).
    + rewrite Hnew. unfold de at 1. rewrite mk_dirent_inum by lia. by rewrite Hip.
    + rewrite Hsz'. Z.div_mod_to_equations. lia.
    + by rewrite Z.sub_0_r.
    + rewrite Hnew. unfold matches. unfold de at 1. rewrite mk_dirent_inum by lia. destruct (Z.eqb_spec n 0); [lia|].
      change (de_name de) with (strncpy_list 14 nm). unfold namecmp. change (Z.to_nat DIRSIZ) with 14%nat.
      by rewrite strncmp_strncpy.
    + intros o Ho Hoal. rewrite Z.sub_0_r in Hoal. rewrite Hent by lia. rewrite (dirlookup_spec dev_read s i ip nm Hi Hd) in Hlk.
      fold N in Hlk. destruct (first_entry (matches nm) s ip N 0) as [o'|] eqn:Ef.
      * unfold bind in Hlk. by destruct (iget _ _ s).
      * apply (first_entry_None _ _ _ _ _ Ef); [lia|by rewrite Z.sub_0_r].
  - intros o Ho Hoal Hne. apply Hent; lia.
Qed.

(** ** Paths *)

(** The elements of a path: the non-empty runs between slashes. *)
Fixpoint comps (cur p : list Z) : list (list Z) :=
  match p with
  | [] => match cur with [] => [] | _ => [cur] end
  | c :: p' =>
      if c =? 47 then match cur with [] => comps [] p' | _ => cur :: comps [] p' end
      else comps (cur ++ [c]) p'
  end.
Definition elems (p : list Z) : list (list Z) := comps [] p.

Lemma elems_skip p : elems (skip_slashes p) = elems p.
Proof.
  unfold elems. induction p as [|c p IH]; [done|]. cbn. destruct (c =? 47) eqn:E; [exact IH|]. cbn. by rewrite E.
Qed.

Lemma skip_slashes_le p : (length (skip_slashes p) <= length p)%nat.
Proof. induction p as [|c p IH]; [done|]. cbn. destruct (c =? 47); cbn; lia. Qed.

Lemma skip_slashes_bytes p : (forall c, c ∈ p -> c <> 0) -> forall c, c ∈ skip_slashes p -> c <> 0.
Proof.
  induction p as [|x p IH]; intros H c; [apply H|]. cbn. destruct (x =? 47); [|apply H].
  apply IH. intros d Hd. apply H. by right.
Qed.

Lemma skip_slashes_head p : char_at (skip_slashes p) 0 <> 47.
Proof.
  induction p as [|c p IH]; [done|]. cbn. destruct (Z.eqb_spec c 47) as [_|Hc]; [exact IH|exact Hc].
Qed.

Lemma take_elem_spec p : (forall c, c ∈ p -> c <> 0) -> forall cur,
  comps cur p = match cur ++ (take_elem p).1 with [] => elems (take_elem p).2 | l => l :: elems (take_elem p).2 end /\
  p = (take_elem p).1 ++ (take_elem p).2.
Proof.
  induction p as [|c p IH]; intros Hp cur; cbn.
  - rewrite app_nil_r. split; [|done]. by destruct cur.
  - destruct (Z.eqb_spec c 0) as [->|_]; [by destruct (Hp 0); [apply list_elem_of_here|]|].
    destruct (Z.eqb_spec c 47) as [->|Hc]; cbn.
    + rewrite app_nil_r. split; [|done]. by destruct cur.
    + destruct (IH ltac:(intros d Hd; apply Hp; by right) (cur ++ [c])) as [H1 H2].
      destruct (take_elem p) as [e r]. cbn in *. rewrite <- app_assoc in H1. split; [exact H1|]. by rewrite <- H2.
Qed.

(** The name buffer compares equal to the element, of which only [DIRSIZ]
    characters count. *)
Lemma strncmp_prefix n : forall e t, (forall c, c ∈ e -> c <> 0) ->
  strncmp_list n e (if (n <=? length e)%nat then take n e else e ++ 0 :: t) = 0.
Proof.
  induction n as [|n IH]; intros e t He; [done|]. destruct e as [|c e].
  - done.
  - assert (Hc : c <> 0) by (apply He, list_elem_of_here). cbn [strncmp_list length Nat.leb].
    destruct (n <=? length e)%nat eqn:El; change (char_at (c :: e) 0) with c.
    + change (char_at (take (S n) (c :: e)) 0) with c. destruct (Z.eqb_spec c 0); [done|]. rewrite Z.eqb_refl. cbn [negb andb tail take].
      specialize (IH e t ltac:(intros d Hd; apply He; by right)). by rewrite El in IH.
    + change (char_at ((c :: e) ++ 0 :: t) 0) with c. destruct (Z.eqb_spec c 0); [done|]. rewrite Z.eqb_refl. cbn [negb andb tail app].
      specialize (IH e t ltac:(intros d Hd; apply He; by right)). by rewrite El in IH.
Qed.

(** [skipelem] takes a path apart: it returns 0 exactly when the path has no
    more elements; otherwise it leaves the path of the remaining elements (and
    shorter), with no slash in front, and puts the first element, cut at
    [DIRSIZ] characters, in the name buffer. *)
Theorem skipelem_elems path name :
  (forall c, c ∈ path -> c <> 0) -> length name = Z.to_nat DIRSIZ ->
  match skipelem path name with
  | None => elems path = []
  | Some (rest, nm) =>
      exists e, elems path = e :: elems rest /\ namecmp e nm = 0 /\ length nm = Z.to_nat DIRSIZ /\
        (length rest < length path)%nat /\ char_at rest 0 <> 47 /\ (forall c, c ∈ rest -> c <> 0)
  end.
Proof.
  intros Hp Hn. unfold skipelem. pose proof (skip_slashes_bytes path Hp) as Hp'. pose proof (skip_slashes_le path) as Hle.
  pose proof (skip_slashes_head path) as Hh. rewrite <- (elems_skip path). set (q := skip_slashes path) in *.
  destruct q as [|c q'] eqn:Eq; [done|]. cbn [char_at lookup]. assert (Hc : c <> 0) by (apply Hp', list_elem_of_here).
  change (char_at (c :: q') 0) with c in *. destruct (Z.eqb_spec c 0); [done|].
  destruct (take_elem_spec (c :: q') Hp' []) as [H1 H2]. destruct (take_elem (c :: q')) as [e r] eqn:Et. cbn [fst snd app] in H1, H2.
  assert (He : e <> []).
  { cbn in Et. destruct (Z.eqb_spec c 47); [done|]. destruct (Z.eqb_spec c 0); [done|]. cbn in Et.
    destruct (take_elem q'). by simplify_eq. }
  assert (Hle' : length (c :: q') = (length e + length r)%nat) by (by rewrite H2, length_app).
  assert (Hep : forall d, d ∈ e -> d <> 0) by (intros d Hd; apply Hp'; rewrite H2; apply elem_of_app; by left).
  assert (Hrp : forall d, d ∈ r -> d <> 0) by (intros d Hd; apply Hp'; rewrite H2; apply elem_of_app; by right).
  assert (Hel : (0 < length e)%nat) by (destruct e; [done|cbn; lia]).
  exists e. rewrite elems_skip. split; [unfold elems at 1; rewrite H1; by destruct e|].
  assert (Hd : (DIRSIZ <=? Z.of_nat (length e)) = (Z.to_nat DIRSIZ <=? length e)%nat).
  { destruct (Z.leb_spec DIRSIZ (Z.of_nat (length e))), (Nat.leb_spec (Z.to_nat DIRSIZ) (length e)); try done; unfold DIRSIZ in *; lia. }
  rewrite Hd. split; [unfold namecmp; by apply strncmp_prefix|]. split; [|split; [|split]].
  - destruct (Nat.leb_spec (Z.to_nat DIRSIZ) (length e)); [rewrite length_take; lia|].
    rewrite length_app. cbn [length]. rewrite length_drop. lia.
  - pose proof (skip_slashes_le r). lia.
  - apply skip_slashes_head.
  - by apply skip_slashes_bytes.
Qed.

Lemma skipelem_elems_witness :
  exists e, elems [47; 97; 47; 98] = e :: elems [98] /\ namecmp e (97 :: replicate 13 0) = 0.
Proof.
  destruct (skipelem_elems [47; 97; 47; 98] (replicate 14 0)) as (e & H1 & H2 & _).
  - intros c Hc. repeat (apply elem_of_cons in Hc as [->|Hc]; [done|]). by apply elem_of_nil in Hc.
  - done.
  - exists e. split; [exact H1|exact H2].
Defined.

(** An empty directory in the example file system. *)
Definition ex_dir_inode : inode := mk_inode 1 1 1 true true T_DIR 0 0 1 0 (replicate 13 0).
Definition ex_dir_state : fstate := mk_fstate (ds ex_fs_state) ex_sb [ex_dir_inode].

Lemma dirlink_dirlookup_witness : exists s', dirlink (fun _ => None) (fun _ => None) 0 [97] 5 ex_dir_state = Ret 0 s'.
Proof.
  destruct (dirlink_dirlookup 2 30 (ds ex_fs_state) 36 (fun _ => None) (fun _ => None) ex_dir_state 0 ex_dir_inode [97] 5) as (off & s' & ip' & E & _).
  - destruct ex_fs_ok. by split.
  - destruct ex_ino_ok. by split.
  - done.
  - split; cbn; [done|done|lia|]. intros o Ho. lia.
  - cbn. lia.
  - cbn. lia.
  - lia.
  - by repeat constructor.
  - done.
  - exact ex_supply.
  - exists s'. exact E.
Defined.
