(* ===== verification/Ulib.v ===== *)
(** * The user library (ulib.c)

    C strings are lists of characters up to, and without, the terminating NUL;
    where a function may meet a NUL inside a buffer the list holds it.  The
    copying functions work on the memory of Memory.v. *)
From Stdlib Require Export Ascii.
From S2P Require Import Prelude Memory KString.

(** Character and string literals. *)
Definition ch (c : ascii) : Z := Z.of_N (N_of_ascii c).
Fixpoint str (s : string) : list Z :=
  match s with
  | EmptyString => []
  | String c s' => ch c :: str s'
  end.

Definition NL : Z := 10.

(** fcntl.h *)
Definition O_RDONLY : Z := 0x000.
Definition O_WRONLY : Z := 0x001.
Definition O_RDWR : Z := 0x002.
Definition O_CREATE : Z := 0x200.

(** The copy up to and including the NUL, with fuel. *)
Fixpoint ustrcpy (fuel : nat) (m : mem) (s t : Z) : option mem :=
  match fuel with
  | O => None
  | S k =>
      let m := write8 m s (read8 m t) in
      if read8 m s =? 0 then Some m else ustrcpy k m (s + 1) (t + 1)
  end.

Fixpoint strcmp (p q : list Z) : Z :=
  match p with
  | [] => 0 - u8 (hd 0 q)
  | x :: p' =>
      if x =? hd 0 q then strcmp p' (tl q)
      else u8 x - u8 (hd 0 q)
  end.

Definition ustrlen (s : list Z) : Z := Z.of_nat (length s).

Definition umemset (m : mem) (dst c n : Z) : mem := stosb m dst c (Z.to_nat n).

(** The offset of [c]; the scan stops at a NUL. *)
Fixpoint strchr (s : list Z) (c : Z) : option nat :=
  match s with
  | [] => None
  | x :: s' => if x =? 0 then None else if x =? c then Some 0%nat else S <$> strchr s' c
  end.

(** [gets] with [input] the characters the reads of one byte return: the line
    and the rest of the input. *)
Fixpoint ugets (max : nat) (input : list Z) : list Z * list Z :=
  match max with
  | O => ([], input)
  | S k =>
      match input with
      | [] => ([], [])
      | c :: input' =>
          if (c =? NL) || (c =? 13) then ([c], input')
          else let '(l, r) := ugets k input' in (c :: l, r)
      end
  end.
(** [i+1 < max]. *)
Definition ugets_buf (max : Z) (input : list Z) : list Z * list Z :=
  ugets (Z.to_nat (max - 1)) input.

Fixpoint atoi_loop (n : Z) (s : list Z) : Z :=
  match s with
  | [] => n
  | c :: s' =>
      if (ch "0" <=? c) && (c <=? ch "9") then atoi_loop (s32 (s32 (n * 10) + c - ch "0")) s' else n
  end.
Definition atoi (s : list Z) : Z := atoi_loop 0 s.

(** The forward copying loop, whatever the overlap. *)
Definition umemmove (m : mem) (dst src n : Z) : mem := copy_fwd m dst src (Z.to_nat n).
