(* ===== verification/Grep.v ===== *)
(** * grep (grep.c)

    The regular-expression matcher and the loop that reads a file through a
    1024-byte buffer.  The matcher is compared with the language of the
    pattern; the loop with the list of lines. *)
From S2P Require Import Prelude Memory KString Ulib.

(** ** The matcher *)

Fixpoint matchstar (matchre : list Z -> bool) (c : Z) (text : list Z) : bool :=
  matchre text ||
  match text with
  | [] => false
  | t :: text' => ((t =? c) || (c =? ch ".")) && matchstar matchre c text'
  end.

Fixpoint matchhere (re text : list Z) {struct re} : bool :=
  match re with
  | [] => true
  | r0 :: re1 =>
      let one :=
        match text with
        | [] => false
        | t :: text' => ((r0 =? ch ".") || (r0 =? t)) && matchhere re1 text'
        end in
      match re1 with
      | r1 :: re2 => if r1 =? ch "*" then matchstar (matchhere re2) r0 text else one
      | [] => if r0 =? ch "$" then match text with [] => true | _ => false end else one
      end
  end.

Fixpoint match_from (re text : list Z) : bool :=
  matchhere re text ||
  match text with
  | [] => false
  | _ :: text' => match_from re text'
  end.

Definition rmatch (re text : list Z) : bool :=
  match re with
  | c :: re' => if c =? ch "^" then matchhere re' text else match_from re text
  | [] => match_from re text
  end.

(** ** The loop over the input *)

(** The lines of the buffer from [p] on: what is written, and the rest. *)
Fixpoint grep_lines (fuel : nat) (pattern p : list Z) : list Z * list Z :=
  match fuel with
  | O => ([], p)
  | S k =>
      match strchr p NL with
      | None => ([], p)
      | Some q =>
          let '(out, rest) := grep_lines k pattern (drop (S q) p) in
          ((if rmatch pattern (take q p) then take (S q) p else []) ++ out, rest)
      end
  end.

Definition GREPBUF : nat := 1024.

Section Grep.
(** [read(fd, _, n)]: what it returns and the descriptor afterwards. *)
Context {F : Type} (read : nat -> F -> list Z * F).

Fixpoint grep (fuel : nat) (pattern : list Z) (fd : F) (buf : list Z) : option (list Z) :=
  match fuel with
  | O => None
  | S k =>
      let '(got, fd') := read (GREPBUF - length buf - 1)%nat fd in
      match got with
      | [] => Some []
      | _ =>
          let buf := buf ++ got in
          let '(out, p) := grep_lines (S (length buf)) pattern buf in
          let rest := if (length p =? length buf)%nat then [] else p in
          (out ++.) <$> grep k pattern fd' rest
      end
  end.
End Grep.

(** A regular file: [read] returns as much as was asked for, up to the end. *)
Definition read_file (n : nat) (f : list Z) : list Z * list Z := (take n f, drop n f).

(** ** What a pattern denotes *)

Record item := mk_item { it_char : Z; it_star : bool }.

(** The items of a pattern and whether it ends in [$]. *)
Fixpoint items (re : list Z) : list item * bool :=
  match re with
  | [] => ([], false)
  | c :: re1 =>
      match re1 with
      | [] => if c =? ch "$" then ([], true) else ([mk_item c false], false)
      | s :: re2 =>
          if s =? ch "*" then let '(l, e) := items re2 in (mk_item c true :: l, e)
          else let '(l, e) := items re1 in (mk_item c false :: l, e)
      end
  end.

Definition accepts (c t : Z) : Prop := c = ch "." \/ t = c.

Inductive item_lang : item -> list Z -> Prop :=
| IL_one c t : accepts c t -> item_lang (mk_item c false) [t]
| IL_star c u : Forall (accepts c) u -> item_lang (mk_item c true) u.

Inductive lang : list item -> list Z -> Prop :=
| L_nil : lang [] []
| L_cons i l u v : item_lang i u -> lang l v -> lang (i :: l) (u ++ v).

(** A prefix of the text is in the language; all of it, if the pattern ends in [$]. *)
Definition matches_at (re text : list Z) : Prop :=
  exists u v, text = u ++ v /\ lang (items re).1 u /\ ((items re).2 = true -> v = []).

Definition matches (re text : list Z) : Prop :=
  match re with
  | c :: re' =>
      if c =? ch "^" then matches_at re' text
      else exists pre suf, text = pre ++ suf /\ matches_at re suf
  | [] => exists pre suf, text = pre ++ suf /\ matches_at re suf
  end.

(** ** Proofs *)

Lemma matchstar_spec mh c text :
  matchstar mh c text = true <-> exists u v, text = u ++ v /\ Forall (accepts c) u /\ mh v = true.
Proof.
  induction text as [|t text IH]; cbn [matchstar].
  - rewrite orb_false_r. split.
    + intros H. exists [], []. done.
    + intros (u & v & E & _ & H). symmetry in E. apply app_eq_nil in E as [-> ->]. done.
  - rewrite orb_true_iff, andb_true_iff, orb_true_iff, IH, !Z.eqb_eq. split.
    + intros [H|[Hc (u & v & -> & Hu & H)]]; [by exists [], (t :: text)|].
      exists (t :: u), v. split_and!; try done. constructor; [|done]. unfold accepts. tauto.
    + intros ([|x u] & v & E & Hu & H); cbn in E; [left; by rewrite E|right]. injection E as <- ->.
      apply Forall_cons in Hu as [Hx Hu]. split; [unfold accepts in Hx; tauto|]. by exists u, v.
Qed.

(** The equations of [items] that the matcher's branches follow. *)
Lemma matches_at_nil text : matches_at [] text.
Proof. exists [], text. split_and!; [done|constructor|done]. Qed.
Lemma matches_at_end text : matches_at [ch "$"] text <-> text = [].
Proof.
  unfold matches_at. cbn. split.
  - intros (u & v & -> & Hl & Hv). inversion Hl. by rewrite Hv.
  - intros ->. exists [], []. split_and!; [done|constructor|done].
Qed.
Lemma matches_at_star c re text :
  matches_at (c :: ch "*" :: re) text <->
  exists u v, text = u ++ v /\ Forall (accepts c) u /\ matches_at re v.
Proof.
  unfold matches_at. cbn [items]. rewrite Z.eqb_refl. destruct (items re) as [l e]. cbn. split.
  - intros (w & x & -> & Hl & He). inversion Hl as [|i l' u v Hi Hv]; subst. inversion Hi; subst.
    exists u, (v ++ x). rewrite app_assoc. split_and!; [done..|]. by exists v, x.
  - intros (u & w & -> & Hu & (v & x & -> & Hl & He)). exists (u ++ v), x. rewrite app_assoc.
    split_and!; [done| |done]. by constructor; [constructor|].
Qed.
Lemma matches_at_one c re text :
  (re = [] -> c <> ch "$") -> (forall re', re <> ch "*" :: re') ->
  matches_at (c :: re) text <-> exists t text', text = t :: text' /\ accepts c t /\ matches_at re text'.
Proof.
  intros Hd Hs. assert (E : items (c :: re) = (mk_item c false :: (items re).1, (items re).2)).
  { cbn [items]. destruct re as [|r re]; [destruct (Z.eqb_spec c (ch "$")); [by destruct Hd|done]|].
    destruct (Z.eqb_spec r (ch "*")) as [->|]; [by destruct (Hs re)|]. by destruct (items (r :: re)). }
  unfold matches_at. rewrite E. destruct (items re) as [l e]. cbn. split.
  - intros (w & x & -> & Hl & He). inversion Hl as [|i l' u v Hi Hv]; subst. inversion Hi; subst.
    eexists _, (v ++ x). split_and!; [done..|]. by exists v, x.
  - intros (t & w & -> & Ht & (v & x & -> & Hl & He)). exists (t :: v), x. split_and!; [done| |done].
    by apply (L_cons _ _ [t] v); [constructor|].
Qed.

Lemma matchhere_one c re text :
  match text with [] => false | t :: text' => ((c =? ch ".") || (c =? t)) && matchhere re text' end = true <->
  exists t text', text = t :: text' /\ accepts c t /\ matchhere re text' = true.
Proof.
  destruct text as [|t text]; [split; [done|by intros (? & ? & ? & _)]|].
  rewrite andb_true_iff, orb_true_iff, !Z.eqb_eq. split.
  - intros [H1 H2]. exists t, text. unfold accepts. intuition.
  - intros (t' & text' & E & Ha & H). injection E as <- <-. unfold accepts in Ha. intuition.
Qed.

Lemma matchhere_spec n : forall re text, (length re <= n)%nat -> matchhere re text = true <-> matches_at re text.
Proof.
  induction n as [|n IH]; intros [|c re] text Hn; cbn [length] in Hn; try lia;
    try (split; [intros _; apply matches_at_nil|done]).
  assert (Hone : (re = [] -> c <> ch "$") -> (forall re', re <> ch "*" :: re') ->
    match text with [] => false | t :: text' => ((c =? ch ".") || (c =? t)) && matchhere re text' end = true <->
    matches_at (c :: re) text).
  { intros H1 H2. rewrite matchhere_one, matches_at_one by done. by setoid_rewrite (IH re); [|lia]. }
  cbn [matchhere]. destruct re as [|r re].
  - destruct (Z.eqb_spec c (ch "$")) as [->|]; [|by apply Hone].
    rewrite matches_at_end. by destruct text.
  - destruct (Z.eqb_spec r (ch "*")) as [->|]; [|apply Hone; congruence].
    rewrite matches_at_star, matchstar_spec. setoid_rewrite (IH re); [done|cbn in Hn; lia].
Qed.

Lemma match_from_spec re text :
  match_from re text = true <-> exists pre suf, text = pre ++ suf /\ matches_at re suf.
Proof.
  induction text as [|t text IH]; cbn [match_from]; rewrite orb_true_iff, (matchhere_spec _ _ _ (le_n _)).
  - split; [intros [H|H]; [by exists [], []|done]|]. intros (pre & suf & E & H).
    symmetry in E. apply app_eq_nil in E as [-> ->]. by left.
  - rewrite IH. split.
    + intros [H|(pre & suf & -> & H)]; [by exists [], (t :: text)|by exists (t :: pre), suf].
    + intros ([|x pre] & suf & E & H); cbn in E; [left; by rewrite E|right]. injection E as <- ->. by exists pre, suf.
Qed.

(** C33. The recursive matcher decides the language of the pattern: [rmatch re text]
    is true exactly when a substring of the text (a prefix, if the pattern starts
    with [^]; a suffix, if it ends in [$]) is a concatenation of words of the
    pattern's items. *)
Theorem match_equiv_language re text : rmatch re text = true <-> matches re text.
Proof.
  unfold rmatch, matches. destruct re as [|c re]; [apply match_from_spec|].
  destruct (c =? ch "^"); [apply (matchhere_spec _ _ _ (le_n _))|apply match_from_spec].
Qed.

(** *** Lines *)

Definition clean (l : list Z) : Prop := Forall (fun c => c <> 0 /\ c <> NL) l.
Definition unlines (ls : list (list Z)) : list Z := concat ((fun l => l ++ [NL]) <$> ls).

Lemma strchr_clean l c : clean l -> strchr (l ++ NL :: c) NL = Some (length l).
Proof.
  induction 1 as [|x l [H1 H2] _ IH]; [done|]. cbn. destruct (Z.eqb_spec x 0); [done|].
  destruct (Z.eqb_spec x NL); [done|]. by rewrite IH.
Qed.
Lemma strchr_none l : clean l -> strchr l NL = None.
Proof.
  induction 1 as [|x l [H1 H2] _ IH]; [done|]. cbn. destruct (Z.eqb_spec x 0); [done|].
  destruct (Z.eqb_spec x NL); [done|]. by rewrite IH.
Qed.

Lemma grep_lines_spec pattern ls tail : forall fuel,
  Forall clean ls -> clean tail -> (length ls < fuel)%nat ->
  grep_lines fuel pattern (unlines ls ++ tail) =
    (unlines (List.filter (rmatch pattern) ls), tail).
Proof.
  induction ls as [|l ls IH]; intros [|fuel] Hls Ht Hf; cbn [length] in Hf; try lia.
  - cbn [grep_lines unlines fmap list_fmap concat app]. by rewrite strchr_none.
  - apply Forall_cons in Hls as [Hl Hls]. cbn [grep_lines].
    replace (unlines (l :: ls) ++ tail) with (l ++ NL :: (unlines ls ++ tail))
      by (unfold unlines; cbn; by rewrite <- !app_assoc).
    rewrite strchr_clean by done. rewrite drop_app_ge by lia. replace (S (length l) - length l)%nat with 1%nat by lia.
    cbn [drop]. rewrite IH by (done || lia). rewrite take_app_length.
    rewrite (take_app_ge l) by lia. replace (S (length l) - length l)%nat with 1%nat by lia. cbn [take List.filter].
    rewrite firstn_O. destruct (rmatch pattern l); [|done]. unfold unlines. cbn. by rewrite <- app_assoc.
Qed.

(** The first [k] bytes of a text cut into whole lines and a rest. *)
Lemma cut_lines ls tail : forall k, exists ls1 ls2 r1 r2,
  ls = ls1 ++ ls2 /\ take k (unlines ls ++ tail) = unlines ls1 ++ r1 /\
  drop k (unlines ls ++ tail) = r2 /\ r1 ++ r2 = unlines ls2 ++ tail /\
  (Forall clean ls -> clean tail -> clean r1) /\
  (forall l ls', ls = l :: ls' -> (length l < k)%nat -> ls1 <> []).
Proof.
  induction ls as [|l ls IH]; intros k.
  - exists [], [], (take k tail), (drop k tail). split_and!; try done; [apply take_drop|].
    intros _ Ht. by apply Forall_take.
  - replace (unlines (l :: ls) ++ tail) with ((l ++ [NL]) ++ unlines ls ++ tail)
      by (unfold unlines; cbn; by rewrite <- !app_assoc).
    destruct (Nat.lt_ge_cases (length l) k) as [Hk|Hk].
    + destruct (IH (k - length (l ++ [NL]))%nat) as (ls1 & ls2 & r1 & r2 & -> & E1 & E2 & E3 & Hc & _).
      exists (l :: ls1), ls2, r1, r2. rewrite length_app in *. cbn [length] in *.
      rewrite take_app_ge, drop_app_ge by (rewrite length_app; cbn; lia). rewrite length_app. cbn [length].
      split_and!; try done.
      * rewrite E1. unfold unlines. cbn. by rewrite <- !app_assoc.
      * intros Hl Ht. apply Forall_cons in Hl as [_ Hl]. by apply Hc.
    + exists [], (l :: ls), (take k (l ++ [NL] ++ unlines ls ++ tail)), (drop k (l ++ [NL] ++ unlines ls ++ tail)).
      rewrite <- !app_assoc. split_and!; try done.
      * rewrite take_drop. unfold unlines. cbn. by rewrite <- !app_assoc.
      * intros Hl Ht. apply Forall_cons in Hl as [Hl _]. rewrite take_app_le by lia. by apply Forall_take.
      * intros l' ls' E. injection E as <- <-. lia.
Qed.

Lemma unlines_app ls1 ls2 : unlines (ls1 ++ ls2) = unlines ls1 ++ unlines ls2.
Proof. unfold unlines. by rewrite fmap_app, concat_app. Qed.
Lemma unlines_length ls : (length ls <= length (unlines ls))%nat.
Proof. induction ls as [|l ls IH]; [done|]. unfold unlines in *. cbn. rewrite !length_app. cbn. lia. Qed.

(** The buffer after a read: whole lines, then the beginning of the next one,
    which is dropped if it is all there is. *)
Lemma grep_round pattern ls1 r1 :
  Forall clean ls1 -> clean r1 ->
  let buf := unlines ls1 ++ r1 in
  let '(out, p) := grep_lines (S (length buf)) pattern buf in
  out = unlines (List.filter (rmatch pattern) ls1) /\
  (if (length p =? length buf)%nat then [] else p) = (if ls1 is [] then [] else r1).
Proof.
  intros Hls Hr buf. subst buf. rewrite grep_lines_spec; [|done..|rewrite length_app; pose proof (unlines_length ls1); lia].
  split; [done|]. rewrite length_app. pose proof (unlines_length ls1). destruct ls1 as [|l ls1]; cbn [length] in *.
  - by rewrite Nat.eqb_refl.
  - destruct (Nat.eqb_spec (length r1) (length (unlines (l :: ls1)) + length r1)); [lia|done].
Qed.

Lemma grep_spec pattern : forall fuel ls tail buf f,
  Forall clean ls -> clean tail -> Forall (fun l => length l < 1023)%nat ls ->
  buf ++ f = unlines ls ++ tail -> (length buf < 1023)%nat -> (buf <> [] -> clean buf) ->
  (length f < fuel)%nat ->
  grep read_file fuel pattern f buf = Some (unlines (List.filter (rmatch pattern) ls)).
Proof.
  induction fuel as [|fuel IH]; intros ls tail buf f Hls Ht Hlen E Hb Hcb Hf; [lia|].
  cbn [grep]. unfold read_file at 1. destruct f as [|c f].
  - rewrite take_nil. destruct ls as [|l ls]; [done|]. exfalso. rewrite app_nil_r in E.
    assert (Hin : NL ∈ buf) by (rewrite E; unfold unlines; cbn; set_solver).
    destruct (decide (buf = [])) as [->|Hne]; [by apply elem_of_nil in Hin|].
    specialize (Hcb Hne). unfold clean in Hcb. rewrite Forall_forall in Hcb. by destruct (Hcb _ Hin).
  - set (n := (GREPBUF - length buf - 1)%nat). assert (Hn : (0 < n)%nat) by (unfold n, GREPBUF; lia).
    destruct (take n (c :: f)) as [|g got] eqn:Eg; [destruct n; [lia|done]|]. rewrite <- Eg. clear Eg g got.
    destruct (cut_lines ls tail 1023) as (ls1 & ls2 & r1 & r2 & -> & E1 & E2 & E3 & Hc & Hne).
    rewrite <- E in E1, E2. rewrite take_app_ge in E1 by lia. rewrite drop_app_ge in E2 by lia.
    replace (1023 - length buf)%nat with n in E1, E2 by (unfold n, GREPBUF; lia). rewrite E1.
    apply Forall_app in Hls as [Hls1 Hls2]. apply Forall_app in Hlen as [Hlen1 Hlen2].
    specialize (Hc ltac:(by apply Forall_app) Ht).
    pose proof (grep_round pattern ls1 r1 Hls1 Hc) as Hr. cbv zeta in Hr.
    destruct (grep_lines _ pattern (unlines ls1 ++ r1)) as [out p]. destruct Hr as [-> ->].
    assert (Hcap : (length (unlines ls1 ++ r1) <= 1023)%nat).
    { rewrite <- E1, length_app, length_take. unfold n, GREPBUF. lia. }
    rewrite length_app in Hcap. rewrite E2. rewrite List.filter_app, unlines_app.
    assert (Hl2 : (length r2 < fuel)%nat) by (rewrite <- E2, length_drop; cbn [length] in *; lia).
    destruct ls1 as [|l ls1].
    + destruct ls2 as [|l ls2].
      * cbn [unlines fmap list_fmap concat app] in *. erewrite (IH [] r2 [] r2); [done|done| |done|done|cbn; lia|done|done].
        rewrite <- E3 in Ht. by apply Forall_app in Ht as [_ Ht].
      * exfalso. apply Forall_cons in Hlen2 as [Hl _]. by apply (Hne l ls2).
    + rewrite (IH ls2 tail r1 r2); [done|done|done|done|done| |done|done].
      pose proof (unlines_length (l :: ls1)). cbn [length] in *. lia.
Qed.

(** On a regular file without NUL bytes whose lines are shorter than 1023
    characters, the loop terminates and writes exactly the lines that match, in
    order, whatever the position of the lines in the 1024-byte buffer; text after
    the last newline is not a line. *)
Theorem grep_selects_lines pattern ls tail :
  Forall clean ls -> clean tail -> Forall (fun l => length l < 1023)%nat ls ->
  let f := unlines ls ++ tail in
  grep read_file (S (length f)) pattern f [] = Some (unlines (List.filter (rmatch pattern) ls)).
Proof. intros Hc Ht Hl f. apply (grep_spec pattern (S (length f)) ls tail []); try done; cbn [length]; lia. Qed.

Lemma grep_selects_lines_witness :
  grep read_file 20 (str "^a.*b$") (str "ab" ++ [NL] ++ str "xab" ++ [NL] ++ str "aXb" ++ [NL] ++ str "ab") [] =
  Some (str "ab" ++ [NL] ++ str "aXb" ++ [NL]).
Proof.
  apply (grep_selects_lines (str "^a.*b$") [str "ab"; str "xab"; str "aXb"] (str "ab")).
  all: unfold clean; repeat constructor; cbn; done || lia.
Defined.

(** A descriptor that returns less than was asked for, as a pipe or the console
    does: one element per [read]. *)
Definition read_chunks (n : nat) (f : list (list Z)) : list Z * list (list Z) :=
  match f with [] => ([], []) | c :: f' => (c, f') end.

(** When a read ends before the first newline of the buffer, the beginning of the
    line is lost, and the line is matched without it. *)
Example grep_short_read_loses_text :
  grep read_chunks 4 (str "^key") [str "ke"; str "y1" ++ [NL]] [] = Some [] /\
  grep read_chunks 4 (str "^key") [str "key1" ++ [NL]] [] = Some (str "key1" ++ [NL]).
Proof. split; vm_compute; reflexivity. Qed.
