(* ===== verification/Printf.v ===== *)
(** * Formatted output of user programs (printf.c)

    [printint] and [printf] as the bytes they write.  An argument is a 32-bit
    word; [strat] gives the C string a pointer argument points to.  [None] is
    undefined behaviour: a write past [buf[16]] or a missing argument. *)
From S2P Require Import Prelude Memory KString Ulib.

Definition udigits : list Z := str "0123456789ABCDEF".

Section Printint.
Context (digits : list Z).

(** [do{ buf[i++] = digits[x % base]; }while((x /= base) != 0);] with [room] the
    number of bytes left in [buf]: the bytes stored, last one first. *)
Fixpoint digit_loop (room : nat) (x base : Z) (buf : list Z) : option (list Z) :=
  match room with
  | O => None
  | S k =>
      match zget digits (x mod base) with
      | None => None
      | Some d =>
          let x := x / base in
          if negb (x =? 0) then digit_loop k x base (d :: buf) else Some (d :: buf)
      end
  end.

Definition printint (xx base : Z) (sgn : bool) : option (list Z) :=
  let neg := sgn && (xx <? 0) in
  let x := if neg then u32 (- xx) else u32 xx in
  match digit_loop 16 x base [] with
  | None => None
  | Some b =>
      if neg then if (length b <? 16)%nat then Some (ch "-" :: b) else None
      else Some b
  end.
End Printint.

Definition null_str : list Z := str "(null)".
Definition str_arg (strat : Z -> list Z) (s : Z) : list Z := if s =? 0 then null_str else strat s.

Definition pre (o : list Z) (r : option (list Z)) : option (list Z) := (o ++.) <$> r.

Section Printf.
Context (digits : list Z) (strat : Z -> list Z).

(** [state] is true after a percent sign. *)
Fixpoint printf_loop (state : bool) (fmt : list Z) (ap : list Z) : option (list Z) :=
  match fmt with
  | [] => Some []
  | c :: fmt' =>
      if negb state then
        if c =? ch "%" then printf_loop true fmt' ap
        else pre [c] (printf_loop false fmt' ap)
      else if c =? ch "d" then
        match ap with
        | [] => None
        | a :: ap' =>
            match printint digits (s32 a) 10 true with
            | Some o => pre o (printf_loop false fmt' ap')
            | None => None
            end
        end
      else if (c =? ch "x") || (c =? ch "p") then
        match ap with
        | [] => None
        | a :: ap' =>
            match printint digits (s32 a) 16 false with
            | Some o => pre o (printf_loop false fmt' ap')
            | None => None
            end
        end
      else if c =? ch "s" then
        match ap with
        | [] => None
        | a :: ap' => pre (str_arg strat a) (printf_loop false fmt' ap')
        end
      else if c =? ch "c" then
        match ap with
        | [] => None
        | a :: ap' => pre [u8 a] (printf_loop false fmt' ap')
        end
      else if c =? ch "%" then pre [c] (printf_loop false fmt' ap)
      else pre [ch "%"; c] (printf_loop false fmt' ap)
  end.
End Printf.

Definition printf (strat : Z -> list Z) (fmt : list Z) (ap : list Z) : option (list Z) :=
  printf_loop udigits strat false fmt ap.

(** ** The number that digits denote *)

Definition digit_of (digits : list Z) (d : nat) : Z := default 0 (digits !! d).

(** Digit values, most significant first. *)
Definition value (base : Z) (ds : list nat) : Z := fold_left (fun a d => a * base + Z.of_nat d) ds 0.

Lemma value_snoc base ds d : value base (ds ++ [d]) = value base ds * base + Z.of_nat d.
Proof. unfold value. by rewrite fold_left_app. Qed.
Lemma value_cons base d ds : value base (d :: ds) = Z.of_nat d * base ^ Z.of_nat (length ds) + value base ds.
Proof.
  induction ds as [|x ds IH] using rev_ind; [unfold value; cbn; lia|].
  rewrite app_comm_cons, !value_snoc, IH, length_app. cbn [length].
  rewrite Nat2Z.inj_add, Z.pow_add_r by lia. change (Z.of_nat 1) with 1. rewrite Z.pow_1_r. ring.
Qed.

(** The loop stores the digits of [x] in front of [buf], with no leading zero. *)
Lemma digit_loop_spec digits base : 2 <= base <= Z.of_nat (length digits) ->
  forall room x buf, 0 <= x < base ^ Z.of_nat room -> (0 < room)%nat ->
  exists ds, digit_loop digits room x base buf = Some ((digit_of digits <$> ds) ++ buf) /\
    value base ds = x /\ (1 <= length ds <= room)%nat /\
    Forall (fun d => Z.of_nat d < base) ds /\ (x <> 0 -> hd 0%nat ds <> 0%nat) /\ (x = 0 -> ds = [0%nat]).
Proof.
  intros Hb room. induction room as [|room IH]; intros x buf Hx Hr; [lia|].
  rewrite Nat2Z.inj_succ, Z.pow_succ_r in Hx by lia. pose proof (Z.mod_pos_bound x base) as Hm.
  cbn [digit_loop]. destruct (zget digits (x mod base)) as [d|] eqn:Ed.
  2:{ unfold zget in Ed. destruct (Z.ltb_spec (x mod base) 0); [lia|]. apply lookup_ge_None in Ed. lia. }
  assert (Hd : d = digit_of digits (Z.to_nat (x mod base))).
  { apply zget_Some in Ed as [_ Ed]. unfold digit_of. by rewrite Ed. }
  assert (Hdiv : x = base * (x / base) + x mod base) by (apply Z.div_mod; lia).
  destruct (Z.eqb_spec (x / base) 0) as [E|E]; cbn [negb].
  - exists [Z.to_nat (x mod base)]. cbn. unfold value; cbn. rewrite Hd. split_and!; try done; try lia.
    + constructor; [lia|done].
    + intros ->. by rewrite Z.mod_0_l by lia.
  - assert (0 <= x / base) by (apply Z.div_pos; lia).
    assert (x / base < base ^ Z.of_nat room) by (apply Z.div_lt_upper_bound; lia).
    destruct room as [|room]; [cbn in *; lia|].
    destruct (IH (x / base) (d :: buf) ltac:(lia) ltac:(lia)) as (ds & -> & Hv & Hl & Hf & Hnz & _).
    exists (ds ++ [Z.to_nat (x mod base)]). rewrite fmap_app, <- app_assoc, length_app, value_snoc, Hv.
    cbn. rewrite <- Hd. split_and!; try done; try lia.
    + apply Forall_app. split; [done|]. constructor; [lia|done].
    + intros _. specialize (Hnz E). destruct ds; [cbn in Hl; lia|done].
Qed.

(** C40. [printint] never writes past its 16-byte buffer: for every 32-bit value, in
    base 10 and in base 16, it prints an optional sign and the digits, without
    leading zeros, of the value (read as signed or unsigned as [sgn] says), at
    most 11 characters. *)
Theorem printint_digits digits xx base sgn :
  length digits = 16%nat -> base = 10 \/ base = 16 -> -2147483648 <= xx < 2147483648 ->
  let x := if sgn && (xx <? 0) then - xx else u32 xx in
  exists ds, printint digits xx base sgn =
      Some ((if sgn && (xx <? 0) then [ch "-"] else []) ++ (digit_of digits <$> ds)) /\
    value base ds = x /\ (1 <= length ds <= 10)%nat /\ Forall (fun d => Z.of_nat d < base) ds /\
    (x <> 0 -> hd 0%nat ds <> 0%nat).
Proof.
  intros Hd Hb Hxx x. assert (Hx : 0 <= x < 4294967296).
  { subst x. destruct sgn, (Z.ltb_spec xx 0); cbn [andb]; try apply u32_range; lia. }
  assert (Ex : (if sgn && (xx <? 0) then u32 (- xx) else u32 xx) = x).
  { subst x. destruct (sgn && (xx <? 0)); [|done]. apply u32_small. lia. }
  assert (Hpow : x < base ^ Z.of_nat 10) by (destruct Hb as [-> | ->]; cbn; lia).
  assert (Hp16 : base ^ Z.of_nat 10 <= base ^ Z.of_nat 16) by (apply Z.pow_le_mono_r; lia).
  destruct (digit_loop_spec digits base ltac:(lia) 16 x [] ltac:(lia) ltac:(lia)) as (ds & E & Hv & Hl & Hf & Hnz & H0).
  assert (Hl10 : (length ds <= 10)%nat).
  { destruct ds as [|d ds]; [cbn; lia|]. cbn [length]. apply Nat.le_ngt. intros Hlt.
    rewrite value_cons in Hv. destruct (Z.eq_dec x 0) as [E0|E0]; [specialize (H0 E0); simplify_eq; cbn in Hlt; lia|].
    specialize (Hnz E0). cbn in Hnz. assert (0 <= value base ds).
    { clear -Hb. induction ds as [|y ds IH] using rev_ind; [done|]. rewrite value_snoc. destruct Hb; subst base; lia. }
    assert (base ^ Z.of_nat 10 <= base ^ Z.of_nat (length ds)) by (apply Z.pow_le_mono_r; lia). nia. }
  exists ds. unfold printint. rewrite Ex, E, app_nil_r.
  split_and!; try done; try lia. destruct (sgn && (xx <? 0)); [|done].
  rewrite length_fmap. by destruct (Nat.ltb_spec (length ds) 16); [|lia].
Qed.

Lemma printint_digits_witness :
  exists ds, printint udigits (-2147483648) 10 true = Some (ch "-" :: (digit_of udigits <$> ds)) /\ value 10 ds = 2147483648.
Proof.
  destruct (printint_digits udigits (-2147483648) 10 true) as (ds & E & V & _); [reflexivity|by left|lia|].
  exists ds. split; [exact E|exact V].
Defined.

(** Reading decimal digits back. *)
Lemma atoi_loop_value ds : forall n,
  Forall (fun d => Z.of_nat d < 10) ds -> 0 <= n ->
  fold_left (fun a d => a * 10 + Z.of_nat d) ds n < 2147483648 ->
  atoi_loop n (digit_of udigits <$> ds) = fold_left (fun a d => a * 10 + Z.of_nat d) ds n.
Proof.
  induction ds as [|d ds IH]; intros n Hd Hn Hv; [done|]. apply Forall_cons in Hd as [Hd0 Hd]. cbn in Hv.
  assert (Hge : forall m, 0 <= m -> m <= fold_left (fun a d => a * 10 + Z.of_nat d) ds m).
  { clear. induction ds as [|d ds IH]; intros m Hm; cbn; [lia|]. specialize (IH (m * 10 + Z.of_nat d)). lia. }
  specialize (Hge (n * 10 + Z.of_nat d)).
  assert (Hc : digit_of udigits d = 48 + Z.of_nat d).
  { do 10 (destruct d as [|d]; [reflexivity|]). lia. }
  cbn [fmap list_fmap atoi_loop fold_left]. rewrite Hc. change (ch "0") with 48. change (ch "9") with 57.
  destruct (Z.leb_spec 48 (48 + Z.of_nat d)), (Z.leb_spec (48 + Z.of_nat d) 57); cbn [andb]; try lia.
  rewrite (s32_small (n * 10)) by lia. replace (n * 10 + (48 + Z.of_nat d) - 48) with (n * 10 + Z.of_nat d) by lia.
  rewrite s32_small by lia. apply IH; [done|lia|done].
Qed.

(** Printing a non-negative [int] with [%d] and reading it back with [atoi] is the
    identity. *)
Theorem printf_atoi_roundtrip strat n :
  0 <= n < 2147483648 -> exists l, printf strat (str "%d") [n] = Some l /\ atoi l = n.
Proof.
  intros Hn. destruct (digit_loop_spec udigits 10 ltac:(cbn; lia) 16 n [] ltac:(cbn; lia) ltac:(lia))
    as (ds & E & Hv & _ & Hf & _). exists (digit_of udigits <$> ds). split.
  - unfold printf. change (str "%d") with [37; 100]. cbn [printf_loop negb].
    change (37 =? ch "%") with true. change (100 =? ch "d") with true. cbn beta iota.
    rewrite s32_small by lia. unfold printint. destruct (Z.ltb_spec n 0); [lia|]. cbn [andb].
    rewrite u32_small by lia. rewrite E. unfold pre. cbn. by rewrite !app_nil_r.
  - unfold atoi. rewrite <- Hv. apply atoi_loop_value; [done|lia|]. unfold value in Hv. lia.
Qed.

Lemma printf_atoi_roundtrip_witness :
  exists l, printf (fun _ => []) (str "%d") [2147483647] = Some l /\ atoi l = 2147483647.
Proof. apply printf_atoi_roundtrip. lia. Defined.

(** ** Steps of the format *)

Section Steps.
Context (digits : list Z) (strat : Z -> list Z).

Lemma printf_lit c fmt ap : c <> ch "%" ->
  printf_loop digits strat false (c :: fmt) ap = pre [c] (printf_loop digits strat false fmt ap).
Proof. intros Hc. cbn [printf_loop negb]. by destruct (Z.eqb_spec c (ch "%")). Qed.
Lemma printf_d fmt a ap o : printint digits (s32 a) 10 true = Some o ->
  printf_loop digits strat false (ch "%" :: ch "d" :: fmt) (a :: ap) = pre o (printf_loop digits strat false fmt ap).
Proof. intros Ho. cbn [printf_loop negb]. change (ch "%" =? ch "%") with true. change (ch "d" =? ch "d") with true. cbn beta iota. by rewrite Ho. Qed.
Lemma printf_s fmt a ap :
  printf_loop digits strat false (ch "%" :: ch "s" :: fmt) (a :: ap) = pre (str_arg strat a) (printf_loop digits strat false fmt ap).
Proof. reflexivity. Qed.
End Steps.
