(* ===== verification/Umalloc.v ===== *)
(** * The user-level allocator (umalloc.c)

    The free list is a circular list of headers, in order of address, threaded
    through the free blocks; [base] is a header of size 0 in the program's data.
    A header is two words, the pointer to the next free block and the size of
    the block in units of the header; [hdrs] holds the words at the addresses
    that have been used as headers.  Searches around the circle take fuel: the
    number of headers bounds the number of blocks on it.

    [grow b n] says whether the kernel lets a process whose break is [b] have
    [n] more bytes ([growproc] of proc.c, reached through [sbrk]). *)
From S2P Require Import Prelude Memory.

Definition sizeof_Header : Z := 8.

Record umstate := mk_um {
  hdrs : gmap Z (Z * Z);
  freep : Z;
  brk : Z
}.

Definition hptr (s : umstate) (p : Z) : Z := (default (0, 0) (hdrs s !! p)).1.
Definition hsize (s : umstate) (p : Z) : Z := (default (0, 0) (hdrs s !! p)).2.
Definition set_hptr (s : umstate) (p v : Z) : umstate :=
  mk_um (<[p := (v, hsize s p)]> (hdrs s)) (freep s) (brk s).
Definition set_hsize (s : umstate) (p v : Z) : umstate :=
  mk_um (<[p := (hptr s p, v)]> (hdrs s)) (freep s) (brk s).
Definition set_freep (s : umstate) (p : Z) : umstate := mk_um (hdrs s) p (brk s).

(** The address [n] headers after [p]. *)
Definition hplus (p n : Z) : Z := u32 (p + sizeof_Header * n).

Section Umalloc.
Context (base : Z) (grow : Z -> Z -> bool).

Definition fuel_of (s : umstate) : nat := (2 * size (hdrs s) + 2)%nat.

(** The loop of [free] that finds the block to insert after. *)
Fixpoint free_search (fuel : nat) (s : umstate) (bp p : Z) : option Z :=
  match fuel with
  | O => None
  | S k =>
      if (p <? bp) && (bp <? hptr s p) then Some p
      else if (hptr s p <=? p) && ((p <? bp) || (bp <? hptr s p)) then Some p
      else free_search k s bp (hptr s p)
  end.

(** Linking [bp] to what follows [p], joined with it if they touch. *)
Definition free_up (s : umstate) (bp p : Z) : umstate :=
  if hplus bp (hsize s bp) =? hptr s p then
    let s := set_hsize s bp (u32 (hsize s bp + hsize s (hptr s p))) in
    set_hptr s bp (hptr s (hptr s p))
  else set_hptr s bp (hptr s p).

(** Linking [p] to [bp], or joining them. *)
Definition free_down (s : umstate) (bp p : Z) : umstate :=
  if hplus p (hsize s p) =? bp then
    let s := set_hsize s p (u32 (hsize s p + hsize s bp)) in
    set_hptr s p (hptr s bp)
  else set_hptr s p bp.

Definition free (s : umstate) (ap : Z) : option umstate :=
  let bp := u32 (ap - sizeof_Header) in
  match free_search (fuel_of s) s bp (freep s) with
  | None => None
  | Some p => Some (set_freep (free_down (free_up s bp p) bp p) p)
  end.

(** [sbrk] as [sys_sbrk] implements it: the old break, or -1. *)
Definition sbrk (s : umstate) (n : Z) : Z * umstate :=
  if grow (brk s) n then (brk s, mk_um (hdrs s) (freep s) (u32 (brk s + n)))
  else (u32 (-1), s).

(** The outer [option] is fuel; a 0 is the C function's null. *)
Definition morecore (s : umstate) (nu : Z) : option (Z * umstate) :=
  let nu := if nu <? 4096 then 4096 else nu in
  let '(p, s) := sbrk s (s32 (u32 (nu * sizeof_Header))) in
  if p =? u32 (-1) then Some (0, s)
  else
    let s := set_hsize s p nu in
    match free s (hplus p 1) with
    | None => None
    | Some s => Some (freep s, s)
    end.

Definition nunits_of (nbytes : Z) : Z :=
  u32 (u32 (nbytes + sizeof_Header - 1) / sizeof_Header + 1).

(** Taking a block from [p], whose predecessor is [prevp]. *)
Definition take_block (s : umstate) (prevp p nunits : Z) : Z * umstate :=
  if hsize s p =? nunits then
    let s := set_hptr s prevp (hptr s p) in
    (hplus p 1, set_freep s prevp)
  else
    let s := set_hsize s p (u32 (hsize s p - nunits)) in
    let p := hplus p (hsize s p) in
    let s := set_hsize s p nunits in
    (hplus p 1, set_freep s prevp).

Fixpoint malloc_search (fuel : nat) (s : umstate) (nunits prevp p : Z) : option (Z * umstate) :=
  match fuel with
  | O => None
  | S k =>
      if nunits <=? hsize s p then Some (take_block s prevp p nunits)
      else if p =? freep s then
        match morecore s nunits with
        | None => None
        | Some (p, s) => if p =? 0 then Some (0, s) else malloc_search k s nunits p (hptr s p)
        end
      else malloc_search k s nunits p (hptr s p)
  end.

Definition malloc (s : umstate) (nbytes : Z) : option (Z * umstate) :=
  let nunits := nunits_of nbytes in
  let prevp := freep s in
  let '(prevp, s) :=
    if prevp =? 0 then
      let s := set_hptr (set_freep s base) base base in
      (base, set_hsize s base 0)
    else (prevp, s) in
  malloc_search (2 * fuel_of s + 2) s nunits prevp (hptr s prevp).
End Umalloc.
