(* ===== verification/UmallocProof.v ===== *)
(** * Correctness of the user-level allocator

    The abstract state is a list of free blocks in order of address and a list
    of allocated blocks, all disjoint and between [base] and the break; the
    concrete state threads the free ones into a circle.  [malloc] moves a block
    from the first list to the second, [free] moves it back and merges it with
    its neighbours, so that no two free blocks touch. *)
From S2P Require Import Prelude Memory Umalloc.

(** ** Lists whose elements are pairwise related *)

Fixpoint allp {A} (R : A -> A -> Prop) (l : list A) : Prop :=
  match l with
  | [] => True
  | x :: l' => Forall (R x) l' /\ allp R l'
  end.

Lemma allp_app {A} (R : A -> A -> Prop) l1 l2 :
  allp R (l1 ++ l2) <-> allp R l1 /\ allp R l2 /\ Forall (fun x => Forall (R x) l2) l1.
Proof.
  induction l1 as [|x l1 IH]; cbn; [by intuition|].
  rewrite Forall_app, IH, Forall_cons. tauto.
Qed.
Lemma allp_perm {A} (R : A -> A -> Prop) `{!Symmetric R} l1 l2 : l1 ≡ₚ l2 -> allp R l1 -> allp R l2.
Proof.
  induction 1 as [|x l1 l2 Hp IH|x y l|l1 l2 l3 _ IH1 _ IH2]; cbn; [done| | |tauto].
  - intros [H1 H2]. split; [by rewrite <- Hp|by apply IH].
  - rewrite !Forall_cons. intros [[H1 H2] [H3 H4]]. split_and!; done.
Qed.

(** ** Blocks *)

Notation block := (Z * Z)%type.
Definition bend (b : block) : Z := b.1 + 8 * b.2.
Definition gap (b c : block) : Prop := bend b < c.1.
Definition disj (b c : block) : Prop := bend b <= c.1 \/ bend c <= b.1.
Definition inside (x : Z) (b : block) : Prop := b.1 <= x < bend b.

#[export] Instance disj_sym : Symmetric disj.
Proof. unfold disj. intros b c. tauto. Qed.

Ltac blocks := unfold gap, disj, inside, bend in *; cbn [fst snd] in *; try lia.

(** Cutting a block in two, and joining two that touch. *)
Lemma disj_split a m n c : 0 <= m -> 0 <= n -> disj (a, m + n) c -> disj (a, m) c /\ disj (a + 8 * m, n) c.
Proof. blocks. Qed.
Lemma disj_join a m n c : 0 < c.2 -> 0 < n -> 0 < m -> disj (a, m) c -> disj (a + 8 * m, n) c -> disj (a, m + n) c.
Proof. blocks. Qed.

(** ** The circle *)

Definition nxt (l : list block) (e : Z) : Z := match l with [] => e | b :: _ => b.1 end.

Fixpoint seg (h : gmap Z (Z * Z)) (l : list block) (e : Z) : Prop :=
  match l with
  | [] => True
  | b :: l' => h !! b.1 = Some (nxt l' e, b.2) /\ seg h l' e
  end.

Definition cyc (h : gmap Z (Z * Z)) (l : list block) : Prop :=
  match l with [] => False | b :: _ => seg h l b.1 end.

Lemma nxt_app l1 l2 e : nxt (l1 ++ l2) e = nxt l1 (nxt l2 e).
Proof. by destruct l1. Qed.
Lemma seg_app h l1 l2 e : seg h (l1 ++ l2) e <-> seg h l1 (nxt l2 e) /\ seg h l2 e.
Proof. induction l1 as [|b l1 IH]; cbn; [tauto|]. rewrite IH, nxt_app. tauto. Qed.
Lemma seg_insert h l e k v : k ∉ l.*1 -> seg (<[k := v]> h) l e <-> seg h l e.
Proof.
  induction l as [|b l IH]; cbn; [done|]. rewrite not_elem_of_cons. intros [H1 H2].
  by rewrite lookup_insert_ne, IH by done.
Qed.

Lemma cyc_rotate1 h b l : cyc h (b :: l) <-> cyc h (l ++ [b]).
Proof.
  destruct l as [|c l]; [done|]. cbn [cyc app]. change (c :: l ++ [b]) with ((c :: l) ++ [b]).
  rewrite seg_app. cbn. tauto.
Qed.
Lemma cyc_rotate h l1 l2 : cyc h (l1 ++ l2) <-> cyc h (l2 ++ l1).
Proof.
  revert l2. induction l1 as [|b l1 IH]; intros l2; [by rewrite app_nil_r|].
  cbn [app]. rewrite cyc_rotate1, <- app_assoc, IH, <- app_assoc. done.
Qed.

Lemma seg_lookup h u b v e : seg h (u ++ b :: v) e -> h !! b.1 = Some (nxt v e, b.2).
Proof. rewrite seg_app. cbn. tauto. Qed.

Lemma gap_nodup l : Forall (fun b => 0 <= b.2) l -> allp gap l -> NoDup l.*1.
Proof.
  induction l as [|b l IH]; intros Hn Ha; cbn; [constructor|]. destruct Ha as [Hb Ha].
  apply Forall_cons in Hn as [Hb0 Hn]. constructor; [|by apply IH].
  intros (c & E & Hc)%list_elem_of_fmap. rewrite Forall_forall in Hb. specialize (Hb c Hc). blocks.
Qed.

Lemma seg_size h l e : NoDup l.*1 -> seg h l e -> (length l <= size h)%nat.
Proof.
  intros Hnd Hs. rewrite <- size_dom. rewrite <- (length_fmap fst l).
  rewrite <- (size_list_to_set (C := gset Z) l.*1 Hnd). apply subseteq_size.
  intros x (b & -> & Hb)%elem_of_list_to_set%list_elem_of_fmap.
  apply list_elem_of_split in Hb as (u & v & ->). apply elem_of_dom. by rewrite (seg_lookup _ _ _ _ _ Hs).
Qed.

Lemma head_first l1 (p : block) l2 b l' : l1 ++ p :: l2 = b :: l' -> b ∈ l1 ++ [p].
Proof. destruct l1; cbn; intros E; injection E as -> _; set_solver. Qed.

Lemma head_split l1 (p : block) l2 b l' : l1 ++ p :: l2 = b :: l' -> exists v, l1 ++ [p] = b :: v.
Proof. destruct l1; cbn; intros E; injection E as -> _; eauto. Qed.

(** ** What [free] does to the lists *)

Definition merge_up (b : block) (l2 : list block) : block * list block :=
  match l2 with
  | q :: l2' => if bend b =? q.1 then ((b.1, b.2 + q.2), l2') else (b, l2)
  | [] => (b, [])
  end.
Definition merge_down (l1 : list block) (p b : block) (l2 : list block) : list block :=
  if bend p =? b.1 then l1 ++ (p.1, p.2 + b.2) :: l2 else l1 ++ p :: b :: l2.
Definition put_back (l1 : list block) (p b : block) (l2 : list block) : list block :=
  let '(b', l2') := merge_up b l2 in merge_down l1 p b' l2'.

Lemma split_at bp : forall fl b0,
  allp gap (b0 :: fl) -> Forall (fun b => 0 <= b.2) (b0 :: fl) -> b0.1 < bp -> bp ∉ fl.*1 ->
  exists l1 p l2, b0 :: fl = l1 ++ p :: l2 /\ Forall (fun b => b.1 < bp) (l1 ++ [p]) /\ Forall (fun b => bp < b.1) l2.
Proof.
  induction fl as [|c fl IH]; intros b0 Ha Hp Hb Hn; [exists [], b0, []; by repeat constructor|].
  cbn in Hn. apply not_elem_of_cons in Hn as [Hc Hn]. destruct (Z.lt_ge_cases c.1 bp) as [Hlt|Hge].
  - destruct Ha as [_ Ha]. apply Forall_cons in Hp as [_ Hp].
    destruct (IH c Ha Hp Hlt Hn) as (l1 & p & l2 & -> & H1 & H2). exists (b0 :: l1), p, l2.
    split_and!; [done|by constructor|done].
  - exists [], b0, (c :: fl). split_and!; [done|by repeat constructor|]. destruct Ha as [_ [Ha _]].
    apply Forall_cons in Hp as [_ Hp]. apply Forall_cons in Hp as [Hc0 _].
    constructor; [lia|]. eapply Forall_impl; [exact Ha|]. intros x Hx. blocks.
Qed.

(** Order. *)
Lemma asc_put l1 p b l2 :
  allp gap (l1 ++ p :: l2) -> Forall (fun b => 0 <= b.2) (l1 ++ p :: l2) ->
  p.1 < b.1 -> 0 < b.2 -> bend p <= b.1 -> Forall (fun y => b.1 < y.1 /\ bend b <= y.1) l2 ->
  allp gap (put_back l1 p b l2).
Proof.
  intros Ha Hpos Hpb Hb Hend Hl2. apply allp_app in Ha as (Ha1 & [Hp Ha2] & Hx).
  assert (Hup : let '(b', l2') := merge_up b l2 in
            allp gap l2' /\ Forall (gap b') l2' /\ b'.1 = b.1 /\ bend b <= bend b' /\ Forall (gap p) l2' /\
            Forall (fun x => Forall (gap x) l2') l1).
  { assert (Hx' : Forall (fun x => Forall (gap x) l2) l1).
    { eapply Forall_impl; [exact Hx|]. intros x H. by apply Forall_cons in H as [_ H]. }
    unfold merge_up. destruct l2 as [|q l2]; [by split_and!|].
    destruct Ha2 as [Hq Ha2]. apply Forall_cons in Hp as [Hpq Hp]. apply Forall_cons in Hl2 as [Hbq Hl2].
    apply Forall_app in Hpos as [_ Hpos]. apply Forall_cons in Hpos as [_ Hpos]. apply Forall_cons in Hpos as [Hq0 Hpos].
    destruct (Z.eqb_spec (bend b) q.1) as [E|E]; cbn.
    - split_and!; try done; [|blocks|].
      + eapply Forall_impl; [exact Hq|]. intros y Hy. blocks.
      + eapply Forall_impl; [exact Hx'|]. intros x H. by apply Forall_cons in H as [_ H].
    - split_and!; try done; [|by constructor].
      constructor; [blocks|]. eapply Forall_impl; [exact Hq|]. intros y Hy. blocks. }
  unfold put_back. destruct (merge_up b l2) as [b' l2']. destruct Hup as (H1 & H2 & H3 & H4 & H5 & H6).
  assert (Hxp : Forall (fun x => gap x p) l1).
  { eapply Forall_impl; [exact Hx|]. intros x H. by apply Forall_cons in H as [H _]. }
  unfold merge_down. destruct (Z.eqb_spec (bend p) b'.1) as [E|E].
  - apply allp_app. split_and!; [done|split; [|done]|].
    + eapply Forall_impl; [exact H2|]. intros y Hy. blocks.
    + rewrite Forall_forall in Hxp, H6 |- *. intros x Hxl. constructor; [by apply Hxp|by apply H6].
  - apply allp_app. split_and!; [done|split; [constructor; [blocks|done]|by split]|].
    rewrite Forall_forall in Hxp, H6 |- *. intros x Hxl. specialize (Hxp x Hxl).
    constructor; [done|]. constructor; [blocks|by apply H6].
Qed.

(** Disjointness. *)
Definition spaced (a : Z) (c : block) : Prop := 0 < c.2 \/ c.1 < a.
Lemma disj_merge a m n rest :
  0 < m -> 0 < n -> Forall (spaced a) rest ->
  allp disj ((a, m) :: (a + 8 * m, n) :: rest) -> allp disj ((a, m + n) :: rest).
Proof.
  intros Hm Hn Hs [H1 [H2 H3]]. split; [|done]. apply Forall_cons in H1 as [_ H1].
  rewrite Forall_forall in Hs, H1, H2 |- *. intros c Hc. specialize (Hs c Hc). specialize (H1 c Hc). specialize (H2 c Hc).
  unfold spaced in Hs. blocks.
Qed.

Lemma disj_put l1 p b l2 al :
  allp disj ((l1 ++ p :: l2) ++ b :: al) -> 0 < b.2 -> p.1 < b.1 -> (0 < p.2 \/ bend p < b.1) ->
  Forall (spaced b.1) (l1 ++ l2 ++ al) -> Forall (spaced p.1) (l1 ++ l2 ++ al) -> Forall (fun q => 0 < q.2) l2 ->
  allp disj (put_back l1 p b l2 ++ al).
Proof.
  intros Hd Hb Hpb Hp Hsb Hsp Hq.
  assert (Hd' : allp disj (p :: b :: l1 ++ l2 ++ al)).
  { eapply (allp_perm disj); [|exact Hd]. solve_Permutation. }
  assert (Hup : let '(b', l2') := merge_up b l2 in
            allp disj (p :: b' :: l1 ++ l2' ++ al) /\ b'.1 = b.1 /\ 0 < b'.2 /\ Forall (spaced p.1) (l1 ++ l2' ++ al)).
  { unfold merge_up. destruct l2 as [|q l2]; [done|]. destruct (Z.eqb_spec (bend b) q.1) as [E|E]; [|done].
    apply Forall_cons in Hq as [Hq0 Hq]. destruct b as [a m], q as [a' n]. cbn [fst snd] in *. unfold bend in E; cbn in E.
    subst a'. split_and!; [|done|lia|].
    - assert (H : allp disj ((a, m + n) :: p :: l1 ++ l2 ++ al)).
      { apply disj_merge; [done|done| |eapply (allp_perm disj); [|exact Hd']; solve_Permutation].
        constructor; [unfold spaced; cbn; lia|]. rewrite !Forall_app, Forall_cons in *. tauto. }
      eapply (allp_perm disj); [|exact H]. apply perm_swap.
    - rewrite !Forall_app, Forall_cons in *. tauto. }
  unfold put_back. destruct (merge_up b l2) as [b' l2']. destruct Hup as (H1 & H2 & H3 & H4).
  unfold merge_down. destruct (Z.eqb_spec (bend p) b'.1) as [E|E].
  - destruct p as [a m], b' as [a' n]. cbn [fst snd] in *. unfold bend in *. cbn [fst snd] in *. rewrite <- E in H1.
    eapply (allp_perm disj); [|apply (disj_merge a m n (l1 ++ l2' ++ al))]; [solve_Permutation|lia|lia|done|done].
  - eapply (allp_perm disj); [|exact H1]. solve_Permutation.
Qed.
Section Proof.
Context (base : Z).

Definition ok_block (top : Z) (b : block) : Prop := base + 8 <= b.1 /\ 1 <= b.2 /\ bend b <= top.

Record uinv (s : umstate) (l al : list block) : Prop := {
  ui_seg : seg (hdrs s) ((base, 0) :: l) base;
  ui_asc : allp gap ((base, 0) :: l);
  ui_ok : Forall (ok_block (brk s)) (l ++ al);
  ui_disj : allp disj (l ++ al);
  ui_freep : freep s ∈ ((base, 0) :: l).*1;
  ui_al : Forall (fun b => exists q, hdrs s !! b.1 = Some (q, b.2)) al;
  ui_top : 0 < base /\ base + 8 <= brk s <= 2147483648
}.

Lemma uinv_perm s l al al' : al ≡ₚ al' -> uinv s l al -> uinv s l al'.
Proof.
  intros Hp [H1 H2 H3 H4 H5 H6 H7]. split; try done; [by rewrite <- Hp| |by rewrite <- Hp].
  by apply (allp_perm _ (l ++ al)); [rewrite Hp|].
Qed.

Lemma uinv_nodup s l al : uinv s l al -> NoDup (((base, 0) :: l).*1).
Proof.
  intros Hu. apply gap_nodup; [|apply (ui_asc _ _ _ Hu)]. pose proof (ui_ok _ _ _ Hu) as Ho.
  apply Forall_app in Ho as [Ho _]. constructor; [done|]. eapply Forall_impl; [exact Ho|].
  intros b (_ & Hb & _). lia.
Qed.

Lemma hptr_of s b v e u : seg (hdrs s) (u ++ b :: v) e -> hptr s b.1 = nxt v e /\ hsize s b.1 = b.2.
Proof. intros H%seg_lookup. unfold hptr, hsize. by rewrite H. Qed.

(** *** The search of [free] *)

Section Search.
Context (s : umstate) (bp : Z) (l1 l2 : list block) (p : block).
Hypothesis Hseg : seg (hdrs s) (l1 ++ p :: l2) base.
Hypothesis Hbase : exists n l', l1 ++ p :: l2 = (base, n) :: l'.
Hypothesis Hasc : allp gap (l1 ++ p :: l2).
Hypothesis Hpos : Forall (fun b => 0 <= b.2) (l1 ++ p :: l2).
Hypothesis Hlow : Forall (fun b => b.1 < bp) (l1 ++ [p]).
Hypothesis Hhigh : Forall (fun b => bp < b.1) l2.

Lemma next_above u x y v : l1 ++ p :: l2 = u ++ x :: y :: v -> x.1 < y.1.
Proof using Hasc Hpos.
  intros E. rewrite E in Hasc, Hpos. apply allp_app in Hasc as (_ & [H _] & _).
  apply Forall_app in Hpos as [_ Hp]. apply Forall_cons in H as [H _]. apply Forall_cons in Hp as [Hp _]. blocks.
Qed.

Lemma base_low : base < bp.
Proof using Hbase Hlow.
  destruct Hbase as (n & l' & E). rewrite Forall_forall in Hlow. exact (Hlow _ (head_first _ _ _ _ _ E)).
Qed.

Lemma search_low : forall v u x fuel,
  l1 ++ [p] = u ++ x :: v -> (length v < fuel)%nat -> free_search fuel s bp x.1 = Some p.1.
Proof using All.
  induction v as [|y v IH]; intros u x [|fuel] E Hf; cbn [length] in Hf; try lia; cbn [free_search].
  - apply app_inj_tail in E as [<- <-]. destruct (hptr_of s p l2 base l1 Hseg) as [-> _].
    pose proof base_low. apply Forall_app in Hlow as [_ Hp]. apply Forall_cons in Hp as [Hp _].
    destruct (Z.ltb_spec p.1 bp); [|lia]. destruct l2 as [|q l2']; cbn [nxt].
    + destruct (bp <? base); [done|]. cbn [andb orb]. destruct (Z.leb_spec base p.1) as [|Hb]; [done|].
      exfalso. destruct Hbase as (n & l' & E). destruct l1 as [|b l1']; cbn in E; [injection E as -> _; cbn in Hb; lia|].
      injection E as -> _. apply allp_app in Hasc as (_ & _ & Hg). apply Forall_cons in Hg as [Hg _].
      apply Forall_cons in Hg as [Hg _]. apply Forall_cons in Hpos as [Hp0 _]. blocks.
    + apply Forall_cons in Hhigh as [Hq _]. by destruct (Z.ltb_spec bp q.1); [|lia].
  - assert (E' : l1 ++ p :: l2 = u ++ x :: y :: v ++ l2).
    { change (p :: l2) with ([p] ++ l2). rewrite app_assoc, E. by rewrite <- app_assoc. }
    rewrite E' in Hseg. destruct (hptr_of s x (y :: v ++ l2) base u Hseg) as [-> _]. cbn [nxt].
    pose proof (next_above _ _ _ _ E'). rewrite E in Hlow. apply Forall_app in Hlow as [_ Hl].
    apply Forall_cons in Hl as [Hx Hl]. apply Forall_cons in Hl as [Hy _].
    destruct (Z.ltb_spec bp y.1); [lia|]. rewrite andb_false_r. destruct (Z.leb_spec y.1 x.1); [lia|]. cbn [andb].
    apply (IH (u ++ [x]) y fuel); [by rewrite <- app_assoc|lia].
Qed.

Lemma search_high : forall v u x fuel,
  l2 = u ++ x :: v -> (length v + length (l1 ++ [p]) < fuel)%nat -> free_search fuel s bp x.1 = Some p.1.
Proof using All.
  induction v as [|y v IH]; intros u x [|fuel] E Hf; cbn [length] in Hf; try lia; cbn [free_search].
  - assert (Hx : bp < x.1) by (assert (H := Hhigh); rewrite E in H; apply Forall_app in H as [_ H]; by apply Forall_cons in H as [H _]).
    assert (E' : l1 ++ p :: l2 = (l1 ++ p :: u) ++ x :: []) by (rewrite E, <- app_assoc; done).
    assert (Hs := Hseg). rewrite E' in Hs. destruct (hptr_of s x [] base _ Hs) as [-> _]. cbn [nxt]. pose proof base_low.
    destruct (Z.ltb_spec x.1 bp); [lia|]. cbn [andb]. destruct (Z.ltb_spec bp base); [lia|]. rewrite andb_false_r.
    destruct Hbase as (n & l' & Eb). destruct (head_split _ _ _ _ _ Eb) as [w Ew].
    apply (search_low w [] (base, n) fuel); [done|]. rewrite Ew in Hf. cbn in Hf. lia.
  - assert (E' : l1 ++ p :: l2 = (l1 ++ p :: u) ++ x :: y :: v) by (rewrite E, <- app_assoc; done).
    assert (Hx : bp < x.1) by (assert (H := Hhigh); rewrite E in H; apply Forall_app in H as [_ H]; by apply Forall_cons in H as [H _]).
    pose proof (next_above _ _ _ _ E'). rewrite E' in Hseg. destruct (hptr_of s x (y :: v) base _ Hseg) as [-> _]. cbn [nxt].
    destruct (Z.ltb_spec x.1 bp); [lia|]. cbn [andb]. destruct (Z.leb_spec y.1 x.1); [lia|]. cbn [andb].
    apply (IH (u ++ [x]) y fuel); [by rewrite E, <- app_assoc|lia].
Qed.

Lemma search_found x fuel :
  x ∈ (l1 ++ p :: l2).*1 -> (length (l1 ++ p :: l2) < fuel)%nat -> free_search fuel s bp x = Some p.1.
Proof using All.
  intros (b & -> & Hb)%list_elem_of_fmap Hf. rewrite length_app in Hf. cbn [length] in Hf.
  change (p :: l2) with ([p] ++ l2) in Hb. rewrite app_assoc in Hb.
  apply elem_of_app in Hb as [Hb|Hb]; apply list_elem_of_split in Hb as (u & v & E).
  - apply (search_low v u); [done|]. assert (length (l1 ++ [p]) = length (u ++ b :: v)) by (by rewrite E).
    rewrite !length_app in *. cbn [length] in *. lia.
  - apply (search_high v u); [done|]. rewrite E, !length_app in *. cbn [length] in *. lia.
Qed.
End Search.


(** *** What [free] does to the headers *)

Definition upd (s : umstate) (p v n : Z) : umstate := mk_um (<[p := (v, n)]> (hdrs s)) (freep s) (brk s).

Lemma set_both s p v n : set_hptr (set_hsize s p n) p v = upd s p v n.
Proof.
  unfold set_hptr, set_hsize, upd, hsize. cbn. by rewrite lookup_insert_eq, insert_insert_eq.
Qed.
Lemma set_hptr_upd s p v : set_hptr s p v = upd s p v (hsize s p).
Proof. done. Qed.
Lemma upd_same s p v n : hptr (upd s p v n) p = v /\ hsize (upd s p v n) p = n.
Proof. unfold hptr, hsize, upd. cbn. by rewrite lookup_insert_eq. Qed.
Lemma upd_other s p v n k : k <> p -> hptr (upd s p v n) k = hptr s k /\ hsize (upd s p v n) k = hsize s k.
Proof. intros H. unfold hptr, hsize, upd. cbn. by rewrite lookup_insert_ne. Qed.
Lemma set_hsize_ptr s p n k : hptr (set_hsize s p n) k = hptr s k.
Proof.
  unfold hptr at 1, set_hsize. cbn. destruct (decide (k = p)) as [->|]; [by rewrite lookup_insert_eq|].
  by rewrite lookup_insert_ne.
Qed.

Lemma free_headers s bp bn l1 p l2 :
  seg (hdrs s) (l1 ++ p :: l2) base -> NoDup ((l1 ++ p :: l2).*1) ->
  hsize s bp = bn -> bp ∉ (l1 ++ p :: l2).*1 ->
  Forall (fun b => 0 <= b.1 /\ 0 <= b.2 /\ bend b <= 2147483648) ((bp, bn) :: l1 ++ p :: l2) ->
  base < bp -> 0 < bn ->
  free_search (fuel_of s) s bp (freep s) = Some p.1 ->
  exists s', free s (bp + 8) = Some s' /\ seg (hdrs s') (put_back l1 p (bp, bn) l2) base /\
    freep s' = p.1 /\ brk s' = brk s /\
    (forall k, k ∉ (l1 ++ p :: l2).*1 -> k <> bp -> hdrs s' !! k = hdrs s !! k).
Proof.
  intros Hseg Hnd Hbn Hbp Hr Hbase Hbn0 Hs.
  apply Forall_cons in Hr as [Hrb Hr]. cbn in Hrb. unfold bend in Hrb. cbn in Hrb.
  assert (Hrp : 0 <= p.1 /\ 0 <= p.2 /\ bend p <= 2147483648).
  { apply Forall_app in Hr as [_ Hr]. by apply Forall_cons in Hr as [Hr _]. }
  destruct (hptr_of s p l2 base l1 Hseg) as [Ep1 Ep2].
  rewrite fmap_app in Hbp. cbn in Hbp. rewrite elem_of_app, elem_of_cons in Hbp.
  assert (Hpb : p.1 <> bp) by (intros E; apply Hbp; auto).
  (* the upper merge *)
  assert (Hup : let '(b', l2') := merge_up (bp, bn) l2 in
    free_up s bp p.1 = upd s bp (nxt l2' base) b'.2 /\
    b'.1 = bp /\ 0 <= b'.2 /\ bend b' <= 2147483648 /\ seg (hdrs s) l2' base /\ (forall x, x ∈ l2'.*1 -> x ∈ l2.*1)).
  { unfold free_up. rewrite Ep1, Hbn. unfold hplus, sizeof_Header. rewrite u32_small by lia.
    apply seg_app in Hseg as [_ [_ Hl2]]. unfold merge_up, bend. destruct l2 as [|q l2]; cbn [nxt fst snd].
    - destruct (Z.eqb_spec (bp + 8 * bn) base); [lia|]. rewrite set_hptr_upd, Hbn. cbn. split_and!; try done; lia.
    - destruct (Z.eqb_spec (bp + 8 * bn) q.1) as [E|E].
      + destruct Hl2 as [Hq Hl2]. assert (Hrq : 0 <= q.2 /\ bend q <= 2147483648).
        { apply Forall_app in Hr as [_ Hr]. rewrite !Forall_cons in Hr. tauto. }
        unfold bend in Hrq. cbv zeta. rewrite !set_hsize_ptr, Ep1, set_both. cbn [nxt].
        assert (Eq1 : hptr s q.1 = nxt l2 base) by (unfold hptr; by rewrite Hq).
        assert (Eq2 : hsize s q.1 = q.2) by (unfold hsize; by rewrite Hq).
        rewrite Eq1, Eq2, u32_small by lia.
        cbn. split_and!; try done; try lia. intros x Hx. by right.
      + rewrite set_hptr_upd, Hbn. cbn. split_and!; try done; try lia; apply Hl2. }
  unfold free. unfold sizeof_Header. replace (bp + 8 - 8) with bp by lia. rewrite u32_small by lia. rewrite Hs.
  destruct (merge_up (bp, bn) l2) as [b' l2'] eqn:Em. destruct Hup as (-> & Hb1 & Hb2 & Hb3 & Hsl2 & Hsub).
  unfold put_back. rewrite Em. set (s1 := upd s bp (nxt l2' base) b'.2).
  destruct (upd_same s bp (nxt l2' base) b'.2) as [Es1 Es2]. fold s1 in Es1, Es2.
  destruct (upd_other s bp (nxt l2' base) b'.2 p.1 Hpb) as [Es3 Es4]. fold s1 in Es3, Es4.
  assert (Edown : free_down s1 bp p.1 = if p.1 + 8 * p.2 =? bp then upd s1 p.1 (nxt l2' base) (p.2 + b'.2) else upd s1 p.1 bp p.2).
  { unfold free_down. rewrite Es4, Ep2, Es2. unfold hplus, sizeof_Header. unfold bend in *. rewrite u32_small by lia.
    destruct (Z.eqb_spec (p.1 + 8 * p.2) bp); [|by rewrite set_hptr_upd, Es4, Ep2].
    cbv zeta. by rewrite set_hsize_ptr, set_both, Es1, u32_small by lia. }
  apply seg_app in Hseg as [Hl1 _]. rewrite fmap_app in Hnd. apply NoDup_app in Hnd as (Hnd1 & Hnd2 & Hnd3).
  cbn in Hnd3. apply NoDup_cons in Hnd3 as [Hp2 Hnd3].
  assert (Hs1 : forall l e, (forall x, x ∈ l.*1 -> x <> bp /\ x <> p.1) -> forall v n,
    seg (hdrs s) l e -> seg (hdrs (upd s1 p.1 v n)) l e).
  { intros l e Hl v n H. cbn. rewrite !seg_insert; [done|intros Hx; by destruct (Hl _ Hx)..]. }
  assert (Hd1 : forall x, x ∈ l1.*1 -> x <> bp /\ x <> p.1).
  { intros x Hx. split; [intros ->; tauto|]. intros ->. apply (Hnd2 _ Hx). left. }
  assert (Hd2 : forall x, x ∈ l2'.*1 -> x <> bp /\ x <> p.1).
  { intros x Hx. apply Hsub in Hx. split; [intros ->; tauto|]. intros ->. done. }
  unfold merge_down, bend. destruct (Z.eqb_spec (p.1 + 8 * p.2) b'.1) as [E|E].
  - rewrite Hb1 in E. destruct (Z.eqb_spec (p.1 + 8 * p.2) bp); [|done]. eexists. split; [reflexivity|].
    rewrite Edown. cbn [freep set_freep brk hdrs]. split_and!; try done.
    + apply seg_app. split; [by apply (Hs1 l1)|]. split; [cbn; by rewrite lookup_insert_eq|by apply (Hs1 l2')].
    + intros k Hk Hkb. rewrite fmap_app, not_elem_of_app in Hk. cbn in Hk. rewrite not_elem_of_cons in Hk.
      unfold s1, upd. cbn [hdrs]. rewrite !lookup_insert_ne; [done|congruence|intros Ek; subst k; tauto].
  - rewrite Hb1 in E. destruct (Z.eqb_spec (p.1 + 8 * p.2) bp); [done|]. eexists. split; [reflexivity|].
    rewrite Edown. cbn [freep set_freep brk hdrs]. split_and!; try done.
    + apply seg_app. cbn [nxt]. split; [by apply (Hs1 l1)|]. cbn [seg]. split_and!.
      * unfold upd. cbn [nxt hdrs]. rewrite Hb1. by rewrite lookup_insert_eq.
      * unfold s1, upd. cbn [hdrs]. rewrite Hb1. rewrite lookup_insert_ne by done. by rewrite lookup_insert_eq.
      * by apply (Hs1 l2').
    + intros k Hk Hkb. rewrite fmap_app, not_elem_of_app in Hk. cbn in Hk. rewrite not_elem_of_cons in Hk.
      unfold s1, upd. cbn [hdrs]. rewrite !lookup_insert_ne; [done|congruence|intros Ek; subst k; tauto].
Qed.

(** *** [free] *)

Definition okb (top : Z) (b : block) : Prop := b = (base, 0) \/ ok_block top b.

Lemma ok_put top l1 p b l2 :
  Forall (okb top) (l1 ++ p :: l2) -> ok_block top b -> Forall (ok_block top) l2 ->
  Forall (okb top) (put_back l1 p b l2).
Proof.
  intros Hok Hb Hl2. apply Forall_app in Hok as [H1 H2]. apply Forall_cons in H2 as [Hp H2].
  assert (Hup : let '(b', l2') := merge_up b l2 in ok_block top b' /\ b'.1 = b.1 /\ Forall (okb top) l2').
  { unfold merge_up. destruct l2 as [|q l2]; [done|]. destruct (Z.eqb_spec (bend b) q.1); [|done].
    apply Forall_cons in H2 as [_ H2]. apply Forall_cons in Hl2 as [Hq _]. unfold ok_block in *. cbn. split_and!; try done; blocks. }
  unfold put_back. destruct (merge_up b l2) as [b' l2']. destruct Hup as (Hb' & Eb & Hl2').
  unfold merge_down. destruct (Z.eqb_spec (bend p) b'.1) as [E|E]; apply Forall_app; (split; [done|]).
  - constructor; [|done]. right. destruct Hp as [->|Hp]; unfold ok_block in *; blocks.
  - constructor; [done|]. constructor; [by right|done].
Qed.

Lemma cover_put l1 p b l2 x :
  0 <= b.2 -> 0 <= p.2 -> Forall (fun q => 0 <= q.2) l2 ->
  Exists (inside x) (put_back l1 p b l2) <-> Exists (inside x) (l1 ++ p :: l2) \/ inside x b.
Proof.
  intros Hb Hp Hl2.
  assert (Hup : let '(b', l2') := merge_up b l2 in
    (inside x b' \/ Exists (inside x) l2' <-> inside x b \/ Exists (inside x) l2) /\ 0 <= b'.2).
  { unfold merge_up. destruct l2 as [|q l2]; [done|]. destruct (Z.eqb_spec (bend b) q.1); [|done].
    apply Forall_cons in Hl2 as [Hq _]. split; [|cbn; lia]. rewrite Exists_cons.
    assert (inside x (b.1, b.2 + q.2) <-> inside x b \/ inside x q) by blocks. tauto. }
  unfold put_back. destruct (merge_up b l2) as [b' l2']. destruct Hup as [Hup Hb'].
  unfold merge_down. destruct (Z.eqb_spec (bend p) b'.1) as [E|E]; rewrite !Exists_app, !Exists_cons.
  - assert (inside x (p.1, p.2 + b'.2) <-> inside x p \/ inside x b') by blocks. tauto.
  - tauto.
Qed.

(** Some block is at least as large as the one put back. *)
Lemma large_put l1 p b l2 :
  0 <= p.2 -> Forall (fun q => 0 <= q.2) l2 -> Exists (fun c => b.2 <= c.2) (put_back l1 p b l2).
Proof.
  intros Hp Hl2. assert (Hup : b.2 <= (merge_up b l2).1.2).
  { unfold merge_up. destruct l2 as [|q l2]; [done|]. apply Forall_cons in Hl2 as [Hq _].
    destruct (bend b =? q.1); cbn; lia. }
  unfold put_back. destruct (merge_up b l2) as [b' l2']. cbn in Hup. unfold merge_down.
  destruct (bend p =? b'.1); apply Exists_app; right.
  - left. cbn. lia.
  - right. by left.
Qed.

Lemma length_put l1 p b l2 : (length (put_back l1 p b l2) <= S (length (l1 ++ p :: l2)))%nat.
Proof.
  unfold put_back, merge_up. destruct l2 as [|q l2]; [|destruct (bend b =? q.1)]; unfold merge_down;
    (case_match; rewrite !length_app; cbn; lia).
Qed.

Lemma head_put l1 p b l2 l :
  l1 ++ p :: l2 = (base, 0) :: l -> base < b.1 -> exists l', put_back l1 p b l2 = (base, 0) :: l'.
Proof.
  intros E Hb. assert (Hb' : (merge_up b l2).1.1 = b.1) by (unfold merge_up; repeat case_match; done).
  unfold put_back. destruct (merge_up b l2) as [b' l2']. cbn in Hb'. unfold merge_down.
  destruct l1 as [|c l1]; cbn in E; injection E as -> _.
  - destruct (Z.eqb_spec (bend (base, 0)) b'.1) as [E|E]; [unfold bend in E; cbn in E; lia|]. by eexists.
  - destruct (bend p =? b'.1); by eexists.
Qed.

Lemma uinv_blocks s l al : uinv s l al -> Forall (okb (brk s)) ((base, 0) :: l) /\ Forall (ok_block (brk s)) al.
Proof.
  intros Hu. pose proof (ui_ok _ _ _ Hu) as H. apply Forall_app in H as [H1 H2]. split; [|done].
  constructor; [by left|]. eapply Forall_impl; [exact H1|]. by right.
Qed.

(** Two disjoint blocks of positive size start at different places. *)
Lemma starts_differ s l al b c :
  uinv s l (b :: al) -> c ∈ ((base, 0) :: l) \/ c ∈ al -> c.1 <> b.1.
Proof.
  intros Hu Hc. pose proof (ui_disj _ _ _ Hu) as Hd. pose proof (ui_ok _ _ _ Hu) as Ho.
  assert (Hp : allp disj (b :: l ++ al)) by (eapply (allp_perm disj); [|exact Hd]; solve_Permutation).
  destruct Hp as [Hp _]. rewrite Forall_forall in Hp, Ho.
  destruct (Ho b ltac:(set_solver)) as (Hb1 & Hb2 & _).
  assert (c = (base, 0) \/ c ∈ l ++ al) as [->|Hin] by set_solver; [cbn; lia|].
  destruct (Ho c ltac:(set_solver)) as (_ & Hc2 & _). specialize (Hp c Hin). blocks.
Qed.

Lemma okb_pos top b : okb top b -> 0 <= b.2.
Proof. intros [->|(_ & H & _)]; cbn; lia. Qed.

(** The blocks around an allocated one. *)
Lemma around s l al b :
  uinv s l (b :: al) ->
  exists l1 p l2, (base, 0) :: l = l1 ++ p :: l2 /\ Forall (fun c => c.1 < b.1) (l1 ++ [p]) /\
    bend p <= b.1 /\ p.1 < b.1 /\ Forall (fun c => b.1 < c.1 /\ bend b <= c.1) l2 /\ Forall (ok_block (brk s)) l2.
Proof.
  intros Hu. destruct (uinv_blocks _ _ _ Hu) as [Hob Hoa]. apply Forall_cons in Hoa as [(Hb1 & Hb2 & Hb3) _].
  assert (Hpos : Forall (fun b => 0 <= b.2) ((base, 0) :: l)) by (eapply Forall_impl; [exact Hob|apply okb_pos]).
  destruct (split_at b.1 l (base, 0) (ui_asc _ _ _ Hu) Hpos ltac:(cbn; lia)) as (l1 & p & l2 & E & Hlow & Hhigh).
  { intros (c & Ec & Hc)%list_elem_of_fmap. apply (starts_differ _ _ _ _ c Hu); [left; by right|done]. }
  assert (Hd : forall c, c ∈ (base, 0) :: l -> disj b c /\ (c = (base, 0) \/ ok_block (brk s) c)).
  { pose proof (ui_disj _ _ _ Hu) as Hd.
    assert (Hp : allp disj (b :: l ++ al)) by (eapply (allp_perm disj); [|exact Hd]; solve_Permutation).
    destruct Hp as [Hp _]. rewrite Forall_forall in Hp, Hob. intros c Hc. split; [|by apply Hob].
    apply elem_of_cons in Hc as [->|Hc]; [blocks|apply Hp, elem_of_app; by left]. }
  rewrite E in Hd, Hpos. exists l1, p, l2. rewrite Forall_forall in Hlow, Hhigh, Hpos.
  assert (Hin : p ∈ l1 ++ p :: l2) by (apply elem_of_app; right; left).
  assert (Hpl : p.1 < b.1) by (apply Hlow, elem_of_app; right; left).
  split_and!; [done|by apply Forall_forall|destruct (Hd p Hin) as [Hdp _]; blocks|done|..]; apply Forall_forall; intros c Hc;
    pose proof (Hhigh c Hc) as Hbc; destruct (Hd c) as [Hdc Hoc]; try (apply elem_of_app; right; by right).
  - specialize (Hpos c ltac:(apply elem_of_app; right; by right)). blocks.
  - destruct Hoc as [->|]; [cbn in Hbc; lia|done].
Qed.

(** Putting a block back keeps the lists well formed. *)
Lemma uinv_put s l al b l1 p l2 :
  uinv s l (b :: al) -> (base, 0) :: l = l1 ++ p :: l2 -> bend p <= b.1 -> p.1 < b.1 ->
  Forall (fun c => b.1 < c.1 /\ bend b <= c.1) l2 -> Forall (ok_block (brk s)) l2 ->
  exists l', put_back l1 p b l2 = (base, 0) :: l' /\ allp gap ((base, 0) :: l') /\
    Forall (ok_block (brk s)) (l' ++ al) /\ allp disj (l' ++ al) /\
    (forall x, Exists (inside x) l' <-> Exists (inside x) l \/ inside x b) /\ Exists (fun c => b.2 <= c.2) l' /\
    (length l' <= S (length l))%nat.
Proof.
  intros Hu E Hend Hpb Hl2 Hok2. destruct (uinv_blocks _ _ _ Hu) as [Hob Hoa].
  apply Forall_cons in Hoa as [Hb Hoa]. pose proof Hb as (Hb1 & Hb2 & _).
  assert (Hpos : Forall (fun b => 0 <= b.2) ((base, 0) :: l)) by (eapply Forall_impl; [exact Hob|apply okb_pos]).
  destruct (head_put l1 p b l2 l) as [l' El']; [done|lia|]. exists l'.
  assert (Hasc : allp gap ((base, 0) :: l')).
  { rewrite <- El'. pose proof (ui_asc _ _ _ Hu) as Ha. rewrite E in Ha, Hpos. by apply asc_put; [..|lia| |]. }
  assert (Hp0 : 0 <= p.2 /\ Forall (fun q => 0 <= q.2) l2).
  { rewrite E in Hpos. apply Forall_app in Hpos as [_ H]. by apply Forall_cons in H. }
  assert (Hp1 : okb (brk s) p) by (rewrite E in Hob; apply Forall_app in Hob as [_ H]; by apply Forall_cons in H as [H _]).
  assert (Hsp : forall a, base < a -> Forall (spaced a) (l1 ++ l2 ++ al)).
  { intros a Ha. rewrite E in Hob. apply Forall_app in Hob as [H1 H2]. apply Forall_cons in H2 as [_ H2].
    rewrite !Forall_app. split_and!; (eapply Forall_impl; [eassumption|]); intros c; unfold spaced.
    1,2: intros [->|(_ & Hc & _)]; cbn; lia. intros (_ & Hc & _). lia. }
  assert (Hd : allp disj ((base, 0) :: l' ++ al)).
  { rewrite app_comm_cons, <- El'. apply disj_put; [|lia|done| |apply Hsp; lia| |].
    - rewrite <- E. split; [|apply (ui_disj _ _ _ Hu)]. eapply Forall_impl; [apply (ui_ok _ _ _ Hu)|].
      intros c (Hc & _). blocks.
    - destruct Hp1 as [->|(_ & Hp1 & _)]; [right; blocks|left; lia].
    - destruct Hp1 as [->|(Hp1 & _)]; [|apply Hsp; lia].
      assert (l1 = []) as ->.
      { pose proof (ui_asc _ _ _ Hu) as Ha. rewrite E in Ha. destruct l1 as [|c l1]; [done|exfalso].
        injection E as <- _. destruct Ha as [Ha _]. apply Forall_app in Ha as [_ Ha]. apply Forall_cons in Ha as [Ha _]. blocks. }
      cbn [app]. apply Forall_app. split; (eapply Forall_impl; [eassumption|]); intros c (_ & Hc & _); left; lia.
    - eapply Forall_impl; [exact Hok2|]. intros c (_ & Hc & _). lia. }
  destruct Hd as [_ Hd]. destruct Hasc as [Hb0 Hasc]. split_and!; try done.
  - apply Forall_app. split; [|done]. pose proof (ok_put (brk s) l1 p b l2) as Ho. rewrite <- E, El' in Ho.
    specialize (Ho Hob Hb Hok2). apply Forall_cons in Ho as [_ Ho]. rewrite Forall_forall in Ho, Hb0 |- *.
    intros c Hc. specialize (Hb0 c Hc). destruct (Ho c Hc) as [->|]; [blocks|done].
  - intros x. pose proof (cover_put l1 p b l2 x) as Hc. rewrite <- E, El' in Hc.
    rewrite !Exists_cons in Hc. assert (~ inside x (base, 0)) by blocks. destruct Hp0. specialize (Hc ltac:(lia)). tauto.
  - pose proof (large_put l1 p b l2) as Hc. rewrite El', Exists_cons in Hc. cbn in Hc. destruct Hp0 as [Hp0 Hp2].
    destruct (Hc Hp0 Hp2); [lia|done].
  - pose proof (length_put l1 p b l2) as Hl. rewrite El', <- E in Hl. cbn in Hl. lia.
Qed.

Lemma free_inv s l al bp bn :
  uinv s l ((bp, bn) :: al) ->
  exists s' l', free s (bp + 8) = Some s' /\ uinv s' l' al /\ brk s' = brk s /\
    (forall x, Exists (inside x) l' <-> Exists (inside x) l \/ inside x (bp, bn)) /\
    Exists (fun c => bn <= c.2) l' /\ (length l' <= S (length l))%nat.
Proof.
  intros Hu. destruct (around _ _ _ _ Hu) as (l1 & p & l2 & E & Hlow & Hend & Hpb & Hl2 & Hok2).
  destruct (uinv_put _ _ _ _ _ _ _ Hu E Hend Hpb Hl2 Hok2) as (l' & El' & Hasc & Hok & Hd & Hcov & Hlarge & Hlen).
  pose proof (uinv_nodup _ _ _ Hu) as Hnd. destruct (uinv_blocks _ _ _ Hu) as [Hob Hoa].
  pose proof (ui_top _ _ _ Hu) as [Hb0 Htop]. apply Forall_cons in Hoa as [(Hb1 & Hb2 & Hb3) Hoa].
  assert (Hpos : Forall (fun b => 0 <= b.2) ((base, 0) :: l)) by (eapply Forall_impl; [exact Hob|apply okb_pos]).
  assert (Hnin : bp ∉ ((base, 0) :: l).*1).
  { intros (c & Ec & Hc)%list_elem_of_fmap. by apply (starts_differ _ _ _ _ c Hu (or_introl Hc)). }
  pose proof (ui_al _ _ _ Hu) as Hal. apply Forall_cons in Hal as [[q0 Hlook] Hal]. cbn [fst snd] in *.
  destruct (free_headers s bp bn l1 p l2) as (s' & E1 & Hseg' & Hfp' & Hbrk & Hframe); rewrite <- ?E; try done; try lia.
  - apply (ui_seg _ _ _ Hu).
  - unfold hsize. by rewrite Hlook.
  - constructor; [blocks|]. eapply Forall_impl; [exact Hob|]. intros b [->|(? & ? & ?)]; blocks.
  - apply (search_found s bp l1 l2 p); rewrite <- ?E; try done; try (apply Hu).
    + by exists 0, l.
    + eapply Forall_impl; [exact Hl2|]. by intros c [Hc _].
    + pose proof (seg_size _ _ _ Hnd (ui_seg _ _ _ Hu)). unfold fuel_of. lia.
  - exists s', l'. rewrite El' in Hseg'. rewrite <- E in Hframe. split_and!; try done. split; try done; rewrite ?Hbrk; try done.
    + rewrite Hfp', <- El'. unfold put_back, merge_down.
      destruct (merge_up (bp, bn) l2) as [b' l2']. destruct (bend p =? b'.1); rewrite fmap_app; apply elem_of_app; right; left.
    + rewrite Forall_forall in Hal |- *. intros c Hc. rewrite Hframe; [by apply Hal| |].
      * intros (d & Ed & Hdl)%list_elem_of_fmap. apply elem_of_Permutation in Hc as [al0 Hp].
        apply (starts_differ s l ((bp, bn) :: al0) c d); [|by left|done].
        eapply uinv_perm; [|exact Hu]. rewrite Hp. apply perm_swap.
      * apply (starts_differ s l al (bp, bn) c Hu). by right.
Qed.

(** *** [malloc]: the search around the circle *)

Lemma seg_det h e l : forall l', seg h l e -> seg h l' e -> nxt l e = nxt l' e -> length l = length l' -> l = l'.
Proof.
  induction l as [|b l IH]; intros [|b' l'] H1 H2 Hn Hl; try done. cbn in Hn, Hl.
  destruct H1 as [E1 H1], H2 as [E2 H2]. rewrite Hn, E2 in E1. injection E1 as En Es.
  f_equal; [by destruct b, b'; cbn in *; subst|]. apply IH; [done|done|done|lia].
Qed.

Lemma cyc_nodup_last (v : list block) x0 w b z :
  NoDup ((v ++ [x0]).*1) -> v ++ [x0] = w ++ b :: z -> z <> [] -> b.1 <> x0.1.
Proof.
  intros Hnd E Hz Eb. destruct (exists_last Hz) as (z' & y & ->).
  change (b :: z' ++ [y]) with ((b :: z') ++ [y]) in E. rewrite app_assoc in E. apply app_inj_tail in E as [-> <-].
  rewrite fmap_app in Hnd. apply NoDup_app in Hnd as (_ & Hnd & _). apply (Hnd b.1).
  - rewrite fmap_app. apply elem_of_app. right. left.
  - rewrite Eb. left.
Qed.

Section Search2.
Context (grow : Z -> Z -> bool) (s : umstate) (nunits : Z) (L : list block) (x0 : block).
Hypothesis Hcyc : cyc (hdrs s) (L ++ [x0]).
Hypothesis Hnd : NoDup ((L ++ [x0]).*1).
Hypothesis Hfp : freep s = x0.1.

(** Around the circle from [v] on, [u] being behind. *)
Lemma scan_ring : forall v u q fuel,
  L ++ [x0] = u ++ v -> v <> [] -> last (x0 :: u) = Some q -> (length v <= fuel)%nat ->
  (exists v1 b v2 q', v = v1 ++ b :: v2 /\ nunits <= b.2 /\ last (x0 :: u ++ v1) = Some q' /\
     malloc_search grow fuel s nunits q.1 (nxt v 0) = Some (take_block s q'.1 b.1 nunits)) \/
  (Forall (fun b => b.2 < nunits) v /\
   malloc_search grow fuel s nunits q.1 (nxt v 0) =
     match morecore grow s nunits with
     | None => None
     | Some (p, s) => if p =? 0 then Some (0, s) else malloc_search grow (fuel - length v) s nunits p (hptr s p)
     end).
Proof using Hcyc Hnd Hfp.
  induction v as [|b v IH]; intros u q [|fuel] E Hv Hq Hf; cbn [length] in Hf; try done; try lia.
  cbn [nxt malloc_search].
  assert (Hb : hsize s b.1 = b.2 /\ (forall c z, v = c :: z -> hptr s b.1 = c.1)).
  { assert (Hc := Hcyc). rewrite E in Hc. destruct (u ++ b :: v) as [|d r] eqn:Er; [by destruct u|].
    cbn [cyc] in Hc. rewrite <- Er in Hc. destruct (hptr_of _ _ _ _ _ Hc) as [H1 H2]. split; [done|].
    intros c z ->. done. }
  destruct Hb as [-> Hnext]. destruct (Z.leb_spec nunits b.2) as [Hle|Hgt].
  - left. exists [], b, v, q. split_and!; [done|done|by rewrite app_nil_r|done].
  - destruct v as [|c v].
    + apply app_inj_tail in E as [_ <-]. rewrite Hfp, Z.eqb_refl. right. split; [by constructor|].
      cbn [length]. by replace (S fuel - 1)%nat with fuel by lia.
    + destruct (Z.eqb_spec b.1 (freep s)) as [Eb|_].
      { exfalso. rewrite Hfp in Eb. by apply (cyc_nodup_last L x0 u b (c :: v)). }
      rewrite (Hnext c v eq_refl). cbn [length] in Hf.
      destruct (IH (u ++ [b]) b fuel) as [(v1 & d & v2 & q' & Ev & Hd & Hq' & Es)|[Hall Es]];
        [by rewrite <- app_assoc|done|rewrite app_comm_cons; by rewrite last_snoc|cbn; lia|left|right]; cbn [nxt] in Es.
      * exists (b :: v1), d, v2, q'. split_and!; [by rewrite Ev|done|by rewrite <- app_assoc in Hq'|done].
      * split; [by constructor|]. exact Es.
Qed.
End Search2.

(** A block large enough is found with its predecessor on the circle, or all
    blocks are too small. *)
Lemma ring_search grow s l al nunits k :
  uinv s l al -> 1 <= nunits -> (S (length l) <= k)%nat ->
  (exists b q D w1 w2, l = w2 ++ b :: w1 /\ w1 ++ (base, 0) :: w2 = D ++ [q] /\ nunits <= b.2 /\
     malloc_search grow k s nunits (freep s) (hptr s (freep s)) = Some (take_block s q.1 b.1 nunits)) \/
  (Forall (fun b => b.2 < nunits) l /\
   malloc_search grow k s nunits (freep s) (hptr s (freep s)) =
     match morecore grow s nunits with
     | None => None
     | Some (p, s) => if p =? 0 then Some (0, s) else malloc_search grow (k - S (length l)) s nunits p (hptr s p)
     end).
Proof.
  intros Hu Hn Hk. pose proof (uinv_nodup _ _ _ Hu) as Hnd.
  destruct (list_elem_of_fmap_1 _ _ _ (ui_freep _ _ _ Hu)) as (x0 & Ex0 & Hx0).
  apply list_elem_of_split in Hx0 as (f1 & f2 & Ef). set (L := f2 ++ f1).
  assert (Hc0 : cyc (hdrs s) (x0 :: L)).
  { pose proof (ui_seg _ _ _ Hu) as H. change (cyc (hdrs s) ((base, 0) :: l)) in H. rewrite Ef in H.
    by apply cyc_rotate in H. }
  assert (Hp0 : L ++ [x0] ≡ₚ (base, 0) :: l) by (rewrite Ef; unfold L; solve_Permutation).
  assert (Hnd' : NoDup ((L ++ [x0]).*1)) by (by rewrite Hp0).
  assert (Hnext : hptr s (freep s) = nxt (L ++ [x0]) 0).
  { destruct Hc0 as [H _]. rewrite Ex0. unfold hptr. rewrite H. cbn. by destruct L. }
  assert (Hlen : length (L ++ [x0]) = S (length l)) by (by rewrite Hp0).
  rewrite Hnext, Ex0.
  destruct (scan_ring grow s nunits L x0 (proj1 (cyc_rotate1 _ _ _) Hc0) Hnd' Ex0 (L ++ [x0]) [] x0 k)
    as [(v1 & b & v2 & q & Ev & Hb & Hq & Es)|[Hall Es]]; [done|by destruct L|done|lia|left|right].
  - assert (Hp : b :: v2 ++ v1 ≡ₚ (base, 0) :: l) by (rewrite <- Hp0, Ev; solve_Permutation).
    assert (Hcb : cyc (hdrs s) (b :: v2 ++ v1)).
    { apply cyc_rotate1 in Hc0. rewrite Ev in Hc0. by apply cyc_rotate in Hc0. }
    assert (Hbase : (base, 0) ∈ v2 ++ v1).
    { assert (H : (base, 0) ∈ b :: v2 ++ v1) by (rewrite Hp; left). apply elem_of_cons in H as [<-|H]; [cbn in Hb; lia|done]. }
    assert (HD : exists D, v2 ++ v1 = D ++ [q]).
    { destruct v1 as [|y v1 _] using rev_ind.
      - cbn in Hq. injection Hq as <-. destruct v2 as [|y v2 _] using rev_ind; [by apply elem_of_nil in Hbase|].
        exists v2. rewrite app_nil_r. change (b :: v2 ++ [y]) with ((b :: v2) ++ [y]) in Ev. cbn [app] in Ev.
        rewrite app_comm_cons in Ev. by apply app_inj_tail in Ev as [_ <-].
      - rewrite app_nil_l in Hq. rewrite app_comm_cons, last_snoc in Hq. injection Hq as ->. exists (v2 ++ v1). by rewrite app_assoc. }
    destruct HD as [D HD]. apply list_elem_of_split in Hbase as (w1 & w2 & Ew). exists b, q, D, w1, w2.
    rewrite Ew in HD, Hp, Hcb. rewrite app_comm_cons in Hcb. apply cyc_rotate in Hcb.
    split_and!; try done. pose proof (ui_seg _ _ _ Hu) as Hs. cbn [app cyc] in Hcb.
    assert (E : (base, 0) :: l = (base, 0) :: w2 ++ b :: w1).
    { apply (seg_det (hdrs s) base); try done. rewrite <- Hp. cbn. rewrite !length_app. cbn. lia. }
    by injection E.
  - rewrite Hp0 in Hall. apply Forall_cons in Hall as [_ Hall]. split; [done|]. by rewrite Es, Hlen.
Qed.

(** *** Taking a block *)

Lemma allp_drop {A} (R : A -> A -> Prop) w1 b w2 : allp R (w1 ++ b :: w2) -> allp R (w1 ++ w2).
Proof.
  rewrite !allp_app. intros (H1 & [_ H2] & H3). split_and!; try done.
  eapply Forall_impl; [exact H3|]. intros x Hx. by apply Forall_cons in Hx as [_ Hx].
Qed.

(** No other block starts inside one of the list. *)
Lemma start_outside s l al b x c :
  uinv s l al -> b ∈ l -> b.1 < x < bend b -> c ∈ (base, 0) :: l \/ c ∈ al -> c.1 <> x.
Proof.
  intros Hu Hb Hx Hc. pose proof (ui_ok _ _ _ Hu) as Ho. rewrite Forall_forall in Ho.
  destruct (Ho b ltac:(apply elem_of_app; by left)) as (Hb1 & _).
  apply elem_of_Permutation in Hb as [r Hr].
  assert (Hd : allp disj (b :: r ++ al)) by (eapply (allp_perm disj); [|apply (ui_disj _ _ _ Hu)]; by rewrite Hr).
  assert (c = (base, 0) \/ c = b \/ c ∈ r ++ al) as [->|[->|Hin]].
  { destruct Hc as [Hc|Hc]; [rewrite Hr, !elem_of_cons in Hc|]; rewrite elem_of_app; tauto. }
  - cbn. lia.
  - lia.
  - destruct Hd as [Hd _]. rewrite Forall_forall in Hd. specialize (Hd c Hin).
    destruct (Ho c) as (_ & Hc2 & _); [rewrite Hr; set_solver|]. blocks.
Qed.

Definition taken (s s' : umstate) (l l' al : list block) (n : Z) (p : Z) : Prop :=
  exists a, p = a + 8 /\ uinv s' l' ((a, n) :: al) /\ brk s' = brk s /\
    (forall x, Exists (inside x) l <-> Exists (inside x) l' \/ inside x (a, n)).

Lemma take_exact s l al b q D w1 w2 :
  uinv s l al -> l = w2 ++ b :: w1 -> w1 ++ (base, 0) :: w2 = D ++ [q] ->
  taken s (take_block s q.1 b.1 b.2).2 l (w2 ++ w1) al b.2 (take_block s q.1 b.1 b.2).1.
Proof.
  intros Hu El ED. pose proof (uinv_nodup _ _ _ Hu) as Hnd. pose proof (ui_seg _ _ _ Hu) as Hs.
  assert (Hb : b ∈ l) by (rewrite El; set_solver).
  pose proof (ui_ok _ _ _ Hu) as Ho. rewrite Forall_forall in Ho.
  destruct (Ho b ltac:(apply elem_of_app; by left)) as (Hb1 & Hb2 & Hb3). pose proof (ui_top _ _ _ Hu) as Ht. unfold bend in Hb3.
  assert (Hp : (base, 0) :: l ≡ₚ b :: D ++ [q]) by (rewrite El, <- ED; solve_Permutation).
  assert (Hc : cyc (hdrs s) (b :: D ++ [q])).
  { change (cyc (hdrs s) ((base, 0) :: l)) in Hs. rewrite El, app_comm_cons in Hs. apply cyc_rotate in Hs.
    cbn [app] in Hs. by rewrite ED in Hs. }
  rewrite Hp in Hnd. cbn [fmap list_fmap] in Hnd. apply NoDup_cons in Hnd as [Hnb Hnd].
  rewrite fmap_app in Hnb, Hnd. apply NoDup_app in Hnd as (_ & Hq & _).
  destruct Hc as [Eb Hc]. apply seg_app in Hc as [HD [Eq _]]. cbn [nxt] in HD, Eq.
  assert (Ehb : hsize s b.1 = b.2 /\ hptr s b.1 = nxt (D ++ [q]) b.1) by (unfold hsize, hptr; by rewrite Eb).
  destruct Ehb as [Eh1 Eh2]. unfold take_block. rewrite Eh1, Z.eqb_refl. cbn [fst snd]. unfold hplus, sizeof_Header.
  rewrite u32_small by lia. exists b.1. split; [lia|].
  rewrite set_hptr_upd, Eh2. assert (Ehq : hsize s q.1 = q.2) by (unfold hsize; by rewrite Eq). rewrite Ehq.
  assert (Hnew : cyc (hdrs (upd s q.1 (nxt (D ++ [q]) b.1) q.2)) (D ++ [q])).
  { assert (Hn : nxt (D ++ [q]) b.1 = nxt D q.1) by (by destruct D).
    assert (HDq : seg (hdrs (upd s q.1 (nxt (D ++ [q]) b.1) q.2)) (D ++ [q]) (nxt D q.1)).
    { apply seg_app. cbn. rewrite seg_insert by (intros H; apply (Hq _ H); left). split; [done|].
      by rewrite lookup_insert_eq, Hn. }
    destruct D; exact HDq. }
  assert (Hqin : q ∈ (base, 0) :: l) by (rewrite Hp; set_solver).
  assert (Hpl : (w2 ++ w1) ++ (b.1, b.2) :: al ≡ₚ l ++ al) by (rewrite El; destruct b; solve_Permutation).
  split_and!; try done.
  - split; cbn [freep set_freep brk].
    + assert (Hn' : cyc (hdrs (upd s q.1 (nxt (D ++ [q]) b.1) q.2)) (((base, 0) :: w2) ++ w1));
        [apply cyc_rotate; by rewrite ED|exact Hn'].
    + pose proof (ui_asc _ _ _ Hu) as Ha. rewrite El, app_comm_cons in Ha. by apply allp_drop in Ha.
    + rewrite Hpl. apply (ui_ok _ _ _ Hu).
    + eapply (allp_perm disj); [symmetry; exact Hpl|apply (ui_disj _ _ _ Hu)].
    + assert (H : q ∈ w1 ++ (base, 0) :: w2) by (rewrite ED; set_solver). apply list_elem_of_fmap_2. set_solver.
    + constructor; cbn [hdrs upd set_freep].
      * exists (nxt (D ++ [q]) b.1). rewrite lookup_insert_ne; [done|]. cbn. intros Eqb. apply Hnb. rewrite <- Eqb. cbn. set_solver.
      * pose proof (ui_al _ _ _ Hu) as Ha. rewrite Forall_forall in Ha |- *. intros c Hc. rewrite lookup_insert_ne; [by apply Ha|].
        apply elem_of_Permutation in Hc as [al0 Hc]. apply (starts_differ s l al0 c q); [|by left]. by eapply uinv_perm.
    + done.
  - intros x. rewrite El, !Exists_app, Exists_cons. destruct b. cbn. tauto.
Qed.

Lemma take_split s l al b q D w1 w2 n :
  uinv s l al -> l = w2 ++ b :: w1 -> w1 ++ (base, 0) :: w2 = D ++ [q] -> 1 <= n < b.2 ->
  taken s (take_block s q.1 b.1 n).2 l (w2 ++ (b.1, b.2 - n) :: w1) al n (take_block s q.1 b.1 n).1.
Proof.
  intros Hu El ED Hn. pose proof (uinv_nodup _ _ _ Hu) as Hnd. pose proof (ui_seg _ _ _ Hu) as Hs.
  assert (Hb : b ∈ l) by (rewrite El; set_solver).
  pose proof (ui_ok _ _ _ Hu) as Ho. rewrite Forall_forall in Ho.
  destruct (Ho b ltac:(apply elem_of_app; by left)) as (Hb1 & Hb2 & Hb3). pose proof (ui_top _ _ _ Hu) as Ht. unfold bend in Hb3.
  rewrite El, app_comm_cons in Hs. pose proof (seg_lookup _ _ _ _ _ Hs) as Eb.
  set (r := b.2 - n) in *. set (x := b.1 + 8 * r).
  assert (Hx : forall c, c ∈ (base, 0) :: l \/ c ∈ al -> c.1 <> x).
  { intros c. apply (start_outside s l al b); [done|done|unfold x, r; blocks]. }
  assert (Et : take_block s q.1 b.1 n = (x + 8, set_freep (set_hsize (upd s b.1 (nxt w1 base) r) x n) q.1)).
  { unfold take_block. assert (hsize s b.1 = b.2) as -> by (unfold hsize; by rewrite Eb).
    destruct (Z.eqb_spec b.2 n); [lia|]. rewrite (u32_small (b.2 - n)) by lia. fold r.
    assert (set_hsize s b.1 r = upd s b.1 (nxt w1 base) r) as -> by (unfold set_hsize, upd, hptr; by rewrite Eb).
    destruct (upd_same s b.1 (nxt w1 base) r) as [_ ->]. unfold hplus, sizeof_Header.
    rewrite (u32_small (b.1 + 8 * r)) by (unfold r; lia). rewrite u32_small by (unfold r; lia). done. }
  rewrite Et. cbn [fst snd]. exists x. split; [done|].
  assert (Hx1 : forall u, (forall c, c ∈ u -> c ∈ (base, 0) :: l) -> x ∉ u.*1).
  { intros u Hsub (c & E & Hc)%list_elem_of_fmap. by apply (Hx c (or_introl (Hsub c Hc))). }
  rewrite El, app_comm_cons, fmap_app in Hnd. apply NoDup_app in Hnd as (_ & Hn1 & Hn2). cbn in Hn2. apply NoDup_cons in Hn2 as [Hn2 _].
  assert (Hpl : b :: w2 ++ w1 ++ al ≡ₚ l ++ al) by (rewrite El; solve_Permutation).
  split_and!; try done.
  - split; cbn [freep set_freep brk set_hsize upd hdrs].
    + rewrite app_comm_cons. apply seg_app in Hs as [Hs1 [_ Hs2]]. cbn [nxt] in Hs1. apply seg_app. cbn [nxt fst snd].
      split; [rewrite !seg_insert; [done|intros H; apply (Hn1 _ H); left|apply Hx1; rewrite El; set_solver]|].
      split; cbn [fst snd].
      * rewrite lookup_insert_ne by (intros E; by apply (Hx b); [left; by right|]). by rewrite lookup_insert_eq.
      * rewrite !seg_insert; [done|done|apply Hx1; rewrite El; set_solver].
    + pose proof (ui_asc _ _ _ Hu) as Ha. rewrite El, app_comm_cons in Ha. rewrite app_comm_cons.
      apply allp_app in Ha as (H1 & [H2 H3] & H4). apply allp_app. split_and!; [done|split; [|done]|].
      * eapply Forall_impl; [exact H2|]. intros c Hc. blocks.
      * eapply Forall_impl; [exact H4|]. intros c Hc. apply Forall_cons in Hc as [Hc H]. by constructor.
    + assert (Hall : Forall (ok_block (brk s)) (b :: w2 ++ w1 ++ al)) by (rewrite Hpl; apply (ui_ok _ _ _ Hu)).
      rewrite Forall_cons, !Forall_app in Hall. rewrite !Forall_app, !Forall_cons. unfold ok_block, x, r in *. blocks.
      intuition lia.
    + assert (Hd : allp disj (b :: w2 ++ w1 ++ al)) by (eapply (allp_perm disj); [symmetry; exact Hpl|apply (ui_disj _ _ _ Hu)]).
      assert (Hd' : allp disj ((b.1, r) :: (x, n) :: w2 ++ w1 ++ al)).
      { destruct Hd as [Hd1 Hd2]. rewrite Forall_forall in Hd1. cbn [allp]. split_and!; [|..|done].
        - constructor; [unfold x; blocks|]. apply Forall_forall. intros c Hc. specialize (Hd1 c Hc). unfold r. blocks.
        - apply Forall_forall. intros c Hc. specialize (Hd1 c Hc). unfold x, r in *. blocks. }
      eapply (allp_perm disj); [|exact Hd']. solve_Permutation.
    + assert (H : q ∈ w1 ++ (base, 0) :: w2) by (rewrite ED; set_solver). rewrite app_comm_cons, fmap_app. cbn. set_solver.
    + constructor; [cbn; rewrite lookup_insert_eq; by eexists|].
      pose proof (ui_al _ _ _ Hu) as Ha. rewrite Forall_forall in Ha |- *. intros c Hc.
      rewrite !lookup_insert_ne; [by apply Ha| |intros E; by apply (Hx c (or_intror Hc))].
      apply elem_of_Permutation in Hc as [al0 Hc]. apply (starts_differ s l al0 c b); [by eapply uinv_perm|left; by right].
    + done.
  - intros y. rewrite El, !Exists_app, !Exists_cons.
    assert (inside y b <-> inside y (b.1, r) \/ inside y (x, n)) by (unfold x, r; blocks). tauto.
Qed.

(** *** More memory from the kernel *)

Lemma uinv_grow s l al nu top :
  uinv s l al -> 1 <= nu -> brk s + 8 * nu = top -> top <= 2147483648 ->
  uinv (set_hsize (mk_um (hdrs s) (freep s) top) (brk s) nu) l ((brk s, nu) :: al).
Proof.
  intros Hu Hnu Htop Hmax. pose proof (ui_ok _ _ _ Hu) as Ho. pose proof (ui_top _ _ _ Hu) as Ht.
  assert (Hlt : forall c, c ∈ l ++ al -> c.1 < brk s).
  { intros c Hc. rewrite Forall_forall in Ho. destruct (Ho c Hc) as (_ & H2 & H3). blocks. }
  assert (Hpl : (brk s, nu) :: l ++ al ≡ₚ l ++ (brk s, nu) :: al) by solve_Permutation.
  split; cbn [set_hsize hdrs freep brk].
  - rewrite seg_insert; [apply (ui_seg _ _ _ Hu)|]. intros (c & E & Hc)%list_elem_of_fmap.
    apply elem_of_cons in Hc as [->|Hc]; [cbn in E; lia|]. specialize (Hlt c ltac:(set_solver)). lia.
  - apply (ui_asc _ _ _ Hu).
  - rewrite <- Hpl. constructor; [unfold ok_block; blocks|]. eapply Forall_impl; [exact Ho|].
    intros c (? & ? & ?). unfold ok_block. split_and!; lia.
  - eapply (allp_perm disj); [exact Hpl|]. split; [|apply (ui_disj _ _ _ Hu)]. rewrite Forall_forall in Ho |- *.
    intros c Hc. destruct (Ho c Hc) as (_ & _ & H3). blocks.
  - apply (ui_freep _ _ _ Hu).
  - constructor; [cbn; rewrite lookup_insert_eq; by eexists|]. pose proof (ui_al _ _ _ Hu) as Ha.
    rewrite Forall_forall in Ha |- *. intros c Hc. specialize (Hlt c ltac:(set_solver)).
    rewrite lookup_insert_ne by lia. by apply Ha.
  - lia.
Qed.

Section Malloc.
Context (grow : Z -> Z -> bool).
(** [allocuvm] refuses to grow a process into the kernel's half. *)
Hypothesis grow_law : forall b n, 0 <= n -> grow b n = true -> b + n <= 2147483648.

Definition grown (s s' : umstate) (l l' : list block) : Prop :=
  brk s <= brk s' /\ forall x, Exists (inside x) l' <-> Exists (inside x) l \/ brk s <= x < brk s'.

Lemma morecore_inv s l al nu :
  uinv s l al -> 1 <= nu -> 8 * nu < 2147483648 ->
  grow (brk s) (8 * Z.max 4096 nu) = false /\ morecore grow s nu = Some (0, s) \/
  exists s' l', morecore grow s nu = Some (freep s', s') /\ uinv s' l' al /\ freep s' <> 0 /\
    Exists (fun c => nu <= c.2) l' /\ grown s s' l l' /\ (length l' <= S (length l))%nat.
Proof using grow_law.
  intros Hu Hnu Hmax. pose proof (ui_top _ _ _ Hu) as Ht. unfold morecore, sizeof_Header.
  set (nu' := if nu <? 4096 then 4096 else nu). assert (Hnu' : nu <= nu' /\ 8 * nu' < 2147483648 /\ 1 <= nu').
  { unfold nu'. destruct (Z.ltb_spec nu 4096); lia. }
  rewrite (u32_small (nu' * 8)) by lia. rewrite s32_small by lia. unfold sbrk.
  assert (Em : 8 * Z.max 4096 nu = nu' * 8) by (unfold nu'; destruct (Z.ltb_spec nu 4096); lia). rewrite Em.
  destruct (grow (brk s) (nu' * 8)) eqn:Eg; [right|by left].
  apply grow_law in Eg; [|lia]. rewrite (u32_small (brk s + nu' * 8)) by lia.
  destruct (Z.eqb_spec (brk s) (u32 (-1))) as [E|_]; [change (u32 (-1)) with 4294967295 in E; lia|].
  pose proof (uinv_grow s l al nu' _ Hu ltac:(lia) (eq_refl (brk s + 8 * nu')) ltac:(lia)) as Hg.
  destruct (free_inv _ _ _ _ _ Hg) as (s' & l' & Ef & Hu' & Hbrk & Hcov & Hlarge & Hlen).
  unfold hplus, sizeof_Header. rewrite u32_small by lia. replace (brk s + 8 * 1) with (brk s + 8) by lia.
  replace (brk s + nu' * 8) with (brk s + 8 * nu') by lia. rewrite Ef. exists s', l'. split_and!; try done.
  - pose proof (ui_freep _ _ _ Hu') as (c & -> & Hc)%list_elem_of_fmap. pose proof (ui_ok _ _ _ Hu') as Ho.
    apply elem_of_cons in Hc as [->|Hc]; [cbn; lia|]. rewrite Forall_forall in Ho.
    destruct (Ho c ltac:(set_solver)) as (? & _). lia.
  - eapply Exists_impl; [exact Hlarge|]. cbn. intros. lia.
  - cbn in Hbrk. split; [lia|]. intros x. rewrite Hcov, Hbrk. unfold inside, bend. cbn. done.
Qed.

Lemma take_inv s l al b q D w1 w2 n :
  uinv s l al -> l = w2 ++ b :: w1 -> w1 ++ (base, 0) :: w2 = D ++ [q] -> 1 <= n <= b.2 ->
  exists l' p s', take_block s q.1 b.1 n = (p, s') /\ taken s s' l l' al n p.
Proof using Type.
  intros Hu El ED Hn. exists (if n =? b.2 then w2 ++ w1 else w2 ++ (b.1, b.2 - n) :: w1).
  destruct (take_block s q.1 b.1 n) as [p s'] eqn:Et. exists p, s'. split; [done|].
  destruct (Z.eqb_spec n b.2) as [->|Hne].
  - pose proof (take_exact s l al b q D w1 w2 Hu El ED) as H. by rewrite Et in H.
  - pose proof (take_split s l al b q D w1 w2 n Hu El ED ltac:(lia)) as H. by rewrite Et in H.
Qed.

Lemma length_size s l al : uinv s l al -> (S (length l) <= size (hdrs s))%nat.
Proof using Type. intros Hu. exact (seg_size _ _ _ (uinv_nodup _ _ _ Hu) (ui_seg _ _ _ Hu)). Qed.

(** Before the first call the list is empty and has no header. *)
Definition heap (s : umstate) (l al : list block) : Prop :=
  uinv s l al \/ freep s = 0 /\ l = [] /\ al = [] /\ 0 < base /\ base + 8 <= brk s <= 2147483648.

Lemma malloc_start s l al nbytes :
  heap s l al -> exists s1, uinv s1 l al /\ brk s1 = brk s /\
    malloc base grow s nbytes = malloc_search grow (2 * fuel_of s1 + 2) s1 (nunits_of nbytes) (freep s1) (hptr s1 (freep s1)).
Proof using grow_law.
  intros [Hu|(Hf & -> & -> & Hb & Ht)]; unfold malloc.
  - exists s. split_and!; try done. destruct (Z.eqb_spec (freep s) 0) as [E|_]; [|done]. exfalso.
    pose proof (ui_freep _ _ _ Hu) as (c & Ec & Hc)%list_elem_of_fmap. pose proof (ui_top _ _ _ Hu).
    pose proof (ui_ok _ _ _ Hu) as Ho. rewrite Forall_forall in Ho. apply elem_of_cons in Hc as [->|Hc]; [cbn in Ec; lia|].
    destruct (Ho c ltac:(set_solver)) as (? & _). lia.
  - rewrite Hf. exists (set_hsize (set_hptr (set_freep s base) base base) base 0).
    split; [|split; reflexivity].
    split; cbn; try done; try (by constructor); try lia.
    + rewrite lookup_insert_eq. unfold hptr, set_hptr. cbn. by rewrite lookup_insert_eq.
Qed.

(** The block found, after growing the heap if need be. *)
Lemma search_inv s l al n k :
  uinv s l al -> 1 <= n -> 8 * n < 2147483648 -> (2 * length l + 4 <= k)%nat ->
  (Forall (fun b => b.2 < n) l /\ grow (brk s) (8 * Z.max 4096 n) = false /\
     malloc_search grow k s n (freep s) (hptr s (freep s)) = Some (0, s)) \/
  exists s1 l1 s' l' p, (s1 = s /\ l1 = l \/ grown s s1 l l1) /\ taken s1 s' l1 l' al n p /\
    malloc_search grow k s n (freep s) (hptr s (freep s)) = Some (p, s').
Proof using grow_law.
  intros Hu Hn Hmax Hk.
  destruct (ring_search grow s l al n k Hu Hn ltac:(lia)) as [(b & q & D & w1 & w2 & El & ED & Hb & Es)|[Hall Es]].
  { right. destruct (take_inv s l al b q D w1 w2 n Hu El ED ltac:(lia)) as (l' & p & s' & Et & Htk).
    exists s, l, s', l', p. split_and!; [by left|done|by rewrite Es, Et]. }
  destruct (morecore_inv s l al n Hu Hn Hmax) as [[Hg Em]|(s1 & l1 & Em & Hu1 & Hf & Hlarge & Hgr & Hlen)];
    rewrite Em in Es; [left; done|right]. apply Z.eqb_neq in Hf. rewrite Hf in Es.
  destruct (ring_search grow s1 l1 al n (k - S (length l)) Hu1 Hn ltac:(lia)) as [(b & q & D & w1 & w2 & El & ED & Hb & Es1)|[Hall1 _]].
  - destruct (take_inv s1 l1 al b q D w1 w2 n Hu1 El ED ltac:(lia)) as (l' & p & s' & Et & Htk).
    exists s1, l1, s', l', p. split_and!; [by right|done|by rewrite Es, Es1, Et].
  - exfalso. rewrite Forall_forall in Hall1. rewrite Exists_exists in Hlarge. destruct Hlarge as (c & Hc & Hle).
    specialize (Hall1 c Hc). lia.
Qed.

(** C29. [malloc] of a size below 2 GiB terminates.  It returns null only when no free
    block is large enough and the kernel refuses the memory that [morecore] asks
    for (the units of the request, at least 4096), and then the free list, the
    allocated blocks and the break are as before; otherwise it
    returns a block with room for [nbytes] bytes after its header that overlaps
    no allocated block (the heap invariant holds with the block added), taken
    from memory that was free or that the kernel has just added, and all other
    free memory stays free. *)
Theorem malloc_gives_block s l al nbytes :
  heap s l al -> 0 <= nbytes <= 2147483600 ->
  let nunits := (nbytes + 7) / 8 + 1 in
  (exists s', Forall (fun b => b.2 < nunits) l /\ grow (brk s) (8 * Z.max 4096 nunits) = false /\
    malloc base grow s nbytes = Some (0, s') /\ uinv s' l al /\ brk s' = brk s) \/
  exists s' l' a n, malloc base grow s nbytes = Some (a + 8, s') /\ uinv s' l' ((a, n) :: al) /\
    nbytes <= 8 * (n - 1) /\
    (forall x, inside x (a, n) -> Exists (inside x) l \/ brk s <= x < brk s') /\
    (forall x, Exists (inside x) l -> Exists (inside x) l' \/ inside x (a, n)).
Proof using grow_law.
  intros Hh Hnb nunits. destruct (malloc_start s l al nbytes Hh) as (s1 & Hu & Hbrk & ->).
  assert (Hn : nunits_of nbytes = (nbytes + 7) / 8 + 1).
  { unfold nunits_of, sizeof_Header. rewrite (u32_small (nbytes + 8 - 1)) by lia.
    replace (nbytes + 8 - 1) with (nbytes + 7) by lia. apply u32_small. Z.div_mod_to_equations. lia. }
  rewrite Hn. fold nunits. set (n := nunits). assert (Hr : 1 <= n /\ 8 * n < 2147483648 /\ nbytes <= 8 * (n - 1)).
  { unfold n, nunits. Z.div_mod_to_equations. lia. }
  pose proof (length_size _ _ _ Hu) as Hsz.
  destruct (search_inv s1 l al n (2 * fuel_of s1 + 2) Hu ltac:(lia) ltac:(lia)) as [(Hall & Hm & Es)|(s2 & l2 & s' & l' & p & Hg & Htk & Es)].
  { unfold fuel_of. lia. }
  - left. exists s1. by rewrite <- Hbrk.
  - right. destruct Htk as (a & -> & Hu' & Hb' & Hcov). exists s', l', a, n. rewrite <- Hbrk, Hb'. split_and!; try done; [lia|..].
    + intros x Hx. assert (H : Exists (inside x) l2) by (apply Hcov; by right).
      destruct Hg as [[-> ->]|[_ Hg]]; [by left|by apply Hg].
    + intros x Hx. apply Hcov. destruct Hg as [[-> ->]|[_ Hg]]; [done|apply Hg; by left].
Qed.

(** C30. [free] of an allocated block terminates and gives exactly its memory back: the
    heap invariant holds without the block, so the free list is again in order
    of address and no two free blocks touch, and no other block is affected. *)
Theorem free_coalesces s l al a n :
  uinv s l ((a, n) :: al) ->
  exists s' l', free s (a + 8) = Some s' /\ uinv s' l' al /\ brk s' = brk s /\
    (forall x, Exists (inside x) l' <-> Exists (inside x) l \/ inside x (a, n)).
Proof using Type.
  intros Hu. destruct (free_inv _ _ _ _ _ Hu) as (s' & l' & H1 & H2 & H3 & H4 & _). by exists s', l'.
Qed.
End Malloc.
End Proof.

(** ** A heap *)

Definition ex_grow (b n : Z) : bool := b + n <=? 2147483648.
Lemma ex_grow_law b n : 0 <= n -> ex_grow b n = true -> b + n <= 2147483648.
Proof. unfold ex_grow. intros _ H. by apply Z.leb_le. Qed.

Definition ex_um : umstate := mk_um ∅ 0 0x4000.
Lemma ex_heap : heap 0x1000 ex_um [] [].
Proof. right. cbn. split_and!; done || lia. Qed.

(** The first call gets 4096 units from the kernel and hands out the last three. *)
Lemma malloc_gives_block_witness :
  exists s' l' a n, malloc 0x1000 ex_grow ex_um 10 = Some (a + 8, s') /\ uinv 0x1000 s' l' [(a, n)] /\ 10 <= 8 * (n - 1).
Proof.
  destruct (malloc_gives_block 0x1000 ex_grow ex_grow_law ex_um [] [] 10) as [(s' & _ & _ & E & _)|(s' & l' & a & n & E & Hu & Hn & _)].
  - exact ex_heap.
  - lia.
  - vm_compute in E. discriminate E.
  - exists s', l', a, n. split; [exact E|split; [exact Hu|exact Hn]].
Defined.

(** Two blocks next to each other, one of them free. *)
Definition ex_um2 : umstate := mk_um {[0x1000 := (0x4000, 0); 0x4000 := (0x1000, 2); 0x4010 := (0, 3)]} 0x1000 0x8000.
Lemma ex_um2_inv : uinv 0x1000 ex_um2 [(0x4000, 2)] [(0x4010, 3)].
Proof.
  split; cbn.
  - split_and!; done.
  - repeat constructor.
  - unfold ok_block, bend. repeat constructor; cbn; lia.
  - unfold disj, bend. repeat constructor; cbn; lia.
  - left.
  - constructor; [by exists 0|constructor].
  - lia.
Qed.

Lemma free_coalesces_witness :
  exists s' l', free ex_um2 0x4018 = Some s' /\ uinv 0x1000 s' l' [].
Proof.
  destruct (free_coalesces 0x1000 ex_um2 [(0x4000, 2)] [] 0x4010 3 ex_um2_inv) as (s' & l' & E & Hu & _).
  exists s', l'. split; [exact E|exact Hu].
Defined.

(** The size computation wraps: a request for 2^32 - 1 bytes gets one header and
    no bytes at all. *)
Example malloc_wraps :
  nunits_of 4294967295 = 1 /\
  exists s', malloc 0x1000 ex_grow ex_um 4294967295 = Some (0x4000 + 8 * 4096, s').
Proof. split; [reflexivity|]. eexists. vm_compute. reflexivity. Qed.

(** A request close to 4 GiB makes the argument of [sbrk] a small negative [int]:
    the kernel is asked to take memory away from the process. *)
Example malloc_shrinks :
  s32 (u32 (nunits_of 4294959104 * sizeof_Header)) = -8184.
Proof. reflexivity. Qed.
