(* ===== verification/Shell.v ===== *)
(** * The shell (sh.c)

    A [char *] into the command line is the rest of the line from there on, a
    list of characters without the final NUL; [es] is the empty list.  The
    parser's state [*ps] is such a list.  Parsing does not change the line;
    [nulterminate] does, and works on the whole buffer.  [malloc] is taken to
    succeed in the constructors of commands.

    [runcmd] only makes system calls: it is a tree of calls, a node for each
    call with a continuation for its result. *)
From S2P Require Import Prelude Memory KString Ulib Printf.

(** ** Commands *)

Definition MAXARGS : nat := 10.

(** A token in the line: where it starts and where it ends. *)
Notation token := (list Z * list Z)%type.

(** [T] is what a word is: a token of the line, or a string. *)
Inductive cmd (T : Type) : Type :=
| EXEC (argv : list T)
| REDIR (c : cmd T) (file : T) (mode fd : Z)
| PIPE (left right : cmd T)
| LIST (left right : cmd T)
| BACK (c : cmd T).
Arguments EXEC {T} argv.
Arguments REDIR {T} c file mode fd.
Arguments PIPE {T} left right.
Arguments LIST {T} left right.
Arguments BACK {T} c.

(** ** Tokens *)

Definition whitespace : list Z := [32; 9; 13; 10; 11].
Definition symbols : list Z := str "<|>&;()".
Definition is_in (l : list Z) (c : Z) : bool := match strchr l c with Some _ => true | None => false end.

Fixpoint skip (f : Z -> bool) (s : list Z) : list Z :=
  match s with
  | [] => []
  | c :: s' => if f c then skip f s' else s
  end.
Definition skip_ws : list Z -> list Z := skip (is_in whitespace).
Definition skip_word : list Z -> list Z := skip (fun c => negb (is_in whitespace c) && negb (is_in symbols c)).

(** The kind of the token at [s] and the place after it. *)
Definition token_at (s : list Z) : Z * list Z :=
  match s with
  | [] => (0, s)
  | c :: s1 =>
      if is_in (str "|();&<") c then (c, s1)
      else if c =? ch ">" then
        match s1 with
        | c1 :: s2 => if c1 =? ch ">" then (ch "+", s2) else (ch ">", s1)
        | [] => (ch ">", s1)
        end
      else (ch "a", skip_word s)
  end.

Notation Sh := (M (list Z)).

Definition gettoken : Sh (Z * token) :=
  fun s =>
    let q := skip_ws s in
    let '(tok, eq) := token_at q in
    Ret (tok, (q, eq)) (skip_ws eq).

Definition peek (toks : list Z) : Sh bool :=
  fun s =>
    let s := skip_ws s in
    Ret (match s with [] => false | c :: _ => is_in toks c end) s.

(** ** The parser *)

Record redir := mk_redir { r_file : token; r_mode : Z; r_fd : Z }.
(** [cmd = redircmd(cmd, ...)] for each in turn.  The [execcmd] that [parseexec]
    fills in is the innermost command. *)
Definition wrap (rs : list redir) (c : cmd token) : cmd token :=
  fold_left (fun c r => REDIR c (r_file r) (r_mode r) (r_fd r)) rs c.

Fixpoint parseredirs_loop (fuel : nat) : Sh (list redir) :=
  match fuel with
  | O => fun _ => OutOfFuel
  | S k =>
      let* more := peek (str "<>") in
      if negb more then ret []
      else
        let* (tok, _) := gettoken in
        let* (t, f) := gettoken in
        if negb (t =? ch "a") then panic "missing file for redirection"
        else
          let r := if tok =? ch "<" then mk_redir f O_RDONLY 0
                   else mk_redir f (Z.lor O_WRONLY O_CREATE) 1 in
          let* rs := parseredirs_loop k in
          ret (r :: rs)
  end.
Definition parseredirs : Sh (list redir) := fun s => parseredirs_loop (S (length s)) s.

(** The words of a command, with the redirections among them. *)
Fixpoint parseargs_loop (fuel : nat) (argc : nat) : Sh (list token * list redir) :=
  match fuel with
  | O => fun _ => OutOfFuel
  | S k =>
      let* stop := peek (str "|)&;") in
      if stop then ret ([], [])
      else
        let* (tok, t) := gettoken in
        if tok =? 0 then ret ([], [])
        else if negb (tok =? ch "a") then panic "syntax"
        else if (MAXARGS <=? S argc)%nat then panic "too many args"
        else
          let* rs := parseredirs in
          let* (ts, rs') := parseargs_loop k (S argc) in
          ret (t :: ts, rs ++ rs')
  end.
Definition parseargs : Sh (list token * list redir) := fun s => parseargs_loop (S (length s)) 0 s.

Fixpoint parseamp_loop (fuel : nat) (c : cmd token) : Sh (cmd token) :=
  match fuel with
  | O => fun _ => OutOfFuel
  | S k =>
      let* more := peek (str "&") in
      if negb more then ret c
      else do* gettoken in parseamp_loop k (BACK c)
  end.
Definition parseamp (c : cmd token) : Sh (cmd token) := fun s => parseamp_loop (S (length s)) c s.

Fixpoint parseline (fuel : nat) : Sh (cmd token) :=
  match fuel with
  | O => fun _ => OutOfFuel
  | S k =>
      let* c := parsepipe k in
      let* c := parseamp c in
      let* more := peek (str ";") in
      if negb more then ret c
      else
        do* gettoken in
        let* r := parseline k in
        ret (LIST c r)
  end
with parsepipe (fuel : nat) : Sh (cmd token) :=
  match fuel with
  | O => fun _ => OutOfFuel
  | S k =>
      let* c := parseexec k in
      let* more := peek (str "|") in
      if negb more then ret c
      else
        do* gettoken in
        let* r := parsepipe k in
        ret (PIPE c r)
  end
with parseexec (fuel : nat) : Sh (cmd token) :=
  match fuel with
  | O => fun _ => OutOfFuel
  | S k =>
      let* block := peek (str "(") in
      if block then parseblock k
      else
        let* rs := parseredirs in
        let* (ts, rs') := parseargs in
        ret (wrap (rs ++ rs') (EXEC ts))
  end
with parseblock (fuel : nat) : Sh (cmd token) :=
  match fuel with
  | O => fun _ => OutOfFuel
  | S k =>
      let* open := peek (str "(") in
      if negb open then panic "parseblock"
      else
        do* gettoken in
        let* c := parseline k in
        let* close := peek (str ")") in
        if negb close then panic "syntax - missing )"
        else
          do* gettoken in
          let* rs := parseredirs in
          ret (wrap rs c)
  end.

Definition parse_fuel (s : list Z) : nat := (4 * length s + 4)%nat.

(** [parsecmd] up to the call of [nulterminate]. *)
Definition parsecmd : Sh (cmd token) :=
  fun s =>
    (let* c := parseline (parse_fuel s) in
     do* peek [] in
     let* rest := get in
     match rest with
     | [] => ret c
     | _ => panic "syntax"
     end) s.

(** ** NUL-terminating the words *)

(** [*p = 0] for [p] the place in [buf] where [rest] begins. *)
Definition put_nul (buf rest : list Z) : list Z := <[(length buf - length rest)%nat := 0]> buf.

Fixpoint nulterminate (c : cmd token) (buf : list Z) : list Z :=
  match c with
  | EXEC ts => fold_left (fun b t => put_nul b t.2) ts buf
  | REDIR c f _ _ => put_nul (nulterminate c buf) f.2
  | PIPE l r | LIST l r => nulterminate r (nulterminate l buf)
  | BACK c => nulterminate c buf
  end.

(** The C string that starts at [rest] once the buffer has become [buf]: up to the
    first NUL. *)
Fixpoint upto_nul (s : list Z) : list Z :=
  match s with
  | [] => []
  | c :: s' => if c =? 0 then [] else c :: upto_nul s'
  end.
Definition cstring (buf rest : list Z) : list Z := upto_nul (drop (length buf - length rest) buf).

Fixpoint cmap {A B} (f : A -> B) (c : cmd A) : cmd B :=
  match c with
  | EXEC ts => EXEC (f <$> ts)
  | REDIR c x m fd => REDIR (cmap f c) (f x) m fd
  | PIPE l r => PIPE (cmap f l) (cmap f r)
  | LIST l r => LIST (cmap f l) (cmap f r)
  | BACK c => BACK (cmap f c)
  end.

(** The command [runcmd] gets: its words are the C strings in the buffer. *)
Definition strings_in (buf : list Z) (c : cmd token) : cmd (list Z) := cmap (fun t => cstring buf t.1) c.

Definition parsecmd_nul (s : list Z) : outcome (list Z) (cmd (list Z)) :=
  match parsecmd s with
  | Ret c _ => let buf := nulterminate c s in Ret (strings_in buf c) buf
  | Panic m => Panic m
  | Fault m => Fault m
  | OutOfFuel => OutOfFuel
  end.

(** ** Running commands *)

Inductive prog : Type :=
| Exit
| Exec (path : list Z) (argv : list (list Z)) (failed : prog)
| Open (path : list Z) (mode : Z) (k : Z -> prog)
| Close (fd : Z) (k : prog)
| Dup (fd : Z) (k : prog)
| Pipe (k : option (Z * Z) -> prog)
| Fork (k : Z -> prog)
| Wait (k : prog)
| Chdir (path : list Z) (k : Z -> prog)
| Write (fd : Z) (text : list Z) (k : prog).

Definition print2 (text : list Z) (k : prog) : prog := Write 2 text k.
Definition shpanic (msg : list Z) : prog := print2 (msg ++ [NL]) Exit.
Definition fork1 (k : Z -> prog) : prog :=
  Fork (fun pid => if pid =? -1 then shpanic (str "fork") else k pid).

Fixpoint runcmd (c : cmd (list Z)) : prog :=
  match c with
  | EXEC [] => Exit
  | EXEC (a :: argv) => Exec a (a :: argv) (print2 (str "exec " ++ a ++ str " failed" ++ [NL]) Exit)
  | REDIR c file mode fd =>
      Close fd (Open file mode (fun r =>
        if r <? 0 then print2 (str "open " ++ file ++ str " failed" ++ [NL]) Exit
        else runcmd c))
  | LIST l r =>
      fork1 (fun pid => if pid =? 0 then runcmd l else Wait (runcmd r))
  | PIPE l r =>
      Pipe (fun p =>
        match p with
        | None => shpanic (str "pipe")
        | Some (p0, p1) =>
            fork1 (fun pid =>
              if pid =? 0 then Close 1 (Dup p1 (Close p0 (Close p1 (runcmd l))))
              else fork1 (fun pid =>
                if pid =? 0 then Close 0 (Dup p0 (Close p0 (Close p1 (runcmd r))))
                else Close p0 (Close p1 (Wait (Wait Exit)))))
        end)
  | BACK c => fork1 (fun pid => if pid =? 0 then runcmd c else Exit)
  end.

(** What [parsecmd] prints before it panics when the line has text after the
    command. *)
Definition leftovers (s : list Z) : list Z :=
  match (do* parseline (parse_fuel s) in do* peek [] in get) s with
  | Ret (c :: rest) _ => str "leftovers: " ++ (c :: rest) ++ [NL]
  | _ => []
  end.

(** A line that is not a [cd]: a child parses and runs it.  What a failing
    parser prints is the text left over, if any, and the message of its
    [panic]. *)
Definition run_line (buf : list Z) (next : prog) : prog :=
  fork1 (fun pid =>
    if pid =? 0 then
      match parsecmd_nul buf with
      | Ret c _ => runcmd c
      | Panic m =>
          match leftovers buf with
          | [] => shpanic (str m)
          | text => print2 text (shpanic (str m))
          end
      | _ => Exit
      end
    else Wait next).

(** One turn of [main]'s loop on a line: the program goes on with [next]. *)
Definition shell_turn (buf : list Z) (next : prog) : prog :=
  match buf with
  | c0 :: c1 :: c2 :: path =>
      if (c0 =? ch "c") && (c1 =? ch "d") && (c2 =? ch " ") then
        let path := removelast path in
        Chdir path (fun r =>
          if r <? 0 then print2 (str "cannot cd " ++ path ++ [NL]) next else next)
      else run_line buf next
  | _ => run_line buf next
  end.

Definition SHBUF : Z := 100.

(** [getcmd] and the loop, over the characters of standard input. *)
Fixpoint main_loop (fuel : nat) (input : list Z) : prog :=
  match fuel with
  | O => Exit
  | S k =>
      let '(buf, rest) := ugets_buf SHBUF input in
      print2 (str "$ ")
        (match buf with
         | [] => Exit
         | _ => shell_turn buf (main_loop k rest)
         end)
  end.

(** Descriptors 0, 1 and 2 are open before the first command. *)
Fixpoint open_console (n : nat) (k : prog) : prog :=
  match n with
  | O => k
  | S n' =>
      Open (str "console") O_RDWR (fun fd =>
        if fd <? 0 then k
        else if 3 <=? fd then Close fd k
        else open_console n' k)
  end.

(** At most four opens: each one that returns less than 3 uses up a descriptor. *)
Definition main (input : list Z) : prog := open_console 4 (main_loop (S (length input)) input).
