(* ===== verification/ShellProof.v ===== *)
(** * The shell's parser and its use of descriptors

    The parser terminates on every line; it inverts a printer for commands; the
    words it cuts out are the C strings the commands get; and the commands run
    with the standard input and output their place in the line calls for. *)
From S2P Require Import Prelude Memory KString Ulib Printf Shell.

(** ** Tokens *)

Definition norm (s : list Z) : Prop := skip_ws s = s.

Lemma skip_length f s : (length (skip f s) <= length s)%nat.
Proof. induction s as [|c s IH]; cbn; [done|]. destruct (f c); cbn; lia. Qed.
Lemma skip_idem f s : skip f (skip f s) = skip f s.
Proof. induction s as [|c s IH]; cbn; [done|]. destruct (f c) eqn:E; [done|]. cbn. by rewrite E. Qed.
Lemma norm_skip s : norm (skip_ws s).
Proof. apply skip_idem. Qed.
Lemma skip_ws_length s : (length (skip_ws s) <= length s)%nat.
Proof. apply skip_length. Qed.

Lemma is_in_cons x l c : x <> 0 -> is_in (x :: l) c = (x =? c) || is_in l c.
Proof.
  intros Hx. unfold is_in. cbn [strchr]. destruct (Z.eqb_spec x 0); [done|]. destruct (x =? c); [done|].
  by destruct (strchr l c).
Qed.
Lemma is_in_nil c : is_in [] c = false.
Proof. done. Qed.
Ltac kinds := cbn [str]; rewrite ?is_in_cons, ?is_in_nil by done.
Lemma symbols_kinds c : is_in symbols c = is_in (str "|();&<") c || (c =? ch ">").
Proof.
  unfold symbols. kinds. rewrite (Z.eqb_sym c (ch ">")).
  destruct (ch "<" =? c), (ch "|" =? c), (ch ">" =? c), (ch "&" =? c), (ch ";" =? c), (ch "(" =? c), (ch ")" =? c); done.
Qed.

(** A token on a normal non-empty text uses up at least a character. *)
Lemma token_at_length c s : norm (c :: s) -> (length (token_at (c :: s)).2 <= length s)%nat.
Proof.
  intros Hn. unfold norm, skip_ws in Hn. cbn [skip] in Hn.
  destruct (is_in whitespace c) eqn:Ew.
  { pose proof (skip_length (is_in whitespace) s) as H. rewrite Hn in H. cbn in H. lia. }
  cbn [token_at]. pose proof (symbols_kinds c) as Hk. destruct (is_in (str "|();&<") c); [done|].
  destruct (c =? ch ">"); [repeat case_match; cbn; lia|]. cbn [orb] in Hk.
  cbn [snd]. unfold skip_word. cbn [skip]. rewrite Ew, Hk. cbn [negb andb]. apply skip_length.
Qed.
Lemma gettoken_length s :
  skip_ws s <> [] -> exists r s', gettoken s = Ret r s' /\ (length s' < length s)%nat /\ norm s'.
Proof.
  intros Hne. unfold gettoken. pose proof (skip_ws_length s). pose proof (norm_skip s) as Hn.
  destruct (skip_ws s) as [|c q] eqn:Eq; [done|]. pose proof (token_at_length c q Hn).
  destruct (token_at (c :: q)) as [tok eq]. cbn [snd] in *. eexists _, _. split; [reflexivity|].
  pose proof (skip_ws_length eq). cbn in *. split; [lia|apply norm_skip].
Qed.

(** ** Termination *)

(** The parser neither loops nor goes on past the end: it returns with no more
    text than it got, or it panics. *)
Definition fine {A} (m : Sh A) (s : list Z) : Prop :=
  match m s with Ret _ s' => (length s' <= length s)%nat | Panic _ => True | _ => False end.

Lemma fine_ret {A} (a : A) s : fine (ret a) s.
Proof. unfold fine, ret. lia. Qed.
Lemma fine_panic {A} m s : fine (panic (A := A) m) s.
Proof. done. Qed.
Lemma fine_bind {A B} (m : Sh A) (f : A -> Sh B) s :
  fine m s -> (forall a s', m s = Ret a s' -> (length s' <= length s)%nat -> fine (f a) s') -> fine (bind m f) s.
Proof.
  unfold fine, bind. intros Hm Hf. destruct (m s) as [a s'| | |] eqn:E; try done.
  specialize (Hf a s' eq_refl Hm). destruct (f a s'); try done. lia.
Qed.
Lemma fine_step {A B} (m : Sh A) (f : A -> Sh B) s a s' :
  m s = Ret a s' -> (length s' <= length s)%nat -> fine (f a) s' -> fine (bind m f) s.
Proof. intros E Hl Hf. unfold fine in *. rewrite (bind_Ret _ _ _ _ _ E). destruct (f a s'); try done. lia. Qed.
Lemma fine_peek toks s : fine (peek toks) s.
Proof. unfold fine, peek. apply skip_ws_length. Qed.
Lemma peek_true toks s s' : peek toks s = Ret true s' -> skip_ws s' <> [] /\ s' = skip_ws s.
Proof.
  unfold peek. intros E. injection E as E1 <-. split; [|done]. rewrite norm_skip. by destruct (skip_ws s).
Qed.
Lemma fine_gettoken s : fine gettoken s.
Proof.
  destruct (skip_ws s) as [|c q] eqn:E.
  - unfold fine, gettoken. rewrite E. cbn. lia.
  - destruct (gettoken_length s) as (r & s' & Eg & Hl & _); [by rewrite E|]. unfold fine. rewrite Eg. lia.
Qed.

(** A token after a successful [peek] is shorter. *)
Lemma fine_take {A} toks (f : Z * token -> Sh A) s s1 :
  peek toks s = Ret true s1 -> (forall r s', (length s' < length s)%nat -> fine (f r) s') -> fine (bind gettoken f) s1.
Proof.
  intros Hp Hf. destruct (peek_true _ _ _ Hp) as [Hne ->].
  destruct (gettoken_length (skip_ws s) Hne) as (r & s' & Eg & Hl & _). pose proof (skip_ws_length s).
  apply (fine_step _ _ _ _ _ Eg); [lia|]. apply Hf. lia.
Qed.

Lemma fine_parseredirs_loop n : forall s, (length s < n)%nat -> fine (parseredirs_loop n) s.
Proof.
  induction n as [|n IH]; intros s Hn; [lia|]. cbn [parseredirs_loop].
  apply fine_bind; [apply fine_peek|]. intros [|] s1 E Hl; cbn [negb]; [|apply fine_ret].
  apply (fine_take _ _ s s1 E). intros [tok t] s2 H2. apply fine_bind; [apply fine_gettoken|].
  intros [t2 f] s3 _ H3. destruct (negb (t2 =? ch "a")); [apply fine_panic|].
  apply fine_bind; [apply IH; lia|]. intros. apply fine_ret.
Qed.
Lemma fine_parseredirs s : fine parseredirs s.
Proof. unfold fine, parseredirs. apply fine_parseredirs_loop. lia. Qed.

Lemma fine_parseargs_loop n : forall s argc, (length s < n)%nat -> fine (parseargs_loop n argc) s.
Proof.
  induction n as [|n IH]; intros s argc Hn; [lia|]. cbn [parseargs_loop].
  apply fine_bind; [apply fine_peek|]. intros [|] s1 E Hl; [apply fine_ret|].
  destruct (skip_ws s1) as [|c q] eqn:Eq.
  - unfold fine, bind, gettoken. rewrite Eq. cbn. lia.
  - destruct (gettoken_length s1) as ([tok t] & s2 & Eg & Hl2 & _); [by rewrite Eq|].
    apply (fine_step _ _ _ _ _ Eg); [lia|].
    repeat (case_match; [apply fine_ret || apply fine_panic|]).
    apply fine_bind; [apply fine_parseredirs|]. intros rs s3 _ H3. apply fine_bind; [apply IH; lia|].
    intros [ts rs'] s4 _ H4. apply fine_ret.
Qed.
Lemma fine_parseargs s : fine parseargs s.
Proof. unfold fine, parseargs. apply fine_parseargs_loop. lia. Qed.

Lemma fine_parseamp_loop n : forall s c, (length s < n)%nat -> fine (parseamp_loop n c) s.
Proof.
  induction n as [|n IH]; intros s c Hn; [lia|]. cbn [parseamp_loop].
  apply fine_bind; [apply fine_peek|]. intros [|] s1 E Hl; cbn [negb]; [|apply fine_ret].
  apply (fine_take _ _ s s1 E). intros r s2 H2. apply IH. lia.
Qed.
Lemma fine_parseamp c s : fine (parseamp c) s.
Proof. unfold fine, parseamp. apply fine_parseamp_loop. lia. Qed.

Lemma fine_parse n : forall s fuel, (length s <= n)%nat ->
  ((4 * n + 4 <= fuel)%nat -> fine (parseline fuel) s) /\
  ((4 * n + 3 <= fuel)%nat -> fine (parsepipe fuel) s) /\
  ((4 * n + 2 <= fuel)%nat -> fine (parseexec fuel) s) /\
  ((4 * n + 1 <= fuel)%nat -> fine (parseblock fuel) s).
Proof.
  induction n as [n IHn] using lt_wf_ind. intros s fuel Hs.
  assert (Hblock : forall s fuel, (length s <= n)%nat -> (4 * n + 1 <= fuel)%nat -> fine (parseblock fuel) s).
  { clear s fuel Hs. intros s [|fuel] Hs Hf; [lia|]. cbn [parseblock].
    apply fine_bind; [apply fine_peek|]. intros [|] s1 E Hl; cbn [negb]; [|apply fine_panic].
    apply (fine_take _ _ s s1 E). intros r s2 H2.
    apply fine_bind; [apply (IHn (length s2)); lia|]. intros c s3 _ H3.
    apply fine_bind; [apply fine_peek|]. intros [|] s4 E4 H4; cbn [negb]; [|apply fine_panic].
    apply fine_bind; [apply fine_gettoken|]. intros. apply fine_bind; [apply fine_parseredirs|]. intros. apply fine_ret. }
  assert (Hexec : forall s fuel, (length s <= n)%nat -> (4 * n + 2 <= fuel)%nat -> fine (parseexec fuel) s).
  { clear s fuel Hs. intros s [|fuel] Hs Hf; [lia|]. cbn [parseexec].
    apply fine_bind; [apply fine_peek|]. intros [|] s1 E Hl; [apply Hblock; lia|].
    apply fine_bind; [apply fine_parseredirs|]. intros rs s2 _ H2.
    apply fine_bind; [apply fine_parseargs|]. intros [ts rs'] s3 _ H3. apply fine_ret. }
  assert (Hpipe : forall s fuel, (length s <= n)%nat -> (4 * n + 3 <= fuel)%nat -> fine (parsepipe fuel) s).
  { clear s fuel Hs. intros s [|fuel] Hs Hf; [lia|]. cbn [parsepipe].
    apply fine_bind; [apply Hexec; lia|]. intros c s1 _ H1. apply fine_bind; [apply fine_peek|].
    intros [|] s2 E H2; cbn [negb]; [|apply fine_ret]. apply (fine_take _ _ s1 s2 E). intros r s3 H3.
    apply fine_bind; [apply (IHn (length s3)); lia|]. intros. apply fine_ret. }
  split_and!; intros Hf; [|by apply Hpipe|by apply Hexec|by apply Hblock].
  destruct fuel as [|fuel]; [lia|]. cbn [parseline].
  apply fine_bind; [apply Hpipe; lia|]. intros c s1 _ H1. apply fine_bind; [apply fine_parseamp|]. intros c2 s2 _ H2.
  apply fine_bind; [apply fine_peek|]. intros [|] s3 E H3; cbn [negb]; [|apply fine_ret].
  apply (fine_take _ _ s2 s3 E). intros r s4 H4. apply fine_bind; [apply (IHn (length s4)); lia|]. intros. apply fine_ret.
Qed.

(** The recursive-descent parser terminates on every line: [parsecmd] returns a
    command with the whole line consumed, or panics with a syntax error. *)
Theorem parsecmd_terminates s :
  (exists c, parsecmd s = Ret c []) \/ (exists m, parsecmd s = Panic m).
Proof.
  destruct (fine_parse (length s) s (parse_fuel s) (le_n _)) as [H _].
  specialize (H (le_n _)). unfold fine in H. unfold parsecmd, bind, peek, get.
  destruct (parseline (parse_fuel s) s) as [c s1|m| |]; try done; [|by right; exists m].
  destruct (skip_ws s1); [left|right]; by eexists.
Qed.

(** ** A printer for commands *)

Definition sp : Z := 32.

(** Every token is followed by a space.  The level says what the parser expects
    at this place (0 a command, 1 a pipeline, 2 a pipeline in the background, 3 a
    line); what does not fit goes in parentheses. *)
Definition parens (b : bool) (t : list Z) : list Z :=
  if b then ch "(" :: sp :: t ++ [ch ")"; sp] else t.
Definition show_words (ws : list (list Z)) : list Z := concat ((fun w => w ++ [sp]) <$> ws).
Definition show_redir (f : list Z) (fd : Z) : list Z :=
  (if fd =? 0 then ch "<" else ch ">") :: sp :: f ++ [sp].
Fixpoint show (lvl : nat) (c : cmd (list Z)) : list Z :=
  match c with
  | EXEC ws => show_words ws
  | REDIR c f _ fd => show 0 c ++ show_redir f fd
  | PIPE l r => parens (lvl <? 1)%nat (show 0 l ++ ch "|" :: sp :: show 1 r)
  | BACK c => parens (lvl <? 2)%nat (show 2 c ++ [ch "&"; sp])
  | LIST l r => parens (lvl <? 3)%nat (show 2 l ++ ch ";" :: sp :: show 3 r)
  end.

Definition ordinary (c : Z) : Prop := is_in whitespace c = false /\ is_in symbols c = false.
Definition word (w : list Z) : Prop := w <> [] /\ Forall ordinary w.
Definition std_redir (mode fd : Z) : Prop :=
  mode = O_RDONLY /\ fd = 0 \/ mode = Z.lor O_WRONLY O_CREATE /\ fd = 1.

(** Words of ordinary characters, at most nine of them, and the two kinds of
    redirection. *)
Fixpoint printable (c : cmd (list Z)) : Prop :=
  match c with
  | EXEC ws => Forall word ws /\ (length ws < MAXARGS)%nat
  | REDIR c f mode fd => printable c /\ word f /\ std_redir mode fd
  | PIPE l r | LIST l r => printable l /\ printable r
  | BACK c => printable c
  end.

Definition text (t : token) : list Z := take (length t.1 - length t.2) t.1.

(** *** Reading printed tokens *)

Definition hd_in (toks s : list Z) : bool := match s with [] => false | c :: _ => is_in toks c end.
Definition starts (toks s : list Z) : Prop := s = [] \/ hd_in toks s = true.

Lemma norm_cons c s : is_in whitespace c = false -> norm (c :: s).
Proof. unfold norm, skip_ws. cbn. by intros ->. Qed.
Lemma norm_word w s : word w -> norm (w ++ s).
Proof. intros [Hne Hw]. destruct w as [|c w]; [done|]. apply Forall_cons in Hw as [[Hc _] _]. by apply norm_cons. Qed.
Lemma peek_norm toks s : norm s -> peek toks s = Ret (hd_in toks s) s.
Proof. unfold peek, norm. intros ->. done. Qed.

Lemma skip_word_app w s : Forall ordinary w -> skip_word (w ++ sp :: s) = sp :: s.
Proof.
  unfold skip_word. induction 1 as [|c w [H1 H2] _ IH]; [done|]. cbn [app skip]. by rewrite H1, H2.
Qed.
Lemma ordinary_kind c : ordinary c -> is_in (str "|();&<") c = false /\ (c =? ch ">") = false.
Proof. intros [_ H]. rewrite symbols_kinds in H. by apply orb_false_iff in H. Qed.

Lemma gettoken_word w s : word w -> norm s -> gettoken (w ++ sp :: s) = Ret (ch "a", (w ++ sp :: s, sp :: s)) s.
Proof.
  intros Hw Hs. unfold gettoken. rewrite (norm_word w (sp :: s) Hw). destruct Hw as [Hne Hw].
  destruct w as [|c w]; [done|]. pose proof (Forall_inv Hw) as Hc. destruct (ordinary_kind c Hc) as [H1 H2].
  cbn [app token_at]. rewrite H1, H2. change (c :: w ++ sp :: s) with ((c :: w) ++ sp :: s).
  rewrite skip_word_app by done. cbn [app]. f_equal. exact Hs.
Qed.
Lemma text_word w s : text (w ++ sp :: s, sp :: s) = w.
Proof. unfold text. cbn [fst snd]. rewrite length_app. rewrite Nat.add_sub. apply take_app_length. Qed.

Lemma skip_ws_sp s : norm s -> skip_ws (sp :: s) = s.
Proof. intros H. exact H. Qed.
Lemma gettoken_sym c s : is_in symbols c = true -> norm s -> exists t, gettoken (c :: sp :: s) = Ret (c, t) s.
Proof.
  intros Hc Hs. unfold gettoken. assert (Hw : is_in whitespace c = false).
  { destruct (is_in whitespace c) eqn:E; [|done]. exfalso. revert Hc E. unfold symbols, whitespace. kinds.
    repeat match goal with |- context [Z.eqb ?k c] => destruct (Z.eqb_spec k c) as [<-|_] end; done. }
  rewrite (norm_cons c (sp :: s) Hw). cbn [token_at]. rewrite symbols_kinds in Hc.
  destruct (is_in (str "|();&<") c); [eexists; by rewrite skip_ws_sp|]. cbn [orb] in Hc. rewrite Hc. change (sp =? ch ">") with false.
  apply Z.eqb_eq in Hc as ->. eexists. by rewrite skip_ws_sp.
Qed.

Lemma is_in_elem l c : is_in l c = true -> c ∈ l.
Proof.
  unfold is_in. induction l as [|x l IH]; cbn [strchr]; [done|]. destruct (x =? 0); [done|].
  destruct (Z.eqb_spec x c) as [->|]; [left|]. destruct (strchr l c) eqn:E; [|done]. right. by apply IH.
Qed.
(** What a text starts with, by cases on the first character. *)
Lemma hd_in_disjoint toks toks' s :
  Forall (fun c => is_in toks' c = false) toks -> starts toks s -> hd_in toks' s = false.
Proof.
  intros Hd [->|H]; [done|]. destruct s as [|c s]; [done|]. cbn in *. apply is_in_elem in H.
  rewrite Forall_forall in Hd. by apply Hd.
Qed.
Lemma hd_in_word toks w s :
  Forall (fun c => is_in symbols c = true) toks -> word w -> hd_in toks (w ++ s) = false.
Proof.
  intros Ht [Hne Hw]. destruct w as [|c w]; [done|]. apply Forall_cons in Hw as [[_ Hc] _]. cbn.
  destruct (is_in toks c) eqn:E; [|done]. apply is_in_elem in E. rewrite Forall_forall in Ht. rewrite Ht in Hc by done. done.
Qed.
Ltac toks := repeat constructor; vm_compute; reflexivity.

(** *** Redirections *)

Notation redir_spec := (list Z * Z * Z)%type.
Definition ok_redir (r : redir_spec) : Prop := word r.1.1 /\ std_redir r.1.2 r.2.
Definition show_redirs (R : list redir_spec) : list Z := concat ((fun r => show_redir r.1.1 r.2) <$> R).
Definition rtext (r : redir) : redir_spec := (text (r_file r), r_mode r, r_fd r).

Lemma show_redirs_cons r R s :
  show_redirs (r :: R) ++ s = (if r.2 =? 0 then ch "<" else ch ">") :: sp :: r.1.1 ++ sp :: show_redirs R ++ s.
Proof. unfold show_redirs, show_redir. cbn. by rewrite <- !app_assoc. Qed.
Lemma norm_redirs R s : norm s -> norm (show_redirs R ++ s).
Proof. destruct R as [|r R]; [done|]. intros _. rewrite show_redirs_cons. apply norm_cons. by destruct (r.2 =? 0). Qed.

Lemma redirs_show R : forall fuel rest,
  Forall ok_redir R -> norm rest -> hd_in (str "<>") rest = false ->
  (length (show_redirs R ++ rest) < fuel)%nat ->
  exists rs, parseredirs_loop fuel (show_redirs R ++ rest) = Ret rs rest /\ rtext <$> rs = R.
Proof.
  induction R as [|[[f m] fd] R IH]; intros [|fuel] rest Hok Hn Hh Hl; try lia; cbn [parseredirs_loop].
  - exists []. unfold show_redirs; cbn [fmap list_fmap concat app]. rewrite (bind_Ret _ _ _ _ _ (peek_norm _ _ Hn)).
    by rewrite Hh.
  - apply Forall_cons in Hok as [[Hw Hs] Hok]. cbn [fst snd] in Hw, Hs. rewrite show_redirs_cons in Hl |- *. cbn [fst snd] in *.
    set (c := if fd =? 0 then ch "<" else ch ">") in *. pose proof (norm_redirs R rest Hn) as Hn1.
    assert (Hc : is_in symbols c = true /\ is_in (str "<>") c = true /\ is_in whitespace c = false)
      by (unfold c; destruct (fd =? 0); done). destruct Hc as (Hc1 & Hc2 & Hc3).
    rewrite (bind_Ret _ _ _ _ _ (peek_norm _ _ (norm_cons _ _ Hc3))). cbn [hd_in]. rewrite Hc2. cbn [negb].
    destruct (gettoken_sym c (f ++ sp :: show_redirs R ++ rest) Hc1 (norm_word _ _ Hw)) as [t Et].
    rewrite (bind_Ret _ _ _ _ _ Et). rewrite (bind_Ret _ _ _ _ _ (gettoken_word f _ Hw Hn1)).
    change (ch "a" =? ch "a") with true. cbn [negb].
    destruct (IH fuel rest Hok Hn Hh) as (rs & Er & Ert).
    { cbn [length] in Hl. rewrite length_app in Hl. cbn [length] in Hl. lia. }
    rewrite (bind_Ret _ _ _ _ _ Er). eexists. split; [reflexivity|]. cbn [fmap list_fmap]. rewrite Ert. f_equal.
    unfold c, rtext. destruct Hs as [[-> ->]|[-> ->]]; cbn [Z.eqb]; (change (ch "<" =? ch "<") with true || change (ch ">" =? ch "<") with false);
      cbn [r_file r_mode r_fd]; by rewrite text_word.
Qed.
Lemma parseredirs_show R rest :
  Forall ok_redir R -> norm rest -> hd_in (str "<>") rest = false ->
  exists rs, parseredirs (show_redirs R ++ rest) = Ret rs rest /\ rtext <$> rs = R.
Proof. intros. apply redirs_show; [done..|lia]. Qed.

(** *** Words *)

Definition F0 := starts (str "|)&;").
Definition F1 := starts (str ")&;").
Definition F2 := starts (str ");").
Definition F3 := starts (str ")").

Lemma show_words_cons w ws s : show_words (w :: ws) ++ s = w ++ sp :: show_words ws ++ s.
Proof. unfold show_words. cbn. by rewrite <- !app_assoc. Qed.
Lemma norm_words ws s : Forall word ws -> norm s -> norm (show_words ws ++ s).
Proof.
  destruct ws as [|w ws]; [done|]. intros Hw _. apply Forall_cons in Hw as [Hw _]. rewrite show_words_cons. by apply norm_word.
Qed.

Lemma args_show ws : forall fuel argc R rest,
  Forall word ws -> (argc + length ws < MAXARGS)%nat -> Forall ok_redir R -> (ws = [] -> R = []) ->
  norm rest -> F0 rest -> (length (show_words ws ++ show_redirs R ++ rest) < fuel)%nat ->
  exists ts rs, parseargs_loop fuel argc (show_words ws ++ show_redirs R ++ rest) = Ret (ts, rs) rest /\
    text <$> ts = ws /\ rtext <$> rs = R.
Proof.
  induction ws as [|w ws IH]; intros [|fuel] argc R rest Hw Ha HR He Hn HF Hl; try lia; cbn [parseargs_loop].
  - rewrite (He eq_refl) in *. cbn [show_words show_redirs fmap list_fmap concat app].
    rewrite (bind_Ret _ _ _ _ _ (peek_norm _ _ Hn)). exists [], []. destruct HF as [-> | ->]; [|done].
    cbn [hd_in]. unfold bind, gettoken. cbn. done.
  - apply Forall_cons in Hw as [Hw Hws]. rewrite show_words_cons in Hl |- *. set (S' := show_words ws ++ show_redirs R ++ rest) in *.
    assert (Hn' : norm S') by (apply norm_words; [done|by apply norm_redirs]).
    rewrite (bind_Ret _ _ _ _ _ (peek_norm _ _ (norm_word w (sp :: S') Hw))).
    rewrite (hd_in_word _ w) by (done || toks). rewrite (bind_Ret _ _ _ _ _ (gettoken_word w S' Hw Hn')).
    change (ch "a" =? 0) with false. change (ch "a" =? ch "a") with true. cbn [negb].
    cbn [length] in Ha. destruct (Nat.leb_spec MAXARGS (S argc)); [lia|]. rewrite length_app in Hl. cbn [length] in Hl.
    destruct ws as [|w' ws].
    + unfold S' in *. cbn [show_words fmap list_fmap concat app] in *.
      destruct (parseredirs_show R rest HR Hn) as (rs & Er & Ert); [apply (hd_in_disjoint (str "|)&;")); [toks|done]|].
      rewrite (bind_Ret _ _ _ _ _ Er). destruct (IH fuel (S argc) [] rest) as (ts & rs' & Ea & Et & Ers); try done; [cbn in *; lia| |].
      { cbn. rewrite length_app in Hl. lia. }
      cbn [show_words show_redirs fmap list_fmap concat app] in Ea. rewrite (bind_Ret _ _ _ _ _ Ea). eexists _, _. split; [reflexivity|].
      cbn [fmap list_fmap]. rewrite text_word, Et, fmap_app, Ert, Ers, app_nil_r. done.
    + assert (Er : parseredirs S' = Ret [] S').
      { apply Forall_cons in Hws as [Hw' _]. unfold S'. rewrite show_words_cons.
        unfold parseredirs. cbn [parseredirs_loop]. rewrite (bind_Ret _ _ _ _ _ (peek_norm _ _ (norm_word w' _ Hw'))).
        rewrite (hd_in_word _ w') by (done || toks). done. }
      rewrite (bind_Ret _ _ _ _ _ Er). destruct (IH fuel (S argc) R rest) as (ts & rs' & Ea & Et & Ers); try done; [cbn [length] in *; lia|unfold S' in Hl; lia|].
      rewrite (bind_Ret _ _ _ _ _ Ea). eexists _, _. split; [reflexivity|]. cbn [fmap list_fmap]. by rewrite text_word, Et.
Qed.

(** *** Commands with their redirections *)

Fixpoint unwind (c : cmd (list Z)) : cmd (list Z) * list redir_spec :=
  match c with
  | REDIR c f m fd => let '(k, R) := unwind c in (k, R ++ [(f, m, fd)])
  | _ => (c, [])
  end.
Definition rewrap (R : list redir_spec) (c : cmd (list Z)) : cmd (list Z) :=
  fold_left (fun c r => REDIR c r.1.1 r.1.2 r.2) R c.

Fixpoint csize {T} (c : cmd T) : nat :=
  match c with
  | EXEC _ => 1
  | REDIR c _ _ _ | BACK c => S (csize c)
  | PIPE l r | LIST l r => S (csize l + csize r)
  end.

Lemma unwind_spec c k R :
  unwind c = (k, R) -> printable c ->
  c = rewrap R k /\ show 0 c = show 0 k ++ show_redirs R /\ printable k /\ Forall ok_redir R /\
  (csize k <= csize c)%nat /\ (forall c' f m fd, k <> REDIR c' f m fd).
Proof.
  revert k R. induction c as [ws|c IH f m fd|l _ r _|l _ r _|c _]; intros k R E Hp; cbn [unwind] in E;
    try (injection E as <- <-; unfold show_redirs; cbn [fmap list_fmap concat]; by rewrite app_nil_r).
  destruct (unwind c) as [k' R'] eqn:Ec. injection E as <- <-. destruct Hp as (Hc & Hw & Hs).
  destruct (IH k' R' eq_refl Hc) as (-> & E2 & H3 & H4 & H5 & H6). cbn [show csize] in *. split_and!; try done; [..|lia].
  - unfold rewrap. by rewrite fold_left_app.
  - rewrite E2. unfold show_redirs. rewrite fmap_app, concat_app. cbn. by rewrite app_nil_r, app_assoc.
  - apply Forall_app. split; [done|]. constructor; [by split|constructor].
Qed.

Lemma cmap_wrap rs : forall c, cmap text (wrap rs c) = rewrap (rtext <$> rs) (cmap text c).
Proof. induction rs as [|r rs IH]; intros c; [done|]. apply (IH (REDIR c (r_file r) (r_mode r) (r_fd r))). Qed.

(** Whether a text can follow without a space: it starts with no white space, or
    the printed command does. *)
Lemma norm_app c t s : is_in whitespace c = false -> norm ((c :: t) ++ s).
Proof. apply norm_cons. Qed.
Lemma norm_show c : forall lvl s, printable c -> norm s -> norm (show lvl c ++ s).
Proof.
  induction c as [ws|c IH f m fd|l IHl r IHr|l IHl r IHr|c IH]; intros lvl s Hp Hs; cbn [show]; cbn [printable] in Hp.
  - apply norm_words; tauto.
  - destruct Hp as (Hp & _ & _). rewrite <- app_assoc. apply IH; [done|]. apply norm_cons. by destruct (fd =? 0).
  - unfold parens. case_match; [by apply norm_cons|]. rewrite <- app_assoc. apply IHl; [tauto|by apply norm_cons].
  - unfold parens. case_match; [by apply norm_cons|]. rewrite <- app_assoc. apply IHl; [tauto|by apply norm_cons].
  - unfold parens. case_match; [by apply norm_cons|]. rewrite <- app_assoc. apply IH; [done|by apply norm_cons].
Qed.

(** *** The parser on printed text *)

Lemma F_weaken toks toks' s : Forall (fun c => is_in toks' c = true) toks -> starts toks s -> starts toks' s.
Proof.
  intros Hs [->|H]; [by left|right]. destruct s as [|c s]; [done|]. cbn in *. apply is_in_elem in H.
  rewrite Forall_forall in Hs. by apply Hs.
Qed.
Lemma F10 s : F1 s -> F0 s. Proof. apply F_weaken. toks. Qed.
Lemma F21 s : F2 s -> F1 s. Proof. apply F_weaken. toks. Qed.
Lemma F32 s : F3 s -> F2 s. Proof. apply F_weaken. toks. Qed.

Lemma parseamp_fuel n : forall m c s, (length s < n)%nat -> (length s < m)%nat -> parseamp_loop n c s = parseamp_loop m c s.
Proof.
  induction n as [|n IH]; intros [|m] c s Hn Hm; try lia. cbn [parseamp_loop]. unfold bind at 1 3.
  destruct (peek (str "&") s) as [[|] s1| | |] eqn:E; [|done..]. cbn [negb].
  destruct (peek_true _ _ _ E) as [Hne ->]. destruct (gettoken_length _ Hne) as (r & s2 & Eg & Hl & _).
  pose proof (skip_ws_length s). rewrite !(bind_Ret _ _ _ _ _ Eg). apply IH; lia.
Qed.
Lemma parseamp_stop c s : norm s -> hd_in (str "&") s = false -> parseamp c s = Ret c s.
Proof.
  intros Hn Hh. unfold parseamp. cbn [parseamp_loop]. rewrite (bind_Ret _ _ _ _ _ (peek_norm _ _ Hn)). by rewrite Hh.
Qed.
Lemma parseamp_more c s : norm s -> parseamp c (ch "&" :: sp :: s) = parseamp (BACK c) s.
Proof.
  intros Hn. unfold parseamp at 1. cbn [parseamp_loop]. rewrite (bind_Ret _ _ _ _ _ (peek_norm _ _ (norm_cons (ch "&") (sp :: s) eq_refl))).
  cbn [hd_in]. change (is_in (str "&") (ch "&")) with true. cbn [negb].
  destruct (gettoken_sym (ch "&") s eq_refl Hn) as [t Et]. rewrite (bind_Ret _ _ _ _ _ Et).
  unfold parseamp. apply parseamp_fuel; cbn [length]; lia.
Qed.

Definition reads (m : Sh (cmd token)) (s : list Z) (c : cmd (list Z)) (rest : list Z) : Prop :=
  exists c', m s = Ret c' rest /\ cmap text c' = c.

(** What each level of the parser does on a printed command. *)
Definition L0 c := forall rest fuel, norm rest -> F0 rest -> (4 * length (show 0 c ++ rest) + 2 <= fuel)%nat ->
  reads (parseexec fuel) (show 0 c ++ rest) c rest.
Definition L1 c := forall rest fuel, norm rest -> F1 rest -> (4 * length (show 1 c ++ rest) + 3 <= fuel)%nat ->
  reads (parsepipe fuel) (show 1 c ++ rest) c rest.
Definition L2 c := forall rest fuel, norm rest -> F1 rest -> (4 * length (show 2 c ++ rest) + 3 <= fuel)%nat ->
  exists c', (let* x := parsepipe fuel in parseamp x) (show 2 c ++ rest) = parseamp c' rest /\ cmap text c' = c.
Definition L3 c := forall rest fuel, norm rest -> F3 rest -> (4 * length (show 3 c ++ rest) + 4 <= fuel)%nat ->
  reads (parseline fuel) (show 3 c ++ rest) c rest.

Lemma L1_of_L0 c : show 1 c = show 0 c -> L0 c -> L1 c.
Proof.
  intros Es H0 rest [|fuel] Hn HF Hf; [lia|]. rewrite Es in Hf |- *.
  destruct (H0 rest fuel Hn (F10 _ HF) ltac:(lia)) as (c' & E & Ec). exists c'. split; [|done].
  cbn [parsepipe]. rewrite (bind_Ret _ _ _ _ _ E), (bind_Ret _ _ _ _ _ (peek_norm _ _ Hn)).
  by rewrite (hd_in_disjoint (str ")&;")) by (done || toks).
Qed.
Lemma L2_of_L1 c : show 2 c = show 1 c -> L1 c -> L2 c.
Proof.
  intros Es H1 rest fuel Hn HF Hf. rewrite Es in Hf |- *. destruct (H1 rest fuel Hn HF Hf) as (c' & E & Ec).
  exists c'. split; [|done]. by rewrite (bind_Ret _ _ _ _ _ E).
Qed.
Lemma L3_of_L2 c : show 3 c = show 2 c -> L2 c -> L3 c.
Proof.
  intros Es H2 rest [|fuel] Hn HF Hf; [lia|]. rewrite Es in Hf |- *.
  destruct (H2 rest fuel Hn (F21 _ (F32 _ HF)) ltac:(lia)) as (c' & E & Ec). exists c'. split; [|done].
  rewrite parseamp_stop in E; [|done|by apply (hd_in_disjoint (str ")")); [toks|]].
  cbn [parseline]. rewrite <- bind_assoc, (bind_Ret _ _ _ _ _ E), (bind_Ret _ _ _ _ _ (peek_norm _ _ Hn)).
  by rewrite (hd_in_disjoint (str ")")) by (done || toks).
Qed.

(** A block: a line in parentheses, then redirections. *)
Lemma block_show c R rest fuel :
  L3 c -> printable c -> Forall ok_redir R -> norm rest -> F0 rest ->
  (4 * length (parens true (show 3 c) ++ show_redirs R ++ rest) + 2 <= fuel)%nat ->
  reads (parseexec fuel) (parens true (show 3 c) ++ show_redirs R ++ rest) (rewrap R c) rest.
Proof.
  intros H3 Hp HR Hn HF Hf. unfold parens in *. cbn [app] in *. rewrite <- app_assoc in *. cbn [app] in *.
  set (S1 := show 3 c ++ ch ")" :: sp :: show_redirs R ++ rest) in *.
  pose proof (norm_redirs R rest Hn) as Hn2.
  assert (Hn1 : norm S1) by (apply norm_show; [done|by apply norm_cons]).
  destruct fuel as [|[|fuel]]; cbn [length] in Hf; try lia.
  pose proof (peek_norm (str "(") _ (norm_cons (ch "(") (sp :: S1) eq_refl)) as Ep.
  cbn [hd_in] in Ep. change (is_in (str "(") (ch "(")) with true in Ep.
  unfold reads. cbn [parseexec]. rewrite (bind_Ret _ _ _ _ _ Ep). cbn [parseblock]. rewrite (bind_Ret _ _ _ _ _ Ep). cbn [negb].
  destruct (gettoken_sym (ch "(") S1 eq_refl Hn1) as [t Et]. rewrite (bind_Ret _ _ _ _ _ Et).
  destruct (H3 (ch ")" :: sp :: show_redirs R ++ rest) fuel) as (c' & E & Ec); [by apply norm_cons|by right|fold S1; lia|].
  fold S1 in E. rewrite (bind_Ret _ _ _ _ _ E).
  rewrite (bind_Ret _ _ _ _ _ (peek_norm _ _ (norm_cons (ch ")") (sp :: show_redirs R ++ rest) eq_refl))). cbn [hd_in].
  change (is_in (str ")") (ch ")")) with true. cbn [negb].
  destruct (gettoken_sym (ch ")") (show_redirs R ++ rest) eq_refl Hn2) as [t2 Et2]. rewrite (bind_Ret _ _ _ _ _ Et2).
  destruct (parseredirs_show R rest HR Hn) as (rs & Er & Ert); [apply (hd_in_disjoint (str "|)&;")); [toks|done]|].
  rewrite (bind_Ret _ _ _ _ _ Er). eexists. split; [reflexivity|]. by rewrite cmap_wrap, Ert, Ec.
Qed.

(** A simple command with redirections. *)
Lemma exec_show ws R rest fuel :
  Forall word ws -> (length ws < MAXARGS)%nat -> Forall ok_redir R -> norm rest -> F0 rest ->
  (0 < fuel)%nat -> reads (parseexec fuel) (show_words ws ++ show_redirs R ++ rest) (rewrap R (EXEC ws)) rest.
Proof.
  intros Hw Hl HR Hn HF Hf. destruct fuel as [|fuel]; [lia|]. unfold reads. cbn [parseexec].
  set (S1 := show_words ws ++ show_redirs R ++ rest).
  assert (Hn1 : norm S1) by (apply norm_words; [done|by apply norm_redirs]).
  assert (Hp : hd_in (str "(") S1 = false).
  { unfold S1. destruct ws as [|w ws].
    - cbn [show_words fmap list_fmap concat app]. destruct R as [|r R].
      + apply (hd_in_disjoint (str "|)&;")); [toks|done].
      + rewrite show_redirs_cons. by destruct (r.2 =? 0).
    - apply Forall_cons in Hw as [Hw _]. rewrite show_words_cons. apply hd_in_word; [toks|done]. }
  rewrite (bind_Ret _ _ _ _ _ (peek_norm _ _ Hn1)). rewrite Hp.
  destruct ws as [|w ws].
  - unfold S1. cbn [show_words fmap list_fmap concat app].
    destruct (parseredirs_show R rest HR Hn) as (rs & Er & Ert); [apply (hd_in_disjoint (str "|)&;")); [toks|done]|].
    rewrite (bind_Ret _ _ _ _ _ Er).
    destruct (args_show [] (S (length rest)) 0 [] rest) as (ts & rs' & Ea & Et & Ers); try done; try constructor; try (unfold MAXARGS; cbn; lia).
    cbn [show_words show_redirs fmap list_fmap concat app] in Ea. unfold parseargs, bind. rewrite Ea. eexists. split; [reflexivity|].
    rewrite cmap_wrap, fmap_app, Ert, Ers, app_nil_r. cbn [cmap]. by rewrite Et.
  - destruct (redirs_show [] (S (length S1)) S1) as (rs & Er & Ert); [constructor|done| |cbn; lia|].
    { apply Forall_cons in Hw as [Hw _]. unfold S1. rewrite show_words_cons. apply hd_in_word; [toks|done]. }
    cbn [show_redirs fmap list_fmap concat app] in Er. change (parseredirs S1 = Ret rs S1) in Er. rewrite (bind_Ret _ _ _ _ _ Er).
    destruct (args_show (w :: ws) (S (length S1)) 0 R rest) as (ts & rs' & Ea & Et & Ers); try done; [fold S1; lia|].
    fold S1 in Ea. change (parseargs S1 = Ret (ts, rs') rest) in Ea. rewrite (bind_Ret _ _ _ _ _ Ea). eexists. split; [reflexivity|].
    rewrite cmap_wrap, fmap_app, Ert, Ers. cbn [cmap app]. by rewrite Et.
Qed.

(** The four levels, by induction on the size of the command. *)
Lemma parse_show n : forall c, (csize c <= n)%nat -> printable c -> L0 c /\ L1 c /\ L2 c /\ L3 c.
Proof.
  induction n as [|n IH]; intros c Hn Hp; [destruct c; cbn in Hn; lia|].
  assert (Hblock : L3 c -> (show 0 c = parens true (show 3 c)) -> L0 c).
  { intros H3 Es rest fuel Hnr HF Hf. rewrite Es in Hf |- *.
    exact (block_show c [] rest fuel H3 Hp (Forall_nil_2 _) Hnr HF Hf). }
  destruct c as [ws|c f m fd|l r|l r|c]; cbn [csize] in Hn; cbn [printable] in Hp.
  - destruct Hp as [Hw Hl]. assert (H0 : L0 (EXEC ws)).
    { intros rest fuel Hnr HF Hf. apply (exec_show ws [] rest fuel); try done. lia. }
    assert (H1 := L1_of_L0 (EXEC ws) eq_refl H0). assert (H2 := L2_of_L1 (EXEC ws) eq_refl H1). split_and!; try done. by apply L3_of_L2.
  - assert (H0 : L0 (REDIR c f m fd)).
    { destruct (unwind (REDIR c f m fd)) as [k R] eqn:Eu.
      destruct (unwind_spec _ _ _ Eu Hp) as (Ec & Es & Hpk & HR & Hsz & Hk).
      intros rest fuel Hnr HF Hf. rewrite Es, <- app_assoc in Hf |- *. rewrite Ec.
      assert (Hkn : (csize k <= n)%nat).
      { cbn [unwind] in Eu. destruct (unwind c) as [k' R'] eqn:Eu'. injection Eu as <- <-.
        destruct (unwind_spec _ _ _ Eu' (proj1 Hp)) as (_ & _ & _ & _ & H & _). lia. }
      destruct k as [ws|k f' m' fd'|l r|l r|k].
      - destruct Hpk as [Hw Hl]. apply exec_show; try done. lia.
      - by destruct (Hk k f' m' fd').
      - apply (block_show (PIPE l r)); try done. by apply IH.
      - apply (block_show (LIST l r)); try done. by apply IH.
      - apply (block_show (BACK k)); try done. by apply IH. }
    assert (H1 := L1_of_L0 (REDIR c f m fd) eq_refl H0). assert (H2 := L2_of_L1 (REDIR c f m fd) eq_refl H1). split_and!; try done. by apply L3_of_L2.
  - destruct Hp as [Hpl Hpr]. assert (H1 : L1 (PIPE l r)).
    { intros rest [|fuel] Hnr HF Hf; [lia|]. unfold reads. cbn [show parens Nat.ltb Nat.leb] in Hf |- *. rewrite <- app_assoc in Hf |- *. cbn [app] in Hf |- *.
      pose proof (norm_show r 1 rest Hpr Hnr) as Hn2. set (S2 := show 1 r ++ rest) in *. rewrite length_app in Hf. cbn [length] in Hf.
      destruct (proj1 (IH l ltac:(lia) Hpl) (ch "|" :: sp :: S2) fuel) as (l' & El & Ell); [by apply norm_cons|by right|rewrite length_app; cbn [length]; lia|].
      cbn [parsepipe]. rewrite (bind_Ret _ _ _ _ _ El). rewrite (bind_Ret _ _ _ _ _ (peek_norm _ _ (norm_cons (ch "|") (sp :: S2) eq_refl))).
      cbn [hd_in]. change (is_in (str "|") (ch "|")) with true. cbn [negb].
      destruct (gettoken_sym (ch "|") S2 eq_refl Hn2) as [t Et]. rewrite (bind_Ret _ _ _ _ _ Et).
      destruct (proj1 (proj2 (IH r ltac:(lia) Hpr)) rest fuel Hnr HF) as (r' & Er & Err); [fold S2; lia|]. fold S2 in Er.
      rewrite (bind_Ret _ _ _ _ _ Er). eexists. split; [reflexivity|]. cbn. by rewrite Ell, Err. }
    assert (H2 := L2_of_L1 (PIPE l r) eq_refl H1). assert (H3 := L3_of_L2 (PIPE l r) eq_refl H2). split_and!; try done. by apply Hblock.
  - destruct Hp as [Hpl Hpr]. assert (H3 : L3 (LIST l r)).
    { intros rest [|fuel] Hnr HF Hf; [lia|]. unfold reads. cbn [show parens Nat.ltb Nat.leb] in Hf |- *. rewrite <- app_assoc in Hf |- *. cbn [app] in Hf |- *.
      pose proof (norm_show r 3 rest Hpr Hnr) as Hn2. set (S2 := show 3 r ++ rest) in *. rewrite length_app in Hf. cbn [length] in Hf.
      destruct (proj1 (proj2 (proj2 (IH l ltac:(lia) Hpl))) (ch ";" :: sp :: S2) fuel) as (l' & El & Ell); [by apply norm_cons|by right|rewrite length_app; cbn [length]; lia|].
      rewrite parseamp_stop in El; [|by apply norm_cons|done].
      cbn [parseline]. rewrite <- bind_assoc, (bind_Ret _ _ _ _ _ El). rewrite (bind_Ret _ _ _ _ _ (peek_norm _ _ (norm_cons (ch ";") (sp :: S2) eq_refl))).
      cbn [hd_in]. change (is_in (str ";") (ch ";")) with true. cbn [negb].
      destruct (gettoken_sym (ch ";") S2 eq_refl Hn2) as [t Et]. rewrite (bind_Ret _ _ _ _ _ Et).
      destruct (proj2 (proj2 (proj2 (IH r ltac:(lia) Hpr))) rest fuel Hnr HF) as (r' & Er & Err); [fold S2; lia|]. fold S2 in Er.
      rewrite (bind_Ret _ _ _ _ _ Er). eexists. split; [reflexivity|]. cbn. by rewrite Ell, Err. }
    assert (H0 := Hblock H3 eq_refl). assert (H1 := L1_of_L0 (LIST l r) eq_refl H0). split_and!; try done. by apply L2_of_L1.
  - assert (H2 : L2 (BACK c)).
    { intros rest fuel Hnr HF Hf. cbn [show parens Nat.ltb Nat.leb] in Hf |- *. rewrite <- app_assoc in Hf |- *. cbn [app] in Hf |- *.
      destruct (proj1 (proj2 (proj2 (IH c ltac:(lia) Hp))) (ch "&" :: sp :: rest) fuel) as (c' & Ec & Ecc); [by apply norm_cons|by right|lia|].
      exists (BACK c'). rewrite Ec, parseamp_more by done. cbn. by rewrite Ecc. }
    assert (H3 := L3_of_L2 (BACK c) eq_refl H2). assert (H0 := Hblock H3 eq_refl). split_and!; try done. by apply L1_of_L0.
Qed.

(** C31. The parser inverts the printer: for every command (with words of ordinary
    characters and at most nine arguments a command), however pipelines,
    background commands, lists and redirections are nested, parsing its printed
    form gives the command back. *)
Theorem parse_print_roundtrip c :
  printable c -> exists c', parsecmd (show 3 c) = Ret c' [] /\ cmap text c' = c.
Proof.
  intros Hp. destruct (parse_show (csize c) c (le_n _) Hp) as (_ & _ & _ & H3).
  destruct (H3 [] (parse_fuel (show 3 c)) eq_refl (or_introl eq_refl)) as (c' & E & Ec);
    [rewrite app_nil_r; unfold parse_fuel; lia|].
  rewrite app_nil_r in E. exists c'. split; [|done]. unfold parsecmd. by rewrite (bind_Ret _ _ _ _ _ E).
Qed.

Definition ex_cmd : cmd (list Z) :=
  LIST (BACK (PIPE (REDIR (EXEC [str "cat"]) (str "in") O_RDONLY 0) (PIPE (EXEC [str "grep"; str "x"]) (LIST (EXEC [str "a"]) (EXEC [])))))
       (REDIR (BACK (EXEC [str "b"])) (str "out") (Z.lor O_WRONLY O_CREATE) 1).
Lemma parse_print_roundtrip_witness :
  show 3 ex_cmd = str "cat < in | grep x | ( a ; ) & ; ( b & ) > out " /\
  exists c', parsecmd (show 3 ex_cmd) = Ret c' [] /\ cmap text c' = ex_cmd.
Proof.
  split; [vm_compute; reflexivity|]. apply parse_print_roundtrip.
  unfold ex_cmd, word, ordinary, std_redir, MAXARGS. cbn [printable]. split_and!; try done; try lia; auto; repeat constructor; try done; cbn; lia.
Defined.

(** ** The words in the buffer *)

(** What the parser cuts out of the line [s0]: ordinary characters up to the end
    or to a character that is not ordinary. *)
Definition ord (c : Z) : bool := negb (is_in whitespace c) && negb (is_in symbols c).
Definition tok_ok (s0 : list Z) (t : token) : Prop :=
  exists pre txt, s0 = pre ++ t.1 /\ t.1 = txt ++ t.2 /\ Forall (fun c => ord c = true) txt /\
    match t.2 with [] => True | c :: _ => ord c = false end.

Fixpoint all_toks {T} (P : T -> Prop) (c : cmd T) : Prop :=
  match c with
  | EXEC ts => Forall P ts
  | REDIR c t _ _ => all_toks P c /\ P t
  | PIPE l r | LIST l r => all_toks P l /\ all_toks P r
  | BACK c => all_toks P c
  end.

Section Yields.
Context (s0 : list Z).
Definition yields {A} (P : A -> Prop) (m : Sh A) : Prop :=
  forall s, s `suffix_of` s0 -> match m s with Ret a s' => s' `suffix_of` s0 /\ P a | _ => True end.

Lemma yields_bind {A B} (P : A -> Prop) (Q : B -> Prop) (m : Sh A) (f : A -> Sh B) :
  yields P m -> (forall a, P a -> yields Q (f a)) -> yields Q (bind m f).
Proof.
  intros Hm Hf s Hs. unfold bind. specialize (Hm s Hs). destruct (m s) as [a s'| | |]; [|done..].
  destruct Hm as [Hs' Ha]. by apply Hf.
Qed.
Lemma yields_ret {A} (P : A -> Prop) a : P a -> yields P (ret a).
Proof. intros Ha s Hs. done. Qed.
Lemma yields_panic {A} (P : A -> Prop) m : yields P (panic m).
Proof. done. Qed.

Lemma suffix_skip f s : s `suffix_of` s0 -> skip f s `suffix_of` s0.
Proof.
  intros Hs. induction s as [|c s IH]; cbn; [done|]. destruct (f c); [|done]. apply IH. by eapply suffix_cons_l.
Qed.
Lemma skip_split f s : exists u, s = u ++ skip f s /\ Forall (fun c => f c = true) u /\
  match skip f s with [] => True | c :: _ => f c = false end.
Proof.
  induction s as [|c s (u & E & Hu & Hs)]; cbn; [by exists []|]. destruct (f c) eqn:Ef; [|by exists []].
  exists (c :: u). split_and!; [cbn; by rewrite <- E|by constructor|done].
Qed.

Lemma yields_peek toks : yields (fun _ => True) (peek toks).
Proof. intros s Hs. split; [by apply suffix_skip|done]. Qed.
Lemma yields_gettoken : yields (fun r => r.1 = ch "a" -> tok_ok s0 r.2) gettoken.
Proof.
  intros s Hs. unfold gettoken. pose proof (suffix_skip (is_in whitespace) s Hs) as Hq. fold skip_ws in Hq.
  set (q := skip_ws s) in *. clearbody q.
  assert (H : (token_at q).2 `suffix_of` q /\ ((token_at q).1 = ch "a" -> (token_at q).2 = skip_word q)).
  { destruct q as [|c q]; [split; [done|intros H; discriminate H]|]. cbn [token_at].
    destruct (is_in (str "|();&<") c) eqn:E1.
    { split; [apply suffix_cons_r; reflexivity|]. cbn [fst]. intros ->. discriminate E1. }
    destruct (c =? ch ">").
    { destruct q as [|c1 q]; [split; [apply suffix_cons_r; reflexivity|intros H; discriminate H]|].
      destruct (c1 =? ch ">"); (split; [|intros H; discriminate H]); [do 2 apply suffix_cons_r|apply suffix_cons_r]; reflexivity. }
    split; [|done]. destruct (skip_split (fun c => negb (is_in whitespace c) && negb (is_in symbols c)) (c :: q)) as (u & E & _).
    exists u. exact E. }
  destruct (token_at q) as [tok eq]. cbn [fst snd] in *. destruct H as [Hsuf Heq].
  split; [apply suffix_skip; by transitivity q|]. intros Ht. specialize (Heq Ht) as ->.
  destruct Hq as [pre Hq]. destruct (skip_split (fun c => negb (is_in whitespace c) && negb (is_in symbols c)) q) as (u & E & Hu & Hh).
  exists pre, u. cbn [fst snd]. unfold ord, skip_word. split_and!; done.
Qed.

Definition tok_redir (r : redir) : Prop := tok_ok s0 (r_file r).

Lemma yields_parseredirs_loop n : yields (Forall tok_redir) (parseredirs_loop n).
Proof.
  induction n as [|n IH]; [done|]. cbn [parseredirs_loop].
  eapply yields_bind; [apply yields_peek|]. intros [|] _; cbn [negb]; [|apply yields_ret; constructor].
  eapply yields_bind; [apply yields_gettoken|]. intros [tok t] _. eapply yields_bind; [apply yields_gettoken|].
  intros [t2 f] Hf. cbn [fst snd] in Hf. destruct (Z.eqb_spec t2 (ch "a")) as [->|]; cbn [negb]; [|apply yields_panic].
  eapply yields_bind; [apply IH|]. intros rs Hrs. apply yields_ret. constructor; [|done].
  unfold tok_redir. destruct (tok =? ch "<"); by apply Hf.
Qed.
Lemma yields_parseredirs : yields (Forall tok_redir) parseredirs.
Proof. intros s Hs. by apply yields_parseredirs_loop. Qed.
Lemma yields_parseargs_loop n : forall argc,
  yields (fun r => Forall (tok_ok s0) r.1 /\ Forall tok_redir r.2) (parseargs_loop n argc).
Proof.
  induction n as [|n IH]; intros argc; [done|]. cbn [parseargs_loop].
  eapply yields_bind; [apply yields_peek|]. intros [|] _; [by apply yields_ret|].
  eapply yields_bind; [apply yields_gettoken|]. intros [tok t] Ht. cbn [fst snd] in Ht.
  destruct (tok =? 0); [by apply yields_ret|]. destruct (Z.eqb_spec tok (ch "a")) as [->|]; cbn [negb]; [|apply yields_panic].
  destruct (_ <=? _)%nat; [apply yields_panic|]. eapply yields_bind; [apply yields_parseredirs|]. intros rs Hrs.
  eapply yields_bind; [apply IH|]. intros [ts rs'] [H1 H2]. apply yields_ret. cbn [fst snd] in *.
  split; [constructor; [by apply Ht|done]|by apply Forall_app].
Qed.
Lemma yields_parseargs : yields (fun r => Forall (tok_ok s0) r.1 /\ Forall tok_redir r.2) parseargs.
Proof. intros s Hs. by apply yields_parseargs_loop. Qed.
Lemma yields_parseamp_loop n : forall c, all_toks (tok_ok s0) c -> yields (all_toks (tok_ok s0)) (parseamp_loop n c).
Proof.
  induction n as [|n IH]; intros c Hc; [done|]. cbn [parseamp_loop].
  eapply yields_bind; [apply yields_peek|]. intros [|] _; cbn [negb]; [|by apply yields_ret].
  eapply yields_bind; [apply yields_gettoken|]. intros r _. by apply IH.
Qed.
Lemma all_toks_wrap rs : forall c, Forall tok_redir rs -> all_toks (tok_ok s0) c -> all_toks (tok_ok s0) (wrap rs c).
Proof.
  induction rs as [|r rs IH]; intros c Hrs Hc; [done|]. apply Forall_cons in Hrs as [Hr Hrs].
  apply (IH (REDIR c (r_file r) (r_mode r) (r_fd r))); [done|by split].
Qed.

Lemma yields_parse n :
  yields (all_toks (tok_ok s0)) (parseline n) /\ yields (all_toks (tok_ok s0)) (parsepipe n) /\
  yields (all_toks (tok_ok s0)) (parseexec n) /\ yields (all_toks (tok_ok s0)) (parseblock n).
Proof.
  induction n as [|n (IH1 & IH2 & IH3 & IH4)]; [done|]. split_and!; cbn [parseline parsepipe parseexec parseblock].
  - eapply yields_bind; [apply IH2|]. intros c Hc. eapply yields_bind; [intros s; by apply yields_parseamp_loop|]. intros c2 Hc2.
    eapply yields_bind; [apply yields_peek|]. intros [|] _; cbn [negb]; [|by apply yields_ret].
    eapply yields_bind; [apply yields_gettoken|]. intros r _. eapply yields_bind; [apply IH1|]. intros c3 Hc3. by apply yields_ret.
  - eapply yields_bind; [apply IH3|]. intros c Hc. eapply yields_bind; [apply yields_peek|]. intros [|] _; cbn [negb]; [|by apply yields_ret].
    eapply yields_bind; [apply yields_gettoken|]. intros r _. eapply yields_bind; [apply IH2|]. intros c3 Hc3. by apply yields_ret.
  - eapply yields_bind; [apply yields_peek|]. intros [|] _; [apply IH4|]. eapply yields_bind; [apply yields_parseredirs|]. intros rs Hrs.
    eapply yields_bind; [apply yields_parseargs|]. intros [ts rs'] [H1 H2]. apply yields_ret. apply all_toks_wrap; [by apply Forall_app|done].
  - eapply yields_bind; [apply yields_peek|]. intros [|] _; cbn [negb]; [|apply yields_panic].
    eapply yields_bind; [apply yields_gettoken|]. intros r _. eapply yields_bind; [apply IH1|]. intros c Hc.
    eapply yields_bind; [apply yields_peek|]. intros [|] _; cbn [negb]; [|apply yields_panic].
    eapply yields_bind; [apply yields_gettoken|]. intros r2 _. eapply yields_bind; [apply yields_parseredirs|]. intros rs Hrs.
    apply yields_ret. by apply all_toks_wrap.
Qed.
End Yields.

Lemma parsecmd_toks s c s' : parsecmd s = Ret c s' -> all_toks (tok_ok s) c.
Proof.
  unfold parsecmd. intros E. apply bind_inv in E as (c1 & s1 & E1 & E). destruct (yields_parse s (parse_fuel s)) as [H _].
  specialize (H s ltac:(reflexivity)). rewrite E1 in H. destruct H as [_ H].
  apply bind_inv in E as (b & s2 & E2 & E). apply bind_inv in E as (r & s3 & E3 & E). destruct r; [|done]. by injection E as <- _.
Qed.

(** The buffer while NULs are written: only characters that belong to no word
    change. *)
Definition kept (s buf : list Z) : Prop :=
  length buf = length s /\
  forall i c, s !! i = Some c -> buf !! i = Some c \/ buf !! i = Some 0 /\ ord c = false.
Definition cut (s buf : list Z) (t : token) : Prop :=
  t.2 = [] \/ buf !! (length s - length t.2)%nat = Some 0.
Definition zeros (buf buf' : list Z) : Prop := forall i, buf !! i = Some 0 -> buf' !! i = Some 0.

Lemma put_nul_step s buf t :
  kept s buf -> tok_ok s t -> kept s (put_nul buf t.2) /\ zeros buf (put_nul buf t.2) /\ cut s (put_nul buf t.2) t.
Proof.
  intros [Hl Hk] (pre & txt & Es & Eq & _ & Hh). unfold put_nul. rewrite Hl.
  set (i := (length s - length t.2)%nat).
  assert (Hz : zeros buf (<[i := 0]> buf)).
  { intros j Hj. destruct (decide (i = j)) as [<-|]; [|by rewrite list_lookup_insert_ne].
    rewrite list_lookup_insert_eq; [done|]. by eapply lookup_lt_Some. }
  split_and!; [|done|].
  - split; [by rewrite length_insert|]. intros j c Hj. destruct (decide (i = j)) as [<-|]; [|rewrite list_lookup_insert_ne by done; by apply Hk].
    rewrite list_lookup_insert_eq by (apply lookup_lt_Some in Hj; lia). right. split; [done|].
    rewrite Es, Eq, app_assoc in Hj. unfold i in Hj. rewrite Es, Eq, app_assoc, length_app in Hj.
    replace (length (pre ++ txt) + length t.2 - length t.2)%nat with (length (pre ++ txt)) in Hj by lia.
    rewrite lookup_app_r, Nat.sub_diag in Hj by lia. destruct t.2 as [|d e]; [done|]. cbn in Hj. by simplify_eq.
  - destruct (decide (t.2 = [])) as [|Hne]; [by left|right]. fold i. apply list_lookup_insert_eq. rewrite Hl.
    unfold i. rewrite Es, Eq, !length_app. destruct t.2; [done|]. cbn. lia.
Qed.

Lemma zeros_cut s buf buf' t : zeros buf buf' -> cut s buf t -> cut s buf' t.
Proof. intros Hz [H|H]; [by left|right; by apply Hz]. Qed.
Lemma all_toks_impl {T} (P Q : T -> Prop) c : (forall t, P t -> Q t) -> all_toks P c -> all_toks Q c.
Proof. intros H. induction c; cbn; try tauto; [intros; by eapply Forall_impl|naive_solver]. Qed.

Lemma put_nuls_step s ts : forall buf,
  kept s buf -> Forall (tok_ok s) ts ->
  let buf' := fold_left (fun b t => put_nul b t.2) ts buf in kept s buf' /\ zeros buf buf' /\ Forall (cut s buf') ts.
Proof.
  induction ts as [|t ts IH]; intros buf Hk Ht; [split_and!; [done|by intros i|constructor]|].
  apply Forall_cons in Ht as [Ht Hts]. cbn [fold_left]. destruct (put_nul_step s buf t Hk Ht) as (Hk1 & Hz1 & Hc1).
  destruct (IH _ Hk1 Hts) as (Hk2 & Hz2 & Hc2). split_and!; [done|intros i Hi; by apply Hz2, Hz1|].
  constructor; [by eapply zeros_cut|done].
Qed.

Lemma nulterminate_step s c : forall buf,
  kept s buf -> all_toks (tok_ok s) c ->
  kept s (nulterminate c buf) /\ zeros buf (nulterminate c buf) /\ all_toks (cut s (nulterminate c buf)) c.
Proof.
  induction c as [ts|c IH t m fd|l IHl r IHr|l IHl r IHr|c IH]; intros buf Hk Ht; cbn [nulterminate all_toks] in *.
  - by apply put_nuls_step.
  - destruct Ht as [Hc Ht]. destruct (IH buf Hk Hc) as (Hk1 & Hz1 & Hc1). destruct (put_nul_step s _ t Hk1 Ht) as (Hk2 & Hz2 & Hc2).
    split_and!; [done|intros i Hi; by apply Hz2, Hz1| |done]. eapply all_toks_impl; [|exact Hc1]. intros u. by apply zeros_cut.
  - destruct Ht as [Hl Hr]. destruct (IHl buf Hk Hl) as (Hk1 & Hz1 & Hc1). destruct (IHr _ Hk1 Hr) as (Hk2 & Hz2 & Hc2).
    split_and!; [done|intros i Hi; by apply Hz2, Hz1| |done]. eapply all_toks_impl; [|exact Hc1]. intros u. by apply zeros_cut.
  - destruct Ht as [Hl Hr]. destruct (IHl buf Hk Hl) as (Hk1 & Hz1 & Hc1). destruct (IHr _ Hk1 Hr) as (Hk2 & Hz2 & Hc2).
    split_and!; [done|intros i Hi; by apply Hz2, Hz1| |done]. eapply all_toks_impl; [|exact Hc1]. intros u. by apply zeros_cut.
  - by apply IH.
Qed.

Lemma upto_nul_app w r : Forall (fun c => c <> 0) w -> r = [] \/ hd 1 r = 0 -> upto_nul (w ++ r) = w.
Proof.
  intros Hw Hr. induction Hw as [|c w Hc _ IH]; cbn.
  - destruct Hr as [->|Hr]; [done|]. destruct r as [|d r]; [done|]. cbn in Hr. by subst d.
  - destruct (Z.eqb_spec c 0); [done|]. by rewrite IH.
Qed.

(** A word of the final buffer. *)
Lemma cstring_text s buf t :
  Forall (fun c => c <> 0) s -> kept s buf -> tok_ok s t -> cut s buf t -> cstring buf t.1 = text t.
Proof.
  intros Hs [Hl Hk] (pre & txt & Es & Eq & Ho & _) Hcut. unfold cstring, text. rewrite Hl.
  assert (El : (length s - length t.1)%nat = length pre) by (rewrite Es, length_app; lia). rewrite El.
  assert (Et : take (length t.1 - length t.2) t.1 = txt) by (rewrite Eq at 2; rewrite Eq, length_app, Nat.add_sub; apply take_app_length).
  rewrite Et. assert (Ed : drop (length pre) buf = txt ++ drop (length pre + length txt) buf).
  { rewrite <- drop_drop. rewrite <- (take_drop (length txt) (drop (length pre) buf)) at 1. f_equal.
    apply list_eq. intros i. destruct (Nat.lt_ge_cases i (length txt)) as [Hi|Hi].
    - destruct (lookup_lt_is_Some_2 txt i Hi) as [c Hc]. rewrite lookup_take_lt, lookup_drop, Hc by done.
      assert (Hsi : s !! (length pre + i)%nat = Some c).
      { rewrite Es, Eq, lookup_app_r by lia. replace (length pre + i - length pre)%nat with i by lia. by rewrite lookup_app_l. }
      destruct (Hk _ _ Hsi) as [H|[_ H]]; [done|]. rewrite Forall_lookup in Ho. rewrite (Ho i c Hc) in H. done.
    - rewrite lookup_take_ge by done. symmetry. by apply lookup_ge_None. }
  rewrite Ed. apply upto_nul_app.
  - rewrite Es, Eq in Hs. apply Forall_app in Hs as [_ Hs]. by apply Forall_app in Hs as [Hs _].
  - destruct Hcut as [E|E].
    + left. apply drop_ge. rewrite Hl, Es, Eq, E, !length_app. cbn. lia.
    + right. assert (Ei : (length s - length t.2)%nat = (length pre + length txt)%nat) by (rewrite Es, Eq, !length_app; lia).
      rewrite Ei in E. apply drop_S in E. by rewrite E.
Qed.

(** [nulterminate] hands the commands the right strings: on a line without NUL
    bytes, the C strings that the argument and file pointers point to after the
    NULs have been written into the buffer are exactly the words the parser
    found. *)
Theorem nulterminate_words s c :
  Forall (fun c => c <> 0) s -> parsecmd s = Ret c [] ->
  exists buf, parsecmd_nul s = Ret (cmap text c) buf /\ length buf = length s.
Proof.
  intros Hs E. pose proof (parsecmd_toks _ _ _ E) as Ht. unfold parsecmd_nul. rewrite E.
  destruct (nulterminate_step s c s) as (Hk & _ & Hc); [split; [done|by left]|done|]. eexists. split; [|apply Hk]. f_equal.
  unfold strings_in. revert Ht Hc. generalize (nulterminate c s) Hk. intros buf Hb. clear -Hs Hb.
  induction c as [ts|c IH t m fd|l IHl r IHr|l IHl r IHr|c IH]; cbn [all_toks cmap]; intros Ht Hc.
  - f_equal. rewrite Forall_forall in Ht, Hc. apply list_fmap_ext. intros i t Hi. apply list_elem_of_lookup_2 in Hi.
    apply (cstring_text s); auto.
  - destruct Ht, Hc. rewrite IH by done. f_equal. by apply (cstring_text s).
  - destruct Ht, Hc. by rewrite IHl, IHr.
  - destruct Ht, Hc. by rewrite IHl, IHr.
  - by rewrite IH.
Qed.

Lemma nulterminate_words_witness :
  exists c buf, parsecmd_nul (str "echo hi>f|wc") = Ret (cmap text c) buf /\
    cmap text c = PIPE (REDIR (EXEC [str "echo"; str "hi"]) (str "f") (Z.lor O_WRONLY O_CREATE) 1) (EXEC [str "wc"]).
Proof.
  eassert (E : parsecmd (str "echo hi>f|wc") = Ret _ []) by (vm_compute; reflexivity).
  destruct (nulterminate_words (str "echo hi>f|wc") _ ltac:(repeat constructor; done) E) as (buf & Eb & _).
  eexists _, buf. split; [exact Eb|]. vm_compute. reflexivity.
Defined.

(** ** Descriptors *)

Inductive obj := Console | FileAt (path : list Z) (mode : Z) | PipeR (id : nat) | PipeW (id : nat).
Notation fdtab := (list (option obj)).

(** A new descriptor is the lowest free one. *)
Fixpoint lowest (t : fdtab) : nat :=
  match t with
  | None :: _ => 0
  | Some _ :: t' => S (lowest t')
  | [] => 0
  end.
Definition fd_new (o : option obj) (t : fdtab) : Z * fdtab := (Z.of_nat (lowest t), <[lowest t := o]> t).
Definition fd_get (t : fdtab) (fd : Z) : option obj := match t !! Z.to_nat fd with Some o => o | None => None end.
Definition fd_close (t : fdtab) (fd : Z) : fdtab := <[Z.to_nat fd := None]> t.

(** The programs that a tree of calls starts, with their descriptors, when every
    call succeeds: a [Fork] is both the child (0) and the parent.  [n] numbers the
    pipes. *)
Fixpoint run (p : prog) (t : fdtab) (n : nat) : list (list (list Z) * fdtab) * nat :=
  match p with
  | Exit => ([], n)
  | Exec _ argv _ => ([(argv, t)], n)
  | Open path mode k => let '(fd, t) := fd_new (Some (FileAt path mode)) t in run (k fd) t n
  | Close fd k => run k (fd_close t fd) n
  | Dup fd k => run k (fd_new (fd_get t fd) t).2 n
  | Pipe k =>
      let '(p0, t) := fd_new (Some (PipeR n)) t in
      let '(p1, t) := fd_new (Some (PipeW n)) t in
      run (k (Some (p0, p1))) t (S n)
  | Fork k =>
      let '(child, n) := run (k 0) t n in
      let '(parent, n) := run (k 1) t n in
      (child ++ parent, n)
  | Wait k => run k t n
  | Chdir _ k => run (k 0) t n
  | Write _ _ k => run k t n
  end.

(** The meaning of a command: the programs with their standard input and output. *)
Fixpoint denote (c : cmd (list Z)) (i o : obj) (n : nat) : list (list (list Z) * obj * obj) * nat :=
  match c with
  | EXEC [] => ([], n)
  | EXEC argv => ([(argv, i, o)], n)
  | REDIR c f mode fd => if fd =? 0 then denote c (FileAt f mode) o n else denote c i (FileAt f mode) n
  | PIPE l r =>
      let '(a, n1) := denote l i (PipeW n) (S n) in
      let '(b, n2) := denote r (PipeR n) o n1 in
      (a ++ b, n2)
  | LIST l r =>
      let '(a, n1) := denote l i o n in
      let '(b, n2) := denote r i o n1 in
      (a ++ b, n2)
  | BACK c => denote c i o n
  end.

(** Descriptors 0, 1 and 2 and no others. *)
Definition std_tab (i o e : obj) : fdtab := [Some i; Some o; Some e] ++ replicate 13 None.

Fixpoint std_redirs (c : cmd (list Z)) : Prop :=
  match c with
  | EXEC _ => True
  | REDIR c _ _ fd => std_redirs c /\ (fd = 0 \/ fd = 1)
  | PIPE l r | LIST l r => std_redirs l /\ std_redirs r
  | BACK c => std_redirs c
  end.

Lemma run_fork k t n :
  run (fork1 k) t n = (let '(a, n) := run (k 0) t n in let '(b, n) := run (k 1) t n in (a ++ b, n)).
Proof. done. Qed.

Definition place (e : obj) (x : list (list Z) * obj * obj) : list (list Z) * fdtab := (x.1.1, std_tab x.1.2 x.2 e).

(** C32. [runcmd] connects commands as the line says.  Started with descriptors 0, 1 and 2
    only, it runs exactly the programs of the command's meaning, in order; each
    one gets the input and output its pipes and redirections call for, and no
    other descriptor is left open in it, so that the reader of a pipe sees its
    end. *)
Theorem runcmd_plumbing c : forall i o e n,
  std_redirs c ->
  run (runcmd c) (std_tab i o e) n = (place e <$> (denote c i o n).1, (denote c i o n).2).
Proof.
  induction c as [argv|c IH f mode fd|l IHl r IHr|l IHl r IHr|c IH]; intros i o e n Hs; cbn [std_redirs] in Hs.
  - by destruct argv.
  - destruct Hs as [Hs [-> | ->]]; cbn [runcmd run denote Z.eqb]; unfold fd_new, fd_close; cbn [std_tab app lowest];
      [apply (IH (FileAt f mode) o e n Hs)|apply (IH i (FileAt f mode) e n Hs)].
  - destruct Hs as [Hl Hr]. cbn [runcmd run denote]. unfold fd_new. rewrite run_fork. cbn [Z.eqb run].
    unfold fd_close, fd_new, fd_get. cbn [std_tab app lowest snd].
    change (run (runcmd l) _ (S n)) with (run (runcmd l) (std_tab i (PipeW n) e) (S n)).
    rewrite (IHl i (PipeW n) e (S n) Hl). destruct (denote l i (PipeW n) (S n)) as [a n1]. cbn [fst snd].
    rewrite run_fork. cbn [Z.eqb run]. unfold fd_close, fd_new, fd_get. cbn [lowest snd].
    change (run (runcmd r) _ n1) with (run (runcmd r) (std_tab (PipeR n) o e) n1).
    rewrite (IHr (PipeR n) o e n1 Hr). destruct (denote r (PipeR n) o n1) as [b n2]. cbn [fst snd].
    by rewrite app_nil_r, fmap_app.
  - destruct Hs as [Hl Hr]. cbn [runcmd denote]. rewrite run_fork. cbn [Z.eqb run].
    rewrite (IHl i o e n Hl). destruct (denote l i o n) as [a n1]. cbn [fst snd].
    rewrite (IHr i o e n1 Hr). destruct (denote r i o n1) as [b n2]. cbn [fst snd]. by rewrite fmap_app.
  - cbn [runcmd denote]. rewrite run_fork. cbn [Z.eqb run]. rewrite (IH i o e n Hs).
    destruct (denote c i o n) as [a n1]. cbn [fst snd]. by rewrite app_nil_r.
Qed.

Lemma runcmd_plumbing_witness :
  run (runcmd (PIPE (REDIR (EXEC [str "cat"]) (str "f") O_RDONLY 0) (EXEC [str "wc"]))) (std_tab Console Console Console) 0 =
  ([([str "cat"], std_tab (FileAt (str "f") O_RDONLY) (PipeW 0) Console);
    ([str "wc"], std_tab (PipeR 0) Console Console)], 1%nat).
Proof. apply (runcmd_plumbing (PIPE (REDIR (EXEC [str "cat"]) (str "f") O_RDONLY 0) (EXEC [str "wc"]))). cbn. auto. Defined.
