(* ===== verification/Console.v ===== *)
(** * The console (console.c), the serial port (uart.c) and the keyboard (kbd.c)

    Output goes to the serial port, as the sequence of bytes written to its
    ports, and to the screen, as the cells of CGA memory and the cursor
    registers.  Input goes through a circular buffer with a read, a write and an
    edit index.  A function that waits for ever ([for(;;);]) has no result for
    any amount of fuel. *)
From S2P Require Import Prelude Traps Ulib Printf.

(** ** State *)

(** [lsr t] is what the [t]-th read of the line status register gives. *)
Record uartdev := mk_uartdev {
  uart : bool;
  lsr : Z -> Z;
  now : Z;
  com1 : list (Z * Z)      (* writes to the ports, oldest first *)
}.

Record screen := mk_screen {
  curhi : Z;               (* registers 14 and 15 of the CRT controller *)
  curlo : Z;
  crt : list Z             (* 25 rows of 80 cells *)
}.

Definition INPUT_BUF : Z := 128.

Record inputbuf := mk_input {
  ibuf : list Z;
  ir : Z;
  iw : Z;
  ie : Z
}.

Record console := mk_console {
  panicked : bool;
  locking : bool;
  held : bool;             (* cons.lock is held by this CPU *)
  dev : uartdev;
  scr : screen;
  input : inputbuf;
  wakeups : Z;             (* calls of wakeup(&input.r) *)
  ioapic : list (Z * Z);   (* calls of ioapicenable *)
  ip_locked : bool         (* the lock of the console's inode *)
}.

Notation C := (M console).

Definition set_panicked b (s : console) :=
  mk_console b (locking s) (held s) (dev s) (scr s) (input s) (wakeups s) (ioapic s) (ip_locked s).
Definition set_locking b (s : console) :=
  mk_console (panicked s) b (held s) (dev s) (scr s) (input s) (wakeups s) (ioapic s) (ip_locked s).
Definition set_held b (s : console) :=
  mk_console (panicked s) (locking s) b (dev s) (scr s) (input s) (wakeups s) (ioapic s) (ip_locked s).
Definition set_dev d (s : console) :=
  mk_console (panicked s) (locking s) (held s) d (scr s) (input s) (wakeups s) (ioapic s) (ip_locked s).
Definition set_scr d (s : console) :=
  mk_console (panicked s) (locking s) (held s) (dev s) d (input s) (wakeups s) (ioapic s) (ip_locked s).
Definition set_input i (s : console) :=
  mk_console (panicked s) (locking s) (held s) (dev s) (scr s) i (wakeups s) (ioapic s) (ip_locked s).
Definition wakeup_r (s : console) :=
  mk_console (panicked s) (locking s) (held s) (dev s) (scr s) (input s) (wakeups s + 1) (ioapic s) (ip_locked s).
Definition enable (irq cpu : Z) (s : console) :=
  mk_console (panicked s) (locking s) (held s) (dev s) (scr s) (input s) (wakeups s)
    (ioapic s ++ [(irq, cpu)]) (ip_locked s).
Definition set_ip_locked b (s : console) :=
  mk_console (panicked s) (locking s) (held s) (dev s) (scr s) (input s) (wakeups s) (ioapic s) b.

(** The console lock, as the CPU that runs this code sees it: [acquire] and
    [release] panic as in spinlock.c. *)
Definition acquire_cons : C unit :=
  let* h := gets held in if h then panic "acquire" else modify (set_held true).
Definition release_cons : C unit :=
  let* h := gets held in if h then modify (set_held false) else panic "release".

(** ** The serial port *)

Definition COM1 : Z := 0x3f8.

Definition outb_com1 (port v : Z) : C unit :=
  modify (fun s => let d := dev s in
    set_dev (mk_uartdev (uart d) (lsr d) (now d) (com1 d ++ [(port, u8 v)])) s).
Definition inb_lsr : C Z :=
  fun s => let d := dev s in
    Ret (u8 (lsr d (now d))) (set_dev (mk_uartdev (uart d) (lsr d) (now d + 1) (com1 d)) s).
Definition set_uart (b : bool) : C unit :=
  modify (fun s => let d := dev s in set_dev (mk_uartdev b (lsr d) (now d) (com1 d)) s).

(** Wait until the transmitter is ready, for at most [n] polls. *)
Fixpoint tx_wait (n : nat) : C unit :=
  match n with
  | O => ret tt
  | S k => let* st := inb_lsr in if Z.land st 0x20 =? 0 then tx_wait k else ret tt
  end.

Definition uartputc (c : Z) : C unit :=
  let* u := gets (fun s => uart (dev s)) in
  if negb u then ret tt
  else
    do* tx_wait 128 in
    outb_com1 (COM1 + 0) c.

Fixpoint uartputs (p : list Z) : C unit :=
  match p with
  | [] => ret tt
  | c :: p' => do* uartputc c in uartputs p'
  end.


(** The two reads that acknowledge old interrupts change nothing here. *)
Definition uartinit : C unit :=
  do* outb_com1 (COM1 + 2) 0 in
  do* outb_com1 (COM1 + 3) 0x80 in
  do* outb_com1 (COM1 + 0) (115200 / 9600) in
  do* outb_com1 (COM1 + 1) 0 in
  do* outb_com1 (COM1 + 3) 0x03 in
  do* outb_com1 (COM1 + 4) 0 in
  do* outb_com1 (COM1 + 1) 0x01 in
  let* st := inb_lsr in
  if st =? 0xFF then ret tt
  else
    do* set_uart true in
    do* modify (enable IRQ_COM1 0) in
    uartputs (str "xv6..." ++ [NL]).

(** What has been received and not yet read; bit 0 of the status says whether
    there is any.  [None] is an access outside an array, which this function has
    none of. *)
Definition uartgetc (u : bool) (rx : list Z) : option (Z * list Z) :=
  if negb u then Some (-1, rx)
  else match rx with
       | [] => Some (-1, rx)
       | b :: rx' => Some (u8 b, rx')
       end.

(** ** The screen *)

Definition BACKSPACE : Z := 0x100.
Definition CELLS : Z := 25 * 80.

Definition crt_store (pos v : Z) : C unit :=
  let* sc := gets scr in
  match zset (crt sc) pos v with
  | Some l => modify (set_scr (mk_screen (curhi sc) (curlo sc) l))
  | None => fault "crt"
  end.

Definition set_cursor (pos : Z) : C unit :=
  modify (fun s => set_scr (mk_screen (u8 (Z.shiftr pos 8)) (u8 pos) (crt (scr s))) s).

(** The [memmove] of 23 rows up by one, and the [memset] from [pos] to the end of
    row 23. *)
Definition scroll_up (l : list Z) (pos : Z) : list Z :=
  let l := take (23 * 80) (drop 80 l) ++ drop (23 * 80) l in
  take (Z.to_nat pos) l ++ replicate (24 * 80 - Z.to_nat pos) 0 ++ drop (24 * 80) l.

Definition cgaputc (c : Z) : C unit :=
  let* sc := gets scr in
  let pos := Z.lor (Z.shiftl (curhi sc) 8) (curlo sc) in
  let* pos :=
    (if c =? NL then ret (pos + (80 - pos mod 80))
     else if c =? BACKSPACE then ret (if 0 <? pos then pos - 1 else pos)
     else do* crt_store pos (Z.lor (Z.land c 0xff) 0x0700) in ret (pos + 1)) in
  if (pos <? 0) || (CELLS <? pos) then panic "pos under/overflow"
  else
    let* pos :=
      (if 24 <=? pos / 80 then
         let pos := pos - 80 in
         do* modify (fun s => set_scr (mk_screen (curhi (scr s)) (curlo (scr s)) (scroll_up (crt (scr s)) pos)) s) in
         ret pos
       else ret pos) in
    do* set_cursor pos in
    crt_store pos (Z.lor 32 0x0700).

Definition consputc (c : Z) : C unit :=
  let* p := gets panicked in
  if p then fun _ => OutOfFuel
  else
    do* (if c =? BACKSPACE then do* uartputc 8 in do* uartputc 32 in uartputc 8
         else uartputc c) in
    cgaputc c.

Fixpoint consputs (l : list Z) : C unit :=
  match l with
  | [] => ret tt
  | c :: l' => do* consputc c in consputs l'
  end.

(** ** Formatted output *)

Definition kdigits : list Z := str "0123456789abcdef".

(** The digits are collected in [buf] and printed backwards, as in printf.c. *)
Definition kprintint (xx base : Z) (sgn : bool) : C unit :=
  match printint kdigits xx base sgn with
  | Some b => consputs b
  | None => fault "buf"
  end.

Section Cprintf.
Context (strat : Z -> list Z).

Fixpoint cprintf_loop (fmt ap : list Z) : C unit :=
  match fmt with
  | [] => ret tt
  | c :: fmt' =>
      let c := Z.land c 0xff in
      if negb (c =? ch "%") then do* consputc c in cprintf_loop fmt' ap
      else
        match fmt' with
        | [] => ret tt
        | c :: fmt' =>
            let c := Z.land c 0xff in
            if c =? ch "d" then
              match ap with
              | [] => fault "argp"
              | a :: ap' => do* kprintint (s32 a) 10 true in cprintf_loop fmt' ap'
              end
            else if (c =? ch "x") || (c =? ch "p") then
              match ap with
              | [] => fault "argp"
              | a :: ap' => do* kprintint (s32 a) 16 false in cprintf_loop fmt' ap'
              end
            else if c =? ch "s" then
              match ap with
              | [] => fault "argp"
              | a :: ap' => do* consputs (s8 <$> str_arg strat a) in cprintf_loop fmt' ap'
              end
            else if c =? ch "c" then
              match ap with
              | [] => fault "argp"
              | a :: ap' => do* consputc (s8 a) in cprintf_loop fmt' ap'
              end
            else if c =? ch "%" then do* consputc (ch "%") in cprintf_loop fmt' ap
            else do* consputc (ch "%") in do* consputc c in cprintf_loop fmt' ap
        end
  end.

(** [None] is the null pointer. *)
Definition cprintf (fmt : option (list Z)) (ap : list Z) : C unit :=
  let* locking := gets locking in
  let* holding := gets held in
  do* (if locking && negb holding then acquire_cons else ret tt) in
  match fmt with
  | None => panic "null fmt"
  | Some fmt =>
      do* cprintf_loop fmt ap in
      if locking then release_cons else ret tt
  end.

(** [panic] up to its endless loop; [pcs] is what [getcallerpcs] has stored. *)
Definition kpanic (lapicid : Z) (msg : list Z) (pcs : list Z) : C unit :=
  do* modify (set_locking false) in
  do* cprintf (Some (str "lapicid %d: panic: ")) [lapicid] in
  do* cprintf (Some msg) [] in
  do* cprintf (Some [NL]) [] in
  do* (fix each pcs := match pcs with
                       | [] => ret tt
                       | pc :: pcs => do* cprintf (Some (str " %p")) [pc] in each pcs
                       end) pcs in
  modify (set_panicked true).
End Cprintf.

(** [getcallerpcs] (spinlock.c) follows the saved frame pointers; [word a] is the
    word at address [a].  Ten entries, zero after the last frame. *)
Fixpoint getcallerpcs_loop (word : Z -> Z) (n : nat) (ebp : Z) : list Z :=
  match n with
  | O => []
  | S k =>
      if (ebp =? 0) || (ebp <? 0x80000000) || (ebp =? 0xffffffff) then replicate (S k) 0
      else word (u32 (ebp + 4)) :: getcallerpcs_loop word k (word ebp)
  end.
Definition getcallerpcs (word : Z -> Z) (v : Z) : list Z := getcallerpcs_loop word 10 (u32 (v - 8)).

(** ** Input *)

Definition Ctl (x : Z) : Z := x - 64.

Definition at_index (l : list Z) (i : Z) : Z := default 0 (l !! Z.to_nat (i mod INPUT_BUF)).
Definition store_index (l : list Z) (i v : Z) : list Z := <[Z.to_nat (i mod INPUT_BUF) := v]> l.

Definition set_e (e : Z) : C unit :=
  modify (fun s => let i := input s in set_input (mk_input (ibuf i) (ir i) (iw i) e) s).
Definition set_w (w : Z) : C unit :=
  modify (fun s => let i := input s in set_input (mk_input (ibuf i) (ir i) w (ie i)) s).
Definition set_r (r : Z) : C unit :=
  modify (fun s => let i := input s in set_input (mk_input (ibuf i) r (iw i) (ie i)) s).
Definition set_buf (l : list Z) : C unit :=
  modify (fun s => let i := input s in set_input (mk_input l (ir i) (iw i) (ie i)) s).

(** The loop of control-U.  It can erase every character of the buffer. *)
Fixpoint kill_line (fuel : nat) : C unit :=
  match fuel with
  | O => fun _ => OutOfFuel
  | S k =>
      let* i := gets input in
      if negb (ie i =? iw i) && negb (at_index (ibuf i) (u32 (ie i - 1)) =? NL) then
        do* set_e (u32 (ie i - 1)) in
        do* consputc BACKSPACE in
        kill_line k
      else ret tt
  end.

(** One key; the result says whether a process listing was asked for. *)
Definition console_key (c : Z) : C bool :=
  if c =? Ctl (ch "P") then ret true
  else if c =? Ctl (ch "U") then do* kill_line 129 in ret false
  else if (c =? Ctl (ch "H")) || (c =? 0x7f) then
    let* i := gets input in
    if negb (ie i =? iw i) then
      do* set_e (u32 (ie i - 1)) in
      do* consputc BACKSPACE in
      ret false
    else ret false
  else
    let* i := gets input in
    if negb (c =? 0) && (u32 (ie i - ir i) <? INPUT_BUF) then
      let c := if c =? 13 then NL else c in
      do* set_buf (store_index (ibuf i) (ie i) (s8 c)) in
      let e := u32 (ie i + 1) in
      do* set_e e in
      do* consputc c in
      if (c =? NL) || (c =? Ctl (ch "D")) || (e =? u32 (ir i + INPUT_BUF)) then
        do* set_w e in
        do* modify wakeup_r in
        ret false
      else ret false
    else ret false.

Section Consoleintr.
(** The device that [getc] reads; [None] when [getc] reads outside an array. *)
Context {D : Type} (getc : D -> option (Z * D)).

Fixpoint consoleintr_loop (fuel : nat) (d : D) (doprocdump : bool) : C (bool * D) :=
  match fuel with
  | O => fun _ => OutOfFuel
  | S k =>
      match getc d with
      | None => fault "getc: index outside a table"
      | Some (c, d) =>
          if 0 <=? c then
            let* dump := console_key c in
            consoleintr_loop k d (doprocdump || dump)
          else ret (doprocdump, d)
      end
  end.

(** The result says whether [procdump] is called at the end. *)
Definition consoleintr (fuel : nat) (d : D) : C (bool * D) :=
  do* acquire_cons in
  let* r := consoleintr_loop fuel d false in
  do* release_cons in
  ret r.
End Consoleintr.

Definition uartintr (rx : list Z) : C (bool * list Z) :=
  let* u := gets (fun s => uart (dev s)) in
  consoleintr (uartgetc u) (S (length rx)) rx.

(** How a turn of [consoleread] ends: with its return value and the bytes copied, or
    asleep on [&input.r] with [n] bytes still wanted. *)
Inductive readres :=
| RdRet (ret : Z) (dst : list Z)
| RdSleep (n : nat) (dst : list Z).

Inductive loopres :=
| LpBreak (n : nat) (dst : list Z)
| LpKilled (dst : list Z)
| LpSleep (n : nat) (dst : list Z).

Fixpoint read_loop (killed : bool) (target : Z) (n : nat) (dst : list Z) : C loopres :=
  match n with
  | O => ret (LpBreak O dst)
  | S n' =>
      let* i := gets input in
      if ir i =? iw i then ret (if killed then LpKilled dst else LpSleep n dst)
      else
        let c := at_index (ibuf i) (ir i) in
        do* set_r (u32 (ir i + 1)) in
        if c =? Ctl (ch "D") then
          if Z.of_nat n <? target then do* set_r (ir i) in ret (LpBreak n dst)
          else ret (LpBreak n dst)
        else
          let dst := dst ++ [u8 c] in
          if c =? NL then ret (LpBreak n' dst)
          else read_loop killed target n' dst
  end.

(** [sleep] gives the lock up and takes it again before it returns, so a sleeping
    reader's next turn starts with [acquire_cons] again. *)
Definition consoleread_turn (killed : bool) (target : Z) (n : nat) (dst : list Z) : C readres :=
  do* acquire_cons in
  let* r := read_loop killed target n dst in
  do* release_cons in
  match r with
  | LpSleep n dst => ret (RdSleep n dst)
  | LpKilled dst => do* modify (set_ip_locked true) in ret (RdRet (-1) dst)
  | LpBreak n dst => do* modify (set_ip_locked true) in ret (RdRet (target - Z.of_nat n) dst)
  end.

Definition consoleread (killed : bool) (n : Z) : C readres :=
  do* modify (set_ip_locked false) in
  if 0 <? n then consoleread_turn killed n (Z.to_nat n) []
  else
    do* acquire_cons in
    do* release_cons in
    do* modify (set_ip_locked true) in
    ret (RdRet 0 []).

Definition consolewrite (buf : list Z) : C Z :=
  do* modify (set_ip_locked false) in
  do* acquire_cons in
  do* consputs ((fun b => Z.land b 0xff) <$> buf) in
  do* release_cons in
  do* modify (set_ip_locked true) in
  ret (Z.of_nat (length buf)).

(** The entries of [devsw] are [consoleread] and [consolewrite]. *)
Definition consoleinit : C unit :=
  do* modify (set_held false) in
  do* modify (set_locking true) in
  modify (enable IRQ_KBD 0).

(** ** The keyboard *)

Definition SHIFT : Z := 1.
Definition CTL : Z := 2.
Definition ALT : Z := 4.
Definition CAPSLOCK : Z := 8.
Definition NUMLOCK : Z := 16.
Definition SCROLLLOCK : Z := 32.
Definition E0ESC : Z := 64.

(** A table of 256 entries: the first ones, and entries given by index; the others
    are zero. *)
Definition table (first : list Z) (others : list (Z * Z)) : list Z :=
  foldl (fun t x => <[Z.to_nat x.1 := x.2]> t) (first ++ replicate (256 - length first) 0) others.

Definition shiftcode : list Z := table []
  [(0x1D, CTL); (0x2A, SHIFT); (0x36, SHIFT); (0x38, ALT); (0x9D, CTL); (0xB8, ALT)].
Definition togglecode : list Z := table []
  [(0x3A, CAPSLOCK); (0x45, NUMLOCK); (0x46, SCROLLLOCK)].

Definition normalmap : list Z := table
  [0; 0x1B; 49; 50; 51; 52; 53; 54; 55; 56; 57; 48; 45; 61; 8; 9;
   113; 119; 101; 114; 116; 121; 117; 105; 111; 112; 91; 93; 10; 0; 97; 115;
   100; 102; 103; 104; 106; 107; 108; 59; 39; 96; 0; 92; 122; 120; 99; 118;
   98; 110; 109; 44; 46; 47; 0; 42; 0; 32; 0; 0; 0; 0; 0; 0;
   0; 0; 0; 0; 0; 0; 0; 55; 56; 57; 45; 52; 53; 54; 43; 49;
   50; 51; 48; 46; 0; 0; 0; 0]
  [(0x9C, 10); (0xB5, 47); (0xC8, 0xE2); (0xD0, 0xE3); (0xC9, 0xE6); (0xD1, 0xE7); (0xCB, 0xE4); (0xCD, 0xE5); (0x97, 0xE0); (0xCF, 0xE1); (0xD2, 0xE8); (0xD3, 0xE9)].
Definition shiftmap : list Z := table
  [0; 27; 33; 64; 35; 36; 37; 94; 38; 42; 40; 41; 95; 43; 8; 9;
   81; 87; 69; 82; 84; 89; 85; 73; 79; 80; 123; 125; 10; 0; 65; 83;
   68; 70; 71; 72; 74; 75; 76; 58; 34; 126; 0; 124; 90; 88; 67; 86;
   66; 78; 77; 60; 62; 63; 0; 42; 0; 32; 0; 0; 0; 0; 0; 0;
   0; 0; 0; 0; 0; 0; 0; 55; 56; 57; 45; 52; 53; 54; 43; 49;
   50; 51; 48; 46; 0; 0; 0; 0]
  [(0x9C, 10); (0xB5, 47); (0xC8, 0xE2); (0xD0, 0xE3); (0xC9, 0xE6); (0xD1, 0xE7); (0xCB, 0xE4); (0xCD, 0xE5); (0x97, 0xE0); (0xCF, 0xE1); (0xD2, 0xE8); (0xD3, 0xE9)].
Definition ctlmap : list Z := table
  [0; 0; 0; 0; 0; 0; 0; 0; 0; 0; 0; 0; 0; 0; 0; 0;
   17; 23; 5; 18; 20; 25; 21; 9; 15; 16; 0; 0; 13; 0; 1; 19;
   4; 6; 7; 8; 10; 11; 12; 0; 0; 0; 0; 28; 26; 24; 3; 22;
   2; 14; 13; 0; 0; 239; 0; 0]
  [(0x9C, 13); (0xB5, 239); (0xC8, 0xE2); (0xD0, 0xE3); (0xC9, 0xE6); (0xD1, 0xE7); (0xCB, 0xE4); (0xCD, 0xE5); (0x97, 0xE0); (0xCF, 0xE1); (0xD2, 0xE8); (0xD3, 0xE9)].

Definition charcode : list (list Z) := [normalmap; shiftmap; ctlmap; ctlmap].

(** The static [shift] of [kbdgetc] and the scan codes in the controller; its
    status bit [KBS_DIB] says whether there are any. *)
Record kbd := mk_kbd { shift : Z; scancodes : list Z }.

(** [None] when an index is outside its table. *)
Definition kbd_press (sh data : Z) : option (Z * Z) :=
  match zget shiftcode data, zget togglecode data with
  | Some sc, Some tc =>
      let sh := Z.lor sh sc in
      let sh := Z.lxor sh tc in
      match zget charcode (Z.land sh (Z.lor CTL SHIFT)) with
      | Some map =>
          match zget map data with
          | Some c =>
              let c :=
                if negb (Z.land sh CAPSLOCK =? 0) then
                  if (ch "a" <=? c) && (c <=? ch "z") then u32 (c + (ch "A" - ch "a"))
                  else if (ch "A" <=? c) && (c <=? ch "Z") then u32 (c + (ch "a" - ch "A"))
                  else c
                else c in
              Some (c, sh)
          | None => None
          end
      | None => None
      end
  | _, _ => None
  end.

Definition kbdgetc (k : kbd) : option (Z * kbd) :=
  match scancodes k with
  | [] => Some (-1, k)
  | data :: rest =>
      let sh := shift k in
      if data =? 0xE0 then Some (0, mk_kbd (Z.lor sh E0ESC) rest)
      else if negb (Z.land data 0x80 =? 0) then
        let data := if negb (Z.land sh E0ESC =? 0) then data else Z.land data 0x7F in
        match zget shiftcode data with
        | Some sc => Some (0, mk_kbd (Z.ldiff sh (Z.lor sc E0ESC)) rest)
        | None => None
        end
      else
        let '(sh, data) :=
          if negb (Z.land sh E0ESC =? 0) then (Z.ldiff sh E0ESC, Z.lor data 0x80) else (sh, data) in
        match kbd_press sh data with
        | Some (c, sh) => Some (c, mk_kbd sh rest)
        | None => None
        end
  end.

Definition kbdintr (k : kbd) : C (bool * kbd) :=
  consoleintr kbdgetc (S (length (scancodes k))) k.
