(* ===== verification/ConsoleProof.v ===== *)
(** * Correctness of the console

    Output: the cursor stays on the screen, the text before the cursor grows at
    its end and scrolls, and [cprintf] prints what printf.c prints.  Input: the
    circular buffer implements a line editor, and [consoleread] reads its
    lines. *)
From S2P Require Import Prelude Traps Ulib Printf Console.

(** ** The screen *)

Definition pos_of (sc : screen) : Z := Z.lor (Z.shiftl (curhi sc) 8) (curlo sc).

Definition screen_ok (sc : screen) : Prop :=
  0 <= curhi sc < 256 /\ 0 <= curlo sc < 256 /\ pos_of sc < 24 * 80 /\ Z.of_nat (length (crt sc)) = CELLS.

Lemma pos_of_add sc : 0 <= curlo sc < 256 -> pos_of sc = curhi sc * 256 + curlo sc.
Proof. intros. unfold pos_of. by rewrite (lor_shiftl_add _ _ 8) by (cbn; lia). Qed.

Lemma pos_of_bound sc : screen_ok sc -> 0 <= pos_of sc < 1920.
Proof. intros (H1 & H2 & H3 & _). rewrite pos_of_add in * by done. lia. Qed.

(** The text before the cursor. *)
Definition shown (sc : screen) : list Z := take (Z.to_nat (pos_of sc)) (crt sc).

Definition cell (c : Z) : Z := Z.lor (Z.land c 0xff) 0x0700.

(** The text before the cursor once [c] has been put, scrolling apart. *)
Definition put_text (c : Z) (sc : screen) : list Z :=
  if c =? NL then take (Z.to_nat (pos_of sc + (80 - pos_of sc mod 80))) (crt sc)
  else if c =? BACKSPACE then take (Z.to_nat (pos_of sc) - 1) (crt sc)
  else shown sc ++ [cell c].

Definition scrolled (t : list Z) : list Z := if (length t =? 1920)%nat then drop 80 t else t.

(** Reading the cursor back gives the position that was set. *)
Lemma cursor_at pos l : 0 <= pos < 65536 ->
  let sc := mk_screen (u8 (Z.shiftr pos 8)) (u8 pos) l in
  0 <= curhi sc < 256 /\ 0 <= curlo sc < 256 /\ pos_of sc = pos.
Proof.
  intros Hp sc. assert (H1 := u8_range (Z.shiftr pos 8)). assert (H2 := u8_range pos).
  split_and!; try apply H1; try apply H2. rewrite pos_of_add by done. cbn [curhi curlo sc].
  unfold u8. rewrite Z.shiftr_div_pow2 by lia. change (2 ^ 8) with 256.
  rewrite (Z.mod_small (pos / 256)) by (Z.div_mod_to_equations; lia). Z.div_mod_to_equations. lia.
Qed.

Lemma length_scroll_up l pos : Z.of_nat (length l) = CELLS -> 0 <= pos <= 1920 ->
  Z.of_nat (length (scroll_up l pos)) = CELLS.
Proof.
  unfold CELLS, scroll_up. intros Hl Hp.
  rewrite !length_app, length_take, length_replicate, length_drop, !length_app, length_take, !length_drop. lia.
Qed.

Lemma take_scroll_up l pos : Z.of_nat (length l) = CELLS -> 0 <= pos <= 1840 ->
  take (Z.to_nat pos) (scroll_up l pos) = drop 80 (take (Z.to_nat (pos + 80)) l).
Proof.
  unfold CELLS, scroll_up. intros Hl Hp. change (23 * 80)%nat with 1840%nat.
  rewrite take_app_le by (rewrite length_take, length_app, length_take, !length_drop; lia).
  rewrite take_take, Nat.min_id, take_app_le by (rewrite length_take, length_drop; lia).
  rewrite take_take, Nat.min_l by lia. rewrite take_drop_commute.
  do 2 f_equal. lia.
Qed.

Lemma crt_store_ok p v s : length (crt (scr s)) = 2000%nat -> 0 <= p < 2000 ->
  crt_store p v s = Ret tt (set_scr (mk_screen (curhi (scr s)) (curlo (scr s)) (<[Z.to_nat p := v]> (crt (scr s)))) s).
Proof.
  intros Hl Hp. unfold crt_store, bind, gets, zset. rewrite Hl.
  destruct (Z.leb_spec 0 p), (Z.ltb_spec p (Z.of_nat 2000)); try lia. done.
Qed.

(** The second half of [cgaputc], from a position on or just below row 23. *)
Definition cga_finish (pos : Z) : C unit :=
  if (pos <? 0) || (CELLS <? pos) then panic "pos under/overflow"
  else
    let* pos :=
      (if 24 <=? pos / 80 then
         let pos := pos - 80 in
         do* modify (fun s => set_scr (mk_screen (curhi (scr s)) (curlo (scr s)) (scroll_up (crt (scr s)) pos)) s) in
         ret pos
       else ret pos) in
    do* set_cursor pos in
    crt_store pos (Z.lor 32 0x0700).

Lemma cga_finish_ok pos s :
  Z.of_nat (length (crt (scr s))) = CELLS -> 0 <= pos <= 1920 ->
  exists sc, cga_finish pos s = Ret tt (set_scr sc s) /\ screen_ok sc /\
    shown sc = scrolled (take (Z.to_nat pos) (crt (scr s))).
Proof.
  intros Hl Hp. unfold cga_finish. unfold CELLS in *.
  destruct (Z.ltb_spec pos 0), (Z.ltb_spec (25 * 80) pos); try lia. cbn [orb].
  assert (Hw : forall p l, 0 <= p < 1920 -> length l = 2000%nat ->
    let sc := mk_screen (u8 (Z.shiftr p 8)) (u8 p) (<[Z.to_nat p := Z.lor 32 0x0700]> l) in
    screen_ok sc /\ shown sc = take (Z.to_nat p) l).
  { intros p l Hpp Hll sc. destruct (cursor_at p (<[Z.to_nat p := Z.lor 32 0x0700]> l)) as (E1 & E2 & E3); [lia|].
    fold sc in E1, E2, E3. unfold screen_ok, shown. rewrite E3. cbn [crt sc].
    rewrite length_insert, take_insert_ge by lia. split_and!; try done; unfold CELLS; lia. }
  unfold scrolled. rewrite length_take.
  destruct (Z.leb_spec 24 (pos / 80)) as [H24|H24].
  - assert (pos = 1920) as -> by (Z.div_mod_to_equations; lia).
    unfold set_cursor, bind, modify, ret. cbn iota beta zeta.
    rewrite crt_store_ok; cbn [scr set_scr crt curhi curlo];
      [|apply Nat2Z.inj; by rewrite length_scroll_up|lia].
    eexists. split; [reflexivity|]. pose proof (length_scroll_up (crt (scr s)) 1840 Hl ltac:(lia)) as Hs. unfold CELLS in Hs.
    destruct (Hw 1840 (scroll_up (crt (scr s)) 1840)) as [Hk Ht]; [lia|lia|]. split; [exact Hk|]. etransitivity; [exact Ht|].
    rewrite take_scroll_up by (done || lia). by replace (Z.to_nat 1920 `min` length (crt (scr s)))%nat with 1920%nat by lia.
  - unfold set_cursor, bind, modify, ret. cbn iota beta zeta. assert (pos < 1920) by (Z.div_mod_to_equations; lia).
    rewrite crt_store_ok; cbn [scr set_scr crt curhi curlo]; [|lia|lia].
    eexists. split; [reflexivity|]. destruct (Hw pos (crt (scr s))) as [Hk Ht]; [lia|lia|]. split; [exact Hk|].
    etransitivity; [exact Ht|]. destruct (Nat.eqb_spec (Z.to_nat pos `min` length (crt (scr s))) 1920); [lia|done].
Qed.

Lemma cgaputc_ok c s : screen_ok (scr s) ->
  exists sc, cgaputc c s = Ret tt (set_scr sc s) /\ screen_ok sc /\ shown sc = scrolled (put_text c (scr s)).
Proof.
  intros Hs. pose proof (pos_of_bound _ Hs) as Hp. destruct Hs as (H1 & H2 & H3 & Hl).
  unfold put_text. set (pos := pos_of (scr s)) in *.
  assert (E : cgaputc c s = (let* p := (if c =? NL then ret (pos + (80 - pos mod 80))
     else if c =? BACKSPACE then ret (if 0 <? pos then pos - 1 else pos)
     else do* crt_store pos (cell c) in ret (pos + 1)) in cga_finish p) s) by reflexivity.
  rewrite E. destruct (c =? NL).
  - apply cga_finish_ok; [done|]. pose proof (Z.mod_pos_bound pos 80). Z.div_mod_to_equations. lia.
  - destruct (c =? BACKSPACE).
    + unfold bind, ret. destruct (cga_finish_ok (if 0 <? pos then pos - 1 else pos) s) as (sc & E1 & E2 & E3);
        [done|destruct (Z.ltb_spec 0 pos); lia|].
      exists sc. split_and!; [done|done|]. rewrite E3. do 2 f_equal. destruct (Z.ltb_spec 0 pos); lia.
    + unfold CELLS in Hl. unfold bind at 1 2. rewrite crt_store_ok by lia. unfold ret.
      edestruct (cga_finish_ok (pos + 1)) as (sc & E1 & E2 & E3).
      3:{ rewrite E1. exists sc. split_and!; [done|done|]. rewrite E3. cbn [scr set_scr crt]. f_equal.
          unfold shown. fold pos. replace (Z.to_nat (pos + 1)) with (S (Z.to_nat pos)) by lia.
          erewrite take_S_r; [|apply list_lookup_insert_eq; lia]. by rewrite take_insert_ge by lia. }
      { cbn [scr set_scr crt]. rewrite length_insert. done. } { lia. }
Qed.

(** The screen is a window on the text that has been printed: from a cursor on
    the first 24 rows, for every character code, [cgaputc] neither panics nor
    writes outside CGA memory, the text before the cursor becomes the old text
    with the character at its end (with the row filled up for a newline, without
    its last cell for a backspace), less the top row when it would fill 24 rows,
    and the cursor is on the first 24 rows again. *)
Theorem cgaputc_scrolls_text c s :
  screen_ok (scr s) ->
  exists sc, cgaputc c s = Ret tt (set_scr sc s) /\ screen_ok sc /\ shown sc = scrolled (put_text c (scr s)).
Proof. apply cgaputc_ok. Qed.

(** ** Printing *)

(** Bytes that [consputc] sends to the serial port. *)
Definition sent (c : Z) : list Z := if c =? BACKSPACE then [8; 32; 8] else [u8 c].

(** From [s] to [s'] only the devices have changed; [l] went out on the line, and the
    cursor is on the screen. *)
Definition prints (l : list Z) (s s' : console) : Prop :=
  exists d sc, s' = set_scr sc (set_dev d s) /\ screen_ok sc /\ uart d = uart (dev s) /\
    com1 d = com1 (dev s) ++ (if uart (dev s) then pair COM1 <$> l else []).

Definition quiet (s : console) : Prop := panicked s = false /\ screen_ok (scr s).

Lemma prints_nil s : screen_ok (scr s) -> prints [] s s.
Proof. intros. exists (dev s), (scr s). destruct s. split_and!; try done. cbn. case_match; by rewrite app_nil_r. Qed.

Lemma prints_app l1 l2 s1 s2 s3 : prints l1 s1 s2 -> prints l2 s2 s3 -> prints (l1 ++ l2) s1 s3.
Proof.
  intros (d1 & c1 & -> & H1 & E1 & F1) (d2 & c2 & -> & H2 & E2 & F2). exists d2, c2.
  cbn [set_scr set_dev dev] in *. split_and!; [done|done|congruence|]. rewrite F2, F1, E1.
  destruct (uart (dev s1)); [by rewrite fmap_app, app_assoc|by rewrite !app_nil_r].
Qed.

Lemma prints_quiet l s s' : prints l s s' -> quiet s -> quiet s'.
Proof. by intros (d & sc & -> & H & _) []. Qed.

Lemma tx_wait_ok n s : exists d, tx_wait n s = Ret tt (set_dev d s) /\
  uart d = uart (dev s) /\ com1 d = com1 (dev s) /\ now (dev s) <= now d <= now (dev s) + Z.of_nat n.
Proof.
  revert s. induction n as [|n IH]; intros s; cbn [tx_wait].
  - exists (dev s). destruct s. split_and!; try done; cbn; lia.
  - unfold inb_lsr, bind. case_match.
    + destruct (IH (set_dev (mk_uartdev (uart (dev s)) (lsr (dev s)) (now (dev s) + 1) (com1 (dev s))) s))
        as (d & E & E1 & E2 & E3). rewrite E. exists d. cbn [set_dev dev now uart com1] in *. split_and!; try done; lia.
    + eexists. split; [reflexivity|]. cbn. split_and!; try done; lia.
Qed.

Lemma uartputc_ok c s : exists d, uartputc c s = Ret tt (set_dev d s) /\ uart d = uart (dev s) /\
  com1 d = com1 (dev s) ++ (if uart (dev s) then [(COM1, u8 c)] else []).
Proof.
  unfold uartputc, bind, gets. destruct (uart (dev s)) eqn:Eu; cbn [negb].
  - destruct (tx_wait_ok 128 s) as (d & E & E1 & E2 & _). rewrite E. eexists. split; [reflexivity|].
    cbn [set_dev dev uart com1]. by rewrite E1, E2, Eu.
  - exists (dev s). destruct s. split_and!; try done. by rewrite app_nil_r.
Qed.

Lemma uartputc_prints c s : screen_ok (scr s) -> exists s', uartputc c s = Ret tt s' /\ prints [u8 c] s s'.
Proof.
  intros Hs. destruct (uartputc_ok c s) as (d & E & E1 & E2). eexists. split; [exact E|].
  exists d, (scr s). split_and!; [by destruct s|done..].
Qed.

Lemma consputc_prints c s : quiet s -> exists s', consputc c s = Ret tt s' /\ prints (sent c) s s'.
Proof.
  intros [Hp Hs]. unfold consputc, bind at 1, gets. rewrite Hp.
  assert (Hu : exists s1, (if c =? BACKSPACE then do* uartputc 8 in do* uartputc 32 in uartputc 8 else uartputc c) s = Ret tt s1 /\
    prints (sent c) s s1).
  { unfold sent. destruct (c =? BACKSPACE); [|by apply uartputc_prints].
    destruct (uartputc_prints 8 s Hs) as (s1 & E1 & P1). assert (Q1 := prints_quiet _ _ _ P1 (conj Hp Hs)).
    destruct (uartputc_prints 32 s1 (proj2 Q1)) as (s2 & E2 & P2). assert (Q2 := prints_quiet _ _ _ P2 Q1).
    destruct (uartputc_prints 8 s2 (proj2 Q2)) as (s3 & E3 & P3). exists s3. split.
    - by rewrite (bind_Ret _ _ _ _ _ E1), (bind_Ret _ _ _ _ _ E2).
    - exact (prints_app _ _ _ _ _ P1 (prints_app _ _ _ _ _ P2 P3)). }
  destruct Hu as (s1 & E & d & sc & -> & Hsc & Ed & Ec). rewrite (bind_Ret _ _ _ _ _ E).
  destruct (cgaputc_ok c (set_scr sc (set_dev d s)) Hsc) as (sc' & E' & Hs' & _). rewrite E'.
  eexists. split; [reflexivity|]. by exists d, sc'.
Qed.

Lemma consputs_prints l s : quiet s -> exists s', consputs l s = Ret tt s' /\ prints (l ≫= sent) s s'.
Proof.
  revert s. induction l as [|c l IH]; intros s Hq; cbn [consputs].
  - exists s. split; [done|]. apply prints_nil, Hq.
  - destruct (consputc_prints c s Hq) as (s1 & E1 & P1). rewrite (bind_Ret _ _ _ _ _ E1).
    destruct (IH s1 (prints_quiet _ _ _ P1 Hq)) as (s2 & E2 & P2). exists s2. split; [done|].
    exact (prints_app _ _ _ _ _ P1 P2).
Qed.

(** ** [cprintf] *)

Definition bytes (l : list Z) : Prop := Forall (fun c => 0 <= c < 256) l.

Lemma u8_s8 c : u8 (s8 c) = u8 c.
Proof.
  unfold u8, s8. pose proof (Z.mod_pos_bound (c + 128) 256). Z.div_mod_to_equations. lia.
Qed.

Lemma land_byte c : 0 <= c < 256 -> Z.land c 0xff = c.
Proof. intros. change 0xff with (Z.ones 8). rewrite Z.land_ones by lia. by apply Z.mod_small. Qed.

Lemma sent_small c : c < 256 -> sent c = [u8 c].
Proof. intros. unfold sent, BACKSPACE. destruct (Z.eqb_spec c 0x100); [lia|done]. Qed.

Lemma sent_bytes l : bytes l -> l ≫= sent = l.
Proof.
  induction 1 as [|c l Hc Hl IH]; [done|]. cbn [mbind list_bind]. rewrite sent_small, u8_small, IH by lia. done.
Qed.

Lemma sent_chars l : bytes l -> (s8 <$> l) ≫= sent = l.
Proof.
  induction 1 as [|c l Hc Hl IH]; [done|]. cbn [fmap list_fmap mbind list_bind].
  rewrite sent_small, u8_s8, u8_small, IH by (unfold s8; pose proof (Z.mod_pos_bound (c + 128) 256); lia). done.
Qed.

Lemma printint_bytes digits xx base sgn b : bytes digits -> printint digits xx base sgn = Some b -> bytes b.
Proof.
  intros Hd. assert (Hl : forall n x buf r, bytes buf -> digit_loop digits n x base buf = Some r -> bytes r).
  { intros n. induction n as [|n IH]; intros x buf r Hb; cbn [digit_loop]; [done|].
    destruct (zget digits (x mod base)) as [d|] eqn:E; [|done]. apply zget_Some in E as [_ E].
    assert (bytes (d :: buf)) by (constructor; [exact (Forall_lookup_1 _ _ _ _ Hd E)|done]).
    case_match; [by apply IH|naive_solver]. }
  unfold printint. destruct (digit_loop _ _ _ _ _) as [r|] eqn:E; [|done]. apply Hl in E; [|constructor].
  repeat case_match; intros Hb; simplify_eq; try done.
  constructor; [change (0 <= 45 < 256); lia|done].
Qed.

Lemma kprintint_prints xx base sgn b s : quiet s -> printint kdigits xx base sgn = Some b ->
  exists s', kprintint xx base sgn s = Ret tt s' /\ prints b s s'.
Proof.
  intros Hq E. unfold kprintint. rewrite E. destruct (consputs_prints b s Hq) as (s' & E' & P').
  rewrite sent_bytes in P'; [by exists s'|]. eapply printint_bytes, E. by apply (bool_decide_unpack _).
Qed.

Lemma pre_Some o r t : pre o r = Some t -> exists t', r = Some t' /\ t = o ++ t'.
Proof. destruct r; cbn; [|done]. intros [= <-]. eauto. Qed.

Section Cprintf.
Context (strat : Z -> list Z) (strat_bytes : forall p, bytes (strat p)).

Lemma str_arg_bytes a : bytes (str_arg strat a).
Proof using strat_bytes. unfold str_arg. case_match; [|done]. by apply (bool_decide_unpack _). Qed.

(** One printing action, then the rest of the format. *)
Lemma print_then (m : C unit) o (k : C unit) rest text s :
  quiet s -> (exists s1, m s = Ret tt s1 /\ prints o s s1) -> pre o rest = Some text ->
  (forall t s1, quiet s1 -> rest = Some t -> exists s2, k s1 = Ret tt s2 /\ prints t s1 s2) ->
  exists s2, (do* m in k) s = Ret tt s2 /\ prints text s s2.
Proof.
  intros Hq (s1 & E1 & P1) (t & Et & ->)%pre_Some Hk. destruct (Hk t s1) as (s2 & E2 & P2);
    [by eapply prints_quiet|done|]. exists s2. rewrite (bind_Ret _ _ _ _ _ E1). split; [done|]. by eapply prints_app.
Qed.

Lemma cprintf_loop_prints n : forall fmt ap text s, (length fmt <= n)%nat -> bytes fmt -> quiet s ->
  printf_loop kdigits strat false fmt ap = Some text ->
  exists s', cprintf_loop strat fmt ap s = Ret tt s' /\ prints text s s'.
Proof using strat_bytes.
  induction n as [|n IH]; intros fmt ap text s Hn Hb Hq Ht;
    (destruct fmt as [|c fmt]; [injection Ht as <-; exists s; split; [done|apply prints_nil, Hq]|]); cbn [length] in Hn; [lia|].
  apply Forall_cons in Hb as [Hc Hb]. cbn [cprintf_loop printf_loop negb] in *. cbn zeta. rewrite land_byte by done.
  assert (Hput : forall s, quiet s -> exists s1, consputc c s = Ret tt s1 /\ prints [c] s s1).
  { intros s0 H0. destruct (consputc_prints c s0 H0) as (s1 & E1 & P1). rewrite sent_small, u8_small in P1 by lia. eauto. }
  destruct (Z.eqb_spec c (ch "%")) as [->|Hne]; cbn [negb] in *.
  2:{ eapply print_then; [done|by apply Hput|exact Ht|]. intros t s1 Hq1 Et. eapply IH; [lia|done|done|exact Et]. }
  destruct fmt as [|c fmt]; [injection Ht as <-; exists s; split; [done|apply prints_nil, Hq]|].
  apply Forall_cons in Hb as [Hc' Hb]. cbn [length] in Hn. cbn [printf_loop negb] in Ht. cbn zeta. rewrite land_byte by done.
  assert (Hput' : forall x s, x < 256 -> quiet s -> exists s1, consputc x s = Ret tt s1 /\ prints [u8 x] s s1).
  { intros x s0 Hx H0. destruct (consputc_prints x s0 H0) as (s1 & E1 & P1). rewrite sent_small in P1 by lia. eauto. }
  assert (Hrest : forall ap t s1, quiet s1 -> printf_loop kdigits strat false fmt ap = Some t ->
    exists s2, cprintf_loop strat fmt ap s1 = Ret tt s2 /\ prints t s1 s2) by (intros; eapply IH; (done || lia)).
  destruct (c =? ch "d").
  { destruct ap as [|a ap]; [done|]. destruct (printint kdigits (s32 a) 10 true) as [o|] eqn:Ep; [|done].
    eapply print_then; [done|by apply kprintint_prints|exact Ht|apply Hrest]. }
  destruct ((c =? ch "x") || (c =? ch "p")).
  { destruct ap as [|a ap]; [done|]. destruct (printint kdigits (s32 a) 16 false) as [o|] eqn:Ep; [|done].
    eapply print_then; [done|by apply kprintint_prints|exact Ht|apply Hrest]. }
  destruct (c =? ch "s").
  { destruct ap as [|a ap]; [done|]. eapply print_then; [done| |exact Ht|apply Hrest].
    destruct (consputs_prints (s8 <$> str_arg strat a) s Hq) as (s1 & E1 & P1).
    rewrite sent_chars in P1 by apply str_arg_bytes. eauto. }
  destruct (c =? ch "c").
  { destruct ap as [|a ap]; [done|]. eapply print_then; [done| |exact Ht|apply Hrest].
    rewrite <- u8_s8. apply Hput'; [unfold s8; pose proof (Z.mod_pos_bound (a + 128) 256); lia|done]. }
  destruct (Z.eqb_spec c (ch "%")) as [->|_].
  { eapply print_then; [done|by apply Hput|exact Ht|apply Hrest]. }
  apply pre_Some in Ht as (t & Et & ->). destruct (Hput s Hq) as (s1 & E1 & P1). rewrite (bind_Ret _ _ _ _ _ E1).
  destruct (Hput' c s1 ltac:(lia) (prints_quiet _ _ _ P1 Hq)) as (s2 & E2 & P2). rewrite (bind_Ret _ _ _ _ _ E2).
  rewrite u8_small in P2 by done. assert (P12 := prints_app _ _ _ _ _ P1 P2).
  destruct (Hrest ap t s2 (prints_quiet _ _ _ P12 Hq) Et) as (s3 & E3 & P3). exists s3. split; [done|].
  by apply (prints_app _ _ _ _ _ P12).
Qed.

Lemma prints_held b l s s' : prints l (set_held b s) s' ->
  exists s'', prints l s s'' /\ forall b', set_held b' s' = set_held b' s''.
Proof. intros (d & sc & -> & H). exists (set_scr sc (set_dev d s)). split; [by exists d, sc|done]. Qed.

(** [cprintf] formats as user programs' [printf] does, with lower-case digits:
    for every format and arguments, on a working console whose lock is free, it
    returns, sends exactly the text of [printf] to the serial port, leaves the
    cursor on the screen and everything else, the lock included, as it was. *)
Theorem cprintf_equiv_printf fmt ap text s :
  bytes fmt -> quiet s -> held s = false ->
  printf_loop kdigits strat false fmt ap = Some text ->
  exists s', cprintf strat (Some fmt) ap s = Ret tt s' /\ prints text s s'.
Proof using strat_bytes.
  intros Hb Hq Hh Ht. unfold cprintf, acquire_cons, release_cons. unfold bind at 1 2, gets at 1 2. rewrite Hh.
  destruct (locking s); cbn [negb andb].
  - erewrite bind_Ret by (unfold bind, gets; rewrite Hh; reflexivity).
    destruct (cprintf_loop_prints _ fmt ap text (set_held true s) (le_n _) Hb Hq Ht) as (s1 & E & P).
    rewrite (bind_Ret _ _ _ _ _ E). assert (held s1 = true) as H1 by (by destruct P as (? & ? & -> & _)).
    apply prints_held in P as (s2 & P & E2). exists s2. split; [|done]. unfold bind, gets. rewrite H1. unfold modify. rewrite E2.
    f_equal. destruct P as (d & sc & -> & _). unfold set_held; cbn. by rewrite <- Hh.
  - destruct (cprintf_loop_prints _ fmt ap text s (le_n _) Hb Hq Ht) as (s1 & E & P).
    exists s1. split; [|done]. unfold bind, ret. by rewrite E.
Qed.

(** The [holding] check in [cprintf] lets a CPU that already holds the console
    lock print, but [cprintf] then gives up the lock that its caller took: the
    caller runs on without it, and its own [release] panics. *)
Theorem cprintf_drops_callers_lock fmt ap text s :
  bytes fmt -> quiet s -> held s = true -> locking s = true ->
  printf_loop kdigits strat false fmt ap = Some text ->
  exists s', cprintf strat (Some fmt) ap s = Ret tt s' /\ held s' = false /\ release_cons s' = Panic "release".
Proof using strat_bytes.
  intros Hb Hq Hh Hk Ht. unfold cprintf. unfold bind at 1 2, gets at 1 2. rewrite Hh, Hk. cbn [negb andb].
  destruct (cprintf_loop_prints _ fmt ap text s (le_n _) Hb Hq Ht) as (s1 & E & P).
  assert (held s1 = true) as H1 by (by destruct P as (? & ? & -> & _)).
  exists (set_held false s1). split; [|done]. unfold bind, ret. rewrite E. unfold release_cons, bind, gets. by rewrite H1.
Qed.
End Cprintf.

Definition ex_console : console :=
  mk_console false true false (mk_uartdev true (fun _ => 0x20) 0 [])
    (mk_screen 0 0 (replicate 2000 0)) (mk_input (replicate 128 0) 0 0 0) 0 [] true.

Lemma ex_console_quiet : quiet ex_console.
Proof. split; [done|]. repeat split; by vm_compute. Qed.

(** A character in the last cell of row 23 scrolls the screen. *)
Lemma cgaputc_scrolls_text_witness :
  let s := set_scr (mk_screen 7 127 (replicate 2000 (cell 120))) ex_console in
  exists sc, cgaputc 97 s = Ret tt (set_scr sc s) /\ screen_ok sc /\
    shown sc = replicate 1839 (cell 120) ++ [cell 97].
Proof.
  intros s. apply (cgaputc_scrolls_text 97 s). repeat split; by vm_compute.
Defined.

Definition ex_strat (p : Z) : list Z := if p =? 4096 then str "sh" else [].
Lemma ex_strat_bytes p : bytes (ex_strat p).
Proof. unfold ex_strat. case_match; by apply (bool_decide_unpack _). Qed.

Lemma cprintf_equiv_printf_witness :
  exists s', cprintf ex_strat (Some (str "pid %d %s: %x")) [u32 (-7); 4096; 2748] ex_console = Ret tt s' /\
    prints (str "pid -7 sh: abc") ex_console s'.
Proof.
  apply (cprintf_equiv_printf ex_strat ex_strat_bytes).
  - by apply (bool_decide_unpack _).
  - apply ex_console_quiet.
  - reflexivity.
  - vm_compute. reflexivity.
Defined.

Lemma cprintf_drops_callers_lock_witness :
  exists s', cprintf ex_strat (Some (str "pid %d")) [3] (set_held true ex_console) = Ret tt s' /\
    held s' = false /\ release_cons s' = Panic "release".
Proof.
  apply (cprintf_drops_callers_lock ex_strat ex_strat_bytes _ _ (str "pid 3")).
  - by apply (bool_decide_unpack _).
  - split; [done|]. apply ex_console_quiet.
  - reflexivity.
  - reflexivity.
  - vm_compute. reflexivity.
Defined.

(** ** Start-up and back traces *)

Lemma uartputs_ok l s : exists d, uartputs l s = Ret tt (set_dev d s) /\ uart d = uart (dev s) /\
  com1 d = com1 (dev s) ++ (if uart (dev s) then (fun c => (COM1, u8 c)) <$> l else []).
Proof.
  revert s. induction l as [|c l IH]; intros s; cbn [uartputs].
  - exists (dev s). destruct s. split_and!; try done. cbn. case_match; by rewrite app_nil_r.
  - destruct (uartputc_ok c s) as (d1 & E1 & U1 & C1). rewrite (bind_Ret _ _ _ _ _ E1).
    destruct (IH (set_dev d1 s)) as (d2 & E2 & U2 & C2). exists d2. cbn [set_dev dev] in *. split_and!; [done|congruence|].
    rewrite C2, C1, U1. destruct (uart (dev s)); [by rewrite <- app_assoc|by rewrite !app_nil_r].
Qed.

(** The port is programmed for 9600 baud and 8 data bits; when there is one, its
    interrupt is enabled and the greeting is sent. *)
Lemma uartinit_programs_port s :
  exists s', uartinit s = Ret tt s' /\
    if u8 (lsr (dev s) (now (dev s))) =? 0xFF
    then uart (dev s') = uart (dev s) /\ ioapic s' = ioapic s
    else uart (dev s') = true /\ ioapic s' = ioapic s ++ [(IRQ_COM1, 0)] /\
      com1 (dev s') = (com1 (dev s) ++ [(COM1 + 2, 0); (COM1 + 3, 0x80); (COM1 + 0, 12); (COM1 + 1, 0); (COM1 + 3, 3);
        (COM1 + 4, 0); (COM1 + 1, 1)]) ++ (pair COM1 <$> str "xv6..." ++ [NL]).
Proof.
  destruct s as [pa lo he [u f t w] sc i wk io ip].
  assert (E : uartinit (mk_console pa lo he (mk_uartdev u f t w) sc i wk io ip) =
    let w' := w ++ [(COM1 + 2, 0)] ++ [(COM1 + 3, 0x80)] ++ [(COM1 + 0, 12)] ++ [(COM1 + 1, 0)] ++ [(COM1 + 3, 3)] ++
      [(COM1 + 4, 0)] ++ [(COM1 + 1, 1)] in
    if u8 (f t) =? 0xFF then Ret tt (mk_console pa lo he (mk_uartdev u f (t + 1) w') sc i wk io ip)
    else uartputs (str "xv6..." ++ [NL])
      (mk_console pa lo he (mk_uartdev true f (t + 1) w') sc i wk (io ++ [(IRQ_COM1, 0)]) ip)).
  { unfold uartinit, outb_com1, inb_lsr, set_uart, bind, modify. cbn [dev uart lsr now com1 set_dev]. cbv zeta.
    rewrite <- !app_assoc. by case_match. }
  rewrite E. cbv zeta. cbn [dev lsr now]. destruct (u8 (f t) =? 0xFF); [by eexists|].
  edestruct uartputs_ok as (d & Ed & U & C0). rewrite Ed. eexists. split; [reflexivity|]. cbn [dev set_dev ioapic]. split; [exact U|]. split; [done|]. by rewrite C0.
Qed.

Lemma getcallerpcs_length word v : length (getcallerpcs word v) = 10%nat.
Proof.
  unfold getcallerpcs. generalize (u32 (v - 8)). generalize 10%nat. intros n. induction n as [|n IH]; intros ebp; [done|].
  cbn [getcallerpcs_loop]. case_match; [by rewrite length_replicate|]. cbn [length]. by rewrite IH.
Qed.
