(* ===== verification/ConsoleInput.v ===== *)
(** * The console's input: a line editor and its reader

    The circular buffer of console.c, with its three 32-bit indices, implements
    an editor with two lists: the characters that [consoleread] may take, and
    the line that is still being edited. *)
From S2P Require Import Prelude Ulib Printf Console ConsoleProof.

(** ** The editor *)

Record editor := mk_editor { ready : list Z; edit : list Z }.

Definition EOT : Z := Ctl (ch "D").
Definition ends_line (c : Z) : bool := (c =? NL) || (c =? EOT).
Definition total (l : editor) : nat := length (ready l ++ edit l).

Definition ed_put (c : Z) (l : editor) : editor :=
  if (total l <? 128)%nat then
    if ends_line c || (total l =? 127)%nat then mk_editor (ready l ++ edit l ++ [s8 c]) []
    else mk_editor (ready l) (edit l ++ [s8 c])
  else l.

Definition ed_key (l : editor) (c : Z) : editor :=
  if c =? Ctl (ch "P") then l
  else if c =? Ctl (ch "U") then mk_editor (ready l) []
  else if (c =? Ctl (ch "H")) || (c =? 0x7f) then mk_editor (ready l) (removelast (edit l))
  else if c =? 0 then l
  else ed_put (if c =? 13 then NL else c) l.

(** What the console prints in answer to a key. *)
Definition rubout : list Z := [8; 32; 8].
Definition echo (l : editor) (c : Z) : list Z :=
  if c =? Ctl (ch "P") then []
  else if c =? Ctl (ch "U") then concat (replicate (length (edit l)) rubout)
  else if (c =? Ctl (ch "H")) || (c =? 0x7f) then match edit l with [] => [] | _ => rubout end
  else if c =? 0 then []
  else if (total l <? 128)%nat then [if c =? 13 then NL else c] else [].

Fixpoint echoes (l : editor) (cs : list Z) : list Z :=
  match cs with
  | [] => []
  | c :: cs' => echo l c ++ echoes (ed_key l c) cs'
  end.

(** ** The buffer represents the editor *)

Definition zlen (l : list Z) : Z := Z.of_nat (length l).

Definition ring (i : inputbuf) (l : editor) : Prop :=
  length (ibuf i) = 128%nat /\ 0 <= ir i < 4294967296 /\
  iw i = u32 (ir i + zlen (ready l)) /\ ie i = u32 (ir i + Z.of_nat (total l)) /\ (total l <= 128)%nat /\
  forall k x, (ready l ++ edit l) !! k = Some x -> at_index (ibuf i) (ir i + Z.of_nat k) = x.

(** A line that has ended or that fills the buffer is not edited any more. *)
Definition editing (l : editor) : Prop :=
  Forall (fun c => ends_line c = false) (edit l) /\ (edit l <> [] -> total l < 128)%nat.

Definition represents (s : console) (l : editor) : Prop := quiet s /\ ring (input s) l /\ editing l.

Lemma total_add l : total l = (length (ready l) + length (edit l))%nat.
Proof. apply length_app. Qed.

Lemma at_index_u32 l x : at_index l (u32 x) = at_index l x.
Proof. unfold at_index, INPUT_BUF, u32. do 2 f_equal. f_equal. Z.div_mod_to_equations. lia. Qed.
Lemma store_index_u32 l x v : store_index l (u32 x) v = store_index l x v.
Proof. unfold store_index, INPUT_BUF, u32. do 2 f_equal. Z.div_mod_to_equations. lia. Qed.

Lemma u32_eqb_add r a b : 0 <= a < 4294967296 -> 0 <= b < 4294967296 -> (u32 (r + a) =? u32 (r + b)) = (a =? b).
Proof.
  intros Ha Hb. unfold u32. destruct (Z.eqb_spec a b) as [->|H]; [apply Z.eqb_refl|]. apply Z.eqb_neq. intros E. apply H.
  Z.div_mod_to_equations. lia.
Qed.

Lemma u32_add_pred r a : u32 (u32 (r + (a + 1)) - 1) = u32 (r + a).
Proof. unfold u32. rewrite Zminus_mod_idemp_l. f_equal. lia. Qed.
Lemma u32_add_succ r a : u32 (u32 (r + a) + 1) = u32 (r + (a + 1)).
Proof. unfold u32. rewrite Zplus_mod_idemp_l. f_equal. lia. Qed.
Lemma u32_add_sub r a : 0 <= a < 4294967296 -> u32 (u32 (r + a) - r) = a.
Proof. intros. unfold u32. rewrite Zminus_mod_idemp_l. rewrite Z.mod_small; lia. Qed.

(** Two places less than 128 apart are different cells. *)
Lemma at_store_other l r i k v : length l = 128%nat -> 0 <= k < i -> i < 128 ->
  at_index (store_index l (r + i) v) (r + k) = at_index l (r + k).
Proof.
  intros Hl Hk Hi. unfold at_index, store_index, INPUT_BUF. rewrite list_lookup_insert_ne; [done|].
  pose proof (Z.mod_pos_bound (r + i) 128). pose proof (Z.mod_pos_bound (r + k) 128).
  intros E. apply Z2Nat.inj in E; [|lia..]. Z.div_mod_to_equations. lia.
Qed.
Lemma at_store_same l i v : length l = 128%nat -> at_index (store_index l i v) i = v.
Proof.
  intros Hl. unfold at_index, store_index, INPUT_BUF. rewrite list_lookup_insert_eq; [done|].
  pose proof (Z.mod_pos_bound i 128). lia.
Qed.

(** ** Keys *)

Definition told (out : list Z) (s s' : console) : Prop :=
  uart (dev s') = uart (dev s) /\
  com1 (dev s') = com1 (dev s) ++ (if uart (dev s) then pair COM1 <$> out else []) /\
  held s' = held s /\ locking s' = locking s /\ ip_locked s' = ip_locked s.

Lemma told_nil s : told [] s s.
Proof. split_and!; try done. case_match; by rewrite app_nil_r. Qed.
Lemma told_app o1 o2 s1 s2 s3 : told o1 s1 s2 -> told o2 s2 s3 -> told (o1 ++ o2) s1 s3.
Proof.
  intros (A1 & A2 & A3 & A4 & A5) (B1 & B2 & B3 & B4 & B5). split_and!; try congruence.
  rewrite B2, A2, A1. destruct (uart (dev s1)); [by rewrite fmap_app, app_assoc|by rewrite !app_nil_r].
Qed.

(** Printing after the indices have been set to [i]. *)
Lemma put_told c i s : quiet s -> exists s', consputc c (set_input i s) = Ret tt s' /\
  quiet s' /\ input s' = i /\ told (sent c) s s'.
Proof.
  intros Hq. destruct (consputc_prints c (set_input i s) Hq) as (s' & E & P). exists s'. split; [done|].
  split; [exact (prints_quiet _ _ _ P Hq)|]. destruct P as (d & sc & -> & _ & E1 & E2). done.
Qed.

Lemma ring_erase i rd ed c : ring i (mk_editor rd (ed ++ [c])) ->
  (ie i =? iw i) = false /\ at_index (ibuf i) (u32 (ie i - 1)) = c /\
  ring (mk_input (ibuf i) (ir i) (iw i) (u32 (ie i - 1))) (mk_editor rd ed).
Proof.
  unfold ring, total, zlen. cbn [ready edit ibuf ir iw ie]. rewrite !app_assoc, !length_app. cbn [length].
  intros (H1 & H2 & H3 & H4 & H5 & H6).
  replace (Z.of_nat (length rd + length ed + 1)) with (Z.of_nat (length rd + length ed) + 1) in H4 by lia.
  rewrite H3, H4, u32_add_pred. split_and!; try done; try lia.
  - rewrite u32_eqb_add by lia. apply Z.eqb_neq. lia.
  - rewrite at_index_u32. apply H6. rewrite list_lookup_middle; [done|by rewrite length_app].
  - intros k x Hk. apply H6. by apply lookup_app_l_Some.
Qed.

Lemma ring_empty i rd : ring i (mk_editor rd []) -> (ie i =? iw i) = true.
Proof.
  unfold ring, total, zlen. cbn [ready edit]. rewrite app_nil_r. intros (_ & _ & -> & -> & _). apply Z.eqb_refl.
Qed.

Lemma editing_erase rd ed c : editing (mk_editor rd (ed ++ [c])) -> editing (mk_editor rd ed) /\ ends_line c = false.
Proof.
  unfold editing, total. cbn [ready edit]. rewrite Forall_app, Forall_singleton, app_assoc, (length_app (rd ++ ed)).
  cbn [length]. intros [[H1 H2] H3]. split_and!; try done. intros _. assert (ed ++ [c] <> []) by (by destruct ed).
  specialize (H3 H). lia.
Qed.

(** One backspace. *)
Lemma erase_ok s rd ed c : represents s (mk_editor rd (ed ++ [c])) ->
  exists s', (do* set_e (u32 (ie (input s) - 1)) in consputc BACKSPACE) s = Ret tt s' /\
    represents s' (mk_editor rd ed) /\ told rubout s s'.
Proof.
  intros (Hq & Hr & He). apply ring_erase in Hr as (_ & _ & Hr). apply editing_erase in He as [He _].
  edestruct (put_told BACKSPACE) as (s' & E & Hq' & Hi & Ht); [exact Hq|]. exists s'. split; [|split; [|exact Ht]].
  - unfold set_e, bind, modify. exact E.
  - split_and!; [done|by rewrite Hi|apply He..].
Qed.

Lemma kill_line_ok fuel : forall s l, represents s l -> (length (edit l) < fuel)%nat ->
  exists s', kill_line fuel s = Ret tt s' /\ represents s' (mk_editor (ready l) []) /\
    told (concat (replicate (length (edit l)) rubout)) s s'.
Proof.
  induction fuel as [|fuel IH]; intros s [rd ed] Hs Hf; cbn [ready edit] in *; [lia|]. cbn [kill_line]. unfold bind at 1, gets.
  destruct ed as [|c ed _] using rev_ind.
  - rewrite (ring_empty _ _ (proj1 (proj2 Hs))). exists s. split_and!; [done|apply Hs|apply told_nil].
  - destruct Hs as (Hq & Hr & He). pose proof (ring_erase _ _ _ _ Hr) as (E1 & E2 & _). pose proof (editing_erase _ _ _ He) as [_ E3].
    unfold ends_line in E3. apply orb_false_iff in E3 as [E3 _]. rewrite E1, E2, E3. cbn [negb andb].
    destruct (erase_ok s rd ed c) as (s1 & E & Hs1 & T1); [done|]. rewrite length_app, Nat.add_comm in Hf |- *. cbn [length] in *.
    destruct (IH s1 (mk_editor rd ed) Hs1) as (s2 & F & Hs2 & T2); [cbn [edit]; lia|]. exists s2.
    split; [|split; [exact Hs2|exact (told_app _ _ _ _ _ T1 T2)]].
    rewrite <- bind_assoc. by rewrite (bind_Ret _ _ _ _ _ E).
Qed.

Lemma ring_put i rd ed v : ring i (mk_editor rd ed) -> (total (mk_editor rd ed) < 128)%nat ->
  ring (mk_input (store_index (ibuf i) (ie i) v) (ir i) (iw i) (u32 (ie i + 1))) (mk_editor rd (ed ++ [v])).
Proof.
  unfold ring, total, zlen. cbn [ready edit ibuf ir iw ie]. rewrite !app_assoc, (length_app (rd ++ ed)). cbn [length].
  intros (H1 & H2 & H3 & H4 & H5 & H6) Ht. rewrite H4, u32_add_succ, store_index_u32. split_and!; try done; try lia.
  - unfold store_index. by rewrite length_insert.
  - f_equal. lia.
  - intros k x Hk. destruct (Nat.eq_dec k (length (rd ++ ed))) as [->|Hne].
    + rewrite list_lookup_middle in Hk by done. injection Hk as <-. by apply at_store_same.
    + pose proof (lookup_lt_Some _ _ _ Hk) as Hl. rewrite length_app in Hl. cbn [length] in Hl.
      rewrite at_store_other by (done || lia). apply H6. by rewrite lookup_app_l in Hk by lia.
Qed.

Lemma ring_commit i rd ed : ring i (mk_editor rd ed) ->
  ring (mk_input (ibuf i) (ir i) (ie i) (ie i)) (mk_editor (rd ++ ed) []).
Proof.
  unfold ring, total, zlen. cbn [ready edit ibuf ir iw ie]. rewrite app_nil_r. naive_solver.
Qed.

Lemma ends_line_s8 c : 0 <= c < 256 -> ends_line (s8 c) = ends_line c.
Proof.
  intros Hc. unfold s8. destruct (Z.lt_ge_cases c 128) as [H|H].
  - rewrite Z.mod_small by lia. f_equal. lia.
  - replace (c + 128) with (c - 128 + 1 * 256) by lia. rewrite Z.mod_add, Z.mod_small by lia.
    unfold ends_line, NL, EOT, Ctl. change (ch "D" - 64) with 4.
    rewrite !(proj2 (Z.eqb_neq _ _)) by lia. done.
Qed.

Lemma editing_put c l : 0 <= c < 256 -> editing l -> editing (ed_put c l).
Proof.
  intros Hc [H1 H2]. unfold ed_put. destruct (Nat.ltb_spec (total l) 128); [|by split].
  destruct (ends_line c || (total l =? 127)%nat) eqn:E; [split; [constructor|done]|].
  apply orb_false_iff in E as [E1 E2%Nat.eqb_neq]. split; cbn [edit ready].
  - apply Forall_app. split; [done|]. apply Forall_singleton. by rewrite ends_line_s8.
  - intros _. rewrite total_add in *. cbn [ready edit]. rewrite length_app. cbn [length]. lia.
Qed.

Lemma editing_key l c : 0 <= c < 256 -> editing l -> editing (ed_key l c).
Proof.
  intros Hc Hl. unfold ed_key. case_match; [done|]. case_match; [by split; [constructor|]|].
  case_match; [|case_match; [done|apply editing_put; [case_match; [unfold NL|]; lia|done]]].
  destruct l as [rd ed]. destruct ed as [|c' ed _] using rev_ind; [done|]. cbn [ready edit]. rewrite removelast_last.
  by apply editing_erase in Hl as [? _].
Qed.

(** An ordinary character. *)
Definition put_key (c : Z) : C bool :=
  let* i := gets input in
  do* set_buf (store_index (ibuf i) (ie i) (s8 c)) in
  let e := u32 (ie i + 1) in
  do* set_e e in
  do* consputc c in
  if (c =? NL) || (c =? Ctl (ch "D")) || (e =? u32 (ir i + INPUT_BUF)) then
    do* set_w e in
    do* modify wakeup_r in
    ret false
  else ret false.

Lemma put_key_ok c s l : 0 <= c < 256 -> represents s l -> (total l < 128)%nat ->
  exists s', put_key c s = Ret false s' /\ represents s' (ed_put c l) /\ told [c] s s'.
Proof.
  intros Hc (Hq & Hr & He) Ht. destruct l as [rd ed]. pose proof (ring_put _ _ _ (s8 c) Hr Ht) as Hp.
  destruct (put_told c _ s Hq : exists s', consputc c (set_input (mk_input (store_index (ibuf (input s)) (ie (input s)) (s8 c))
    (ir (input s)) (iw (input s)) (u32 (ie (input s) + 1))) s) = _ /\ _) as (s' & E & Hq' & Hi & Hto).
  rewrite sent_small, u8_small in Hto by lia.
  assert (Ek : put_key c s = (if ends_line c || (u32 (ie (input s) + 1) =? u32 (ir (input s) + INPUT_BUF)) then
      do* set_w (u32 (ie (input s) + 1)) in do* modify wakeup_r in ret false else ret false) s').
  { unfold put_key, set_buf, set_e. do 3 (erewrite bind_Ret by reflexivity; cbn beta iota). cbn [input set_input].
    by rewrite (bind_Ret _ _ _ _ _ E). }
  assert (Ef : (u32 (ie (input s) + 1) =? u32 (ir (input s) + INPUT_BUF)) = (total (mk_editor rd ed) =? 127)%nat).
  { destruct Hr as (_ & _ & _ & -> & _). rewrite u32_add_succ, u32_eqb_add by (unfold INPUT_BUF; lia). unfold INPUT_BUF.
    destruct (Nat.eqb_spec (total (mk_editor rd ed)) 127), (Z.eqb_spec (Z.of_nat (total (mk_editor rd ed)) + 1) 128); lia. }
  rewrite Ek, Ef. pose proof (editing_put c _ Hc He) as He'. unfold ed_put in *.
  destruct (Nat.ltb_spec (total (mk_editor rd ed)) 128); [|lia]. cbn [ready edit] in *.
  destruct (ends_line c || (total (mk_editor rd ed) =? 127)%nat) eqn:Ee.
  - eexists. split; [reflexivity|]. split; [|exact Hto]. split; [exact Hq'|]. split; [|exact He'].
    cbn. rewrite Hi. cbn. rewrite app_assoc. pose proof (ring_commit _ _ _ Hp) as Hw. cbn in Hw. by rewrite app_assoc in Hw.
  - exists s'. split; [done|]. split; [|done]. split; [done|]. split; [by rewrite Hi|exact He'].
Qed.

Lemma console_key_ok c s l : 0 <= c < 256 -> represents s l ->
  exists s', console_key c s = Ret (c =? Ctl (ch "P")) s' /\ represents s' (ed_key l c) /\ told (echo l c) s s'.
Proof.
  intros Hc Hs. unfold console_key, ed_key, echo. destruct (c =? Ctl (ch "P")).
  { exists s. split; [done|split; [exact Hs|apply told_nil]]. }
  destruct (c =? Ctl (ch "U")).
  { destruct (kill_line_ok 129 s l Hs) as (s' & E & Hs' & T).
    - destruct Hs as (_ & (_ & _ & _ & _ & H & _) & _). rewrite total_add in H. lia.
    - exists s'. rewrite (bind_Ret _ _ _ _ _ E). done. }
  destruct ((c =? Ctl (ch "H")) || (c =? 0x7f)).
  { destruct l as [rd ed]. cbn [ready edit]. unfold bind at 1, gets. destruct ed as [|x ed _] using rev_ind.
    - rewrite (ring_empty _ _ (proj1 (proj2 Hs))). exists s. split; [done|split; [exact Hs|apply told_nil]].
    - pose proof (ring_erase _ _ _ _ (proj1 (proj2 Hs))) as (E1 & _). rewrite E1. cbn [negb].
      destruct (erase_ok s rd ed x Hs) as (s' & E & Hs' & T). exists s'. rewrite removelast_last.
      split; [|split; [exact Hs'|by destruct ed]]. rewrite <- bind_assoc. by rewrite (bind_Ret _ _ _ _ _ E). }
  unfold bind at 1, gets. assert (Ei : u32 (ie (input s) - ir (input s)) = Z.of_nat (total l)).
  { destruct Hs as (_ & (_ & _ & _ & -> & H & _) & _). apply u32_add_sub. lia. }
  rewrite Ei. unfold INPUT_BUF at 1. destruct (Z.eqb_spec c 0) as [->|H0]; cbn [negb andb].
  { exists s. split; [done|split; [exact Hs|apply told_nil]]. }
  destruct (Nat.ltb_spec (total l) 128), (Z.ltb_spec (Z.of_nat (total l)) 128); try lia.
  - destruct (put_key_ok (if c =? 13 then NL else c) s l) as (s' & E & Hs' & T);
      [destruct (c =? 13); [unfold NL; lia|done]|done|done|]. exists s'. split; [exact E|done].
  - exists s. split; [done|split; [|apply told_nil]]. unfold ed_put.
    destruct (Nat.ltb_spec (total l) 128); [lia|]. exact Hs.
Qed.

(** ** Interrupts *)

(** [getc] gives the keys [ks], then nothing, and leaves the device in [d']. *)
Inductive stream {D} (getc : D -> option (Z * D)) : D -> list Z -> D -> Prop :=
| stream_end d c d' : getc d = Some (c, d') -> c < 0 -> stream getc d [] d'
| stream_key d c d1 ks d' : getc d = Some (c, d1) -> 0 <= c < 256 -> stream getc d1 ks d' -> stream getc d (c :: ks) d'.

Lemma consoleintr_loop_ok {D} (getc : D -> option (Z * D)) d ks d' : stream getc d ks d' ->
  forall fuel b s l, (length ks < fuel)%nat -> represents s l ->
  exists s', consoleintr_loop getc fuel d b s = Ret (b || existsb (Z.eqb (Ctl (ch "P"))) ks, d') s' /\
    represents s' (fold_left ed_key ks l) /\ told (echoes l ks) s s'.
Proof.
  induction 1 as [d c d' E Hc|d c d1 ks d' E Hc Hst IH]; intros fuel b s l Hf Hs; (destruct fuel as [|fuel]; [cbn in Hf; lia|]);
    cbn [consoleintr_loop]; rewrite E.
  - destruct (Z.leb_spec 0 c); [lia|]. exists s. rewrite orb_false_r. split; [done|]. split; [exact Hs|apply told_nil].
  - destruct (Z.leb_spec 0 c); [|lia]. cbn [length] in Hf. destruct (console_key_ok c s l Hc Hs) as (s1 & E1 & Hs1 & T1).
    rewrite (bind_Ret _ _ _ _ _ E1). destruct (IH fuel (b || (c =? Ctl (ch "P"))) s1 (ed_key l c)) as (s2 & E2 & Hs2 & T2); [lia|done|].
    exists s2. cbn [existsb fold_left echoes]. rewrite orb_assoc, (Z.eqb_sym (Ctl (ch "P")) c).
    split; [done|]. split; [exact Hs2|exact (told_app _ _ _ _ _ T1 T2)].
Qed.

Lemma represents_held b s l : represents s l -> represents (set_held b s) l.
Proof. done. Qed.

Lemma consoleintr_ok {D} (getc : D -> option (Z * D)) d ks d' s l :
  stream getc d ks d' -> represents s l -> held s = false ->
  exists s', consoleintr getc (S (length ks)) d s = Ret (existsb (Z.eqb (Ctl (ch "P"))) ks, d') s' /\
    represents s' (fold_left ed_key ks l) /\ told (echoes l ks) s s'.
Proof.
  intros Hst Hs Hh. unfold consoleintr, acquire_cons, release_cons.
  erewrite bind_Ret by (unfold bind, gets; rewrite Hh; reflexivity).
  destruct (consoleintr_loop_ok getc d ks d' Hst (S (length ks)) false (set_held true s) l) as (s1 & E & Hs1 & T);
    [lia|by apply represents_held|]. rewrite (bind_Ret _ _ _ _ _ E). destruct T as (T1 & T2 & T3 & T4 & T5).
  erewrite bind_Ret by (unfold bind, gets; rewrite T3; reflexivity). eexists. split; [reflexivity|].
  split; [by apply represents_held|]. by repeat split.
Qed.

(** C20. The console interrupt handler is a line editor.  Whatever device delivers the
    keys, it takes them all, releases the lock and leaves a buffer that holds
    what the editor holds after those keys (control-U drops the line being
    edited, backspace its last character, newline, control-D or a full buffer
    hand it to the reader, further keys are dropped while the buffer is full),
    it prints exactly the editor's echo, and asks for a process listing exactly
    when control-P was typed. *)
Theorem consoleintr_edits_lines {D} (getc : D -> option (Z * D)) d ks d' s l :
  stream getc d ks d' -> represents s l -> held s = false ->
  exists s', consoleintr getc (S (length ks)) d s = Ret (existsb (Z.eqb (Ctl (ch "P"))) ks, d') s' /\
    represents s' (fold_left ed_key ks l) /\ told (echoes l ks) s s'.
Proof. apply consoleintr_ok. Qed.

Lemma stream_editing {D} (getc : D -> option (Z * D)) d ks d' ks1 l : stream getc d ks d' -> ks1 `prefix_of` ks ->
  editing l -> editing (fold_left ed_key ks1 l).
Proof.
  intros Hst. revert ks1 l. induction Hst as [|d c d1 ks d' E Hc Hst IH]; intros ks1 l Hp Hl.
  - by apply prefix_nil_inv in Hp as ->.
  - destruct ks1 as [|x ks1]; [done|]. apply prefix_cons_inv_1 in Hp as Hx. subst x. apply prefix_cons_inv_2 in Hp.
    cbn [fold_left]. apply IH; [done|]. by apply editing_key.
Qed.

(** ** Reading *)

Definition ordinary (l : list Z) : Prop := Forall (fun c => ends_line c = false) l.

(** What a reader that asks for [n] bytes gets from the committed characters, and
    what is left: up to and including a newline; up to a control-D, which stays
    for the next read unless nothing came before it; [n] bytes of a long line;
    or it has to wait for more. *)
Inductive reads (n : nat) : list Z -> readres -> list Z -> Prop :=
| reads_full line rest : ordinary line -> length line = n ->
    reads n (line ++ rest) (RdRet (Z.of_nat n) (u8 <$> line)) rest
| reads_line line rest : ordinary line -> (length line < n)%nat ->
    reads n (line ++ NL :: rest) (RdRet (zlen line + 1) ((u8 <$> line) ++ [NL])) rest
| reads_upto_eof line rest : ordinary line -> (0 < length line < n)%nat ->
    reads n (line ++ EOT :: rest) (RdRet (zlen line) (u8 <$> line)) (EOT :: rest)
| reads_eof rest : (0 < n)%nat -> reads n (EOT :: rest) (RdRet 0 []) rest
| reads_wait line : ordinary line -> (length line < n)%nat ->
    reads n line (RdSleep (n - length line) (u8 <$> line)) [].

Lemma ring_next i c rd ed : ring i (mk_editor (c :: rd) ed) ->
  (ir i =? iw i) = false /\ at_index (ibuf i) (ir i) = c /\
  ring (mk_input (ibuf i) (u32 (ir i + 1)) (iw i) (ie i)) (mk_editor rd ed).
Proof.
  unfold ring, total, zlen. cbn [ready edit ibuf ir iw ie app length]. intros (H1 & H2 & H3 & H4 & H5 & H6).
  rewrite Nat2Z.inj_succ in H3, H4. split_and!; try done; try lia.
  - assert (E : u32 (ir i + 0) = ir i) by (rewrite Z.add_0_r; by apply u32_small). rewrite H3. rewrite <- E at 1.
    rewrite length_app in H5. rewrite u32_eqb_add by lia. apply Z.eqb_neq. lia.
  - specialize (H6 0%nat c eq_refl). by rewrite Z.add_0_r in H6.
  - apply u32_range.
  - apply u32_range.
  - rewrite u32_add_u32_l, H3. f_equal. lia.
  - rewrite u32_add_u32_l, H4. f_equal. lia.
  - intros k x Hk. specialize (H6 (S k) x Hk). rewrite <- H6.
    rewrite <- (at_index_u32 _ (u32 _ + _)), u32_add_u32_l, at_index_u32. f_equal. lia.
Qed.

Lemma ring_none i ed : ring i (mk_editor [] ed) -> (ir i =? iw i) = true.
Proof. unfold ring, zlen. cbn. intros (_ & H & -> & _). rewrite Z.add_0_r, u32_small by lia. apply Z.eqb_refl. Qed.

Definition loop_res (killed : bool) (target : Z) (r : loopres) : readres :=
  match r with
  | LpBreak n dst => RdRet (target - Z.of_nat n) dst
  | LpKilled dst => RdRet (-1) dst
  | LpSleep n dst => RdSleep n dst
  end.

(** The loop, after it has copied [got] of the [target] bytes. *)
Lemma read_loop_ok n : forall target got s rd ed, represents s (mk_editor rd ed) -> ordinary got ->
  target = (n + length got)%nat ->
  exists r i rd' res, read_loop false (Z.of_nat target) n (u8 <$> got) s = Ret r (set_input i s) /\
    ring i (mk_editor rd' ed) /\ (length rd' <= length rd)%nat /\
    loop_res false (Z.of_nat target) r = res /\ reads target (got ++ rd) res rd'.
Proof.
  induction n as [|n IH]; intros target got s rd ed Hs Hg ->; cbn [read_loop].
  - eexists _, (input s), rd, _. split; [by destruct s|]. split; [apply Hs|]. split; [done|]. split; [done|]. cbn [loop_res].
    replace (Z.of_nat (0 + length got) - Z.of_nat 0) with (Z.of_nat (0 + length got)) by lia. by constructor.
  - unfold bind at 1, gets. destruct rd as [|c rd].
    { rewrite (ring_none _ _ (proj1 (proj2 Hs))). eexists _, (input s), [], _. split; [by destruct s|]. split; [apply Hs|]. split; [done|].
      split; [done|]. cbn [loop_res]. rewrite app_nil_r. replace (S n) with (S n + length got - length got)%nat at 2 by lia.
      constructor; [done|lia]. }
    destruct (ring_next _ _ _ _ (proj1 (proj2 Hs))) as (E1 & E2 & Hr). rewrite E1, E2.
    erewrite bind_Ret by reflexivity. cbn beta iota zeta. fold EOT. destruct (Z.eqb_spec c EOT) as [->|HD].
    { destruct (Z.ltb_spec (Z.of_nat (S n)) (Z.of_nat (S n + length got))).
      - erewrite bind_Ret by reflexivity. eexists _, _, (EOT :: rd), _. split; [reflexivity|]. cbn [set_input input ibuf ir iw ie].
        split; [exact (proj1 (proj2 Hs))|]. split; [done|]. split; [done|]. cbn [loop_res].
        replace (Z.of_nat (S n + length got) - Z.of_nat (S n)) with (zlen got) by (unfold zlen; lia). constructor; [done|lia].
      - assert (got = []) as -> by (apply length_zero_iff_nil; lia). do 4 eexists. split; [reflexivity|]. split; [exact Hr|].
        split; [cbn; lia|]. split; [done|]. cbn [loop_res length app fmap list_fmap]. rewrite Nat.add_0_r, Z.sub_diag. constructor. lia. }
    destruct (Z.eqb_spec c NL) as [->|HN].
    { do 4 eexists. split; [reflexivity|]. split; [exact Hr|]. split; [cbn; lia|]. split; [done|]. cbn [loop_res].
      replace (Z.of_nat (S n + length got) - Z.of_nat n) with (zlen got + 1) by (unfold zlen; lia). constructor; [done|lia]. }
    destruct (IH (S n + length got)%nat (got ++ [c])
      (set_input (mk_input (ibuf (input s)) (u32 (ir (input s) + 1)) (iw (input s)) (ie (input s))) s) rd ed) as (r & i & rd' & res & E & Hi & Hl & Hres & Hrd).
    + split; [exact (proj1 Hs)|]. split; [exact Hr|]. destruct (proj2 (proj2 Hs)) as [He1 He2]. split; [exact He1|].
      intros Hne. specialize (He2 Hne). rewrite total_add in *. cbn [ready edit length] in *. lia.
    + apply Forall_app. split; [done|]. apply Forall_singleton. unfold ends_line.
      by rewrite !(proj2 (Z.eqb_neq _ _)) by done.
    + rewrite length_app. cbn [length]. lia.
    + rewrite fmap_app in E. exists r, i, rd', res. split; [exact E|]. split; [done|]. split; [cbn; lia|]. split; [done|].
      by rewrite <- app_assoc in Hrd.
Qed.

Lemma consoleread_ok s l n :
  represents s l -> held s = false -> (0 < n)%nat ->
  exists res s' rd, consoleread false (Z.of_nat n) s = Ret res s' /\ reads n (ready l) res rd /\
    represents s' (mk_editor rd (edit l)) /\ held s' = false /\
    ip_locked s' = match res with RdRet _ _ => true | RdSleep _ _ => false end.
Proof.
  intros Hs Hh Hn. destruct l as [rd ed]. unfold consoleread. erewrite bind_Ret by reflexivity.
  destruct (Z.ltb_spec 0 (Z.of_nat n)); [|lia]. rewrite Nat2Z.id. unfold consoleread_turn, acquire_cons, release_cons.
  erewrite bind_Ret by (unfold bind, gets; cbn [set_ip_locked held]; rewrite Hh; reflexivity).
  destruct (read_loop_ok n n [] (set_held true (set_ip_locked false s)) rd ed) as (r & i & rd' & res & E & Hi & Hl & Hres & Hrd);
    [exact Hs|constructor|cbn; lia|]. cbn [fmap list_fmap] in E. rewrite (bind_Ret _ _ _ _ _ E).
  erewrite bind_Ret by reflexivity. exists res.
  assert (Hrep : represents (set_held false (set_input i (set_held true (set_ip_locked false s)))) (mk_editor rd' ed)).
  { split; [exact (proj1 Hs)|]. split; [exact Hi|]. destruct (proj2 (proj2 Hs)) as [He1 He2]. split; [exact He1|].
    intros Hne. specialize (He2 Hne). rewrite total_add in *. cbn [ready edit] in *. lia. }
  destruct r; cbn [loop_res] in Hres; subst res; do 2 eexists; (split; [reflexivity|]); (split; [exact Hrd|]); (split; [exact Hrep|]); done.
Qed.

(** [consoleread] of [n > 0] bytes reads lines: it copies, and takes from the
    buffer, what [reads] says, whatever the positions of the 32-bit indices.  It
    has released the console lock, and it holds the inode's lock again unless
    it is asleep. *)
Theorem consoleread_reads_lines s l n :
  represents s l -> held s = false -> (0 < n)%nat ->
  exists res s' rd, consoleread false (Z.of_nat n) s = Ret res s' /\ reads n (ready l) res rd /\
    represents s' (mk_editor rd (edit l)) /\ held s' = false /\
    ip_locked s' = match res with RdRet _ _ => true | RdSleep _ _ => false end.
Proof. apply consoleread_ok. Qed.

Lemma line_unique l1 l2 c1 c2 r1 r2 : ordinary l1 -> ordinary l2 -> ends_line c1 = true -> ends_line c2 = true ->
  l1 ++ c1 :: r1 = l2 ++ c2 :: r2 -> l1 = l2 /\ c1 = c2 /\ r1 = r2.
Proof.
  intros H1. revert l2. induction H1 as [|x l1 Hx H1 IH]; intros l2 H2 E1 E2; destruct H2 as [|y l2 Hy H2]; cbn [app];
    intros [= ? ?]; subst; try congruence; [done|]. destruct (IH l2) as (-> & -> & ->); done.
Qed.

Lemma reads_of_line n t rest res rd : ordinary t -> (length t < n)%nat -> reads n (t ++ NL :: rest) res rd ->
  res = RdRet (zlen t + 1) ((u8 <$> t) ++ [NL]) /\ rd = rest.
Proof.
  intros Ht Hn. assert (Hno : forall line r, ordinary line -> (length t < length line)%nat -> line ++ r <> t ++ NL :: rest).
  { intros line r Hl Hlen E. assert (El : line !! length t = Some NL).
    { rewrite <- (lookup_app_l line r) by done. rewrite E. by apply list_lookup_middle. }
    by pose proof (Forall_lookup_1 _ _ _ _ Hl El). }
  remember (t ++ NL :: rest) as w eqn:Ew. intros H. destruct H as [line r Hl Hle|line r Hl Hle|line r Hl Hle|r Hle|line Hl Hle].
  - exfalso. apply (Hno line r Hl); [lia|done].
  - by apply line_unique in Ew as (-> & _ & ->).
  - apply line_unique in Ew as (_ & E & _); [by vm_compute in E|done..].
  - apply (line_unique [] t) in Ew as (_ & E & _); [by vm_compute in E|by constructor|done..].
  - exfalso. subst line. apply Forall_app in Hl as [_ Hl]. by apply Forall_cons in Hl as [? _].
Qed.

(** What is typed is what is read: after any keys that leave the text [t] on the
    line being edited (corrections included), the return key makes a pending or
    later read of more than [length t] bytes return [t] and a newline, and the
    buffer is empty again. *)
Theorem typed_line_is_read {D} (getc : D -> option (Z * D)) d ks d' s t n :
  stream getc d (ks ++ [13]) d' -> represents s (mk_editor [] []) -> held s = false ->
  fold_left ed_key ks (mk_editor [] []) = mk_editor [] t -> (length t < 127)%nat -> (length t < n)%nat ->
  exists dump s1 s2, consoleintr getc (S (length (ks ++ [13]))) d s = Ret (dump, d') s1 /\
    consoleread false (Z.of_nat n) s1 = Ret (RdRet (zlen t + 1) ((u8 <$> t) ++ [NL])) s2 /\
    represents s2 (mk_editor [] []).
Proof.
  intros Hst Hs Hh Hk Ht Hn. destruct (consoleintr_ok getc d _ d' s _ Hst Hs Hh) as (s1 & E & Hs1 & T).
  assert (Hed : editing (mk_editor [] t)).
  { rewrite <- Hk. apply (stream_editing getc d (ks ++ [13]) d'); [done|by exists [13]|by split]. }
  rewrite fold_left_app, Hk in Hs1. cbn [fold_left] in Hs1.
  change (ed_key (mk_editor [] t) 13) with (ed_put NL (mk_editor [] t)) in Hs1.
  unfold ed_put, total in Hs1. cbn [ready edit app] in Hs1. destruct (Nat.ltb_spec (length t) 128); [|lia].
  change (ends_line NL) with true in Hs1. cbn [orb] in Hs1.
  destruct T as (_ & _ & Hh1 & _). rewrite Hh in Hh1.
  destruct (consoleread_ok s1 _ n Hs1 Hh1) as (res & s2 & rd & E2 & Hrd & Hs2 & _); [lia|]. cbn [ready edit] in *.
  destruct (reads_of_line n t [] res rd) as [-> ->]; [apply Hed|done|exact Hrd|]. by eexists _, s1, s2.
Qed.

(** ** The devices deliver keys *)

Lemma uart_stream rx : stream (uartgetc true) rx (u8 <$> rx) [].
Proof.
  induction rx as [|b rx IH]; [by eapply stream_end|]. eapply stream_key; [done|apply u8_range|done].
Qed.

(** An idle console whose indices are about to wrap around. *)
Definition ex_idle : console :=
  set_input (mk_input (replicate 128 0) 4294967294 4294967294 4294967294) ex_console.
Lemma ex_idle_represents : represents ex_idle (mk_editor [] []).
Proof.
  split; [exact ex_console_quiet|]. split; [|by split; [constructor|]].
  split_and!; try done; cbn; lia.
Qed.

Lemma consoleintr_edits_lines_witness :
  exists s', consoleintr (uartgetc true) 5 [97; 98; 127; 13] ex_idle = Ret (false, []) s' /\
    represents s' (mk_editor [97; 10] []) /\ told [97; 98; 8; 32; 8; 10] ex_idle s'.
Proof.
  exact (consoleintr_edits_lines (uartgetc true) _ [97; 98; 127; 13] [] ex_idle (mk_editor [] [])
    (uart_stream [97; 98; 127; 13]) ex_idle_represents eq_refl).
Defined.

Lemma consoleread_reads_lines_witness :
  exists res s' rd, consoleread false 10 ex_idle = Ret res s' /\ reads 10 [] res rd /\
    represents s' (mk_editor rd []) /\ held s' = false /\
    ip_locked s' = match res with RdRet _ _ => true | RdSleep _ _ => false end.
Proof.
  apply (consoleread_reads_lines ex_idle (mk_editor [] []) 10 ex_idle_represents); [reflexivity|lia].
Defined.

Lemma typed_line_is_read_witness :
  exists dump s1 s2, consoleintr (uartgetc true) 6 [108; 115; 120; 8; 13] ex_idle = Ret (dump, []) s1 /\
    consoleread false 100 s1 = Ret (RdRet 3 [108; 115; 10]) s2 /\ represents s2 (mk_editor [] []).
Proof.
  apply (typed_line_is_read (uartgetc true) [108; 115; 120; 8; 13] [108; 115; 120; 8] [] ex_idle [108; 115] 100
    (uart_stream [108; 115; 120; 8; 13]) ex_idle_represents); try reflexivity; cbn; lia.
Defined.
