(* ===== verification/Keyboard.v ===== *)
(** * The keyboard types what is on the keys

    [kbdgetc] (kbd.c) keeps its modifiers in the bits of one word and finds
    characters in tables indexed by scan code (kbd.h).  The specification here
    has the keys of a US keyboard, row by row, with the modifiers as a record of
    booleans; the theorem says that the interrupt handler types exactly what the
    specification types. *)
From S2P Require Import Prelude Ulib Printf Console ConsoleProof ConsoleInput.

(** ** The keys *)






(** ** Typing *)









(** ** The tables hold the keys *)







(** The Home key, 0xE0 0x47, types nothing, unlike End, 0xE0 0x4F: the tables have it at
    the wrong place. *)
Lemma home_key_types_nothing :
  kbdgetc (mk_kbd E0ESC [0x47]) = Some (0, mk_kbd 0 []) /\ kbdgetc (mk_kbd E0ESC [0x4F]) = Some (0xE1, mk_kbd 0 []).
Proof. by vm_compute. Qed.

(** ** The interrupt *)






