(* ===== verification/File.v ===== *)
(** * Open files (file.c) and the allocation of pipes (pipe.c)

    The table of open files, shared by the descriptor tables of all processes,
    over the file system of Fs.v and the pipes of Pipe.v.  A [struct file *] is
    an index of the table and a [struct pipe *] an index of [pipes].  A call
    runs in the current process; one that would put it to sleep on a pipe ends
    with [Blocked]. *)
From S2P Require Import Prelude Memory Log Fs Pipe.

Definition NFILE : Z := 100.
Definition NOFILE : Z := 16.

Inductive ftype := FD_NONE | FD_PIPE | FD_INODE.

Record file := mk_file {
  f_type : ftype;
  f_ref : Z;
  f_readable : bool;
  f_writable : bool;
  f_pipe : nat;
  f_ip : nat;
  f_off : Z
}.

(** What the file layer uses of a process. *)
Record fproc := mk_fproc {
  ofile : list (option nat);
  cwd : nat;
  fkilled : bool
}.

Record kfs := mk_kfs {
  fs : fstate;
  ftable : list file;
  pipes : list pipe;
  pages : nat;             (* pages that kalloc can still give *)
  fprocs : list fproc;
  cur : nat;               (* the current process *)
  umem : gmap Z Z          (* bytes of its memory *)
}.

Notation U := (M kfs).

Inductive fres := Done (r : Z) | Blocked.

Definition set_fs (x : fstate) (s : kfs) : kfs :=
  mk_kfs x (ftable s) (pipes s) (pages s) (fprocs s) (cur s) (umem s).
Definition set_ftable (x : list file) (s : kfs) : kfs :=
  mk_kfs (fs s) x (pipes s) (pages s) (fprocs s) (cur s) (umem s).
Definition set_pipes (x : list pipe) (s : kfs) : kfs :=
  mk_kfs (fs s) (ftable s) x (pages s) (fprocs s) (cur s) (umem s).
Definition set_pages (x : nat) (s : kfs) : kfs :=
  mk_kfs (fs s) (ftable s) (pipes s) x (fprocs s) (cur s) (umem s).
Definition set_fprocs (x : list fproc) (s : kfs) : kfs :=
  mk_kfs (fs s) (ftable s) (pipes s) (pages s) x (cur s) (umem s).
Definition set_umem (x : gmap Z Z) (s : kfs) : kfs :=
  mk_kfs (fs s) (ftable s) (pipes s) (pages s) (fprocs s) (cur s) x.

Definition liftF {A} (m : F A) : U A :=
  fun s => match m (fs s) with
           | Ret a x => Ret a (set_fs x s)
           | Panic msg => Panic msg
           | Fault msg => Fault msg
           | OutOfFuel => OutOfFuel
           end.

(** An operation that would wait for log space waits for other processes. *)
Definition begin_op : U unit :=
  let* ok := liftF (lift begin_op_turn) in
  if ok then ret tt else fault "begin_op sleeps".
Definition end_op : U unit := liftF (lift Log.end_op).

Definition get_file (f : nat) : U file :=
  fun s => match ftable s !! f with Some x => Ret x s | None => Fault "bad file pointer" end.
Definition put_file (f : nat) (x : file) : U unit :=
  modify (fun s => set_ftable (<[f := x]> (ftable s)) s).
Definition get_pipe (p : nat) : U pipe :=
  fun s => match pipes s !! p with Some x => Ret x s | None => Fault "bad pipe pointer" end.
Definition put_pipe (p : nat) (x : pipe) : U unit :=
  modify (fun s => set_pipes (<[p := x]> (pipes s)) s).
Definition myproc : U fproc :=
  fun s => match fprocs s !! cur s with Some x => Ret x s | None => Fault "no current process" end.

Definition set_fref (x : file) (n : Z) : file :=
  mk_file (f_type x) n (f_readable x) (f_writable x) (f_pipe x) (f_ip x) (f_off x).
Definition set_off (x : file) (n : Z) : file :=
  mk_file (f_type x) (f_ref x) (f_readable x) (f_writable x) (f_pipe x) (f_ip x) n.
Definition set_none (x : file) : file :=
  mk_file FD_NONE 0 (f_readable x) (f_writable x) (f_pipe x) (f_ip x) (f_off x).

(** ** file.c *)

Fixpoint free_file (l : list file) (i : nat) : option nat :=
  match l with
  | [] => None
  | x :: l' => if f_ref x =? 0 then Some i else free_file l' (S i)
  end.

Definition filealloc : U (option nat) :=
  let* l := gets ftable in
  match free_file l 0 with
  | None => ret None
  | Some f =>
      let* x := get_file f in
      do* put_file f (set_fref x 1) in
      ret (Some f)
  end.

Definition filedup (f : nat) : U nat :=
  let* x := get_file f in
  if f_ref x <? 1 then panic "filedup"
  else
    do* put_file f (set_fref x (f_ref x + 1)) in
    ret f.

(** [pipeclose]: the page goes back to the allocator when both ends are closed. *)
Definition pclose (p : nat) (writable : bool) : U unit :=
  let* x := get_pipe p in
  let '(x', freed, _) := pipeclose writable x in
  do* put_pipe p x' in
  if freed then modify (fun s => set_pages (S (pages s)) s) else ret tt.

Definition fileclose (f : nat) : U unit :=
  let* x := get_file f in
  if f_ref x <? 1 then panic "fileclose"
  else if 0 <? f_ref x - 1 then put_file f (set_fref x (f_ref x - 1))
  else
    do* put_file f (set_none x) in
    match f_type x with
    | FD_PIPE => pclose (f_pipe x) (f_writable x)
    | FD_INODE =>
        do* begin_op in
        do* liftF (iput (f_ip x)) in
        end_op
    | FD_NONE => ret tt
    end.

Definition filestat (f : nat) : U (option stat) :=
  let* x := get_file f in
  match f_type x with
  | FD_INODE =>
      do* liftF (ilock (Some (f_ip x))) in
      let* ip := liftF (get_inode (f_ip x)) in
      do* liftF (iunlock (Some (f_ip x))) in
      ret (Some (stati ip))
  | _ => ret None
  end.

(** ** pipe.c *)

(** The new pipe is set up in a page of the allocator, which [kfree] has filled
    with ones. *)
Definition kalloc_pipe : U (option nat) :=
  let* k := gets pages in
  match k with
  | O => ret None
  | S k' =>
      let* l := gets pipes in
      do* modify (set_pages k') in
      do* modify (set_pipes (l ++ [pipe_init (replicate 512 1)])) in
      ret (Some (length l))
  end.

Definition pipe_end (x : file) (p : nat) (writable : bool) : file :=
  mk_file FD_PIPE (f_ref x) (negb writable) writable p (f_ip x) (f_off x).

Definition pipealloc : U (option (nat * nat)) :=
  let* f0 := filealloc in
  match f0 with
  | None => ret None
  | Some f0 =>
      let* f1 := filealloc in
      match f1 with
      | None => do* fileclose f0 in ret None
      | Some f1 =>
          let* p := kalloc_pipe in
          match p with
          | None => do* fileclose f0 in do* fileclose f1 in ret None
          | Some p =>
              let* x0 := get_file f0 in
              do* put_file f0 (pipe_end x0 p false) in
              let* x1 := get_file f1 in
              do* put_file f1 (pipe_end x1 p true) in
              ret (Some (f0, f1))
          end
      end
  end.

(** [piperead] and [pipewrite] until they return or sleep.  The channels they wake
    belong to other processes. *)
Definition piperead (p : nat) (n : Z) : U (fres * list Z) :=
  let* me := myproc in
  let* x := get_pipe p in
  let '(x', r, _) := piperead_run (fkilled me) n x in
  do* put_pipe p x' in
  match r with
  | RDone l => ret (Done (Z.of_nat (length l)), l)
  | RFail => ret (Done (-1), [])
  | RSleep => ret (Blocked, [])
  end.

Definition pipewrite (p : nat) (src : list Z) : U fres :=
  let* me := myproc in
  let* x := get_pipe p in
  let '(x', r, _) := pipewrite_run (fkilled me) src x in
  do* put_pipe p x' in
  match r with
  | WDone => ret (Done (Z.of_nat (length src)))
  | WFail _ => ret (Done (-1))
  | WSleep _ => ret Blocked
  end.

Section Rw.
Context (dev_read : Z -> option (nat -> Z -> F (option (list Z)))).
Context (dev_write : Z -> option (nat -> list Z -> F (option Z))).

(** The result, and the bytes copied out. *)
Definition fileread (f : nat) (n : Z) : U (fres * list Z) :=
  let* x := get_file f in
  if negb (f_readable x) then ret (Done (-1), [])
  else match f_type x with
       | FD_PIPE => piperead (f_pipe x) n
       | FD_INODE =>
           do* liftF (ilock (Some (f_ip x))) in
           let* r := liftF (readi dev_read (f_ip x) (f_off x) n) in
           do* (match r with
                | Some l => if 0 <? Z.of_nat (length l) then put_file f (set_off x (u32 (f_off x + Z.of_nat (length l)))) else ret tt
                | None => ret tt
                end) in
           do* liftF (iunlock (Some (f_ip x))) in
           match r with
           | Some l => ret (Done (Z.of_nat (length l)), l)
           | None => ret (Done (-1), [])
           end
       | FD_NONE => panic "fileread"
       end.

(** Bytes of one transaction. *)
Definition MAXWRITE : Z := ((MAXOPBLOCKS - 1 - 1 - 2) / 2) * 512.

(** One transaction of the loop. *)
Definition filewrite_txn (f : nat) (chunk : list Z) : U (option Z) :=
  do* begin_op in
  let* x := get_file f in
  do* liftF (ilock (Some (f_ip x))) in
  let* r := liftF (writei dev_write (f_ip x) chunk (f_off x)) in
  do* (match r with
       | Some r => if 0 <? r then put_file f (set_off x (u32 (f_off x + r))) else ret tt
       | None => ret tt
       end) in
  do* liftF (iunlock (Some (f_ip x))) in
  do* end_op in
  ret r.

(** The loop over the bytes still to write. *)
Fixpoint filewrite_loop (fuel : nat) (f : nat) (src : list Z) : U bool :=
  match fuel with
  | O => fun _ => OutOfFuel
  | S k =>
      match src with
      | [] => ret true
      | _ =>
          let n1 := Z.min (Z.of_nat (length src)) MAXWRITE in
          let* r := filewrite_txn f (take (Z.to_nat n1) src) in
          match r with
          | None => ret false
          | Some r =>
              if r <? 0 then ret false
              else if negb (r =? n1) then panic "short filewrite"
              else filewrite_loop k f (drop (Z.to_nat n1) src)
          end
      end
  end.

Definition filewrite (f : nat) (src : list Z) : U fres :=
  let* x := get_file f in
  if negb (f_writable x) then ret (Done (-1))
  else match f_type x with
       | FD_PIPE => pipewrite (f_pipe x) src
       | FD_INODE =>
           let* all := filewrite_loop (S (length src)) f src in
           ret (Done (if all then Z.of_nat (length src) else -1))
       | FD_NONE => panic "filewrite"
       end.
End Rw.
