(* ===== verification/FileProof.v ===== *)
(** * Writing and reading through open files

    [filewrite] cuts a write into transactions.  Each one fits into the log and
    is committed before the next begins; together they do what one write does. *)
From S2P Require Import Prelude Memory KString Log LogProof Fs FsProof Pipe File.

#[local] Opaque BSIZE BPB.

(** ** Transactions *)

Section Txn.
(** The log starts at block [lst] and has [lsz] blocks. *)
Context (lst lsz : Z).

(** Between two transactions. *)
Record idle (d : dstate) : Prop := {
  id_none : outstanding (log d) = 0;
  id_quiet : committing (log d) = false;
  id_start : start (log d) = lst;
  id_size : size (log d) = lsz;
  id_lh : lh_block (log d) = [];
  id_cached : forall b, cached d !! b = None;
  id_empty : decode (disk_at (disk d) lst) = []
}.

(** The first state of a transaction, opened when nothing else was going on. *)
Definition opened (d d1 : dstate) : Prop :=
  outstanding (log d1) = 1 /\ size (log d1) = lsz /\ disk d1 = disk d /\ trace d1 = trace d.

Definition log_room : Z := Z.min LOGSIZE (lsz - 1).

Lemma begin_txn s : idle (ds s) ->
  exists s', lift begin_op_turn s = Ret true s' /\ sb s' = sb s /\ icache s' = icache s /\
    opened (ds s) (ds s') /\ room lst lsz (ds s') s' log_room /\ forall b, vw s' b = vw s b.
Proof using Type.
  intros [H1 H2 H3 H4 H5 H6 H7]. unfold lift, begin_op_turn, gets, bind. rewrite H2, H5, H1. cbn [length].
  unfold LOGSIZE, MAXOPBLOCKS. destruct (Z.ltb_spec (10 * 3) (Z.of_nat 0 + (0 + 1) * 10)); [lia|].
  eexists. split; [reflexivity|]. split; [done|]. split; [done|]. split; [done|]. split; [|done]. split; cbn.
  - split; cbn; rewrite ?H5; try done; first [split; lia|apply NoDup_nil_2].
  - rewrite H5, H4. unfold log_room. cbn. lia.
Qed.

Lemma in_txn_ready D0 d : in_txn lst lsz D0 d -> Z.of_nat (length (lh_block (log d))) <= log_room -> log_ready d.
Proof using Type.
  intros [H1 H2 H3 H4 H5 H6 H7 H8] Hl. unfold log_room in Hl. split; rewrite ?H3, ?H4; try done; try lia.
  - eapply Forall_impl; [exact H7|]. by intros b [? _].
  - eapply Forall_impl; [exact H7|]. by intros b [_ ?].
Qed.

Lemma end_op_commit d : outstanding (log d) = 1 -> committing (log d) = false ->
  Log.end_op d = (do* commit in end_op_leave)
    (with_log d (mk_log (start (log d)) (size (log d)) 0 true (lh_block (log d)))).
Proof using Type.
  intros H1 H2. unfold Log.end_op.
  rewrite (bind_Ret _ _ d true (with_log d (mk_log (start (log d)) (size (log d)) 0 true (lh_block (log d))))); [done|].
  unfold end_op_enter, bind, gets, set_outstanding, set_committing, modify. by rewrite H2, H1.
Qed.

(** The end of a transaction: the writes are at home, and a crash at any of the
    writes of the commit leaves the disk, once recovered, as before or as
    after. *)
Definition atomic_from (d d' : dstate) : Prop :=
  exists ws, trace d' = trace d ++ ws /\
    forall k, exists r, recover_from_log (boot (apply_writes (disk d) (take k ws)) lst lsz) = Ret tt r /\
      ((forall b, home lst lsz b -> disk_at (disk r) b = disk_at (disk d) b) \/
       (forall b, home lst lsz b -> disk_at (disk r) b = view d' b)).

Lemma commit_txn d0 d1 d : opened d0 d1 -> in_txn lst lsz d1 d -> Z.of_nat (length (lh_block (log d))) <= log_room ->
  idle d0 ->
  exists d', Log.end_op d = Ret tt d' /\ idle d' /\ (forall b, home lst lsz b -> view d' b = view d b) /\ atomic_from d0 d'.
Proof using Type.
  intros (Ho1 & Hs1 & Hd1 & Ht1) Ht Hl Hid. pose proof (in_txn_ready _ _ Ht Hl) as Hr.
  destruct Ht as [[Ho _] Hq Hst Hsz [Hdk Htr] Hnd Hbl Hca He]. rewrite end_op_commit by congruence. set (d2 := with_log d _).
  assert (Hr1 : log_ready d2) by (by destruct Hr). assert (Ed : disk d = disk d0) by congruence.
  destruct (lh_block (log d)) as [|b0 bs] eqn:Elh.
  - eexists. split; [reflexivity|]. assert (Hc : forall b, cached d !! b = None) by (intros b; apply Hca; by apply not_elem_of_nil).
    split; [split; try done; cbn; congruence|]. split; [done|]. exists []. split; [cbn; rewrite app_nil_r; congruence|].
    intros k. destruct (recover_spec lst lsz (disk d0) (disk_at (disk d0))) as (r & Er & _ & _ & Hv & _).
    { apply recoverable_clean; [unfold log_room in Hl; cbn in Hl; lia|by rewrite <- Ed|done]. }
    exists r. rewrite take_nil. split; [exact Er|]. left. intros b Hb. by apply Hv.
  - destruct (commit_atomic d2 Hr1) as (d3 & ws & E & Htr3 & Hlh & Hhome & Hat); [done|].
    destruct (commit_spec d2 Hr1) as (h0 & d3' & E' & Hh0 & Hd & _ & Hc & Hlg); [done|].
    rewrite E in E'. injection E' as <-. rewrite (bind_Ret _ _ _ _ _ E). eexists. split; [reflexivity|].
    assert (Hv : forall b, home lst lsz b -> disk_at (disk d3) b = view d b) by (intros b Hb; apply Hhome; cbn; by rewrite Hst, Hsz).
    split; [|split].
    + split; cbn; rewrite ?Hlg; try done; [intros b; rewrite Hc; apply lookup_empty|].
      rewrite Hd, <- Hst. change (start (log d)) with (start (log d2)). by rewrite commit_header.
    + intros b Hb. unfold view at 1. cbn. rewrite Hc, lookup_empty. by apply Hv.
    + exists ws. split; [cbn; rewrite Htr3; cbn; congruence|]. intros k. destruct (Hat k) as (r & Er & Hcase).
      exists r. cbn in Er, Hcase. rewrite Hst, Hsz, Ed in Er. split; [exact Er|]. rewrite Hst, Hsz, Ed in Hcase.
      destruct Hcase as [Hc1|Hc1]; [by left|]. right. intros b Hb. rewrite (Hc1 b Hb). unfold view at 2. cbn. rewrite Hc, lookup_empty.
      by rewrite Hv.
Qed.

Lemma end_txn s0 d1 s : opened (ds s0) d1 -> idle (ds s0) -> room lst lsz d1 s 0 ->
  exists s', lift Log.end_op s = Ret tt s' /\ sb s' = sb s /\ icache s' = icache s /\ idle (ds s') /\
    (forall b, home lst lsz b -> vw s' b = vw s b) /\ atomic_from (ds s0) (ds s').
Proof using Type.
  intros Hop Hid [Ht Hl]. destruct (commit_txn (ds s0) d1 (ds s) Hop Ht) as (d' & E & Hi & Hv & Ha); [unfold log_room; rewrite <- (tx_size _ _ _ _ Ht); lia|done|].
  exists (mk_fstate d' (sb s) (icache s)). unfold lift. by rewrite E.
Qed.

(** ** What a commit keeps *)

Context (dstart : Z).
#[local] Notation fs_ok := (fs_ok lst lsz dstart).
#[local] Notation ino_ok := (ino_ok dstart).

Definition same_home (s s' : fstate) : Prop := sb s' = sb s /\ forall b, home lst lsz b -> vw s' b = vw s b.

Lemma used_same s s' n : fs_ok s -> same_home s s' -> 0 <= n < sb_size (sb s) -> used s' n = used s n.
Proof using Type.
  intros Hok [Hsb Hv] Hn. unfold used. rewrite Hsb, Hv; [done|].
  exact (proj2 (loggable_bmap _ _ _ _ _ (fo_layout _ _ _ _ Hok) Hn)).
Qed.

Lemma fs_ok_same s s' : fs_ok s -> same_home s s' -> fs_ok s'.
Proof using Type.
  intros Hok Hh. pose proof (fo_layout _ _ _ _ Hok) as Hly. split; [by rewrite (proj1 Hh)|].
  intros b Hb. rewrite (used_same s) by (done || (pose proof (ly_size _ _ _ _ Hly); lia)). by apply (fo_meta _ _ _ _ Hok).
Qed.

Lemma sl_same s s' ip k : fs_ok s -> ino_ok s ip -> same_home s s' -> 0 <= k <= 140 -> sl s' ip k = sl s ip k.
Proof using Type.
  intros Hok Hino [Hsb Hv] Hk. unfold sl. destruct (k <? 12); [done|]. destruct (k =? 140); [done|].
  destruct (Z.eqb_spec (addr_at (iaddrs ip) 12) 0) as [|Hn]; [done|]. rewrite Hv; [done|].
  rewrite <- (sl_140 s) in *. exact (proj2 (loggable_slot lst lsz dstart s ip 140 Hok Hino ltac:(lia) Hn)).
Qed.

Lemma content_same s s' ip o : fs_ok s -> ino_ok s ip -> same_home s s' -> 0 <= o < 140 * 512 ->
  content s' ip o = content s ip o.
Proof using Type.
  intros Hok Hino Hh Ho. unfold content. assert (Hq : 0 <= o / 512 <= 140) by (Z.div_mod_to_equations; lia).
  rewrite (sl_same s) by done. destruct (Z.eqb_spec (sl s ip (o / 512)) 0) as [|Hn]; [done|].
  rewrite (proj2 Hh); [done|]. exact (proj2 (loggable_slot _ _ _ _ _ _ Hok Hino Hq Hn)).
Qed.

Lemma ino_ok_same s s' ip : fs_ok s -> ino_ok s ip -> same_home s s' -> ino_ok s' ip.
Proof using Type.
  intros Hok Hino Hh. pose proof Hino as [H1 H2 H3]. split; [done|..].
  - intros k Hk. rewrite (sl_same s) by done. rewrite (proj1 Hh). intros Hn. destruct (H2 k Hk Hn) as [H4 H5].
    split; [done|]. rewrite (used_same s); [done..|]. pose proof (ly_pos _ _ _ _ (fo_layout _ _ _ _ Hok)). lia.
  - intros k k' Hk Hk'. rewrite (sl_same s s' ip k), (sl_same s s' ip k') by done. by apply H3.
Qed.

(** ** One transaction of a write *)

(** The inode of an open file, unlocked. *)
Record open_ino (s : fstate) (i : nat) (ip : inode) : Prop := {
  oi_cache : icache s !! i = Some ip;
  oi_unlocked : ilocked ip = false;
  oi_valid : ivalid ip = true;
  oi_ref : 1 <= iref ip;
  oi_type : itype ip <> T_DEV;
  oi_num : 0 <= inum ip < sb_ninodes (sb s);
  oi_ok : ino_ok s ip
}.

Lemma open_ino_upd s s' i ip ip' : open_ino s i ip -> sb s' = sb s -> icache s' !! i = Some ip' -> ino_ok s' ip' ->
  ip' = set_ilocked (set_isize (set_addrs ip (iaddrs ip')) (isize ip')) false -> open_ino s' i ip'.
Proof using Type. intros [H1 H2 H3 H4 H5 H6 H7] Hsb Hi Hok E. split; rewrite ?Hsb; try done; by rewrite E. Qed.

Lemma ilock_valid s i ip : icache s !! i = Some ip -> ilocked ip = false -> ivalid ip = true -> 1 <= iref ip ->
  ilock (Some i) s = Ret tt (with_inode s i (set_ilocked ip true)) /\
  icache (with_inode s i (set_ilocked ip true)) !! i = Some (set_ilocked ip true).
Proof using Type.
  intros Hc Hu Hv Hr. assert (Hi : icache (with_inode s i (set_ilocked ip true)) !! i = Some (set_ilocked ip true))
    by (apply list_lookup_insert_eq; by eapply lookup_lt_Some). split; [|done].
  unfold ilock. rewrite (bind_Ret _ _ _ _ _ (get_inode_spec _ _ _ Hc)). destruct (Z.ltb_spec (iref ip) 1); [lia|].
  unfold acquire_ilock. rewrite bind_assoc, (bind_Ret _ _ _ _ _ (get_inode_spec _ _ _ Hc)), Hu.
  erewrite bind_Ret by reflexivity. fold (with_inode s i (set_ilocked ip true)).
  rewrite (bind_Ret _ _ _ _ _ (get_inode_spec _ _ _ Hi)). cbn [set_ilocked ivalid]. by rewrite Hv.
Qed.

Lemma ilock_open s i ip : open_ino s i ip ->
  ilock (Some i) s = Ret tt (with_inode s i (set_ilocked ip true)) /\
  icache (with_inode s i (set_ilocked ip true)) !! i = Some (set_ilocked ip true).
Proof using Type. intros [Hc Hu Hv Hr _ _ _]. by apply ilock_valid. Qed.

Lemma iunlock_held s i ip : icache s !! i = Some ip -> ilocked ip = true -> 1 <= iref ip ->
  iunlock (Some i) s = Ret tt (with_inode s i (set_ilocked ip false)).
Proof using Type.
  intros Hc Hl Hr. unfold iunlock. rewrite (bind_Ret _ _ _ _ _ (get_inode_spec _ _ _ Hc)), Hl.
  destruct (Z.ltb_spec (iref ip) 1); [lia|]. cbn [negb orb]. unfold release_ilock.
  by rewrite (bind_Ret _ _ _ _ _ (get_inode_spec _ _ _ Hc)).
Qed.

(** [src] is in the file at [off], and the rest is as it was. *)
Record filled (s : fstate) (ip : inode) (off : Z) (src : list Z) (s' : fstate) (ip' : inode) : Prop := {
  fi_size : isize ip' = Z.max (isize ip) (off + Z.of_nat (length src));
  fi_content : forall o, 0 <= o < 140 * 512 -> content s' ip' o =
    if decide (off <= o < off + Z.of_nat (length src)) then default 0 (src !! Z.to_nat (o - off)) else content s ip o;
  fi_blocks : forall o, off <= o < off + Z.of_nat (length src) -> sl s' ip' (o / 512) <> 0;
  fi_old : forall k, 0 <= k <= 140 -> sl s ip k <> 0 -> sl s' ip' k <> 0
}.

(** A state between transactions in which [i] is open. *)
Record calm (s : fstate) (i : nat) (ip : inode) (f : nat) : Prop := {
  ca_idle : idle (ds s);
  ca_fs : fs_ok s;
  ca_ino : open_ino s i ip;
  ca_free : free_blocks s f
}.

Lemma write_txn dev_write s i ip src off f :
  25 <= log_room -> calm s i ip (8 + f) -> 0 <= off <= isize ip -> off + Z.of_nat (length src) <= 140 * 512 ->
  Forall (fun b => 0 <= b < 256) src -> Z.of_nat (length src) <= MAXWRITE ->
  exists s1 s2 s3 s4 s5 ip', lift begin_op_turn s = Ret true s1 /\ ilock (Some i) s1 = Ret tt s2 /\
    writei dev_write i src off s2 = Ret (Some (Z.of_nat (length src))) s3 /\ iunlock (Some i) s3 = Ret tt s4 /\
    lift Log.end_op s4 = Ret tt s5 /\ calm s5 i ip' f /\ filled s ip off src s5 ip' /\
    icache s5 = <[i := ip']> (icache s) /\ atomic_from (ds s) (ds s5).
Proof using Type.
  intros Hroom [Hid Hfs Hin Hfr] Hoff Hmax Hby Hlen. destruct (begin_txn s Hid) as (s1 & E1 & Hsb1 & Hic1 & Hop & Hr1 & Hv1).
  assert (Hh1 : same_home s s1) by (split; auto). assert (Hfs1 := fs_ok_same _ _ Hfs Hh1).
  assert (Hin1 : open_ino s1 i ip).
  { destruct Hin as [Hc H2 H3 H4 H5 H6 H7]. split; rewrite ?Hic1, ?Hsb1; try done. by apply (ino_ok_same s). }
  destruct (ilock_open _ _ _ Hin1) as [E2 Hc2]. set (ip2 := set_ilocked ip true) in *. set (s2 := with_inode s1 i ip2) in *.
  assert (Hfs2 : fs_ok s2) by (destruct Hfs1; by split).
  assert (Hino2 : ino_ok s2 ip2) by (destruct (oi_ok _ _ _ Hin1); by split).
  assert (Hs2 : supply lst lsz (ds s1) s2 (6 * Z.of_nat 4 + 1) (2 * 4 + f)).
  { split; [eapply (room_weaken lst lsz (ds s1) s1); [exact Hr1|cbn; lia]|]. apply (free_blocks_same s1 s2); [done..|].
    apply (free_blocks_same s s1); [done| |done]. intros n Hn. by apply used_same. }
  destruct (writei_supply lst lsz (ds s1) dstart dev_write s2 i ip2 src off 4 f Hfs2 Hino2 Hc2) as
    (s3 & ip3 & E3 & Hic3 & Hip3 & Hco3 & Hbl3 & Hold3 & Hfs3 & Hino3 & _ & Hs3 & Hsb3); try done.
  { apply Hin1. } { apply Hin1. } { change MAXWRITE with 1536 in Hlen. pose proof (Z.mod_pos_bound off 512). lia. }
  assert (Hc3 : icache s3 !! i = Some ip3) by (rewrite Hic3; apply list_lookup_insert_eq; by eapply lookup_lt_Some).
  assert (E4 : iunlock (Some i) s3 = Ret tt (with_inode s3 i (set_ilocked ip3 false)))
    by (apply iunlock_held; [done|by rewrite Hip3|rewrite Hip3; apply Hin1]).
  set (ip' := set_ilocked ip3 false) in *. set (s4 := with_inode s3 i ip') in *.
  assert (Hr4 : room lst lsz (ds s1) s4 0) by exact (proj1 Hs3).
  destruct (end_txn s _ s4 Hop Hid Hr4) as (s5 & E5 & Hsb5 & Hic5 & Hid5 & Hv5 & Hat).
  assert (Hh5 : same_home s4 s5) by done. assert (Hfs4 : fs_ok s4) by (destruct Hfs3; by split).
  assert (Hino4 : ino_ok s4 ip') by (destruct Hino3; by split). assert (Hsb : sb s5 = sb s) by exact (eq_trans Hsb5 (eq_trans Hsb3 Hsb1)).
  exists s1, s2, s3, s4, s5, ip'. do 5 (split; [eassumption|]). split; [|split; [|split; [|exact Hat]]].
  - split; [exact Hid5|by apply (fs_ok_same s4)| |].
    + apply (open_ino_upd s s5 i ip); [exact Hin|exact Hsb| |by apply (ino_ok_same s4)|].
      * rewrite Hic5. apply list_lookup_insert_eq. by eapply lookup_lt_Some.
      * unfold ip'. by rewrite Hip3.
    + apply (free_blocks_same s4 s5); [done| |exact (proj2 Hs3)]. intros n Hn. by apply used_same.
  - split.
    + unfold ip'. cbn. by rewrite Hip3.
    + intros o Ho. rewrite (content_same s4 s5 ip' o Hfs4 Hino4 Hh5 Ho).
      etransitivity; [exact (Hco3 o Ho)|]. case_decide; [done|]. exact (content_same s s1 ip o Hfs (oi_ok _ _ _ Hin) Hh1 Ho).
    + intros o Ho. rewrite (sl_same s4 s5) by (done || (Z.div_mod_to_equations; lia)). by apply Hbl3.
    + intros k Hk Hn. rewrite (sl_same s4 s5) by done. change (sl s3 ip3 k <> 0).
      assert (H1 : sl s2 ip2 k = sl s ip k) by exact (sl_same s s1 ip k Hfs (oi_ok _ _ _ Hin) Hh1 Hk).
      rewrite (Hold3 k Hk); by rewrite H1.
  - rewrite Hic5. unfold s4, with_inode. cbn [icache]. rewrite Hic3. unfold s2, with_inode. cbn [icache].
    by rewrite Hic1, !list_insert_insert_eq.
Qed.

(** ** Several transactions *)

Lemma filled_nil s ip off : off <= isize ip -> filled s ip off [] s ip.
Proof using Type.
  intros Hoff. split; cbn [length]; try done; [lia| |lia]. intros o Ho. case_decide; [lia|done].
Qed.

Lemma filled_app s1 ip1 off src1 s2 ip2 src2 s3 ip3 :
  0 <= off -> off + Z.of_nat (length (src1 ++ src2)) <= 140 * 512 ->
  filled s1 ip1 off src1 s2 ip2 -> filled s2 ip2 (off + Z.of_nat (length src1)) src2 s3 ip3 ->
  filled s1 ip1 off (src1 ++ src2) s3 ip3.
Proof using Type.
  intros H0 Hmax [A1 A2 A3 A4] [B1 B2 B3 B4]. rewrite length_app, Nat2Z.inj_add in *. split.
  - rewrite B1, A1, length_app. lia.
  - intros o Ho. rewrite B2, A2 by done. rewrite length_app, Nat2Z.inj_add.
    destruct (decide (off + Z.of_nat (length src1) <= o < off + Z.of_nat (length src1) + Z.of_nat (length src2))).
    + rewrite decide_True by lia. rewrite lookup_app_r by lia. do 2 f_equal. lia.
    + destruct (decide (off <= o < off + Z.of_nat (length src1))).
      * rewrite decide_True by lia. by rewrite lookup_app_l by lia.
      * by rewrite decide_False by lia.
  - intros o Ho. rewrite length_app, Nat2Z.inj_add in Ho. destruct (Z.lt_ge_cases o (off + Z.of_nat (length src1))); [|apply B3; lia].
    apply B4; [Z.div_mod_to_equations; lia|]. apply A3. lia.
  - intros k Hk Hn. apply B4; [done|]. by apply A4.
Qed.

Lemma liftF_Ret {A} (m : F A) s a x : m (fs s) = Ret a x -> liftF m s = Ret a (set_fs x s).
Proof using Type. unfold liftF. by intros ->. Qed.

Lemma begin_op_Ret s x : lift begin_op_turn (fs s) = Ret true x -> begin_op s = Ret tt (set_fs x s).
Proof using Type. intros E. unfold begin_op. by rewrite (bind_Ret _ _ _ _ _ (liftF_Ret _ _ _ _ E)). Qed.

Lemma get_file_Ret s f x : ftable s !! f = Some x -> get_file f s = Ret x s.
Proof using Type. unfold get_file. by intros ->. Qed.

Lemma filewrite_loop_nil dev_write k f s : (0 < k)%nat -> filewrite_loop dev_write k f [] s = Ret true s.
Proof using Type. by destruct k; [lia|]. Qed.

(** One turn of the loop. *)
Lemma filewrite_turn dev_write s f x ip src k n :
  25 <= log_room -> ftable s !! f = Some x -> calm (fs s) (f_ip x) ip (8 + n) ->
  src <> [] -> 0 <= f_off x <= isize ip -> f_off x + Z.of_nat (length src) <= 140 * 512 ->
  Forall (fun b => 0 <= b < 256) src ->
  let m := Z.to_nat (Z.min (Z.of_nat (length src)) MAXWRITE) in
  exists x1 ip1, let s1 := set_ftable (<[f := set_off x (f_off x + Z.of_nat m)]> (ftable s)) (set_fs x1 s) in
    filewrite_loop dev_write (S k) f src s = filewrite_loop dev_write k f (drop m src) s1 /\
    calm x1 (f_ip x) ip1 n /\ filled (fs s) ip (f_off x) (take m src) x1 ip1 /\
    icache x1 = <[f_ip x := ip1]> (icache (fs s)) /\ atomic_from (ds (fs s)) (ds x1).
Proof using Type.
  intros Hroom Hf Hc Hne Hoff Hmax Hby m. change MAXWRITE with 1536 in m.
  assert (Hl : length (take m src) = m) by (rewrite length_take; unfold m; lia).
  assert (0 < m <= 1536)%nat by (unfold m; destruct src; [done|cbn [length]; lia]).
  destruct (write_txn dev_write (fs s) (f_ip x) ip (take m src) (f_off x) n Hroom Hc Hoff) as
    (y1 & y2 & y3 & y4 & y5 & ip' & E1 & E2 & E3 & E4 & E5 & Hc' & Hfi & Hic & Hat);
    [rewrite Hl; unfold m in *; lia|by apply Forall_take|rewrite Hl; change MAXWRITE with 1536; lia|].
  exists y5, ip'. split; [|done]. rewrite Hl in E3.
  assert (E : filewrite_txn dev_write f (take m src) s = Ret (Some (Z.of_nat m))
    (set_ftable (<[f := set_off x (f_off x + Z.of_nat m)]> (ftable s)) (set_fs y5 s))).
  { unfold filewrite_txn. rewrite (bind_Ret _ _ _ _ _ (begin_op_Ret s y1 E1)).
    rewrite (bind_Ret _ _ (set_fs y1 s) _ _ (get_file_Ret (set_fs y1 s) f x Hf)).
    rewrite (bind_Ret _ _ _ _ _ (liftF_Ret _ (set_fs y1 s) _ _ E2)).
    rewrite (bind_Ret _ _ _ _ _ (liftF_Ret _ (set_fs y2 (set_fs y1 s)) _ _ E3)).
    destruct (Z.ltb_spec 0 (Z.of_nat m)); [|lia]. unfold put_file, modify. unfold bind at 1.
    rewrite u32_small by lia. erewrite bind_Ret by (apply liftF_Ret; exact E4).
    unfold end_op. by erewrite bind_Ret by (apply liftF_Ret; exact E5). }
  destruct src as [|c l]; [done|]. cbn [filewrite_loop]. change MAXWRITE with 1536. fold m. rewrite (bind_Ret _ _ _ _ _ E).
  destruct (Z.ltb_spec (Z.of_nat m) 0); [lia|].
  replace (Z.min (Z.of_nat (length (c :: l))) 1536) with (Z.of_nat m) by (unfold m; lia). by rewrite Z.eqb_refl.
Qed.

(** The files other than [f], and everything but the file system, stay. *)
Lemma filewrite_loop_ok dev_write N : forall s f x ip src k,
  25 <= log_room -> ftable s !! f = Some x -> calm (fs s) (f_ip x) ip (8 * N) ->
  Z.of_nat (length src) <= 1536 * Z.of_nat N -> (length src <= k)%nat ->
  0 <= f_off x <= isize ip -> f_off x + Z.of_nat (length src) <= 140 * 512 -> Forall (fun b => 0 <= b < 256) src ->
  exists x1 ip1, filewrite_loop dev_write (S k) f src s =
      Ret true (set_ftable (<[f := set_off x (f_off x + Z.of_nat (length src))]> (ftable s)) (set_fs x1 s)) /\
    calm x1 (f_ip x) ip1 0 /\ filled (fs s) ip (f_off x) src x1 ip1 /\
    icache x1 = <[f_ip x := ip1]> (icache (fs s)).
Proof using Type.
  induction N as [|N IH]; intros s f x ip src k Hroom Hf Hc HN Hk Hoff Hmax Hby;
    (destruct src as [|c src0] eqn:Es; [|rewrite <- Es in *]).
  1,3: exists (fs s), ip; cbn [filewrite_loop length]; rewrite Z.add_0_r, list_insert_id by (by destruct x); split; [by destruct s|];
    split; [destruct Hc as [H1 H2 H3 (l & H4 & H5 & H6)]; split; try done; exists l; split; [done|]; split; [lia|done]|];
    split; [apply filled_nil; lia|]; rewrite list_insert_id; [done|apply Hc].
  { rewrite Es in HN. cbn in HN. lia. }
  destruct k as [|k]; [rewrite Es in Hk; cbn in Hk; lia|].
  destruct (filewrite_turn dev_write s f x ip src (S k) (8 * N) Hroom Hf) as (x1 & ip1 & E & Hc1 & Hf1 & Hi1 & _); try done.
  { by replace (8 + 8 * N)%nat with (8 * S N)%nat by lia. } { by rewrite Es. }
  set (m := Z.to_nat (Z.min (Z.of_nat (length src)) MAXWRITE)) in *. change MAXWRITE with 1536 in m.
  assert (Hm : (0 < m <= length src)%nat) by (unfold m; rewrite Es; cbn [length]; lia). rewrite E. clear E. set (s1 := set_ftable _ _).
  assert (Hl : length (take m src) = m) by (rewrite length_take; lia).
  destruct (IH s1 f (set_off x (f_off x + Z.of_nat m)) ip1 (drop m src) k) as (x2 & ip2 & E2 & Hc2 & Hf2 & Hi2);
    cbn [f_ip f_off set_off]; try done; try lia; rewrite ?length_drop; try lia.
  { cbn [s1 ftable set_ftable]. apply list_lookup_insert_eq. by eapply lookup_lt_Some. }
  { rewrite (fi_size _ _ _ _ _ _ Hf1), Hl. lia. }
  { by apply Forall_drop. }
  exists x2, ip2. split; [|split; [exact Hc2|split]].
  - rewrite E2. f_equal. unfold s1. cbn [ftable set_ftable set_fs f_off set_off]. rewrite list_insert_insert_eq, length_drop.
    by replace (f_off x + Z.of_nat m + Z.of_nat (length src - m)) with (f_off x + Z.of_nat (length src)) by lia.
  - rewrite <- (take_drop m src). apply (filled_app (fs s) ip (f_off x) (take m src) x1 ip1); [lia|by rewrite take_drop|done|].
    by rewrite Hl.
  - rewrite Hi2. cbn. by rewrite Hi1, list_insert_insert_eq.
Qed.

(** C17. What is written through one descriptor is read through another.  A write of
    any length to an open regular file (at an offset within the file, with the
    blocks it needs free) is cut into transactions that each fit into the log
    and are committed one after the other; it returns the full count and moves
    the offset of its own open file only.  A read of that many bytes through
    another open file of the same inode, at the offset where the write began,
    returns exactly those bytes; the rest of the file is unchanged, and the
    system is between transactions again. *)
Theorem filewrite_fileread dev_read dev_write s f x g y ip src N :
  25 <= log_room -> ftable s !! f = Some x -> f_type x = FD_INODE -> f_writable x = true ->
  ftable s !! g = Some y -> g <> f -> f_type y = FD_INODE -> f_readable y = true ->
  f_ip y = f_ip x -> f_off y = f_off x ->
  calm (fs s) (f_ip x) ip (8 * N) -> Z.of_nat (length src) <= 1536 * Z.of_nat N ->
  0 <= f_off x <= isize ip -> f_off x + Z.of_nat (length src) <= 140 * 512 -> Forall (fun b => 0 <= b < 256) src ->
  exists s' ip' s'', filewrite dev_write f src s = Ret (Done (Z.of_nat (length src))) s' /\
    fileread dev_read g (Z.of_nat (length src)) s' = Ret (Done (Z.of_nat (length src)), src) s'' /\
    ftable s' = <[f := set_off x (f_off x + Z.of_nat (length src))]> (ftable s) /\ calm (fs s') (f_ip x) ip' 0 /\
    forall o, 0 <= o < 140 * 512 -> ~ f_off x <= o < f_off x + Z.of_nat (length src) ->
      content (fs s') ip' o = content (fs s) ip o.
Proof using Type.
  intros Hroom Hf Hft Hfw Hg Hne Hgt Hgr Hgi Hgo Hc HN Hoff Hmax Hby.
  destruct (filewrite_loop_ok dev_write N s f x ip src (length src)) as (x1 & ip1 & E & Hc1 & Hfi & Hic); try done.
  set (s1 := set_ftable _ _) in E. assert (Hg1 : ftable s1 !! g = Some y) by (cbn; by rewrite list_lookup_insert_ne).
  destruct (ilock_open _ _ _ (ca_ino _ _ _ _ Hc1)) as [El Hi2]. set (y2 := with_inode x1 (f_ip x) (set_ilocked ip1 true)) in *.
  assert (Er : readi dev_read (f_ip x) (f_off x) (Z.of_nat (length src)) y2 = Ret (Some src) y2).
  { rewrite (readi_spec dev_read y2 (f_ip x) (set_ilocked ip1 true) (f_off x) (length src)); try done; try lia.
    - rewrite contents_eq; [done|]. intros k Hk. etransitivity; [apply (fi_content _ _ _ _ _ _ Hfi); lia|].
      rewrite decide_True by lia. do 2 f_equal. lia.
    - apply Hc1.
    - cbn. rewrite (fi_size _ _ _ _ _ _ Hfi). lia.
    - intros o Ho. by apply (fi_blocks _ _ _ _ _ _ Hfi). }
  assert (E2 : exists s2, fileread dev_read g (Z.of_nat (length src)) s1 = Ret (Done (Z.of_nat (length src)), src) s2).
  { unfold fileread. rewrite (bind_Ret _ _ _ _ _ (get_file_Ret _ _ _ Hg1)), Hgr, Hgt, Hgi, Hgo. cbn [negb].
    rewrite (bind_Ret _ _ _ _ _ (liftF_Ret _ s1 _ _ El)), (bind_Ret _ _ _ _ _ (liftF_Ret _ (set_fs y2 s1) _ _ Er)).
    assert (Eu : iunlock (Some (f_ip x)) y2 = Ret tt (with_inode y2 (f_ip x) (set_ilocked (set_ilocked ip1 true) false)))
      by (apply iunlock_held; [done|done|apply Hc1]).
    destruct (0 <? Z.of_nat (length src)); unfold put_file, modify, ret; unfold bind at 1;
      erewrite bind_Ret by (apply liftF_Ret; exact Eu); by eexists. }
  destruct E2 as [s2 E2]. exists s1, ip1, s2. split; [|split; [exact E2|split; [done|split; [exact Hc1|]]]].
  - unfold filewrite. rewrite (bind_Ret _ _ _ _ _ (get_file_Ret _ _ _ Hf)), Hfw, Hft. cbn [negb]. by rewrite (bind_Ret _ _ _ _ _ E).
  - intros o Ho Hno. by rewrite (fi_content _ _ _ _ _ _ Hfi), decide_False.
Qed.

(** C9. A write of at most [MAXWRITE] (1536) bytes is atomic under crashes: if the
    machine stops after any number of the disk writes that the call makes, then
    after recovery either every block outside the log is as before the call, or
    every one is as after it, with the new bytes in the file. *)
Theorem filewrite_crash_atomic dev_write s f x ip src :
  25 <= log_room -> ftable s !! f = Some x -> f_type x = FD_INODE -> f_writable x = true ->
  calm (fs s) (f_ip x) ip 8 -> (0 < length src)%nat -> Z.of_nat (length src) <= MAXWRITE ->
  0 <= f_off x <= isize ip -> f_off x + Z.of_nat (length src) <= 140 * 512 -> Forall (fun b => 0 <= b < 256) src ->
  exists s' ip', filewrite dev_write f src s = Ret (Done (Z.of_nat (length src))) s' /\
    filled (fs s) ip (f_off x) src (fs s') ip' /\ atomic_from (ds (fs s)) (ds (fs s')).
Proof using Type.
  intros Hroom Hf Hft Hfw Hc Hne Hlen Hoff Hmax Hby.
  destruct (filewrite_turn dev_write s f x ip src (length src) 0 Hroom Hf Hc) as (x1 & ip1 & E & Hc1 & Hf1 & Hi1 & Hat); try done.
  { by destruct src; cbn in Hne; [lia|]. }
  rewrite Z.min_l, Nat2Z.id, firstn_all in * by lia. rewrite drop_all, filewrite_loop_nil in E by done.
  exists (set_ftable (<[f := set_off x (f_off x + Z.of_nat (length src))]> (ftable s)) (set_fs x1 s)), ip1.
  split; [|split; [exact Hf1|exact Hat]].
  unfold filewrite. rewrite (bind_Ret _ _ _ _ _ (get_file_Ret _ _ _ Hf)), Hfw, Hft. cbn [negb]. by rewrite (bind_Ret _ _ _ _ _ E).
Qed.
End Txn.

#[local] Transparent BSIZE BPB.

(** ** An empty file that is open for writing and for reading *)

Definition ex_unlocked : inode := set_ref (set_ilocked ex_inode false) 2.
Definition ex_idle_fs : fstate := mk_fstate (mk_dstate ex_disk ∅ [] (mk_log 2 30 0 false [])) ex_sb [ex_unlocked].
Definition ex_wfile : file := mk_file FD_INODE 1 false true 0 0 0.
Definition ex_rfile : file := mk_file FD_INODE 1 true false 0 0 0.
Definition ex_kfs : kfs :=
  mk_kfs ex_idle_fs [ex_wfile; ex_rfile] [] 1 [mk_fproc (Some 0%nat :: Some 1%nat :: replicate 14 None) 0 false] 0 ∅.

Lemma ex_calm : calm 2 30 36 ex_idle_fs 0 ex_unlocked 16.
Proof.
  split.
  - split; reflexivity.
  - destruct ex_fs_ok as [H1 H2]. split; [exact H1|exact H2].
  - destruct ex_ino_ok as [H1 H2 H3]. split; [reflexivity|reflexivity|reflexivity|cbn; lia|discriminate|cbn; lia|].
    split; [exact H1|exact H2|exact H3].
  - exists (Z.of_nat <$> seq 36 16). split; [|split].
    + apply NoDup_fmap_2; [apply _|apply NoDup_seq].
    + reflexivity.
    + intros b (k & -> & Hk%elem_of_seq)%list_elem_of_fmap_1.
      assert (H : forallb (fun k => negb (used ex_idle_fs (Z.of_nat k))) (seq 36 16) = true) by (vm_compute; reflexivity).
      rewrite forallb_forall in H. split; [cbn; lia|]. apply negb_true_iff, H, in_seq. lia.
Qed.

Lemma filewrite_fileread_witness : exists s' s'',
  filewrite (fun _ => None) 0 (replicate 2000 65) ex_kfs = Ret (Done 2000) s' /\
  fileread (fun _ => None) 1 2000 s' = Ret (Done 2000, replicate 2000 65) s''.
Proof.
  destruct (filewrite_fileread 2 30 36 (fun _ => None) (fun _ => None) ex_kfs 0 ex_wfile 1 ex_rfile ex_unlocked (replicate 2000 65) 2)
    as (s' & ip' & s'' & E1 & E2 & _).
  - vm_compute. discriminate.
  - reflexivity.
  - reflexivity.
  - reflexivity.
  - reflexivity.
  - discriminate.
  - reflexivity.
  - reflexivity.
  - reflexivity.
  - reflexivity.
  - exact ex_calm.
  - rewrite length_replicate. lia.
  - cbn. lia.
  - rewrite length_replicate. cbn. lia.
  - apply Forall_replicate. lia.
  - rewrite length_replicate in E1, E2. exists s', s''. split; [exact E1|exact E2].
Defined.

Lemma filewrite_crash_atomic_witness : exists s' ip',
  filewrite (fun _ => None) 0 [104; 105] ex_kfs = Ret (Done 2) s' /\
  filled ex_idle_fs ex_unlocked 0 [104; 105] (fs s') ip' /\ atomic_from 2 30 (ds ex_idle_fs) (ds (fs s')).
Proof.
  apply (filewrite_crash_atomic 2 30 36 (fun _ => None) ex_kfs 0 ex_wfile ex_unlocked [104; 105]).
  - vm_compute. discriminate.
  - reflexivity.
  - reflexivity.
  - reflexivity.
  - destruct ex_calm as [H1 H2 H3 (l & H4 & H5 & H6)]. split; [exact H1|exact H2|exact H3|].
    exists l. split; [exact H4|]. split; [lia|exact H6].
  - cbn. lia.
  - vm_compute. discriminate.
  - cbn. lia.
  - cbn. lia.
  - repeat constructor; lia.
Defined.
