(* ===== verification/Sysfile.v ===== *)
(** * File-system calls (sysfile.c)

    The arguments of a call are what argint, argptr, argstr, fetchint and
    fetchstr of syscall.c give for the current trap frame; Syscall.v defines
    them over user memory, and here they are an interface.  [None] is their
    result -1. *)
From S2P Require Import Prelude Memory Ulib Log Fs Pipe File.

Definition MAXARG : nat := 32.
Definition sizeof_stat : Z := 20.

Class SysArgs := {
  argint : Z -> option Z;
  argptr : Z -> Z -> option Z;
  argstr : Z -> option (list Z);
  fetchint : Z -> option Z;
  fetchstr : Z -> option (list Z)
}.

(** ** User memory *)

Definition uload (s : kfs) (a : Z) : Z := default 0 (umem s !! a).
Definition ubytes (s : kfs) (a : Z) (n : nat) : list Z := (fun k => uload s (a + Z.of_nat k)) <$> seq 0 n.
Fixpoint ustore (m : gmap Z Z) (a : Z) (l : list Z) : gmap Z Z :=
  match l with
  | [] => m
  | b :: l' => ustore (<[a := b]> m) (a + 1) l'
  end.
Definition copyout (a : Z) (l : list Z) : U unit := modify (fun s => set_umem (ustore (umem s) a l) s).
Definition le_bytes (n : nat) (x : Z) : list Z := (fun k => u8 (Z.shiftr x (8 * Z.of_nat k))) <$> seq 0 n.

(** [stati]: the fields of [struct stat], at their offsets. *)
Definition copyout_stat (a : Z) (st : stat) : U unit :=
  do* copyout a (le_bytes 2 (st_type st)) in
  do* copyout (a + 4) (le_bytes 4 (st_dev st)) in
  do* copyout (a + 8) (le_bytes 4 (st_ino st)) in
  do* copyout (a + 12) (le_bytes 2 (st_nlink st)) in
  copyout (a + 16) (le_bytes 4 (st_size st)).

(** ** Descriptors *)

Definition argfd `{SysArgs} (n : Z) : U (option (nat * nat)) :=
  match argint n with
  | None => ret None
  | Some fd =>
      let* me := myproc in
      if (fd <? 0) || (NOFILE <=? fd) then ret None
      else match ofile me !! Z.to_nat fd with
           | Some (Some f) => ret (Some (Z.to_nat fd, f))
           | _ => ret None
           end
  end.

Definition put_proc (p : fproc) : U unit :=
  modify (fun s => set_fprocs (<[cur s := p]> (fprocs s)) s).
Definition set_ofile (fd : nat) (x : option nat) : U unit :=
  let* me := myproc in
  put_proc (mk_fproc (<[fd := x]> (ofile me)) (cwd me) (fkilled me)).

Fixpoint free_fd (l : list (option nat)) (fd : nat) : option nat :=
  match l with
  | [] => None
  | None :: _ => Some fd
  | Some _ :: l' => free_fd l' (S fd)
  end.

(** [None] is -1. *)
Definition fdalloc (f : nat) : U (option nat) :=
  let* me := myproc in
  match free_fd (ofile me) 0 with
  | None => ret None
  | Some fd => do* set_ofile fd (Some f) in ret (Some fd)
  end.

Section Calls.
Context `{SysArgs}.
Context (dev_read : Z -> option (nat -> Z -> F (option (list Z)))).
Context (dev_write : Z -> option (nat -> list Z -> F (option Z))).

Definition sys_dup : U fres :=
  let* a := argfd 0 in
  match a with
  | None => ret (Done (-1))
  | Some (_, f) =>
      let* fd := fdalloc f in
      match fd with
      | None => ret (Done (-1))
      | Some fd => do* filedup f in ret (Done (Z.of_nat fd))
      end
  end.

Definition sys_read : U fres :=
  let* a := argfd 0 in
  match a, argint 2 with
  | Some (_, f), Some n =>
      match argptr 1 n with
      | None => ret (Done (-1))
      | Some p =>
          let* (r, l) := fileread dev_read f n in
          do* copyout p l in
          ret r
      end
  | _, _ => ret (Done (-1))
  end.

Definition sys_write : U fres :=
  let* a := argfd 0 in
  match a, argint 2 with
  | Some (_, f), Some n =>
      match argptr 1 n with
      | None => ret (Done (-1))
      | Some p =>
          let* src := gets (fun s => ubytes s p (Z.to_nat n)) in
          filewrite dev_write f src
      end
  | _, _ => ret (Done (-1))
  end.

Definition sys_close : U fres :=
  let* a := argfd 0 in
  match a with
  | None => ret (Done (-1))
  | Some (fd, f) =>
      do* set_ofile fd None in
      do* fileclose f in
      ret (Done 0)
  end.

Definition sys_fstat : U fres :=
  let* a := argfd 0 in
  match a, argptr 1 sizeof_stat with
  | Some (_, f), Some p =>
      let* r := filestat f in
      match r with
      | None => ret (Done (-1))
      | Some st => do* copyout_stat p st in ret (Done 0)
      end
  | _, _ => ret (Done (-1))
  end.

(** ** Links *)

Definition set_nlink (ip : inode) (n : Z) : inode :=
  mk_inode (idev ip) (inum ip) (iref ip) (ilocked ip) (ivalid ip) (itype ip) (imajor ip) (iminor ip)
    (s16 n) (isize ip) (iaddrs ip).
(** [ip->nlink += d; iupdate(ip);] *)
Definition add_nlink (i : nat) (d : Z) : F unit :=
  let* ip := get_inode i in
  do* put_inode i (set_nlink ip (inlink ip + d)) in
  iupdate i.

(** The caller's buffer for the last element of a path. *)
Definition name_buf : list Z := replicate (Z.to_nat DIRSIZ) 0.

Definition my_cwd : U nat := let* me := myproc in ret (cwd me).

Definition link_bad (i : nat) : U fres :=
  do* liftF (ilock (Some i)) in
  do* liftF (add_nlink i (-1)) in
  do* liftF (iunlockput i) in
  do* end_op in
  ret (Done (-1)).

Definition sys_link : U fres :=
  match argstr 0, argstr 1 with
  | Some old, Some new =>
      do* begin_op in
      let* wd := my_cwd in
      let* r := liftF (namei dev_read wd old) in
      match r with
      | None => do* end_op in ret (Done (-1))
      | Some i =>
          do* liftF (ilock (Some i)) in
          let* ip := liftF (get_inode i) in
          if itype ip =? T_DIR then
            do* liftF (iunlockput i) in
            do* end_op in
            ret (Done (-1))
          else
            do* liftF (add_nlink i 1) in
            do* liftF (iunlock (Some i)) in
            let* r := liftF (nameiparent dev_read wd new name_buf) in
            match r with
            | None => link_bad i
            | Some (d, name) =>
                do* liftF (ilock (Some d)) in
                let* dp := liftF (get_inode d) in
                let* ip := liftF (get_inode i) in
                let* linked := (if negb (idev dp =? idev ip) then ret false
                                else let* r := liftF (dirlink dev_read dev_write d name (inum ip)) in ret (0 <=? r)) in
                if negb linked then
                  do* liftF (iunlockput d) in
                  link_bad i
                else
                  do* liftF (iunlockput d) in
                  do* liftF (iput i) in
                  do* end_op in
                  ret (Done 0)
            end
      end
  | _, _ => ret (Done (-1))
  end.

Fixpoint isdirempty_loop (fuel : nat) (i : nat) (off : Z) : F bool :=
  match fuel with
  | O => fun _ => OutOfFuel
  | S k =>
      let* dp := get_inode i in
      if off <? isize dp then
        let* de := read_dirent dev_read i off "isdirempty: readi" in
        if negb (de_inum de =? 0) then ret false
        else isdirempty_loop k i (off + sizeof_dirent)
      else ret true
  end.
Definition isdirempty (i : nat) : F bool :=
  let* dp := get_inode i in
  isdirempty_loop (S (Z.to_nat (isize dp / sizeof_dirent + 1))) i (2 * sizeof_dirent).

Definition unlink_bad (d : nat) : U fres :=
  do* liftF (iunlockput d) in
  do* end_op in
  ret (Done (-1)).

Definition sys_unlink : U fres :=
  match argstr 0 with
  | None => ret (Done (-1))
  | Some path =>
      do* begin_op in
      let* wd := my_cwd in
      let* r := liftF (nameiparent dev_read wd path name_buf) in
      match r with
      | None => do* end_op in ret (Done (-1))
      | Some (d, name) =>
          do* liftF (ilock (Some d)) in
          if (namecmp name (str ".") =? 0) || (namecmp name (str "..") =? 0) then unlink_bad d
          else
            let* r := liftF (dirlookup dev_read d name) in
            match r with
            | None => unlink_bad d
            | Some (i, off) =>
                do* liftF (ilock (Some i)) in
                let* ip := liftF (get_inode i) in
                if inlink ip <? 1 then panic "unlink: nlink < 1"
                else
                  let* full := (if itype ip =? T_DIR then let* e := liftF (isdirempty i) in ret (negb e)
                                else ret false) in
                  if full then
                    do* liftF (iunlockput i) in
                    unlink_bad d
                  else
                    let* w := liftF (writei dev_write d (replicate 16 0) off) in
                    do* (match w with
                         | Some w => if w =? sizeof_dirent then ret tt else panic "unlink: writei"
                         | None => panic "unlink: writei"
                         end) in
                    do* (if itype ip =? T_DIR then liftF (add_nlink d (-1)) else ret tt) in
                    do* liftF (iunlockput d) in
                    do* liftF (add_nlink i (-1)) in
                    do* liftF (iunlockput i) in
                    do* end_op in
                    ret (Done 0)
            end
      end
  end.

(** ** Creating and opening *)

Definition init_inode (ip : inode) (major minor : Z) : inode :=
  mk_inode (idev ip) (inum ip) (iref ip) (ilocked ip) (ivalid ip) (itype ip) (s16 major) (s16 minor)
    1 (isize ip) (iaddrs ip).

Definition create (path : list Z) (type major minor : Z) : U (option nat) :=
  let* wd := my_cwd in
  let* r := liftF (nameiparent dev_read wd path name_buf) in
  match r with
  | None => ret None
  | Some (d, name) =>
      do* liftF (ilock (Some d)) in
      let* r := liftF (dirlookup dev_read d name) in
      match r with
      | Some (i, _) =>
          do* liftF (iunlockput d) in
          do* liftF (ilock (Some i)) in
          let* ip := liftF (get_inode i) in
          if (type =? T_FILE) && (itype ip =? T_FILE) then ret (Some i)
          else do* liftF (iunlockput i) in ret None
      | None =>
          let* dp := liftF (get_inode d) in
          let* i := liftF (ialloc (idev dp) type) in
          do* liftF (ilock (Some i)) in
          let* ip := liftF (get_inode i) in
          do* liftF (put_inode i (init_inode ip major minor)) in
          do* liftF (iupdate i) in
          do* (if type =? T_DIR then
                 do* liftF (add_nlink d 1) in
                 let* r := liftF (dirlink dev_read dev_write i (str ".") (inum ip)) in
                 let* ok := (if r <? 0 then ret false
                             else let* r := liftF (dirlink dev_read dev_write i (str "..") (inum dp)) in ret (0 <=? r)) in
                 if ok then ret tt else panic "create dots"
               else ret tt) in
          let* r := liftF (dirlink dev_read dev_write d name (inum ip)) in
          if r <? 0 then panic "create: dirlink"
          else
            do* liftF (iunlockput d) in
            ret (Some i)
      end
  end.

(** The inode, locked, or [None] after the end of the transaction. *)
Definition open_inode (path : list Z) (omode : Z) : U (option nat) :=
  if negb (Z.land omode O_CREATE =? 0) then
    let* r := create path T_FILE 0 0 in
    match r with
    | None => do* end_op in ret None
    | Some i => ret (Some i)
    end
  else
    let* wd := my_cwd in
    let* r := liftF (namei dev_read wd path) in
    match r with
    | None => do* end_op in ret None
    | Some i =>
        do* liftF (ilock (Some i)) in
        let* ip := liftF (get_inode i) in
        if (itype ip =? T_DIR) && negb (omode =? O_RDONLY) then
          do* liftF (iunlockput i) in
          do* end_op in
          ret None
        else ret (Some i)
    end.

Definition open_fail (i : nat) : U fres :=
  do* liftF (iunlockput i) in
  do* end_op in
  ret (Done (-1)).

Definition sys_open : U fres :=
  match argstr 0, argint 1 with
  | Some path, Some omode =>
      do* begin_op in
      let* r := open_inode path omode in
      match r with
      | None => ret (Done (-1))
      | Some i =>
          let* f := filealloc in
          match f with
          | None => open_fail i
          | Some f =>
              let* fd := fdalloc f in
              match fd with
              | None => do* fileclose f in open_fail i
              | Some fd =>
                  do* liftF (iunlock (Some i)) in
                  do* end_op in
                  let* x := get_file f in
                  do* put_file f (mk_file FD_INODE (f_ref x) (Z.land omode O_WRONLY =? 0)
                        (negb (Z.land omode O_WRONLY =? 0) || negb (Z.land omode O_RDWR =? 0)) (f_pipe x) i 0) in
                  ret (Done (Z.of_nat fd))
              end
          end
      end
  | _, _ => ret (Done (-1))
  end.

(** The end of [sys_mkdir] and [sys_mknod]. *)
Definition create_done (r : option nat) : U fres :=
  match r with
  | None => do* end_op in ret (Done (-1))
  | Some i =>
      do* liftF (iunlockput i) in
      do* end_op in
      ret (Done 0)
  end.

Definition sys_mkdir : U fres :=
  do* begin_op in
  let* r := (match argstr 0 with
             | None => ret None
             | Some path => create path T_DIR 0 0
             end) in
  create_done r.

Definition sys_mknod : U fres :=
  do* begin_op in
  let* r := (match argstr 0, argint 1, argint 2 with
             | Some path, Some major, Some minor => create path T_DEV (s16 major) (s16 minor)
             | _, _, _ => ret None
             end) in
  create_done r.

Definition sys_chdir : U fres :=
  do* begin_op in
  let* me := myproc in
  let* r := (match argstr 0 with
             | None => ret None
             | Some path => liftF (namei dev_read (cwd me) path)
             end) in
  match r with
  | None => do* end_op in ret (Done (-1))
  | Some i =>
      do* liftF (ilock (Some i)) in
      let* ip := liftF (get_inode i) in
      if negb (itype ip =? T_DIR) then
        do* liftF (iunlockput i) in
        do* end_op in
        ret (Done (-1))
      else
        do* liftF (iunlock (Some i)) in
        do* liftF (iput (cwd me)) in
        do* end_op in
        do* put_proc (mk_fproc (ofile me) i (fkilled me)) in
        ret (Done 0)
  end.

(** ** exec and pipe *)

(** The argument strings, at most [MAXARG - 1] of them; [None] is -1. *)
Fixpoint fetch_argv (n : nat) (uargv : Z) (i : Z) : option (list (list Z)) :=
  match n with
  | O => None
  | S k =>
      match fetchint (u32 (uargv + 4 * i)) with
      | None => None
      | Some uarg =>
          if u32 uarg =? 0 then Some []
          else match fetchstr (u32 uarg) with
               | None => None
               | Some a => cons a <$> fetch_argv k uargv (i + 1)
               end
      end
  end.

(** [exec] (exec.c) is modelled in Exec.v. *)
Definition sys_exec (exec : list Z -> list (list Z) -> U Z) : U fres :=
  match argstr 0, argint 1 with
  | Some path, Some uargv =>
      match fetch_argv MAXARG (u32 uargv) 0 with
      | None => ret (Done (-1))
      | Some argv => let* r := exec path argv in ret (Done r)
      end
  | _, _ => ret (Done (-1))
  end.

Definition sys_pipe : U fres :=
  match argptr 0 8 with
  | None => ret (Done (-1))
  | Some p =>
      let* r := pipealloc in
      match r with
      | None => ret (Done (-1))
      | Some (rf, wf) =>
          let* fd0 := fdalloc rf in
          match fd0 with
          | None => do* fileclose rf in do* fileclose wf in ret (Done (-1))
          | Some fd0 =>
              let* fd1 := fdalloc wf in
              match fd1 with
              | None =>
                  do* set_ofile fd0 None in
                  do* fileclose rf in
                  do* fileclose wf in
                  ret (Done (-1))
              | Some fd1 =>
                  do* copyout p (le_bytes 4 (Z.of_nat fd0)) in
                  do* copyout (p + 4) (le_bytes 4 (Z.of_nat fd1)) in
                  ret (Done 0)
              end
          end
      end
  end.
End Calls.

(** ** What fork and exit do with files (proc.c) *)

Definition set_ofile_of (np fd : nat) (x : option nat) : U unit :=
  fun s => match fprocs s !! np with
           | Some p => Ret tt (set_fprocs (<[np := mk_fproc (<[fd := x]> (ofile p)) (cwd p) (fkilled p)]> (fprocs s)) s)
           | None => Fault "bad process"
           end.

(** The loop of [fork] over the parent's descriptors from [fd] on. *)
Fixpoint fork_files (np : nat) (fd : nat) (l : list (option nat)) : U unit :=
  match l with
  | [] => ret tt
  | None :: l' => fork_files np (S fd) l'
  | Some f :: l' =>
      let* f := filedup f in
      do* set_ofile_of np fd (Some f) in
      fork_files np (S fd) l'
  end.

Fixpoint exit_files (n : nat) (fd : nat) : U unit :=
  match n with
  | O => ret tt
  | S k =>
      let* me := myproc in
      do* (match ofile me !! fd with
           | Some (Some f) =>
               do* fileclose f in
               set_ofile fd None
           | _ => ret tt
           end) in
      exit_files k (S fd)
  end.
