(* ===== verification/SysfileProof.v ===== *)
(** * Descriptors, reference counts and pipe ends

    Whatever calls the processes make, the reference count of an open file is
    the number of descriptors that refer to it, over all processes, and an end
    of a pipe is open as long as a file refers to it. *)
From S2P Require Import Prelude Memory Ulib Log Fs Pipe File Sysfile.

(** ** Counting descriptors *)

Definition delta (o : option nat) (f : nat) : Z := if decide (o = Some f) then 1 else 0.

Fixpoint refs (l : list (option nat)) (f : nat) : Z :=
  match l with
  | [] => 0
  | o :: l' => delta o f + refs l' f
  end.
Fixpoint all_refs (ps : list fproc) (f : nat) : Z :=
  match ps with
  | [] => 0
  | p :: ps' => refs (ofile p) f + all_refs ps' f
  end.

Lemma delta_nonneg o f : 0 <= delta o f.
Proof. unfold delta. case_decide; lia. Qed.
Lemma delta_same f : delta (Some f) f = 1.
Proof. unfold delta. by rewrite decide_True. Qed.
Lemma delta_none f : delta None f = 0.
Proof. unfold delta. by rewrite decide_False. Qed.

Lemma refs_nonneg l f : 0 <= refs l f.
Proof. induction l as [|o l IH]; cbn; [lia|]. pose proof (delta_nonneg o f). lia. Qed.
Lemma all_refs_nonneg ps f : 0 <= all_refs ps f.
Proof. induction ps as [|p ps IH]; cbn; [lia|]. pose proof (refs_nonneg (ofile p) f). lia. Qed.

Lemma refs_insert l i o n f : l !! i = Some o -> refs (<[i := n]> l) f = refs l f - delta o f + delta n f.
Proof.
  revert i. induction l as [|x l IH]; intros [|i] H; [done|done|injection H as <-; cbn; lia|].
  change (<[S i := n]> (x :: l)) with (x :: <[i := n]> l). cbn [refs]. rewrite (IH i H). lia.
Qed.
Lemma all_refs_insert ps i p q f : ps !! i = Some p ->
  all_refs (<[i := q]> ps) f = all_refs ps f - refs (ofile p) f + refs (ofile q) f.
Proof.
  revert i. induction ps as [|x ps IH]; intros [|i] H; [done|done|injection H as <-; cbn; lia|].
  change (<[S i := q]> (x :: ps)) with (x :: <[i := q]> ps). cbn [all_refs]. rewrite (IH i H). lia.
Qed.

Lemma refs_lookup l i f : l !! i = Some (Some f) -> 1 <= refs l f.
Proof.
  revert i. induction l as [|x l IH]; intros [|i]; cbn; intros H; simplify_eq.
  - rewrite delta_same. pose proof (refs_nonneg l f). lia.
  - specialize (IH i H). pose proof (delta_nonneg x f). lia.
Qed.
Lemma all_refs_lookup ps i p f : ps !! i = Some p -> refs (ofile p) f <= all_refs ps f.
Proof.
  revert i. induction ps as [|x ps IH]; intros [|i]; cbn; intros H; simplify_eq.
  - pose proof (all_refs_nonneg ps f). lia.
  - specialize (IH i H). pose proof (refs_nonneg (ofile x) f). lia.
Qed.

(** ** The invariant *)

Definition end_open (x : file) (p : pipe) : bool := if f_writable x then writeopen p else readopen p.

(** [d f]: references to [f] that are not in any descriptor at this moment. *)
Record wf (d : nat -> Z) (s : kfs) : Prop := {
  wf_ref : forall f x, ftable s !! f = Some x -> f_ref x = all_refs (fprocs s) f + d f;
  wf_in : forall f, 0 < all_refs (fprocs s) f -> (f < length (ftable s))%nat;
  wf_none : forall f x, ftable s !! f = Some x -> f_ref x = 0 -> f_type x = FD_NONE;
  wf_pipe : forall f x, ftable s !! f = Some x -> f_type x = FD_PIPE ->
    exists p, pipes s !! f_pipe x = Some p /\ end_open x p = true;
  wf_ends : forall f g x y, ftable s !! f = Some x -> ftable s !! g = Some y -> f_type x = FD_PIPE -> f_type y = FD_PIPE ->
    f_pipe x = f_pipe y -> f_writable x = f_writable y -> f = g
}.

Lemma wf_ext d d' s : (forall f, d f = d' f) -> wf d s -> wf d' s.
Proof. intros E [H1 H2 H3 H4 H5]. split; try done. intros f x Hf. rewrite <- E. by apply H1. Qed.

(** What the invariant depends on. *)
Definition same_core (s s' : kfs) : Prop :=
  ftable s' = ftable s /\ fprocs s' = fprocs s /\ pipes s' = pipes s /\ cur s' = cur s.
Lemma same_core_refl s : same_core s s.
Proof. done. Qed.
Lemma same_core_trans s1 s2 s3 : same_core s1 s2 -> same_core s2 s3 -> same_core s1 s3.
Proof. unfold same_core. naive_solver congruence. Qed.
Lemma wf_core d s s' : same_core s s' -> wf d s -> wf d s'.
Proof. intros (E1 & E2 & E3 & E4) [H1 H2 H3 H4 H5]. split; rewrite ?E1, ?E2, ?E3; done. Qed.

(** Operations that change neither files, descriptors nor pipes. *)
Definition keeps {A} (m : U A) : Prop := forall s a s', m s = Ret a s' -> same_core s s'.

Lemma keeps_ret {A} (a : A) : keeps (ret a).
Proof. intros s b s' [= _ <-]. apply same_core_refl. Qed.
Lemma keeps_panic {A} msg : keeps (panic msg : U A).
Proof. by intros s b s'. Qed.
Lemma keeps_fault {A} msg : keeps (fault msg : U A).
Proof. by intros s b s'. Qed.
Lemma keeps_core_bind {A B} (m : U A) (k : A -> U B) : keeps m -> (forall a, keeps (k a)) -> keeps (bind m k).
Proof.
  intros Hm Hk s b s'' H. apply bind_inv in H as (a & s' & E1 & E2).
  eapply same_core_trans; [by eapply Hm|by eapply Hk].
Qed.
Lemma keeps_liftF {A} (m : F A) : keeps (liftF m).
Proof. intros s a s'. unfold liftF. destruct (m (fs s)); [|done..]. by intros [= _ <-]. Qed.
Lemma keeps_gets {A} (g : kfs -> A) : keeps (gets g).
Proof. intros s a s' [= _ <-]. apply same_core_refl. Qed.
Lemma keeps_myproc : keeps myproc.
Proof. intros s a s'. unfold myproc. case_match; [|done]. intros [= _ <-]. apply same_core_refl. Qed.
Lemma keeps_get_file f : keeps (get_file f).
Proof. intros s a s'. unfold get_file. case_match; [|done]. intros [= _ <-]. apply same_core_refl. Qed.
Lemma keeps_copyout p l : keeps (copyout p l).
Proof. by intros s a s' [= _ <-]. Qed.

Create HintDb keeps discriminated.
#[export] Hint Resolve keeps_ret keeps_panic keeps_fault keeps_liftF keeps_gets keeps_myproc keeps_get_file keeps_copyout : keeps.

(** [keeping] goes through a program step by step. *)
Ltac keeping :=
  repeat first
    [ solve [auto with keeps]
    | apply keeps_core_bind; [|intros ?]
    | match goal with |- keeps (match ?x with _ => _ end) => destruct x end ].

Lemma keeps_begin_op : keeps begin_op.
Proof. unfold begin_op. keeping. Qed.
Lemma keeps_end_op : keeps end_op.
Proof. unfold end_op. keeping. Qed.
#[export] Hint Resolve keeps_begin_op keeps_end_op : keeps.
Lemma keeps_my_cwd : keeps my_cwd.
Proof. unfold my_cwd. keeping. Qed.
Lemma keeps_filestat f : keeps (filestat f).
Proof. unfold filestat. keeping. Qed.
Lemma keeps_copyout_stat p st : keeps (copyout_stat p st).
Proof. unfold copyout_stat. keeping. Qed.
#[export] Hint Resolve keeps_my_cwd keeps_filestat keeps_copyout_stat : keeps.

(** ** Operations on the file table *)

Definition plus (d : nat -> Z) (e : Z) (f : nat) : nat -> Z := fun g => d g + e * delta (Some f) g.

Lemma delta_other f g : f <> g -> delta (Some f) g = 0.
Proof. intros. unfold delta. rewrite decide_False; [done|congruence]. Qed.

Lemma file_upd (l : list file) f x y g z : l !! f = Some x -> <[f := y]> l !! g = Some z -> g = f /\ z = y \/ g <> f /\ l !! g = Some z.
Proof.
  intros Hf. destruct (decide (g = f)) as [->|Hne].
  - rewrite list_lookup_insert_eq by (by eapply lookup_lt_Some). intros [= <-]. by left.
  - rewrite list_lookup_insert_ne by done. by right.
Qed.

(** The reference count changes by [e]; a pipe end stays what it is. *)
Lemma put_file_wf d s f x y e : wf d s -> ftable s !! f = Some x -> f_ref y = f_ref x + e ->
  (f_ref y = 0 -> f_type y = FD_NONE) ->
  f_type y <> FD_PIPE \/ (f_type y = f_type x /\ f_pipe y = f_pipe x /\ f_writable y = f_writable x) ->
  wf (plus d e f) (set_ftable (<[f := y]> (ftable s)) s).
Proof.
  intros [H1 H2 H3 H4 H5] Hf He H0 Hp. split; cbn [ftable fprocs pipes set_ftable].
  - intros g z Hg. apply (file_upd _ _ _ _ _ _ Hf) in Hg as [[-> ->]|[Hne Hg]]; unfold plus.
    + rewrite delta_same, He, (H1 f x Hf). lia.
    + rewrite delta_other, (H1 g z Hg) by done. lia.
  - intros g Hg. rewrite length_insert. by apply H2.
  - intros g z Hg. apply (file_upd _ _ _ _ _ _ Hf) in Hg as [[-> ->]|[Hne Hg]]; [done|by eapply H3].
  - intros g z Hg Ht. apply (file_upd _ _ _ _ _ _ Hf) in Hg as [[-> ->]|[Hne Hg]]; [|by eapply H4].
    destruct Hp as [Hp|(E1 & E2 & E3)]; [done|]. unfold end_open. rewrite E2, E3. apply (H4 f x Hf). congruence.
  - assert (Hx : forall g z, <[f := y]> (ftable s) !! g = Some z -> f_type z = FD_PIPE ->
      exists z', ftable s !! g = Some z' /\ f_type z' = FD_PIPE /\ f_pipe z' = f_pipe z /\ f_writable z' = f_writable z).
    { intros g z Hg Ht. apply (file_upd _ _ _ _ _ _ Hf) in Hg as [[-> ->]|[Hne Hg]]; [|by exists z].
      destruct Hp as [Hp|(E1 & E2 & E3)]; [done|]. exists x. split_and!; congruence. }
    intros g h z w Hg Hh Tz Tw Ep Ew. destruct (Hx g z Hg Tz) as (z' & A1 & A2 & A3 & A4), (Hx h w Hh Tw) as (w' & B1 & B2 & B3 & B4).
    eapply (H5 g h z' w'); congruence.
Qed.

Lemma free_file_spec l i f : free_file l i = Some f -> exists k x, f = (i + k)%nat /\ l !! k = Some x /\ f_ref x = 0.
Proof.
  revert i. induction l as [|x l IH]; intros i; cbn; [done|]. destruct (Z.eqb_spec (f_ref x) 0) as [E|E].
  - intros [= <-]. exists 0%nat, x. by rewrite Nat.add_0_r.
  - intros (k & y & -> & Hk & Hy)%IH. exists (S k), y. split; [lia|done].
Qed.

Lemma filealloc_wf d s r s' : wf d s -> filealloc s = Ret r s' ->
  match r with
  | None => s' = s
  | Some f => exists x, ftable s !! f = Some x /\ f_ref x = 0 /\ f_type x = FD_NONE /\
      s' = set_ftable (<[f := set_fref x 1]> (ftable s)) s /\ wf (plus d 1 f) s'
  end.
Proof.
  intros Hw E. unfold filealloc, gets in E. unfold bind at 1 in E. destruct (free_file (ftable s) 0) as [f|] eqn:Ef.
  - apply free_file_spec in Ef as (k & x & -> & Hk & Hx). cbn [Nat.add] in *. unfold get_file in E. unfold bind at 1 in E. rewrite Hk in E.
    injection E as <- <-. exists x. pose proof (wf_none _ _ Hw _ _ Hk Hx) as Ht. split_and!; try done.
    eapply put_file_wf; [exact Hw|exact Hk|cbn; lia|done|]. right. done.
  - by injection E as <- <-.
Qed.

Lemma filedup_wf d s f r s' : wf d s -> filedup f s = Ret r s' -> r = f /\ wf (plus d 1 f) s' /\
  fprocs s' = fprocs s /\ cur s' = cur s /\ (f < length (ftable s'))%nat.
Proof.
  intros Hw E. unfold filedup, get_file in E. unfold bind at 1 in E. destruct (ftable s !! f) as [x|] eqn:Ef; [|done].
  destruct (Z.ltb_spec (f_ref x) 1); [done|]. injection E as <- <-. split; [done|].
  split; [|cbn; rewrite length_insert; split_and!; try done; by eapply lookup_lt_Some].
  eapply put_file_wf; [exact Hw|exact Ef|done|cbn; lia|]. by right.
Qed.

Lemma plus_plus d a b f g : plus (plus d a f) b f g = plus d (a + b) f g.
Proof. unfold plus. lia. Qed.
Lemma plus_zero d f g : plus d 0 f g = d g.
Proof. unfold plus. lia. Qed.

(** Closing one end leaves the other end of the pipe as it was. *)
Lemma pclose_wf d s p w q s' : wf d s -> pipes s !! p = Some q ->
  (forall f x, ftable s !! f = Some x -> f_type x = FD_PIPE -> f_pipe x = p -> f_writable x <> w) ->
  pclose p w s = Ret tt s' -> wf d s' /\ ftable s' = ftable s /\ fprocs s' = fprocs s /\ cur s' = cur s.
Proof.
  intros [H1 H2 H3 H4 H5] Hp Hno E. unfold pclose, get_pipe in E. unfold bind at 1 in E. rewrite Hp in E.
  destruct (pipeclose w q) as [[q' fr] chs] eqn:Eq. unfold put_pipe, modify in E. unfold bind at 1 in E.
  assert (Hs : exists k, s' = set_pages k (set_pipes (<[p := q']> (pipes s)) s)).
  { destruct fr; injection E as <-; [by eexists|]. exists (pages s). done. }
  destruct Hs as [k ->]. split; [|done]. split; try done. cbn [ftable pipes set_pages set_pipes]. intros f x Hf Ht.
  destruct (H4 f x Hf Ht) as (q0 & Hq0 & Hop). destruct (decide (f_pipe x = p)) as [Ep|Ep].
  - exists q'. rewrite Ep, list_lookup_insert_eq by (by eapply lookup_lt_Some). split; [done|].
    rewrite Ep, Hp in Hq0. injection Hq0 as <-. specialize (Hno f x Hf Ht Ep). unfold pipeclose in Eq.
    unfold end_open in *. destruct w, (f_writable x); try done; by injection Eq as <- _ _.
  - exists q0. by rewrite list_lookup_insert_ne.
Qed.

Lemma fileclose_wf d s f s' : wf d s -> fileclose f s = Ret tt s' ->
  wf (plus d (-1) f) s' /\ fprocs s' = fprocs s /\ cur s' = cur s /\ length (ftable s') = length (ftable s).
Proof.
  intros Hw E. unfold fileclose, get_file in E. unfold bind at 1 in E. destruct (ftable s !! f) as [x|] eqn:Ef; [|done].
  destruct (Z.ltb_spec (f_ref x) 1); [done|]. destruct (Z.ltb_spec 0 (f_ref x - 1)).
  { injection E as <-. split; [|cbn; by rewrite length_insert]. eapply put_file_wf; [exact Hw|exact Ef|done|cbn; lia|]. by right. }
  unfold put_file, modify in E. unfold bind at 1 in E. set (s1 := set_ftable _ _) in E.
  assert (Hw1 : wf (plus d (-1) f) s1).
  { eapply put_file_wf; [exact Hw|exact Ef|cbn; lia|done|]. by left. }
  assert (Hl : length (ftable s1) = length (ftable s)) by (cbn; by rewrite length_insert).
  destruct (f_type x) eqn:Et.
  - injection E as <-. done.
  - destruct (wf_pipe _ _ Hw f x Ef Et) as (q & Hq & _).
    destruct (pclose_wf (plus d (-1) f) s1 (f_pipe x) (f_writable x) q s' Hw1 Hq) as (H1 & H2 & H3 & H4); [|exact E|].
    + intros g y Hg Ty Ep Ew. apply (file_upd _ _ _ _ _ _ Ef) in Hg as [[-> ->]|[Hne Hg]]; [done|].
      apply Hne. exact (wf_ends _ _ Hw g f y x Hg Ef Ty Et Ep Ew).
    + split; [done|]. rewrite H2, H3, H4. done.
  - assert (Hk : same_core s1 s') by (eapply (keeps_core_bind begin_op); [..|exact E]; [auto with keeps|intros; keeping]).
    split; [by eapply wf_core|]. destruct Hk as (K1 & K2 & K3 & K4). rewrite K1, K2, K4. done.
Qed.

(** ** Descriptors *)

(** Process [i] gets the descriptor table [l] in place of its old one. *)
Lemma set_table_wf d d' s i p q : wf d s -> fprocs s !! i = Some p ->
  (forall f, d' f = d f + refs (ofile p) f - refs (ofile q) f) ->
  (forall f, 0 < refs (ofile q) f -> (f < length (ftable s))%nat) ->
  wf d' (set_fprocs (<[i := q]> (fprocs s)) s).
Proof.
  intros [H1 H2 H3 H4 H5] Hi Hd Hin. split; cbn [ftable fprocs pipes set_fprocs]; try done.
  - intros f x Hf. rewrite (all_refs_insert _ _ _ _ _ Hi), Hd, (H1 f x Hf). lia.
  - intros f. rewrite (all_refs_insert _ _ _ _ _ Hi). intros Hf. destruct (Z.lt_ge_cases 0 (refs (ofile q) f)); [by apply Hin|].
    apply H2. pose proof (refs_nonneg (ofile p) f). lia.
Qed.

Lemma set_ofile_wf d s fd o n s' p : wf d s -> fprocs s !! cur s = Some p -> ofile p !! fd = Some o ->
  (forall f, n = Some f -> (f < length (ftable s))%nat) -> set_ofile fd n s = Ret tt s' ->
  wf (fun f => d f + delta o f - delta n f) s' /\ ftable s' = ftable s /\ pipes s' = pipes s /\
  s' = set_fprocs (<[cur s := mk_fproc (<[fd := n]> (ofile p)) (cwd p) (fkilled p)]> (fprocs s)) s.
Proof.
  intros Hw Hp Ho Hn E. unfold set_ofile, myproc in E. unfold bind in E. rewrite Hp in E. injection E as <-.
  split; [|done]. eapply set_table_wf; [done|done|..]; cbn [ofile]; intros f; rewrite (refs_insert _ _ _ _ _ Ho); [lia|].
  intros Hf. unfold delta in Hf at 2. case_decide as En; [by apply Hn|]. apply (wf_in _ _ Hw).
  pose proof (all_refs_lookup _ _ _ f Hp). pose proof (delta_nonneg o f). lia.
Qed.

Lemma free_fd_spec l i fd : free_fd l i = Some fd -> exists k, fd = (i + k)%nat /\ l !! k = Some None /\
  forall j, (j < k)%nat -> exists f, l !! j = Some (Some f).
Proof.
  revert i. induction l as [|o l IH]; intros i; cbn; [done|]. destruct o as [f|].
  - intros (k & -> & Hk & Hj)%IH. exists (S k). split; [lia|]. split; [done|]. intros [|j] Hl; [by exists f|]. apply Hj. lia.
  - intros [= <-]. exists 0%nat. split; [lia|]. split; [done|]. intros; lia.
Qed.

(** [fdalloc] takes the lowest free descriptor. *)
Lemma fdalloc_wf d s f r s' : wf d s -> (f < length (ftable s))%nat -> fdalloc f s = Ret r s' ->
  match r with
  | None => s' = s
  | Some fd => wf (plus d (-1) f) s' /\ ftable s' = ftable s /\ pipes s' = pipes s /\ cur s' = cur s /\
      exists p, fprocs s !! cur s = Some p /\ ofile p !! fd = Some None /\
        (forall j, (j < fd)%nat -> exists f, ofile p !! j = Some (Some f)) /\
        fprocs s' = <[cur s := mk_fproc (<[fd := Some f]> (ofile p)) (cwd p) (fkilled p)]> (fprocs s)
  end.
Proof.
  intros Hw Hf E. unfold fdalloc, myproc in E. unfold bind at 1 in E. destruct (fprocs s !! cur s) as [p|] eqn:Ep; [|done].
  destruct (free_fd (ofile p) 0) as [fd|] eqn:Efd; [|by injection E as <- <-].
  apply free_fd_spec in Efd as (k & -> & Hk & Hj). cbn [Nat.add] in *.
  apply bind_inv in E as ([] & s1 & E1 & E2). injection E2 as <- <-.
  destruct (set_ofile_wf d s k None (Some f) s1 p Hw Ep Hk) as (Hw1 & Ht & Hpi & ->); [by intros ? [= <-]|done|].
  split_and!; try done; [|by exists p]. refine (wf_ext _ _ _ _ Hw1). intros g. cbn beta. rewrite delta_none. unfold plus. lia.
Qed.

Lemma argfd_spec `{SysArgs} n s r s' : argfd n s = Ret r s' -> s' = s /\
  match r with
  | Some (fd, f) => exists p, fprocs s !! cur s = Some p /\ ofile p !! fd = Some (Some f)
  | None => True
  end.
Proof.
  unfold argfd. destruct (argint n) as [x|]; [|by intros [= <- <-]]. unfold myproc. unfold bind at 1.
  destruct (fprocs s !! cur s) as [p|] eqn:Ep; [|done]. destruct ((x <? 0) || (NOFILE <=? x)); [by intros [= <- <-]|].
  destruct (ofile p !! Z.to_nat x) as [[f|]|] eqn:Eo; intros [= <- <-]; [|done..]. split; [done|]. by exists p.
Qed.

Lemma desc_in d s p fd f : wf d s -> fprocs s !! cur s = Some p -> ofile p !! fd = Some (Some f) -> 1 <= all_refs (fprocs s) f /\
  (f < length (ftable s))%nat.
Proof.
  intros Hw Hp Ho. assert (1 <= all_refs (fprocs s) f).
  { pose proof (all_refs_lookup _ _ _ f Hp). pose proof (refs_lookup _ _ _ Ho). lia. }
  split; [done|]. apply (wf_in _ _ Hw). lia.
Qed.

(** ** Pipes *)

Lemma pipewrite_run_open k l q : forall q' r c, pipewrite_run k l q = (q', r, c) ->
  readopen q' = readopen q /\ writeopen q' = writeopen q.
Proof.
  revert q. induction l as [|b l IH]; intros q q' r c; cbn; [by intros [= <- _ _]|].
  case_match; [case_match; by intros [= <- _ _]|]. intros E. by apply IH in E.
Qed.
Lemma read_copy_open n q : forall q' l, read_copy n q = (q', l) -> readopen q' = readopen q /\ writeopen q' = writeopen q.
Proof.
  revert q. induction n as [|n IH]; intros q q' l; cbn; [by intros [= <- _]|]. case_match; [by intros [= <- _]|].
  destruct (read_copy n _) as [q1 l1] eqn:E. intros [= <- _]. by apply IH in E.
Qed.
Lemma piperead_run_open k n q q' r c : piperead_run k n q = (q', r, c) -> readopen q' = readopen q /\ writeopen q' = writeopen q.
Proof.
  unfold piperead_run. case_match; [case_match; by intros [= <- _ _]|].
  destruct (read_copy _ q) as [q1 l1] eqn:E. intros [= <- _ _]. by apply read_copy_open in E.
Qed.

Lemma put_pipe_wf d s p q q' : wf d s -> pipes s !! p = Some q -> readopen q' = readopen q -> writeopen q' = writeopen q ->
  wf d (set_pipes (<[p := q']> (pipes s)) s).
Proof.
  intros [H1 H2 H3 H4 H5] Hp E1 E2. split; try done. cbn [ftable pipes set_pipes]. intros f x Hf Ht.
  destruct (H4 f x Hf Ht) as (q0 & Hq & Ho). destruct (decide (f_pipe x = p)) as [E|E].
  - exists q'. rewrite E, list_lookup_insert_eq by (by eapply lookup_lt_Some). split; [done|].
    rewrite E, Hp in Hq. injection Hq as <-. unfold end_open in *. by rewrite E1, E2.
  - exists q0. by rewrite list_lookup_insert_ne.
Qed.

Lemma piperead_wf d s p n r s' : wf d s -> piperead p n s = Ret r s' -> wf d s'.
Proof.
  intros Hw E. unfold piperead, myproc in E. unfold bind at 1 in E. destruct (fprocs s !! cur s) as [me|]; [|done].
  unfold get_pipe in E. unfold bind at 1 in E. destruct (pipes s !! p) as [q|] eqn:Ep; [|done].
  destruct (piperead_run (fkilled me) n q) as [[q' res] c] eqn:Er. apply piperead_run_open in Er as [R1 R2].
  unfold put_pipe, modify in E. unfold bind at 1 in E. pose proof (put_pipe_wf _ _ _ _ _ Hw Ep R1 R2) as Hw'.
  destruct res; by injection E as _ <-.
Qed.

Lemma pipewrite_wf d s p l r s' : wf d s -> pipewrite p l s = Ret r s' -> wf d s'.
Proof.
  intros Hw E. unfold pipewrite, myproc in E. unfold bind at 1 in E. destruct (fprocs s !! cur s) as [me|]; [|done].
  unfold get_pipe in E. unfold bind at 1 in E. destruct (pipes s !! p) as [q|] eqn:Ep; [|done].
  destruct (pipewrite_run (fkilled me) l q) as [[q' res] c] eqn:Er. apply pipewrite_run_open in Er as [R1 R2].
  unfold put_pipe, modify in E. unfold bind at 1 in E. pose proof (put_pipe_wf _ _ _ _ _ Hw Ep R1 R2) as Hw'.
  destruct res; by injection E as _ <-.
Qed.

Lemma set_off_wf d s f x n : wf d s -> ftable s !! f = Some x -> wf d (set_ftable (<[f := set_off x n]> (ftable s)) s).
Proof.
  intros Hw Hf. eapply wf_ext; [apply (plus_zero d f)|]. eapply put_file_wf; [done|done|cbn; lia| |by right].
  cbn. by eapply (wf_none _ _ Hw).
Qed.

Section Calls.
Context `{SysArgs}.
Context (dev_read : Z -> option (nat -> Z -> F (option (list Z)))).
Context (dev_write : Z -> option (nat -> list Z -> F (option Z))).

Lemma keeps_argfd n : keeps (argfd n).
Proof using Type. unfold argfd. keeping. Qed.
Hint Resolve keeps_argfd : keeps.
Lemma keeps_link_bad i : keeps (link_bad i).
Proof using Type. unfold link_bad. keeping. Qed.
Lemma keeps_unlink_bad i : keeps (unlink_bad i).
Proof using Type. unfold unlink_bad. keeping. Qed.
Lemma keeps_open_fail i : keeps (open_fail i).
Proof using Type. unfold open_fail. keeping. Qed.
Hint Resolve keeps_link_bad keeps_unlink_bad keeps_open_fail : keeps.
Lemma keeps_create path t ma mi : keeps (create dev_read dev_write path t ma mi).
Proof using Type. unfold create. keeping. Qed.
Hint Resolve keeps_create : keeps.
Lemma keeps_open_inode path om : keeps (open_inode dev_read dev_write path om).
Proof using Type. unfold open_inode. keeping. Qed.
Lemma keeps_create_done r : keeps (create_done r).
Proof using Type. unfold create_done. keeping. Qed.
Hint Resolve keeps_open_inode keeps_create_done : keeps.
Lemma keeps_sys_link : keeps (sys_link dev_read dev_write).
Proof using Type. unfold sys_link. keeping. Qed.
Lemma keeps_sys_unlink : keeps (sys_unlink dev_read dev_write).
Proof using Type. unfold sys_unlink. keeping. Qed.
Lemma keeps_sys_mkdir : keeps (sys_mkdir dev_read dev_write).
Proof using Type. unfold sys_mkdir. keeping. Qed.
Lemma keeps_sys_mknod : keeps (sys_mknod dev_read dev_write).
Proof using Type. unfold sys_mknod. keeping. Qed.
Lemma keeps_sys_fstat : keeps sys_fstat.
Proof using Type. unfold sys_fstat. keeping. Qed.

(** ** Reading and writing *)

Lemma fileread_wf d s f n r s' : wf d s -> fileread dev_read f n s = Ret r s' -> wf d s'.
Proof using Type.
  intros Hw E. unfold fileread, get_file in E. unfold bind at 1 in E. destruct (ftable s !! f) as [x|] eqn:Ef; [|done].
  destruct (f_readable x); cbn [negb] in E; [|by injection E as _ <-]. destruct (f_type x); [done|by eapply piperead_wf|].
  apply bind_inv in E as (u1 & s1 & E1 & E). pose proof (keeps_liftF _ _ _ _ E1) as K1.
  apply bind_inv in E as (l & s2 & E2 & E). pose proof (keeps_liftF _ _ _ _ E2) as K2.
  pose proof (same_core_trans _ _ _ K1 K2) as K12. apply bind_inv in E as (u3 & s3 & E3 & E).
  assert (Hw3 : wf d s3).
  { pose proof (wf_core _ _ _ K12 Hw) as Hw2. assert (Hf2 : ftable s2 !! f = Some x) by (destruct K12 as (-> & _); done).
    destruct l as [l|]; [|by injection E3 as _ <-]. destruct (0 <? _); injection E3 as _ <-; [|done]. by apply set_off_wf. }
  apply bind_inv in E as (u4 & s4 & E4 & E). pose proof (wf_core _ _ _ (keeps_liftF _ _ _ _ E4) Hw3).
  destruct l; by injection E as _ <-.
Qed.

Lemma filewrite_txn_wf d s f l r s' : wf d s -> filewrite_txn dev_write f l s = Ret r s' -> wf d s'.
Proof using Type.
  intros Hw E. unfold filewrite_txn in E. apply bind_inv in E as (u0 & s0 & E0 & E).
  pose proof (wf_core _ _ _ (keeps_begin_op _ _ _ E0) Hw) as Hw0. unfold get_file in E. unfold bind at 1 in E.
  destruct (ftable s0 !! f) as [x|] eqn:Ef; [|done].
  apply bind_inv in E as (u1 & s1 & E1 & E). pose proof (keeps_liftF _ _ _ _ E1) as K1.
  apply bind_inv in E as (n & s2 & E2 & E). pose proof (keeps_liftF _ _ _ _ E2) as K2.
  pose proof (same_core_trans _ _ _ K1 K2) as K12. apply bind_inv in E as (u3 & s3 & E3 & E).
  assert (Hw3 : wf d s3).
  { pose proof (wf_core _ _ _ K12 Hw0) as Hw2. assert (Hf2 : ftable s2 !! f = Some x) by (destruct K12 as (-> & _); done).
    destruct n as [n|]; [|by injection E3 as _ <-]. destruct (0 <? _); injection E3 as _ <-; [|done]. by apply set_off_wf. }
  apply bind_inv in E as (u4 & s4 & E4 & E). apply bind_inv in E as (u5 & s5 & E5 & E). injection E as _ <-.
  exact (wf_core _ _ _ (keeps_end_op _ _ _ E5) (wf_core _ _ _ (keeps_liftF _ _ _ _ E4) Hw3)).
Qed.

Lemma filewrite_wf d s f l r s' : wf d s -> filewrite dev_write f l s = Ret r s' -> wf d s'.
Proof using Type.
  intros Hw E. unfold filewrite, get_file in E. unfold bind at 1 in E. destruct (ftable s !! f) as [x|]; [|done].
  destruct (f_writable x); cbn [negb] in E; [|by injection E as _ <-]. destruct (f_type x); [done|by eapply pipewrite_wf|].
  apply bind_inv in E as (all & s1 & E1 & E). injection E as _ <-. revert E1. generalize (S (length l)). intros n. clear r.
  revert l s Hw. induction n as [|n IH]; intros l s Hw; cbn [filewrite_loop]; [done|].
  destruct l as [|c l]; [by intros [= _ <-]|]. intros E. apply bind_inv in E as (r & s2 & E2 & E).
  apply filewrite_txn_wf with (d := d) in E2; [|done]. destruct r as [r|]; [|by injection E as _ <-].
  destruct (r <? 0); [by injection E as _ <-|]. destruct (negb _); [done|]. by eapply IH.
Qed.

(** ** Making a pipe *)

Lemma kalloc_pipe_wf d s r s' : wf d s -> kalloc_pipe s = Ret r s' -> wf d s' /\ ftable s' = ftable s /\ fprocs s' = fprocs s /\ cur s' = cur s /\
  match r with
  | Some p => p = length (pipes s) /\ exists q, pipes s' = pipes s ++ [q] /\ readopen q = true /\ writeopen q = true
  | None => True
  end.
Proof using Type.
  intros [H1 H2 H3 H4 H5] E. unfold kalloc_pipe, gets in E. unfold bind at 1 in E. destruct (pages s) as [|k]; [by injection E as <- <-|].
  unfold bind, modify, ret in E. injection E as <- <-. split; [|split_and!; try done; by eexists].
  split; try done. cbn [ftable pipes set_pipes set_pages]. intros f x Hf Ht. destruct (H4 f x Hf Ht) as (q & Hq & Ho).
  exists q. split; [|done]. by apply lookup_app_l_Some.
Qed.

(** A file becomes an end of a pipe that no other file is that end of. *)
Lemma put_end_wf d s f x p q w : wf d s -> ftable s !! f = Some x -> f_ref x <> 0 ->
  pipes s !! p = Some q -> end_open (pipe_end x p w) q = true ->
  (forall g y, ftable s !! g = Some y -> f_type y = FD_PIPE -> f_pipe y = p -> f_writable y <> w) ->
  wf d (set_ftable (<[f := pipe_end x p w]> (ftable s)) s).
Proof using Type.
  intros [H1 H2 H3 H4 H5] Hf Hr Hq Ho Hno. split; cbn [ftable fprocs pipes set_ftable].
  - intros g z Hg. apply (file_upd _ _ _ _ _ _ Hf) in Hg as [[-> ->]|[Hne Hg]]; [exact (H1 f x Hf)|by apply H1].
  - intros g Hg. rewrite length_insert. by apply H2.
  - intros g z Hg. apply (file_upd _ _ _ _ _ _ Hf) in Hg as [[-> ->]|[Hne Hg]]; [done|by eapply H3].
  - intros g z Hg Ht. apply (file_upd _ _ _ _ _ _ Hf) in Hg as [[-> ->]|[Hne Hg]]; [by exists q|by eapply H4].
  - intros g h z y Hg Hh Tz Ty Ep Ew. apply (file_upd _ _ _ _ _ _ Hf) in Hg as [[-> ->]|[Hg1 Hg]];
      apply (file_upd _ _ _ _ _ _ Hf) in Hh as [[-> ->]|[Hh1 Hh]]; [done|..|by eapply H5].
    + exfalso. by apply (Hno h y).
    + exfalso. by apply (Hno g z).
Qed.

Lemma pipealloc_wf d s r s' : wf d s -> (forall f, 0 <= d f) -> pipealloc s = Ret r s' ->
  fprocs s' = fprocs s /\ cur s' = cur s /\
  match r with
  | None => wf d s'
  | Some (f0, f1) => wf (plus (plus d 1 f0) 1 f1) s' /\ (f0 < length (ftable s'))%nat /\ (f1 < length (ftable s'))%nat
  end.
Proof using Type.
  intros Hw Hd E. unfold pipealloc in E. apply bind_inv in E as (r0 & s0 & E0 & E).
  pose proof (filealloc_wf _ _ _ _ Hw E0) as H0. destruct r0 as [f0|]; [|subst; by injection E as <- <-].
  destruct H0 as (x0 & Hf0 & Hx0 & Ht0 & -> & Hw0). apply bind_inv in E as (r1 & s1 & E1 & E).
  pose proof (filealloc_wf _ _ _ _ Hw0 E1) as H1. destruct r1 as [f1|].
  2:{ subst s1. apply bind_inv in E as ([] & s2 & E2 & E). injection E as <- <-.
      apply (fileclose_wf _ _ _ _ Hw0) in E2 as (Hw2 & K1 & K2 & _). split_and!; [by rewrite K1|by rewrite K2|].
      refine (wf_ext _ _ _ _ Hw2). intros g. rewrite plus_plus. apply plus_zero. }
  destruct H1 as (x1 & Hf1 & Hx1 & Ht1 & -> & Hw1). set (s1 := set_ftable _ _) in *.
  assert (Hne : f1 <> f0).
  { intros ->. cbn [ftable set_ftable] in Hf1. rewrite list_lookup_insert_eq in Hf1 by (by eapply lookup_lt_Some). by injection Hf1 as <-. }
  assert (Hl : length (ftable s1) = length (ftable s)) by (cbn; by rewrite !length_insert).
  apply bind_inv in E as (r2 & s2 & E2 & E). destruct (kalloc_pipe_wf _ _ _ _ Hw1 E2) as (Hw2 & T2 & K2 & C2 & Hp). destruct r2 as [p|].
  2:{ apply bind_inv in E as ([] & s3 & E3 & E). apply bind_inv in E as ([] & s4 & E4 & E). injection E as <- <-.
      apply (fileclose_wf _ _ _ _ Hw2) in E3 as (Hw3 & A1 & A2 & _). apply (fileclose_wf _ _ _ _ Hw3) in E4 as (Hw4 & B1 & B2 & _).
      split_and!; [by rewrite B1, A1, K2|by rewrite B2, A2, C2|]. refine (wf_ext _ _ _ _ Hw4). intros g. unfold plus. lia. }
  destruct Hp as [Ep (q & Hq & Hro & Hwo)]. change (pipes s1) with (pipes s) in Ep, Hq. subst p.
  assert (Hf02 : ftable s2 !! f0 = Some (set_fref x0 1)).
  { rewrite T2. cbn [s1 ftable set_ftable]. rewrite list_lookup_insert_ne by done. apply list_lookup_insert_eq. by eapply lookup_lt_Some. }
  assert (Hf12 : ftable s2 !! f1 = Some (set_fref x1 1)).
  { rewrite T2. cbn [s1 ftable set_ftable] in *. apply list_lookup_insert_eq. by eapply lookup_lt_Some. }
  assert (Hfresh : forall g y, ftable s2 !! g = Some y -> f_type y = FD_PIPE -> f_pipe y <> length (pipes s)).
  { intros g y Hg Ty Ep. rewrite T2 in Hg. destruct (wf_pipe _ _ Hw1 g y Hg Ty) as (q' & Hq' & _). apply lookup_lt_Some in Hq'.
    cbn [s1 pipes set_ftable] in Hq'. lia. }
  assert (Hqp : pipes s2 !! length (pipes s) = Some q) by (rewrite Hq; by apply list_lookup_middle).
  unfold get_file, put_file, modify in E. unfold bind at 1 2 in E. rewrite Hf02 in E.
  pose proof (put_end_wf _ s2 f0 _ _ q false Hw2 Hf02 ltac:(done) Hqp Hro (fun g y Hg Ty Ep => False_ind _ (Hfresh g y Hg Ty Ep))) as Hw3.
  set (s3 := set_ftable (<[f0 := pipe_end (set_fref x0 1) (length (pipes s)) false]> (ftable s2)) s2) in *.
  assert (Hf13 : ftable s3 !! f1 = Some (set_fref x1 1)) by (cbn [s3 ftable set_ftable]; by rewrite list_lookup_insert_ne by congruence).
  unfold bind at 1 2 in E. fold s3 in E. rewrite Hf13 in E. injection E as <- <-. cbn [fprocs cur set_ftable s3]. rewrite K2, C2.
  split; [done|]. split; [done|]. split.
  - apply (put_end_wf _ s3 f1 _ _ q true Hw3 Hf13 ltac:(done) Hqp Hwo). intros g y Hg Ty Ep.
    apply (file_upd _ _ _ _ _ _ Hf02) in Hg as [[-> ->]|[_ Hg]]; [done|]. by apply Hfresh in Hg.
  - cbn [ftable set_ftable]. rewrite !length_insert. split; by eapply lookup_lt_Some.
Qed.

(** ** The calls *)

Definition zero : nat -> Z := fun _ => 0.

Lemma sys_dup_wf s r s' : wf zero s -> sys_dup s = Ret r s' -> wf zero s'.
Proof using Type.
  intros Hw E. unfold sys_dup in E. apply bind_inv in E as (a & s1 & E1 & E). apply argfd_spec in E1 as [-> Ha].
  destruct a as [[fd f]|]; [|by injection E as _ <-]. destruct Ha as (p & Hp & Ho). destruct (desc_in _ _ _ _ _ Hw Hp Ho) as [_ Hf].
  apply bind_inv in E as (r2 & s2 & E2 & E). pose proof (fdalloc_wf _ _ _ _ _ Hw Hf E2) as H2.
  destruct r2 as [fd2|]; [|subst; by injection E as _ <-]. destruct H2 as (Hw2 & _). apply bind_inv in E as (r3 & s3 & E3 & E).
  injection E as _ <-. apply (filedup_wf _ _ _ _ _ Hw2) in E3 as (_ & Hw3 & _). refine (wf_ext _ _ _ _ Hw3).
  intros g. unfold plus, zero. lia.
Qed.

Lemma sys_close_wf s r s' : wf zero s -> sys_close s = Ret r s' -> wf zero s'.
Proof using Type.
  intros Hw E. unfold sys_close in E. apply bind_inv in E as (a & s1 & E1 & E). apply argfd_spec in E1 as [-> Ha].
  destruct a as [[fd f]|]; [|by injection E as _ <-]. destruct Ha as (p & Hp & Ho).
  apply bind_inv in E as ([] & s2 & E2 & E). apply (set_ofile_wf _ _ _ _ _ _ _ Hw Hp Ho) in E2 as (Hw2 & _); [|done].
  apply bind_inv in E as ([] & s3 & E3 & E). injection E as _ <-. apply (fileclose_wf _ _ _ _ Hw2) in E3 as (Hw3 & _).
  refine (wf_ext _ _ _ _ Hw3). intros g. unfold plus, zero. rewrite delta_none. lia.
Qed.

Lemma sys_read_wf s r s' : wf zero s -> sys_read dev_read s = Ret r s' -> wf zero s'.
Proof using Type.
  intros Hw E. unfold sys_read in E. apply bind_inv in E as (a & s1 & E1 & E). apply argfd_spec in E1 as [-> _].
  destruct a as [[fd f]|]; [|by injection E as _ <-]. destruct (argint 2) as [n|]; [|by injection E as _ <-].
  destruct (argptr 1 n) as [p|]; [|by injection E as _ <-]. apply bind_inv in E as ([x l] & s2 & E2 & E).
  apply (fileread_wf _ _ _ _ _ _ Hw) in E2. apply bind_inv in E as (u & s3 & E3 & E). injection E as _ <-.
  exact (wf_core _ _ _ (keeps_copyout _ _ _ _ _ E3) E2).
Qed.

Lemma sys_write_wf s r s' : wf zero s -> sys_write dev_write s = Ret r s' -> wf zero s'.
Proof using Type.
  intros Hw E. unfold sys_write in E. apply bind_inv in E as (a & s1 & E1 & E). apply argfd_spec in E1 as [-> _].
  destruct a as [[fd f]|]; [|by injection E as _ <-]. destruct (argint 2) as [n|]; [|by injection E as _ <-].
  destruct (argptr 1 n) as [p|]; [|by injection E as _ <-]. by apply (filewrite_wf _ _ _ _ _ _ Hw) in E.
Qed.

Lemma sys_open_wf s r s' : wf zero s -> sys_open dev_read dev_write s = Ret r s' -> wf zero s'.
Proof using Type.
  intros Hw E. unfold sys_open in E. destruct (argstr 0) as [path|]; [|by injection E as _ <-].
  destruct (argint 1) as [om|]; [|by injection E as _ <-]. apply bind_inv in E as (u & s0 & E0 & E).
  pose proof (wf_core _ _ _ (keeps_begin_op _ _ _ E0) Hw) as Hw0. apply bind_inv in E as (i & s1 & E1 & E).
  pose proof (wf_core _ _ _ (keeps_open_inode _ _ _ _ _ E1) Hw0) as Hw1. destruct i as [i|]; [|by injection E as _ <-].
  apply bind_inv in E as (f & s2 & E2 & E). pose proof (filealloc_wf _ _ _ _ Hw1 E2) as H2. destruct f as [f|].
  2:{ subst s2. exact (wf_core _ _ _ (keeps_open_fail _ _ _ _ E) Hw1). }
  destruct H2 as (x & Hf & _ & _ & -> & Hw2). set (s2 := set_ftable _ _) in *.
  assert (Hl : (f < length (ftable s2))%nat) by (cbn; rewrite length_insert; by eapply lookup_lt_Some).
  apply bind_inv in E as (fd & s3 & E3 & E). pose proof (fdalloc_wf _ _ _ _ _ Hw2 Hl E3) as H3. destruct fd as [fd|].
  2:{ subst s3. apply bind_inv in E as ([] & s4 & E4 & E). apply (fileclose_wf _ _ _ _ Hw2) in E4 as (Hw4 & _).
      apply (wf_core _ _ _ (keeps_open_fail _ _ _ _ E)). refine (wf_ext _ _ _ _ Hw4). intros g. rewrite plus_plus. apply plus_zero. }
  destruct H3 as (Hw3 & T3 & _ & _ & p & Hp & Ho & _ & P3). apply bind_inv in E as (u4 & s4 & E4 & E). apply bind_inv in E as (u5 & s5 & E5 & E).
  pose proof (same_core_trans _ _ _ (keeps_liftF _ _ _ _ E4) (keeps_end_op _ _ _ E5)) as K5.
  assert (Hw5 : wf zero s5).
  { apply (wf_core _ _ _ K5). refine (wf_ext _ _ _ _ Hw3). intros g. rewrite plus_plus. apply plus_zero. }
  assert (Hf5 : ftable s5 !! f = Some (set_fref x 1)).
  { destruct K5 as (-> & _). rewrite T3. apply list_lookup_insert_eq. by eapply lookup_lt_Some. }
  unfold get_file in E. unfold bind at 1 in E. rewrite Hf5 in E. injection E as _ <-.
  eapply wf_ext; [apply (plus_zero zero f)|]. eapply put_file_wf; [exact Hw5|exact Hf5|done|done|by left].
Qed.

Lemma sys_pipe_wf s r s' : wf zero s -> sys_pipe s = Ret r s' -> wf zero s'.
Proof using Type.
  intros Hw E. unfold sys_pipe in E. destruct (argptr 0 8) as [p|]; [|by injection E as _ <-].
  apply bind_inv in E as (r0 & s0 & E0 & E). apply (pipealloc_wf _ _ _ _ Hw) in E0 as (K0 & C0 & H0); [|done].
  destruct r0 as [[rf wf0]|]; [|by injection E as _ <-]. destruct H0 as (Hw0 & Hr & Hwl).
  apply bind_inv in E as (fd0 & s1 & E1 & E). pose proof (fdalloc_wf _ _ _ _ _ Hw0 Hr E1) as H1. destruct fd0 as [fd0|].
  2:{ subst s1. apply bind_inv in E as ([] & s2 & E2 & E). apply bind_inv in E as ([] & s3 & E3 & E). injection E as _ <-.
      apply (fileclose_wf _ _ _ _ Hw0) in E2 as (Hw2 & _). apply (fileclose_wf _ _ _ _ Hw2) in E3 as (Hw3 & _).
      refine (wf_ext _ _ _ _ Hw3). intros g. unfold plus, zero. lia. }
  destruct H1 as (Hw1 & T1 & _ & C1 & me & Hme & Ho & _ & P1). rewrite <- T1 in Hwl.
  apply bind_inv in E as (fd1 & s2 & E2 & E). pose proof (fdalloc_wf _ _ _ _ _ Hw1 Hwl E2) as H2. destruct fd1 as [fd1|].
  2:{ subst s2. apply bind_inv in E as ([] & s3 & E3 & E). apply bind_inv in E as ([] & s4 & E4 & E).
      apply bind_inv in E as ([] & s5 & E5 & E). injection E as _ <-.
      eapply (set_ofile_wf _ _ fd0 (Some rf) None) in E3 as (Hw3 & _);
        [|exact Hw1|rewrite P1, C1; apply list_lookup_insert_eq; by eapply lookup_lt_Some
         |cbn; apply list_lookup_insert_eq; by eapply lookup_lt_Some|done].
      apply (fileclose_wf _ _ _ _ Hw3) in E4 as (Hw4 & _). apply (fileclose_wf _ _ _ _ Hw4) in E5 as (Hw5 & _).
      refine (wf_ext _ _ _ _ Hw5). intros g. unfold plus, zero. rewrite delta_none. lia. }
  destruct H2 as (Hw2 & _). apply bind_inv in E as (u3 & s3 & E3 & E). apply bind_inv in E as (u4 & s4 & E4 & E). injection E as _ <-.
  apply (wf_core _ _ _ (same_core_trans _ _ _ (keeps_copyout _ _ _ _ _ E3) (keeps_copyout _ _ _ _ _ E4))).
  refine (wf_ext _ _ _ _ Hw2). intros g. unfold plus, zero. lia.
Qed.

Lemma sys_chdir_wf s r s' : wf zero s -> sys_chdir dev_read s = Ret r s' -> wf zero s'.
Proof using Type.
  intros Hw E. unfold sys_chdir in E. apply bind_inv in E as (u & s0 & E0 & E). pose proof (keeps_begin_op _ _ _ E0) as K0.
  unfold myproc in E. unfold bind at 1 in E. destruct (fprocs s0 !! cur s0) as [me|] eqn:Eme; [|done].
  apply bind_inv in E as (i & s1 & E1 & E). assert (K1 : same_core s0 s1).
  { destruct (argstr 0); [exact (keeps_liftF _ _ _ _ E1)|exact (keeps_ret _ _ _ _ E1)]. }
  pose proof (wf_core _ _ _ (same_core_trans _ _ _ K0 K1) Hw) as Hw1. destruct i as [i|].
  2:{ apply bind_inv in E as (u2 & s2 & E2 & E). injection E as _ <-. exact (wf_core _ _ _ (keeps_end_op _ _ _ E2) Hw1). }
  apply bind_inv in E as (u2 & s2 & E2 & E). apply bind_inv in E as (ip & s3 & E3 & E).
  pose proof (same_core_trans _ _ _ (keeps_liftF _ _ _ _ E2) (keeps_liftF _ _ _ _ E3)) as K3. destruct (negb _).
  { apply bind_inv in E as (u4 & s4 & E4 & E). apply bind_inv in E as (u5 & s5 & E5 & E). injection E as _ <-.
    exact (wf_core _ _ _ (same_core_trans _ _ _ K3 (same_core_trans _ _ _ (keeps_liftF _ _ _ _ E4) (keeps_end_op _ _ _ E5))) Hw1). }
  apply bind_inv in E as (u4 & s4 & E4 & E). apply bind_inv in E as (u5 & s5 & E5 & E). apply bind_inv in E as (u6 & s6 & E6 & E).
  pose proof (same_core_trans _ _ _ (keeps_liftF _ _ _ _ E4) (same_core_trans _ _ _ (keeps_liftF _ _ _ _ E5) (keeps_end_op _ _ _ E6))) as K6.
  pose proof (same_core_trans _ _ _ K3 K6) as K36. pose proof (wf_core _ _ _ K36 Hw1) as Hw6.
  injection E as _ <-. assert (Hme : fprocs s6 !! cur s6 = Some me).
  { destruct (same_core_trans _ _ _ K1 K36) as (_ & -> & _ & ->). done. }
  eapply set_table_wf; [exact Hw6|exact Hme|..]; cbn [ofile]; intros f; [unfold zero; lia|]. intros Hf.
  apply (wf_in _ _ Hw6). pose proof (all_refs_lookup _ _ _ f Hme). lia.
Qed.
End Calls.

(** ** fork and exit *)

Lemma fork_files_wf np l : forall fd s s' pc, wf zero s -> fprocs s !! np = Some pc ->
  (forall k, (fd <= k < fd + length l)%nat -> ofile pc !! k = Some None) ->
  fork_files np fd l s = Ret tt s' -> wf zero s'.
Proof.
  induction l as [|[f|] l IH]; intros fd s s' pc Hw Hpc Hn E; cbn [fork_files length] in *; [by injection E as <-| |].
  - apply bind_inv in E as (f' & s1 & E1 & E). apply (filedup_wf _ _ _ _ _ Hw) in E1 as (-> & Hw1 & P1 & C1 & L1).
    rewrite <- P1 in Hpc. apply bind_inv in E as ([] & s2 & E2 & E). unfold set_ofile_of in E2. rewrite Hpc in E2. injection E2 as <-.
    eapply (IH (S fd)); [| |..|exact E].
    + eapply (set_table_wf _ zero); [exact Hw1|exact Hpc|..]; cbn [ofile]; intros g;
        rewrite (refs_insert _ fd None) by (apply Hn; lia); pose proof (delta_none g); [unfold plus, zero; lia|]. intros Hg.
      destruct (decide (f = g)) as [->|Hne]; [done|]. rewrite delta_other in Hg by done. apply (wf_in _ _ Hw1).
      pose proof (all_refs_lookup _ _ _ g Hpc). lia.
    + cbn [fprocs set_fprocs]. apply list_lookup_insert_eq. by eapply lookup_lt_Some.
    + cbn [ofile]. intros k Hk. rewrite list_lookup_insert_ne by lia. apply Hn. lia.
  - eapply (IH (S fd)); [exact Hw|exact Hpc| |exact E]. intros k Hk. apply Hn. lia.
Qed.

Lemma exit_files_wf n : forall fd s s', wf zero s -> exit_files n fd s = Ret tt s' -> wf zero s'.
Proof.
  induction n as [|n IH]; intros fd s s' Hw E; cbn [exit_files] in E; [by injection E as <-|].
  unfold myproc in E. unfold bind at 1 in E. destruct (fprocs s !! cur s) as [me|] eqn:Eme; [|done].
  apply bind_inv in E as ([] & s1 & E1 & E). eapply IH; [|exact E].
  destruct (ofile me !! fd) as [[f|]|] eqn:Eo; [|by injection E1 as <-..]. apply bind_inv in E1 as ([] & s2 & E2 & E3).
  apply (fileclose_wf _ _ _ _ Hw) in E2 as (Hw2 & P2 & C2 & _).
  eapply (set_ofile_wf _ _ fd (Some f) None) in E3 as (Hw3 & _); [|exact Hw2|by rewrite P2, C2|exact Eo|done].
  refine (wf_ext _ _ _ _ Hw3). intros g. unfold plus, zero. rewrite delta_none. lia.
Qed.

(** ** Runs of the system *)

Inductive fcall := Cdup | Cread | Cwrite | Cclose | Cfstat | Clink | Cunlink | Copen | Cmkdir | Cmknod | Cchdir | Cpipe.

Definition do_call `{SysArgs} dev_read dev_write (c : fcall) : U fres :=
  match c with
  | Cdup => sys_dup
  | Cread => sys_read dev_read
  | Cwrite => sys_write dev_write
  | Cclose => sys_close
  | Cfstat => sys_fstat
  | Clink => sys_link dev_read dev_write
  | Cunlink => sys_unlink dev_read dev_write
  | Copen => sys_open dev_read dev_write
  | Cmkdir => sys_mkdir dev_read dev_write
  | Cmknod => sys_mknod dev_read dev_write
  | Cchdir => sys_chdir dev_read
  | Cpipe => sys_pipe
  end.

Definition set_cur (i : nat) (s : kfs) : kfs :=
  mk_kfs (fs s) (ftable s) (pipes s) (pages s) (fprocs s) i (umem s).

Section Run.
Context (dev_read : Z -> option (nat -> Z -> F (option (list Z)))).
Context (dev_write : Z -> option (nat -> list Z -> F (option Z))).

(** A step: a call with any arguments, a switch to another process, and what fork
    and exit do with the files. *)
Inductive fstep : kfs -> kfs -> Prop :=
| st_call (args : SysArgs) c r s s' : do_call dev_read dev_write c s = Ret r s' -> fstep s s'
| st_switch i s : fstep s (set_cur i s)
| st_fork np pc me s s' : fprocs s !! cur s = Some me -> fprocs s !! np = Some pc ->
    ofile pc = replicate (length (ofile me)) None -> fork_files np 0 (ofile me) s = Ret tt s' -> fstep s s'
| st_exit s s' : exit_files (Z.to_nat NOFILE) 0 s = Ret tt s' -> fstep s s'.

Lemma fstep_wf s s' : wf zero s -> fstep s s' -> wf zero s'.
Proof using Type.
  intros Hw Hst. revert Hw. destruct Hst as [args c r s0 s1 E|i s0|np pc me s0 s1 Hme Hpc Ho E|s0 s1 E]; intros Hw.
  - destruct c; cbn [do_call] in E.
    + exact (sys_dup_wf _ _ _ Hw E).
    + exact (sys_read_wf _ _ _ _ Hw E).
    + exact (sys_write_wf _ _ _ _ Hw E).
    + exact (sys_close_wf _ _ _ Hw E).
    + exact (wf_core _ _ _ (keeps_sys_fstat _ _ _ E) Hw).
    + exact (wf_core _ _ _ (keeps_sys_link _ _ _ _ _ E) Hw).
    + exact (wf_core _ _ _ (keeps_sys_unlink _ _ _ _ _ E) Hw).
    + exact (sys_open_wf _ _ _ _ _ Hw E).
    + exact (wf_core _ _ _ (keeps_sys_mkdir _ _ _ _ _ E) Hw).
    + exact (wf_core _ _ _ (keeps_sys_mknod _ _ _ _ _ E) Hw).
    + exact (sys_chdir_wf _ _ _ _ Hw E).
    + exact (sys_pipe_wf _ _ _ Hw E).
  - by destruct Hw.
  - eapply fork_files_wf; [exact Hw|exact Hpc| |exact E]. intros k Hk. rewrite Ho. apply lookup_replicate_2. lia.
  - by eapply exit_files_wf.
Qed.

(** C10. In every state the processes can reach, with any calls in any order, any
    number of forks, exits and process switches, and whether the calls succeed
    or fail: the reference count of each open file is the number of descriptors
    of all processes that refer to it, every descriptor refers to a file of the
    table, a file without references has no type, and the read or write end of
    a pipe that some file refers to is open and belongs to that file alone. *)
Theorem descriptors_counted s0 s : wf zero s0 -> rtc fstep s0 s -> wf zero s.
Proof using Type. intros H0 H. induction H as [|s1 s2 s3 H12 _ IH]; [done|]. apply IH. by eapply fstep_wf. Qed.
End Run.

Lemma free_fd_lowest l k : l !! k = Some None -> (forall j, (j < k)%nat -> l !! j <> Some None) -> forall i, free_fd l i = Some (i + k)%nat.
Proof.
  revert k. induction l as [|o l IH]; intros [|k] Hk Hj i; cbn in *; [done|done|injection Hk as ->; f_equal; lia|].
  destruct o as [f|]; [|by destruct (Hj 0%nat); [lia|]]. rewrite (IH k Hk); [f_equal; lia|]. intros j Hl. apply (Hj (S j)). lia.
Qed.

(** [dup] never panics, and gives the lowest free descriptor, which then refers
    to the same open file, so that both share the offset; nothing else
    changes but the reference count of that file. *)
Theorem sys_dup_lowest `{SysArgs} s p fd f k :
  wf zero s -> fprocs s !! cur s = Some p -> argint 0 = Some fd -> 0 <= fd < NOFILE ->
  ofile p !! Z.to_nat fd = Some (Some f) -> ofile p !! k = Some None ->
  (forall j, (j < k)%nat -> ofile p !! j <> Some None) ->
  exists x, ftable s !! f = Some x /\
    sys_dup s = Ret (Done (Z.of_nat k))
      (set_ftable (<[f := set_fref x (f_ref x + 1)]> (ftable s))
         (set_fprocs (<[cur s := mk_fproc (<[k := Some f]> (ofile p)) (cwd p) (fkilled p)]> (fprocs s)) s)).
Proof.
  intros Hw Hp Ha Hfd Hf Hk Hlow. destruct (desc_in _ _ _ _ _ Hw Hp Hf) as [H1 Hl].
  destruct (lookup_lt_is_Some_2 (ftable s) f Hl) as [x Hx]. exists x. split; [done|].
  pose proof (wf_ref _ _ Hw f x Hx) as Hr. unfold zero in Hr.
  assert (E1 : argfd 0 s = Ret (Some (Z.to_nat fd, f)) s).
  { unfold argfd, myproc, bind. rewrite Ha, Hp. destruct (Z.ltb_spec fd 0), (Z.leb_spec NOFILE fd); try lia. cbn [orb]. by rewrite Hf. }
  unfold sys_dup. rewrite (bind_Ret _ _ _ _ _ E1). unfold fdalloc, set_ofile, myproc, put_proc, modify, ret, bind.
  rewrite Hp, (free_fd_lowest _ _ Hk Hlow), Hp. unfold filedup, get_file, bind. cbn [ftable set_fprocs Nat.add]. rewrite Hx.
  destruct (Z.ltb_spec (f_ref x) 1); [lia|]. done.
Qed.

(** The table at boot, and a process without open files. *)
Definition file0 : file := mk_file FD_NONE 0 false false 0 0 0.
Definition proc0 : fproc := mk_fproc (replicate 16 None) 0 false.
Definition boot_kfs (f : fstate) (n : nat) : kfs := mk_kfs f (replicate 100 file0) [] n [proc0; proc0] 0 ∅.

Lemma boot_wf f n : wf zero (boot_kfs f n).
Proof.
  assert (Hf : forall i x, replicate 100 file0 !! i = Some x -> x = file0) by (intros i x H; by apply lookup_replicate in H as [-> _]).
  assert (Hr : forall g, all_refs [proc0; proc0] g = 0) by (intros g; reflexivity).
  split; cbn [ftable fprocs pipes boot_kfs].
  - intros g x ->%Hf. by rewrite Hr.
  - intros g. rewrite Hr. lia.
  - by intros g x ->%Hf.
  - by intros g x ->%Hf.
  - by intros g h x y ->%Hf.
Qed.

Definition ex_args (fd : Z) : SysArgs := Build_SysArgs (fun _ => Some fd) (fun _ _ => Some 0) (fun _ => None) (fun _ => None) (fun _ => None).

(** A pipe, a fork and an exit of the child: the states are computed. *)
Definition ex_boot : kfs := boot_kfs (mk_fstate (mk_dstate ∅ ∅ [] (mk_log 2 31 0 false [])) (mk_superblock 0 0 0 0 0 0 0) []) 1.
Definition after {A} (m : U A) (s : kfs) : kfs := match m s with Ret _ s' => s' | _ => s end.
Definition ex_piped : kfs := Eval vm_compute in after (@sys_pipe (ex_args 0)) ex_boot.
Definition ex_forked : kfs := Eval vm_compute in after (fork_files 1 0 (default [] (ofile <$> fprocs ex_piped !! 0%nat))) ex_piped.
Definition ex_exited : kfs := Eval vm_compute in after (exit_files 16 0) (set_cur 1 ex_forked).

Lemma descriptors_counted_witness : f_ref <$> take 2 (ftable ex_forked) = [2; 2] /\ wf zero ex_exited.
Proof.
  split; [reflexivity|]. apply (descriptors_counted (fun _ => None) (fun _ => None) ex_boot); [apply boot_wf|].
  apply rtc_l with ex_piped; [apply (st_call _ _ (ex_args 0) Cpipe (Done 0)); vm_compute; reflexivity|].
  apply rtc_l with ex_forked; [eapply (st_fork _ _ 1); [vm_compute; reflexivity..]|].
  apply rtc_l with (set_cur 1 ex_forked); [apply st_switch|].
  apply rtc_l with ex_exited; [apply st_exit; vm_compute; reflexivity|]. apply rtc_refl.
Defined.

Lemma sys_dup_lowest_witness : exists x, ftable ex_piped !! 1%nat = Some x /\
  @sys_dup (ex_args 1) ex_piped = Ret (Done 2)
    (set_ftable (<[1%nat := set_fref x (f_ref x + 1)]> (ftable ex_piped))
      (set_fprocs (<[0%nat := mk_fproc (Some 0%nat :: Some 1%nat :: Some 1%nat :: replicate 13 None) 0 false]> (fprocs ex_piped)) ex_piped)).
Proof.
  apply (@sys_dup_lowest (ex_args 1) ex_piped (mk_fproc (Some 0%nat :: Some 1%nat :: replicate 14 None) 0 false) 1 1 2).
  - apply (fstep_wf (fun _ => None) (fun _ => None) ex_boot); [apply boot_wf|].
    apply (st_call _ _ (ex_args 0) Cpipe (Done 0)). vm_compute. reflexivity.
  - reflexivity.
  - reflexivity.
  - split; reflexivity || discriminate.
  - reflexivity.
  - reflexivity.
  - intros [|[|j]] Hj; [discriminate|discriminate|lia].
Defined.
