(* ===== verification/Mkfs.v ===== *)
(** * Making a file system image (mkfs.c)

    [mkfs] runs on the host.  The image file is a map from sector numbers to
    their bytes; a sector that was never written is past the end of the file.
    The host is little-endian, as the x86 it builds for.  A call of [exit(1)]
    and a failed [assert] are [Panic]; what [mkfs] prints is left out. *)
From S2P Require Import Prelude Memory KString Log Fs.

Definition FSSIZE : Z := 1000.
Definition NINODES : Z := 200.
Definition nbitmap : Z := FSSIZE / (BSIZE * 8) + 1.
Definition ninodeblocks : Z := NINODES / IPB + 1.
Definition nlog : Z := LOGSIZE.

(** The globals, and the image behind [fsfd]. *)
Record mkstate := mk_mkstate {
  img : gmap Z block;
  msb : superblock;
  freeinode : Z;
  freeblock : Z
}.
Definition K := M mkstate.

Definition set_img (d : gmap Z block) (s : mkstate) : mkstate := mk_mkstate d (msb s) (freeinode s) (freeblock s).
Definition set_msb (b : superblock) (s : mkstate) : mkstate := mk_mkstate (img s) b (freeinode s) (freeblock s).
Definition set_freeinode (n : Z) (s : mkstate) : mkstate := mk_mkstate (img s) (msb s) n (freeblock s).
Definition set_freeblock (n : Z) (s : mkstate) : mkstate := mk_mkstate (img s) (msb s) (freeinode s) n.

Definition assert_ (b : bool) : K unit := if b then ret tt else panic "assert".

(** The value of a variable whose bytes, from its first one, are those that the
    code stores there. *)
Definition xshort (x : Z) : Z := read16 (write8 (write8 ∅ 0 x) 1 (Z.shiftr x 8)) 0.
Definition xint (x : Z) : Z :=
  read32 (write8 (write8 (write8 (write8 ∅ 0 x) 1 (Z.shiftr x 8)) 2 (Z.shiftr x 16)) 3 (Z.shiftr x 24)) 0.

(** ** Sectors *)

(** [sec * BSIZE] is a [uint]; [lseek] goes where it is told, and a write past
    the end makes the file longer. *)
Definition seek (sec : Z) : Z := u32 (sec * BSIZE) / BSIZE.

Definition wsect (sec : Z) (buf : block) : K unit :=
  modify (fun s => set_img (<[seek sec := buf]> (img s)) s).

Definition rsect (sec : Z) : K block :=
  let* d := gets img in
  match d !! seek sec with
  | Some x => ret x
  | None => panic "read"
  end.

(** ** Inodes *)

(** [struct dinode] *)
Record dinode := mk_dinode {
  d_type : Z; d_major : Z; d_minor : Z; d_nlink : Z; d_size : Z; d_addrs : list Z
}.
Definition set_dsize (d : dinode) (n : Z) : dinode :=
  mk_dinode (d_type d) (d_major d) (d_minor d) (d_nlink d) n (d_addrs d).
Definition set_daddr (d : dinode) (k a : Z) : dinode :=
  mk_dinode (d_type d) (d_major d) (d_minor d) (d_nlink d) (d_size d) (<[Z.to_nat k := a]> (d_addrs d)).

Definition dinode_at (x : block) (o : Z) : dinode :=
  mk_dinode (di_type x o) (di_major x o) (di_minor x o) (di_nlink x o) (di_size x o)
    (get_addrs x (o + 12) (Z.to_nat (NDIRECT + 1))).
Definition dinode_to (x : block) (o : Z) (d : dinode) : block :=
  let x := write16 x o (d_type d) in
  let x := write16 x (o + 2) (d_major d) in
  let x := write16 x (o + 4) (d_minor d) in
  let x := write16 x (o + 6) (d_nlink d) in
  let x := write32 x (o + 8) (d_size d) in
  put_addrs x (o + 12) (d_addrs d).

Definition winode (inum : Z) (ip : dinode) : K unit :=
  let* b := gets msb in
  let bn := IBLOCK inum b in
  let* buf := rsect bn in
  wsect bn (dinode_to buf ((inum mod IPB) * sizeof_dinode) ip).

Definition rinode (inum : Z) : K dinode :=
  let* b := gets msb in
  let* buf := rsect (IBLOCK inum b) in
  ret (dinode_at buf ((inum mod IPB) * sizeof_dinode)).

Definition ialloc (type : Z) : K Z :=
  let* inum := gets freeinode in
  do* modify (set_freeinode (u32 (inum + 1))) in
  let din := mk_dinode (s16 (xshort type)) 0 0 (s16 (xshort 1)) (xint 0) (replicate (Z.to_nat (NDIRECT + 1)) 0) in
  do* winode inum din in
  ret inum.

(** ** The bitmap *)

Fixpoint set_bits (buf : block) (i : Z) (n : nat) : block :=
  match n with
  | O => buf
  | S k => set_bits (write8 buf (i / 8) (Z.lor (read8 buf (i / 8)) (Z.shiftl 1 (i mod 8)))) (i + 1) k
  end.

Definition balloc (used : Z) : K unit :=
  do* assert_ (used <? BSIZE * 8) in
  let* b := gets msb in
  wsect (sb_bmapstart b) (set_bits ∅ 0 (Z.to_nat used)).

(** ** Contents *)

(** [freeblock++] *)
Definition take_block : K Z :=
  let* b := gets freeblock in
  do* modify (set_freeblock (u32 (b + 1))) in
  ret b.

(** The block of the file that block [fbn] is in, and the inode with the
    addresses that this may have added. *)
Definition iappend_block (fbn : Z) (din : dinode) : K (Z * dinode) :=
  if fbn <? NDIRECT then
    let* din := (if xint (addr_at (d_addrs din) fbn) =? 0 then
                   let* b := take_block in ret (set_daddr din fbn (xint b))
                 else ret din) in
    ret (xint (addr_at (d_addrs din) fbn), din)
  else
    let* din := (if xint (addr_at (d_addrs din) NDIRECT) =? 0 then
                   let* b := take_block in ret (set_daddr din NDIRECT (xint b))
                 else ret din) in
    let ind := xint (addr_at (d_addrs din) NDIRECT) in
    let* indirect := rsect ind in
    let o := 4 * (fbn - NDIRECT) in
    let* indirect := (if read32 indirect o =? 0 then
                        let* b := take_block in
                        let indirect := write32 indirect o (xint b) in
                        do* wsect ind indirect in
                        ret indirect
                      else ret indirect) in
    ret (xint (read32 indirect o), din).

(** The loop of [iappend]; every turn appends at least one byte of [p], whose
    length is [n]. *)
Fixpoint iappend_loop (fuel : nat) (p : list Z) (off : Z) (din : dinode) : K (Z * dinode) :=
  match fuel with
  | O => fun _ => OutOfFuel
  | S k =>
      match p with
      | [] => ret (off, din)
      | _ =>
          let fbn := off / BSIZE in
          do* assert_ (fbn <? MAXFILE) in
          let* (x, din) := iappend_block fbn din in
          let n1 := Z.min (Z.of_nat (length p)) ((fbn + 1) * BSIZE - off) in
          let* buf := rsect x in
          do* wsect x (put_bytes buf (off - fbn * BSIZE) (take (Z.to_nat n1) p)) in
          iappend_loop k (drop (Z.to_nat n1) p) (u32 (off + n1)) din
      end
  end.

Definition iappend (inum : Z) (p : list Z) : K unit :=
  let* din := rinode inum in
  let* (off, din) := iappend_loop (S (length p)) p (xint (d_size din)) din in
  winode inum (set_dsize din (xint off)).

(** ** main *)

(** A [struct dirent] with the name as [strcpy] or [strncpy] leaves it in the
    cleared structure. *)
Definition dirent (inum : Z) (name : list Z) : list Z :=
  [u8 (xshort inum); u8 (Z.shiftr (xshort inum) 8)] ++ strncpy_list (Z.to_nat DIRSIZ) name.

Definition put_superblock (b : superblock) : block :=
  put_addrs ∅ 0 [sb_size b; sb_nblocks b; sb_ninodes b; sb_nlog b; sb_logstart b; sb_inodestart b; sb_bmapstart b].

Fixpoint zero_image (i : Z) (n : nat) : K unit :=
  match n with
  | O => ret tt
  | S k => do* wsect i ∅ in zero_image (i + 1) k
  end.

Section Main.
(** The host: whether it creates a file, and what the reads of an open file
    return one after the other, until one returns nothing or fails. *)
Context (creat : list Z -> bool) (host : list Z -> option (list (list Z))).

Fixpoint append_all (inum : Z) (chunks : list (list Z)) : K unit :=
  match chunks with
  | [] => ret tt
  | c :: cs => do* iappend inum c in append_all inum cs
  end.

(** [argv[i]] without a leading [_]. *)
Definition image_name (arg : list Z) : list Z :=
  match arg with
  | c :: l => if c =? 95 then l else arg
  | [] => arg
  end.

Definition add_file (rootino : Z) (arg : list Z) : K unit :=
  do* assert_ (bool_decide (47 ∉ arg)) in
  match host arg with
  | None => panic "open"
  | Some chunks =>
      let* inum := ialloc T_FILE in
      do* iappend rootino (dirent inum (image_name arg)) in
      append_all inum chunks
  end.

Fixpoint add_files (rootino : Z) (args : list (list Z)) : K unit :=
  match args with
  | [] => ret tt
  | a :: l => do* add_file rootino a in add_files rootino l
  end.

(** The size of the root directory, rounded to whole blocks. *)
Definition fix_root (rootino : Z) : K unit :=
  let* din := rinode rootino in
  let off := xint (d_size din) in
  let off := u32 ((off / BSIZE + 1) * BSIZE) in
  winode rootino (set_dsize din (xint off)).

Definition mk_sb : superblock :=
  let nmeta := 2 + nlog + ninodeblocks + nbitmap in
  mk_superblock (xint FSSIZE) (xint (FSSIZE - nmeta)) (xint NINODES) (xint nlog) (xint 2) (xint (2 + nlog))
    (xint (2 + nlog + ninodeblocks)).

(** Up to the files of the command line: the super block and the root
    directory. *)
Definition make_root : K Z :=
  do* modify (set_msb mk_sb) in
  do* modify (set_freeblock (2 + nlog + ninodeblocks + nbitmap)) in
  do* zero_image 0 (Z.to_nat FSSIZE) in
  do* wsect 1 (put_superblock mk_sb) in
  let* rootino := ialloc T_DIR in
  do* assert_ (rootino =? ROOTINO) in
  do* iappend rootino (dirent rootino [46]) in
  do* iappend rootino (dirent rootino [46; 46]) in
  ret rootino.

(** [argv], from [argv[1]] on. *)
Definition main (argv : list (list Z)) : K unit :=
  match argv with
  | [] => panic "usage"
  | out :: files =>
      do* assert_ (BSIZE mod sizeof_dinode =? 0) in
      do* assert_ (BSIZE mod sizeof_dirent =? 0) in
      if creat out then
        do* modify (set_img ∅) in
        let* rootino := make_root in
        do* add_files rootino files in
        do* fix_root rootino in
        let* used := gets freeblock in
        balloc used
      else panic "open"
  end.

End Main.

(** Before [main]: [freeinode] is 1. *)
Definition start_state : mkstate := mk_mkstate ∅ (mk_superblock 0 0 0 0 0 0 0) 1 0.
