(* ===== verification/MkfsProof.v ===== *)
(** * The image that mkfs makes

    Every file of the command line is in the image with its bytes, in blocks of
    its own, under the inode whose directory entry is in the root; the bitmap
    marks the blocks that are in use; and the layout is the one that the file
    system of the kernel expects. *)
From S2P Require Import Prelude Memory KString Log LogProof Fs FsProof FsInode FsDir Mkfs.

#[local] Opaque BSIZE BPB.

(** The file system of the kernel on an image, with nothing cached. *)
Definition kst (im : gmap Z block) : fstate :=
  mk_fstate (mk_dstate im ∅ [] (mk_log 2 nlog 0 false [])) mk_sb [].
Definition ip_of (n : Z) (d : dinode) : inode :=
  mk_inode ROOTDEV n 1 true true (d_type d) (d_major d) (d_minor d) (d_nlink d) (d_size d) (d_addrs d).

(** The blocks and the bytes of a file, as the kernel finds them. *)
Notation slot im d k := (sl (kst im) (ip_of 0 d) k).
Notation byte im d o := (content (kst im) (ip_of 0 d) o).

Lemma vw_kst im b : vw (kst im) b = disk_at im b.
Proof. apply view_uncached, lookup_empty. Qed.

Lemma mk_sb_val : mk_sb = mk_superblock 1000 941 200 30 2 32 58.
Proof. reflexivity. Qed.

Lemma xint_small x : 0 <= x < 4294967296 -> xint x = x.
Proof.
  intros H. unfold xint. rewrite !Z.shiftr_div_pow2 by lia. exact (read32_write32_eq ∅ 0 x H).
Qed.

Lemma seek_small b : 0 <= b < 8388608 -> seek b = b.
Proof. intros H. unfold seek. rewrite BSIZE_val, u32_small by lia. apply Z.div_mul. lia. Qed.

Lemma disk_at_ne im b a x : a <> b -> disk_at (<[b := x]> im) a = disk_at im a.
Proof. intros H. by rewrite disk_at_insert, decide_False by congruence. Qed.
Lemma disk_at_eq im b x : disk_at (<[b := x]> im) b = x.
Proof. by rewrite disk_at_insert, decide_True. Qed.

(** ** The image while it grows *)

(** All the sectors are there, and those from [fb] on are still zero. *)
Record img_ok (im : gmap Z block) (fb : Z) : Prop := {
  im_range : 59 <= fb <= 1000;
  im_all : forall b, 0 <= b < 1000 -> is_Some (im !! b);
  im_zero : forall b o, fb <= b < 1000 -> read8 (disk_at im b) o = 0
}.

Lemma rsect_ok s b : img_ok (img s) (freeblock s) -> 0 <= b < 1000 -> rsect b s = Ret (disk_at (img s) b) s.
Proof.
  intros Hi Hb. unfold rsect, gets, bind. rewrite seek_small by lia. unfold disk_at.
  by destruct (im_all _ _ Hi b Hb) as [x ->].
Qed.

Lemma wsect_ok s b x : 0 <= b < 1000 -> wsect b x s = Ret tt (set_img (<[b := x]> (img s)) s).
Proof. intros Hb. unfold wsect, modify. by rewrite seek_small by lia. Qed.

Lemma img_ok_write im fb fb' b x : img_ok im fb -> fb <= fb' <= 1000 -> b < fb' -> img_ok (<[b := x]> im) fb'.
Proof.
  intros [H1 H2 H3] Hfb Hb. split; [lia|..].
  - intros a Ha. destruct (decide (a = b)) as [->|Hne]; [by rewrite lookup_insert_eq|]. rewrite lookup_insert_ne by congruence. by apply H2.
  - intros a o Ha. rewrite disk_at_ne by lia. apply H3. lia.
Qed.

Lemma img_ok_mono im fb fb' : img_ok im fb -> fb <= fb' <= 1000 -> img_ok im fb'.
Proof. intros [H1 H2 H3] Hfb. split; [lia|done|]. intros b o Hb. apply H3. lia. Qed.

(** The blocks of a file: those that [H] says it has, each one once, between
    the metadata and [fb]. *)
Record file_ok (im : gmap Z block) (fb : Z) (d : dinode) (H : Z -> Prop) : Prop := {
  fk_len : length (d_addrs d) = 13%nat;
  fk_held : forall k, 0 <= k <= 140 -> slot im d k <> 0 <-> H k;
  fk_range : forall k, 0 <= k <= 140 -> slot im d k <> 0 -> 59 <= slot im d k < fb;
  fk_inj : forall k k', 0 <= k <= 140 -> 0 <= k' <= 140 -> slot im d k <> 0 -> slot im d k = slot im d k' -> k = k'
}.

Lemma file_iff im fb d (H H' : Z -> Prop) : file_ok im fb d H -> (forall k, 0 <= k <= 140 -> H k <-> H' k) -> file_ok im fb d H'.
Proof. intros [H1 H2 H3 H4] E. split; try done. intros k Hk. by rewrite H2, E. Qed.

(** A file whose blocks did not change. *)
Lemma file_same im im' fb fb' d H : file_ok im fb d H -> fb <= fb' ->
  (forall k, 0 <= k <= 140 -> slot im d k <> 0 -> im' !! slot im d k = im !! slot im d k) ->
  file_ok im' fb' d H /\ (forall k, 0 <= k <= 140 -> slot im' d k = slot im d k) /\
  (forall o, 0 <= o < 71680 -> byte im' d o = byte im d o).
Proof.
  intros [H1 H2 H3 H4] Hfb Hsame.
  assert (Hd : forall k, 0 <= k <= 140 -> slot im d k <> 0 -> vw (kst im') (slot im d k) = vw (kst im) (slot im d k)).
  { intros k Hk Hn. rewrite !vw_kst. unfold disk_at. by rewrite Hsame. }
  assert (Hs : forall k, 0 <= k <= 140 -> slot im' d k = slot im d k).
  { intros k Hk. unfold sl. destruct (k <? 12); [done|]. destruct (k =? 140); [done|].
    destruct (Z.eqb_spec (addr_at (iaddrs (ip_of 0 d)) 12) 0) as [|Hn]; [done|].
    specialize (Hd 140 ltac:(lia) Hn). rewrite !sl_140 in Hd. by rewrite Hd. }
  split; [|split; [done|]].
  - split; [done|..].
    + intros k Hk. by rewrite Hs, H2.
    + intros k Hk. rewrite Hs by done. intros Hn. specialize (H3 k Hk Hn). lia.
    + intros k k' Hk Hk'. rewrite !Hs by done. by apply H4.
  - intros o Ho. unfold content. assert (Hq : 0 <= o / 512 <= 140) by (Z.div_mod_to_equations; lia).
    rewrite Hs by done. destruct (Z.eqb_spec (slot im d (o / 512)) 0) as [|Hn]; [done|]. by rewrite Hd.
Qed.

(** One more block, [fb], in place [k]; the only other block that may have
    changed is the indirect block. *)
Record gave (im : gmap Z block) (fb : Z) (d : dinode) (k : Z) (im' : gmap Z block) (d' : dinode) : Prop := {
  gv_len : length (d_addrs d') = 13%nat;
  gv_slot : forall j, 0 <= j <= 140 -> slot im' d' j = if decide (j = k) then fb else slot im d j;
  gv_img : forall b, b <> fb -> (slot im d 140 <> 0 -> b <> slot im d 140) -> im' !! b = im !! b;
  gv_zero : forall o, 0 <= o < 512 -> read8 (disk_at im' fb) o = 0
}.

Lemma gave_file im fb d k im' d' H : gave im fb d k im' d' -> file_ok im fb d H -> 59 <= fb -> 0 <= k <= 140 -> ~ H k ->
  file_ok im' (fb + 1) d' (fun j => H j \/ j = k) /\ forall o, 0 <= o < 71680 -> byte im' d' o = byte im d o.
Proof.
  intros [G1 G2 G3 G4] [H1 H2 H3 H4] Hfb Hk Hnk.
  assert (Hz : slot im d k = 0) by (destruct (Z.eq_dec (slot im d k) 0) as [|Hn]; [done|]; by apply H2 in Hn).
  split; [split; [done|..]|].
  - intros j Hj. rewrite G2 by done. case_decide as E; [split; [auto|lia]|]. rewrite H2 by done. naive_solver.
  - intros j Hj. rewrite G2 by done. case_decide; [lia|]. intros Hn. specialize (H3 j Hj Hn). lia.
  - intros j j' Hj Hj'. rewrite !G2 by done. repeat case_decide; subst; try done.
    + intros _ E. destruct (Z.eq_dec (slot im d j') 0) as [|Hn]; [lia|]. specialize (H3 j' Hj' Hn). lia.
    + intros Hn E. specialize (H3 j Hj Hn). lia.
    + by apply H4.
  - intros o Ho. unfold content. assert (Hq : 0 <= o / 512 <= 140 /\ o / 512 <> 140) by (Z.div_mod_to_equations; lia).
    rewrite G2 by lia. case_decide as E.
    + rewrite E, Hz, vw_kst. cbn [Z.eqb]. destruct (Z.eqb_spec fb 0); [lia|]. apply G4. Z.div_mod_to_equations. lia.
    + destruct (Z.eqb_spec (slot im d (o / 512)) 0) as [|Hn]; [done|]. rewrite !vw_kst. unfold disk_at. rewrite G3; [done|..].
      * specialize (H3 (o / 512) ltac:(lia) Hn). lia.
      * intros _ E'. apply H4 in E'; [lia|lia|lia|done].
Qed.

(** The image and a file, before and after the file has got more blocks and
    bytes: blocks of others have not changed, and new blocks come from [fb] on. *)
Record grew (im : gmap Z block) (fb : Z) (d : dinode) (im' : gmap Z block) (fb' : Z) (d' : dinode) : Prop := {
  gw_le : fb <= fb';
  gw_img : img_ok im' fb';
  gw_meta : d' = mk_dinode (d_type d) (d_major d) (d_minor d) (d_nlink d) (d_size d) (d_addrs d');
  gw_frame : forall b, b < fb -> (forall k, 0 <= k <= 140 -> slot im d k <> 0 -> slot im d k <> b) -> im' !! b = im !! b;
  gw_new : forall k, 0 <= k <= 140 -> slot im' d' k <> 0 -> slot im' d' k = slot im d k \/ fb <= slot im' d' k
}.

Lemma gw_fields im fb d im' fb' d' : grew im fb d im' fb' d' ->
  d_type d' = d_type d /\ d_major d' = d_major d /\ d_minor d' = d_minor d /\ d_nlink d' = d_nlink d.
Proof. intros [_ _ -> _ _]. done. Qed.

Lemma grew_refl im fb d : img_ok im fb -> grew im fb d im fb d.
Proof. intros H. split; try done; [by destruct d|auto]. Qed.

Lemma grew_trans im1 fb1 d1 im2 fb2 d2 im3 fb3 d3 :
  grew im1 fb1 d1 im2 fb2 d2 -> grew im2 fb2 d2 im3 fb3 d3 -> grew im1 fb1 d1 im3 fb3 d3.
Proof.
  intros [A1 A2 A3 A4 A5] [B1 B2 B3 B4 B5]. split; [lia|done|..].
  - rewrite B3, A3. done.
  - intros b Hb Hn. rewrite B4, A4; [done|done|done|lia|]. intros k Hk Hs. destruct (A5 k Hk Hs) as [E|E]; [|lia].
    rewrite E in *. by apply Hn.
  - intros k Hk Hs. destruct (B5 k Hk Hs) as [E|E]; [|lia]. rewrite E in *. by apply A5.
Qed.

Lemma gave_grew im fb d k im' d' H : gave im fb d k im' d' -> file_ok im fb d H ->
  d' = mk_dinode (d_type d) (d_major d) (d_minor d) (d_nlink d) (d_size d) (d_addrs d') ->
  img_ok im' (fb + 1) -> grew im fb d im' (fb + 1) d'.
Proof.
  intros [G1 G2 G3 G4] Hf Hm Hi. split; [lia|done|done|..].
  - intros b Hb Hn. apply G3; [lia|]. intros E0 E. by apply (Hn 140 ltac:(lia) E0).
  - intros j Hj. rewrite G2 by done. case_decide; [right; lia|auto].
Qed.

(** *** The three ways a file gets a block *)

Section Give.
Context (im : gmap Z block) (fb : Z) (d : dinode) (H : Z -> Prop).
Hypothesis Him : img_ok im fb.
Hypothesis Hf : file_ok im fb d H.
Hypothesis Hroom : fb < 1000.

Lemma give_direct k : 0 <= k < 12 -> ~ H k -> gave im fb d k im (set_daddr d k fb).
Proof using All.
  intros Hk Hn. pose proof (fk_len _ _ _ _ Hf) as Hl. split.
  - cbn. by rewrite length_insert.
  - intros j Hj. unfold sl. cbn [iaddrs ip_of d_addrs set_daddr]. rewrite !addr_at_insert by (done || lia).
    rewrite (decide_False (P := 12 = k)) by lia. case_decide as E; [|done]. subst j. by destruct (Z.ltb_spec k 12); [|lia].
  - done.
  - intros o Ho. apply (im_zero _ _ Him). lia.
Qed.

Lemma give_ind : ~ H 140 -> gave im fb d 140 im (set_daddr d 12 fb).
Proof using All.
  intros Hn. pose proof (fk_len _ _ _ _ Hf) as Hl.
  assert (Hz : addr_at (d_addrs d) 12 = 0).
  { destruct (Z.eq_dec (slot im d 140) 0) as [E|E]; [done|]. apply (fk_held _ _ _ _ Hf) in E; [done|lia]. }
  assert (Hr := im_range _ _ Him). split.
  - cbn. by rewrite length_insert.
  - intros j Hj. unfold sl. cbn [iaddrs ip_of d_addrs set_daddr]. rewrite !addr_at_insert by (done || lia).
    destruct (Z.ltb_spec j 12); [by rewrite !decide_False by lia|]. rewrite (decide_True (P := 12 = 12)) by done.
    destruct (Z.eqb_spec j 140) as [->|Hj']; [by rewrite decide_True|]. rewrite decide_False, Hz by done. cbn [Z.eqb].
    destruct (Z.eqb_spec fb 0); [lia|]. rewrite vw_kst. apply read32_zero; [|lia]. intros o Ho. apply (im_zero _ _ Him). lia.
  - done.
  - intros o Ho. apply (im_zero _ _ Him). lia.
Qed.

Lemma give_indirect k : 12 <= k < 140 -> ~ H k -> H 140 ->
  let ind := slot im d 140 in
  gave im fb d k (<[ind := write32 (disk_at im ind) (4 * (k - 12)) fb]> im) d.
Proof using All.
  intros Hk Hn Hi ind. pose proof (im_range _ _ Him). apply (fk_held _ _ _ _ Hf) in Hi as Hnz; [|lia]. fold ind in Hnz.
  pose proof (fk_range _ _ _ _ Hf 140 ltac:(lia) Hnz) as Hr. fold ind in Hr. split.
  - apply Hf.
  - intros j Hj. unfold sl. change (addr_at (iaddrs (ip_of 0 d)) 12) with ind.
    destruct (Z.ltb_spec j 12); [by rewrite decide_False by lia|]. destruct (Z.eqb_spec j 140); [by rewrite decide_False by lia|].
    destruct (Z.eqb_spec ind 0); [done|]. rewrite !vw_kst, disk_at_eq. case_decide as E.
    + subst j. apply read32_write32_eq. lia.
    + apply read32_write32_ne. lia.
  - intros b Hb Hb'. apply lookup_insert_ne. apply not_eq_sym. by apply Hb'.
  - intros o Ho. rewrite disk_at_ne by lia. apply (im_zero _ _ Him). lia.
Qed.
End Give.

(** ** Blocks for a file of [n] blocks *)

(** Which places a file of [n] data blocks has filled: the indirect block comes
    with block 12. *)
Definition held (n k : Z) : Prop := if decide (k = 140) then 12 < n else k < n.
Definition need (n fbn : Z) : Z := if fbn <? n then 0 else if fbn =? 12 then 2 else 1.

(** What a step of [iappend] does to the image and to the inode. *)
Definition stepped (s : mkstate) (d : dinode) (c : Z) (im' : gmap Z block) (d' : dinode) (H' : Z -> Prop) : Prop :=
  grew (img s) (freeblock s) d im' (freeblock s + c) d' /\ file_ok im' (freeblock s + c) d' H' /\
  forall o, 0 <= o < 71680 -> byte im' d' o = byte (img s) d o.

Definition at_block (s : mkstate) (im : gmap Z block) (fb : Z) : mkstate := mk_mkstate im (msb s) (freeinode s) fb.

Lemma stepped_refl s d H : img_ok (img s) (freeblock s) -> file_ok (img s) (freeblock s) d H -> stepped s d 0 (img s) d H.
Proof. intros Hi Hf. unfold stepped. rewrite Z.add_0_r. split; [by apply grew_refl|done]. Qed.

Lemma stepped_trans s d c1 im1 d1 H1 c2 im2 d2 H2 :
  stepped s d c1 im1 d1 H1 -> stepped (at_block s im1 (freeblock s + c1)) d1 c2 im2 d2 H2 -> stepped s d (c1 + c2) im2 d2 H2.
Proof.
  intros (A1 & A2 & A3) (B1 & B2 & B3). cbn in B1, B2, B3. unfold stepped. rewrite Z.add_assoc.
  split; [by eapply grew_trans|]. split; [done|]. intros o Ho. by rewrite B3, A3.
Qed.

(** Handing out block [freeblock] in place [k]. *)
Lemma stepped_gave s d k im' d' H :
  img_ok (img s) (freeblock s) -> file_ok (img s) (freeblock s) d H -> freeblock s < 1000 -> 0 <= k <= 140 -> ~ H k ->
  gave (img s) (freeblock s) d k im' d' ->
  d' = mk_dinode (d_type d) (d_major d) (d_minor d) (d_nlink d) (d_size d) (d_addrs d') ->
  img_ok im' (freeblock s + 1) -> stepped s d 1 im' d' (fun j => H j \/ j = k).
Proof.
  intros Hi Hf Hr Hk Hn Hg Hm Hi'. destruct (gave_file _ _ _ _ _ _ _ Hg Hf) as [H1 H2]; [apply Hi|done|done|].
  split; [by eapply gave_grew|done].
Qed.

Lemma take_block_ok s : 0 <= freeblock s < 1000 ->
  take_block s = Ret (freeblock s) (at_block s (img s) (freeblock s + 1)).
Proof. intros H. unfold take_block, gets, modify, bind, ret, set_freeblock. by rewrite u32_small by lia. Qed.

(** An address in the inode, with a block given to the file if it is 0. *)
Lemma addr_step s d H k j :
  img_ok (img s) (freeblock s) -> file_ok (img s) (freeblock s) d H -> (0 <= k < 12 /\ j = k) \/ (k = 12 /\ j = 140) ->
  (~ H j -> freeblock s < 1000) -> slot (img s) d j = addr_at (d_addrs d) k ->
  exists d' c, (if xint (addr_at (d_addrs d) k) =? 0 then
      let* b := take_block in ret (set_daddr d k (xint b))
    else ret d) s = Ret d' (at_block s (img s) (freeblock s + c)) /\
    stepped s d c (img s) d' (fun i => H i \/ i = j) /\ ((H j /\ c = 0) \/ (~ H j /\ c = 1)).
Proof.
  intros Hi Hf Hkj Hroom Hsl. pose proof (im_range _ _ Hi) as Hr. assert (Hj : 0 <= j <= 140) by lia.
  destruct (Z.eq_dec (slot (img s) d j) 0) as [E|E].
  - assert (Hn : ~ H j) by (intros HH; by apply (fk_held _ _ _ _ Hf) in HH). specialize (Hroom Hn).
    exists (set_daddr d k (freeblock s)), 1. rewrite <- Hsl, E. rewrite xint_small by lia. cbn [Z.eqb].
    rewrite (bind_Ret _ _ _ _ _ (take_block_ok s ltac:(lia))), xint_small by lia. split; [done|]. split; [|auto].
    apply stepped_gave; try done; [|by apply (img_ok_mono _ (freeblock s)); [|lia]].
    destruct Hkj as [[Hk ->]|[-> ->]]; [by eapply give_direct|by eapply give_ind].
  - pose proof (fk_range _ _ _ _ Hf j Hj E) as Hrg. assert (HH : H j) by (by apply (fk_held _ _ _ _ Hf)).
    exists d, 0. rewrite <- Hsl, xint_small by lia. destruct (Z.eqb_spec (slot (img s) d j) 0); [done|].
    rewrite Z.add_0_r. split; [by destruct s|]. split; [|auto]. apply stepped_refl; [done|].
    eapply file_iff; [exact Hf|]. intros i Hi'. split; [auto|]. by intros [?| ->].
Qed.

(** An address in the indirect block. *)
Lemma entry_step s d H fbn :
  img_ok (img s) (freeblock s) -> file_ok (img s) (freeblock s) d H -> 12 <= fbn < 140 -> H 140 ->
  (~ H fbn -> freeblock s < 1000) ->
  let ind := slot (img s) d 140 in let o := 4 * (fbn - 12) in
  exists im' c, (let* indirect := rsect ind in
    let* indirect := (if read32 indirect o =? 0 then
                        let* b := take_block in
                        let indirect := write32 indirect o (xint b) in
                        do* wsect ind indirect in ret indirect
                      else ret indirect) in
    ret (xint (read32 indirect o), d)) s = Ret (slot im' d fbn, d) (at_block s im' (freeblock s + c)) /\
    stepped s d c im' d (fun i => H i \/ i = fbn) /\ ((H fbn /\ c = 0) \/ (~ H fbn /\ c = 1)).
Proof.
  intros Hi Hf Hk HH Hroom ind o. pose proof (im_range _ _ Hi) as Hr. pose proof HH as Hnz.
  apply (fk_held _ _ _ _ Hf) in Hnz; [|lia]. fold ind in Hnz.
  pose proof (fk_range _ _ _ _ Hf 140 ltac:(lia) Hnz) as Hrg. fold ind in Hrg.
  rewrite (bind_Ret _ _ _ _ _ (rsect_ok s ind Hi ltac:(lia))).
  assert (Hsl : read32 (disk_at (img s) ind) o = slot (img s) d fbn).
  { rewrite (sl_ind _ _ fbn Hk Hnz), vw_kst. done. }
  rewrite Hsl. destruct (Z.eqb_spec (slot (img s) d fbn) 0) as [E|E].
  - assert (Hn : ~ H fbn) by (intros HH'; apply (fk_held _ _ _ _ Hf) in HH'; [done|lia]). specialize (Hroom Hn).
    rewrite bind_assoc, (bind_Ret _ _ _ _ _ (take_block_ok s ltac:(lia))). cbn zeta. rewrite (xint_small (freeblock s)) by lia.
    rewrite bind_assoc, (bind_Ret _ _ _ _ _ (wsect_ok _ ind _ ltac:(lia))).
    pose proof (give_indirect _ _ _ _ Hi Hf Hroom fbn Hk Hn HH) as Hg. cbn zeta in Hg. fold ind o in Hg.
    eexists _, 1. split; [|split; [|auto]].
    + unfold ret, bind. cbn [set_img img]. rewrite read32_write32_eq, xint_small by lia.
      pose proof (gv_slot _ _ _ _ _ _ Hg fbn ltac:(lia)) as Es. rewrite decide_True in Es by done.
      f_equal. f_equal. symmetry. exact Es.
    + apply stepped_gave; try done; [lia|by destruct d|]. apply (img_ok_write _ (freeblock s)); [done|lia|lia].
  - assert (HH' : H fbn) by (apply (fk_held _ _ _ _ Hf); [lia|done]). exists (img s), 0.
    pose proof (fk_range _ _ _ _ Hf fbn ltac:(lia) E) as Hrg'. split; [|split; [|auto]].
    + unfold ret, bind. rewrite Hsl, xint_small, Z.add_0_r by lia. by destruct s.
    + apply stepped_refl; [done|]. eapply file_iff; [exact Hf|]. intros i Hi'. split; [auto|]. by intros [?| ->].
Qed.

Lemma held_grow n fbn : 0 <= fbn <= n -> fbn < 140 -> forall k, 0 <= k <= 140 ->
  held (Z.max n (fbn + 1)) k <-> if 12 <=? fbn then (held n k \/ k = 140) \/ k = fbn else held n k \/ k = fbn.
Proof.
  intros Hf Hm k Hk. unfold held. destruct (Z.leb_spec 12 fbn); repeat case_decide; lia.
Qed.

Lemma iappend_block_spec s d n fbn :
  img_ok (img s) (freeblock s) -> file_ok (img s) (freeblock s) d (held n) -> 0 <= fbn <= n -> fbn < 140 ->
  freeblock s + need n fbn <= 1000 ->
  exists im' d', iappend_block fbn d s = Ret (slot im' d' fbn, d') (at_block s im' (freeblock s + need n fbn)) /\
    stepped s d (need n fbn) im' d' (held (Z.max n (fbn + 1))).
Proof.
  intros Hi Hf Hn Hm Hroom. pose proof (held_grow n fbn Hn Hm) as Hh. unfold iappend_block, need in *. unfold NDIRECT.
  destruct (Z.ltb_spec fbn 12) as [Hd|Hd].
  - destruct (addr_step s d (held n) fbn fbn Hi Hf) as (d' & c & E & Hs & Hc); [left; lia| |by rewrite sl_direct|].
    { unfold held. rewrite decide_False by lia. destruct (Z.ltb_spec fbn n); [lia|]. destruct (Z.eqb_spec fbn 12); lia. }
    assert (c = if fbn <? n then 0 else if fbn =? 12 then 2 else 1) as <-.
    { unfold held in Hc. rewrite decide_False in Hc by lia. destruct (Z.ltb_spec fbn n), (Z.eqb_spec fbn 12); lia. }
    exists (img s), d'. rewrite (bind_Ret _ _ _ _ _ E). destruct Hs as (Hs1 & Hs2 & Hs3). split.
    + unfold ret. f_equal. f_equal. rewrite sl_direct by done. apply xint_small. cbn.
      destruct (Z.eq_dec (slot (img s) d' fbn) 0) as [E0|E0]; [rewrite sl_direct in E0 by done; cbn in E0; lia|].
      pose proof (fk_range _ _ _ _ Hs2 fbn ltac:(lia) E0) as Hr. rewrite sl_direct in Hr by done. cbn in Hr. pose proof (im_range _ _ (gw_img _ _ _ _ _ _ Hs1)). lia.
    + split; [done|]. split; [|done]. eapply file_iff; [exact Hs2|]. intros k Hk. rewrite Hh by done. by destruct (Z.leb_spec 12 fbn); [lia|].
  - destruct (addr_step s d (held n) 12 140 Hi Hf) as (d1 & c1 & E1 & Hs1 & Hc1); [right; lia| |done|].
    { unfold held. rewrite decide_True by done. destruct (Z.ltb_spec fbn n); [lia|]. destruct (Z.eqb_spec fbn 12); lia. }
    rewrite (bind_Ret _ _ _ _ _ E1). destruct Hs1 as (A1 & A2 & A3). set (s1 := at_block s (img s) (freeblock s + c1)) in *.
    assert (Hi1 : img_ok (img s1) (freeblock s1)) by apply A1.
    assert (Hx : xint (addr_at (d_addrs d1) 12) = slot (img s1) d1 140).
    { apply xint_small. pose proof (im_range _ _ Hi1). change (addr_at (d_addrs d1) 12) with (slot (img s1) d1 140).
      destruct (Z.eq_dec (slot (img s1) d1 140) 0); [lia|]. pose proof (fk_range _ _ _ _ A2 140 ltac:(lia) n0). cbn in *. lia. }
    rewrite Hx. destruct (entry_step s1 d1 _ fbn Hi1 A2) as (im' & c2 & E2 & Hs2 & Hc2); [lia|auto| |].
    { cbn. unfold held in *. rewrite decide_False by lia. rewrite decide_True in Hc1 by done.
      destruct (Z.ltb_spec fbn n); [lia|]. destruct (Z.eqb_spec fbn 12); lia. }
    exists im', d1. assert (c1 + c2 = if fbn <? n then 0 else if fbn =? 12 then 2 else 1) as <-.
    { unfold held in *. rewrite decide_False in Hc2 by lia. rewrite decide_True in Hc1 by done.
      destruct (Z.ltb_spec fbn n), (Z.eqb_spec fbn 12); lia. }
    split; [etransitivity; [exact E2|]; unfold at_block; cbn; by rewrite Z.add_assoc|].
    destruct (stepped_trans s d c1 (img s) d1 _ c2 im' d1 _ (conj A1 (conj A2 A3)) Hs2) as (B1 & B2 & B3).
    split; [done|]. split; [|done]. eapply file_iff; [exact B2|]. intros k Hk. rewrite Hh by done. by destruct (Z.leb_spec 12 fbn); [|lia].
Qed.

(** ** Bytes for a file *)

(** Bytes within one block of the file. *)
Lemma data_write im fb d H off p :
  img_ok im fb -> file_ok im fb d H -> 0 <= off < 71680 -> H (off / 512) ->
  off mod 512 + Z.of_nat (length p) <= 512 -> Forall (fun b => 0 <= b < 256) p ->
  let x := slot im d (off / 512) in let im' := <[x := put_bytes (disk_at im x) (off mod 512) p]> im in
  grew im fb d im' fb d /\ file_ok im' fb d H /\
  forall o, 0 <= o < 71680 -> byte im' d o =
    if decide (off <= o < off + Z.of_nat (length p)) then default 0 (p !! Z.to_nat (o - off)) else byte im d o.
Proof.
  intros Hi Hf Hoff HH Hlen Hp x im'. assert (Hq : 0 <= off / 512 < 140) by (Z.div_mod_to_equations; lia).
  apply (fk_held _ _ _ _ Hf) in HH as Hx; [|lia]. fold x in Hx. pose proof (fk_range _ _ _ _ Hf (off / 512) ltac:(lia) Hx) as Hr.
  fold x in Hr. pose proof (im_range _ _ Hi) as Hfb.
  assert (Hs : forall k, 0 <= k <= 140 -> slot im' d k = slot im d k).
  { intros k Hk. unfold sl. destruct (k <? 12); [done|]. destruct (k =? 140); [done|].
    destruct (Z.eqb_spec (addr_at (iaddrs (ip_of 0 d)) 12) 0) as [|Hn]; [done|]. rewrite !vw_kst. unfold im'.
    rewrite disk_at_ne; [done|]. intros E. apply (fk_inj _ _ _ _ Hf 140 (off / 512)) in E; [lia|lia|lia|done]. }
  split; [|split].
  - split; [lia|by apply (img_ok_write _ fb); [|lia|lia]|by destruct d|..].
    + intros b Hb Hn. apply lookup_insert_ne. apply (Hn (off / 512)); [lia|done].
    + intros k Hk. rewrite Hs by done. auto.
  - destruct Hf as [H1 H2 H3 H4]. split; [done|..].
    + intros k Hk. by rewrite Hs, H2.
    + intros k Hk. rewrite Hs by done. by apply H3.
    + intros k k' Hk Hk'. rewrite !Hs by done. by apply H4.
  - intros o Ho. unfold content. assert (Hqo : 0 <= o / 512 <= 140) by (Z.div_mod_to_equations; lia). rewrite Hs, !vw_kst by done.
    destruct (decide (o / 512 = off / 512)) as [Eq|Eq].
    + rewrite Eq. fold x. destruct (Z.eqb_spec x 0); [done|]. unfold im'. rewrite disk_at_eq, read8_put_bytes by done.
      repeat case_decide; try (Z.div_mod_to_equations; lia).
      by replace (o mod 512 - off mod 512) with (o - off) by (Z.div_mod_to_equations; lia).
    + rewrite (decide_False (P := off <= o < _)) by (Z.div_mod_to_equations; lia).
      destruct (Z.eqb_spec (slot im d (o / 512)) 0); [done|]. unfold im'. rewrite disk_at_ne; [done|].
      intros E. apply (fk_inj _ _ _ _ Hf) in E; [lia|done|lia|done].
Qed.

(** The data blocks of a file of [n] bytes, and all its blocks. *)
Definition nblk (n : Z) : Z := (n + 511) / 512.
Definition cost (n : Z) : Z := nblk n + if 12 <? nblk n then 1 else 0.

(** The turns of the loop of [iappend], from a file of [off] bytes. *)
Record appended (s : mkstate) (d : dinode) (off : Z) (p : list Z) (im' : gmap Z block) (d' : dinode) : Prop := {
  ap_grew : grew (img s) (freeblock s) d im' (freeblock s + (cost (off + Z.of_nat (length p)) - cost off)) d';
  ap_file : file_ok im' (freeblock s + (cost (off + Z.of_nat (length p)) - cost off)) d'
    (held (nblk (off + Z.of_nat (length p))));
  ap_bytes : forall o, 0 <= o < 71680 -> byte im' d' o =
    if decide (off <= o < off + Z.of_nat (length p)) then default 0 (p !! Z.to_nat (o - off)) else byte (img s) d o
}.

Lemma cost_turn off m : 0 <= off -> 0 < m -> off mod 512 + m <= 512 ->
  cost (off + m) - cost off = need (nblk off) (off / 512) /\ Z.max (nblk off) (off / 512 + 1) = nblk (off + m) /\
  0 <= off / 512 <= nblk off.
Proof.
  intros Ho Hm Hl. unfold cost, need, nblk.
  repeat match goal with |- context [?a <? ?b] => destruct (Z.ltb_spec a b) | |- context [?a =? ?b] => destruct (Z.eqb_spec a b) end;
    Z.div_mod_to_equations; lia.
Qed.

Lemma cost_mono a b : 0 <= a <= b -> cost a <= cost b.
Proof.
  intros H. assert (nblk a <= nblk b) by (apply Z.div_le_mono; lia). unfold cost.
  destruct (Z.ltb_spec 12 (nblk a)), (Z.ltb_spec 12 (nblk b)); lia.
Qed.

Lemma appended_app s d off p1 p2 im1 d1 im2 d2 : 0 <= off ->
  let c := cost (off + Z.of_nat (length p1)) - cost off in
  appended s d off p1 im1 d1 ->
  appended (at_block s im1 (freeblock s + c)) d1 (off + Z.of_nat (length p1)) p2 im2 d2 ->
  appended s d off (p1 ++ p2) im2 d2.
Proof.
  intros Hoff c [A1 A2 A3] [B1 B2 B3]. cbn in B1, B2, B3. fold c in A1, A2.
  assert (El : off + Z.of_nat (length (p1 ++ p2)) = off + Z.of_nat (length p1) + Z.of_nat (length p2)) by (rewrite length_app; lia).
  assert (Ec : freeblock s + (cost (off + Z.of_nat (length (p1 ++ p2))) - cost off) =
    freeblock s + c + (cost (off + Z.of_nat (length p1) + Z.of_nat (length p2)) - cost (off + Z.of_nat (length p1))))
    by (rewrite El; unfold c; lia).
  split; rewrite ?Ec, ?El; [by eapply grew_trans|done|].
  intros o Ho. rewrite B3 by done. destruct (Z.lt_ge_cases o (off + Z.of_nat (length p1))) as [H|H].
  - rewrite decide_False, A3 by lia. destruct (decide (off <= o < off + Z.of_nat (length p1))).
    + rewrite decide_True by lia. by rewrite lookup_app_l by lia.
    + by rewrite decide_False by lia.
  - destruct (decide (off + Z.of_nat (length p1) <= o < off + Z.of_nat (length p1) + Z.of_nat (length p2))).
    + rewrite decide_True by lia. rewrite lookup_app_r by lia. do 2 f_equal. lia.
    + by rewrite decide_False, A3, decide_False by lia.
Qed.

Lemma append_turn s d off p :
  img_ok (img s) (freeblock s) -> file_ok (img s) (freeblock s) d (held (nblk off)) ->
  0 <= off -> p <> [] -> off mod 512 + Z.of_nat (length p) <= 512 -> off + Z.of_nat (length p) <= 71680 ->
  Forall (fun b => 0 <= b < 256) p -> freeblock s + (cost (off + Z.of_nat (length p)) - cost off) <= 1000 ->
  exists x s1 im' d', iappend_block (off / 512) d s = Ret (x, d') s1 /\ rsect x s1 = Ret (disk_at (img s1) x) s1 /\
    wsect x (put_bytes (disk_at (img s1) x) (off mod 512) p) s1 =
      Ret tt (at_block s im' (freeblock s + (cost (off + Z.of_nat (length p)) - cost off))) /\
    appended s d off p im' d'.
Proof.
  intros Hi Hf Hoff Hne Hlen Hmax Hp Hroom. assert (Hpos : 0 < Z.of_nat (length p)) by (destruct p; [done|cbn; lia]).
  destruct (cost_turn off (Z.of_nat (length p)) Hoff Hpos Hlen) as (Ec & En & Hq). rewrite Ec in Hroom.
  destruct (iappend_block_spec s d (nblk off) (off / 512) Hi Hf Hq) as (im1 & d1 & E & Hs); [Z.div_mod_to_equations; lia|done|].
  destruct Hs as (Hg & Hf1 & Hb1). rewrite <- Ec, En in *. set (fb1 := freeblock s + _) in *.
  set (s1 := at_block s im1 fb1) in *. pose proof (gw_img _ _ _ _ _ _ Hg) as Hi1.
  assert (HH : held (nblk (off + Z.of_nat (length p))) (off / 512)).
  { unfold held. rewrite decide_False by (Z.div_mod_to_equations; lia). lia. }
  destruct (data_write im1 fb1 d1 _ off p Hi1 Hf1 ltac:(lia) HH Hlen Hp) as (Hg2 & Hf2 & Hb2).
  assert (Hx : 0 <= slot im1 d1 (off / 512) < 1000).
  { pose proof (im_range _ _ Hi1). assert (Hk : 0 <= off / 512 <= 140) by (Z.div_mod_to_equations; lia).
    pose proof (fk_range _ _ _ _ Hf1 (off / 512) Hk). apply (fk_held _ _ _ _ Hf1) in HH; [|done]. lia. }
  eexists _, s1, _, d1. split; [exact E|]. split; [by apply rsect_ok|].
  split; [rewrite (wsect_ok s1) by done; reflexivity|].
  split; fold fb1; [by eapply grew_trans|done|]. intros o Ho. rewrite Hb2 by done. by rewrite Hb1.
Qed.

Lemma appended_nil s d off : img_ok (img s) (freeblock s) -> file_ok (img s) (freeblock s) d (held (nblk off)) ->
  appended s d off [] (img s) d.
Proof.
  intros Hi Hf. split; cbn [length]; rewrite ?Z.add_0_r, ?Z.sub_diag, ?Z.add_0_r; [by apply grew_refl|done|].
  intros o Ho. by rewrite decide_False by lia.
Qed.

Lemma iappend_loop_turn fuel p off d : p <> [] ->
  iappend_loop (S fuel) p off d =
    (do* assert_ (off / 512 <? MAXFILE) in
     let* (x, d') := iappend_block (off / 512) d in
     let* buf := rsect x in
     let n1 := Z.min (Z.of_nat (length p)) ((off / 512 + 1) * 512 - off) in
     do* wsect x (put_bytes buf (off - off / 512 * 512) (take (Z.to_nat n1) p)) in
     iappend_loop fuel (drop (Z.to_nat n1) p) (u32 (off + n1)) d').
Proof. intros H. destruct p; [done|]. cbn [iappend_loop]. by rewrite BSIZE_val. Qed.

Lemma iappend_loop_spec fuel : forall s d off p,
  img_ok (img s) (freeblock s) -> file_ok (img s) (freeblock s) d (held (nblk off)) ->
  (length p < fuel)%nat -> 0 <= off -> off + Z.of_nat (length p) <= 71680 -> Forall (fun b => 0 <= b < 256) p ->
  freeblock s + (cost (off + Z.of_nat (length p)) - cost off) <= 1000 ->
  exists im' d', iappend_loop fuel p off d s =
      Ret (off + Z.of_nat (length p), d') (at_block s im' (freeblock s + (cost (off + Z.of_nat (length p)) - cost off))) /\
    appended s d off p im' d'.
Proof.
  induction fuel as [|fuel IH]; intros s d off p Hi Hf Hfu Hoff Hmax Hp Hroom; [lia|].
  destruct p as [|c p'] eqn:Ep.
  - exists (img s), d. split; [|by apply appended_nil]. cbn [iappend_loop length]. unfold ret.
    rewrite Z.add_0_r, Z.sub_diag, Z.add_0_r. by destruct s.
  - rewrite <- Ep in *. assert (Hne : p <> []) by congruence. clear Ep. assert (Hmod := Z.mod_pos_bound off 512 ltac:(lia)).
    assert (Hpos : (0 < length p)%nat) by (destruct p; [done|cbn; lia]).
    set (m := Z.min (Z.of_nat (length p)) ((off / 512 + 1) * 512 - off)).
    assert (Hm : 0 < m <= Z.of_nat (length p) /\ off mod 512 + m <= 512) by (unfold m; Z.div_mod_to_equations; lia).
    assert (Hl : Z.of_nat (length (take (Z.to_nat m) p)) = m) by (rewrite length_take; lia).
    pose proof (cost_mono (off + m) (off + Z.of_nat (length p)) ltac:(lia)) as Hcm.
    destruct (append_turn s d off (take (Z.to_nat m) p) Hi Hf Hoff) as (x & s1 & im1 & d1 & E1 & E2 & E3 & Ha); rewrite ?Hl in *;
      [intros E; rewrite E in Hl; cbn in Hl; lia|lia|lia|by apply Forall_take|lia|].
    set (s2 := at_block s im1 (freeblock s + (cost (off + m) - cost off))) in *.
    pose proof Ha as [Hg Hfile _]. rewrite Hl in Hg, Hfile.
    destruct (IH s2 d1 (off + m) (drop (Z.to_nat m) p)) as (im' & d' & E & Ha'); rewrite ?length_drop.
    { apply Hg. } { exact Hfile. } { lia. } { lia. } { lia. } { by apply Forall_drop. }
    { cbn. replace (off + m + Z.of_nat (length p - Z.to_nat m)) with (off + Z.of_nat (length p)) by lia. lia. }
    rewrite length_drop in E. exists im', d'. split.
    + rewrite iappend_loop_turn by done.
      destruct (Z.ltb_spec (off / 512) MAXFILE) as [|Hx]; [|change MAXFILE with 140 in Hx; Z.div_mod_to_equations; lia].
      unfold assert_. unfold bind at 1. unfold ret at 1. rewrite (bind_Ret _ _ _ _ _ E1), (bind_Ret _ _ _ _ _ E2). cbn zeta. fold m.
      replace (off - off / 512 * 512) with (off mod 512) by (Z.div_mod_to_equations; lia).
      rewrite (bind_Ret _ _ _ _ _ E3), u32_small by lia. etransitivity; [exact E|]. unfold at_block. cbn.
      replace (off + m + Z.of_nat (length p - Z.to_nat m)) with (off + Z.of_nat (length p)) by lia. do 2 f_equal. lia.
    + rewrite <- (take_drop (Z.to_nat m) p). eapply appended_app; [done|exact Ha|]. rewrite Hl. exact Ha'.
Qed.

(** ** The inodes of the image *)

Definition iblk (n : Z) : Z := IBLOCK n mk_sb.
Definition dnode (im : gmap Z block) (n : Z) : dinode := dinode_at (disk_at im (iblk n)) (ioff n).

Lemma iblk_range n : 0 <= n < 208 -> 32 <= iblk n < 58.
Proof. unfold iblk, IBLOCK. change IPB with 8. rewrite mk_sb_val. cbn. intros H. Z.div_mod_to_equations. lia. Qed.

Lemma rinode_ok s n : msb s = mk_sb -> img_ok (img s) (freeblock s) -> 0 <= n < 208 -> rinode n s = Ret (dnode (img s) n) s.
Proof.
  intros Hb Hi Hn. unfold rinode, gets. unfold bind at 1. rewrite Hb. pose proof (iblk_range n Hn).
  by rewrite (bind_Ret _ _ _ _ _ (rsect_ok s (iblk n) Hi ltac:(lia))).
Qed.

Definition put_node (im : gmap Z block) (n : Z) (d : dinode) : gmap Z block :=
  <[iblk n := dinode_to (disk_at im (iblk n)) (ioff n) d]> im.

Lemma winode_ok s n d : msb s = mk_sb -> img_ok (img s) (freeblock s) -> 0 <= n < 208 ->
  winode n d s = Ret tt (set_img (put_node (img s) n d) s).
Proof.
  intros Hb Hi Hn. unfold winode, gets. unfold bind at 1. rewrite Hb. pose proof (iblk_range n Hn).
  rewrite (bind_Ret _ _ _ _ _ (rsect_ok s (iblk n) Hi ltac:(lia))). apply (wsect_ok s (iblk n)). lia.
Qed.

Lemma dnode_put_eq im n d : storable (ip_of n d) -> dnode (put_node im n d) n = d.
Proof.
  intros Hs. unfold dnode, put_node. rewrite disk_at_eq.
  destruct (load_put_dinode (disk_at im (iblk n)) (ioff n) (ip_of n d) Hs) as (H1 & H2 & H3 & H4 & H5 & H6).
  unfold dinode_at. change (dinode_to ?x ?o d) with (put_dinode x o (ip_of n d)).
  rewrite H1, H2, H3, H4, H5. change (Z.to_nat (NDIRECT + 1)) with 13%nat. rewrite H6. by destruct d.
Qed.

Lemma dnode_put_ne im n m d : 0 <= n -> 0 <= m -> n <> m -> length (d_addrs d) = 13%nat ->
  dnode (put_node im n d) m = dnode im m.
Proof.
  intros Hn Hm Hne Hl. unfold dnode, put_node. destruct (decide (iblk m = iblk n)) as [E|E]; [|by rewrite disk_at_ne].
  rewrite E, disk_at_eq.
  assert (H := load_other (disk_at im (iblk n)) n m mk_sb (ip_of n d) (ip_of n d) Hn Hm Hne (eq_sym E) Hl).
  exact (f_equal (fun ip => mk_dinode (itype ip) (imajor ip) (iminor ip) (inlink ip) (isize ip) (iaddrs ip)) H).
Qed.

(** A file's addresses fit into its inode. *)
Lemma file_storable im fb d H n : file_ok im fb d H -> fb <= 1000 -> -32768 <= d_type d < 32768 -> -32768 <= d_major d < 32768 ->
  -32768 <= d_minor d < 32768 -> -32768 <= d_nlink d < 32768 -> 0 <= d_size d < 4294967296 -> storable (ip_of n d).
Proof.
  intros Hf Hfb H1 H2 H3 H4 H5. pose proof (fk_len _ _ _ _ Hf) as Hl. split; try done. cbn. apply Forall_lookup_2. intros i v Hv.
  pose proof (lookup_lt_Some _ _ _ Hv) as Hi. destruct (Z.eq_dec v 0) as [|Hnz]; [lia|].
  assert (Ea : addr_at (d_addrs d) (Z.of_nat i) = v) by (unfold addr_at; by rewrite Nat2Z.id, Hv).
  destruct (decide (i = 12)%nat) as [->|Hne].
  - pose proof (fk_range _ _ _ _ Hf 140 ltac:(lia)) as Hr. change (slot im d 140) with (addr_at (d_addrs d) (Z.of_nat 12)) in Hr. lia.
  - pose proof (fk_range _ _ _ _ Hf (Z.of_nat i) ltac:(lia)) as Hr. rewrite sl_direct in Hr by lia. cbn in Hr. lia.
Qed.

(** Inode [n] is a file (or the root directory) with the bytes [c]. *)
Record node_ok (im : gmap Z block) (fb n t : Z) (c : list Z) : Prop := {
  nd_type : d_type (dnode im n) = t;
  nd_dev : d_major (dnode im n) = 0 /\ d_minor (dnode im n) = 0;
  nd_nlink : d_nlink (dnode im n) = 1;
  nd_size : d_size (dnode im n) = Z.of_nat (length c);
  nd_max : Z.of_nat (length c) <= 71680;
  nd_file : file_ok im fb (dnode im n) (held (nblk (Z.of_nat (length c))));
  nd_bytes : forall o, 0 <= o < 71680 -> byte im (dnode im n) o = default 0 (c !! Z.to_nat o)
}.

Lemma node_keep im im' fb fb' n t c : node_ok im fb n t c -> fb <= fb' -> dnode im' n = dnode im n ->
  (forall k, 0 <= k <= 140 -> slot im (dnode im n) k <> 0 ->
     im' !! slot im (dnode im n) k = im !! slot im (dnode im n) k) ->
  node_ok im' fb' n t c /\ forall k, 0 <= k <= 140 -> slot im' (dnode im' n) k = slot im (dnode im n) k.
Proof.
  intros [H1 H2 H3 H4 H5 H6 H7] Hfb Hd Hs. destruct (file_same _ im' fb fb' _ _ H6 Hfb Hs) as (F1 & F2 & F3).
  split; [split|]; rewrite ?Hd; try done. intros o Ho. rewrite F3 by lia. by apply H7.
Qed.

(** The size has no part in where the blocks are. *)
Lemma file_dsize im fb d H n : file_ok im fb d H -> file_ok im fb (set_dsize d n) H.
Proof. intros [H1 H2 H3 H4]. split; [exact H1|exact H2|exact H3|exact H4]. Qed.

(** ** The whole image *)

Definition blocks_of (nodes : list (Z * list Z)) : Z :=
  sum ((fun n => cost (Z.of_nat (length n.2))) <$> nodes).

(** The nodes are those of inodes 1, 2, ...; no two share a block. *)
Record mk_ok (s : mkstate) (nodes : list (Z * list Z)) : Prop := {
  mo_sb : msb s = mk_sb;
  mo_next : freeinode s = 1 + Z.of_nat (length nodes);
  mo_count : (length nodes <= 199)%nat;
  mo_types : Forall (fun n => 0 < n.1 < 4) nodes;
  mo_img : img_ok (img s) (freeblock s);
  mo_fb : freeblock s = 59 + blocks_of nodes;
  mo_super : disk_at (img s) 1 = put_superblock mk_sb;
  mo_log : disk_at (img s) 2 = ∅;
  mo_node : forall i t c, nodes !! i = Some (t, c) -> node_ok (img s) (freeblock s) (1 + Z.of_nat i) t c;
  mo_disj : forall i j k l, (i < length nodes)%nat -> (j < length nodes)%nat -> i <> j -> 0 <= k <= 140 -> 0 <= l <= 140 ->
    slot (img s) (dnode (img s) (1 + Z.of_nat i)) k <> 0 ->
    slot (img s) (dnode (img s) (1 + Z.of_nat i)) k <> slot (img s) (dnode (img s) (1 + Z.of_nat j)) l
}.

Lemma blocks_insert nodes i t c c' : nodes !! i = Some (t, c) ->
  blocks_of (<[i := (t, c')]> nodes) = blocks_of nodes - cost (Z.of_nat (length c)) + cost (Z.of_nat (length c')).
Proof.
  intros Hi. unfold blocks_of. rewrite list_fmap_insert. cbn. apply sum_insert. by rewrite list_lookup_fmap, Hi.
Qed.

Lemma blocks_snoc nodes t c : blocks_of (nodes ++ [(t, c)]) = blocks_of nodes + cost (Z.of_nat (length c)).
Proof. unfold blocks_of. rewrite fmap_app, sum_app. cbn [fmap list_fmap sum snd]. lia. Qed.

Lemma cost_nonneg n : 0 <= n -> 0 <= cost n.
Proof. intros H. pose proof (cost_mono 0 n ltac:(lia)). exact H0. Qed.

(** A node that got more bytes: what [iappend] leaves. *)
Section Append.
Context (s : mkstate) (nodes : list (Z * list Z)) (i : nat) (t : Z) (c p : list Z) (im1 : gmap Z block) (d1 : dinode).
Hypothesis Hok : mk_ok s nodes.
Hypothesis Hi : nodes !! i = Some (t, c).
Hypothesis Hmax : Z.of_nat (length c) + Z.of_nat (length p) <= 71680.

#[local] Notation n := (1 + Z.of_nat i).
#[local] Notation d := (dnode (img s) n).
#[local] Notation sz := (Z.of_nat (length c) + Z.of_nat (length p)).
#[local] Notation fb1 := (freeblock s + (cost sz - cost (Z.of_nat (length c)))).
Hypothesis Ha : appended s d (Z.of_nat (length c)) p im1 d1.

#[local] Notation im2 := (put_node im1 n (set_dsize d1 sz)).

Lemma ap_n : 0 <= n < 200.
Proof using All. pose proof (lookup_lt_Some _ _ _ Hi). pose proof (mo_count _ _ Hok). lia. Qed.

Lemma ap_storable : storable (ip_of n (set_dsize d1 sz)).
Proof using All.
  destruct Ha as [Hg Hf _]. pose proof (mo_node _ _ Hok i t c Hi) as [N1 [N2 N2'] N3 N4 N5 N6 N7].
  assert (Ht := mo_types _ _ Hok). rewrite Forall_forall in Ht. specialize (Ht _ (list_elem_of_lookup_2 _ _ _ Hi)). cbn in Ht.
  pose proof (im_range _ _ (gw_img _ _ _ _ _ _ Hg)). destruct (gw_fields _ _ _ _ _ _ Hg) as (G1 & G2 & G3 & G4).
  eapply (file_storable im1 _ (set_dsize d1 sz)); [apply file_dsize, Hf|lia|..]; cbn; lia.
Qed.

Lemma ap_self : dnode im2 n = set_dsize d1 sz.
Proof using All. apply dnode_put_eq, ap_storable. Qed.

(** Blocks from the data region are those of [im1]. *)
Lemma ap_data b : 59 <= b -> im2 !! b = im1 !! b.
Proof using All. intros Hb. pose proof ap_n. pose proof (iblk_range n ltac:(lia)). apply lookup_insert_ne. lia. Qed.

Lemma ap_node : node_ok im2 fb1 n t (c ++ p).
Proof using All.
  pose proof Ha as [Hg Hf Hb]. pose proof (mo_node _ _ Hok i t c Hi) as [N1 N2 N3 N4 N5 N6 N7].
  destruct (file_same im1 im2 fb1 fb1 (set_dsize d1 sz) _ (file_dsize _ _ _ _ _ Hf) ltac:(lia)) as (F1 & F2 & F3).
  { intros k Hk Hn. apply ap_data. exact (proj1 (fk_range _ _ _ _ Hf k Hk Hn)). }
  assert (El : Z.of_nat (length (c ++ p)) = sz) by (rewrite length_app; lia).
  destruct (gw_fields _ _ _ _ _ _ Hg) as (G1 & G2 & G3 & G4).
  split; rewrite ?ap_self, ?El; [cbn; lia..|exact F1|].
  intros o Ho. rewrite F3 by lia. etransitivity; [exact (Hb o ltac:(lia))|]. case_decide.
  - rewrite lookup_app_r by lia. do 2 f_equal. lia.
  - rewrite N7 by lia. destruct (Z.lt_ge_cases o (Z.of_nat (length c))); [by rewrite lookup_app_l by lia|].
    rewrite !lookup_ge_None_2; [done|rewrite length_app; lia|lia].
Qed.

(** The other nodes. *)
Lemma ap_other j t' c' : nodes !! j = Some (t', c') -> j <> i ->
  node_ok im2 fb1 (1 + Z.of_nat j) t' c' /\ forall k, 0 <= k <= 140 ->
    slot im2 (dnode im2 (1 + Z.of_nat j)) k = slot (img s) (dnode (img s) (1 + Z.of_nat j)) k.
Proof using All.
  intros Hj Hne. pose proof (mo_node _ _ Hok j t' c' Hj) as Hn. destruct Ha as [Hg Hf _].
  pose proof (lookup_lt_Some _ _ _ Hj). pose proof (mo_count _ _ Hok). pose proof ap_n.
  pose proof (iblk_range (1 + Z.of_nat j) ltac:(lia)) as Hib. pose proof (im_range _ _ (mo_img _ _ Hok)).
  apply (node_keep (img s) im2 (freeblock s)); [done|exact (gw_le _ _ _ _ _ _ Hg)|..].
  - rewrite dnode_put_ne by (lia || apply Hf). unfold dnode, disk_at. rewrite (gw_frame _ _ _ _ _ _ Hg); [done|lia|].
    intros k Hk Hs. pose proof (fk_range _ _ _ _ (nd_file _ _ _ _ _ (mo_node _ _ Hok i t c Hi)) k Hk Hs). lia.
  - intros k Hk Hs. pose proof (fk_range _ _ _ _ (nd_file _ _ _ _ _ Hn) k Hk Hs) as Hr. rewrite ap_data by lia.
    apply (gw_frame _ _ _ _ _ _ Hg); [lia|]. intros l Hl Hsl. apply (mo_disj _ _ Hok); try done; by eapply lookup_lt_Some.
Qed.

Lemma ap_ok : mk_ok (at_block s im2 fb1) (<[i := (t, c ++ p)]> nodes).
Proof using All.
  pose proof Ha as [Hg Hf _]. pose proof ap_n. pose proof (iblk_range n ltac:(lia)).
  pose proof (mo_node _ _ Hok i t c Hi) as Hni. pose proof (im_range _ _ (mo_img _ _ Hok)).
  assert (Hlt := lookup_lt_Some _ _ _ Hi).
  assert (Hself : forall k, 0 <= k <= 140 -> slot im2 (dnode im2 n) k = slot im1 d1 k).
  { intros k Hk. rewrite ap_self. destruct (file_same im1 im2 fb1 fb1 (set_dsize d1 sz) _ (file_dsize _ _ _ _ _ Hf) ltac:(lia)) as (_ & F2 & _); [|by apply F2].
    intros l Hl Hn. apply ap_data. exact (proj1 (fk_range _ _ _ _ Hf l Hl Hn)). }
  assert (Hnew : forall j k l, (j < length nodes)%nat -> j <> i -> 0 <= k <= 140 -> 0 <= l <= 140 ->
    slot im1 d1 k <> 0 -> slot im1 d1 k <> slot (img s) (dnode (img s) (1 + Z.of_nat j)) l).
  { intros j k l Hj Hne Hk Hl Hn E. destruct (lookup_lt_is_Some_2 nodes j Hj) as [[t' c'] Ej].
    pose proof (fk_range _ _ _ _ (nd_file _ _ _ _ _ (mo_node _ _ Hok j t' c' Ej)) l Hl) as Hr.
    destruct (gw_new _ _ _ _ _ _ Hg k Hk Hn) as [E'|E']; [|lia].
    apply (mo_disj _ _ Hok i j k l Hlt Hj); [congruence|done|done|congruence|congruence]. }
  split; cbn [msb freeinode freeblock img at_block]; rewrite ?length_insert; try apply Hok.
  - apply Forall_insert; [apply Hok|]. assert (Ht := mo_types _ _ Hok). rewrite Forall_forall in Ht.
    exact (Ht _ (list_elem_of_lookup_2 _ _ _ Hi)).
  - pose proof (im_range _ _ (gw_img _ _ _ _ _ _ Hg)). apply (img_ok_write _ fb1); [exact (gw_img _ _ _ _ _ _ Hg)|lia|lia].
  - rewrite (blocks_insert _ _ _ c), (mo_fb _ _ Hok), length_app by done. rewrite Nat2Z.inj_add. lia.
  - unfold put_node. rewrite disk_at_ne by lia. unfold disk_at. rewrite (gw_frame _ _ _ _ _ _ Hg); [apply Hok|lia|].
    intros k Hk Hs. pose proof (fk_range _ _ _ _ (nd_file _ _ _ _ _ Hni) k Hk Hs). lia.
  - unfold put_node. rewrite disk_at_ne by lia. unfold disk_at. rewrite (gw_frame _ _ _ _ _ _ Hg); [apply Hok|lia|].
    intros k Hk Hs. pose proof (fk_range _ _ _ _ (nd_file _ _ _ _ _ Hni) k Hk Hs). lia.
  - intros j t' c' Hj. destruct (decide (j = i)) as [->|Hne].
    + rewrite list_lookup_insert_eq in Hj by done. injection Hj as <- <-. apply ap_node.
    + rewrite list_lookup_insert_ne in Hj by congruence. by apply ap_other.
  - intros j1 j2 k l Hj1 Hj2 Hne Hk Hl.
    assert (Hsl : forall j m, (j < length nodes)%nat -> j <> i -> 0 <= m <= 140 -> slot im2 (dnode im2 (1 + Z.of_nat j)) m = slot (img s) (dnode (img s) (1 + Z.of_nat j)) m).
    { intros j m Hj Hji Hm. destruct (lookup_lt_is_Some_2 nodes j Hj) as [[t' c'] Ej]. by apply (ap_other j t' c'). }
    destruct (decide (j1 = i)) as [->|N1]; destruct (decide (j2 = i)) as [->|N2]; try done.
    + rewrite Hself, (Hsl j2 l) by done. by apply Hnew.
    + rewrite Hself, (Hsl j1 k) by done. intros Hn E. apply (Hnew j1 l k); try done; congruence.
    + rewrite (Hsl j1 k), (Hsl j2 l) by done. by apply (mo_disj _ _ Hok).
Qed.
End Append.

Lemma iappend_spec s nodes i t c p :
  mk_ok s nodes -> nodes !! i = Some (t, c) -> Z.of_nat (length c) + Z.of_nat (length p) <= 71680 ->
  Forall (fun b => 0 <= b < 256) p ->
  freeblock s + (cost (Z.of_nat (length c) + Z.of_nat (length p)) - cost (Z.of_nat (length c))) <= 1000 ->
  exists s', iappend (1 + Z.of_nat i) p s = Ret tt s' /\ mk_ok s' (<[i := (t, c ++ p)]> nodes).
Proof.
  intros Hok Hi Hmax Hp Hroom. pose proof (mo_node _ _ Hok i t c Hi) as Hn. pose proof (mo_sb _ _ Hok) as Hsb.
  pose proof (lookup_lt_Some _ _ _ Hi). pose proof (mo_count _ _ Hok).
  destruct (iappend_loop_spec (S (length p)) s (dnode (img s) (1 + Z.of_nat i)) (Z.of_nat (length c)) p)
    as (im1 & d1 & E & Ha); [apply Hok|apply Hn|lia|lia|done|done|done|].
  eexists. split; [|exact (ap_ok s nodes i t c p im1 d1 Hok Hi Hmax Ha)].
  unfold iappend. rewrite (bind_Ret _ _ _ _ _ (rinode_ok s (1 + Z.of_nat i) Hsb (mo_img _ _ Hok) ltac:(lia))).
  rewrite (nd_size _ _ _ _ _ Hn), (xint_small (Z.of_nat (length c))) by lia. rewrite (bind_Ret _ _ _ _ _ E).
  rewrite (xint_small (Z.of_nat (length c) + Z.of_nat (length p))) by lia.
  rewrite winode_ok; [reflexivity|done| |lia]. exact (gw_img _ _ _ _ _ _ (ap_grew _ _ _ _ _ _ Ha)).
Qed.

Lemma xshort_small x : 0 <= x < 65536 -> xshort x = x.
Proof.
  intros H. unfold xshort. rewrite !Z.shiftr_div_pow2 by lia.
  transitivity (x mod 65536); [exact (read16_write16_eq ∅ 0 x)|by apply Z.mod_small].
Qed.

Definition fresh_node (t : Z) : dinode := mk_dinode t 0 0 1 0 (replicate 13 0).

Lemma fresh_slot im t k : slot im (fresh_node t) k = 0.
Proof.
  assert (Ha : forall j, addr_at (d_addrs (fresh_node t)) j = 0).
  { intros j. unfold addr_at. cbn [d_addrs fresh_node]. destruct (replicate 13 0 !! Z.to_nat j) as [x|] eqn:E; [|done].
    apply lookup_replicate in E as [-> _]. done. }
  unfold sl. cbn [iaddrs ip_of]. rewrite !Ha. by repeat case_match.
Qed.

Lemma fresh_ok im fb t : file_ok im fb (fresh_node t) (held (nblk 0)).
Proof.
  split; [done|..].
  - intros k Hk. rewrite fresh_slot. change (nblk 0) with 0. unfold held. split; [done|]. case_decide; lia.
  - intros k Hk. by rewrite fresh_slot.
  - intros k k' Hk Hk'. by rewrite fresh_slot.
Qed.

Lemma ialloc_spec s nodes t : mk_ok s nodes -> (length nodes < 199)%nat -> 0 < t < 4 ->
  exists s', Mkfs.ialloc t s = Ret (1 + Z.of_nat (length nodes)) s' /\ mk_ok s' (nodes ++ [(t, [])]).
Proof.
  intros Hok Hlen Ht. set (n := 1 + Z.of_nat (length nodes)). set (im := img s). set (im' := put_node im n (fresh_node t)).
  pose proof (iblk_range n ltac:(lia)) as Hib. pose proof (im_range _ _ (mo_img _ _ Hok)) as Hfb.
  assert (Hst : storable (ip_of n (fresh_node t))) by (apply (file_storable im 59 _ _ n (fresh_ok im 59 t)); cbn; lia).
  assert (Hself : dnode im' n = fresh_node t) by (by apply dnode_put_eq).
  assert (Hold : forall i t' c', nodes !! i = Some (t', c') -> node_ok im' (freeblock s) (1 + Z.of_nat i) t' c' /\
    forall k, 0 <= k <= 140 -> slot im' (dnode im' (1 + Z.of_nat i)) k = slot im (dnode im (1 + Z.of_nat i)) k).
  { intros i t' c' Hi. pose proof (lookup_lt_Some _ _ _ Hi). pose proof (mo_node _ _ Hok i t' c' Hi) as Hn.
    apply (node_keep im im' (freeblock s)); [done|lia|apply dnode_put_ne; [lia|lia|lia|done]|].
    intros k Hk Hs. pose proof (fk_range _ _ _ _ (nd_file _ _ _ _ _ Hn) k Hk Hs) as Hr. apply lookup_insert_ne. unfold im. lia. }
  exists (mk_mkstate im' (msb s) (n + 1) (freeblock s)). split.
  { unfold Mkfs.ialloc, gets, modify, bind. rewrite (mo_next _ _ Hok). fold n.
    rewrite (xshort_small t), (xshort_small 1), (xint_small 0) by lia. rewrite winode_ok; [|apply Hok|apply Hok|lia].
    unfold ret, s16, set_freeinode, set_img. rewrite !Z.mod_small, u32_small by lia.
    by replace (t + 32768 - 32768) with t by lia. }
  split; cbn [msb freeinode freeblock img]; rewrite ?length_app; cbn [length]; try apply Hok; try lia.
  - apply Forall_app. split; [apply Hok|]. by apply Forall_singleton.
  - apply (img_ok_write _ (freeblock s)); [apply Hok|lia|lia].
  - rewrite blocks_snoc. change (cost (Z.of_nat (length []))) with 0. rewrite Z.add_0_r. apply Hok.
  - unfold im', put_node. rewrite disk_at_ne by lia. apply Hok.
  - unfold im', put_node. rewrite disk_at_ne by lia. apply Hok.
  - intros i t' c' [Hi|[Hi E]]%lookup_app_Some; [by apply Hold|]. apply list_lookup_singleton_Some in E as [E [= <- <-]].
    assert (i = length nodes) as -> by lia. fold n. split; rewrite ?Hself; try done; [by apply fresh_ok|].
    intros o Ho. unfold content. by rewrite fresh_slot.
  - intros i j k l Hi Hj Hne Hk Hl.
    assert (Hs : forall m q, (m < length nodes)%nat -> 0 <= q <= 140 -> slot im' (dnode im' (1 + Z.of_nat m)) q = slot im (dnode im (1 + Z.of_nat m)) q).
    { intros m q Hm Hq. destruct (lookup_lt_is_Some_2 nodes m Hm) as [[t' c'] Em]. by apply (Hold m t' c'). }
    destruct (decide (i = length nodes)) as [->|Ni]; [fold n; by rewrite Hself, fresh_slot|].
    rewrite (Hs i k) by lia. destruct (decide (j = length nodes)) as [->|Nj]; [fold n; by rewrite Hself, fresh_slot|].
    rewrite (Hs j l) by lia. apply (mo_disj _ _ Hok); [lia|lia|done|done|done].
Qed.
