(* ===== verification/MkfsImage.v ===== *)
(** * mkfs from end to end

    [main] run on the files of the command line, and the image that it leaves
    as the kernel sees it: its layout, its bitmap, its root directory, and the
    files that the root directory names. *)
From S2P Require Import Prelude Memory KString Log LogProof Fs FsProof FsInode FsDir Mkfs MkfsProof.

#[local] Opaque BSIZE BPB.

Notation bytes l := (Forall (fun b => 0 <= b < 256) l).

(** ** The blank image *)

Lemma zero_image_spec n : forall i s, 0 <= i -> i + Z.of_nat n <= 1000 ->
  exists im, zero_image i n s = Ret tt (set_img im s) /\
    (forall b, i <= b < i + Z.of_nat n -> im !! b = Some ∅) /\
    (forall b, b < i \/ i + Z.of_nat n <= b -> im !! b = img s !! b).
Proof.
  induction n as [|n IH]; intros i s Hi Hn; cbn [zero_image].
  - exists (img s). split; [by destruct s|]. split; [lia|done].
  - rewrite (bind_Ret _ _ _ _ _ (wsect_ok s i ∅ ltac:(lia))).
    destruct (IH (i + 1) (set_img (<[i := ∅]> (img s)) s)) as (im & E & H1 & H2); [lia|lia|].
    exists im. split; [exact E|]. split.
    + intros b Hb. destruct (Z.eq_dec b i) as [->|Hne]; [|apply H1; lia]. rewrite H2 by lia. apply lookup_insert_eq.
    + intros b Hb. rewrite H2 by lia. apply lookup_insert_ne. lia.
Qed.

(** The root directory's first two entries. *)
Definition dots : list Z := dirent 1 [46] ++ dirent 1 [46; 46].

Lemma dirent_bytes n nm : bytes nm -> bytes (dirent n nm).
Proof.
  intros H. unfold dirent. apply Forall_app. split; [|by apply strncpy_list_bytes].
  repeat constructor; apply u8_range.
Qed.
Lemma length_dirent n nm : length (dirent n nm) = 16%nat.
Proof. unfold dirent. rewrite length_app, length_strncpy_list. done. Qed.

Lemma make_root_spec s : freeinode s = 1 -> img s = ∅ ->
  exists s', make_root s = Ret 1 s' /\ mk_ok s' [(T_DIR, dots)].
Proof.
  intros Hfi Him. unfold make_root. set (s1 := set_freeblock 59 (set_msb mk_sb s)).
  unfold modify at 1 2. unfold bind at 1 2. change (2 + nlog + ninodeblocks + nbitmap) with 59. fold s1.
  destruct (zero_image_spec (Z.to_nat FSSIZE) 0 s1) as (im & Ez & H1 & _); [lia|rewrite Z2Nat.id; done|].
  rewrite Z2Nat.id in H1 by done. change FSSIZE with 1000 in H1.
  rewrite (bind_Ret _ _ _ _ _ Ez), (bind_Ret _ _ _ _ _ (wsect_ok _ 1 _ ltac:(lia))).
  set (s2 := set_img _ _).
  assert (H0 : mk_ok s2 []).
  { split; cbn [img s2 set_img freeblock freeinode msb s1 set_freeblock set_msb length];
      [done|lia|lia|constructor| |done|by apply disk_at_eq| |done|intros i j k l Hi; lia].
    2: { rewrite disk_at_ne by lia. unfold disk_at. by rewrite H1 by lia. }
    split; [lia|..].
    - intros b Hb. destruct (Z.eq_dec b 1) as [->|Hne]; [by rewrite lookup_insert_eq|]. by rewrite lookup_insert_ne, H1 by lia.
    - intros b o Hb. rewrite disk_at_ne by lia. unfold disk_at. by rewrite H1 by lia. }
  destruct (ialloc_spec s2 [] T_DIR H0) as (s3 & E3 & H3); [cbn; lia|unfold T_DIR; lia|].
  rewrite (bind_Ret _ _ _ _ _ E3). cbn [length app] in *. change (1 + Z.of_nat 0) with 1. unfold assert_. cbn [Z.eqb ROOTINO Pos.eqb].
  unfold ret at 1. unfold bind at 1.
  assert (Hb : forall nm, bytes nm -> bytes (dirent 1 nm)) by (intros; by apply dirent_bytes).
  destruct (iappend_spec s3 _ 0 T_DIR [] (dirent 1 [46]) H3) as (s4 & E4 & H4); [done|by rewrite length_dirent|apply Hb; repeat constructor; lia| |].
  { rewrite (mo_fb _ _ H3), length_dirent. by vm_compute. }
  change (1 + Z.of_nat 0) with 1 in E4. rewrite (bind_Ret _ _ _ _ _ E4). cbn [app] in H4. change (<[0%nat := ?x]> [(T_DIR, [])]) with [x] in H4.
  destruct (iappend_spec s4 _ 0 T_DIR (dirent 1 [46]) (dirent 1 [46; 46]) H4) as (s5 & E5 & H5);
    [done|by rewrite !length_dirent|apply Hb; repeat constructor; lia| |].
  { rewrite (mo_fb _ _ H4), !length_dirent. by vm_compute. }
  change (1 + Z.of_nat 0) with 1 in E5. rewrite (bind_Ret _ _ _ _ _ E5). exists s5. split; [done|]. exact H5.
Qed.

(** ** The files of the command line *)

Lemma append_all_spec i t chunks : forall s nodes c,
  mk_ok s nodes -> nodes !! i = Some (t, c) -> Forall (fun p => bytes p) chunks ->
  Z.of_nat (length (c ++ concat chunks)) <= 71680 ->
  freeblock s + (cost (Z.of_nat (length (c ++ concat chunks))) - cost (Z.of_nat (length c))) <= 1000 ->
  exists s', append_all (1 + Z.of_nat i) chunks s = Ret tt s' /\ mk_ok s' (<[i := (t, c ++ concat chunks)]> nodes).
Proof.
  induction chunks as [|p chunks IH]; intros s nodes c Hok Hi Hb Hmax Hroom; cbn [append_all concat].
  - exists s. split; [done|]. by rewrite app_nil_r, list_insert_id.
  - apply Forall_cons in Hb as [Hp Hb]. cbn [concat] in Hmax, Hroom. rewrite app_assoc in Hmax, Hroom.
    assert (Hcp : Z.of_nat (length (c ++ p)) = Z.of_nat (length c) + Z.of_nat (length p)) by (rewrite length_app; lia).
    rewrite length_app, Nat2Z.inj_add in Hmax, Hroom.
    assert (Hmono := cost_mono (Z.of_nat (length (c ++ p))) (Z.of_nat (length (c ++ p)) + Z.of_nat (length (concat chunks))) ltac:(lia)).
    destruct (iappend_spec s nodes i t c p Hok Hi) as (s1 & E1 & H1); [lia|done|rewrite <- Hcp; lia|].
    rewrite (bind_Ret _ _ _ _ _ E1). assert (Hlt := lookup_lt_Some _ _ _ Hi).
    destruct (IH s1 _ (c ++ p) H1) as (s' & E & H).
    { by rewrite list_lookup_insert_eq. } { done. } { rewrite length_app, Nat2Z.inj_add. lia. }
    { rewrite length_app, Nat2Z.inj_add, (mo_fb _ _ H1), (blocks_insert _ _ _ c) by done. rewrite (mo_fb _ _ Hok) in Hroom. lia. }
    exists s'. split; [exact E|]. by rewrite list_insert_insert_eq, <- app_assoc in H.
Qed.

Section Files.
Context (host : list Z -> option (list (list Z))).

(** What a file of the command line contains. *)
Definition data (a : list Z) : list Z := concat (default [] (host a)).

(** A file that [mkfs] can take: it can be opened, its name has no slash, it is
    not larger than a file may be. *)
Record good_arg (a : list Z) : Prop := {
  ga_open : host a <> None;
  ga_slash : 47 ∉ a;
  ga_name : bytes a;
  ga_bytes : forall chunks, host a = Some chunks -> Forall (fun p => bytes p) chunks;
  ga_size : Z.of_nat (length (data a)) <= 71680
}.

(** The nodes once the files [args] have been added to a root directory [root]
    and to [files]. *)
Fixpoint image_nodes (root : list Z) (files : list (Z * list Z)) (args : list (list Z)) : list (Z * list Z) :=
  match args with
  | [] => (T_DIR, root) :: files
  | a :: l => image_nodes (root ++ dirent (2 + Z.of_nat (length files)) (image_name a)) (files ++ [(T_FILE, data a)]) l
  end.

Lemma blocks_cons t c nodes : blocks_of ((t, c) :: nodes) = cost (Z.of_nat (length c)) + blocks_of nodes.
Proof using Type. done. Qed.

Lemma image_nodes_mono args : forall root files,
  blocks_of ((T_DIR, root) :: files) <= blocks_of (image_nodes root files args).
Proof using Type.
  induction args as [|a args IH]; intros root files; cbn [image_nodes]; [lia|].
  pose proof (IH (root ++ dirent (2 + Z.of_nat (length files)) (image_name a)) (files ++ [(T_FILE, data a)])) as H.
  rewrite blocks_cons, blocks_snoc, length_app, Nat2Z.inj_add in H. rewrite blocks_cons.
  assert (Hm := cost_mono (Z.of_nat (length root)) (Z.of_nat (length root) + Z.of_nat (length (dirent (2 + Z.of_nat (length files)) (image_name a)))) ltac:(lia)).
  pose proof (cost_nonneg (Z.of_nat (length (data a))) ltac:(lia)). lia.
Qed.

Lemma image_name_bytes a : bytes a -> bytes (image_name a).
Proof using Type. intros H. unfold image_name. destruct a as [|c l]; [done|]. apply Forall_cons in H as [? ?]. case_match; [done|by constructor]. Qed.

Lemma add_file_spec s root files a :
  mk_ok s ((T_DIR, root) :: files) -> good_arg a -> (length files < 198)%nat -> Z.of_nat (length root) + 16 <= 71680 ->
  let root' := root ++ dirent (2 + Z.of_nat (length files)) (image_name a) in
  59 + blocks_of ((T_DIR, root') :: files ++ [(T_FILE, data a)]) <= 1000 ->
  exists s', add_file host 1 a s = Ret tt s' /\ mk_ok s' ((T_DIR, root') :: files ++ [(T_FILE, data a)]).
Proof using Type.
  intros Hok [Hop Hsl Hnm Hby Hsz] Hlen Hroot root' Hroom. unfold add_file, assert_. rewrite bool_decide_true by done.
  unfold ret at 1. unfold bind at 1. destruct (host a) as [chunks|] eqn:Eh; [|done].
  assert (Hd : data a = concat chunks) by (unfold data; by rewrite Eh). rewrite blocks_cons, blocks_snoc in Hroom.
  pose proof (cost_nonneg (Z.of_nat (length (data a))) ltac:(lia)) as Hc0.
  destruct (ialloc_spec s _ T_FILE Hok) as (s1 & E1 & H1); [cbn; lia|unfold T_FILE; lia|].
  rewrite (bind_Ret _ _ _ _ _ E1). cbn [length] in *. replace (1 + Z.of_nat (S (length files))) with (2 + Z.of_nat (length files)) by lia.
  rewrite <- app_comm_cons in H1. set (de := dirent _ _). assert (Hde : length de = 16%nat) by apply length_dirent.
  destruct (iappend_spec s1 _ 0 T_DIR root de H1) as (s2 & E2 & H2).
  { done. } { lia. } { apply dirent_bytes. by apply image_name_bytes. }
  { rewrite (mo_fb _ _ H1), blocks_cons, blocks_snoc. change (cost (Z.of_nat (length []))) with 0.
    unfold root' in Hroom. fold de in Hroom. rewrite length_app, Nat2Z.inj_add in Hroom. lia. }
  change (1 + Z.of_nat 0) with 1 in E2. rewrite (bind_Ret _ _ _ _ _ E2).
  change (<[0%nat := ?x]> (?y :: ?l)) with (x :: l) in H2. change (root ++ de) with root' in H2.
  destruct (append_all_spec (S (length files)) T_FILE chunks s2 _ [] H2) as (s' & E & H).
  { change ((?x :: ?l) !! S (length files)) with (l !! length files). rewrite lookup_app_r by done. by rewrite Nat.sub_diag. } { by apply Hby. } { cbn. by rewrite <- Hd. }
  { rewrite (mo_fb _ _ H2), blocks_cons, blocks_snoc. change (cost (Z.of_nat (length []))) with 0. cbn [app]. rewrite <- Hd. lia. }
  exists s'. replace (1 + Z.of_nat (S (length files))) with (2 + Z.of_nat (length files)) in E by lia. split; [exact E|].
  cbn [app] in H. rewrite <- Hd in H. change (<[S (length files) := ?x]> (?y :: ?l)) with (y :: <[length files := x]> l) in H.
  rewrite insert_app_r_alt, Nat.sub_diag in H by lia. exact H.
Qed.

Lemma add_files_spec args : forall s root files,
  mk_ok s ((T_DIR, root) :: files) -> Forall good_arg args -> (length files + length args <= 198)%nat ->
  Z.of_nat (length root) + 16 * Z.of_nat (length args) <= 71680 -> 59 + blocks_of (image_nodes root files args) <= 1000 ->
  exists s', add_files host 1 args s = Ret tt s' /\ mk_ok s' (image_nodes root files args).
Proof using Type.
  induction args as [|a args IH]; intros s root files Hok Hg Hlen Hroot Hroom; cbn [add_files image_nodes length] in *.
  - by exists s.
  - apply Forall_cons in Hg as [Ha Hg].
    destruct (add_file_spec s root files a Hok Ha) as (s1 & E1 & H1); [lia|lia| |].
    { etransitivity; [|exact Hroom]. apply Z.add_le_mono_l, image_nodes_mono. }
    rewrite (bind_Ret _ _ _ _ _ E1). apply (IH _ _ _ H1); [done|rewrite length_app; cbn; lia| |done].
    rewrite length_app, length_dirent. lia.
Qed.

(** The root directory's entries for the files, from number [k] on. *)
Fixpoint root_entries (k : nat) (args : list (list Z)) : list Z :=
  match args with
  | [] => []
  | a :: l => dirent (2 + Z.of_nat k) (image_name a) ++ root_entries (S k) l
  end.
Definition root_bytes (args : list (list Z)) : list Z := dots ++ root_entries 0 args.
Definition file_nodes (args : list (list Z)) : list (Z * list Z) := (fun a => (T_FILE, data a)) <$> args.

Lemma image_nodes_shape args : forall root files,
  image_nodes root files args = (T_DIR, root ++ root_entries (length files) args) :: files ++ file_nodes args.
Proof using Type.
  induction args as [|a args IH]; intros root files; cbn [image_nodes root_entries file_nodes fmap list_fmap].
  - by rewrite !app_nil_r.
  - rewrite IH, length_app, <- !app_assoc. cbn [length]. by rewrite Nat.add_1_r.
Qed.

Lemma length_root_entries args : forall k, length (root_entries k args) = (16 * length args)%nat.
Proof using Type.
  induction args as [|a args IH]; intros k; [done|]. cbn [root_entries length]. rewrite length_app, length_dirent, IH. lia.
Qed.
Lemma length_root_bytes args : length (root_bytes args) = (32 + 16 * length args)%nat.
Proof using Type. unfold root_bytes. by rewrite length_app, length_root_entries. Qed.
End Files.

(** ** The bitmap *)

Lemma bitv_set_bits n : forall x i r, bitv (set_bits x i n) r = bitv x r || bool_decide (i <= r < i + Z.of_nat n).
Proof.
  induction n as [|n IH]; intros x i r; cbn [set_bits].
  - rewrite bool_decide_false by lia. by rewrite orb_false_r.
  - rewrite IH. change (Z.shiftl 1 (i mod 8)) with (bit_mask i). rewrite bitv_set, <- orb_assoc. f_equal.
    destruct (Z.eqb_spec r i); repeat case_bool_decide; try done; lia.
Qed.

(** ** The finished image *)

Record made (host : list Z -> option (list (list Z))) (args : list (list Z)) (im : gmap Z block) (fb : Z) : Prop := {
  md_super : disk_at im 1 = put_superblock mk_sb;
  md_log : disk_at im 2 = ∅;
  md_blocks : fb = 59 + cost (Z.of_nat (length (root_bytes args))) + blocks_of (file_nodes host args) /\ fb <= 1000;
  md_used : forall b, 0 <= b < 1000 -> used (kst im) b = (b <? fb);
  md_root : d_type (dnode im 1) = T_DIR /\ d_size (dnode im 1) = (Z.of_nat (length (root_bytes args)) / 512 + 1) * 512;
  md_root_file : file_ok im fb (dnode im 1) (held (nblk (Z.of_nat (length (root_bytes args)))));
  md_root_bytes : forall o, 0 <= o < 71680 -> byte im (dnode im 1) o = default 0 (root_bytes args !! Z.to_nat o);
  md_files : forall i a, args !! i = Some a -> node_ok im fb (2 + Z.of_nat i) T_FILE (data host a)
}.

(** What [fix_root] and [balloc] do to the image. *)
Definition final_img (im : gmap Z block) (fb n : Z) : gmap Z block :=
  <[58 := set_bits ∅ 0 (Z.to_nat fb)]> (put_node im 1 (set_dsize (dnode im 1) n)).

Lemma final_data im fb n b : 59 <= b -> final_img im fb n !! b = im !! b.
Proof.
  intros Hb. pose proof (iblk_range 1 ltac:(lia)). unfold final_img, put_node. by rewrite !lookup_insert_ne by lia.
Qed.

Lemma final_dnode im fb n m : 0 <= m < 208 ->
  dnode (final_img im fb n) m = dnode (put_node im 1 (set_dsize (dnode im 1) n)) m.
Proof. intros Hm. unfold dnode, final_img. by rewrite disk_at_ne by (pose proof (iblk_range m Hm); lia). Qed.

Section Final.
Context (host : list Z -> option (list (list Z))) (args : list (list Z)) (s : mkstate).
Hypothesis Hargs : (length args <= 198)%nat.
Hypothesis Hok : mk_ok s ((T_DIR, root_bytes args) :: file_nodes host args).

#[local] Notation R := (root_bytes args).
#[local] Notation size := ((Z.of_nat (length R) / 512 + 1) * 512).
#[local] Notation im' := (final_img (img s) (freeblock s) size).

Lemma size_range : 0 <= size < 71680.
Proof using Hargs. rewrite length_root_bytes. Z.div_mod_to_equations. lia. Qed.

Lemma root_node : node_ok (img s) (freeblock s) 1 T_DIR R.
Proof using Hok. exact (mo_node _ _ Hok 0%nat T_DIR R eq_refl). Qed.

Lemma root_storable : storable (ip_of 1 (set_dsize (dnode (img s) 1) size)).
Proof using Hargs Hok.
  destruct root_node as [H1 [H2 H2'] H3 H4 H5 H6 H7]. pose proof (im_range _ _ (mo_img _ _ Hok)). pose proof size_range.
  eapply file_storable; [apply file_dsize, H6|lia|..];
    cbn [d_type d_major d_minor d_nlink d_size set_dsize]; unfold T_DIR in *; lia.
Qed.

Lemma final_made : made host args im' (freeblock s).
Proof using Hargs Hok.
  pose proof (im_range _ _ (mo_img _ _ Hok)) as Hfb. pose proof (iblk_range 1 ltac:(lia)).
  destruct root_node as [H1 H2 H3 H4 H5 H6 H7].
  assert (Hr : dnode im' 1 = set_dsize (dnode (img s) 1) size) by (rewrite final_dnode by lia; apply dnode_put_eq, root_storable).
  destruct (file_same (img s) im' _ (freeblock s) _ _ (file_dsize _ _ _ _ size H6) ltac:(lia)) as (F1 & F2 & F3).
  { intros k Hk Hn. apply final_data. exact (proj1 (fk_range _ _ _ _ H6 k Hk Hn)). }
  split.
  - unfold final_img, put_node. rewrite !disk_at_ne by lia. apply Hok.
  - unfold final_img, put_node. rewrite !disk_at_ne by lia. apply Hok.
  - pose proof (mo_fb _ _ Hok) as E. rewrite blocks_cons in E. lia.
  - intros b Hb. unfold used. rewrite vw_kst. change (sb (kst im')) with mk_sb. unfold BBLOCK. rewrite mk_sb_val.
    cbn [sb_bmapstart]. rewrite BPB_val. rewrite (Z.div_small b 4096), (Z.mod_small b 4096) by lia. unfold final_img. rewrite disk_at_eq, bitv_set_bits, Z2Nat.id by lia.
    unfold bitv. cbn [orb]. change (read8 ∅ (b / 8)) with 0. rewrite Z.bits_0. cbn [orb]. destruct (Z.ltb_spec b (freeblock s)); case_bool_decide; try done; lia.
  - by rewrite Hr.
  - by rewrite Hr.
  - intros o Ho. rewrite Hr, F3 by done. by apply H7.
  - intros i a Hi. pose proof (lookup_lt_Some _ _ _ Hi).
    assert (Hn : node_ok (img s) (freeblock s) (2 + Z.of_nat i) T_FILE (data host a)).
    { replace (2 + Z.of_nat i) with (1 + Z.of_nat (S i)) by lia. apply (mo_node _ _ Hok (S i)).
      change ((?x :: ?l) !! S i) with (l !! i). unfold file_nodes. by rewrite list_lookup_fmap, Hi. }
    apply (node_keep (img s) im' (freeblock s)); [done|lia|..].
    + rewrite final_dnode by lia. apply dnode_put_ne; [lia|lia|lia|apply H6].
    + intros k Hk Hs. apply final_data. exact (proj1 (fk_range _ _ _ _ (nd_file _ _ _ _ _ Hn) k Hk Hs)).
Qed.

Lemma finish_spec : (do* fix_root 1 in let* u := gets freeblock in Mkfs.balloc u) s =
  Ret tt (set_img im' s).
Proof using Hargs Hok.
  pose proof (im_range _ _ (mo_img _ _ Hok)) as Hfb. pose proof size_range as Hsz. pose proof (mo_sb _ _ Hok) as Hsb.
  unfold fix_root. rewrite !bind_assoc, (bind_Ret _ _ _ _ _ (rinode_ok s 1 Hsb (mo_img _ _ Hok) ltac:(lia))).
  rewrite (nd_size _ _ _ _ _ root_node), BSIZE_val. rewrite (xint_small (Z.of_nat (length R))) by (rewrite length_root_bytes; lia).
  rewrite u32_small, (xint_small size) by lia.
  rewrite (bind_Ret _ _ _ _ _ (winode_ok s 1 _ Hsb (mo_img _ _ Hok) ltac:(lia))). unfold gets. unfold bind at 1. cbn [freeblock set_img].
  unfold Mkfs.balloc, assert_, gets. rewrite BSIZE_val. destruct (Z.ltb_spec (freeblock s) (512 * 8)); [|lia].
  unfold ret, bind. cbn [msb set_img]. rewrite Hsb, mk_sb_val. cbn [sb_bmapstart]. by rewrite wsect_ok by lia.
Qed.
End Final.

Lemma main_run creat host out args s : creat out = true ->
  main creat host (out :: args) s =
  (let* r := make_root in do* add_files host r args in do* fix_root r in let* u := gets freeblock in Mkfs.balloc u)
    (set_img ∅ s).
Proof.
  intros Hc. unfold main. rewrite BSIZE_val, Hc.
  rewrite (bind_Ret (assert_ (512 mod sizeof_dinode =? 0)) _ s tt s eq_refl).
  rewrite (bind_Ret (assert_ (512 mod sizeof_dirent =? 0)) _ s tt s eq_refl).
  by rewrite (bind_Ret (modify (set_img ∅)) _ s tt (set_img ∅ s) eq_refl).
Qed.

Lemma main_spec creat host out args :
  creat out = true -> Forall (good_arg host) args -> (length args <= 198)%nat ->
  59 + cost (Z.of_nat (length (root_bytes args))) + blocks_of (file_nodes host args) <= 1000 ->
  exists s, main creat host (out :: args) start_state = Ret tt s /\ made host args (img s) (freeblock s).
Proof.
  intros Hc Hg Hlen Hroom. rewrite main_run by done.
  destruct (make_root_spec (set_img ∅ start_state) eq_refl eq_refl) as (s1 & E1 & H1).
  destruct (add_files_spec host args s1 dots [] H1 Hg) as (s2 & E2 & H2).
  { cbn. lia. } { change (Z.of_nat (length dots)) with 32. lia. }
  { rewrite image_nodes_shape, blocks_cons. cbn [length app]. fold (root_bytes args). lia. }
  rewrite image_nodes_shape in H2. cbn [length app] in H2. fold (root_bytes args) in H2.
  exists (set_img (final_img (img s2) (freeblock s2) ((Z.of_nat (length (root_bytes args)) / 512 + 1) * 512)) s2).
  split; [|exact (final_made host args s2 Hlen H2)].
  rewrite (bind_Ret _ _ _ _ _ E1), (bind_Ret _ _ _ _ _ E2).
  exact (finish_spec host args s2 Hlen H2).
Qed.

(** ** The image in the kernel's hands *)

Lemma readsb_made host args im fb : made host args im fb -> readsb (ds (kst im)) = Ret mk_sb (ds (kst im)).
Proof.
  intros H. unfold readsb, bread, gets, bind, ret. change (view (ds (kst im)) 1) with (vw (kst im) 1).
  rewrite vw_kst, (md_super _ _ _ _ H). reflexivity.
Qed.

Lemma layout_made im : layout 2 30 59 (sb (kst im)).
Proof.
  change (sb (kst im)) with mk_sb. rewrite mk_sb_val.
  split; unfold home, IBLOCK, BBLOCK; change IPB with 8; rewrite ?BPB_val; cbn [sb_size sb_ninodes sb_inodestart sb_bmapstart].
  - lia.
  - lia.
  - intros n Hn. Z.div_mod_to_equations. lia.
  - intros n Hn. split; [Z.div_mod_to_equations; lia|]. intros m Hm. Z.div_mod_to_equations. lia.
  - split_and!; [lia|lia|..]; intros n Hn; right; Z.div_mod_to_equations; lia.
Qed.

Lemma fs_ok_made host args im fb : made host args im fb -> fs_ok 2 30 59 (kst im).
Proof.
  intros H. split; [apply layout_made|]. intros b Hb. rewrite (md_used _ _ _ _ H) by lia.
  destruct (md_blocks _ _ _ _ H) as [E _]. pose proof (cost_nonneg (Z.of_nat (length (root_bytes args))) ltac:(lia)).
  assert (Hn : forall nodes, 0 <= blocks_of nodes).
  { intros nodes. unfold blocks_of. induction nodes as [|[t c] nodes IH]; cbn [fmap list_fmap sum snd]; [lia|].
    pose proof (cost_nonneg (Z.of_nat (length c)) ltac:(lia)). lia. }
  specialize (Hn (file_nodes host args)). destruct (Z.ltb_spec b fb); [done|lia].
Qed.

Lemma ino_ok_made host args im fb d n H : made host args im fb -> file_ok im fb d H -> ino_ok 59 (kst im) (ip_of n d).
Proof.
  intros Hm Hf. pose proof (md_blocks _ _ _ _ Hm) as [_ Hfb]. split; [apply Hf|..].
  - intros k Hk Hn. pose proof (fk_range _ _ _ _ Hf k Hk Hn) as Hr. change (sl (kst im) (ip_of n d) k) with (slot im d k) in *.
    change (sb_size (sb (kst im))) with 1000. split; [lia|]. rewrite (md_used _ _ _ _ Hm) by lia. destruct (Z.ltb_spec (slot im d k) fb); [done|lia].
  - intros k k' Hk Hk' Hn E. exact (fk_inj _ _ _ _ Hf k k' Hk Hk' Hn E).
Qed.

(** *** The root directory *)

Definition entries (args : list (list Z)) : list (list Z) :=
  dirent 1 [46] :: dirent 1 [46; 46] :: imap (fun i a => dirent (2 + Z.of_nat i) (image_name a)) args.

Lemma root_entries_imap args : forall k, root_entries k args = concat (imap (fun i a => dirent (2 + Z.of_nat (k + i)) (image_name a)) args).
Proof.
  induction args as [|a args IH]; intros k; [done|]. cbn [root_entries]. rewrite imap_cons. cbn [concat]. rewrite Nat.add_0_r. f_equal.
  rewrite IH. f_equal. apply imap_ext. intros i b Hb. cbn [compose]. by rewrite Nat.add_succ_comm.
Qed.
Lemma root_bytes_entries args : root_bytes args = concat (entries args).
Proof. unfold root_bytes, dots, entries. cbn [concat]. rewrite <- app_assoc, root_entries_imap. done. Qed.

Lemma entries_16 args : Forall (fun e => length e = 16%nat) (entries args).
Proof.
  unfold entries. repeat (apply Forall_cons; split; [apply length_dirent|]). apply Forall_lookup_2. intros i e He.
  rewrite list_lookup_imap in He. destruct (args !! i); cbn in He; simplify_eq. apply length_dirent.
Qed.

Lemma concat_lookup_16 l : Forall (fun e : list Z => length e = 16%nat) l -> forall k e j, l !! k = Some e -> (j < 16)%nat ->
  concat l !! (16 * k + j)%nat = e !! j.
Proof.
  induction 1 as [|x l Hx Hl IH]; intros k e j Hk Hj; [done|]. cbn [concat]. destruct k as [|k].
  - cbn in Hk. simplify_eq. by rewrite lookup_app_l by lia.
  - rewrite lookup_app_r by lia. rewrite <- (IH k e j) by done. f_equal. lia.
Qed.

(** The directory entry at [16 * k]. *)
Lemma entry_made host args im fb s n k e : made host args im fb -> (forall b, vw s b = vw (kst im) b) -> (length args <= 198)%nat ->
  entries args !! k = Some e -> entry s (ip_of n (dnode im 1)) (16 * Z.of_nat k) = e.
Proof.
  intros Hm Hvw Hlen He. pose proof (entries_16 args) as H16. pose proof (Forall_lookup_1 _ _ _ _ H16 He) as Hle. cbn in Hle.
  assert (Hk : (k < 2 + length args)%nat) by (apply lookup_lt_Some in He; cbn in He; rewrite length_imap in He; lia).
  unfold entry. rewrite <- Hle. apply contents_eq. intros j Hj. rewrite Hle in Hj.
  transitivity (byte im (dnode im 1) (16 * Z.of_nat k + Z.of_nat j)); [unfold content, sl; by rewrite !Hvw|].
  rewrite (md_root_bytes _ _ _ _ Hm) by lia. rewrite root_bytes_entries.
  replace (Z.to_nat (16 * Z.of_nat k + Z.of_nat j)) with (16 * k + j)%nat by lia. by rewrite (concat_lookup_16 _ H16 k e j).
Qed.

Lemma dir_made host args im fb s n : made host args im fb -> (forall b, vw s b = vw (kst im) b) -> (length args <= 198)%nat ->
  (2 + Z.of_nat (length args)) mod 32 <> 0 -> dir_ok s (ip_of n (dnode im 1)).
Proof.
  intros Hm Hvw Hlen H32. destruct (md_root _ _ _ _ Hm) as [Ht Hs]. rewrite length_root_bytes in Hs.
  split; cbn [itype isize ip_of]; [done|rewrite Hs; Z.div_mod_to_equations; lia..|].
  intros o Ho. rewrite Hs in Ho. pose proof (md_root_file _ _ _ _ Hm) as Hf. rewrite length_root_bytes in Hf.
  assert (Hq : 0 <= o / 512 <= 140) by (Z.div_mod_to_equations; lia).
  assert (Hh : slot im (dnode im 1) (o / 512) <> 0).
  { apply (fk_held _ _ _ _ Hf); [done|]. unfold held, nblk. rewrite decide_False by (Z.div_mod_to_equations; lia). Z.div_mod_to_equations. lia. }
  unfold sl in *. rewrite Hvw. exact Hh.
Qed.

(** *** Loading inodes from the image *)

(** Inode [n] as [ilock] finds it in the image. *)
Lemma load_made im n ip : load_dinode (disk_at im (iblk n)) (ioff n) ip =
  mk_inode (idev ip) (inum ip) (iref ip) (ilocked ip) true (d_type (dnode im n)) (d_major (dnode im n)) (d_minor (dnode im n))
    (d_nlink (dnode im n)) (d_size (dnode im n)) (d_addrs (dnode im n)).
Proof. reflexivity. Qed.

Lemma ilock_made im l j n : l !! j = Some n -> ilocked n = false -> ivalid n = false -> 1 <= iref n ->
  d_type (dnode im (inum n)) <> 0 ->
  let ip := load_dinode (disk_at im (iblk (inum n))) (ioff (inum n)) (set_ilocked n true) in
  ilock (Some j) (mk_fstate (ds (kst im)) mk_sb l) = Ret tt (mk_fstate (ds (kst im)) mk_sb (<[j := ip]> l)).
Proof.
  intros Hj Hl Hv Hr Ht ip. set (s := mk_fstate _ _ _). assert (Hx : vw s (IBLOCK (inum n) (sb s)) = disk_at im (iblk (inum n))) by exact (vw_kst im _).
  pose proof (ilock_loads s j n Hj Hr Hl Hv) as E. cbn zeta in E. rewrite Hx in E. exact (E Ht).
Qed.

(** An inode cache entry that is not in use. *)
Definition free_entry (ip : inode) : Prop := iref ip = 0 /\ ilocked ip = false.

Definition opened_as (n : Z) (f : inode) : inode :=
  mk_inode ROOTDEV n 1 (ilocked f) false (itype f) (imajor f) (iminor f) (inlink f) (isize f) (iaddrs f).

Lemma iget_first im n f f' : iref f = 0 -> iref f' = 0 ->
  iget ROOTDEV n (mk_fstate (ds (kst im)) mk_sb [f; f']) = Ret 0%nat (mk_fstate (ds (kst im)) mk_sb [opened_as n f; f']).
Proof. intros Hf Hf'. unfold iget, gets, bind. cbn [icache icache_find]. by rewrite Hf, Hf'. Qed.

Lemma iget_second im n ip f : iref ip = 1 -> inum ip <> n -> iref f = 0 ->
  iget ROOTDEV n (mk_fstate (ds (kst im)) mk_sb [ip; f]) = Ret 1%nat (mk_fstate (ds (kst im)) mk_sb [ip; opened_as n f]).
Proof.
  intros Hi Hn Hf. unfold iget, gets, bind. cbn [icache icache_find]. rewrite Hi, Hf. destruct (Z.eqb_spec (inum ip) n); [done|].
  by rewrite !andb_false_r.
Qed.

(** The root inode, locked. *)
Definition root_ip (im : gmap Z block) (f : inode) : inode :=
  load_dinode (disk_at im (iblk 1)) (ioff 1) (set_ilocked (opened_as 1 f) true).
Definition file_ip (im : gmap Z block) (n : Z) (f : inode) : inode :=
  load_dinode (disk_at im (iblk n)) (ioff n) (set_ilocked (opened_as n f) true).

(** Inode [n] of the image in the cache, with [ref] references. *)
Definition node_ip (im : gmap Z block) (n ref : Z) (lk : bool) : inode :=
  mk_inode ROOTDEV n ref lk true (d_type (dnode im n)) (d_major (dnode im n)) (d_minor (dnode im n))
    (d_nlink (dnode im n)) (d_size (dnode im n)) (d_addrs (dnode im n)).

(** The name of file [i] is found in the root directory, whatever else the cache
    holds; [nm] is any form of the name that [namecmp] does not tell apart. *)
Lemma root_find host args im fb dev_read s r ref lk i a nm :
  made host args im fb -> (length args <= 198)%nat -> (2 + Z.of_nat (length args)) mod 32 <> 0 -> args !! i = Some a ->
  (forall k e, (k < 2 + i)%nat -> entries args !! k = Some e -> namecmp (image_name a) (de_name e) <> 0) ->
  (forall x, namecmp nm x = namecmp (image_name a) x) ->
  (forall b, vw s b = vw (kst im) b) -> icache s !! r = Some (node_ip im 1 ref lk) ->
  dirlookup dev_read r nm s = (let* j := iget ROOTDEV (2 + Z.of_nat i) in ret (Some (j, 16 * Z.of_nat (2 + i)))) s.
Proof.
  intros Hm Hlen H32 Hi Hfirst Hnm Hvw Hr. destruct (md_root _ _ _ _ Hm) as [Ht Hs]. assert (Hlt := lookup_lt_Some _ _ _ Hi).
  set (n := 2 + Z.of_nat i). set (rip := node_ip im 1 ref lk) in *.
  assert (Hd : dir_ok s rip) by (destruct (dir_made host args im _ s 1 Hm Hvw Hlen H32) as [D1 D2 D3 D4]; split; [exact D1|exact D2|exact D3|exact D4]).
  assert (He : entries args !! (2 + i)%nat = Some (dirent n (image_name a))).
  { change (entries args !! (2 + i)%nat) with (imap (fun i a => dirent (2 + Z.of_nat i) (image_name a)) args !! i).
    by rewrite list_lookup_imap, Hi. }
  assert (Hat : forall k e, entries args !! k = Some e -> entry s rip (16 * Z.of_nat k) = e).
  { intros k e Hk. exact (entry_made host args im _ s 1 k e Hm Hvw Hlen Hk). }
  assert (Hnum : de_inum (dirent n (image_name a)) = n).
  { unfold dirent. rewrite xshort_small by lia. apply (mk_dirent_inum n). lia. }
  assert (Hfe : first_entry (matches nm) s rip (Z.to_nat (isize rip / 16)) 0 = Some (16 * Z.of_nat (2 + i))).
  { apply first_entry_at.
    - change (isize rip) with (d_size (dnode im 1)). rewrite Hs, length_root_bytes. Z.div_mod_to_equations. lia.
    - Z.div_mod_to_equations. lia.
    - rewrite (Hat _ _ He). unfold matches. rewrite Hnum, Hnm. destruct (Z.eqb_spec n 0); [lia|]. cbn [negb andb]. apply Z.eqb_eq, strncmp_strncpy.
    - intros o' Ho' Hal. assert (Ho : o' = 16 * Z.of_nat (Z.to_nat (o' / 16))) by (Z.div_mod_to_equations; lia).
      assert (Hk : (Z.to_nat (o' / 16) < 2 + i)%nat) by (Z.div_mod_to_equations; lia).
      destruct (lookup_lt_is_Some_2 (entries args) (Z.to_nat (o' / 16))) as [e Ee]; [cbn; rewrite length_imap; lia|].
      rewrite Ho, (Hat _ _ Ee). unfold matches. rewrite Hnm, (proj2 (Z.eqb_neq _ _) (Hfirst _ e Hk Ee)). apply andb_false_r. }
  by rewrite (dirlookup_spec dev_read s r rip nm Hr Hd), Hfe, (Hat _ _ He), Hnum.
Qed.

Lemma root_lookup host args im fb dev_read f0 f1 i a :
  made host args im fb -> (length args <= 198)%nat -> (2 + Z.of_nat (length args)) mod 32 <> 0 -> args !! i = Some a ->
  (forall k e, (k < 2 + i)%nat -> entries args !! k = Some e -> namecmp (image_name a) (de_name e) <> 0) -> iref f1 = 0 ->
  dirlookup dev_read 0 (image_name a) (mk_fstate (ds (kst im)) mk_sb [root_ip im f0; f1]) =
  Ret (Some (1%nat, 16 * Z.of_nat (2 + i))) (mk_fstate (ds (kst im)) mk_sb [root_ip im f0; opened_as (2 + Z.of_nat i) f1]).
Proof.
  intros Hm Hlen H32 Hi Hfirst Hf1.
  rewrite (root_find host args im fb dev_read _ 0 1 true i a (image_name a) Hm Hlen H32 Hi Hfirst) by done.
  by rewrite (bind_Ret _ _ _ _ _ (iget_second im (2 + Z.of_nat i) (root_ip im f0) f1 eq_refl ltac:(change (inum (root_ip im f0)) with 1; lia) Hf1)).
Qed.

Lemma file_read dev_read im fb n c l j f :
  node_ok im fb n T_FILE c -> l !! j = Some (file_ip im n f) ->
  readi dev_read j 0 (Z.of_nat (length c)) (mk_fstate (ds (kst im)) mk_sb l) = Ret (Some c) (mk_fstate (ds (kst im)) mk_sb l).
Proof.
  intros Hn Hj. pose proof (nd_max _ _ _ _ _ Hn). set (s := mk_fstate _ _ _). rewrite (readi_spec dev_read s j (file_ip im n f)); try done.
  - do 2 f_equal. apply contents_eq. intros k Hk.
    etransitivity; [exact (nd_bytes _ _ _ _ _ Hn (0 + Z.of_nat k) ltac:(lia))|]. do 2 f_equal. lia.
  - change (itype (file_ip im n f)) with (d_type (dnode im n)). by rewrite (nd_type _ _ _ _ _ Hn).
  - change (isize (file_ip im n f)) with (d_size (dnode im n)). rewrite (nd_size _ _ _ _ _ Hn). lia.
  - intros o Ho. apply (fk_held _ _ _ _ (nd_file _ _ _ _ _ Hn)); [Z.div_mod_to_equations; lia|].
    unfold held, nblk. rewrite decide_False by (Z.div_mod_to_equations; lia). Z.div_mod_to_equations. lia.
Qed.

(** The image is a file system that the kernel accepts.  [main], run on files
    that can be opened, whose names have no slash, of which none is larger than a
    file may be, that are no more than the inodes allow and that fit on the disk,
    returns; the kernel then reads from block 1 the super block that [mkfs]
    computed; no metadata block is free; and the bitmap marks exactly the metadata
    and the blocks that the root directory and the files take up. *)
Theorem mkfs_makes_fs creat host out args :
  creat out = true -> Forall (good_arg host) args -> (length args <= 198)%nat ->
  59 + cost (Z.of_nat (length (root_bytes args))) + blocks_of (file_nodes host args) <= 1000 ->
  exists s, main creat host (out :: args) start_state = Ret tt s /\
    readsb (ds (kst (img s))) = Ret (mk_superblock 1000 941 200 LOGSIZE 2 32 58) (ds (kst (img s))) /\
    fs_ok 2 LOGSIZE 59 (kst (img s)) /\
    forall b, 0 <= b < 1000 -> used (kst (img s)) b =
      (b <? 59 + cost (Z.of_nat (length (root_bytes args))) + blocks_of (file_nodes host args)).
Proof.
  intros Hc Hg Hlen Hroom. destruct (main_spec creat host out args Hc Hg Hlen Hroom) as (s & E & Hm). exists s.
  split; [done|]. split; [exact (readsb_made _ _ _ _ Hm)|]. split; [exact (fs_ok_made _ _ _ _ Hm)|].
  intros b Hb. rewrite (md_used _ _ _ _ Hm) by done. by rewrite (proj1 (md_blocks _ _ _ _ Hm)).
Qed.

(** From the command line of [mkfs] to the kernel's file system calls.  On the
    image, with an inode cache of unused entries, [iget] and [ilock] of the root
    inode, [dirlookup] of the name of a file that [mkfs] was given (without a
    leading underscore, and if no earlier name is equal in its first 14 bytes),
    [ilock] of the inode that it finds, and [readi] of the whole file all succeed,
    and the bytes are those of the file.  The root directory must not fill its
    last block. *)
Theorem mkfs_files_readable creat host out args i a dev_read f0 f1 :
  creat out = true -> Forall (good_arg host) args -> (length args <= 198)%nat ->
  59 + cost (Z.of_nat (length (root_bytes args))) + blocks_of (file_nodes host args) <= 1000 ->
  (2 + Z.of_nat (length args)) mod 32 <> 0 -> args !! i = Some a ->
  (forall k e, (k < 2 + i)%nat -> entries args !! k = Some e -> namecmp (image_name a) (de_name e) <> 0) ->
  free_entry f0 -> free_entry f1 ->
  exists s s1 s2 s3 s4 off, main creat host (out :: args) start_state = Ret tt s /\
    iget ROOTDEV ROOTINO (mk_fstate (ds (kst (img s))) mk_sb [f0; f1]) = Ret 0%nat s1 /\
    ilock (Some 0%nat) s1 = Ret tt s2 /\ dirlookup dev_read 0 (image_name a) s2 = Ret (Some (1%nat, off)) s3 /\
    ilock (Some 1%nat) s3 = Ret tt s4 /\
    readi dev_read 1 0 (Z.of_nat (length (data host a))) s4 = Ret (Some (data host a)) s4.
Proof.
  intros Hc Hg Hlen Hroom H32 Hi Hfirst Hf0 Hf1. destruct (main_spec creat host out args Hc Hg Hlen Hroom) as (s & E & Hm).
  set (im := img s) in *. destruct (md_root _ _ _ _ Hm) as [Ht _]. pose proof (md_files _ _ _ _ Hm i a Hi) as Hn.
  set (n := 2 + Z.of_nat i) in *.
  assert (E2 := ilock_made im [opened_as 1 f0; f1] 0 (opened_as 1 f0) eq_refl (proj2 Hf0) eq_refl ltac:(cbn; lia)
    ltac:(cbn [inum opened_as]; by rewrite Ht)).
  assert (E4 := ilock_made im [root_ip im f0; opened_as n f1] 1 (opened_as n f1) eq_refl (proj2 Hf1) eq_refl ltac:(cbn; lia)
    ltac:(cbn [inum opened_as]; rewrite (nd_type _ _ _ _ _ Hn); done)).
  eexists s, _, _, _, _, _. split; [done|]. split; [exact (iget_first im ROOTINO f0 f1 (proj1 Hf0) (proj1 Hf1))|].
  split; [exact E2|]. split; [exact (root_lookup host args im _ dev_read f0 f1 i a Hm Hlen H32 Hi Hfirst (proj1 Hf1))|].
  split; [exact E4|]. by apply (file_read dev_read im _ n _ _ 1 f1 Hn).
Qed.

(** The root directory's size is rounded up by a whole block when it needs no
    rounding: with [.], [..] and the files together a multiple of 32, the size
    that [mkfs] stores covers one block more than the directory has. *)
Theorem mkfs_root_block_missing creat host out args :
  creat out = true -> Forall (good_arg host) args -> (length args <= 198)%nat ->
  59 + cost (Z.of_nat (length (root_bytes args))) + blocks_of (file_nodes host args) <= 1000 ->
  (2 + Z.of_nat (length args)) mod 32 = 0 ->
  exists s, main creat host (out :: args) start_state = Ret tt s /\
    let d := dnode (img s) 1 in let n := Z.of_nat (length (root_bytes args)) in
    d_size d = n + 512 /\ sl (kst (img s)) (ip_of 1 d) (n / 512) = 0.
Proof.
  intros Hc Hg Hlen Hroom H32. destruct (main_spec creat host out args Hc Hg Hlen Hroom) as (s & E & Hm). exists s.
  split; [done|]. cbn zeta. destruct (md_root _ _ _ _ Hm) as [_ Hs]. pose proof (md_root_file _ _ _ _ Hm) as Hf.
  rewrite Hs, length_root_bytes in *. split; [Z.div_mod_to_equations; lia|]. set (q := _ / 512).
  destruct (Z.eq_dec (slot (img s) (dnode (img s) 1) q) 0) as [|Hn]; [done|].
  apply (fk_held _ _ _ _ Hf) in Hn; [|unfold q; Z.div_mod_to_equations; lia]. unfold held, nblk, q in Hn.
  rewrite decide_False in Hn by (Z.div_mod_to_equations; lia). Z.div_mod_to_equations. lia.
Qed.

(** ** A command line *)

(** [mkfs fs.img README _cat], the second file read in two pieces. *)
Definition ex_readme : list Z := [82; 69; 65; 68; 77; 69].
Definition ex_cat : list Z := [95; 99; 97; 116].
Definition ex_host (a : list Z) : option (list (list Z)) :=
  if bool_decide (a = ex_readme) then Some [[104; 105]]
  else if bool_decide (a = ex_cat) then Some [replicate 512 7; [8; 9]] else None.

Lemma ex_good : Forall (good_arg ex_host) [ex_readme; ex_cat].
Proof.
  apply Forall_cons; split; [|apply Forall_singleton]; split.
  1, 6: by vm_compute.
  1, 5: by apply (bool_decide_unpack _).
  1, 4: by apply (bool_decide_unpack _).
  1, 3: intros chunks [= <-]; by apply (bool_decide_unpack _); vm_compute.
  all: by vm_compute.
Qed.

Lemma mkfs_makes_fs_witness : exists s, main (fun _ => true) ex_host [[]; ex_readme; ex_cat] start_state = Ret tt s /\
  fs_ok 2 LOGSIZE 59 (kst (img s)).
Proof.
  destruct (mkfs_makes_fs (fun _ => true) ex_host [] [ex_readme; ex_cat]) as (s & E & _ & Hf & _).
  - reflexivity.
  - exact ex_good.
  - cbn. lia.
  - vm_compute. discriminate.
  - exists s. split; [exact E|exact Hf].
Defined.

Definition ex_free : inode := mk_inode 0 0 0 false false 0 0 0 0 0 [].

(** The kernel finds [cat] and reads its 514 bytes. *)
Lemma mkfs_files_readable_witness : exists s s1 s2 s3 s4 off,
  main (fun _ => true) ex_host [[]; ex_readme; ex_cat] start_state = Ret tt s /\
  iget ROOTDEV ROOTINO (mk_fstate (ds (kst (img s))) mk_sb [ex_free; ex_free]) = Ret 0%nat s1 /\
  ilock (Some 0%nat) s1 = Ret tt s2 /\ dirlookup (fun _ => None) 0 [99; 97; 116] s2 = Ret (Some (1%nat, off)) s3 /\
  ilock (Some 1%nat) s3 = Ret tt s4 /\ readi (fun _ => None) 1 0 514 s4 = Ret (Some (replicate 512 7 ++ [8; 9])) s4.
Proof.
  apply (mkfs_files_readable (fun _ => true) ex_host [] [ex_readme; ex_cat] 1 ex_cat (fun _ => None) ex_free ex_free).
  - reflexivity.
  - exact ex_good.
  - cbn. lia.
  - vm_compute. discriminate.
  - vm_compute. discriminate.
  - reflexivity.
  - intros k e Hk He. destruct k as [|[|[|k]]]; [injection He as <-; vm_compute; discriminate..|lia].
  - split; reflexivity.
  - split; reflexivity.
Defined.

(** 30 empty files. *)
Definition ex_many : list (list Z) := (fun k => [97; 48 + Z.of_nat k]) <$> seq 0 30.

Lemma mkfs_root_block_missing_witness : exists s, main (fun _ => true) (fun _ => Some []) ([] :: ex_many) start_state = Ret tt s /\
  d_size (dnode (img s) 1) = 1024.
Proof.
  destruct (mkfs_root_block_missing (fun _ => true) (fun _ => Some []) [] ex_many) as (s & E & H & _).
  - reflexivity.
  - apply Forall_fmap, Forall_seq. intros k Hk. split.
    + discriminate.
    + rewrite !not_elem_of_cons. split; [lia|]. split; [lia|]. apply not_elem_of_nil.
    + repeat constructor; lia.
    + intros chunks [= <-]. constructor.
    + vm_compute. discriminate.
  - cbn. lia.
  - vm_compute. discriminate.
  - reflexivity.
  - exists s. split; [exact E|exact H].
Defined.
