(* ===== verification/Mp.v ===== *)
(** * Finding the processors (mp.c)

    The search for the MP floating pointer and configuration table that the
    BIOS left in memory, and the walk over the table that fills [cpus] and sets
    [ioapicid].  Memory is what the kernel's mapping at [KERNBASE] shows. *)
From S2P Require Import Prelude Memory Mmu.

Definition NCPU : Z := 8.
Definition MPPROC : Z := 0x00.
Definition MPBUS : Z := 0x01.
Definition MPIOAPIC : Z := 0x02.
Definition MPIOINTR : Z := 0x03.
Definition MPLINTR : Z := 0x04.
Definition sizeof_mp : Z := 16.
Definition sizeof_mpconf : Z := 44.
Definition sizeof_mpproc : Z := 20.
Definition sizeof_mpioapic : Z := 8.

(** The globals that [mpinit] sets, memory, and the ports: what has been
    written to them, and what a read returns. *)
Record mpstate := mk_mpstate {
  mmem : mem;
  apicids : list Z;  (* cpus[0..ncpu-1].apicid *)
  ioapicid : Z;
  lapic : Z;
  port_in : Z -> Z;
  port_out : list (Z * Z)
}.
Definition P := M mpstate.
Definition ncpu (s : mpstate) : Z := Z.of_nat (length (apicids s)).

Definition outb (port v : Z) : P unit :=
  modify (fun s => mk_mpstate (mmem s) (apicids s) (ioapicid s) (lapic s) (port_in s) (port_out s ++ [(port, u8 v)])).
Definition inb (port : Z) : P Z := gets (fun s => u8 (port_in s port)).

(** ** Searching *)

Fixpoint sum_loop (m : mem) (addr : Z) (n : nat) (sum : Z) : Z :=
  match n with
  | O => sum
  | S k => sum_loop m (addr + 1) k (sum + read8 m addr)
  end.
(** The [int] sum cannot overflow: a table has at most 65535 bytes. *)
Definition sum (m : mem) (addr len : Z) : Z := u8 (sum_loop m addr (Z.to_nat len) 0).

(** [memcmp(p, s, 4) == 0] *)
Definition is_sig (m : mem) (p : Z) (c0 c1 c2 c3 : Z) : bool :=
  (read8 m p =? c0) && (read8 m (p + 1) =? c1) && (read8 m (p + 2) =? c2) && (read8 m (p + 3) =? c3).
Definition mp_here (m : mem) (p : Z) : bool :=
  is_sig m p 95 77 80 95 && (sum m p sizeof_mp =? 0).

Fixpoint mpsearch1_loop (m : mem) (p e : Z) (fuel : nat) : option Z :=
  match fuel with
  | O => None
  | S k =>
      if p <? e then if mp_here m p then Some p else mpsearch1_loop m (p + sizeof_mp) e k
      else None
  end.
(** The length is a multiple of 16: the loop makes [len / 16] turns. *)
Definition mpsearch1 (m : mem) (a len : Z) : option Z :=
  let addr := P2V a in
  mpsearch1_loop m addr (addr + len) (Z.to_nat (len / sizeof_mp)).

Definition mpsearch (m : mem) : option Z :=
  let bda := P2V 0x400 in
  let p := Z.shiftl (Z.lor (Z.shiftl (read8 m (bda + 0x0F)) 8) (read8 m (bda + 0x0E))) 4 in
  let found :=
    if negb (p =? 0) then mpsearch1 m p 1024
    else
      let p := Z.lor (Z.shiftl (read8 m (bda + 0x14)) 8) (read8 m (bda + 0x13)) * 1024 in
      mpsearch1 m (u32 (p - 1024)) 1024 in
  match found with
  | Some mp => Some mp
  | None => mpsearch1 m 0xF0000 0x10000
  end.

(** Fields of [struct mp] and [struct mpconf]. *)
Definition mp_physaddr (m : mem) (mp : Z) : Z := read32 m (mp + 4).
Definition mp_imcrp (m : mem) (mp : Z) : Z := read8 m (mp + 12).
Definition conf_length (m : mem) (conf : Z) : Z := read16 m (conf + 4).
Definition conf_version (m : mem) (conf : Z) : Z := read8 m (conf + 6).
Definition conf_lapicaddr (m : mem) (conf : Z) : Z := read32 m (conf + 36).

(** The configuration table and the floating pointer. *)
Definition mpconfig (m : mem) : option (Z * Z) :=
  match mpsearch m with
  | None => None
  | Some mp =>
      if mp_physaddr m mp =? 0 then None
      else
        let conf := P2V (mp_physaddr m mp) in
        if negb (is_sig m conf 80 67 77 80) then None
        else if negb (conf_version m conf =? 1) && negb (conf_version m conf =? 4) then None
        else if negb (sum m conf (conf_length m conf) =? 0) then None
        else Some (conf, mp)
  end.

(** ** The walk over the table *)

Definition add_cpu (id : Z) : P unit :=
  modify (fun s => if ncpu s <? NCPU then
    mk_mpstate (mmem s) (apicids s ++ [id]) (ioapicid s) (lapic s) (port_in s) (port_out s) else s).
Definition set_ioapicid (id : Z) : P unit :=
  modify (fun s => mk_mpstate (mmem s) (apicids s) id (lapic s) (port_in s) (port_out s)).
Definition set_lapic (a : Z) : P unit :=
  modify (fun s => mk_mpstate (mmem s) (apicids s) (ioapicid s) a (port_in s) (port_out s)).

(** The [break] of the default case leaves the [switch], not the loop, and [p]
    stays where it is.  The result is [ismp]. *)
Fixpoint mpinit_loop (fuel : nat) (p e : Z) (ismp : bool) : P bool :=
  match fuel with
  | O => fun _ => OutOfFuel
  | S k =>
      if p <? e then
        let* m := gets mmem in
        let t := read8 m p in
        if t =? MPPROC then
          do* add_cpu (read8 m (p + 1)) in
          mpinit_loop k (p + sizeof_mpproc) e ismp
        else if t =? MPIOAPIC then
          do* set_ioapicid (read8 m (p + 1)) in
          mpinit_loop k (p + sizeof_mpioapic) e ismp
        else if (t =? MPBUS) || (t =? MPIOINTR) || (t =? MPLINTR) then
          mpinit_loop k (p + 8) e ismp
        else mpinit_loop k p e false
      else ret ismp
  end.

Definition mpinit (fuel : nat) : P unit :=
  let* m := gets mmem in
  match mpconfig m with
  | None => panic "Expect to run on an SMP"
  | Some (conf, mp) =>
      do* set_lapic (conf_lapicaddr m conf) in
      let* ismp := mpinit_loop fuel (conf + sizeof_mpconf) (conf + conf_length m conf) true in
      if negb ismp then panic "Didn't find a suitable machine"
      else if negb (mp_imcrp m mp =? 0) then
        do* outb 0x22 0x70 in
        let* v := inb 0x23 in
        outb 0x23 (Z.lor v 1)
      else ret tt
  end.

(** ** The search finds the first structure *)

(** A floating pointer at one of the 16-byte steps. *)
Lemma mpsearch1_loop_spec m n : forall p e, e = p + 16 * Z.of_nat n ->
  match mpsearch1_loop m p e n with
  | Some q => exists k, (k < n)%nat /\ q = p + 16 * Z.of_nat k /\ mp_here m q = true /\
      forall j, (j < k)%nat -> mp_here m (p + 16 * Z.of_nat j) = false
  | None => forall j, (j < n)%nat -> mp_here m (p + 16 * Z.of_nat j) = false
  end.
Proof.
  induction n as [|n IH]; intros p e ->; cbn [mpsearch1_loop]; [lia|].
  destruct (Z.ltb_spec p (p + 16 * Z.of_nat (S n))); [|lia]. destruct (mp_here m p) eqn:E.
  - exists 0%nat. split; [lia|]. split; [lia|]. split; [done|lia].
  - change sizeof_mp with 16. replace (p + 16 * Z.of_nat (S n)) with (p + 16 + 16 * Z.of_nat n) by lia. specialize (IH (p + 16) _ eq_refl).
    assert (Hj : forall j, (0 < j)%nat -> p + 16 * Z.of_nat j = p + 16 + 16 * Z.of_nat (j - 1)) by lia.
    destruct (mpsearch1_loop _ _ _ _) as [q|].
    + destruct IH as (k & Hk & -> & Hh & Hf). exists (S k). split; [lia|]. split; [lia|]. split; [done|].
      intros [|j] Hlt; [by rewrite Z.add_0_r|]. rewrite Hj by lia. apply Hf. lia.
    + intros [|j] Hlt; [by rewrite Z.add_0_r|]. rewrite Hj by lia. apply IH. lia.
Qed.

(** [mpsearch1] over [len] bytes finds the first of the 16-byte steps where the
    signature is right and the bytes add up to 0, and nothing when there is
    none. *)
Theorem mpsearch1_first m a len : len mod 16 = 0 -> 0 <= len ->
  match mpsearch1 m a len with
  | Some q => exists k, 0 <= 16 * k < len /\ q = P2V a + 16 * k /\ mp_here m q = true /\
      forall j, 0 <= j < k -> mp_here m (P2V a + 16 * j) = false
  | None => forall j, 0 <= 16 * j < len -> mp_here m (P2V a + 16 * j) = false
  end.
Proof.
  intros Hm Hl. unfold mpsearch1. change sizeof_mp with 16.
  assert (He : P2V a + len = P2V a + 16 * Z.of_nat (Z.to_nat (len / 16))) by (Z.div_mod_to_equations; lia).
  assert (Hn : 16 * Z.of_nat (Z.to_nat (len / 16)) = len) by (Z.div_mod_to_equations; lia).
  pose proof (mpsearch1_loop_spec m _ _ _ He) as H. destruct (mpsearch1_loop _ _ _ _) as [q|].
  - destruct H as (k & Hk & -> & Hh & Hf). exists (Z.of_nat k). split; [lia|]. split; [done|]. split; [done|].
    intros j Hj. rewrite <- (Z2Nat.id j) by lia. apply Hf. lia.
  - intros j Hj. rewrite <- (Z2Nat.id j) by lia. apply H. lia.
Qed.

(** ** The walk, on tables *)

Inductive mpentry :=
| Proc (apicid : Z)
| Bus
| Ioapic (apicno : Z)
| Iointr
| Lintr.

Definition entry_size (x : mpentry) : Z := match x with Proc _ => 20 | _ => 8 end.
Definition entry_at (m : mem) (p : Z) (x : mpentry) : Prop :=
  match x with
  | Proc id => read8 m p = MPPROC /\ read8 m (p + 1) = id
  | Ioapic id => read8 m p = MPIOAPIC /\ read8 m (p + 1) = id
  | Bus => read8 m p = MPBUS
  | Iointr => read8 m p = MPIOINTR
  | Lintr => read8 m p = MPLINTR
  end.
(** The entries from [p] to [e]. *)
Fixpoint table_at (m : mem) (p e : Z) (l : list mpentry) : Prop :=
  match l with
  | [] => p = e
  | x :: l' => entry_at m p x /\ table_at m (p + entry_size x) e l'
  end.

(** The processors, in order, as many as [cpus] has places for. *)
Fixpoint add_cpus (ids : list Z) (l : list mpentry) : list Z :=
  match l with
  | [] => ids
  | Proc id :: l' => add_cpus (if Z.of_nat (length ids) <? NCPU then ids ++ [id] else ids) l'
  | _ :: l' => add_cpus ids l'
  end.
Definition procs (l : list mpentry) : list Z := omap (fun x => match x with Proc id => Some id | _ => None end) l.
Definition last_ioapic (d : Z) (l : list mpentry) : Z :=
  fold_left (fun d x => match x with Ioapic id => id | _ => d end) l d.

Lemma table_le m l : forall p e, table_at m p e l -> p + 8 * Z.of_nat (length l) <= e.
Proof.
  induction l as [|x l IH]; intros p e H; cbn [table_at length] in *; [lia|]. destruct H as [_ H%IH]. destruct x; cbn in H; lia.
Qed.

Lemma mpinit_loop_spec l : forall fuel p e s, table_at (mmem s) p e l -> (length l < fuel)%nat ->
  mpinit_loop fuel p e true s =
  Ret true (mk_mpstate (mmem s) (add_cpus (apicids s) l) (last_ioapic (ioapicid s) l) (lapic s) (port_in s) (port_out s)).
Proof.
  induction l as [|x l IH]; intros fuel p e s Ht Hf; (destruct fuel as [|fuel]; [cbn in Hf; lia|]); cbn [mpinit_loop].
  - cbn in Ht. subst. rewrite Z.ltb_irrefl. by destruct s.
  - pose proof (table_le _ _ _ _ Ht) as Hle. cbn [length] in *. destruct (Z.ltb_spec p e); [|lia]. destruct Ht as [Hx Ht].
    unfold gets, bind. destruct x as [id| |id| |]; cbn [entry_at entry_size] in Hx, Ht.
    all: lazymatch type of Hx with _ /\ _ => destruct Hx as [Hx <-] | _ => idtac end; rewrite Hx; cbn [Z.eqb MPPROC MPIOAPIC MPBUS MPIOINTR MPLINTR Pos.eqb orb].
    + unfold add_cpu, modify, ncpu. change sizeof_mpproc with 20. cbn [add_cpus].
      destruct (Z.of_nat (length (apicids s)) <? NCPU); by rewrite IH by (done || lia).
    + by rewrite IH by (done || lia).
    + unfold set_ioapicid, modify. change sizeof_mpioapic with 8. by rewrite IH by (done || lia).
    + by rewrite IH by (done || lia).
    + by rewrite IH by (done || lia).
Qed.

Lemma add_cpus_take l : forall ids, add_cpus ids l = ids ++ take (Z.to_nat NCPU - length ids) (procs l).
Proof.
  induction l as [|x l IH]; intros ids; cbn [add_cpus procs omap list_omap].
  - by rewrite take_nil, app_nil_r.
  - destruct x as [id| |id| |]; fold (procs l); try by rewrite IH. rewrite IH. unfold NCPU.
    destruct (Z.ltb_spec (Z.of_nat (length ids)) 8) as [H|H].
    + rewrite length_app, <- app_assoc. cbn [length app]. f_equal.
      replace (Z.to_nat 8 - length ids)%nat with (S (Z.to_nat 8 - (length ids + 1)))%nat by lia. done.
    + by replace (Z.to_nat 8 - length ids)%nat with 0%nat by lia.
Qed.

(** A machine whose configuration table has only the five kinds of entry of the
    specification.  With more fuel than the table has entries, [mpinit] returns;
    [cpus] holds the local APIC numbers of the first [NCPU] processors in the
    order of the table, [ioapicid] the number of the last I/O APIC, and [lapic]
    the address from the header. *)
Theorem mpinit_reads_table s conf mp l fuel :
  mpconfig (mmem s) = Some (conf, mp) -> apicids s = [] ->
  table_at (mmem s) (conf + sizeof_mpconf) (conf + conf_length (mmem s) conf) l -> (length l < fuel)%nat ->
  exists s', mpinit fuel s = Ret tt s' /\ apicids s' = take (Z.to_nat NCPU) (procs l) /\
    ioapicid s' = last_ioapic (ioapicid s) l /\ lapic s' = conf_lapicaddr (mmem s) conf /\ mmem s' = mmem s /\
    ncpu s' <= NCPU.
Proof.
  intros Hc Ha Ht Hf. unfold mpinit, gets. unfold bind at 1. rewrite Hc. unfold set_lapic, modify. unfold bind at 1.
  set (s1 := mk_mpstate _ _ _ _ _ _). rewrite (bind_Ret _ _ _ _ _ (mpinit_loop_spec l fuel _ _ s1 Ht Hf)). cbn [negb].
  assert (Hids : add_cpus (apicids s1) l = take (Z.to_nat NCPU) (procs l)).
  { change (apicids s1) with (apicids s). by rewrite Ha, add_cpus_take. }
  rewrite Hids.
  destruct (mp_imcrp (mmem s) mp =? 0); cbn [negb]; (eexists; split; [reflexivity|]; cbn; split_and!; try done);
    unfold ncpu; cbn; rewrite length_take; unfold NCPU; lia.
Qed.

(** An entry of any other kind hangs the machine: once the walk has come to it,
    it never gets past it, and the panic that is meant for it is not reached. *)
Theorem mpinit_unknown_entry_hangs s conf mp l p fuel :
  mpconfig (mmem s) = Some (conf, mp) -> table_at (mmem s) (conf + sizeof_mpconf) p l ->
  p < conf + conf_length (mmem s) conf -> 4 < read8 (mmem s) p -> mpinit fuel s = OutOfFuel.
Proof.
  intros Hc Ht Hp Hk. unfold mpinit, gets. unfold bind at 1. rewrite Hc. unfold set_lapic, modify. unfold bind at 1.
  set (s1 := mk_mpstate _ _ _ _ _ _). set (e := conf + conf_length (mmem s) conf) in *.
  assert (Hstay : forall n b s', mmem s' = mmem s -> mpinit_loop n p e b s' = OutOfFuel).
  { induction n as [|n IH]; intros b s' Hm; [done|]. cbn [mpinit_loop]. destruct (Z.ltb_spec p e); [|lia].
    unfold gets, bind. rewrite Hm. unfold MPPROC, MPIOAPIC, MPBUS, MPIOINTR, MPLINTR.
    repeat match goal with |- context [read8 ?m ?a =? ?k] => destruct (Z.eqb_spec (read8 m a) k); [lia|] end. by apply IH. }
  assert (Hwalk : forall l n q s', mmem s' = mmem s -> table_at (mmem s) q p l -> mpinit_loop n q e true s' = OutOfFuel).
  { clear Ht l. induction l as [|x l IH]; intros n q s' Hm Hq; [cbn in Hq; subst; by apply Hstay|].
    destruct n as [|n]; [done|]. cbn [mpinit_loop]. pose proof (table_le _ _ _ _ Hq) as Hle. cbn [length] in Hle.
    destruct (Z.ltb_spec q e); [|lia]. destruct Hq as [Hx Hq]. unfold gets, bind. rewrite Hm.
    destruct x as [id| |id| |]; cbn [entry_at entry_size] in Hx, Hq.
    all: lazymatch type of Hx with _ /\ _ => destruct Hx as [Hx <-] | _ => idtac end; rewrite Hx; cbn [Z.eqb MPPROC MPIOAPIC MPBUS MPIOINTR MPLINTR Pos.eqb orb].
    all: unfold add_cpu, set_ioapicid, modify; try apply IH; try done. by destruct (_ <? _). }
  unfold bind. by rewrite (Hwalk l fuel _ s1 eq_refl Ht).
Qed.

(** ** A machine with two processors *)

Fixpoint put (m : mem) (a : Z) (l : list Z) : mem :=
  match l with [] => m | b :: l' => put (write8 m a b) (a + 1) l' end.
(** Store a structure whose byte [k] makes the bytes add up to 0. *)
Definition put_checked (m : mem) (a : Z) (k : nat) (l : list Z) : mem :=
  put m a (<[k := u8 (- fold_right Z.add 0 l)]> l).

(** Two processors with APIC numbers 0 and 4, a bus, and an entry of kind [t]
    with number 2. *)
Definition ex_table (t : Z) : list Z :=
  [80; 67; 77; 80; 100; 0; 1; 0] ++ replicate 28 0 ++ [0; 0; 224; 254] ++ replicate 4 0 ++
  ([0; 0] ++ replicate 18 0) ++ ([0; 4] ++ replicate 18 0) ++ ([1] ++ replicate 7 0) ++ ([t; 2] ++ replicate 6 0).
Definition ex_fptr : list Z := [95; 77; 80; 95; 0; 1; 15; 0; 1; 4; 0; 0; 0; 0; 0; 0].
Definition ex_machine (t : Z) : mpstate :=
  mk_mpstate (put_checked (put_checked ∅ (P2V 0xF0000) 10 ex_fptr) (P2V 0xF0100) 7 (ex_table t)) [] 0 0 (fun _ => 0) [].

Lemma mpsearch1_first_witness : mpsearch1 (mmem (ex_machine 2)) 0xF0000 0x10000 = Some (P2V 0xF0000) /\
  match mpsearch1 (mmem (ex_machine 2)) 0xF0000 0x10000 with
  | Some q => exists k, 0 <= 16 * k < 0x10000 /\ q = P2V 0xF0000 + 16 * k /\ mp_here (mmem (ex_machine 2)) q = true /\
      forall j, 0 <= j < k -> mp_here (mmem (ex_machine 2)) (P2V 0xF0000 + 16 * j) = false
  | None => forall j, 0 <= 16 * j < 0x10000 -> mp_here (mmem (ex_machine 2)) (P2V 0xF0000 + 16 * j) = false
  end.
Proof. split; [vm_compute; reflexivity|]. apply (mpsearch1_first (mmem (ex_machine 2)) 0xF0000 0x10000); [reflexivity|lia]. Defined.

Lemma mpinit_reads_table_witness : exists s', mpinit 5 (ex_machine 2) = Ret tt s' /\ apicids s' = [0; 4] /\ ioapicid s' = 2.
Proof.
  destruct (mpinit_reads_table (ex_machine 2) (P2V 0xF0100) (P2V 0xF0000) [Proc 0; Proc 4; Bus; Ioapic 2] 5)
    as (s' & E & H1 & H2 & _).
  - vm_compute. reflexivity.
  - reflexivity.
  - vm_compute. auto 10.
  - cbn. lia.
  - exists s'. split; [exact E|]. split; [exact H1|exact H2].
Defined.

Lemma mpinit_unknown_entry_hangs_witness : mpinit 1000 (ex_machine 9) = OutOfFuel.
Proof.
  apply (mpinit_unknown_entry_hangs (ex_machine 9) (P2V 0xF0100) (P2V 0xF0000) [Proc 0; Proc 4; Bus] (P2V 0xF0100 + 92)).
  - vm_compute. reflexivity.
  - vm_compute. auto 10.
  - vm_compute. reflexivity.
  - vm_compute. reflexivity.
Defined.
