(* ===== verification/Apic.v ===== *)
(** * Interrupt controllers and the clock chip (lapic.c, ioapic.c, picirq.c)

    The local APIC and the clock chip answer reads as they please: what the
    [k]-th read of a register returns is an argument of the model.  The I/O APIC
    is a file of registers behind an index and a data register.  What the code
    does to the devices is recorded in the order in which it does it. *)
From S2P Require Import Prelude Traps Memory Mmu.


(** ** State *)

Record apic := mk_apic {
  lapic_on : bool;              (* lapic != 0 *)
  lapic_out : list (Z * Z);     (* writes to the local APIC *)
  ticks : nat;                  (* reads of the local APIC and of the clock so far *)
  ports : list (Z * Z);         (* outb *)
  cmos_index : Z;               (* last value written to CMOS_PORT *)
  amem : mem;
  io_reg : Z;
  io_data : gmap Z Z;           (* the registers behind ioapic->data *)
  messages : list string
}.
Definition A := M apic.

Definition add_lapic (w : Z * Z) (s : apic) : apic :=
  mk_apic (lapic_on s) (lapic_out s ++ [w]) (ticks s) (ports s) (cmos_index s) (amem s) (io_reg s) (io_data s) (messages s).
Definition tick (s : apic) : apic :=
  mk_apic (lapic_on s) (lapic_out s) (S (ticks s)) (ports s) (cmos_index s) (amem s) (io_reg s) (io_data s) (messages s).
Definition add_port (w : Z * Z) (s : apic) : apic :=
  mk_apic (lapic_on s) (lapic_out s) (ticks s) (ports s ++ [w]) (if w.1 =? 0x70 then w.2 else cmos_index s) (amem s)
    (io_reg s) (io_data s) (messages s).
Definition set_amem (m : mem) (s : apic) : apic :=
  mk_apic (lapic_on s) (lapic_out s) (ticks s) (ports s) (cmos_index s) m (io_reg s) (io_data s) (messages s).
Definition set_io_reg (r : Z) (s : apic) : apic :=
  mk_apic (lapic_on s) (lapic_out s) (ticks s) (ports s) (cmos_index s) (amem s) r (io_data s) (messages s).
Definition set_io_data (v : Z) (s : apic) : apic :=
  mk_apic (lapic_on s) (lapic_out s) (ticks s) (ports s) (cmos_index s) (amem s) (io_reg s) (<[io_reg s := v]> (io_data s)) (messages s).
Definition say (msg : string) (s : apic) : apic :=
  mk_apic (lapic_on s) (lapic_out s) (ticks s) (ports s) (cmos_index s) (amem s) (io_reg s) (io_data s) (messages s ++ [msg]).

Definition outb (port v : Z) : A unit := modify (add_port (port, u8 v)).

(** ** The 8259A (picirq.c) *)

Definition IO_PIC1 : Z := 0x20.
Definition IO_PIC2 : Z := 0xA0.
Definition picinit : A unit :=
  do* outb (IO_PIC1 + 1) 0xFF in
  outb (IO_PIC2 + 1) 0xFF.

(** ** The I/O APIC (ioapic.c) *)

Definition REG_ID : Z := 0x00.
Definition REG_VER : Z := 0x01.
Definition REG_TABLE : Z := 0x10.
Definition INT_DISABLED : Z := 0x00010000.

Definition ioapicread (reg : Z) : A Z :=
  do* modify (set_io_reg (u32 reg)) in
  gets (fun s => u32 (default 0 (io_data s !! io_reg s))).
Definition ioapicwrite (reg data : Z) : A unit :=
  do* modify (set_io_reg (u32 reg)) in
  modify (set_io_data (u32 data)).

Fixpoint ioapicinit_loop (n : nat) (i : Z) : A unit :=
  match n with
  | O => ret tt
  | S k =>
      do* ioapicwrite (REG_TABLE + 2 * i) (Z.lor INT_DISABLED (T_IRQ0 + i)) in
      do* ioapicwrite (REG_TABLE + 2 * i + 1) 0 in
      ioapicinit_loop k (i + 1)
  end.
(** [for(i = 0; i <= maxintr; i++)] makes [maxintr + 1] turns. *)
Definition ioapicinit (ioapicid : Z) : A unit :=
  let* v := ioapicread REG_VER in
  let maxintr := Z.land (Z.shiftr v 16) 0xFF in
  let* v := ioapicread REG_ID in
  let id := Z.shiftr v 24 in
  do* (if negb (id =? ioapicid) then modify (say "ioapicinit: id isn't equal to ioapicid; not a MP")
       else ret tt) in
  ioapicinit_loop (Z.to_nat (maxintr + 1)) 0.

Definition ioapicenable (irq cpunum : Z) : A unit :=
  do* ioapicwrite (REG_TABLE + 2 * irq) (T_IRQ0 + irq) in
  ioapicwrite (REG_TABLE + 2 * irq + 1) (Z.shiftl cpunum 24).

(** ** The local APIC (lapic.c) *)

Definition ID : Z := 0x0020 / 4.
Definition VER : Z := 0x0030 / 4.
Definition TPR : Z := 0x0080 / 4.
Definition EOI : Z := 0x00B0 / 4.
Definition SVR : Z := 0x00F0 / 4.
Definition ENABLE : Z := 0x00000100.
Definition ESR : Z := 0x0280 / 4.
Definition ICRLO : Z := 0x0300 / 4.
Definition INIT : Z := 0x00000500.
Definition STARTUP : Z := 0x00000600.
Definition DELIVS : Z := 0x00001000.
Definition ASSERT : Z := 0x00004000.
Definition LEVEL : Z := 0x00008000.
Definition BCAST : Z := 0x00080000.
Definition ICRHI : Z := 0x0310 / 4.
Definition TIMER : Z := 0x0320 / 4.
Definition X1 : Z := 0x0000000B.
Definition PERIODIC : Z := 0x00020000.
Definition PCINT : Z := 0x0340 / 4.
Definition LINT0 : Z := 0x0350 / 4.
Definition LINT1 : Z := 0x0360 / 4.
Definition ERROR : Z := 0x0370 / 4.
Definition MASKED : Z := 0x00010000.
Definition TICR : Z := 0x0380 / 4.
Definition TDCR : Z := 0x03E0 / 4.

Section Devices.
(** What the [k]-th read returns: of a local APIC register, and of a register of
    the clock chip. *)
Context (lapic_reg : nat -> Z -> Z) (cmos : nat -> Z -> Z).

Definition lapicr (index : Z) : A Z :=
  let* k := gets ticks in
  do* modify tick in
  ret (u32 (lapic_reg k index)).
Definition lapicw (index value : Z) : A unit :=
  do* modify (add_lapic (index, u32 value)) in
  do* lapicr ID in
  ret tt.

Fixpoint wait_delivered (fuel : nat) : A unit :=
  match fuel with
  | O => fun _ => OutOfFuel
  | S k =>
      let* v := lapicr ICRLO in
      if negb (Z.land v DELIVS =? 0) then wait_delivered k else ret tt
  end.

Definition lapicinit (fuel : nat) : A unit :=
  let* on := gets lapic_on in
  if negb on then ret tt
  else
    do* lapicw SVR (Z.lor ENABLE (T_IRQ0 + IRQ_SPURIOUS)) in
    do* lapicw TDCR X1 in
    do* lapicw TIMER (Z.lor PERIODIC (T_IRQ0 + IRQ_TIMER)) in
    do* lapicw TICR 10000000 in
    do* lapicw LINT0 MASKED in
    do* lapicw LINT1 MASKED in
    let* v := lapicr VER in
    do* (if 4 <=? Z.land (Z.shiftr v 16) 0xFF then lapicw PCINT MASKED else ret tt) in
    do* lapicw ERROR (T_IRQ0 + IRQ_ERROR) in
    do* lapicw ESR 0 in
    do* lapicw ESR 0 in
    do* lapicw EOI 0 in
    do* lapicw ICRHI 0 in
    do* lapicw ICRLO (Z.lor (Z.lor BCAST INIT) LEVEL) in
    do* wait_delivered fuel in
    lapicw TPR 0.

Definition lapicid : A Z :=
  let* on := gets lapic_on in
  if negb on then ret 0
  else
    let* v := lapicr ID in
    ret (Z.shiftr v 24).

Definition lapiceoi : A unit :=
  let* on := gets lapic_on in
  if on then lapicw EOI 0 else ret tt.

Definition microdelay (us : Z) : A unit := ret tt.

Definition CMOS_PORT : Z := 0x70.
Definition CMOS_RETURN : Z := 0x71.

Fixpoint send_startup (n : nat) (apicid addr : Z) : A unit :=
  match n with
  | O => ret tt
  | S k =>
      do* lapicw ICRHI (Z.shiftl apicid 24) in
      do* lapicw ICRLO (Z.lor STARTUP (Z.shiftr addr 12)) in
      do* microdelay 200 in
      send_startup k apicid addr
  end.

Definition lapicstartap (apicid addr : Z) : A unit :=
  do* outb CMOS_PORT 0xF in
  do* outb (CMOS_PORT + 1) 0x0A in
  let wrv := P2V (Z.lor (Z.shiftl 0x40 4) 0x67) in
  do* modify (fun s => set_amem (write16 (write16 (amem s) wrv 0) (wrv + 2) (Z.shiftr addr 4)) s) in
  do* lapicw ICRHI (Z.shiftl apicid 24) in
  do* lapicw ICRLO (Z.lor (Z.lor INIT LEVEL) ASSERT) in
  do* microdelay 200 in
  do* lapicw ICRLO (Z.lor INIT LEVEL) in
  do* microdelay 100 in
  send_startup 2 apicid addr.

(** ** The clock *)

Definition CMOS_STATA : Z := 0x0a.
Definition CMOS_STATB : Z := 0x0b.
Definition CMOS_UIP : Z := Z.shiftl 1 7.
Definition SECS : Z := 0x00.
Definition MINS : Z := 0x02.
Definition HOURS : Z := 0x04.
Definition DAY : Z := 0x07.
Definition MONTH : Z := 0x08.
Definition YEAR : Z := 0x09.

(** [struct rtcdate] *)
Record rtcdate := mk_rtcdate { second : Z; minute : Z; hour : Z; day : Z; month : Z; year : Z }.
#[global] Instance rtcdate_eq_dec : EqDecision rtcdate.
Proof. solve_decision. Defined.

Definition cmos_read (reg : Z) : A Z :=
  do* outb CMOS_PORT reg in
  do* microdelay 200 in
  let* k := gets ticks in
  let* i := gets cmos_index in
  do* modify tick in
  ret (u8 (cmos k i)).

Definition fill_rtcdate : A rtcdate :=
  let* s := cmos_read SECS in
  let* mi := cmos_read MINS in
  let* h := cmos_read HOURS in
  let* d := cmos_read DAY in
  let* mo := cmos_read MONTH in
  let* y := cmos_read YEAR in
  ret (mk_rtcdate s mi h d mo y).

Fixpoint read_twice (fuel : nat) : A rtcdate :=
  match fuel with
  | O => fun _ => OutOfFuel
  | S k =>
      let* t1 := fill_rtcdate in
      let* a := cmos_read CMOS_STATA in
      if negb (Z.land a CMOS_UIP =? 0) then read_twice k
      else
        let* t2 := fill_rtcdate in
        if decide (t1 = t2) then ret t1 else read_twice k
  end.

(** [CONV] *)
Definition conv (x : Z) : Z := Z.shiftr x 4 * 10 + Z.land x 0xf.

Definition cmostime (fuel : nat) : A rtcdate :=
  let* sb := cmos_read CMOS_STATB in
  let bcd := Z.land sb (Z.shiftl 1 2) =? 0 in
  let* t1 := read_twice fuel in
  let t1 := if bcd then mk_rtcdate (conv (second t1)) (conv (minute t1)) (conv (hour t1)) (conv (day t1))
                          (conv (month t1)) (conv (year t1)) else t1 in
  ret (mk_rtcdate (second t1) (minute t1) (hour t1) (day t1) (month t1) (year t1 + 2000)).

End Devices.
