(* ===== verification/ApicProof.v ===== *)
(** * The clock and the interrupt routes

    [cmostime] returns a date that the clock chip showed, and [ioapicinit] and
    [ioapicenable] leave the redirection table with exactly the interrupts that
    were enabled. *)
From S2P Require Import Prelude Traps Memory Mmu Apic.

(** ** The clock *)

(** How the chip shows a number below 100. *)
Definition shown (bcd : bool) (x : Z) : Z := if bcd then 16 * (x / 10) + x mod 10 else x.

Lemma conv_shown (bcd : bool) x : 0 <= x < 100 -> (if bcd then conv (u8 (shown bcd x)) else u8 (shown bcd x)) = x.
Proof.
  intros H. rewrite u8_small by (unfold shown; destruct bcd; Z.div_mod_to_equations; lia).
  destruct bcd; [|done]. unfold shown, conv. change 0xf with (Z.ones 4). rewrite Z.land_ones, Z.shiftr_div_pow2 by lia.
  Z.div_mod_to_equations. lia.
Qed.

Section Clock.
Context (cmos : nat -> Z -> Z).

(** The date whose first register is read at [k]. *)
Definition date_at (k : nat) : rtcdate :=
  mk_rtcdate (u8 (cmos k SECS)) (u8 (cmos (k + 1) MINS)) (u8 (cmos (k + 2) HOURS)) (u8 (cmos (k + 3) DAY))
    (u8 (cmos (k + 4) MONTH)) (u8 (cmos (k + 5) YEAR)).
Definition updating (k : nat) : bool := negb (Z.land (u8 (cmos k CMOS_STATA)) CMOS_UIP =? 0).

Lemma cmos_read_spec reg s : 0 <= reg < 256 ->
  exists s', cmos_read cmos reg s = Ret (u8 (cmos (ticks s) reg)) s' /\ ticks s' = S (ticks s).
Proof using Type.
  intros H. eexists. unfold cmos_read, outb, microdelay, gets, modify, bind, ret. cbn.
  rewrite (u8_small reg) by done. split; reflexivity.
Qed.

Lemma fill_spec s : exists s', fill_rtcdate cmos s = Ret (date_at (ticks s)) s' /\ ticks s' = (ticks s + 6)%nat.
Proof using Type.
  unfold fill_rtcdate.
  destruct (cmos_read_spec SECS s ltac:(unfold SECS; lia)) as (s1 & E1 & T1). rewrite (bind_Ret _ _ _ _ _ E1).
  destruct (cmos_read_spec MINS s1 ltac:(unfold MINS; lia)) as (s2 & E2 & T2). rewrite (bind_Ret _ _ _ _ _ E2).
  destruct (cmos_read_spec HOURS s2 ltac:(unfold HOURS; lia)) as (s3 & E3 & T3). rewrite (bind_Ret _ _ _ _ _ E3).
  destruct (cmos_read_spec DAY s3 ltac:(unfold DAY; lia)) as (s4 & E4 & T4). rewrite (bind_Ret _ _ _ _ _ E4).
  destruct (cmos_read_spec MONTH s4 ltac:(unfold MONTH; lia)) as (s5 & E5 & T5). rewrite (bind_Ret _ _ _ _ _ E5).
  destruct (cmos_read_spec YEAR s5 ltac:(unfold YEAR; lia)) as (s6 & E6 & T6). rewrite (bind_Ret _ _ _ _ _ E6).
  exists s6. split; [|lia]. unfold ret, date_at. rewrite T5, T4, T3, T2, T1.
  by replace (ticks s + 1)%nat with (S (ticks s)) by lia; replace (ticks s + 2)%nat with (S (S (ticks s))) by lia;
    replace (ticks s + 3)%nat with (S (S (S (ticks s)))) by lia; replace (ticks s + 4)%nat with (S (S (S (S (ticks s))))) by lia;
    replace (ticks s + 5)%nat with (S (S (S (S (S (ticks s)))))) by lia.
Qed.

(** From read [n] on, the clock has stopped between two updates. *)
Definition settled (n : nat) : Prop :=
  forall k, (n <= k)%nat -> date_at k = date_at n /\ updating k = false.

(** What the loop of [cmostime] waits for: the same date read twice, with no
    update in progress in between. *)
Definition seen (k : nat) (t : rtcdate) : Prop := date_at k = t /\ date_at (k + 7) = t /\ updating (k + 6) = false.

Lemma read_twice_spec n fuel : settled n -> forall s, (n - ticks s < fuel)%nat ->
  exists t s' k, read_twice cmos fuel s = Ret t s' /\ (ticks s <= k)%nat /\ seen k t.
Proof using Type.
  intros Hn. induction fuel as [|fuel IH]; intros s Hf; [lia|]. cbn [read_twice].
  destruct (fill_spec s) as (s1 & E1 & T1). rewrite (bind_Ret _ _ _ _ _ E1).
  destruct (cmos_read_spec CMOS_STATA s1 ltac:(unfold CMOS_STATA; lia)) as (s2 & E2 & T2). rewrite (bind_Ret _ _ _ _ _ E2).
  rewrite T1. fold (updating (ticks s + 6)). destruct (updating (ticks s + 6)) eqn:Eu.
  - destruct (decide (n <= ticks s)%nat) as [Hle|Hle]; [by rewrite (proj2 (Hn (ticks s + 6)%nat ltac:(lia))) in Eu|].
    destruct (IH s2 ltac:(lia)) as (t & s' & k & E & Hk & Hs). exists t, s', k. split; [done|]. split; [lia|done].
  - destruct (fill_spec s2) as (s3 & E3 & T3). rewrite (bind_Ret _ _ _ _ _ E3). rewrite T2, T1.
    replace (S (ticks s + 6)) with (ticks s + 7)%nat by lia.
    destruct (decide (date_at (ticks s) = date_at (ticks s + 7))) as [Heq|Hne].
    + exists (date_at (ticks s)), s3, (ticks s). split; [done|]. split; [lia|]. by split_and!.
    + destruct (decide (n <= ticks s)%nat) as [Hle|Hle].
      { destruct Hne. by rewrite (proj1 (Hn (ticks s) Hle)), (proj1 (Hn (ticks s + 7)%nat ltac:(lia))). }
      destruct (IH s3 ltac:(lia)) as (t & s' & k & E & Hk & Hs). exists t, s', k. split; [done|]. split; [lia|done].
Qed.

Definition convert (bcd : bool) (t : rtcdate) : rtcdate :=
  let c x := if bcd then conv x else x in
  mk_rtcdate (c (second t)) (c (minute t)) (c (hour t)) (c (day t)) (c (month t)) (c (year t) + 2000).

(** Reading the clock ends, and not with half of an update: when the clock chip
    settles after [n] reads, however its registers changed until then, [n + 1]
    turns of the loop are enough, and the date that [cmostime] converts is one
    that was read twice in a row with no update in progress in between. *)
Theorem cmostime_settles n fuel s : settled n -> (n < fuel)%nat ->
  exists t s' k, cmostime cmos fuel s = Ret (convert (Z.land (u8 (cmos (ticks s) CMOS_STATB)) 4 =? 0) t) s' /\
    (ticks s < k)%nat /\ seen k t.
Proof using Type.
  intros Hn Hf. unfold cmostime.
  destruct (cmos_read_spec CMOS_STATB s ltac:(unfold CMOS_STATB; lia)) as (s1 & E1 & T1). rewrite (bind_Ret _ _ _ _ _ E1).
  destruct (read_twice_spec n fuel Hn s1 ltac:(lia)) as (t & s' & k & E & Hk & Hs). rewrite (bind_Ret _ _ _ _ _ E).
  exists t, s', k. split; [|split; [lia|done]]. unfold ret, convert. change (Z.shiftl 1 2) with 4. by destruct (_ =? 0).
Qed.

Record shows (bcd : bool) (d : rtcdate) : Prop := {
  sh_range : Forall (fun x => 0 <= x < 100) [second d; minute d; hour d; day d; month d; year d];
  sh_second : forall k, cmos k SECS = shown bcd (second d);
  sh_minute : forall k, cmos k MINS = shown bcd (minute d);
  sh_hour : forall k, cmos k HOURS = shown bcd (hour d);
  sh_day : forall k, cmos k DAY = shown bcd (day d);
  sh_month : forall k, cmos k MONTH = shown bcd (month d);
  sh_year : forall k, cmos k YEAR = shown bcd (year d);
  sh_quiet : forall k, updating k = false;
  sh_mode : forall k, (Z.land (u8 (cmos k CMOS_STATB)) 4 =? 0) = bcd
}.

(** The date is the one on the clock: with the chip in BCD or in binary mode and
    showing the date [d] of a year from 2000 to 2099, one turn of the loop is
    enough and [cmostime] returns [d], with the full year. *)
Theorem cmostime_decodes bcd d s : shows bcd d ->
  exists s', cmostime cmos 1 s = Ret (mk_rtcdate (second d) (minute d) (hour d) (day d) (month d) (year d + 2000)) s'.
Proof using Type.
  intros [Hr H1 H2 H3 H4 H5 H6 Hq Hm].
  assert (Hd : forall k, date_at k = mk_rtcdate (u8 (shown bcd (second d))) (u8 (shown bcd (minute d))) (u8 (shown bcd (hour d)))
    (u8 (shown bcd (day d))) (u8 (shown bcd (month d))) (u8 (shown bcd (year d)))) by (intros k; unfold date_at; congruence).
  assert (Hn : settled 0) by (intros k _; split; [by rewrite !Hd|apply Hq]).
  unfold cmostime. destruct (cmos_read_spec CMOS_STATB s ltac:(unfold CMOS_STATB; lia)) as (s1 & E1 & T1). rewrite (bind_Ret _ _ _ _ _ E1).
  destruct (read_twice_spec 0 1 Hn s1 ltac:(lia)) as (t & s' & k & E & _ & <- & _). rewrite (bind_Ret _ _ _ _ _ E).
  exists s'. change (Z.shiftl 1 2) with 4. rewrite Hm, Hd. unfold ret. cbn [second minute hour day month year].
  repeat (apply Forall_cons in Hr as [? Hr]). by destruct bcd; cbn [second minute hour day month year]; rewrite ?(conv_shown true), ?(conv_shown false) by done.
Qed.
End Clock.

(** A clock in BCD mode at 23:59:58 on 31 December 2024. *)
Definition ex_date : rtcdate := mk_rtcdate 58 59 23 31 12 24.
Definition ex_cmos (k : nat) (reg : Z) : Z :=
  if reg =? SECS then 0x58 else if reg =? MINS then 0x59 else if reg =? HOURS then 0x23
  else if reg =? DAY then 0x31 else if reg =? MONTH then 0x12 else if reg =? YEAR then 0x24 else 0.
Definition ex_apic : apic := mk_apic true [] 0 [] 0 ∅ 0 ∅ [].

Lemma cmostime_decodes_witness : exists s', cmostime ex_cmos 1 ex_apic = Ret (mk_rtcdate 58 59 23 31 12 2024) s'.
Proof.
  apply (cmostime_decodes ex_cmos true ex_date ex_apic). split; try reflexivity. apply (bool_decide_unpack _). reflexivity.
Defined.

(** The same clock, in the middle of an update for the first ten reads. *)
Definition ex_busy (k : nat) (reg : Z) : Z := if (k <? 10)%nat then 255 else ex_cmos k reg.

Lemma cmostime_settles_witness : exists t s' k, cmostime ex_busy 11 ex_apic = Ret (convert false t) s' /\ (0 < k)%nat /\ seen ex_busy k t.
Proof.
  apply (cmostime_settles ex_busy 10 11 ex_apic); [|lia].
  assert (Hb : forall k reg, (10 <= k)%nat -> ex_busy k reg = ex_cmos 0 reg).
  { intros k reg Hk. unfold ex_busy. by destruct (Nat.ltb_spec k 10); [lia|]. }
  intros k Hk. unfold date_at, updating. split; rewrite !Hb by lia; reflexivity.
Defined.

(** ** Interrupt routes *)

(** The two words of redirection entry [irq]. *)
Definition redirection (s : apic) (irq : Z) : Z * Z :=
  (default 0 (io_data s !! (REG_TABLE + 2 * irq)), default 0 (io_data s !! (REG_TABLE + 2 * irq + 1))).

Lemma ioapicwrite_spec reg data s : 0 <= reg < 4294967296 ->
  exists s', ioapicwrite reg data s = Ret tt s' /\ io_data s' = <[reg := u32 data]> (io_data s).
Proof. intros H. eexists. split; [reflexivity|]. cbn. by rewrite u32_small. Qed.

(** The two writes that set redirection entry [i]. *)
Lemma entry_spec i lo hi s : 0 <= i < 256 ->
  exists s', (do* ioapicwrite (REG_TABLE + 2 * i) lo in ioapicwrite (REG_TABLE + 2 * i + 1) hi) s = Ret tt s' /\
    (forall j, redirection s' j = if decide (j = i) then (u32 lo, u32 hi) else redirection s j) /\
    (forall r, r < REG_TABLE -> io_data s' !! r = io_data s !! r).
Proof.
  intros Hi. unfold REG_TABLE. destruct (ioapicwrite_spec (0x10 + 2 * i) lo s ltac:(lia)) as (s1 & E1 & D1).
  destruct (ioapicwrite_spec (0x10 + 2 * i + 1) hi s1 ltac:(lia)) as (s2 & E2 & D2).
  exists s2. rewrite (bind_Ret _ _ _ _ _ E1). split; [done|]. unfold redirection, REG_TABLE. rewrite D2, D1. split.
  - intros j. case_decide as E.
    + subst j. by rewrite lookup_insert_ne, !lookup_insert_eq by lia.
    + by rewrite !lookup_insert_ne by lia.
  - intros r Hr. by rewrite !lookup_insert_ne by lia.
Qed.

Lemma ioapicinit_loop_spec n : forall i s, 0 <= i -> i + Z.of_nat n <= 256 ->
  exists s', ioapicinit_loop n i s = Ret tt s' /\
    forall j, redirection s' j = if decide (i <= j < i + Z.of_nat n) then (u32 (Z.lor INT_DISABLED (T_IRQ0 + j)), 0) else redirection s j.
Proof.
  induction n as [|n IH]; intros i s Hi Hn; cbn [ioapicinit_loop].
  - exists s. split; [done|]. intros j. by rewrite decide_False by lia.
  - destruct (entry_spec i (Z.lor INT_DISABLED (T_IRQ0 + i)) 0 s ltac:(lia)) as (s1 & E1 & D1 & _).
    rewrite <- bind_assoc, (bind_Ret _ _ _ _ _ E1). destruct (IH (i + 1) s1 ltac:(lia) ltac:(lia)) as (s' & E & D).
    exists s'. split; [done|]. intros j. rewrite D, D1. repeat case_decide; subst; try done; lia.
Qed.

Fixpoint enable_all (l : list (Z * Z)) : A unit :=
  match l with
  | [] => ret tt
  | (irq, cpu) :: l' => do* ioapicenable irq cpu in enable_all l'
  end.

(** The processor that [irq] was last enabled for. *)
Fixpoint enabled_for (irq : Z) (l : list (Z * Z)) (d : option Z) : option Z :=
  match l with
  | [] => d
  | (i, cpu) :: l' => enabled_for irq l' (if decide (irq = i) then Some cpu else d)
  end.
Definition route (irq : Z) (o : option Z) : Z * Z :=
  match o with
  | Some cpu => (T_IRQ0 + irq, u32 (Z.shiftl cpu 24))
  | None => (INT_DISABLED + T_IRQ0 + irq, 0)
  end.

Lemma enable_all_spec n l : forall s f, n <= 256 -> Forall (fun w => 0 <= w.1 < n) l ->
  (forall j, 0 <= j < n -> redirection s j = route j (f j)) ->
  exists s', enable_all l s = Ret tt s' /\ forall j, 0 <= j < n -> redirection s' j = route j (enabled_for j l (f j)).
Proof.
  induction l as [|[i cpu] l IH]; intros s f Hn Hl Hs; cbn [enable_all enabled_for]; [by exists s|].
  apply Forall_cons in Hl as [Hi Hl]. cbn in Hi.
  destruct (entry_spec i (T_IRQ0 + i) (Z.shiftl cpu 24) s ltac:(lia)) as (s1 & E1 & D1 & _).
  change (ioapicenable i cpu) with (do* ioapicwrite (REG_TABLE + 2 * i) (T_IRQ0 + i) in ioapicwrite (REG_TABLE + 2 * i + 1) (Z.shiftl cpu 24)).
  rewrite (bind_Ret _ _ _ _ _ E1). apply (IH s1 (fun j => if decide (j = i) then Some cpu else f j) Hn Hl).
  intros j Hj. rewrite D1. case_decide as E; [|by apply Hs]. subst j. cbn [route]. unfold T_IRQ0. by rewrite (u32_small (32 + i)) by lia.
Qed.

Lemma disabled_word j : 0 <= j < 256 -> u32 (Z.lor INT_DISABLED (T_IRQ0 + j)) = INT_DISABLED + T_IRQ0 + j.
Proof.
  intros Hj. change (Z.lor INT_DISABLED) with (Z.lor (Z.shiftl 1 16)). unfold T_IRQ0.
  rewrite lor_shiftl_add by lia. rewrite u32_small by lia. unfold INT_DISABLED. lia.
Qed.

(** The highest interrupt of the I/O APIC, from its version register. *)
Definition maxintr (s : apic) : Z := Z.land (Z.shiftr (u32 (default 0 (io_data s !! REG_VER))) 16) 0xFF.

Lemma maxintr_range s : 0 <= maxintr s < 256.
Proof. unfold maxintr. change 0xFF with (Z.ones 8). rewrite Z.land_ones by lia. apply Z.mod_pos_bound. lia. Qed.

Lemma ioapicinit_spec s id : exists s1, redirection s1 = redirection s /\
  ioapicinit id s = ioapicinit_loop (Z.to_nat (maxintr s + 1)) 0 s1.
Proof.
  unfold ioapicinit, ioapicread, gets, modify, bind. change (u32 REG_VER) with REG_VER. change (u32 REG_ID) with REG_ID.
  cbn [set_io_reg io_data io_reg]. fold (maxintr s). destruct (negb _); eexists; (split; [|reflexivity]); reflexivity.
Qed.

(** The redirection table.  After [ioapicinit] and any calls of [ioapicenable]
    for interrupts that the I/O APIC has, every entry has the vector
    [T_IRQ0 + irq]; those that were enabled are unmasked and go to the processor
    they were last enabled for, and all the others are masked. *)
Theorem ioapic_routes s id l : Forall (fun w => 0 <= w.1 <= maxintr s) l ->
  exists s', (do* ioapicinit id in enable_all l) s = Ret tt s' /\
    forall irq, 0 <= irq <= maxintr s -> redirection s' irq = route irq (enabled_for irq l None).
Proof.
  intros Hl. pose proof (maxintr_range s) as Hm. destruct (ioapicinit_spec s id) as (s1 & _ & E1).
  destruct (ioapicinit_loop_spec (Z.to_nat (maxintr s + 1)) 0 s1 ltac:(lia) ltac:(lia)) as (s2 & E2 & D2). rewrite <- E1 in E2.
  rewrite (bind_Ret _ _ _ _ _ E2). destruct (enable_all_spec (maxintr s + 1) l s2 (fun _ => None)) as (s' & E' & D').
  - lia.
  - eapply Forall_impl; [exact Hl|]. cbn. lia.
  - intros j Hj. rewrite D2, decide_True by lia. cbn [route]. by rewrite disabled_word by lia.
  - exists s'. split; [done|]. intros j Hj. apply D'. lia.
Qed.

(** An I/O APIC with 24 entries; the keyboard goes to processor 0 and the disk to
    processor 1. *)
Definition ex_ioapic : apic := mk_apic true [] 0 [] 0 ∅ 0 {[ REG_VER := 0x170011 ]} [].

Lemma ioapic_routes_witness : exists s', (do* ioapicinit 0 in enable_all [(1, 0); (14, 1)]) ex_ioapic = Ret tt s' /\
  forall irq, 0 <= irq <= maxintr ex_ioapic -> redirection s' irq = route irq (enabled_for irq [(1, 0); (14, 1)] None).
Proof. apply (ioapic_routes ex_ioapic 0 [(1, 0); (14, 1)]). by apply (bool_decide_unpack _); vm_compute. Defined.

(** ** Starting another processor *)

Lemma lapicw_spec lapic_reg i v s : lapicw lapic_reg i v s = Ret tt (tick (add_lapic (i, u32 v) s)).
Proof. reflexivity. Qed.

(** The universal startup algorithm reaches the code it is meant to: for a page
    [addr] below 1 MB and an APIC number, every interrupt command is addressed to
    that APIC; the two startup commands carry the page number, from which the
    processor starts at [addr]; and the warm reset vector at 40:67 is the far
    pointer [addr >> 4]:0. *)
Theorem lapicstartap_targets lapic_reg s apicid addr : 0 <= apicid < 256 -> 0 <= addr < 0x100000 -> addr mod 4096 = 0 ->
  exists s' lo, lapicstartap lapic_reg apicid addr s = Ret tt s' /\
    lapic_out s' = lapic_out s ++
      [(ICRHI, apicid * 2 ^ 24); (ICRLO, Z.lor (Z.lor INIT LEVEL) ASSERT); (ICRLO, Z.lor INIT LEVEL);
       (ICRHI, apicid * 2 ^ 24); (ICRLO, lo); (ICRHI, apicid * 2 ^ 24); (ICRLO, lo)] /\
    lo / 256 * 256 = STARTUP /\ lo mod 256 * 4096 = addr /\
    read16 (amem s') (P2V 0x467 + 2) * 16 + read16 (amem s') (P2V 0x467) = addr.
Proof.
  intros Ha Hd Hal. assert (Hlo : Z.lor STARTUP (Z.shiftr addr 12) = STARTUP + addr / 4096).
  { rewrite Z.shiftr_div_pow2 by lia. change (Z.lor STARTUP) with (Z.lor (Z.shiftl 6 8)). change (2 ^ 12) with 4096.
    by rewrite lor_shiftl_add by (Z.div_mod_to_equations; lia). }
  unfold lapicstartap. cbn [send_startup]. unfold microdelay, outb, modify, bind, ret. rewrite !lapicw_spec.
  change (Z.lor (Z.shiftl 0x40 4) 0x67) with 0x467. set (wrv := P2V 0x467).
  assert (Hid : u32 (Z.shiftl apicid 24) = apicid * 2 ^ 24) by (rewrite Z.shiftl_mul_pow2, u32_small by lia; done).
  rewrite Hlo, Hid. rewrite (u32_small (STARTUP + addr / 4096)) by (unfold STARTUP; Z.div_mod_to_equations; lia).
  eexists _, (STARTUP + addr / 4096). split; [reflexivity|]. cbn [lapic_out amem add_lapic tick set_amem add_port].
  rewrite <- !app_assoc. unfold STARTUP. split_and!; [reflexivity|Z.div_mod_to_equations; lia..|].
  rewrite read16_write16_eq, (read16_ext _ (write16 (amem s) wrv 0)), read16_write16_eq by (intros; rewrite read8_write16_ne; [done|lia]).
  rewrite Z.shiftr_div_pow2 by lia. change (2 ^ 4) with 16. Z.div_mod_to_equations. lia.
Qed.

Lemma lapicstartap_targets_witness : exists s' lo, lapicstartap (fun _ _ => 0) 1 0x7000 ex_apic = Ret tt s' /\ lo mod 256 * 4096 = 0x7000 /\
  read16 (amem s') (P2V 0x467 + 2) * 16 + read16 (amem s') (P2V 0x467) = 0x7000.
Proof.
  destruct (lapicstartap_targets (fun _ _ => 0) ex_apic 1 0x7000) as (s' & lo & E & _ & _ & H1 & H2); [lia|lia|reflexivity|].
  exists s', lo. split; [exact E|]. split; [exact H1|exact H2].
Defined.
