(* ===== verification/Ide.v ===== *)
(** * The disk driver (ide.c)

    The queue of buffers that the driver threads through [qnext], and the drive
    behind the I/O ports.  A [struct buf *] is an index.  [iderw] is cut where it
    sleeps: [iderw] is the part up to the loop, [iderw_waits] the condition of the
    loop.  The drive keeps the registers that the code writes; what its status
    register shows at the [k]-th read is an argument of the model. *)
From S2P Require Import Prelude Traps Memory Log Mkfs.

Definition SECTOR_SIZE : Z := 512.
Definition IDE_BSY : Z := 0x80.
Definition IDE_DRDY : Z := 0x40.
Definition IDE_DF : Z := 0x20.
Definition IDE_ERR : Z := 0x01.
Definition IDE_CMD_READ : Z := 0x20.
Definition IDE_CMD_WRITE : Z := 0x30.
Definition IDE_CMD_RDMUL : Z := 0xc4.
Definition IDE_CMD_WRMUL : Z := 0xc5.
Definition B_VALID : Z := 0x2.
Definition B_DIRTY : Z := 0x4.

(** ** State *)

(** The part of [struct buf] that the driver uses; [held]: the process has the
    buffer's sleep lock. *)
Record ibuf := mk_ibuf {
  flags : Z;
  bdev : Z;
  blockno : Z;
  qnext : option nat;
  held : bool;
  bdata : block
}.
Definition set_flags (b : ibuf) (f : Z) : ibuf := mk_ibuf f (bdev b) (blockno b) (qnext b) (held b) (bdata b).
Definition set_qnext (b : ibuf) (q : option nat) : ibuf := mk_ibuf (flags b) (bdev b) (blockno b) q (held b) (bdata b).
Definition set_bdata (b : ibuf) (x : block) : ibuf := mk_ibuf (flags b) (bdev b) (blockno b) (qnext b) (held b) x.

(** The drives: the registers of the interface, the command being executed, the
    sectors of the two disks, and the number of status reads. *)
Record drive := mk_drive {
  regs : gmap Z Z;
  command : option Z;
  sectors : gmap (Z * Z) block;
  reads : nat
}.

Record ide := mk_ide {
  bufs : list ibuf;
  idequeue : option nat;
  havedisk1 : bool;
  drv : drive;
  woken : list nat;
  enabled : list (Z * Z)  (* ioapicenable *)
}.
Definition I := M ide.

Definition set_bufs (l : list ibuf) (s : ide) : ide := mk_ide l (idequeue s) (havedisk1 s) (drv s) (woken s) (enabled s).
Definition set_queue (q : option nat) (s : ide) : ide := mk_ide (bufs s) q (havedisk1 s) (drv s) (woken s) (enabled s).
Definition set_have (b : bool) (s : ide) : ide := mk_ide (bufs s) (idequeue s) b (drv s) (woken s) (enabled s).
Definition set_drv (d : drive) (s : ide) : ide := mk_ide (bufs s) (idequeue s) (havedisk1 s) d (woken s) (enabled s).
Definition add_woken (i : nat) (s : ide) : ide := mk_ide (bufs s) (idequeue s) (havedisk1 s) (drv s) (woken s ++ [i]) (enabled s).
Definition add_enabled (w : Z * Z) (s : ide) : ide := mk_ide (bufs s) (idequeue s) (havedisk1 s) (drv s) (woken s) (enabled s ++ [w]).

Definition get_buf (i : nat) : I ibuf :=
  fun s => match bufs s !! i with Some b => Ret b s | None => Fault "bad buffer pointer" end.
Definition put_buf (i : nat) (b : ibuf) : I unit := modify (fun s => set_bufs (<[i := b]> (bufs s)) s).

(** *** The drive *)

Definition reg (d : drive) (p : Z) : Z := default 0 (regs d !! p).
(** The sector that the registers select: the drive, and its number there. *)
Definition selected (d : drive) : Z * Z :=
  (Z.land (Z.shiftr (reg d 0x1f6) 4) 1,
   Z.lor (Z.lor (reg d 0x1f3) (Z.shiftl (reg d 0x1f4) 8))
     (Z.lor (Z.shiftl (reg d 0x1f5) 16) (Z.shiftl (Z.land (reg d 0x1f6) 0x0f) 24))).

Definition outb (port v : Z) : I unit :=
  modify (fun s =>
    let d := drv s in
    set_drv (mk_drive (<[port := u8 v]> (regs d)) (if port =? 0x1f7 then Some (u8 v) else command d) (sectors d) (reads d)) s).
(** The 128 words that follow a write command go to the selected sector. *)
Definition outsl (x : block) : I unit :=
  modify (fun s =>
    let d := drv s in
    set_drv (mk_drive (regs d) (command d)
      (if decide (command d = Some IDE_CMD_WRITE) then <[selected d := x]> (sectors d) else sectors d) (reads d)) s).
(** The words that the drive gives: those of the selected sector, once it has been
    given the command to read one. *)
Definition data_in (d : drive) : option block :=
  if decide (command d = Some IDE_CMD_READ) then Some (default ∅ (sectors d !! selected d)) else None.
Definition insl : I block :=
  let* d := gets drv in
  match data_in d with
  | Some x => ret x
  | None => fault "insl: no read command"
  end.

Section Driver.
Context (status : nat -> Z).

Definition inb_status : I Z :=
  let* k := gets (fun s => reads (drv s)) in
  do* modify (fun s => let d := drv s in set_drv (mk_drive (regs d) (command d) (sectors d) (S (reads d))) s) in
  ret (u8 (status k)).

(** ** The driver *)

(** [true] for 0, [false] for -1. *)
Fixpoint idewait (fuel : nat) (checkerr : bool) : I bool :=
  match fuel with
  | O => fun _ => OutOfFuel
  | S k =>
      let* r := inb_status in
      if negb (Z.land r (Z.lor IDE_BSY IDE_DRDY) =? IDE_DRDY) then idewait k checkerr
      else ret (negb (checkerr && negb (Z.land r (Z.lor IDE_DF IDE_ERR) =? 0)))
  end.

Fixpoint probe (n : nat) : I unit :=
  match n with
  | O => ret tt
  | S k =>
      let* r := inb_status in
      if negb (r =? 0) then modify (set_have true) else probe k
  end.

Definition ideinit (fuel : nat) (ncpu : Z) : I unit :=
  do* modify (add_enabled (IRQ_IDE, ncpu - 1)) in
  do* idewait fuel false in
  do* outb 0x1f6 (Z.lor 0xe0 (Z.shiftl 1 4)) in
  do* probe 1000 in
  outb 0x1f6 (Z.lor 0xe0 (Z.shiftl 0 4)).

Definition idestart (fuel : nat) (i : option nat) : I unit :=
  match i with
  | None => panic "idestart"
  | Some i =>
      let* b := get_buf i in
      if FSSIZE <=? blockno b then panic "incorrect blockno"
      else
        let sector_per_block := BSIZE / SECTOR_SIZE in
        let sector := s32 (blockno b * sector_per_block) in
        let read_cmd := if sector_per_block =? 1 then IDE_CMD_READ else IDE_CMD_RDMUL in
        let write_cmd := if sector_per_block =? 1 then IDE_CMD_WRITE else IDE_CMD_WRMUL in
        if 7 <? sector_per_block then panic "idestart"
        else
          do* idewait fuel false in
          do* outb 0x3f6 0 in
          do* outb 0x1f2 sector_per_block in
          do* outb 0x1f3 (Z.land sector 0xff) in
          do* outb 0x1f4 (Z.land (Z.shiftr sector 8) 0xff) in
          do* outb 0x1f5 (Z.land (Z.shiftr sector 16) 0xff) in
          do* outb 0x1f6 (Z.lor (Z.lor 0xe0 (Z.shiftl (Z.land (bdev b) 1) 4)) (Z.land (Z.shiftr sector 24) 0x0f)) in
          if negb (Z.land (flags b) B_DIRTY =? 0) then
            do* outb 0x1f7 write_cmd in
            outsl (bdata b)
          else outb 0x1f7 read_cmd
  end.

Definition ideintr (fuel : nat) : I unit :=
  let* q := gets idequeue in
  match q with
  | None => ret tt
  | Some i =>
      let* b := get_buf i in
      do* modify (set_queue (qnext b)) in
      do* (if Z.land (flags b) B_DIRTY =? 0 then
             let* ok := idewait fuel true in
             if ok then let* x := insl in put_buf i (set_bdata b x) else ret tt
           else ret tt) in
      let* b := get_buf i in
      do* put_buf i (set_flags b (Z.land (Z.lor (flags b) B_VALID) (Z.lnot B_DIRTY))) in
      do* modify (add_woken i) in
      let* q := gets idequeue in
      match q with
      | Some _ => idestart fuel q
      | None => ret tt
      end
  end.

(** The walk to the end of the queue, from the buffer [i] on: it is the last
    one, or the walk goes on. *)
Fixpoint append_at (fuel : nat) (i new : nat) : I unit :=
  match fuel with
  | O => fun _ => OutOfFuel
  | S k =>
      let* b := get_buf i in
      match qnext b with
      | Some j => append_at k j new
      | None => put_buf i (set_qnext b (Some new))
      end
  end.

Definition iderw (fuel : nat) (i : nat) : I unit :=
  let* b := get_buf i in
  if negb (held b) then panic "iderw: buf not locked"
  else if Z.land (flags b) (Z.lor B_VALID B_DIRTY) =? B_VALID then panic "iderw: nothing to do"
  else
    let* have := gets havedisk1 in
    if negb (bdev b =? 0) && negb have then panic "iderw: ide disk 1 not present"
    else
      do* put_buf i (set_qnext b None) in
      let* q := gets idequeue in
      do* match q with
          | None => modify (set_queue (Some i))
          | Some j => append_at fuel j i
          end in
      let* q := gets idequeue in
      if decide (q = Some i) then idestart fuel q else ret tt.

(** [while((b->flags & (B_VALID|B_DIRTY)) != B_VALID) sleep(b, &idelock);] *)
Definition iderw_waits (i : nat) : I bool :=
  let* b := get_buf i in
  ret (negb (Z.land (flags b) (Z.lor B_VALID B_DIRTY) =? B_VALID)).

End Driver.
