(* ===== verification/IdeProof.v ===== *)
(** * The driver serves its requests in order

    The disk driver, with its queue of pointers and its port writes, does what a
    queue of requests served one after the other does. *)
From S2P Require Import Prelude Traps Memory Log Mkfs Ide.

#[local] Opaque BSIZE.

Lemma BSIZE_512 : BSIZE = 512.
Proof. reflexivity. Qed.

Section Ide.
Context (status : nat -> Z) (fuel : nat).

(** The drive becomes ready within [fuel] reads of its status, and reports no
    errors. *)
Record drive_ok : Prop := {
  dr_ready : forall k, exists j, (j < fuel)%nat /\ Z.land (u8 (status (k + j))) (Z.lor IDE_BSY IDE_DRDY) = IDE_DRDY;
  dr_good : forall k, Z.land (u8 (status k)) (Z.lor IDE_DF IDE_ERR) = 0
}.
Hypothesis Hdrive : drive_ok.

(** Status reads change nothing else. *)
Definition waited (k : nat) (s : ide) : ide := set_drv (mk_drive (regs (drv s)) (command (drv s)) (sectors (drv s)) k) s.

Lemma idewait_loop c n : forall s j, (j < n)%nat ->
  Z.land (u8 (status (reads (drv s) + j))) (Z.lor IDE_BSY IDE_DRDY) = IDE_DRDY ->
  exists k, idewait status n c s = Ret true (waited k s).
Proof using Hdrive.
  induction n as [|n IH]; intros s j Hj Hr; [lia|]. cbn [idewait]. unfold inb_status, gets, modify, bind, ret.
  destruct (Z.eqb_spec (Z.land (u8 (status (reads (drv s)))) (Z.lor IDE_BSY IDE_DRDY)) IDE_DRDY) as [E|E]; cbn [negb].
  - exists (S (reads (drv s))). rewrite (dr_good Hdrive). by rewrite andb_false_r.
  - destruct j as [|j]; [by rewrite Nat.add_0_r in Hr|]. set (s1 := set_drv _ s).
    destruct (IH s1 j) as (k & Ek); [lia|cbn; by rewrite <- Nat.add_succ_comm in Hr|].
    exists k. exact Ek.
Qed.

Lemma idewait_spec c s : exists k, idewait status fuel c s = Ret true (waited k s).
Proof using Hdrive.
  destruct (dr_ready Hdrive (reads (drv s))) as (j & Hj & Hr). by apply (idewait_loop c fuel s j).
Qed.

(** ** Starting a request *)

Definition dirty (b : ibuf) : bool := negb (Z.land (flags b) B_DIRTY =? 0).
Definition loc (b : ibuf) : Z * Z := (Z.land (bdev b) 1, blockno b).
Definition stored (b : ibuf) (d : gmap (Z * Z) block) : gmap (Z * Z) block := if dirty b then <[loc b := bdata b]> d else d.

(** The drive is at work on the request for [b], the disk being [d]. *)
Record working (dv : drive) (b : ibuf) (d : gmap (Z * Z) block) : Prop := {
  wk_selected : selected dv = loc b;
  wk_command : command dv = Some (if dirty b then IDE_CMD_WRITE else IDE_CMD_READ);
  wk_sectors : sectors dv = stored b d
}.

(** The registers that [idestart] writes select the sector of the buffer. *)
Lemma select_block dev n : 0 <= n < 1000 ->
  (Z.land (Z.shiftr (u8 (Z.lor (Z.lor 0xe0 (Z.shiftl (Z.land dev 1) 4)) (Z.land (Z.shiftr n 24) 0x0f))) 4) 1,
   Z.lor (Z.lor (u8 (Z.land n 0xff)) (Z.shiftl (u8 (Z.land (Z.shiftr n 8) 0xff)) 8))
     (Z.lor (Z.shiftl (u8 (Z.land (Z.shiftr n 16) 0xff)) 16)
        (Z.shiftl (Z.land (u8 (Z.lor (Z.lor 0xe0 (Z.shiftl (Z.land dev 1) 4)) (Z.land (Z.shiftr n 24) 0x0f))) 0x0f) 24))) =
  (Z.land dev 1, n).
Proof using Type.
  intros Hn. change 0xff with (Z.ones 8). rewrite !Z.land_ones, !Z.shiftr_div_pow2 by lia.
  change (2 ^ 8) with 256. change (2 ^ 16) with 65536. change (2 ^ 24) with 16777216.
  replace (n / 16777216) with 0 by (Z.div_mod_to_equations; lia). replace (n / 65536) with 0 by (Z.div_mod_to_equations; lia).
  rewrite (u8_small (n mod 256)), (u8_small ((n / 256) mod 256)) by (apply Z.mod_pos_bound; lia).
  assert (Hd : Z.land dev 1 = 0 \/ Z.land dev 1 = 1).
  { pose proof (Z.land_ones dev 1 ltac:(lia)) as E. change (Z.ones 1) with 1 in E. rewrite E. pose proof (Z.mod_pos_bound dev 2). change (2 ^ 1) with 2. lia. }
  assert (Hlo : Z.lor (n mod 256) (Z.shiftl ((n / 256) mod 256) 8) = n).
  { rewrite Z.lor_comm, lor_shiftl_add by (lia || (change (2 ^ 8) with 256; apply Z.mod_pos_bound; lia)).
    rewrite (Z.mod_small (n / 256)) by (Z.div_mod_to_equations; lia). change (2 ^ 8) with 256. Z.div_mod_to_equations. lia. }
  destruct Hd as [-> | ->]; rewrite Hlo; f_equal; apply Z.lor_0_r.
Qed.

Lemma get_buf_spec s i b : bufs s !! i = Some b -> get_buf i s = Ret b s.
Proof using Type. intros H. unfold get_buf. by rewrite H. Qed.

(** A write to a register. *)
Definition wreg (p v : Z) (d : drive) : drive :=
  mk_drive (<[p := u8 v]> (regs d)) (if p =? 0x1f7 then Some (u8 v) else command d) (sectors d) (reads d).

Lemma outb_bind p v (m : I unit) s : (do* outb p v in m) s = m (set_drv (wreg p v (drv s)) s).
Proof using Type. reflexivity. Qed.

Lemma reg_wreg p v d q : reg (wreg p v d) q = if decide (q = p) then u8 v else reg d q.
Proof using Type. unfold reg, wreg. cbn. case_decide; [subst; by rewrite lookup_insert_eq|by rewrite lookup_insert_ne by congruence]. Qed.

(** The drive with the registers that [idestart] writes, without the command. *)
Definition addressed (b : ibuf) (d : drive) : drive :=
  let n := blockno b in
  wreg 0x1f6 (Z.lor (Z.lor 0xe0 (Z.shiftl (Z.land (bdev b) 1) 4)) (Z.land (Z.shiftr n 24) 0x0f))
    (wreg 0x1f5 (Z.land (Z.shiftr n 16) 0xff) (wreg 0x1f4 (Z.land (Z.shiftr n 8) 0xff)
      (wreg 0x1f3 (Z.land n 0xff) (wreg 0x1f2 1 (wreg 0x3f6 0 d))))).

Lemma addressed_selected b d c : 0 <= blockno b < 1000 -> selected (wreg 0x1f7 c (addressed b d)) = loc b.
Proof using Type.
  intros Hn. unfold selected, addressed, loc. cbn zeta. rewrite !reg_wreg. repeat rewrite decide_False by lia.
  repeat rewrite decide_True by lia. by apply select_block.
Qed.

Lemma idestart_spec s i b : bufs s !! i = Some b -> 0 <= blockno b < 1000 ->
  exists dv, idestart status fuel (Some i) s = Ret tt (set_drv dv s) /\ working dv b (sectors (drv s)).
Proof using Hdrive.
  intros Hb Hn. unfold idestart. rewrite (bind_Ret _ _ _ _ _ (get_buf_spec _ _ _ Hb)). unfold FSSIZE.
  destruct (Z.leb_spec 1000 (blockno b)); [lia|]. rewrite BSIZE_512. change (512 / SECTOR_SIZE) with 1. change (1 =? 1) with true.
  change (7 <? 1) with false. cbn iota zeta. rewrite Z.mul_1_r, s32_small by lia.
  destruct (idewait_spec false s) as (k & Ek). rewrite (bind_Ret _ _ _ _ _ Ek). rewrite !outb_bind. fold (dirty b).
  set (d1 := mk_drive (regs (drv s)) (command (drv s)) (sectors (drv s)) k).
  pose proof (addressed_selected b d1) as Hsel. destruct (dirty b) eqn:Ed.
  - rewrite outb_bind. set (dv := wreg 0x1f7 IDE_CMD_WRITE (addressed b d1)).
    exists (mk_drive (regs dv) (command dv) (<[selected dv := bdata b]> (sectors dv)) (reads dv)). split; [reflexivity|].
    split; [exact (Hsel _ Hn)|by rewrite Ed|]. unfold stored. rewrite Ed. cbn [sectors]. unfold dv. by rewrite (Hsel _ Hn).
  - exists (wreg 0x1f7 IDE_CMD_READ (addressed b d1)). split; [reflexivity|].
    split; [exact (Hsel _ Hn)|by rewrite Ed|]. unfold stored. by rewrite Ed.
Qed.

(** ** The queue *)

(** The buffers from [h] along [qnext] are [q]. *)
Fixpoint chain (l : list ibuf) (h : option nat) (q : list nat) : Prop :=
  match q with
  | [] => h = None
  | i :: q' => h = Some i /\ exists b, l !! i = Some b /\ chain l (qnext b) q'
  end.

Lemma chain_ext l l' q : (forall i b, i ∈ q -> l !! i = Some b -> exists b', l' !! i = Some b' /\ qnext b' = qnext b) ->
  forall h, chain l h q -> chain l' h q.
Proof using Type.
  induction q as [|i q IH]; intros Hl h Hc; [done|]. destruct Hc as [-> (b & Hb & Hc)]. split; [done|].
  destruct (Hl i b ltac:(apply list_elem_of_here) Hb) as (b' & Hb' & Hq). exists b'. split; [done|]. rewrite Hq. apply IH; [|done].
  intros j c Hj. apply Hl. by apply list_elem_of_further.
Qed.

Lemma chain_insert l h q i b : chain l h q -> i ∉ q -> chain (<[i := b]> l) h q.
Proof using Type.
  intros Hc Hi. refine (chain_ext l _ q _ h Hc). intros j c Hj Hl. exists c. split; [|done].
  rewrite list_lookup_insert_ne; [done|]. by intros ->.
Qed.

Definition strip (b : ibuf) : ibuf := set_qnext b None.

Lemma strip_insert (l : list ibuf) i b b' : l !! i = Some b' -> strip b = strip b' -> strip <$> <[i := b]> l = strip <$> l.
Proof using Type.
  intros Hi E. rewrite list_fmap_insert, E. apply list_insert_id. by rewrite list_lookup_fmap, Hi.
Qed.

(** Appending at the end of the queue: the last buffer gets a successor. *)
Lemma append_at_spec new q : forall n j s,
  chain (bufs s) (Some j) (j :: q) -> NoDup (j :: q) -> new ∉ j :: q -> (length q < n)%nat ->
  (exists b, bufs s !! new = Some b /\ qnext b = None) ->
  exists k c, k ∈ j :: q /\ bufs s !! k = Some c /\
    let l := <[k := set_qnext c (Some new)]> (bufs s) in
    append_at n j new s = Ret tt (set_bufs l s) /\ chain l (Some j) (j :: q ++ [new]).
Proof using Type.
  induction q as [|k q IH]; intros n j s Hc Hnd Hnew Hn Hb; (destruct n as [|n]; [cbn in Hn; lia|]); cbn [append_at];
    destruct Hc as [_ (b & Hj & Hc)]; rewrite (bind_Ret _ _ _ _ _ (get_buf_spec _ _ _ Hj)).
  - cbn in Hc. rewrite Hc. exists j, b. split; [apply list_elem_of_here|]. split; [done|]. split; [reflexivity|]. split; [done|].
    exists (set_qnext b (Some new)). split; [apply list_lookup_insert_eq; by eapply lookup_lt_Some|]. split; [done|].
    destruct Hb as (c & Hcn & Hq). exists c. split; [|done]. rewrite list_lookup_insert_ne; [done|]. intros ->. apply Hnew, list_elem_of_here.
  - pose proof Hc as [Hq _]. rewrite Hq in Hc |- *. apply NoDup_cons in Hnd as [Hjq Hnd].
    destruct (IH n k s Hc Hnd) as (m & c & Hm & Hmc & E & Hl); [by intros H; apply Hnew, list_elem_of_further|cbn in Hn; lia|done|].
    exists m, c. split; [by apply list_elem_of_further|]. split; [done|]. split; [exact E|]. cbn [app]. split; [done|].
    exists b. split; [rewrite list_lookup_insert_ne; [done|]; by intros ->|]. by rewrite Hq.
Qed.

(** ** Requests served one after the other *)

(** The buffers without their links, the requests that wait, and the disks. *)
Record server := mk_server {
  sv_disk : gmap (Z * Z) block;
  sv_bufs : list ibuf;
  sv_queue : list nat;
  sv_have : bool;
  sv_woken : list nat
}.

Inductive op :=
| Edit (i : nat) (b : ibuf)  (* the process that holds buffer [i] works on it *)
| Request (i : nat)          (* [iderw] *)
| Interrupt.                 (* [ideintr] *)

(** A buffer that [iderw] accepts. *)
Definition good_request (have : bool) (b : ibuf) : bool :=
  held b && negb (Z.land (flags b) (Z.lor B_VALID B_DIRTY) =? B_VALID) && ((bdev b =? 0) || have) &&
  (0 <=? blockno b) && (blockno b <? 1000).

(** Serving a request: a dirty buffer goes to the disk, another one is read. *)
Definition served (b : ibuf) (d : gmap (Z * Z) block) : ibuf :=
  set_flags (if dirty b then b else set_bdata b (default ∅ (d !! loc b)))
    (Z.land (Z.lor (flags b) B_VALID) (Z.lnot B_DIRTY)).

Definition do_op (o : op) (a : server) : option server :=
  match o with
  | Edit i b =>
      if decide (i ∉ sv_queue a /\ (i < length (sv_bufs a))%nat) then
        Some (mk_server (sv_disk a) (<[i := strip b]> (sv_bufs a)) (sv_queue a) (sv_have a) (sv_woken a))
      else None
  | Request i =>
      match sv_bufs a !! i with
      | Some b =>
          if decide (i ∉ sv_queue a /\ good_request (sv_have a) b = true) then
            Some (mk_server (sv_disk a) (sv_bufs a) (sv_queue a ++ [i]) (sv_have a) (sv_woken a))
          else None
      | None => None
      end
  | Interrupt =>
      match sv_queue a with
      | [] => Some a
      | i :: q =>
          match sv_bufs a !! i with
          | Some b => Some (mk_server (stored b (sv_disk a)) (<[i := served b (sv_disk a)]> (sv_bufs a)) q (sv_have a) (sv_woken a ++ [i]))
          | None => None
          end
      end
  end.
Fixpoint do_ops (l : list op) (a : server) : option server :=
  match l with [] => Some a | o :: l' => match do_op o a with Some a' => do_ops l' a' | None => None end end.

(** The driver's steps. *)
Definition edit (i : nat) (b : ibuf) : I unit :=
  let* old := get_buf i in put_buf i (set_qnext b (qnext old)).
Definition run_op (o : op) : I unit :=
  match o with
  | Edit i b => edit i b
  | Request i => iderw status fuel i
  | Interrupt => ideintr status fuel
  end.
Fixpoint run_ops (l : list op) : I unit :=
  match l with [] => ret tt | o :: l' => do* run_op o in run_ops l' end.

(** The driver is in the state of the server. *)
Record sim (s : ide) (a : server) : Prop := {
  sm_bufs : strip <$> bufs s = sv_bufs a;
  sm_chain : chain (bufs s) (idequeue s) (sv_queue a);
  sm_nodup : NoDup (sv_queue a);
  sm_good : forall i b, i ∈ sv_queue a -> sv_bufs a !! i = Some b -> good_request (sv_have a) b = true;
  sm_have : havedisk1 s = sv_have a;
  sm_woken : woken s = sv_woken a;
  sm_drive : match sv_queue a with
    | [] => sectors (drv s) = sv_disk a
    | i :: _ => exists b, sv_bufs a !! i = Some b /\ working (drv s) b (sv_disk a)
    end
}.

Lemma sim_lookup s a i : sim s a -> sv_bufs a !! i = strip <$> (bufs s !! i).
Proof using Type. intros H. by rewrite <- (sm_bufs _ _ H), list_lookup_fmap. Qed.

Lemma chain_in l q : forall h i, chain l h q -> i ∈ q -> exists b, l !! i = Some b.
Proof using Type.
  induction q as [|j q IH]; intros h i Hc Hi; [by apply not_elem_of_nil in Hi|]. destruct Hc as [_ (b & Hb & Hc)].
  apply elem_of_cons in Hi as [->|Hi]; [by exists b|by eapply IH].
Qed.

Lemma nodup_bound (q : list nat) n : NoDup q -> (forall i, i ∈ q -> (i < n)%nat) -> (length q <= n)%nat.
Proof using Type.
  intros Hnd Hb. rewrite <- (length_seq n 0). apply submseteq_length, NoDup_submseteq; [done|].
  intros i Hi. apply elem_of_seq. specialize (Hb i Hi). lia.
Qed.

Lemma edit_sim s a i b a' : sim s a -> do_op (Edit i b) a = Some a' -> exists s', edit i b s = Ret tt s' /\ sim s' a' /\ length (bufs s') = length (bufs s).
Proof using Type.
  intros Hs. cbn [do_op]. case_decide as Hd; [|done]. destruct Hd as [Hi Hlt]. intros [= <-].
  rewrite <- (sm_bufs _ _ Hs), length_fmap in Hlt. destruct (lookup_lt_is_Some_2 _ _ Hlt) as [old Ho].
  eexists. unfold edit. rewrite (bind_Ret _ _ _ _ _ (get_buf_spec _ _ _ Ho)). split; [reflexivity|]. split; [|apply length_insert].
  destruct Hs as [H1 H2 H3 H4 H5 H6 H7]. split; cbn [bufs idequeue havedisk1 woken drv set_bufs sv_bufs sv_queue sv_have sv_woken sv_disk]; try done.
  - by rewrite list_fmap_insert, H1.
  - by apply chain_insert.
  - intros j c Hj. rewrite list_lookup_insert_ne by (by intros ->). by apply H4.
  - destruct (sv_queue a) as [|k q]; [done|]. destruct H7 as (c & Hc & Hw). exists c. split; [|done].
    rewrite list_lookup_insert_ne; [done|]. intros ->. apply Hi, list_elem_of_here.
Qed.

Lemma good_request_inv have b : good_request have b = true ->
  held b = true /\ (Z.land (flags b) (Z.lor B_VALID B_DIRTY) =? B_VALID) = false /\
  negb (bdev b =? 0) && negb have = false /\ 0 <= blockno b < 1000.
Proof using Type.
  unfold good_request. rewrite !andb_true_iff. intros [[[[H1 H2] H3] H4%Z.leb_le] H5%Z.ltb_lt].
  apply negb_true_iff in H2. split_and!; try done. by destruct (bdev b =? 0), have.
Qed.

Lemma request_sim s a i a' : (length (bufs s) <= fuel)%nat -> sim s a -> do_op (Request i) a = Some a' ->
  exists s', iderw status fuel i s = Ret tt s' /\ sim s' a' /\ length (bufs s') = length (bufs s).
Proof using Hdrive.
  intros Hfuel Hs. cbn [do_op]. rewrite (sim_lookup s a i Hs). destruct (bufs s !! i) as [b|] eqn:Hb; [|done]. cbn [fmap option_fmap option_map].
  case_decide as Hd; [|done]. destruct Hd as [Hi Hg]. intros [= <-]. destruct (good_request_inv _ _ Hg) as (G1 & G2 & G3 & G4).
  unfold iderw. rewrite (bind_Ret _ _ _ _ _ (get_buf_spec _ _ _ Hb)). cbn [strip set_qnext held flags bdev blockno] in G1, G2, G3, G4.
  rewrite G1, G2. cbn [negb]. unfold gets at 1. unfold bind at 1. rewrite (sm_have _ _ Hs), G3.
  set (s1 := set_bufs (<[i := strip b]> (bufs s)) s). unfold put_buf, modify at 1. unfold bind at 1. fold (strip b) s1.
  unfold gets at 1. unfold bind at 1. change (idequeue s1) with (idequeue s).
  assert (Hb1 : bufs s1 !! i = Some (strip b)) by (apply list_lookup_insert_eq; by eapply lookup_lt_Some).
  assert (Hst : strip <$> bufs s1 = sv_bufs a) by (rewrite <- (sm_bufs _ _ Hs); by eapply strip_insert).
  assert (Hc1 : chain (bufs s1) (idequeue s) (sv_queue a)) by (apply chain_insert; [apply Hs|done]).
  assert (Hlen : length (bufs s1) = length (bufs s)) by apply length_insert.
  assert (Hbs : sv_bufs a !! i = Some (strip b)) by (by rewrite (sim_lookup s a i Hs), Hb).
  pose proof Hs as [_ _ H3 H4 H5 H6 H7]. destruct (sv_queue a) as [|j q] eqn:Eq.
  - cbn in Hc1. rewrite Hc1. unfold modify, gets. unfold bind. cbn [idequeue set_queue]. rewrite decide_True by done.
    destruct (idestart_spec (set_queue (Some i) s1) i (strip b) Hb1 G4) as (dv & E & Hw). eexists. split; [exact E|]. split; [|done].
    split; cbn; try done.
    + split; [done|]. by exists (strip b).
    + apply NoDup_singleton.
    + intros k c ->%list_elem_of_singleton. rewrite Hbs. by intros [= <-].
    + exists (strip b). split; [done|]. by rewrite <- H7.
  - pose proof Hc1 as [Hq _]. rewrite Hq in Hc1 |- *.
    destruct (append_at_spec i q fuel j s1 Hc1 H3 Hi) as (k & c & Hk & Hkc & E & Hl); [|by exists (strip b)|].
    { assert (Hle : (length (j :: q) <= length (bufs s1))%nat).
      { apply nodup_bound; [done|]. intros m Hm. destruct (chain_in _ _ _ m Hc1 Hm) as (x & Hx). by eapply lookup_lt_Some. }
      rewrite length_cons in Hle. lia. }
    rewrite (bind_Ret _ _ _ _ _ E). unfold gets, bind. cbn [idequeue set_bufs]. change (idequeue s1) with (idequeue s). rewrite Hq, decide_False.
    2: { intros [= ->]. apply Hi, list_elem_of_here. }
    eexists. split; [reflexivity|]. split; [|cbn; by rewrite length_insert].
    split; cbn [bufs idequeue havedisk1 woken drv set_bufs sv_bufs sv_queue sv_have sv_woken sv_disk]; try done.
    + rewrite <- Hst. by eapply strip_insert.
    + rewrite <- Hq in Hl. exact Hl.
    + apply NoDup_app. split; [done|]. split; [|apply NoDup_singleton]. intros m Hm ->%list_elem_of_singleton. done.
    + intros m x [Hm|Hm%list_elem_of_singleton]%elem_of_app; [by apply H4|]. subst m. rewrite Hbs. by intros [= <-].
Qed.

Lemma served_strip b d : strip (served b d) = served (strip b) d.
Proof using Type. unfold served. change (dirty (strip b)) with (dirty b). by destruct (dirty b). Qed.

(** Up to the wake-up, the interrupt handler finishes the first request. *)
Lemma ide_finish_spec s i b d : bufs s !! i = Some b -> idequeue s = Some i -> working (drv s) (strip b) d ->
  exists k, ideintr status fuel s =
    (match qnext b with Some _ => idestart status fuel (qnext b) | None => ret tt end)
      (add_woken i (set_bufs (<[i := served b d]> (bufs s)) (set_queue (qnext b) (waited k s)))).
Proof using Hdrive.
  intros Hb Hq [W1 W2 W3]. change (loc (strip b)) with (loc b) in W1. unfold stored in W3. change (dirty (strip b)) with (dirty b) in W3.
  assert (Hlt := lookup_lt_Some _ _ _ Hb). unfold ideintr, gets at 1. unfold bind at 1. rewrite Hq.
  rewrite (bind_Ret _ _ _ _ _ (get_buf_spec _ _ _ Hb)). set (s1 := set_queue (qnext b) s). unfold modify at 1. unfold bind at 1. fold s1.
  assert (Hfin : forall s2 c, bufs s2 !! i = Some c -> idequeue s2 = qnext b ->
    (let* b := get_buf i in
     do* put_buf i (set_flags b (Z.land (Z.lor (flags b) B_VALID) (Z.lnot B_DIRTY))) in
     do* modify (add_woken i) in
     let* q := gets idequeue in
     match q with Some _ => idestart status fuel q | None => ret tt end) s2 =
    (match qnext b with Some _ => idestart status fuel (qnext b) | None => ret tt end)
      (add_woken i (set_bufs (<[i := set_flags c (Z.land (Z.lor (flags c) B_VALID) (Z.lnot B_DIRTY))]> (bufs s2)) s2))).
  { intros s2 c Hc Hq2. rewrite (bind_Ret _ _ _ _ _ (get_buf_spec _ _ _ Hc)). unfold put_buf, modify, gets, bind. cbn [idequeue set_bufs add_woken]. by rewrite Hq2. }
  unfold served. destruct (dirty b) eqn:Ed.
  - exists (reads (drv s)). assert (Z.land (flags b) B_DIRTY =? 0 = false) as -> by (by apply negb_true_iff).
    unfold ret at 1. unfold bind at 1. rewrite (Hfin s1 b Hb eq_refl). unfold waited. by destruct s as [? ? ? [? ? ? ?] ? ?].
  - assert (Z.land (flags b) B_DIRTY =? 0 = true) as -> by (by apply negb_false_iff).
    destruct (idewait_spec true s1) as (k & Ek). exists k. rewrite bind_assoc, (bind_Ret _ _ _ _ _ Ek).
    assert (Ei : insl (waited k s1) = Ret (default ∅ (d !! loc b)) (waited k s1)).
    { unfold insl, data_in, gets, bind. cbn [drv waited set_drv command sectors]. change (drv s1) with (drv s).
      rewrite decide_True by (by rewrite W2; change (dirty (strip b)) with (dirty b); rewrite Ed).
      change (selected _) with (selected (drv s)). by rewrite W1, W3. }
    rewrite bind_assoc, (bind_Ret _ _ _ _ _ Ei). unfold put_buf at 1, modify at 1, bind at 1. erewrite Hfin; [|by apply list_lookup_insert_eq|done]. cbn [bufs set_bufs waited set_drv s1 set_queue].
    by rewrite list_insert_insert_eq.
Qed.

Lemma interrupt_sim s a a' : sim s a -> do_op Interrupt a = Some a' ->
  exists s', ideintr status fuel s = Ret tt s' /\ sim s' a' /\ length (bufs s') = length (bufs s).
Proof using Hdrive.
  intros Hs. cbn [do_op]. pose proof Hs as [H1 H2 H3 H4 H5 H6 H7]. destruct (sv_queue a) as [|i q] eqn:Eq.
  - intros [= <-]. exists s. split; [|by split]. cbn in H2. unfold ideintr, gets, bind. by rewrite H2.
  - destruct (sv_bufs a !! i) as [b0|] eqn:Eb; [|done]. intros [= <-]. destruct H2 as [Hq (b & Hb & Hc)]. apply NoDup_cons in H3 as [Hiq Hnd].
    assert (b0 = strip b) as -> by (rewrite (sim_lookup s a i Hs), Hb in Eb; by injection Eb).
    destruct H7 as (b' & Eb' & Hw). assert (b' = strip b) as -> by congruence.
    destruct (ide_finish_spec s i b (sv_disk a) Hb Hq Hw) as (k & ->). assert (Hlt := lookup_lt_Some _ _ _ Hb).
    set (s1 := add_woken _ _).
    assert (Hbf : strip <$> bufs s1 = <[i := served (strip b) (sv_disk a)]> (sv_bufs a)) by (cbn; by rewrite list_fmap_insert, H1, served_strip).
    assert (Hch : chain (bufs s1) (qnext b) q) by (by apply chain_insert).
    assert (Hgd : forall j c, j ∈ q -> <[i := served (strip b) (sv_disk a)]> (sv_bufs a) !! j = Some c -> good_request (sv_have a) c = true).
    { intros j c Hj. rewrite list_lookup_insert_ne by (by intros ->). apply H4. by apply list_elem_of_further. }
    assert (Hlen : length (bufs s1) = length (bufs s)) by apply length_insert. assert (Hsec := wk_sectors _ _ _ Hw).
    destruct q as [|j q].
    + cbn in Hch. rewrite Hch. eexists. split; [reflexivity|]. split; [|done].
      split; cbn [sv_bufs sv_queue sv_disk sv_have sv_woken]; try done; cbn; by rewrite ?H6.
    + pose proof Hch as [Hn (c & Hcj & Hcq)]. rewrite Hn.
      assert (Ej : <[i := served (strip b) (sv_disk a)]> (sv_bufs a) !! j = Some (strip c)) by (by rewrite <- Hbf, list_lookup_fmap, Hcj).
      destruct (good_request_inv _ _ (Hgd j (strip c) ltac:(apply list_elem_of_here) Ej)) as (_ & _ & _ & Hbn).
      destruct (idestart_spec s1 j c Hcj Hbn) as (dv & -> & Hwk). eexists. split; [reflexivity|]. split; [|exact Hlen].
      split; cbn [sv_bufs sv_queue sv_disk sv_have sv_woken]; try done; [cbn; by rewrite H6|].
      exists (strip c). split; [done|]. destruct Hwk as [K1 K2 K3]. cbn in K3. rewrite Hsec in K3. by split.
Qed.

(** C8. The driver refines the server: whatever processes and interrupts do, in any
    order, as long as processes only touch buffers that are not queued and only
    request what [iderw] accepts, every [iderw] and every [ideintr] returns, and
    the buffers, the order of the wake-ups and, once no request is left, the
    sectors of the disks are those of the server that takes one request at a time
    from the front of its queue. *)
Theorem ide_refines_server ops : forall s a a',
  (length (bufs s) <= fuel)%nat -> sim s a -> do_ops ops a = Some a' ->
  exists s', run_ops ops s = Ret tt s' /\ sim s' a'.
Proof using Hdrive.
  induction ops as [|o ops IH]; intros s a a' Hf Hs Hd; cbn [do_ops run_ops] in *; [injection Hd as <-; by exists s|].
  destruct (do_op o a) as [a1|] eqn:E1; [|done].
  assert (Hstep : exists s1, run_op o s = Ret tt s1 /\ sim s1 a1 /\ length (bufs s1) = length (bufs s)).
  { destruct o as [i b|i|]; [by eapply edit_sim|by eapply request_sim|by eapply interrupt_sim]. }
  destruct Hstep as (s1 & E & Hs1 & Hl). rewrite (bind_Ret _ _ _ _ _ E). apply (IH s1 a1); [lia|done|done].
Qed.

Lemma valid_flags f : Z.land (Z.land (Z.lor f B_VALID) (Z.lnot B_DIRTY)) (Z.lor B_VALID B_DIRTY) = B_VALID.
Proof using Type.
  rewrite <- Z.land_assoc. change (Z.land (Z.lnot B_DIRTY) (Z.lor B_VALID B_DIRTY)) with B_VALID.
  apply Z.bits_inj'. intros n Hn. rewrite Z.land_spec, Z.lor_spec. by destruct (Z.testbit f n), (Z.testbit B_VALID n).
Qed.
End Ide.

(** A read that fails looks like one that succeeded: when the drive reports an
    error, [ideintr] leaves the data of the buffer as they are and marks it valid,
    so that the [iderw] that waits for it returns. *)
Theorem ideintr_error_marks_valid status fuel s i b :
  bufs s !! i = Some b -> idequeue s = Some i -> qnext b = None -> Z.land (flags b) B_DIRTY = 0 -> (0 < fuel)%nat ->
  Z.land (u8 (status (reads (drv s)))) (Z.lor IDE_BSY IDE_DRDY) = IDE_DRDY ->
  Z.land (u8 (status (reads (drv s)))) (Z.lor IDE_DF IDE_ERR) <> 0 ->
  exists s' b', ideintr status fuel s = Ret tt s' /\ bufs s' !! i = Some b' /\ bdata b' = bdata b /\
    iderw_waits i s' = Ret false s'.
Proof.
  intros Hb Hq Hn Hd Hf Hr He. destruct fuel as [|fuel]; [lia|]. assert (Hlt := lookup_lt_Some _ _ _ Hb).
  unfold ideintr, gets at 1. unfold bind at 1. rewrite Hq, (bind_Ret _ _ _ _ _ (get_buf_spec _ _ _ Hb)), Hd, Hn.
  unfold modify at 1. unfold bind at 1. cbn [Z.eqb idewait]. unfold inb_status, gets, modify, ret. unfold bind.
  cbn [drv set_queue]. rewrite Hr. apply Z.eqb_neq in He. rewrite He. cbn [negb andb Z.eqb IDE_DRDY Pos.eqb].
  unfold get_buf at 1. cbn [bufs set_drv set_queue]. rewrite Hb. cbn [idequeue put_buf modify set_bufs add_woken set_drv set_queue].
  eexists _, _. split; [reflexivity|]. cbn [bufs set_bufs add_woken set_drv set_queue]. split; [by apply list_lookup_insert_eq|]. split; [done|].
  unfold iderw_waits, get_buf, bind, ret. cbn [bufs set_bufs add_woken set_drv set_queue]. rewrite list_lookup_insert_eq by done.
  cbn [flags set_flags]. by rewrite valid_flags.
Qed.

(** ** Two requests *)

(** Buffer 0 is to be read, buffer 1, for the same block, to be written. *)
Definition ex_bufs : list ibuf :=
  [mk_ibuf 0 1 7 None true ∅; mk_ibuf B_DIRTY 1 7 None true {[0 := 65]}].
Definition ex_ide : ide := mk_ide ex_bufs None true (mk_drive ∅ None {[(1, 7) := {[0 := 42]}]} 0) [] [].
Definition ex_server : server := mk_server {[(1, 7) := {[0 := 42]}]} ex_bufs [] true [].
Definition ex_ops : list op := [Request 0; Request 1; Interrupt; Interrupt].

Lemma ex_drive_ok : drive_ok (fun _ => IDE_DRDY) 2.
Proof. split; [intros k; exists 0%nat; split; [lia|reflexivity]|reflexivity]. Qed.

Lemma ex_sim : sim ex_ide ex_server.
Proof. split; try reflexivity; [constructor|]. intros i b Hi. by apply not_elem_of_nil in Hi. Qed.

(** The read sees the old contents, the disk ends with the new ones. *)
Lemma ide_refines_server_witness :
  let a' := default ex_server (do_ops ex_ops ex_server) in
  (exists s', run_ops (fun _ => IDE_DRDY) 2 ex_ops ex_ide = Ret tt s' /\ sim s' a') /\
  (bdata <$> sv_bufs a' !! 0%nat) = Some {[0 := 42]} /\ sv_disk a' !! (1, 7) = Some {[0 := 65]} /\ sv_woken a' = [0; 1]%nat.
Proof.
  split; [|vm_compute; auto]. apply (ide_refines_server (fun _ => IDE_DRDY) 2 ex_drive_ok ex_ops ex_ide ex_server).
  - cbn. lia.
  - exact ex_sim.
  - vm_compute. reflexivity.
Defined.

Lemma ideintr_error_marks_valid_witness : exists s' b',
  ideintr (fun _ => 0x41) 1 (set_queue (Some 0%nat) ex_ide) = Ret tt s' /\ bufs s' !! 0%nat = Some b' /\ bdata b' = ∅ /\
  iderw_waits 0 s' = Ret false s'.
Proof.
  apply (ideintr_error_marks_valid (fun _ => 0x41) 1 (set_queue (Some 0%nat) ex_ide) 0 (mk_ibuf 0 1 7 None true ∅)); try reflexivity.
  - lia.
  - discriminate.
Defined.
