(* ===== verification/Boot.v ===== *)
(** * The boot loader (bootmain.c)

    Reads the kernel's ELF image from the disk, sector by sector, into physical
    memory.  The drive is that of Ide.v; a pointer is a 32-bit physical
    address. *)
From S2P Require Import Prelude Memory KString Log Ide Exec.

Definition SECTSIZE : Z := 512.
Definition ph_paddr : Z := 12.

Record bstate := mk_bstate { pmem : mem; bdrv : drive }.
Definition B := M bstate.

Definition set_pmem (m : mem) (s : bstate) : bstate := mk_bstate m (bdrv s).

Definition boutb (port v : Z) : B unit :=
  modify (fun s =>
    let d := bdrv s in
    mk_bstate (pmem s) (mk_drive (<[port := u8 v]> (regs d)) (if port =? 0x1F7 then Some (u8 v) else command d) (sectors d) (reads d))).

(** [insl(0x1F0, dst, SECTSIZE/4)]: the 512 bytes of the selected sector, if the drive
    has been told to read one. *)
Fixpoint copy_in (m : mem) (dst : Z) (x : block) (o : Z) (n : nat) : mem :=
  match n with
  | O => m
  | S k => copy_in (write8 m (u32 (dst + o)) (read8 x o)) dst x (o + 1) k
  end.
Definition binsl (dst : Z) : B unit :=
  let* d := gets bdrv in
  match data_in d with
  | Some x => modify (fun s => set_pmem (copy_in (pmem s) dst x 0 (Z.to_nat SECTSIZE)) s)
  | None => fault "insl: no read command"
  end.

Section Boot.
Context (status : nat -> Z).

Fixpoint waitdisk (fuel : nat) : B unit :=
  match fuel with
  | O => fun _ => OutOfFuel
  | S k =>
      let* n := gets (fun s => reads (bdrv s)) in
      do* modify (fun s => let d := bdrv s in mk_bstate (pmem s) (mk_drive (regs d) (command d) (sectors d) (S (reads d)))) in
      if negb (Z.land (u8 (status n)) 0xC0 =? 0x40) then waitdisk k else ret tt
  end.

Definition readsect (fuel : nat) (dst offset : Z) : B unit :=
  do* waitdisk fuel in
  do* boutb 0x1F2 1 in
  do* boutb 0x1F3 offset in
  do* boutb 0x1F4 (Z.shiftr offset 8) in
  do* boutb 0x1F5 (Z.shiftr offset 16) in
  do* boutb 0x1F6 (Z.lor (Z.shiftr offset 24) 0xE0) in
  do* boutb 0x1F7 0x20 in
  do* waitdisk fuel in
  binsl dst.

(** [for(; pa < epa; pa += SECTSIZE, offset++)] *)
Fixpoint readseg_loop (n fuel : nat) (pa epa offset : Z) : B unit :=
  match n with
  | O => fun _ => OutOfFuel
  | S k =>
      if pa <? epa then
        do* readsect fuel pa offset in
        readseg_loop k fuel (u32 (pa + SECTSIZE)) epa (u32 (offset + 1))
      else ret tt
  end.
(** At most one sector more than [count] covers is touched at either end. *)
Definition readseg (fuel : nat) (pa count offset : Z) : B unit :=
  let epa := u32 (pa + count) in
  let pa := u32 (pa - offset mod SECTSIZE) in
  let offset := offset / SECTSIZE + 1 in
  readseg_loop (Z.to_nat (count / SECTSIZE + 3)) fuel pa epa offset.

(** The program headers, [n] of them from [ph] on. *)
Fixpoint load_segments (n fuel : nat) (ph : Z) : B unit :=
  match n with
  | O => ret tt
  | S k =>
      let* m := gets pmem in
      let pa := read32 m (ph + ph_paddr) in
      do* readseg fuel pa (read32 m (ph + ph_filesz)) (read32 m (ph + ph_off)) in
      let* m := gets pmem in
      let filesz := read32 m (ph + ph_filesz) in
      let memsz := read32 m (ph + ph_memsz) in
      do* (if filesz <? memsz then
             modify (fun s => set_pmem (stosb (pmem s) (u32 (pa + filesz)) 0 (Z.to_nat (memsz - filesz))) s)
           else ret tt) in
      load_segments k fuel (ph + sizeof_proghdr)
  end.

(** The entry point that is called, or [None] when [bootmain] returns. *)
Definition bootmain (fuel : nat) : B (option Z) :=
  let elf := 0x10000 in
  do* readseg fuel elf 4096 0 in
  let* m := gets pmem in
  if negb (read32 m (elf + elf_magic) =? ELF_MAGIC) then ret None
  else
    let ph := elf + read32 m (elf + elf_phoff) in
    do* load_segments (Z.to_nat (read16 m (elf + elf_phnum))) fuel ph in
    let* m := gets pmem in
    ret (Some (read32 m (elf + elf_entry))).
End Boot.
