(* ===== verification/BootProof.v ===== *)
(** * The kernel in memory

    [bootmain] leaves every segment of the kernel's ELF image where its program
    header says, although each read may touch up to a sector more than asked. *)
From S2P Require Import Prelude Memory KString Log Ide Exec Boot.

(** The byte at position [p] of the first disk. *)
Definition dbyte (secs : gmap (Z * Z) block) (p : Z) : Z := read8 (default ∅ (secs !! (0, p / 512))) (p mod 512).

(** Bytes [lo .. hi) come from the disk, from position [p] on; the others are as
    before. *)
Definition filled_from (secs : gmap (Z * Z) block) (m m' : mem) (lo hi p : Z) : Prop :=
  forall a, read8 m' a = if decide (lo <= a < hi) then dbyte secs (p + (a - lo)) else read8 m a.

Lemma read8_copy_in n : forall m dst x o a, 0 <= dst -> 0 <= o -> dst + o + Z.of_nat n <= 4294967296 ->
  read8 (copy_in m dst x o n) a = if decide (dst + o <= a < dst + o + Z.of_nat n) then read8 x (a - dst) else read8 m a.
Proof.
  induction n as [|n IH]; intros m dst x o a Hd Ho Hn; cbn [copy_in].
  - by rewrite decide_False by lia.
  - rewrite IH, (u32_small (dst + o)) by lia. destruct (decide (a = dst + o)) as [->|Hne].
    + rewrite decide_False, decide_True, read8_write8_eq by lia. replace (dst + o - dst) with o by lia. apply u8_small, read8_range.
    + rewrite read8_write8_ne by congruence. repeat case_decide; (done || lia).
Qed.

Section Boot.
Context (status : nat -> Z) (fuel : nat).
Hypothesis Hready : forall k, exists j, (j < fuel)%nat /\ Z.land (u8 (status (k + j))) 0xC0 = 0x40.

Lemma waitdisk_loop n : forall s j, (j < n)%nat -> Z.land (u8 (status (reads (bdrv s) + j))) 0xC0 = 0x40 ->
  exists k, waitdisk status n s = Ret tt (mk_bstate (pmem s) (mk_drive (regs (bdrv s)) (command (bdrv s)) (sectors (bdrv s)) k)).
Proof using Type.
  induction n as [|n IH]; intros s j Hj Hr; [lia|]. cbn [waitdisk]. unfold gets, modify, bind, ret.
  destruct (Z.eqb_spec (Z.land (u8 (status (reads (bdrv s)))) 0xC0) 0x40) as [E|E]; cbn [negb]; [by eexists|].
  destruct j as [|j]; [by rewrite Nat.add_0_r in Hr|]. set (s1 := mk_bstate _ _).
  destruct (IH s1 j) as (k & Ek); [lia|cbn; by rewrite <- Nat.add_succ_comm in Hr|]. exists k. exact Ek.
Qed.

Lemma waitdisk_spec s : exists k,
  waitdisk status fuel s = Ret tt (mk_bstate (pmem s) (mk_drive (regs (bdrv s)) (command (bdrv s)) (sectors (bdrv s)) k)).
Proof using Hready. destruct (Hready (reads (bdrv s))) as (j & Hj & Hr). by eapply waitdisk_loop. Qed.

Definition bwreg (p v : Z) (d : drive) : drive :=
  mk_drive (<[p := u8 v]> (regs d)) (if p =? 0x1F7 then Some (u8 v) else command d) (sectors d) (reads d).
Lemma boutb_bind p v (m : B unit) s : (do* boutb p v in m) s = m (mk_bstate (pmem s) (bwreg p v (bdrv s))).
Proof using Type. reflexivity. Qed.
Lemma reg_bwreg p v d q : reg (bwreg p v d) q = if decide (q = p) then u8 v else reg d q.
Proof using Type. unfold reg, bwreg. cbn. case_decide; [subst; by rewrite lookup_insert_eq|by rewrite lookup_insert_ne by congruence]. Qed.

(** The registers select sector [offset] of the first disk. *)
Lemma select_sector offset : 0 <= offset < 16777216 ->
  (Z.land (Z.shiftr (u8 (Z.lor (Z.shiftr offset 24) 0xE0)) 4) 1,
   Z.lor (Z.lor (u8 offset) (Z.shiftl (u8 (Z.shiftr offset 8)) 8))
     (Z.lor (Z.shiftl (u8 (Z.shiftr offset 16)) 16) (Z.shiftl (Z.land (u8 (Z.lor (Z.shiftr offset 24) 0xE0)) 0x0f) 24))) = (0, offset).
Proof using Type.
  intros Ho. rewrite !Z.shiftr_div_pow2 by lia. change (2 ^ 8) with 256. change (2 ^ 16) with 65536. change (2 ^ 24) with 16777216.
  rewrite (Z.div_small offset 16777216) by lia. change (Z.land (u8 (Z.lor 0 0xE0)) 0x0f) with 0. rewrite Z.shiftl_0_l, Z.lor_0_r.
  f_equal. unfold u8. rewrite (Z.mod_small (offset / 65536)) by (Z.div_mod_to_equations; lia).
  rewrite (Z.lor_comm (offset mod 256)), lor_shiftl_add by (lia || (change (2 ^ 8) with 256; apply Z.mod_pos_bound; lia)).
  change (2 ^ 8) with 256. rewrite Z.lor_comm, lor_shiftl_add.
  - change (2 ^ 16) with 65536. Z.div_mod_to_equations. lia.
  - lia.
  - change (2 ^ 16) with 65536. pose proof (Z.mod_pos_bound offset 256). pose proof (Z.mod_pos_bound (offset / 256) 256). lia.
Qed.

Lemma readsect_spec s dst offset : 0 <= dst -> dst + 512 <= 4294967296 -> 0 <= offset < 16777216 ->
  exists s', readsect status fuel dst offset s = Ret tt s' /\ sectors (bdrv s') = sectors (bdrv s) /\
    filled_from (sectors (bdrv s)) (pmem s) (pmem s') dst (dst + 512) (512 * offset).
Proof using Hready.
  intros Hd Hd' Ho. unfold readsect. destruct (waitdisk_spec s) as (k & Ek). rewrite (bind_Ret _ _ _ _ _ Ek). rewrite !boutb_bind.
  set (s1 := mk_bstate _ _). destruct (waitdisk_spec s1) as (k1 & Ek1). rewrite (bind_Ret _ _ _ _ _ Ek1).
  unfold binsl, data_in, gets, bind at 1. cbn [bdrv command]. rewrite decide_True by reflexivity.
  eexists. split; [reflexivity|]. split; [reflexivity|]. intros a. cbn [pmem set_pmem bdrv sectors].
  assert (Hsel : selected (mk_drive (regs (bdrv s1)) (command (bdrv s1)) (sectors (bdrv s1)) k1) = (0, offset)).
  { change (selected (bdrv s1) = (0, offset)). unfold selected, s1. cbn [bdrv]. rewrite !reg_bwreg. repeat rewrite decide_False by lia.
    repeat rewrite decide_True by lia. by apply select_sector. }
  rewrite Hsel, read8_copy_in by (rewrite ?Z2Nat.id; unfold SECTSIZE; lia). rewrite Z2Nat.id by done. unfold SECTSIZE. rewrite Z.add_0_r.
  change (sectors (bdrv s1)) with (sectors (bdrv s)). change (pmem s1) with (pmem s). case_decide as Hr; [|done]. unfold dbyte.
  replace ((512 * offset + (a - dst)) / 512) with offset by (Z.div_mod_to_equations; lia).
  replace ((512 * offset + (a - dst)) mod 512) with (a - dst) by (Z.div_mod_to_equations; lia). done.
Qed.

Lemma readseg_loop_spec j : forall n s pa epa offset, (j < n)%nat -> 0 <= pa -> pa + 512 * Z.of_nat j < 4294967296 ->
  epa <= pa + 512 * Z.of_nat j -> pa + 512 * (Z.of_nat j - 1) < epa \/ (j = 0)%nat -> 0 <= offset -> offset + Z.of_nat j < 16777216 ->
  exists s', readseg_loop status n fuel pa epa offset s = Ret tt s' /\ sectors (bdrv s') = sectors (bdrv s) /\
    filled_from (sectors (bdrv s)) (pmem s) (pmem s') pa (pa + 512 * Z.of_nat j) (512 * offset).
Proof using Hready.
  induction j as [|j IH]; intros n s pa epa offset Hn Hp Hmax Hle Hgt Ho Hom; (destruct n as [|n]; [lia|]); cbn [readseg_loop].
  - destruct (Z.ltb_spec pa epa); [lia|]. exists s. split; [done|]. split; [done|]. intros a. by rewrite decide_False by lia.
  - destruct (Z.ltb_spec pa epa); [|lia]. destruct (readsect_spec s pa offset Hp ltac:(lia) ltac:(lia)) as (s1 & E1 & D1 & F1).
    rewrite (bind_Ret _ _ _ _ _ E1). unfold SECTSIZE. rewrite !u32_small by lia.
    destruct (IH n s1 (pa + 512) epa (offset + 1)) as (s' & E & D & F); [lia..|].
    exists s'. split; [done|]. split; [by rewrite D|]. intros a. rewrite F, F1, D1.
    repeat case_decide; try done; try lia. f_equal. lia.
Qed.

(** A segment of [count] bytes at [offset] of the image, which starts in sector 1. *)
Lemma readseg_spec s pa count offset : 0 <= count -> 0 <= offset -> offset mod 512 <= pa -> pa + count + 512 < 4294967296 ->
  offset + count < 8000000000 ->
  exists s' hi, readseg status fuel pa count offset s = Ret tt s' /\ sectors (bdrv s') = sectors (bdrv s) /\
    pa + count <= hi < pa + count + 512 /\
    filled_from (sectors (bdrv s)) (pmem s) (pmem s') (pa - offset mod 512) hi (512 + offset - offset mod 512).
Proof using Hready.
  intros Hc Ho Hp Hmax Hdisk. unfold readseg, SECTSIZE. assert (Hmod := Z.mod_pos_bound offset 512 ltac:(lia)).
  rewrite !u32_small by lia. set (j := Z.to_nat ((count + offset mod 512 + 511) / 512)).
  assert (Hj : Z.of_nat j = (count + offset mod 512 + 511) / 512) by (unfold j; rewrite Z2Nat.id; [done|Z.div_mod_to_equations; lia]).
  destruct (readseg_loop_spec j (Z.to_nat (count / 512 + 3)) s (pa - offset mod 512) (pa + count) (offset / 512 + 1)) as (s' & E & D & F).
  - apply Nat2Z.inj_lt. rewrite Hj, Z2Nat.id by (Z.div_mod_to_equations; lia). clear Hj j. Z.div_mod_to_equations. lia.
  - lia.
  - rewrite Hj. clear Hj j. Z.div_mod_to_equations. lia.
  - rewrite Hj. clear Hj j. Z.div_mod_to_equations. lia.
  - destruct j; [by right|left]. rewrite Hj. clear Hj. Z.div_mod_to_equations. lia.
  - Z.div_mod_to_equations. lia.
  - rewrite Hj. clear Hj j. Z.div_mod_to_equations. lia.
  - exists s', (pa - offset mod 512 + 512 * Z.of_nat j). split; [done|]. split; [done|]. split.
    + rewrite Hj. clear -Hmod Hc. Z.div_mod_to_equations. lia.
    + replace (512 + offset - offset mod 512) with (512 * (offset / 512 + 1)) by (Z.div_mod_to_equations; lia). done.
Qed.

(** ** Segments *)

(** The kernel's image: [ksize] bytes from sector 1 on. *)
Context (kimg : mem) (ksize : Z) (secs : gmap (Z * Z) block).
Hypothesis Hdisk : forall o, 0 <= o < ksize -> dbyte secs (512 + o) = read8 kimg o.
Hypothesis Hksize : 4096 <= ksize < 8000000000.

Definition phoff : Z := read32 kimg elf_phoff.
Definition phnum : nat := Z.to_nat (read16 kimg elf_phnum).
Definition phdr (i : nat) (f : Z) : Z := read32 kimg (phoff + 32 * Z.of_nat i + f).

(** What loading segment [i] may write to, and what belongs to the segment. *)
Definition touches (i : nat) (a : Z) : Prop :=
  phdr i ph_paddr - phdr i ph_off mod 512 <= a < phdr i ph_paddr + Z.max (phdr i ph_memsz) (phdr i ph_filesz + 512).
Definition owns (i : nat) (a : Z) : Prop :=
  phdr i ph_paddr <= a < phdr i ph_paddr + Z.max (phdr i ph_memsz) (phdr i ph_filesz).

Record segment_ok (i : nat) : Prop := {
  sg_low : phdr i ph_off mod 512 <= phdr i ph_paddr;
  sg_high : phdr i ph_paddr + Z.max (phdr i ph_memsz) (phdr i ph_filesz + 512) < 4294967296;
  sg_file : phdr i ph_off + phdr i ph_filesz <= ksize;
  sg_header : forall a, touches i a -> ~ (0x10000 <= a < 0x11000)
}.

(** The first page of the image is in the scratch space. *)
Definition has_header (m : mem) : Prop := forall a, 0x10000 <= a < 0x11000 -> read8 m a = read8 kimg (a - 0x10000).

Record loaded (m : mem) (i : nat) : Prop := {
  ld_file : forall a, phdr i ph_paddr <= a < phdr i ph_paddr + phdr i ph_filesz ->
    read8 m a = read8 kimg (phdr i ph_off + (a - phdr i ph_paddr));
  ld_zero : forall a, phdr i ph_paddr + phdr i ph_filesz <= a < phdr i ph_paddr + phdr i ph_memsz -> read8 m a = 0
}.

Lemma read32_at m m' a b : (forall k, 0 <= k < 4 -> read8 m (a + k) = read8 m' (b + k)) -> read32 m a = read32 m' b.
Proof using Type.
  intros H. unfold read32. pose proof (H 0 ltac:(lia)) as H0. rewrite !Z.add_0_r in H0. by rewrite H0, (H 1), (H 2), (H 3) by lia.
Qed.

Lemma phdr_nonneg i f : 0 <= phdr i f.
Proof using Type. apply read32_range. Qed.

Lemma header32 m x : has_header m -> 0 <= x <= 4092 -> read32 m (0x10000 + x) = read32 kimg x.
Proof using Type. intros H Hx. apply read32_at. intros k Hk. rewrite H by lia. f_equal. lia. Qed.

Lemma header_phdr m i f : has_header m -> 0 <= f <= 28 -> 0 <= phoff + 32 * Z.of_nat i -> phoff + 32 * Z.of_nat i + 32 <= 4096 ->
  read32 m (0x10000 + phoff + 32 * Z.of_nat i + f) = phdr i f.
Proof using Type. intros H Hf Hp Hq. unfold phdr. rewrite <- header32 with (m := m) by (done || lia). f_equal. lia. Qed.

(** One turn of the loop over the program headers. *)
Lemma load_one n i s : has_header (pmem s) -> sectors (bdrv s) = secs -> segment_ok i -> 0 <= phoff -> phoff + 32 * Z.of_nat i + 32 <= 4096 ->
  exists s1, load_segments status (S n) fuel (0x10000 + phoff + 32 * Z.of_nat i) s =
      load_segments status n fuel (0x10000 + phoff + 32 * Z.of_nat (S i)) s1 /\
    sectors (bdrv s1) = secs /\ loaded (pmem s1) i /\ forall a, ~ touches i a -> read8 (pmem s1) a = read8 (pmem s) a.
Proof using Hready Hdisk Hksize.
  intros Hh Hsec [S1 S2 S3 S4] Hp Hq.
  pose proof (phdr_nonneg i ph_filesz) as N1. pose proof (phdr_nonneg i ph_off) as N2. pose proof (phdr_nonneg i ph_paddr) as N3.
  pose proof (phdr_nonneg i ph_memsz) as N4. assert (Hmod := Z.mod_pos_bound (phdr i ph_off) 512 ltac:(lia)).
  cbn [load_segments]. unfold gets at 1. unfold bind at 1.
  rewrite !(header_phdr (pmem s) i) by (done || lia || (unfold ph_paddr, ph_filesz, ph_off; lia)).
  destruct (readseg_spec s (phdr i ph_paddr) (phdr i ph_filesz) (phdr i ph_off)) as (s2 & hi & E & D & Hhi & F); [lia..|].
  rewrite (bind_Ret _ _ _ _ _ E). unfold gets at 1. unfold bind at 1.
  assert (Hun : forall a, ~ touches i a -> read8 (pmem s2) a = read8 (pmem s) a).
  { intros a Ha. rewrite F, decide_False; [done|]. unfold touches in Ha. lia. }
  assert (Hh2 : has_header (pmem s2)).
  { intros a Ha. rewrite Hun by (intros Ht; by apply (S4 a Ht)). by apply Hh. }
  rewrite !(header_phdr (pmem s2) i) by (done || lia || (unfold ph_memsz, ph_filesz; lia)).
  assert (Hfile : forall a, phdr i ph_paddr <= a < phdr i ph_paddr + phdr i ph_filesz ->
    read8 (pmem s2) a = read8 kimg (phdr i ph_off + (a - phdr i ph_paddr))).
  { intros a Ha. rewrite F, decide_True by lia. rewrite Hsec, <- Hdisk by lia. f_equal. lia. }
  replace (0x10000 + phoff + 32 * Z.of_nat (S i)) with (0x10000 + phoff + 32 * Z.of_nat i + sizeof_proghdr) by (unfold sizeof_proghdr; lia).
  destruct (Z.ltb_spec (phdr i ph_filesz) (phdr i ph_memsz)) as [Hlt|Hge].
  - unfold modify. unfold bind at 1. eexists. split; [reflexivity|]. split; [cbn; congruence|]. cbn [pmem set_pmem]. rewrite u32_small by lia.
    assert (Hst : forall a, read8 (stosb (pmem s2) (phdr i ph_paddr + phdr i ph_filesz) 0 (Z.to_nat (phdr i ph_memsz - phdr i ph_filesz))) a =
      if decide (phdr i ph_paddr + phdr i ph_filesz <= a < phdr i ph_paddr + phdr i ph_memsz) then 0 else read8 (pmem s2) a).
    { intros a. rewrite read8_stosb, Z2Nat.id by lia. unfold in_range. repeat case_decide; (done || lia). }
    split; [split|].
    + intros a Ha. rewrite Hst, decide_False by lia. by apply Hfile.
    + intros a Ha. by rewrite Hst, decide_True by lia.
    + intros a Ha. rewrite Hst, decide_False by (unfold touches in Ha; lia). by apply Hun.
  - unfold ret. unfold bind at 1. exists s2. split; [done|]. split; [congruence|]. split; [split; [done|lia]|done].
Qed.

Lemma load_all n : forall i s, has_header (pmem s) -> sectors (bdrv s) = secs -> 0 <= phoff -> phoff + 32 * Z.of_nat (i + n) <= 4096 ->
  (forall j, (i <= j < i + n)%nat -> segment_ok j) ->
  (forall j k a, (i <= j < k)%nat -> (k < i + n)%nat -> owns j a -> ~ touches k a) ->
  exists s', load_segments status n fuel (0x10000 + phoff + 32 * Z.of_nat i) s = Ret tt s' /\ has_header (pmem s') /\
    (forall j, (i <= j < i + n)%nat -> loaded (pmem s') j) /\
    forall a, (forall j, (i <= j < i + n)%nat -> ~ touches j a) -> read8 (pmem s') a = read8 (pmem s) a.
Proof using Hready Hdisk Hksize.
  induction n as [|n IH]; intros i s Hh Hsec Hp Hq Hok Hap.
  - exists s. cbn [load_segments]. split; [done|]. split; [done|]. split; [lia|done].
  - destruct (load_one n i s Hh Hsec (Hok i ltac:(lia)) Hp ltac:(lia)) as (s1 & -> & D1 & L1 & U1).
    assert (Hh1 : has_header (pmem s1)).
    { intros a Ha. rewrite U1 by (intros Ht; by apply (sg_header i (Hok i ltac:(lia)) a Ht)). by apply Hh. }
    destruct (IH (S i) s1 Hh1 D1 Hp ltac:(lia)) as (s' & E & Hh' & L' & U').
    { intros j Hj. apply Hok. lia. } { intros j k a Hj Hk. apply Hap; lia. }
    assert (Hkeep : forall a, owns i a -> read8 (pmem s') a = read8 (pmem s1) a).
    { intros a Ha. apply U'. intros j Hj. apply (Hap i j a); [lia|lia|done]. }
    exists s'. split; [done|]. split; [done|]. split.
    + intros j Hj. destruct (decide (j = i)) as [->|Hne]; [|apply L'; lia]. destruct L1 as [Lf Lz]. split.
      * intros a Ha. rewrite Hkeep by (unfold owns; lia). by apply Lf.
      * intros a Ha. pose proof (phdr_nonneg i ph_filesz). rewrite Hkeep by (unfold owns; lia). by apply Lz.
    + intros a Ha. rewrite U' by (intros j Hj; apply Ha; lia). apply U1, Ha. lia.
Qed.

(** C16. The whole boot loader.  With the kernel's ELF image on the disk from sector 1
    on, its program headers in its first page, no segment in the way of the
    scratch space, and no segment loaded over an earlier one (counting the sector
    that a read may overshoot by), [bootmain] calls the entry point of the image
    with every segment in place: the bytes of the file at its physical address,
    and zeros from there to its size in memory. *)
Theorem bootmain_loads_kernel s :
  sectors (bdrv s) = secs -> read32 kimg elf_magic = ELF_MAGIC -> phoff + 32 * Z.of_nat phnum <= 4096 ->
  (forall i, (i < phnum)%nat -> segment_ok i) -> (forall i j a, (i < j < phnum)%nat -> owns i a -> ~ touches j a) ->
  exists s', bootmain status fuel s = Ret (Some (read32 kimg elf_entry)) s' /\ forall i, (i < phnum)%nat -> loaded (pmem s') i.
Proof using Hready Hdisk Hksize.
  intros Hsec Hmagic Hph Hok Hap. unfold bootmain. assert (Hpo : 0 <= phoff) by apply read32_range.
  destruct (readseg_spec s 0x10000 4096 0) as (s1 & hi & E & D & Hhi & F); [lia|lia|done|lia|lia|].
  rewrite (bind_Ret _ _ _ _ _ E). unfold gets at 1. unfold bind at 1.
  assert (Hh : has_header (pmem s1)).
  { intros a Ha. rewrite F. change (0 mod 512) with 0. rewrite decide_True by lia. rewrite Hsec, <- Hdisk by lia. f_equal; lia. }
  rewrite !header32 by (done || (unfold elf_magic, elf_phoff; lia)). rewrite Hmagic, Z.eqb_refl. cbn [negb]. fold phoff.
  assert (En : read16 (pmem s1) (0x10000 + elf_phnum) = read16 kimg elf_phnum).
  { unfold read16, elf_phnum. by rewrite !Hh by lia. }
  rewrite En. fold phnum. destruct (load_all phnum 0 s1) as (s' & E' & Hh' & L & _); [done|congruence|done|lia| | |].
  { intros j Hj. apply Hok. lia. } { intros j k a Hj Hk. apply Hap. lia. }
  replace (0x10000 + phoff + 32 * Z.of_nat 0) with (0x10000 + phoff) in E' by lia. rewrite (bind_Ret _ _ _ _ _ E').
  unfold gets, ret, bind. rewrite header32 by (done || (unfold elf_entry; lia)). exists s'. split; [done|]. intros i Hi. apply L. lia.
Qed.
End Boot.

(** ** A kernel with one segment *)

(** 8 bytes at offset 4096, to be loaded at 1 MB, and 8 bytes of zeros. *)
Definition ex_header : mem :=
  let m := write32 ∅ elf_magic ELF_MAGIC in
  let m := write32 m elf_entry 0x10000c in
  let m := write32 m elf_phoff 52 in
  let m := write16 m elf_phnum 1 in
  let m := write32 m (52 + ph_off) 4096 in
  let m := write32 m (52 + ph_paddr) 0x100000 in
  let m := write32 m (52 + ph_filesz) 8 in
  write32 m (52 + ph_memsz) 16.
Definition ex_kernel : mem := write32 (write32 ex_header 4096 0x64636261) 4100 0x68676665.
Definition ex_sectors : gmap (Z * Z) block :=
  {[(0, 1) := ex_header; (0, 9) := write32 (write32 ∅ 0 0x64636261) 4 0x68676665]}.
Definition ex_boot : bstate := mk_bstate ∅ (mk_drive ∅ None ex_sectors 0).

Lemma ex_on_disk o : 0 <= o < 4608 -> dbyte ex_sectors (512 + o) = read8 ex_kernel o.
Proof.
  intros Ho. assert (H : forallb (fun k => dbyte ex_sectors (512 + Z.of_nat k) =? read8 ex_kernel (Z.of_nat k)) (seq 0 (Z.to_nat 4608)) = true)
    by (vm_compute; reflexivity).
  rewrite forallb_forall in H. specialize (H (Z.to_nat o)). rewrite Z2Nat.id in H by lia. apply Z.eqb_eq, H, in_seq. lia.
Qed.

Lemma bootmain_loads_kernel_witness : exists s', bootmain (fun _ => 0x40) 1 ex_boot = Ret (Some 0x10000c) s' /\ loaded ex_kernel (pmem s') 0.
Proof.
  destruct (bootmain_loads_kernel (fun _ => 0x40) 1 ltac:(intros k; exists 0%nat; split; [lia|reflexivity]) ex_kernel 4608 ex_sectors
    ex_on_disk ltac:(lia) ex_boot) as (s' & E & L).
  - reflexivity.
  - reflexivity.
  - vm_compute. discriminate.
  - intros i Hi. change (phnum ex_kernel) with 1%nat in Hi. assert (i = 0)%nat as -> by lia.
    split; [vm_compute; discriminate|vm_compute; reflexivity|vm_compute; discriminate|].
    intros a Ha. unfold touches in Ha. change (0x100000 - 0 <= a < 0x100000 + 520) in Ha. lia.
  - intros i j a Hij. change (phnum ex_kernel) with 1%nat in Hij. lia.
  - exists s'. split; [exact E|]. apply L. change (phnum ex_kernel) with 1%nat. lia.
Defined.
