(* ===== verification/Gates.v ===== *)
(** * Descriptor tables (mmu.h, vm.c, trap.c, main.c)

    The segment descriptors that [seginit] gives a processor, the gates that
    [tvinit] puts into the interrupt descriptor table, the page directory that
    the kernel boots with, and how [startothers] prepares a processor.  What the
    processor makes of a descriptor (the bytes it covers, who may enter a gate) is
    read off the bit fields as the architecture defines them. *)
From S2P Require Import Prelude Traps Memory KString Mmu State Apic ApicProof.

(** ** Segments *)

Definition NSEGS : Z := 6.
(** The table of one processor; entry 0 is never used. *)
Definition seginit (gdt : list segdesc) : list segdesc :=
  let gdt := <[Z.to_nat SEG_KCODE := SEG (Z.lor STA_X STA_R) 0 0xffffffff 0]> gdt in
  let gdt := <[Z.to_nat SEG_KDATA := SEG STA_W 0 0xffffffff 0]> gdt in
  let gdt := <[Z.to_nat SEG_UCODE := SEG (Z.lor STA_X STA_R) 0 0xffffffff DPL_USER]> gdt in
  <[Z.to_nat SEG_UDATA := SEG STA_W 0 0xffffffff DPL_USER]> gdt.

(** The operand of [lgdt] and of [lidt]: three 16-bit words. *)
Definition lgdt (p size : Z) : list Z := [u16 (size - 1); u16 p; u16 (Z.shiftr p 16)].
Definition lidt (p size : Z) : list Z := [u16 (size - 1); u16 p; u16 (Z.shiftr p 16)].

(** The first address, and the last one, of a segment. *)
Definition seg_base (d : segdesc) : Z := base_15_0 d + 65536 * base_23_16 d + 16777216 * base_31_24 d.
Definition seg_limit (d : segdesc) : Z :=
  let lim := lim_15_0 d + 65536 * lim_19_16 d in
  if sd_g d =? 1 then lim * 4096 + 4095 else lim.
Definition executable (d : segdesc) : bool := Z.testbit (sd_type d) 3.

(** After [seginit] the four segments are present, start at 0 and cover all
    of the 32-bit address space; two are for the kernel and two for user
    programs; the code segments are executable and the others are not. *)
Theorem seginit_flat gdt : length gdt = Z.to_nat NSEGS ->
  forall n, In n [SEG_KCODE; SEG_KDATA; SEG_UCODE; SEG_UDATA] ->
  exists d, seginit gdt !! Z.to_nat n = Some d /\ sd_p d = 1 /\ seg_base d = 0 /\ seg_limit d = 0xffffffff /\
    sd_dpl d = (if bool_decide (n = SEG_UCODE \/ n = SEG_UDATA) then DPL_USER else 0) /\
    executable d = bool_decide (n = SEG_KCODE \/ n = SEG_UCODE).
Proof.
  intros Hl n Hn. destruct gdt as [|g0 [|g1 [|g2 [|g3 [|g4 [|g5 [|]]]]]]]; try discriminate Hl.
  repeat destruct Hn as [<-|Hn]; try (eexists; split; [reflexivity|split_and!; reflexivity]). done.
Qed.

(** ** Gates *)

Definition STS_IG32 : Z := 0xE.
Definition STS_TG32 : Z := 0xF.

Record gatedesc := mk_gatedesc {
  off_15_0 : Z; cs : Z; args : Z; g_rsv1 : Z; g_type : Z; g_s : Z; g_dpl : Z; g_p : Z; off_31_16 : Z
}.

Definition SETGATE (istrap sel off d : Z) : gatedesc :=
  mk_gatedesc (Z.land off 0xffff) (u16 sel) 0 0 (if negb (istrap =? 0) then STS_TG32 else STS_IG32) 0 d 1 (Z.shiftr off 16).


(** [vectors] is an array that vectors.pl generates. *)
Fixpoint tvinit_loop (vectors : list Z) (i : Z) (n : nat) (idt : list gatedesc) : list gatedesc :=
  match n with
  | O => idt
  | S k =>
      tvinit_loop vectors (i + 1) k
        (<[Z.to_nat i := SETGATE 0 (Z.shiftl SEG_KCODE 3) (default 0 (vectors !! Z.to_nat i)) 0]> idt)
  end.
Definition tvinit (vectors : list Z) (idt : list gatedesc) : list gatedesc :=
  let idt := tvinit_loop vectors 0 256 idt in
  <[Z.to_nat T_SYSCALL := SETGATE 1 (Z.shiftl SEG_KCODE 3) (default 0 (vectors !! Z.to_nat T_SYSCALL)) DPL_USER]> idt.

Definition idtinit (idt : Z) : list Z := lidt idt (256 * 8).

(** The handler's address; whether code at privilege level [cpl] may enter the
    gate with [int]; whether the processor masks interrupts on entry. *)
Definition gate_target (g : gatedesc) : Z := off_15_0 g + 65536 * off_31_16 g.
Definition may_enter (cpl : Z) (g : gatedesc) : bool := (g_p g =? 1) && (cpl <=? g_dpl g).
Definition masks_interrupts (g : gatedesc) : bool := g_type g =? STS_IG32.

Lemma tvinit_loop_spec vectors n : forall i idt, 0 <= i -> (Z.to_nat i + n <= length idt)%nat ->
  length (tvinit_loop vectors i n idt) = length idt /\
  forall k, tvinit_loop vectors i n idt !! k =
    if decide (Z.to_nat i <= k < Z.to_nat i + n)%nat then Some (SETGATE 0 (Z.shiftl SEG_KCODE 3) (default 0 (vectors !! k)) 0)
    else idt !! k.
Proof.
  induction n as [|n IH]; intros i idt Hi Hn; cbn [tvinit_loop].
  - split; [done|]. intros k. by rewrite decide_False by lia.
  - destruct (IH (i + 1) (<[Z.to_nat i := SETGATE 0 (Z.shiftl SEG_KCODE 3) (default 0 (vectors !! Z.to_nat i)) 0]> idt)) as [Hl Hk];
      [lia|rewrite length_insert; lia|]. split; [by rewrite Hl, length_insert|]. intros k. rewrite Hk.
    destruct (decide (k = Z.to_nat i)) as [->|Hne].
    + rewrite decide_False, decide_True by lia. apply list_lookup_insert_eq. lia.
    + rewrite list_lookup_insert_ne by congruence. repeat case_decide; (done || lia).
Qed.

Lemma gate_target_spec istrap sel off d : 0 <= off < 4294967296 -> gate_target (SETGATE istrap sel off d) = off.
Proof.
  intros H. unfold gate_target, SETGATE. cbn [off_15_0 off_31_16]. change 0xffff with (Z.ones 16).
  rewrite Z.land_ones, Z.shiftr_div_pow2 by lia. change (2 ^ 16) with 65536. Z.div_mod_to_equations. lia.
Qed.

(** After [tvinit] every one of the 256 gates leads, in the kernel's code
    segment, to the entry of [vectors] with its number.  A user program may enter
    exactly one of them, the one for system calls, and that is also the only one
    that leaves interrupts on. *)
Theorem tvinit_gates vectors idt i : length idt = 256%nat -> length vectors = 256%nat ->
  Forall (fun v => 0 <= v < 4294967296) vectors -> 0 <= i < 256 ->
  exists g, tvinit vectors idt !! Z.to_nat i = Some g /\ Some (gate_target g) = vectors !! Z.to_nat i /\
    cs g = SEG_KCODE * 8 /\ may_enter 0 g = true /\ may_enter 3 g = (i =? T_SYSCALL) /\ masks_interrupts g = negb (i =? T_SYSCALL).
Proof.
  intros Hl Hv Hr Hi. destruct (lookup_lt_is_Some_2 vectors (Z.to_nat i)) as [v Ev]; [lia|].
  assert (Hrv : 0 <= v < 4294967296) by exact (Forall_lookup_1 _ _ _ _ Hr Ev).
  destruct (tvinit_loop_spec vectors 256 0 idt) as [Hl' Hk]; [lia|cbn; lia|]. unfold tvinit. destruct (Z.eqb_spec i T_SYSCALL) as [->|Hne].
  - rewrite list_lookup_insert_eq by (rewrite Hl'; unfold T_SYSCALL; lia). eexists. split; [done|]. rewrite Ev. cbn [default].
    by rewrite gate_target_spec.
  - rewrite list_lookup_insert_ne by (unfold T_SYSCALL in *; lia). rewrite Hk, decide_True by lia. eexists. split; [done|]. rewrite Ev. cbn [default].
    by rewrite gate_target_spec.
Qed.

(** ** The page directory at boot *)

Definition entrypgdir : list Z :=
  let pde := Z.lor (Z.lor (Z.lor 0 PTE_P) PTE_W) PTE_PS in
  <[Z.to_nat (Z.shiftr KERNBASE PDXSHIFT) := pde]> (<[0%nat := pde]> (replicate (Z.to_nat NPDENTRIES) 0)).

(** Where the processor finds [va], through a page directory of 4 MB pages. *)
Definition walk_large (pgdir : list Z) (va : Z) : option Z :=
  match pgdir !! Z.to_nat (Z.shiftr va PDXSHIFT) with
  | Some pde => if has pde PTE_P && has pde PTE_PS then Some (Z.land pde 0xffc00000 + va mod 0x400000) else None
  | None => None
  end.

(** The kernel boots with the first 4 MB of memory both where it is and at
    [KERNBASE], and nothing else. *)
Theorem entrypgdir_maps va : 0 <= va < 4294967296 ->
  walk_large entrypgdir va =
    if decide (va < 0x400000) then Some va
    else if decide (KERNBASE <= va < KERNBASE + 0x400000) then Some (va - KERNBASE) else None.
Proof.
  intros Hva. unfold walk_large, PDXSHIFT. rewrite Z.shiftr_div_pow2 by lia. change (2 ^ 22) with 4194304. unfold entrypgdir.
  change (Z.to_nat (Z.shiftr KERNBASE PDXSHIFT)) with 512%nat. unfold KERNBASE.
  destruct (decide (va < 0x400000)) as [H0|H0].
  - replace (va / 4194304) with 0 by (Z.div_mod_to_equations; lia). cbn [Z.to_nat]. rewrite list_lookup_insert_ne, list_lookup_insert_eq by (lia || (rewrite length_replicate; unfold NPDENTRIES; lia)).
    change (Some (0 + va mod 4194304) = Some va). by rewrite Z.mod_small by lia.
  - destruct (decide (0x80000000 <= va < 0x80000000 + 0x400000)) as [H1|H1].
    + replace (va / 4194304) with 512 by (Z.div_mod_to_equations; lia). change (Z.to_nat 512) with 512%nat.
      rewrite list_lookup_insert_eq by (rewrite length_insert, length_replicate; unfold NPDENTRIES; lia).
      change (Some (0 + va mod 4194304) = Some (va - 0x80000000)). f_equal. Z.div_mod_to_equations. lia.
    + rewrite !list_lookup_insert_ne by (Z.div_mod_to_equations; lia). rewrite lookup_replicate_2; [done|].
      unfold NPDENTRIES. Z.div_mod_to_equations. lia.
Qed.

(** ** Starting the other processors *)

Section Others.
(** The page allocator, and when the processor with local APIC number [id] is
    seen to have started: at which test of [c->started]. *)
Context (lapic_reg : nat -> Z -> Z) (kalloc : A Z) (starts : Z -> option nat).
(** The linker's symbols: the code for the other processors, and two addresses. *)
Context (entryother : list Z) (mpenter entrypgdir_at : Z).

Fixpoint store_bytes (m : mem) (a : Z) (l : list Z) : mem :=
  match l with [] => m | b :: l' => store_bytes (write8 m a b) (a + 1) l' end.

Definition poke (a v : Z) : A unit := modify (fun s => set_amem (write32 (amem s) a v) s).

(** [while(c->started == 0);] *)
Definition wait_started (fuel : nat) (id : Z) : A unit :=
  match starts id with
  | Some k => if (k <? fuel)%nat then ret tt else fun _ => OutOfFuel
  | None => fun _ => OutOfFuel
  end.

(** The loop over [cpus[0..ncpu)], given by their APIC numbers; [me] is the index
    of the processor that runs it. *)
Fixpoint startothers_loop (fuel : nat) (code : Z) (me i : nat) (ids : list Z) : A unit :=
  match ids with
  | [] => ret tt
  | id :: l =>
      if decide (i = me) then startothers_loop fuel code me (S i) l
      else
        let* stack := kalloc in
        do* poke (code - 4) (u32 (stack + KSTACKSIZE)) in
        do* poke (code - 8) mpenter in
        do* poke (code - 12) (V2P entrypgdir_at) in
        do* lapicstartap lapic_reg id (V2P code) in
        do* wait_started fuel id in
        startothers_loop fuel code me (S i) l
  end.

Definition startothers (fuel : nat) (me : nat) (ids : list Z) : A unit :=
  let code := P2V 0x7000 in
  do* modify (fun s => set_amem (store_bytes (amem s) code entryother) s) in
  startothers_loop fuel code me 0 ids.

(** The startup commands in a log of writes to the local APIC: the APIC addressed
    last, and the page. *)
Fixpoint startups (dest : Z) (l : list (Z * Z)) : list (Z * Z) :=
  match l with
  | [] => []
  | (r, v) :: l' =>
      if r =? ICRHI then startups (v / 2 ^ 24) l'
      else if (r =? ICRLO) && (v / 256 * 256 =? STARTUP) then (dest, v mod 256 * 4096) :: startups dest l'
      else startups dest l'
  end.
Definition others (me : nat) (i : nat) (ids : list Z) : list Z :=
  concat (imap (fun k id => if decide (i + k = me)%nat then [] else [id]) ids).

Hypothesis Hkalloc : forall s, exists p s', kalloc s = Ret p s' /\ lapic_out s' = lapic_out s.

Lemma startups_app l1 : forall d l2, exists d', startups d (l1 ++ l2) = startups d l1 ++ startups d' l2.
Proof using Type.
  induction l1 as [|[r v] l1 IH]; intros d l2; [by exists d|]. cbn [app startups]. destruct (r =? ICRHI); [apply IH|].
  destruct (_ && _); [|apply IH]. destruct (IH d l2) as (d' & ->). by exists d'.
Qed.

(** One processor: it gets two startup commands for the page of its code. *)
Lemma start_one id s : 0 <= id < 256 ->
  exists s' w, lapicstartap lapic_reg id 0x7000 s = Ret tt s' /\ lapic_out s' = lapic_out s ++ w /\
    forall d, startups d w = [(id, 0x7000); (id, 0x7000)].
Proof using Type.
  intros Hid. destruct (lapicstartap_targets lapic_reg s id 0x7000) as (s' & lo & E & Hw & H1 & H2 & _); [done|lia|done|].
  eexists s', _. split; [done|]. split; [exact Hw|]. intros d.
  assert (Hd : id * 2 ^ 24 / 2 ^ 24 = id) by (apply Z.div_mul; lia). cbn [startups]. rewrite Hd.
  change (ICRHI =? ICRHI) with true. change (ICRLO =? ICRHI) with false. change (ICRLO =? ICRLO) with true. cbn [andb].
  rewrite H1, H2. reflexivity.
Qed.

Lemma startothers_loop_spec fuel me ids : forall i s,
  Forall (fun id => 0 <= id < 256 /\ exists k, starts id = Some k /\ (k < fuel)%nat) ids ->
  exists s' w, startothers_loop fuel (P2V 0x7000) me i ids s = Ret tt s' /\ lapic_out s' = lapic_out s ++ w /\
    forall d, startups d w = concat ((fun id => [(id, 0x7000); (id, 0x7000)]) <$> others me i ids).
Proof using Hkalloc.
  unfold others. induction ids as [|id ids IH]; intros i s Hall; cbn [startothers_loop].
  - exists s, []. split; [done|]. split; [by rewrite app_nil_r|done].
  - apply Forall_cons in Hall as [(Hid & k & Hk & Hlt) Hall]. rewrite imap_cons, Nat.add_0_r. cbn [concat].
    assert (Hext : imap ((fun k id => if decide (i + k = me)%nat then [] else [id]) ∘ S) ids =
      imap (fun k id => if decide (S i + k = me)%nat then [] else [id]) ids).
    { apply imap_ext. intros j x _. cbn [compose]. by rewrite Nat.add_succ_comm. }
    rewrite Hext. destruct (decide (i = me)) as [->|Hne]; [apply (IH (S me) s Hall)|].
    destruct (Hkalloc s) as (p & s1 & E1 & L1). rewrite (bind_Ret _ _ _ _ _ E1). unfold poke, modify. unfold bind at 1 2 3.
    change (V2P (P2V 0x7000)) with 0x7000. set (s2 := set_amem _ _). destruct (start_one id s2 Hid) as (s3 & w1 & E3 & L3 & W1).
    rewrite (bind_Ret _ _ _ _ _ E3). unfold wait_started at 1. rewrite Hk. destruct (Nat.ltb_spec k fuel); [|lia].
    unfold ret at 1. unfold bind at 1. destruct (IH (S i) s3 Hall) as (s' & w & E & L & W).
    exists s', (w1 ++ w). split; [done|]. split; [rewrite L, L3; cbn; by rewrite L1, app_assoc|].
    intros d. destruct (startups_app w1 d w) as (d' & ->). rewrite W1, W. done.
Qed.

(** Every other processor is started, once and in the order of the table: with a
    page allocator that returns and processors that come up, the startup commands
    that [startothers] sends go to the local APICs of all processors but the one
    that runs it, twice to each as the algorithm demands, and carry the page to
    which the start-up code was copied. *)
Theorem startothers_starts_each fuel me ids s :
  Forall (fun id => 0 <= id < 256 /\ exists k, starts id = Some k /\ (k < fuel)%nat) ids ->
  exists s' w, startothers fuel me ids s = Ret tt s' /\ lapic_out s' = lapic_out s ++ w /\
    forall d, startups d w = concat ((fun id => [(id, 0x7000); (id, 0x7000)]) <$> others me 0 ids).
Proof using Hkalloc.
  intros Hall. unfold startothers, modify. unfold bind at 1. set (s1 := set_amem _ _).
  apply (startothers_loop_spec fuel me ids 0 s1 Hall).
Qed.
End Others.

(** Processors with APIC numbers 0, 4 and 5; the first one starts the others. *)
Lemma startothers_starts_each_witness : exists s' w,
  startothers (fun _ _ => 0) (ret 0x100000) (fun _ => Some 3%nat) [] 0 0 4 0 [0; 4; 5] ex_apic = Ret tt s' /\
  lapic_out s' = w /\ startups 0 w = [(4, 0x7000); (4, 0x7000); (5, 0x7000); (5, 0x7000)].
Proof.
  destruct (startothers_starts_each (fun _ _ => 0) (ret 0x100000) (fun _ => Some 3%nat) [] 0 0
    ltac:(intros s; eexists _, s; split; reflexivity) 4 0 [0; 4; 5] ex_apic) as (s' & w & E & L & W).
  - repeat constructor; (lia || (exists 3%nat; split; [reflexivity|lia])).
  - exists s', w. split; [exact E|]. split; [exact L|exact (W 0)].
Defined.

Lemma seginit_flat_witness : exists d, seginit (replicate 6 (SEG 0 0 0 0)) !! 3%nat = Some d /\ sd_dpl d = DPL_USER.
Proof.
  destruct (seginit_flat (replicate 6 (SEG 0 0 0 0)) eq_refl SEG_UCODE) as (d & E & _ & _ & _ & H & _); [cbn; auto|].
  exists d. split; [exact E|exact H].
Defined.

Lemma tvinit_gates_witness : exists g,
  tvinit (replicate 256 0x80106000) (replicate 256 (SETGATE 0 0 0 0)) !! 64%nat = Some g /\ may_enter 3 g = true.
Proof.
  destruct (tvinit_gates (replicate 256 0x80106000) (replicate 256 (SETGATE 0 0 0 0)) 64) as (g & E & _ & _ & _ & H & _).
  - reflexivity.
  - reflexivity.
  - apply Forall_replicate. lia.
  - lia.
  - exists g. split; [exact E|exact H].
Defined.

Lemma entrypgdir_maps_witness : walk_large entrypgdir 0x80100000 = Some 0x100000.
Proof. apply (entrypgdir_maps 0x80100000). lia. Defined.
