(* ===== verification/X86.v ===== *)
(** * A processor for the assembly files

    The instructions that swtch.S, trapasm.S, vectors.pl, usys.S, initcode.S,
    entry.S, entryother.S and bootasm.S use, over a processor with its general,
    segment and control registers, the descriptor tables and physical memory.
    Segments start at 0, so that an offset is a linear address; loading a selector
    is not checked against the descriptor tables.  Two things are parameters: where
    the page directory in %cr3 takes a linear address, and the status flags that an
    arithmetic instruction leaves. *)
From S2P Require Import Prelude Memory Mmu Gates.

Inductive reg := EAX | ECX | EDX | EBX | ESP | EBP | ESI | EDI.
Inductive sreg := CS | DS | ES | FS | GS | SS.
Inductive creg := CR0 | CR3 | CR4.

Definition reg_eqb (a b : reg) : bool :=
  match a, b with
  | EAX, EAX | ECX, ECX | EDX, EDX | EBX, EBX | ESP, ESP | EBP, EBP | ESI, ESI | EDI, EDI => true
  | _, _ => false
  end.
Definition sreg_eqb (a b : sreg) : bool :=
  match a, b with CS, CS | DS, DS | ES, ES | FS, FS | GS, GS | SS, SS => true | _, _ => false end.
Definition creg_eqb (a b : creg) : bool :=
  match a, b with CR0, CR0 | CR3, CR3 | CR4, CR4 => true | _, _ => false end.

#[export] Instance reg_eq_dec : EqDecision reg.
Proof. solve_decision. Defined.

Record cpu := mk_cpu {
  gpr : reg -> Z;
  sel : sreg -> Z;
  crs : creg -> Z;
  eip : Z;
  eflags : Z;
  gdtr : Z * Z;                (* limit, base *)
  idt : list gatedesc;
  tss : Z * Z;                 (* ss0, esp0 *)
  mem : gmap Z Z;
  inputs : list Z;             (* bytes that devices will give *)
  outputs : list (Z * Z)       (* port, value *)
}.

Definition set_gpr (r : reg) (v : Z) (c : cpu) : cpu :=
  mk_cpu (fun r' => if reg_eqb r r' then v else gpr c r') (sel c) (crs c) (eip c) (eflags c) (gdtr c) (idt c) (tss c) (mem c) (inputs c) (outputs c).
Definition set_sel (r : sreg) (v : Z) (c : cpu) : cpu :=
  mk_cpu (gpr c) (fun r' => if sreg_eqb r r' then v else sel c r') (crs c) (eip c) (eflags c) (gdtr c) (idt c) (tss c) (mem c) (inputs c) (outputs c).
Definition set_cr (r : creg) (v : Z) (c : cpu) : cpu :=
  mk_cpu (gpr c) (sel c) (fun r' => if creg_eqb r r' then v else crs c r') (eip c) (eflags c) (gdtr c) (idt c) (tss c) (mem c) (inputs c) (outputs c).
Definition set_eip (v : Z) (c : cpu) : cpu :=
  mk_cpu (gpr c) (sel c) (crs c) v (eflags c) (gdtr c) (idt c) (tss c) (mem c) (inputs c) (outputs c).
Definition set_eflags (v : Z) (c : cpu) : cpu :=
  mk_cpu (gpr c) (sel c) (crs c) (eip c) v (gdtr c) (idt c) (tss c) (mem c) (inputs c) (outputs c).
Definition set_gdtr (v : Z * Z) (c : cpu) : cpu :=
  mk_cpu (gpr c) (sel c) (crs c) (eip c) (eflags c) v (idt c) (tss c) (mem c) (inputs c) (outputs c).
Definition set_mem (v : gmap Z Z) (c : cpu) : cpu :=
  mk_cpu (gpr c) (sel c) (crs c) (eip c) (eflags c) (gdtr c) (idt c) (tss c) v (inputs c) (outputs c).
Definition set_inputs (v : list Z) (c : cpu) : cpu :=
  mk_cpu (gpr c) (sel c) (crs c) (eip c) (eflags c) (gdtr c) (idt c) (tss c) (mem c) v (outputs c).
Definition set_outputs (v : list (Z * Z)) (c : cpu) : cpu :=
  mk_cpu (gpr c) (sel c) (crs c) (eip c) (eflags c) (gdtr c) (idt c) (tss c) (mem c) (inputs c) v.

(** Operands that are addresses are numbers; the symbols of the sources are
    arguments of the code below. *)
Inductive instr :=
| pushl (r : reg) | pushl_s (s : sreg) | pushl_i (v : Z) | popl (r : reg) | popl_s (s : sreg)
| pushal | popal
| movl (src dst : reg) | movl_i (v : Z) (dst : reg)
| movl_load (disp : Z) (base dst : reg) | movl_store (src base : reg) | movl_abs (a : Z) (dst : reg)
| movw_i (v : Z) (dst : reg) | movw (src dst : reg) | movb_i (v : Z) (dst : reg) | movw_s (src : reg) (dst : sreg)
| xorw (src dst : reg) | addl_i (v : Z) (dst : reg) | orl_i (v : Z) (dst : reg) | testb_i (v : Z) (src : reg)
| movl_from_cr (src : creg) (dst : reg) | movl_to_cr (src : reg) (dst : creg)
| inb (port : Z) | outb (port : Z) | outw
| cli | lgdt_m (a : Z)
| ret | call (a : Z) | call_m (a : Z) | jmp (a : Z) | jmp_r (r : reg) | jnz (a : Z) | ljmp (s a : Z)
| int (n : Z) | iret.

(** The low half, or the low byte, of a register replaced. *)
Definition low16 (old v : Z) : Z := old / 65536 * 65536 + v mod 65536.
Definition low8 (old v : Z) : Z := old / 256 * 256 + v mod 256.

(** The bits of %eflags: zero; trap, interrupt, nested task, resume, virtual 8086. *)
Definition FL_ZF : Z := 0x40.
Definition clear_if (f : Z) : Z := Z.land f (Z.lnot 0x200).
Definition clear_tf (f : Z) : Z := Z.land f (Z.lnot 0x34100).

Section Processor.
Context (translate : Z -> Z -> Z) (alu_flags : Z -> Z -> Z).

(** Where a linear address is in physical memory.  An aligned word lies in one
    page. *)
Definition phys_of (cr : creg -> Z) (a : Z) : Z := if Z.testbit (cr CR0) 31 then translate (cr CR3) a else a.

Definition load32 (c : cpu) (a : Z) : Z := read32 (mem c) (phys_of (crs c) a).
Definition store32 (a v : Z) (c : cpu) : cpu := set_mem (write32 (mem c) (phys_of (crs c) a) v) c.
Definition load16 (c : cpu) (a : Z) : Z := read16 (mem c) (phys_of (crs c) a).
Definition store16 (a v : Z) (c : cpu) : cpu := set_mem (write16 (mem c) (phys_of (crs c) a) v) c.

Definition push (v : Z) (c : cpu) : cpu :=
  let sp := u32 (gpr c ESP - 4) in store32 sp v (set_gpr ESP sp c).
(** A selector takes a word of the stack, of which the processor writes the low
    half. *)
Definition push16 (v : Z) (c : cpu) : cpu :=
  let sp := u32 (gpr c ESP - 4) in store16 sp v (set_gpr ESP sp c).
Definition drop_word (c : cpu) : cpu := set_gpr ESP (u32 (gpr c ESP + 4)) c.
Definition top (c : cpu) : Z := load32 c (gpr c ESP).
Definition top16 (c : cpu) : Z := load16 c (gpr c ESP).
Definition pop (r : reg) (c : cpu) : cpu := set_gpr r (top c) (drop_word c).

Definition cpl (c : cpu) : Z := Z.land (sel c CS) 3.

(** The processor enters gate [n], for an interrupt, an exception with error code
    [ec], or [int]; [from] is where it goes on afterwards. *)
Definition deliver (n : Z) (soft : bool) (ec : option Z) (from : Z) (c : cpu) : option cpu :=
  match idt c !! Z.to_nat n with
  | None => None
  | Some g =>
      if soft && negb (may_enter (cpl c) g) then None
      else
        let c1 := if cpl c =? 0 then c
                  else push (gpr c ESP) (push16 (sel c SS) (set_gpr ESP (snd (tss c)) (set_sel SS (fst (tss c)) c))) in
        let c2 := push from (push16 (sel c CS) (push (eflags c) c1)) in
        let c3 := match ec with Some e => push e c2 | None => c2 end in
        let fl := clear_tf (eflags c) in
        Some (set_eflags (if masks_interrupts g then clear_if fl else fl) (set_eip (gate_target g) (set_sel CS (cs g) c3)))
  end.

Definition exec_iret (c : cpu) : cpu :=
  let ip := top c in let c1 := drop_word c in
  let s := top16 c1 in let c2 := drop_word c1 in
  let fl := top c2 in let c3 := drop_word c2 in
  let c4 := if cpl c <? Z.land s 3 then
              let sp := top c3 in let ss := top16 (drop_word c3) in set_gpr ESP sp (set_sel SS ss c3)
            else c3 in
  set_eflags fl (set_eip ip (set_sel CS s c4)).

Definition exec_popal (c : cpu) : cpu :=
  pop EAX (pop ECX (pop EDX (pop EBX (drop_word (pop EBP (pop ESI (pop EDI c))))))).
Definition exec_pushal (c : cpu) : cpu :=
  push (gpr c EDI) (push (gpr c ESI) (push (gpr c EBP) (push (gpr c ESP)
    (push (gpr c EBX) (push (gpr c EDX) (push (gpr c ECX) (push (gpr c EAX) c))))))).

(** One instruction, [next] the address of the one after it. *)
Definition exec (i : instr) (next : Z) (c : cpu) : option cpu :=
  let go c' := Some (set_eip next c') in
  match i with
  | pushl r => go (push (gpr c r) c)
  | pushl_s s => go (push16 (sel c s) c)
  | pushl_i v => go (push v c)
  | popl r => go (pop r c)
  | popl_s s => go (set_sel s (top16 c) (drop_word c))
  | pushal => go (exec_pushal c)
  | popal => go (exec_popal c)
  | movl src dst => go (set_gpr dst (gpr c src) c)
  | movl_i v dst => go (set_gpr dst (u32 v) c)
  | movl_load disp base dst => go (set_gpr dst (load32 c (u32 (gpr c base + disp))) c)
  | movl_store src base => go (store32 (gpr c base) (gpr c src) c)
  | movl_abs a dst => go (set_gpr dst (load32 c a) c)
  | movw_i v dst => go (set_gpr dst (low16 (gpr c dst) v) c)
  | movw src dst => go (set_gpr dst (low16 (gpr c dst) (gpr c src)) c)
  | movb_i v dst => go (set_gpr dst (low8 (gpr c dst) v) c)
  | movw_s src dst => go (set_sel dst (gpr c src mod 65536) c)
  | xorw src dst =>
      let v := Z.lxor (gpr c src mod 65536) (gpr c dst mod 65536) in
      go (set_eflags (alu_flags (eflags c) v) (set_gpr dst (low16 (gpr c dst) v) c))
  | addl_i v dst =>
      let x := u32 (gpr c dst + v) in go (set_eflags (alu_flags (eflags c) x) (set_gpr dst x c))
  | orl_i v dst =>
      let x := Z.lor (gpr c dst) v in go (set_eflags (alu_flags (eflags c) x) (set_gpr dst x c))
  | testb_i v src => go (set_eflags (alu_flags (eflags c) (Z.land (gpr c src mod 256) v)) c)
  | movl_from_cr src dst => go (set_gpr dst (crs c src) c)
  | movl_to_cr src dst => go (set_cr dst (gpr c src) c)
  | inb port =>
      match inputs c with
      | [] => None
      | b :: l => go (set_inputs l (set_gpr EAX (low8 (gpr c EAX) b) c))
      end
  | outb port => go (set_outputs (outputs c ++ [(port, gpr c EAX mod 256)]) c)
  | outw => go (set_outputs (outputs c ++ [(gpr c EDX mod 65536, gpr c EAX mod 65536)]) c)
  | cli => go (set_eflags (clear_if (eflags c)) c)
  | lgdt_m a => go (set_gdtr (load16 c a, load32 c (u32 (a + 2))) c)
  | ret => Some (set_eip (top c) (drop_word c))
  | call a => Some (set_eip a (push next c))
  | call_m a => Some (set_eip (load32 c a) (push next c))
  | jmp a => Some (set_eip a c)
  | jmp_r r => Some (set_eip (gpr c r) c)
  | jnz a => Some (set_eip (if has (eflags c) FL_ZF then next else a) c)
  | ljmp s a => Some (set_eip a (set_sel CS s c))
  | int n => deliver n true None next c
  | iret => Some (exec_iret c)
  end.

(** The instruction at an address, and the address of the next one. *)
Context (text : Z -> option (instr * Z)).

Definition step (c : cpu) : option cpu :=
  match text (eip c) with None => None | Some (i, next) => exec i next c end.
Definition steps : cpu -> cpu -> Prop := rtc (fun c c' => step c = Some c').

(** A piece of code in memory: instruction [k] is at [adr k]. *)
Definition placed (adr : nat -> Z) (code : list instr) : Prop :=
  forall k i, code !! k = Some i -> text (adr k) = Some (i, adr (S k)).
End Processor.

(** ** Reading what was written *)

Lemma read32_at32 m a b v : a = b -> 0 <= v < 4294967296 -> read32 (write32 m a v) b = v.
Proof. intros -> H. by apply read32_write32_eq. Qed.
Lemma read16_at16 m a b v : a = b -> 0 <= v < 65536 -> read16 (write16 m a v) b = v.
Proof. intros -> H. rewrite read16_write16_eq. by apply Z.mod_small. Qed.
Lemma read32_over16 m a b v : a + 2 <= b \/ b + 4 <= a -> read32 (write16 m a v) b = read32 m b.
Proof. intros H. apply read32_ext. intros x Hx. unfold in_range in Hx. apply read8_write16_ne. lia. Qed.
Lemma read16_over16 m a b v : a + 2 <= b \/ b + 2 <= a -> read16 (write16 m a v) b = read16 m b.
Proof. intros H. apply read16_ext. intros x Hx. apply read8_write16_ne. lia. Qed.
Lemma read16_over32 m a b v : a + 4 <= b \/ b + 2 <= a -> read16 (write32 m a v) b = read16 m b.
Proof. intros H. apply read16_ext. intros x Hx. apply read8_write32_ne. unfold in_range. lia. Qed.

Ltac mem_read :=
  repeat first
    [ rewrite read32_write32_ne by lia | rewrite read32_at32 by lia | rewrite read32_over16 by lia
    | rewrite read16_at16 by lia | rewrite read16_over16 by lia | rewrite read16_over32 by lia
    | rewrite read8_write32_ne by (unfold in_range; lia) | rewrite read8_write16_ne by lia ].

(** Symbolic execution: one instruction of placed code. *)
Ltac cpu_simpl :=
  cbv beta iota zeta delta [exec exec_pushal exec_popal exec_iret push push16 pop drop_word top top16 store32 load32 store16 load16 cpl
       set_gpr set_sel set_cr set_eip set_eflags set_gdtr set_mem set_inputs set_outputs
       gpr sel crs eip eflags gdtr idt tss mem inputs outputs reg_eqb sreg_eqb creg_eqb fst snd].
Ltac u32_norm :=
  repeat match goal with
    |- context [u32 ?x] => lazymatch x with context [u32 _] => fail | _ => rewrite (u32_small x) by lia end
  end.
Ltac one_step Hp :=
  eapply rtc_l; [unfold step; cbv beta iota delta [eip]; erewrite Hp by reflexivity; cpu_simpl; u32_norm; reflexivity|].
