(* ===== verification/User.v ===== *)
(** * User programs as trees of system calls (user.h, usys.S)

    A user program is a tree: it makes a system call and goes on with what the
    call returns.  What a call does is given by a handler, such as the kernel
    model's in Machine.v.  The result of a call that fills a buffer of the
    caller includes the bytes it stores there.  Strings are as in Ulib.v. *)
From S2P Require Import Prelude Memory Ulib Printf Fs.

Inductive call : Type :=
| c_fork | c_exit | c_wait
| c_pipe
| c_read (fd n : Z)
| c_kill (pid : Z)
| c_exec (path : list Z) (argv : list (list Z))
| c_fstat (fd : Z)
| c_chdir (path : list Z)
| c_dup (fd : Z)
| c_getpid
| c_sleep (n : Z)
| c_open (path : list Z) (omode : Z)
| c_write (fd : Z) (bytes : list Z)
| c_mknod (path : list Z) (major minor : Z)
| c_unlink (path : list Z)
| c_link (old new : list Z)
| c_mkdir (path : list Z)
| c_close (fd : Z)
| c_sbrk (n : Z)
| c_load (a : Z)
| c_store (a b : Z)
| c_illegal
| c_sleep_at (esp : Z)
| c_link_at (old : list Z) (p : Z)
| c_getpgtable (entries num wsetOnly : Z)
| c_dump_rawphymem (pa buffer : Z).

(** Besides the calls there are the steps of a program whose effect the kernel
    decides: loads and stores of its memory, an instruction that user code may not
    execute, and calls whose argument lies at a given address, [sleep] with its
    integer on the stack at [esp] and [link] with the string at [p].  The calls on
    page tables get addresses in the program's memory.

    [exit] does not return; [exec] returns only when it fails. *)
Definition result (c : call) : Type :=
  match c with
  | c_exit | c_illegal => Empty_set
  | c_read _ _ => Z * list Z
  | c_pipe => Z * (Z * Z)
  | c_fstat _ => Z * stat
  | _ => Z
  end.

(** [Spin] is a loop without calls, and [Stuck] a program that runs out of its
    bound or whose behaviour C leaves undefined. *)
Inductive prog (A : Type) : Type :=
| Pure (a : A)
| Call (c : call) (k : result c -> prog A)
| Spin
| Stuck.
Arguments Pure {A} a.
Arguments Call {A} c k.
Arguments Spin {A}.
Arguments Stuck {A}.

Fixpoint pbind {A B} (p : prog A) (f : A -> prog B) : prog B :=
  match p with
  | Pure a => f a
  | Call c k => Call c (fun r => pbind (k r) f)
  | Spin => Spin
  | Stuck => Stuck
  end.

Declare Scope prog_scope.
Delimit Scope prog_scope with prog.
Notation "'let*' x := m 'in' k" := (pbind m (fun x => k))
  (at level 10, x pattern, m at level 100, k at level 200) : prog_scope.
Notation "'do*' m 'in' k" := (pbind m (fun _ => k))
  (at level 10, m at level 100, k at level 200) : prog_scope.

Definition sys (c : call) : prog (result c) := Call c Pure.
Definition exit {A} : prog A := Call c_exit (fun r : Empty_set => match r with end).
Definition illegal {A} : prog A := Call c_illegal (fun r : Empty_set => match r with end).

(** ** printf (printf.c) *)

(** An argument of [printf]: a word, or a pointer to a string.  In the list of
    words that [printf] of Printf.v takes, the pointer is its position. *)
Inductive arg := AInt (n : Z) | AStr (s : list Z).
Definition words (args : list arg) : list Z :=
  imap (fun k a => match a with AInt n => n | AStr _ => Z.of_nat k + 1 end) args.
Definition strings (args : list arg) (p : Z) : list Z :=
  match args !! Z.to_nat (p - 1) with Some (AStr s) => s | _ => [] end.

(** [putc] for each character: a call of [write] with one byte. *)
Fixpoint puts (fd : Z) (l : list Z) : prog unit :=
  match l with
  | [] => Pure tt
  | c :: l' => Call (c_write fd [c]) (fun _ => puts fd l')
  end.

Definition uprintf (fd : Z) (fmt : list Z) (args : list arg) : prog unit :=
  match printf (strings args) fmt (words args) with
  | Some text => puts fd text
  | None => Stuck
  end.

(** A format without arguments, with a newline at its end. *)
Definition println (fd : Z) (msg : string) : prog unit := uprintf fd (str msg ++ [NL]) [].

(** ** stat (ulib.c) *)

Definition no_stat : stat := mk_stat 0 0 0 0 0.

(** The result and what [*st] holds afterwards if it is zero. *)
Definition ustat (n : list Z) : prog (Z * stat) :=
  (let* fd := sys (c_open n O_RDONLY) in
   if fd <? 0 then Pure (-1, no_stat)
   else
     let* r := sys (c_fstat fd) in
     do* sys (c_close fd) in
     Pure r)%prog.

(** ** Handlers *)

(** [None] is a program that has called [exit]. *)
Fixpoint interp {S A} (h : forall c, M S (result c)) (p : prog A) : M S (option A) :=
  match p with
  | Pure a => ret (Some a)
  | Call c k =>
      match c as c return (result c -> prog A) -> M S (option A) with
      | c_exit | c_illegal => fun _ => ret None
      | c => fun k => bind (h c) (fun r => interp h (k r))
      end k
  | Spin | Stuck => fun _ => OutOfFuel
  end.
