(* ===== verification/UserProgs.v ===== *)
(** * User programs

    cat.c, echo.c, wc.c, ls.c, kill.c, rm.c, ln.c, mkdir.c, grep.c's main,
    init.c, zombie.c, forktest.c and stressfs.c as trees of system calls.  An
    [argv] is the list of its strings.  Loops that go on for as long as a read
    delivers bytes carry a bound on their number of turns. *)
From S2P Require Import Prelude Memory KString Ulib Printf Grep Fs User.
Local Open Scope prog_scope.

(** [for(i = ...; i < argc; i++)] over the remaining arguments; the body says
    whether to go on. *)
Fixpoint each (l : list (list Z)) (body : list Z -> prog bool) : prog unit :=
  match l with
  | [] => Pure tt
  | a :: l' =>
      let* go := body a in
      if go then each l' body else Pure tt
  end.

(** ** cat.c *)

Fixpoint cat (fuel : nat) (fd : Z) : prog unit :=
  match fuel with
  | O => Stuck
  | S k =>
      let* (n, buf) := sys (c_read fd 512) in
      if 0 <? n then
        let* r := sys (c_write 1 buf) in
        if negb (r =? n) then
          do* println 1 "cat: write error" in
          exit
        else cat k fd
      else if n <? 0 then
        do* println 1 "cat: read error" in
        exit
      else Pure tt
  end.

Definition cat_main (fuel : nat) (argv : list (list Z)) : prog unit :=
  if (length argv <=? 1)%nat then
    do* cat fuel 0 in
    exit
  else
    do* each (drop 1 argv) (fun a =>
      let* fd := sys (c_open a 0) in
      if fd <? 0 then
        do* uprintf 1 (str "cat: cannot open %s" ++ [NL]) [AStr a] in
        exit
      else
        do* cat fuel fd in
        do* sys (c_close fd) in
        Pure true) in
    exit.

(** ** echo.c *)

Fixpoint echo_args (l : list (list Z)) : prog unit :=
  match l with
  | [] => Pure tt
  | a :: l' =>
      do* uprintf 1 (str "%s%s") [AStr a; AStr (match l' with [] => [NL] | _ => str " " end)] in
      echo_args l'
  end.
Definition echo_main (argv : list (list Z)) : prog unit :=
  do* echo_args (drop 1 argv) in
  exit.

(** ** wc.c *)

Record counts := mk_counts { lines : Z; nwords : Z; chars : Z; inword : bool }.

Definition wc_space : list Z := [ch " "; 13; 9; NL; 11].

(** The body of the loop over [buf]. *)
Definition wc_char (x : counts) (b : Z) : counts :=
  let c := chars x + 1 in
  let l := if b =? NL then lines x + 1 else lines x in
  match strchr wc_space b with
  | Some _ => mk_counts l (nwords x) c false
  | None => if negb (inword x) then mk_counts l (nwords x + 1) c true else mk_counts l (nwords x) c true
  end.

Fixpoint wc_loop (fuel : nat) (fd : Z) (x : counts) : prog (Z * counts) :=
  match fuel with
  | O => Stuck
  | S k =>
      let* (n, buf) := sys (c_read fd 512) in
      if 0 <? n then wc_loop k fd (fold_left wc_char buf x) else Pure (n, x)
  end.

Definition wc (fuel : nat) (fd : Z) (name : list Z) : prog unit :=
  let* (n, x) := wc_loop fuel fd (mk_counts 0 0 0 false) in
  if n <? 0 then
    do* println 1 "wc: read error" in
    exit
  else uprintf 1 (str "%d %d %d %s" ++ [NL]) [AInt (lines x); AInt (nwords x); AInt (chars x); AStr name].

Definition wc_main (fuel : nat) (argv : list (list Z)) : prog unit :=
  if (length argv <=? 1)%nat then
    do* wc fuel 0 [] in
    exit
  else
    do* each (drop 1 argv) (fun a =>
      let* fd := sys (c_open a 0) in
      if fd <? 0 then
        do* uprintf 1 (str "wc: cannot open %s" ++ [NL]) [AStr a] in
        exit
      else
        do* wc fuel fd a in
        do* sys (c_close fd) in
        Pure true) in
    exit.

(** ** ls.c *)

(** What follows the last slash. *)
Definition after_slash (path : list Z) : list Z :=
  fold_left (fun p c => if c =? ch "/" then [] else p ++ [c]) path [].

Definition fmtname (path : list Z) : list Z :=
  let p := after_slash path in
  if DIRSIZ <=? ustrlen p then p
  else p ++ replicate (Z.to_nat (DIRSIZ - ustrlen p)) (ch " ").

Definition print_stat (path : list Z) (st : stat) : prog unit :=
  uprintf 1 (str "%s %d %d %d" ++ [NL]) [AStr (fmtname path); AInt (st_type st); AInt (st_ino st); AInt (st_size st)].

(** The C string at the start of an array. *)
Fixpoint cstr (l : list Z) : list Z :=
  match l with
  | [] => []
  | c :: l' => if c =? 0 then [] else c :: cstr l'
  end.

Fixpoint ls_dir (fuel : nat) (fd : Z) (path : list Z) : prog unit :=
  match fuel with
  | O => Stuck
  | S k =>
      let* (n, de) := sys (c_read fd sizeof_dirent) in
      if n =? sizeof_dirent then
        if de_inum de =? 0 then ls_dir k fd path
        else
          let buf := path ++ str "/" ++ cstr (take (Z.to_nat DIRSIZ) (de_name de)) in
          let* (r, st) := ustat buf in
          if r <? 0 then
            do* uprintf 1 (str "ls: cannot stat %s" ++ [NL]) [AStr buf] in
            ls_dir k fd path
          else
            do* print_stat buf st in
            ls_dir k fd path
      else Pure tt
  end.

Definition ls (fuel : nat) (path : list Z) : prog unit :=
  let* fd := sys (c_open path 0) in
  if fd <? 0 then uprintf 2 (str "ls: cannot open %s" ++ [NL]) [AStr path]
  else
    let* (r, st) := sys (c_fstat fd) in
    if r <? 0 then
      do* uprintf 2 (str "ls: cannot stat %s" ++ [NL]) [AStr path] in
      do* sys (c_close fd) in
      Pure tt
    else
      do* (if st_type st =? T_FILE then print_stat path st
           else if st_type st =? T_DIR then
             if 512 <? ustrlen path + 1 + DIRSIZ + 1 then println 1 "ls: path too long"
             else ls_dir fuel fd path
           else Pure tt) in
      do* sys (c_close fd) in
      Pure tt.

Definition ls_main (fuel : nat) (argv : list (list Z)) : prog unit :=
  if (length argv <? 2)%nat then
    do* ls fuel (str ".") in
    exit
  else
    do* each (drop 1 argv) (fun a => do* ls fuel a in Pure true) in
    exit.

(** ** kill.c, rm.c, ln.c, mkdir.c *)

Definition kill_main (argv : list (list Z)) : prog unit :=
  if (length argv <? 2)%nat then
    do* println 2 "usage: kill pid..." in
    exit
  else
    do* each (drop 1 argv) (fun a => do* sys (c_kill (atoi a)) in Pure true) in
    exit.

Definition rm_main (argv : list (list Z)) : prog unit :=
  if (length argv <? 2)%nat then
    do* println 2 "Usage: rm files..." in
    exit
  else
    do* each (drop 1 argv) (fun a =>
      let* r := sys (c_unlink a) in
      if r <? 0 then
        do* uprintf 2 (str "rm: %s failed to delete" ++ [NL]) [AStr a] in
        Pure false
      else Pure true) in
    exit.

Definition ln_main (argv : list (list Z)) : prog unit :=
  match argv with
  | [_; old; new] =>
      let* r := sys (c_link old new) in
      do* (if r <? 0 then uprintf 2 (str "link %s %s: failed" ++ [NL]) [AStr old; AStr new] else Pure tt) in
      exit
  | _ =>
      do* println 2 "Usage: ln old new" in
      exit
  end.

Definition mkdir_main (argv : list (list Z)) : prog unit :=
  if (length argv <? 2)%nat then
    do* println 2 "Usage: mkdir files..." in
    exit
  else
    do* each (drop 1 argv) (fun a =>
      let* r := sys (c_mkdir a) in
      if r <? 0 then
        do* uprintf 2 (str "mkdir: %s failed to create" ++ [NL]) [AStr a] in
        Pure false
      else Pure true) in
    exit.

(** ** grep.c *)

(** One [write] for each line that matches. *)
Fixpoint grep_write (fuel : nat) (pattern p : list Z) : prog (list Z) :=
  match fuel with
  | O => Stuck
  | S k =>
      match strchr p NL with
      | None => Pure p
      | Some q =>
          do* (if rmatch pattern (take q p) then do* sys (c_write 1 (take (S q) p)) in Pure tt else Pure tt) in
          grep_write k pattern (drop (S q) p)
      end
  end.

Fixpoint grep_loop (fuel : nat) (pattern : list Z) (fd : Z) (buf : list Z) : prog unit :=
  match fuel with
  | O => Stuck
  | S k =>
      let* (n, got) := sys (c_read fd (Z.of_nat (GREPBUF - length buf - 1))) in
      if 0 <? n then
        let buf := buf ++ got in
        let* p := grep_write (S (length buf)) pattern buf in
        grep_loop k pattern fd (if (length p =? length buf)%nat then [] else p)
      else Pure tt
  end.

Definition grep_main (fuel : nat) (argv : list (list Z)) : prog unit :=
  match argv with
  | _ :: pattern :: files =>
      match files with
      | [] =>
          do* grep_loop fuel pattern 0 [] in
          exit
      | _ =>
          do* each files (fun a =>
            let* fd := sys (c_open a 0) in
            if fd <? 0 then
              do* uprintf 1 (str "grep: cannot open %s" ++ [NL]) [AStr a] in
              exit
            else
              do* grep_loop fuel pattern fd [] in
              do* sys (c_close fd) in
              Pure true) in
          exit
      end
  | _ =>
      do* println 2 "usage: grep pattern [file ...]" in
      exit
  end.

(** ** init.c *)

(** [while((wpid=wait()) >= 0 && wpid != pid) printf(1, "zombie!\n");] *)
Fixpoint init_wait (fuel : nat) (pid : Z) : prog unit :=
  match fuel with
  | O => Stuck
  | S k =>
      let* wpid := sys c_wait in
      if (0 <=? wpid) && negb (wpid =? pid) then
        do* println 1 "zombie!" in
        init_wait k pid
      else Pure tt
  end.

Definition init_turn (fuel : nat) : prog unit :=
  do* println 1 "init: starting sh" in
  let* pid := sys c_fork in
  if pid <? 0 then
    do* println 1 "init: fork failed" in
    exit
  else if pid =? 0 then
    do* sys (c_exec (str "sh") [str "sh"]) in
    do* println 1 "init: exec sh failed" in
    exit
  else init_wait fuel pid.

(** [turns] bounds the number of shells it starts. *)
Fixpoint init_loop (turns fuel : nat) : prog unit :=
  match turns with
  | O => Stuck
  | S k =>
      do* init_turn fuel in
      init_loop k fuel
  end.

Definition init_main (turns fuel : nat) : prog unit :=
  let* fd := sys (c_open (str "console") O_RDWR) in
  do* (if fd <? 0 then
         do* sys (c_mknod (str "console") 1 1) in
         do* sys (c_open (str "console") O_RDWR) in
         Pure tt
       else Pure tt) in
  do* sys (c_dup 0) in
  do* sys (c_dup 0) in
  init_loop turns fuel.

(** ** zombie.c, forktest.c, stressfs.c *)

Definition zombie_main : prog unit :=
  let* pid := sys c_fork in
  do* (if 0 <? pid then do* sys (c_sleep 5) in Pure tt else Pure tt) in
  exit.

(** forktest.c has its own [printf], one [write] of the whole string. *)
Definition ft_printf (fd : Z) (msg : string) : prog unit :=
  do* sys (c_write fd (str msg ++ [NL])) in
  Pure tt.

(** The number of forks that succeed, of [n] tried. *)
Fixpoint fork_loop (n : nat) : prog nat :=
  match n with
  | O => Pure O
  | S k =>
      let* pid := sys c_fork in
      if pid <? 0 then Pure O
      else if pid =? 0 then exit
      else
        let* m := fork_loop k in
        Pure (S m)
  end.

(** Whether [n] calls of [wait] all find a child. *)
Fixpoint wait_loop (n : nat) : prog bool :=
  match n with
  | O => Pure true
  | S k =>
      let* r := sys c_wait in
      if r <? 0 then Pure false else wait_loop k
  end.

(** The bound is [N] in forktest.c, where it is 1000. *)
Definition forktest_with (print : Z -> string -> prog unit) (N : nat) (claimed : string) : prog unit :=
  do* print 1 "fork test" in
  let* n := fork_loop N in
  if (n =? N)%nat then
    do* print 1 claimed in
    exit
  else
    let* ok := wait_loop n in
    if negb ok then
      do* print 1 "wait stopped early" in
      exit
    else
      let* r := sys c_wait in
      if negb (r =? -1) then
        do* print 1 "wait got too many" in
        exit
      else print 1 "fork test OK".

Definition forktest_main : prog unit :=
  do* forktest_with ft_printf (Z.to_nat 1000) "fork claimed to work N times!" in
  exit.

(** The number of the process among its siblings: [i] after the loop of forks. *)
Fixpoint stress_forks (n : nat) (i : Z) : prog Z :=
  match n with
  | O => Pure i
  | S k =>
      let* pid := sys c_fork in
      if 0 <? pid then Pure i else stress_forks k (i + 1)
  end.

Fixpoint repeat_sys (n : nat) (c : call) : prog unit :=
  match n with
  | O => Pure tt
  | S k =>
      do* sys c in
      repeat_sys k c
  end.

Definition stressfs_main : prog unit :=
  do* println 1 "stressfs starting" in
  let data := replicate 512 (ch "a") in
  let* i := stress_forks 4 0 in
  do* uprintf 1 (str "write %d" ++ [NL]) [AInt i] in
  let path := str "stressfs" ++ [ch "0" + i] in
  let* fd := sys (c_open path (Z.lor O_CREATE O_RDWR)) in
  do* repeat_sys 20 (c_write fd data) in
  do* sys (c_close fd) in
  do* println 1 "read" in
  let* fd := sys (c_open path O_RDONLY) in
  do* repeat_sys 20 (c_read fd 512) in
  do* sys (c_close fd) in
  do* sys c_wait in
  exit.
