(* ===== verification/Machine.v ===== *)
(** * Processes over the kernel's file layer

    A machine runs the user programs of User.v on the model of the file system
    calls (Sysfile.v), file table, pipes, file system, log and disk below them.
    A process is a program, with the descriptors and working directory that
    File.v keeps for it.  Process creation, exit and wait follow proc.c at the
    level of the calls: a process that would sleep keeps its call and makes it
    again when it has its next turn, as the loops around [sleep] do, and a
    process that was killed exits at its next turn, as [trap] makes it do.
    The memory of a process is its size and its bytes: that the encryption of its
    pages is invisible to it is the subject of Encryption.v.  [memory] pages are
    shared out; page tables and kernel stacks are not counted.

    The console is device 1: what processes write to it is appended to [tty], and
    a read takes a line of [tin].  Messages of the kernel are left out.  What
    program a file holds, and how large it is in memory, is a parameter ([image]),
    as exec.c's loading of it is the subject of Exec.v. *)
From S2P Require Import Prelude Memory Ulib Log Fs Pipe File Sysfile User.

Definition NPROC : nat := 64.
Definition CONSOLE : Z := 1.

Inductive ustate := UUnused | URunnable | UZombie.

Record uproc := mk_uproc {
  up_state : ustate;
  up_pid : Z;
  up_parent : nat;
  up_sz : Z;
  up_mem : gmap Z Z;
  up_prog : prog unit
}.

Definition set_prog (p : uproc) (q : prog unit) : uproc :=
  mk_uproc (up_state p) (up_pid p) (up_parent p) (up_sz p) (up_mem p) q.
Definition set_mem (p : uproc) (sz : Z) (m : gmap Z Z) : uproc :=
  mk_uproc (up_state p) (up_pid p) (up_parent p) sz m (up_prog p).

(** The kernel's files and the console. *)
Record con := mk_con {
  kf : kfs;
  tty : list Z;
  tin : list Z
}.

Record machine := mk_machine {
  co : con;
  uprocs : list uproc;
  nextpid : Z
}.

Definition no_proc : uproc := mk_uproc UUnused 0 0 0 ∅ Stuck.

Notation Co := (M con).
Notation R := (M machine).

Definition set_kf (x : kfs) (m : con) : con := mk_con x (tty m) (tin m).
Definition set_tty (x : list Z) (m : con) : con := mk_con (kf m) x (tin m).
Definition set_tin (x : list Z) (m : con) : con := mk_con (kf m) (tty m) x.
Definition set_co (x : con) (m : machine) : machine := mk_machine x (uprocs m) (nextpid m).
Definition set_uprocs (x : list uproc) (m : machine) : machine := mk_machine (co m) x (nextpid m).
Definition set_nextpid (x : Z) (m : machine) : machine := mk_machine (co m) (uprocs m) x.
Definition set_cur (i : nat) (s : kfs) : kfs := mk_kfs (fs s) (ftable s) (pipes s) (pages s) (fprocs s) i (umem s).

(** The record of disk writes, which only the theorems about crashes use. *)
Definition forget_trace (s : kfs) : kfs :=
  let f := fs s in let d := ds f in
  set_fs (mk_fstate (mk_dstate (disk d) (cached d) [] (log d)) (sb f) (icache f)) s.

Definition liftK {A} (u : U A) : Co A :=
  fun m => match u (kf m) with
           | Ret a x => Ret a (set_kf x m)
           | Panic msg => Panic msg
           | Fault msg => Fault msg
           | OutOfFuel => OutOfFuel
           end.
Definition liftC {A} (u : Co A) : R A :=
  fun m => match u (co m) with
           | Ret a x => Ret a (set_co x m)
           | Panic msg => Panic msg
           | Fault msg => Fault msg
           | OutOfFuel => OutOfFuel
           end.
Definition liftU {A} (u : U A) : R A := liftC (liftK u).

(** ** System call arguments *)

(** An argument: an integer, a string, or a buffer inside the process. *)
Inductive uarg := UInt (n : Z) | UStr (s : list Z) | UBuf.

Definition args_of (l : list uarg) : SysArgs := {|
  argint n := match l !! Z.to_nat n with Some (UInt x) => Some x | _ => None end;
  argptr n size := match l !! Z.to_nat n with Some UBuf => if size <? 0 then None else Some 0 | _ => None end;
  argstr n := match l !! Z.to_nat n with Some (UStr s) => Some s | _ => None end;
  fetchint _ := None;
  fetchstr _ := None
|}.

(** ** The console as a device *)

(** The bytes of one read: at most [n], up to the end of the line. *)
Fixpoint tty_line (n : nat) (l : list Z) : list Z :=
  match n, l with
  | S k, c :: l' => c :: (if c =? NL then [] else tty_line k l')
  | _, _ => []
  end.

Definition dev_read (input : list Z) (major : Z) : option (nat -> Z -> F (option (list Z))) :=
  if major =? CONSOLE then
    Some (fun i n =>
      do* iunlock (Some i) in
      do* ilock (Some i) in
      ret (Some (tty_line (Z.to_nat n) input)))
  else None.

Definition dev_write (major : Z) : option (nat -> list Z -> F (option Z)) :=
  if major =? CONSOLE then
    Some (fun i l =>
      do* iunlock (Some i) in
      do* ilock (Some i) in
      ret (Some (Z.of_nat (length l))))
  else None.

(** The open file that descriptor [fd] of the current process refers to. *)
Definition file_at (fd : Z) (s : kfs) : option file :=
  match fprocs s !! cur s with
  | Some p =>
      if (fd <? 0) || (NOFILE <=? fd) then None
      else match ofile p !! Z.to_nat fd with
           | Some (Some f) => ftable s !! f
           | _ => None
           end
  | None => None
  end.

Definition is_tty (fd : Z) (s : kfs) : bool :=
  match file_at fd s with
  | Some x =>
      match f_type x, icache (fs s) !! f_ip x with
      | FD_INODE, Some ip => (itype ip =? T_DEV) && (imajor ip =? CONSOLE)
      | _, _ => false
      end
  | None => false
  end.

(** The number of bytes ever written to the pipe behind [fd]. *)
Definition piped (fd : Z) (s : kfs) : Z :=
  match file_at fd s with
  | Some x => match pipes s !! f_pipe x with Some p => nwrite p | None => 0 end
  | None => 0
  end.

(** ** Calls of the file layer *)

(** What a call comes to: its result, or sleep and the way it resumes. *)
Inductive answer (A : Type) := Ans (r : A) | Again (p : prog A).
Arguments Ans {A} r.
Arguments Again {A} p.

Definition do_read (fd n : Z) : Co (answer (Z * list Z)) :=
  let* term := gets (fun m => is_tty fd (kf m)) in
  let* input := gets tin in
  let* r := liftK (@sys_read (args_of [UInt fd; UBuf; UInt n]) (dev_read input)) in
  match r with
  | Blocked => ret (Again (sys (c_read fd n)))
  | Done r =>
      let* l := gets (fun m => ubytes (kf m) 0 (Z.to_nat r)) in
      do* (if term then modify (fun m => set_tin (drop (Z.to_nat r) (tin m)) m) else ret tt) in
      ret (Ans (r, l))
  end.

(** A write that sleeps on a full pipe goes on with the bytes that are left. *)
Definition do_write (fd : Z) (bytes : list Z) : Co (answer Z) :=
  let n := Z.of_nat (length bytes) in
  let* term := gets (fun m => is_tty fd (kf m)) in
  let* before := gets (fun m => piped fd (kf m)) in
  do* liftK (copyout 0 bytes) in
  let* r := liftK (@sys_write (args_of [UInt fd; UBuf; UInt n]) dev_write) in
  match r with
  | Blocked =>
      let* after := gets (fun m => piped fd (kf m)) in
      ret (Again (A := Z) (Call (c_write fd (drop (Z.to_nat (u32 (after - before))) bytes))
             (fun r : Z => Pure (if r <? 0 then r else n))))
  | Done r =>
      do* (if term && (0 <? r) then modify (fun m => set_tty (tty m ++ ((fun b => Z.land b 0xff) <$> bytes)) m) else ret tt) in
      ret (Ans r)
  end.

(** A call that never sleeps. *)
Definition simple (u : U fres) : Co (answer Z) :=
  let* r := liftK u in
  match r with Done r => ret (Ans r) | Blocked => fault "call sleeps" end.

Definition do_pipe : Co (answer (Z * (Z * Z))) :=
  let* r := simple (@sys_pipe (args_of [UBuf])) in
  let* l := gets (fun m => ubytes (kf m) 0 8) in
  match r with
  | Ans r => ret (Ans (r, (char_at l 0, char_at l 4)))
  | Again _ => fault "pipe sleeps"
  end.

Definition word_at (l : list Z) (o : nat) : Z :=
  char_at l o + 256 * char_at l (o + 1) + 65536 * char_at l (o + 2) + 16777216 * char_at l (o + 3).
(** [struct stat] in memory. *)
Definition stat_at (l : list Z) : stat :=
  mk_stat (word_at l 4) (word_at l 8) (s16 (char_at l 0 + 256 * char_at l 1))
    (s16 (char_at l 12 + 256 * char_at l 13)) (word_at l 16).

Definition do_fstat (fd : Z) : Co (answer (Z * stat)) :=
  let* r := simple (@sys_fstat (args_of [UInt fd; UBuf])) in
  let* l := gets (fun m => ubytes (kf m) 0 20) in
  match r with
  | Ans r => ret (Ans (r, stat_at l))
  | Again _ => fault "fstat sleeps"
  end.

Definition file_call (c : call) : Co (answer (result c)) :=
  match c as c return Co (answer (result c)) with
  | c_pipe => do_pipe
  | c_read fd n => do_read fd n
  | c_fstat fd => do_fstat fd
  | c_chdir path => simple (@sys_chdir (args_of [UStr path]) (dev_read []))
  | c_dup fd => simple (@sys_dup (args_of [UInt fd]))
  | c_open path omode => simple (@sys_open (args_of [UStr path; UInt omode]) (dev_read []) dev_write)
  | c_write fd bytes => do_write fd bytes
  | c_mknod path major minor => simple (@sys_mknod (args_of [UStr path; UInt major; UInt minor]) (dev_read []) dev_write)
  | c_unlink path => simple (@sys_unlink (args_of [UStr path]) (dev_read []) dev_write)
  | c_link old new => simple (@sys_link (args_of [UStr old; UStr new]) (dev_read []) dev_write)
  | c_mkdir path => simple (@sys_mkdir (args_of [UStr path]) (dev_read []) dev_write)
  | c_close fd => simple (@sys_close (args_of [UInt fd]))
  | _ => fault "not a call of the file layer"
  end.

(** Process [i] enters the kernel; the result says whether it was killed. *)
Definition enter (i : nat) : Co bool :=
  do* liftK (modify (fun s => forget_trace (set_cur i s))) in
  let* me := liftK myproc in
  ret (fkilled me).

(** ** Memory *)

Definition pages_of (sz : Z) : Z := (sz + 4095) / 4096.
Definition used_pages (l : list uproc) : Z := fold_left (fun n p => n + pages_of (up_sz p)) l 0.

Definition load (p : uproc) (a : Z) : Z := default 0 (up_mem p !! a).

(** [fetchstr]: the string at [a], if it ends inside the process. *)
Fixpoint string_at (n : nat) (p : uproc) (a : Z) : option (list Z) :=
  match n with
  | O => None
  | S k => if load p a =? 0 then Some [] else cons (load p a) <$> string_at k p (a + 1)
  end.

(** [growproc] with [room] pages left: the new size and bytes. *)
Definition grow (room : Z) (p : uproc) (n : Z) : option (Z * gmap Z Z) :=
  let sz := up_sz p in
  if 0 <? n then
    let new := u32 (sz + n) in
    if 0x80000000 <=? new then None
    else if new <? sz then Some (sz, up_mem p)
    else if room <? pages_of new - pages_of sz then None
    else Some (new, up_mem p)
  else if n <? 0 then
    let new := u32 (sz + n) in
    if sz <=? new then Some (sz, up_mem p)
    else if new =? 0 then None
    else Some (new, filter (fun x => x.1 < 4096 * pages_of new) (up_mem p))
  else Some (sz, up_mem p).

(** ** Processes *)

Definition get_uproc (i : nat) : R uproc :=
  fun m => match uprocs m !! i with Some p => Ret p m | None => Fault "no such process" end.
Definition put_uproc (i : nat) (p : uproc) : R unit := modify (fun m => set_uprocs (<[i := p]> (uprocs m)) m).

Fixpoint find_proc (f : uproc -> bool) (l : list uproc) (i : nat) : option nat :=
  match l with
  | [] => None
  | p :: l' => if f p then Some i else find_proc f l' (S i)
  end.
Definition is_unused (p : uproc) : bool := match up_state p with UUnused => true | _ => false end.
Definition is_zombie (p : uproc) : bool := match up_state p with UZombie => true | _ => false end.
Definition child_of (i : nat) (p : uproc) : bool := negb (is_unused p) && (up_parent p =? i)%nat.

Definition empty_fproc : fproc := mk_fproc (replicate (Z.to_nat NOFILE) None) 0 false.
Definition set_cwd_of (np : nat) (d : nat) : U unit :=
  fun s => match fprocs s !! np with
           | Some p => Ret tt (set_fprocs (<[np := mk_fproc (ofile p) d (fkilled p)]> (fprocs s)) s)
           | None => Fault "bad process"
           end.

(** proc.c, [fork]: the child gets the descriptors and the directory. *)
Definition do_fork (memory : Z) (i : nat) (k : Z -> prog unit) : R (prog unit) :=
  let* l := gets uprocs in
  let* p := get_uproc i in
  match find_proc is_unused l 0 with
  | None => ret (k (-1))
  | Some np =>
    if memory - used_pages l <? pages_of (up_sz p) then ret (k (-1))
    else
      let* pid := gets nextpid in
      do* modify (set_nextpid (pid + 1)) in
      let* me := liftU myproc in
      do* liftU (modify (fun s => set_fprocs (<[np := empty_fproc]> (fprocs s)) s)) in
      do* liftU (fork_files np 0 (ofile me)) in
      let* d := liftU (liftF (idup (cwd me))) in
      do* liftU (set_cwd_of np d) in
      do* put_uproc np (mk_uproc URunnable pid i (up_sz p) (up_mem p) (k 0)) in
      ret (k pid)
  end.

(** proc.c, [exit]. *)
Definition do_exit (i : nat) : R unit :=
  if (i =? 0)%nat then panic "init exiting"
  else
    do* liftU (exit_files (Z.to_nat NOFILE) 0) in
    let* d := liftU my_cwd in
    do* liftU begin_op in
    do* liftU (liftF (iput d)) in
    do* liftU end_op in
    do* modify (fun m => set_uprocs
      ((fun p => if child_of i p then mk_uproc (up_state p) (up_pid p) 0 (up_sz p) (up_mem p) (up_prog p) else p) <$> uprocs m) m) in
    let* p := get_uproc i in
    put_uproc i (mk_uproc UZombie (up_pid p) (up_parent p) (up_sz p) (up_mem p) Stuck).

(** proc.c, [wait]. *)
Definition do_wait (i : nat) : R (answer Z) :=
  let* l := gets uprocs in
  match find_proc (fun p => child_of i p && is_zombie p) l 0 with
  | Some c =>
      let* p := get_uproc c in
      do* put_uproc c no_proc in
      ret (Ans (up_pid p))
  | None =>
      match find_proc (child_of i) l 0 with
      | None => ret (Ans (-1))
      | Some _ => ret (Again (sys c_wait))
      end
  end.

(** proc.c, [kill]; process numbers start at 1. *)
Definition do_kill (pid : Z) : R (answer Z) :=
  let* l := gets uprocs in
  match find_proc (fun p => up_pid p =? pid) l 0 with
  | None => ret (Ans (-1))
  | Some c =>
      do* liftU (fun s => match fprocs s !! c with
                          | Some p => Ret tt (set_fprocs (<[c := mk_fproc (ofile p) (cwd p) true]> (fprocs s)) s)
                          | None => Fault "bad process"
                          end) in
      ret (Ans 0)
  end.

(** [sys_sbrk]. *)
Definition do_sbrk (memory : Z) (i : nat) (n : Z) : R (answer Z) :=
  let* l := gets uprocs in
  let* p := get_uproc i in
  match grow (memory - used_pages l) p n with
  | None => ret (Ans (-1))
  | Some (sz, m) => do* put_uproc i (set_mem p sz m) in ret (Ans (up_sz p))
  end.

(** [argint] of [sys_sleep] reads the word above [esp]. *)
Definition do_sleep_at (i : nat) (esp : Z) : R (answer Z) :=
  let* p := get_uproc i in
  if (up_sz p <=? u32 (esp + 4)) || (up_sz p <? u32 (esp + 8)) then ret (Ans (-1))
  else ret (Again (Pure 0)).

Definition do_link_at (i : nat) (old : list Z) (a : Z) : R (answer Z) :=
  let* p := get_uproc i in
  match (if (0 <=? a) && (a <? up_sz p) then string_at (Z.to_nat (up_sz p - a)) p a else None) with
  | None => ret (Ans (-1))
  | Some new => liftC (file_call (c_link old new))
  end.

Section Exec.
(** The program that the bytes of a file are, if they are one, with its size. *)
Context (image : list Z -> option (Z * (list (list Z) -> prog unit))).
Context (memory : Z).

Definition MAXARG : nat := 32.

(** exec.c: the strings and the vector go onto one page of stack. *)
Definition argv_sp (argv : list (list Z)) : Z :=
  fold_left (fun sp a => Z.land (sp - (ustrlen a + 1)) (Z.lnot 3)) argv 4096.
Definition argv_fits (argv : list (list Z)) : bool :=
  (length argv <? MAXARG)%nat && (0 <=? argv_sp argv - (3 + Z.of_nat (length argv) + 1) * 4).

Definition do_exec (me : nat) (path : list Z) (argv : list (list Z)) (k : Z -> prog unit) : R (prog unit) :=
  do* liftU begin_op in
  let* d := liftU my_cwd in
  let* r := liftU (liftF (namei (dev_read []) d path)) in
  match r with
  | None =>
      do* liftU end_op in
      ret (k (-1))
  | Some i =>
      do* liftU (liftF (ilock (Some i))) in
      let* ip := liftU (liftF (get_inode i)) in
      let* bytes := liftU (liftF (readi (dev_read []) i 0 (isize ip))) in
      do* liftU (liftF (iunlockput i)) in
      do* liftU end_op in
      match bytes with
      | Some b =>
          match image b with
          | Some (sz, p) =>
              if argv_fits argv then
                let* x := get_uproc me in
                do* put_uproc me (set_mem x sz ∅) in
                ret (p argv)
              else ret (k (-1))
          | None => ret (k (-1))
          end
      | None => ret (k (-1))
      end
  end.

(** ** A turn of a process *)

(** How a turn ends: with the rest of the program, asleep, or with the process
    gone. *)
Inductive turn_res := Go (p : prog unit) | Asleep (p : prog unit) | Gone.

Definition resume {A} (k : A -> prog unit) (a : answer A) : turn_res :=
  match a with Ans r => Go (k r) | Again p => Asleep (pbind p k) end.
Definition plain {A} (m : R (answer A)) (k : A -> prog unit) : R turn_res := let* a := m in ret (resume k a).
Definition gone (i : nat) : R turn_res := do* do_exit i in ret Gone.

(** An access outside the process kills it. *)
Definition access (i : nat) (a : Z) (f : uproc -> R (answer Z)) (k : Z -> prog unit) : R turn_res :=
  let* p := get_uproc i in
  if (0 <=? a) && (a <? up_sz p) then plain (f p) k else gone i.

Definition do_call (i : nat) (c : call) : (result c -> prog unit) -> R turn_res :=
  match c as c return (result c -> prog unit) -> R turn_res with
  | c_fork => fun k => let* p := do_fork memory i k in ret (Go p)
  | c_exit | c_illegal => fun _ => gone i
  | c_wait => plain (do_wait i)
  | c_kill pid => plain (do_kill pid)
  | c_exec path argv => fun k => let* p := do_exec i path argv k in ret (Go p)
  | c_getpid => plain (let* p := get_uproc i in ret (Ans (up_pid p)))
  | c_sleep n => plain (ret (Again (Pure 0)))
  | c_sbrk n => plain (do_sbrk memory i n)
  | c_load a => access i a (fun p => ret (Ans (load p a)))
  | c_store a b => access i a (fun p => do* put_uproc i (set_mem p (up_sz p) (<[a := u8 b]> (up_mem p))) in ret (Ans 0))
  | c_sleep_at esp => plain (do_sleep_at i esp)
  | c_link_at old p => plain (do_link_at i old p)
  | c => plain (liftC (file_call c))
  end.

Definition set_program (i : nat) (q : prog unit) : R unit :=
  let* p := get_uproc i in
  put_uproc i (set_prog p q).

(** Process [i] makes its next call; the result says whether it can go on. *)
Definition turn (i : nat) : R bool :=
  let* killed := liftC (enter i) in
  let* p := get_uproc i in
  if killed then do* do_exit i in ret false
  else match up_prog p with
       | Pure _ | Spin | Stuck => ret false
       | Call c k =>
           let* r := do_call i c k in
           match r with
           | Gone => ret false
           | Go q => do* set_program i q in ret true
           | Asleep q => do* set_program i q in ret false
           end
       end.

(** ** A schedule *)

Definition runnable (m : machine) (i : nat) : bool :=
  match uprocs m !! i with
  | Some p => match up_state p with URunnable => true | _ => false end
  | None => false
  end.

(** The next runnable process after [i], round the table. *)
Fixpoint next_from (n : nat) (i : nat) (m : machine) : option nat :=
  match n with
  | O => None
  | S k =>
      let j := if (i <? length (uprocs m))%nat then i else O in
      if runnable m j then Some j else next_from k (S j) m
  end.

(** Round robin: a process keeps the CPU for [slice] calls or until it sleeps or
    exits.  The run ends when [idle] turns in a row have made no progress. *)
Fixpoint run (fuel : nat) (slice left : nat) (idle i : nat) : R unit :=
  match fuel with
  | O => fun _ => OutOfFuel
  | S f =>
      let* m := get in
      match next_from (S (length (uprocs m))) i m with
      | None => ret tt
      | Some j =>
          let* go := turn j in
          if go then
            match left with
            | O => run f slice slice NPROC (S j)
            | S l => run f slice l NPROC j
            end
          else match idle with
               | O => ret tt
               | S d => run f slice slice d (S j)
               end
      end
  end.
End Exec.
