(* ===== verification/Usertests.v ===== *)
(** * The regression tests (usertests.c), part 1

    The tests of the file system, of processes and of pipes, as user programs.
    A test is one definition; the loops in it are definitions of their own.  The
    global array [buf] is passed along where a test uses what an earlier one left
    in it.  [return] from a test is [Pure], [exit()] is [exit].  The tests of
    directories and large files are in UsertestsDir.v, those of memory and [main]
    in UsertestsMem.v. *)
From S2P Require Import Prelude Memory Ulib Printf Fs Log User.
Local Open Scope prog_scope.

Definition O_CRW : Z := Z.lor O_CREATE O_RDWR.

Definition die {A} (msg : string) : prog A :=
  do* println 1 msg in
  exit.
(** [if(!b){ printf(1, msg); exit(); }] *)
Definition expect (b : bool) (msg : string) : prog unit := if b then Pure tt else die msg.

(** [for(i = 0; i < n; i++) body] *)
Fixpoint for_up (n : nat) (i : Z) (body : Z -> prog unit) : prog unit :=
  match n with
  | O => Pure tt
  | S k =>
      do* body i in
      for_up k (i + 1) body
  end.

(** A read into the beginning of an array. *)
Definition into (buf l : list Z) : list Z := l ++ drop (length l) buf.

Definition digit (i : Z) : Z := ch "0" + i.

(** ** iput *)

Definition iputtest : prog unit :=
  do* println 1 "iput test" in
  let* r := sys (c_mkdir (str "iputdir")) in
  do* expect (0 <=? r) "mkdir failed" in
  let* r := sys (c_chdir (str "iputdir")) in
  do* expect (0 <=? r) "chdir iputdir failed" in
  let* r := sys (c_unlink (str "../iputdir")) in
  do* expect (0 <=? r) "unlink ../iputdir failed" in
  let* r := sys (c_chdir (str "/")) in
  do* expect (0 <=? r) "chdir / failed" in
  println 1 "iput test ok".

Definition exitiputtest : prog unit :=
  do* println 1 "exitiput test" in
  let* pid := sys c_fork in
  do* expect (0 <=? pid) "fork failed" in
  if pid =? 0 then
    let* r := sys (c_mkdir (str "iputdir")) in
    do* expect (0 <=? r) "mkdir failed" in
    let* r := sys (c_chdir (str "iputdir")) in
    do* expect (0 <=? r) "child chdir failed" in
    let* r := sys (c_unlink (str "../iputdir")) in
    do* expect (0 <=? r) "unlink ../iputdir failed" in
    exit
  else
    do* sys c_wait in
    println 1 "exitiput test ok".

Definition openiputtest : prog unit :=
  do* println 1 "openiput test" in
  let* r := sys (c_mkdir (str "oidir")) in
  do* expect (0 <=? r) "mkdir oidir failed" in
  let* pid := sys c_fork in
  do* expect (0 <=? pid) "fork failed" in
  if pid =? 0 then
    let* fd := sys (c_open (str "oidir") O_RDWR) in
    do* expect (fd <? 0) "open directory for write succeeded" in
    exit
  else
    do* sys (c_sleep 1) in
    let* r := sys (c_unlink (str "oidir")) in
    do* expect (r =? 0) "unlink failed" in
    do* sys c_wait in
    println 1 "openiput test ok".

(** ** Simple file system tests *)

Definition opentest : prog unit :=
  do* println 1 "open test" in
  let* fd := sys (c_open (str "echo") 0) in
  do* expect (0 <=? fd) "open echo failed!" in
  do* sys (c_close fd) in
  let* fd := sys (c_open (str "doesnotexist") 0) in
  do* expect (fd <? 0) "open doesnotexist succeeded!" in
  println 1 "open test ok".

Definition writetest (buf : list Z) : prog (list Z) :=
  do* println 1 "small file test" in
  let* fd := sys (c_open (str "small") O_CRW) in
  do* (if 0 <=? fd then println 1 "creat small succeeded; ok" else die "error: creat small failed!") in
  do* for_up 100 0 (fun i =>
    let* r := sys (c_write fd (str "aaaaaaaaaa")) in
    do* (if negb (r =? 10) then
           do* uprintf 1 (str "error: write aa %d new file failed" ++ [NL]) [AInt i] in
           exit
         else Pure tt) in
    let* r := sys (c_write fd (str "bbbbbbbbbb")) in
    if negb (r =? 10) then
      do* uprintf 1 (str "error: write bb %d new file failed" ++ [NL]) [AInt i] in
      exit
    else Pure tt) in
  do* println 1 "writes ok" in
  do* sys (c_close fd) in
  let* fd := sys (c_open (str "small") O_RDONLY) in
  do* (if 0 <=? fd then println 1 "open small succeeded ok" else die "error: open small failed!") in
  let* (i, l) := sys (c_read fd 2000) in
  do* (if i =? 2000 then println 1 "read succeeded ok" else die "read failed") in
  do* sys (c_close fd) in
  let* r := sys (c_unlink (str "small")) in
  do* expect (0 <=? r) "unlink small failed" in
  do* println 1 "small file test ok" in
  Pure (into buf l).

(** [((int* )buf)[0]]: the number, and storing it. *)
Definition int_at (buf : list Z) : Z :=
  s32 (char_at buf 0 + 256 * char_at buf 1 + 65536 * char_at buf 2 + 16777216 * char_at buf 3).
Definition int_bytes (i : Z) : list Z := (fun k => u8 (Z.shiftr i (8 * Z.of_nat k))) <$> seq 0 4.

Fixpoint big_writes (n : nat) (i : Z) (fd : Z) (buf : list Z) : prog (list Z) :=
  match n with
  | O => Pure buf
  | S k =>
      let buf := into buf (int_bytes i) in
      let* r := sys (c_write fd (take 512 buf)) in
      do* expect (r =? 512) "error: write big file failed" in
      big_writes k (i + 1) fd buf
  end.

Fixpoint big_reads (fuel : nat) (n : Z) (fd : Z) (buf : list Z) : prog (list Z) :=
  match fuel with
  | O => Stuck
  | S k =>
      let* (i, l) := sys (c_read fd 512) in
      let buf := into buf l in
      if i =? 0 then
        if n =? MAXFILE - 1 then
          do* uprintf 1 (str "read only %d blocks from big") [AInt n] in
          exit
        else Pure buf
      else if negb (i =? 512) then
        do* uprintf 1 (str "read failed %d" ++ [NL]) [AInt i] in
        exit
      else if negb (int_at buf =? n) then
        do* uprintf 1 (str "read content of block %d is %d" ++ [NL]) [AInt n; AInt (int_at buf)] in
        exit
      else big_reads k (n + 1) fd buf
  end.

Definition writetest1 (buf : list Z) : prog (list Z) :=
  do* println 1 "big files test" in
  let* fd := sys (c_open (str "big") O_CRW) in
  do* expect (0 <=? fd) "error: creat big failed!" in
  let* buf := big_writes (Z.to_nat MAXFILE) 0 fd buf in
  do* sys (c_close fd) in
  let* fd := sys (c_open (str "big") O_RDONLY) in
  do* expect (0 <=? fd) "error: open big failed!" in
  let* buf := big_reads (S (S (Z.to_nat MAXFILE))) 0 fd buf in
  do* sys (c_close fd) in
  let* r := sys (c_unlink (str "big")) in
  do* expect (0 <=? r) "unlink big failed" in
  do* println 1 "big files ok" in
  Pure buf.

Definition createtest : prog unit :=
  do* println 1 "many creates, followed by unlink test" in
  do* for_up 52 0 (fun i =>
    let* fd := sys (c_open [ch "a"; digit i] O_CRW) in
    do* sys (c_close fd) in
    Pure tt) in
  do* for_up 52 0 (fun i =>
    do* sys (c_unlink [ch "a"; digit i]) in
    Pure tt) in
  println 1 "many creates, followed by unlink; ok".

Definition dirtest : prog unit :=
  do* println 1 "mkdir test" in
  let* r := sys (c_mkdir (str "dir0")) in
  do* expect (0 <=? r) "mkdir failed" in
  let* r := sys (c_chdir (str "dir0")) in
  do* expect (0 <=? r) "chdir dir0 failed" in
  let* r := sys (c_chdir (str "..")) in
  do* expect (0 <=? r) "chdir .. failed" in
  let* r := sys (c_unlink (str "dir0")) in
  do* expect (0 <=? r) "unlink dir0 failed" in
  println 1 "mkdir test ok".

Definition echoargv : list (list Z) := [str "echo"; str "ALL"; str "TESTS"; str "PASSED"].

Definition exectest : prog unit :=
  do* println 1 "exec test" in
  let* r := sys (c_exec (str "echo") echoargv) in
  if r <? 0 then die "exec echo failed" else Pure tt.

(** ** Pipes and processes *)

(** [n] bytes, counted up from [seq]. *)
Definition counted (seq : Z) (n : nat) : list Z := (fun k => u8 (seq + Z.of_nat k)) <$> List.seq 0 n.

Fixpoint pipe1_writes (n : nat) (seq fd : Z) : prog unit :=
  match n with
  | O => Pure tt
  | S k =>
      let* r := sys (c_write fd (counted seq (Z.to_nat 1033))) in
      do* expect (r =? 1033) "pipe1 oops 1" in
      pipe1_writes k (seq + 1033) fd
  end.

(** [None] is the return from the test, otherwise the total. *)
Fixpoint pipe1_reads (fuel : nat) (fd cc seq total : Z) (buf : list Z) : prog (option Z * list Z) :=
  match fuel with
  | O => Stuck
  | S k =>
      let* (n, l) := sys (c_read fd cc) in
      let buf := into buf l in
      if 0 <? n then
        if negb (bool_decide (l = counted seq (Z.to_nat n))) then
          do* println 1 "pipe1 oops 2" in
          Pure (None, buf)
        else pipe1_reads k fd (Z.min (cc * 2) 8192) (seq + n) (total + n) buf
      else Pure (Some total, buf)
  end.

Definition pipe1 (buf : list Z) : prog (list Z) :=
  let* (r, fds) := sys c_pipe in
  do* expect (r =? 0) "pipe() failed" in
  let* pid := sys c_fork in
  if pid =? 0 then
    do* sys (c_close fds.1) in
    do* pipe1_writes 5 0 fds.2 in
    exit
  else if 0 <? pid then
    do* sys (c_close fds.2) in
    let* (total, buf) := pipe1_reads (Z.to_nat 5200) fds.1 1 0 0 buf in
    match total with
    | None => Pure buf
    | Some total =>
        do* (if negb (total =? 5 * 1033) then
               do* uprintf 1 (str "pipe1 oops 3 total %d" ++ [NL]) [AInt total] in
               exit
             else Pure tt) in
        do* sys (c_close fds.1) in
        do* sys c_wait in
        do* println 1 "pipe1 ok" in
        Pure buf
    end
  else die "fork() failed".

Definition preempt (buf : list Z) : prog (list Z) :=
  do* uprintf 1 (str "preempt: ") [] in
  let* pid1 := sys c_fork in
  if pid1 =? 0 then Spin else
  let* pid2 := sys c_fork in
  if pid2 =? 0 then Spin else
  let* (_, pfds) := sys c_pipe in
  let* pid3 := sys c_fork in
  if pid3 =? 0 then
    do* sys (c_close pfds.1) in
    let* r := sys (c_write pfds.2 (str "x")) in
    do* (if negb (r =? 1) then uprintf 1 (str "preempt write error") [] else Pure tt) in
    do* sys (c_close pfds.2) in
    Spin
  else
    do* sys (c_close pfds.2) in
    let* (r, l) := sys (c_read pfds.1 8192) in
    if negb (r =? 1) then
      do* uprintf 1 (str "preempt read error") [] in
      Pure (into buf l)
    else
      do* sys (c_close pfds.1) in
      do* uprintf 1 (str "kill... ") [] in
      do* sys (c_kill pid1) in
      do* sys (c_kill pid2) in
      do* sys (c_kill pid3) in
      do* uprintf 1 (str "wait... ") [] in
      do* sys c_wait in
      do* sys c_wait in
      do* sys c_wait in
      do* println 1 "preempt ok" in
      Pure (into buf l).

Fixpoint exitwait_loop (n : nat) : prog bool :=
  match n with
  | O => Pure true
  | S k =>
      let* pid := sys c_fork in
      if pid <? 0 then
        do* println 1 "fork failed" in
        Pure false
      else if negb (pid =? 0) then
        let* w := sys c_wait in
        if negb (w =? pid) then
          do* println 1 "wait wrong pid" in
          Pure false
        else exitwait_loop k
      else exit
  end.
Definition exitwait : prog unit :=
  let* ok := exitwait_loop 100 in
  if ok then println 1 "exitwait ok" else Pure tt.

(** ** More file system tests *)

Fixpoint shared_writes (n : nat) (fd : Z) (buf : list Z) : prog unit :=
  match n with
  | O => Pure tt
  | S k =>
      let* r := sys (c_write fd buf) in
      if negb (r =? 10) then println 1 "fstests: write sharedfd failed" else shared_writes k fd buf
  end.

Definition count_byte (c : Z) (l : list Z) : Z := Z.of_nat (length (List.filter (Z.eqb c) l)).

(** The whole array is counted after every read. *)
Fixpoint shared_reads (fuel : nat) (fd : Z) (buf : list Z) (nc np : Z) : prog (Z * Z) :=
  match fuel with
  | O => Stuck
  | S k =>
      let* (n, l) := sys (c_read fd 10) in
      if 0 <? n then
        let buf := into buf l in
        shared_reads k fd buf (nc + count_byte (ch "c") buf) (np + count_byte (ch "p") buf)
      else Pure (nc, np)
  end.

Definition sharedfd : prog unit :=
  do* println 1 "sharedfd test" in
  do* sys (c_unlink (str "sharedfd")) in
  let* fd := sys (c_open (str "sharedfd") O_CRW) in
  if fd <? 0 then uprintf 1 (str "fstests: cannot open sharedfd for writing") []
  else
    let* pid := sys c_fork in
    let buf := replicate 10 (if pid =? 0 then ch "c" else ch "p") in
    do* shared_writes (Z.to_nat 1000) fd buf in
    do* (if pid =? 0 then exit else do* sys c_wait in Pure tt) in
    do* sys (c_close fd) in
    let* fd := sys (c_open (str "sharedfd") 0) in
    if fd <? 0 then println 1 "fstests: cannot open sharedfd for reading"
    else
      let* (nc, np) := shared_reads (Z.to_nat 2100) fd buf 0 0 in
      do* sys (c_close fd) in
      do* sys (c_unlink (str "sharedfd")) in
      if (nc =? 10000) && (np =? 10000) then println 1 "sharedfd ok"
      else
        do* uprintf 1 (str "sharedfd oops %d %d" ++ [NL]) [AInt nc; AInt np] in
        exit.

(** Reads up to the end, each byte being [c]; the total. *)
Fixpoint four_reads (fuel : nat) (fd c total : Z) (buf : list Z) : prog (Z * list Z) :=
  match fuel with
  | O => Stuck
  | S k =>
      let* (n, l) := sys (c_read fd 8192) in
      let buf := into buf l in
      if 0 <? n then
        do* expect (forallb (Z.eqb c) l) "wrong char" in
        four_reads k fd c (total + n) buf
      else Pure (total, buf)
  end.

Definition fname (i : Z) : list Z := [ch "f"; digit i].

Definition fourfiles_child (pi : Z) (buf : list Z) : prog unit :=
  let* fd := sys (c_open (fname pi) O_CRW) in
  do* expect (0 <=? fd) "create failed" in
  let buf := into buf (replicate 512 (digit pi)) in
  do* for_up 12 0 (fun _ =>
    let* n := sys (c_write fd (take 500 buf)) in
    if negb (n =? 500) then
      do* uprintf 1 (str "write failed %d" ++ [NL]) [AInt n] in
      exit
    else Pure tt) in
  exit.

Definition four_check (i : Z) (buf : list Z) : prog (list Z) :=
  let* fd := sys (c_open (fname i) 0) in
  let* (total, buf) := four_reads (Z.to_nat 6100) fd (digit i) 0 buf in
  do* sys (c_close fd) in
  do* (if negb (total =? 12 * 500) then
         do* uprintf 1 (str "wrong length %d" ++ [NL]) [AInt total] in
         exit
       else Pure tt) in
  do* sys (c_unlink (fname i)) in
  Pure buf.

Definition fourfiles (buf : list Z) : prog (list Z) :=
  do* println 1 "fourfiles test" in
  do* for_up 4 0 (fun pi =>
    do* sys (c_unlink (fname pi)) in
    let* pid := sys c_fork in
    do* expect (0 <=? pid) "fork failed" in
    if pid =? 0 then fourfiles_child pi buf else Pure tt) in
  do* for_up 4 0 (fun _ => do* sys c_wait in Pure tt) in
  let* buf := four_check 0 buf in
  let* buf := four_check 1 buf in
  do* println 1 "fourfiles ok" in
  Pure buf.

Definition cd_name (a i : Z) : list Z := [ch "p" + a; digit i].

Definition createdelete_child (pi : Z) : prog unit :=
  do* for_up 20 0 (fun i =>
    let* fd := sys (c_open (cd_name pi i) O_CRW) in
    do* expect (0 <=? fd) "create failed" in
    do* sys (c_close fd) in
    if (0 <? i) && (i mod 2 =? 0) then
      let* r := sys (c_unlink (cd_name pi (i / 2))) in
      expect (0 <=? r) "unlink failed"
    else Pure tt) in
  exit.

Definition createdelete_check (i pi : Z) : prog unit :=
  let* fd := sys (c_open (cd_name pi i) 0) in
  do* (if ((i =? 0) || (10 <=? i)) && (fd <? 0) then
         do* uprintf 1 (str "oops createdelete %s didn't exist" ++ [NL]) [AStr (cd_name pi i)] in
         exit
       else if ((1 <=? i) && (i <? 10)) && (0 <=? fd) then
         do* uprintf 1 (str "oops createdelete %s did exist" ++ [NL]) [AStr (cd_name pi i)] in
         exit
       else Pure tt) in
  if 0 <=? fd then do* sys (c_close fd) in Pure tt else Pure tt.

(** The last loop takes its names from [i] alone, as the source does. *)
Definition createdelete : prog unit :=
  do* println 1 "createdelete test" in
  do* for_up 4 0 (fun pi =>
    let* pid := sys c_fork in
    do* expect (0 <=? pid) "fork failed" in
    if pid =? 0 then createdelete_child pi else Pure tt) in
  do* for_up 4 0 (fun _ => do* sys c_wait in Pure tt) in
  do* for_up 20 0 (fun i => for_up 4 0 (createdelete_check i)) in
  do* for_up 20 0 (fun i => for_up 4 0 (fun _ => do* sys (c_unlink (cd_name i i)) in Pure tt)) in
  println 1 "createdelete ok".

Definition unlinkread (buf : list Z) : prog (list Z) :=
  do* println 1 "unlinkread test" in
  let* fd := sys (c_open (str "unlinkread") O_CRW) in
  do* expect (0 <=? fd) "create unlinkread failed" in
  do* sys (c_write fd (str "hello")) in
  do* sys (c_close fd) in
  let* fd := sys (c_open (str "unlinkread") O_RDWR) in
  do* expect (0 <=? fd) "open unlinkread failed" in
  let* r := sys (c_unlink (str "unlinkread")) in
  do* expect (r =? 0) "unlink unlinkread failed" in
  let* fd1 := sys (c_open (str "unlinkread") O_CRW) in
  do* sys (c_write fd1 (str "yyy")) in
  do* sys (c_close fd1) in
  let* (r, l) := sys (c_read fd 8192) in
  let buf := into buf l in
  do* (if negb (r =? 5) then do* uprintf 1 (str "unlinkread read failed") [] in exit else Pure tt) in
  do* expect (char_at buf 0 =? ch "h") "unlinkread wrong data" in
  let* r := sys (c_write fd (take 10 buf)) in
  do* expect (r =? 10) "unlinkread write failed" in
  do* sys (c_close fd) in
  do* sys (c_unlink (str "unlinkread")) in
  do* println 1 "unlinkread ok" in
  Pure buf.

Definition linktest (buf : list Z) : prog (list Z) :=
  do* println 1 "linktest" in
  do* sys (c_unlink (str "lf1")) in
  do* sys (c_unlink (str "lf2")) in
  let* fd := sys (c_open (str "lf1") O_CRW) in
  do* expect (0 <=? fd) "create lf1 failed" in
  let* r := sys (c_write fd (str "hello")) in
  do* expect (r =? 5) "write lf1 failed" in
  do* sys (c_close fd) in
  let* r := sys (c_link (str "lf1") (str "lf2")) in
  do* expect (0 <=? r) "link lf1 lf2 failed" in
  do* sys (c_unlink (str "lf1")) in
  let* r := sys (c_open (str "lf1") 0) in
  do* expect (r <? 0) "unlinked lf1 but it is still there!" in
  let* fd := sys (c_open (str "lf2") 0) in
  do* expect (0 <=? fd) "open lf2 failed" in
  let* (r, l) := sys (c_read fd 8192) in
  do* expect (r =? 5) "read lf2 failed" in
  do* sys (c_close fd) in
  let* r := sys (c_link (str "lf2") (str "lf2")) in
  do* expect (r <? 0) "link lf2 lf2 succeeded! oops" in
  do* sys (c_unlink (str "lf2")) in
  let* r := sys (c_link (str "lf2") (str "lf1")) in
  do* expect (r <? 0) "link non-existant succeeded! oops" in
  let* r := sys (c_link (str ".") (str "lf1")) in
  do* expect (r <? 0) "link . lf1 succeeded! oops" in
  do* println 1 "linktest ok" in
  Pure (into buf l).

(** ** Concurrent creation *)

Definition c_name (i : Z) : list Z := [ch "C"; digit i].

Definition concreate_make (i : Z) : prog unit :=
  do* sys (c_unlink (c_name i)) in
  let* pid := sys c_fork in
  do* (if negb (pid =? 0) && (i mod 3 =? 1) then
         do* sys (c_link (str "C0") (c_name i)) in
         Pure tt
       else if (pid =? 0) && (i mod 5 =? 1) then
         do* sys (c_link (str "C0") (c_name i)) in
         Pure tt
       else
         let* fd := sys (c_open (c_name i) O_CRW) in
         do* (if fd <? 0 then
                do* uprintf 1 (str "concreate create %s failed" ++ [NL]) [AStr (c_name i)] in
                exit
              else Pure tt) in
         do* sys (c_close fd) in
         Pure tt) in
  if pid =? 0 then exit else do* sys c_wait in Pure tt.

(** The C string in an array of characters. *)
Fixpoint cstring (l : list Z) : list Z :=
  match l with
  | [] => []
  | c :: l' => if c =? 0 then [] else c :: cstring l'
  end.

(** The names found, with [fa] the set of numbers seen. *)
Fixpoint concreate_scan (fuel : nat) (fd n : Z) (fa : list Z) : prog Z :=
  match fuel with
  | O => Stuck
  | S k =>
      let* (r, de) := sys (c_read fd 16) in
      if 0 <? r then
        if de_inum de =? 0 then concreate_scan k fd n fa
        else
          let nm := de_name de in
          if (char_at nm 0 =? ch "C") && (char_at nm 2 =? 0) then
            let i := char_at nm 1 - ch "0" in
            do* (if (i <? 0) || (40 <=? i) then
                   do* uprintf 1 (str "concreate weird file %s" ++ [NL]) [AStr (cstring nm)] in
                   exit
                 else if existsb (Z.eqb i) fa then
                   do* uprintf 1 (str "concreate duplicate file %s" ++ [NL]) [AStr (cstring nm)] in
                   exit
                 else Pure tt) in
            concreate_scan k fd (n + 1) (i :: fa)
          else concreate_scan k fd n fa
      else Pure n
  end.

Fixpoint times (n : nat) (p : prog unit) : prog unit :=
  match n with
  | O => Pure tt
  | S k =>
      do* p in
      times k p
  end.

Definition concreate_use (i : Z) : prog unit :=
  let* pid := sys c_fork in
  do* expect (0 <=? pid) "fork failed" in
  do* (if ((i mod 3 =? 0) && (pid =? 0)) || ((i mod 3 =? 1) && negb (pid =? 0)) then
         times 4 (let* fd := sys (c_open (c_name i) 0) in do* sys (c_close fd) in Pure tt)
       else times 4 (do* sys (c_unlink (c_name i)) in Pure tt)) in
  if pid =? 0 then exit else do* sys c_wait in Pure tt.

Definition concreate : prog unit :=
  do* println 1 "concreate test" in
  do* for_up 40 0 concreate_make in
  let* fd := sys (c_open (str ".") 0) in
  let* n := concreate_scan (Z.to_nat 1000) fd 0 [] in
  do* sys (c_close fd) in
  do* expect (n =? 40) "concreate not enough files in directory listing" in
  do* for_up 40 0 concreate_use in
  println 1 "concreate ok".

Fixpoint linkunlink_loop (n : nat) (x : Z) : prog unit :=
  match n with
  | O => Pure tt
  | S k =>
      let x := u32 (x * 1103515245 + 12345) in
      do* (if x mod 3 =? 0 then
             let* fd := sys (c_open (str "x") (Z.lor O_RDWR O_CREATE)) in
             do* sys (c_close fd) in
             Pure tt
           else if x mod 3 =? 1 then do* sys (c_link (str "cat") (str "x")) in Pure tt
           else do* sys (c_unlink (str "x")) in Pure tt) in
      linkunlink_loop k x
  end.

Definition linkunlink : prog unit :=
  do* println 1 "linkunlink test" in
  do* sys (c_unlink (str "x")) in
  let* pid := sys c_fork in
  do* expect (0 <=? pid) "fork failed" in
  do* linkunlink_loop 100 (if negb (pid =? 0) then 1 else 97) in
  do* (if negb (pid =? 0) then do* sys c_wait in Pure tt else exit) in
  println 1 "linkunlink ok".

(** ** Directories *)

Definition x_name (i : Z) : list Z := [ch "x"; digit (i / 64); digit (i mod 64)].

(** [n] is 500. *)
Definition bigdir_of (n : nat) : prog unit :=
  do* println 1 "bigdir test" in
  do* sys (c_unlink (str "bd")) in
  let* fd := sys (c_open (str "bd") O_CREATE) in
  do* expect (0 <=? fd) "bigdir create failed" in
  do* sys (c_close fd) in
  do* for_up n 0 (fun i =>
    let* r := sys (c_link (str "bd") (x_name i)) in
    expect (r =? 0) "bigdir link failed") in
  do* sys (c_unlink (str "bd")) in
  do* for_up n 0 (fun i =>
    let* r := sys (c_unlink (x_name i)) in
    if negb (r =? 0) then do* uprintf 1 (str "bigdir unlink failed") [] in exit else Pure tt) in
  println 1 "bigdir ok".
Definition bigdir : prog unit := bigdir_of (Z.to_nat 500).
