(* ===== verification/UsertestsDir.v ===== *)
(** * The regression tests (usertests.c), part 2: directories and large files *)
From S2P Require Import Prelude Memory Ulib Printf Fs Log User UserProgs Usertests.
Local Open Scope prog_scope.

(** ** Subdirectories *)

(** A file with two bytes. *)
Definition subdir_file (path text : list Z) (msg : string) : prog unit :=
  let* fd := sys (c_open path O_CRW) in
  do* expect (0 <=? fd) msg in
  do* sys (c_write fd text) in
  do* sys (c_close fd) in
  Pure tt.

(** Up to the changes of directory. *)
Definition subdir_make (buf : list Z) : prog (list Z) :=
  do* println 1 "subdir test" in
  do* sys (c_unlink (str "ff")) in
  let* r := sys (c_mkdir (str "dd")) in
  do* expect (r =? 0) "subdir mkdir dd failed" in
  do* subdir_file (str "dd/ff") (str "ff") "create dd/ff failed" in
  let* r := sys (c_unlink (str "dd")) in
  do* expect (r <? 0) "unlink dd (non-empty dir) succeeded!" in
  let* r := sys (c_mkdir (str "/dd/dd")) in
  do* expect (r =? 0) "subdir mkdir dd/dd failed" in
  do* subdir_file (str "dd/dd/ff") (str "FF") "create dd/dd/ff failed" in
  let* fd := sys (c_open (str "dd/dd/../ff") 0) in
  do* expect (0 <=? fd) "open dd/dd/../ff failed" in
  let* (cc, l) := sys (c_read fd 8192) in
  let buf := into buf l in
  do* expect (negb (negb (cc =? 2) || negb (char_at buf 0 =? ch "f"))) "dd/dd/../ff wrong content" in
  do* sys (c_close fd) in
  let* r := sys (c_link (str "dd/dd/ff") (str "dd/dd/ffff")) in
  do* expect (r =? 0) "link dd/dd/ff dd/dd/ffff failed" in
  let* r := sys (c_unlink (str "dd/dd/ff")) in
  do* expect (r =? 0) "unlink dd/dd/ff failed" in
  let* r := sys (c_open (str "dd/dd/ff") O_RDONLY) in
  do* expect (r <? 0) "open (unlinked) dd/dd/ff succeeded" in
  Pure buf.

Definition subdir_walk (buf : list Z) : prog (list Z) :=
  let* r := sys (c_chdir (str "dd")) in
  do* expect (r =? 0) "chdir dd failed" in
  let* r := sys (c_chdir (str "dd/../../dd")) in
  do* expect (r =? 0) "chdir dd/../../dd failed" in
  let* r := sys (c_chdir (str "dd/../../../dd")) in
  do* expect (r =? 0) "chdir dd/../../dd failed" in
  let* r := sys (c_chdir (str "./..")) in
  do* expect (r =? 0) "chdir ./.. failed" in
  let* fd := sys (c_open (str "dd/dd/ffff") 0) in
  do* expect (0 <=? fd) "open dd/dd/ffff failed" in
  let* (r, l) := sys (c_read fd 8192) in
  do* expect (r =? 2) "read dd/dd/ffff wrong len" in
  do* sys (c_close fd) in
  Pure (into buf l).

(** Calls that must fail. *)
Definition subdir_refused : prog unit :=
  let* r := sys (c_open (str "dd/dd/ff") O_RDONLY) in
  do* expect (r <? 0) "open (unlinked) dd/dd/ff succeeded!" in
  let* r := sys (c_open (str "dd/ff/ff") O_CRW) in
  do* expect (r <? 0) "create dd/ff/ff succeeded!" in
  let* r := sys (c_open (str "dd/xx/ff") O_CRW) in
  do* expect (r <? 0) "create dd/xx/ff succeeded!" in
  let* r := sys (c_open (str "dd") O_CREATE) in
  do* expect (r <? 0) "create dd succeeded!" in
  let* r := sys (c_open (str "dd") O_RDWR) in
  do* expect (r <? 0) "open dd rdwr succeeded!" in
  let* r := sys (c_open (str "dd") O_WRONLY) in
  do* expect (r <? 0) "open dd wronly succeeded!" in
  let* r := sys (c_link (str "dd/ff/ff") (str "dd/dd/xx")) in
  do* expect (negb (r =? 0)) "link dd/ff/ff dd/dd/xx succeeded!" in
  let* r := sys (c_link (str "dd/xx/ff") (str "dd/dd/xx")) in
  do* expect (negb (r =? 0)) "link dd/xx/ff dd/dd/xx succeeded!" in
  let* r := sys (c_link (str "dd/ff") (str "dd/dd/ffff")) in
  do* expect (negb (r =? 0)) "link dd/ff dd/dd/ffff succeeded!" in
  let* r := sys (c_mkdir (str "dd/ff/ff")) in
  do* expect (negb (r =? 0)) "mkdir dd/ff/ff succeeded!" in
  let* r := sys (c_mkdir (str "dd/xx/ff")) in
  do* expect (negb (r =? 0)) "mkdir dd/xx/ff succeeded!" in
  let* r := sys (c_mkdir (str "dd/dd/ffff")) in
  do* expect (negb (r =? 0)) "mkdir dd/dd/ffff succeeded!" in
  let* r := sys (c_unlink (str "dd/xx/ff")) in
  do* expect (negb (r =? 0)) "unlink dd/xx/ff succeeded!" in
  let* r := sys (c_unlink (str "dd/ff/ff")) in
  do* expect (negb (r =? 0)) "unlink dd/ff/ff succeeded!" in
  let* r := sys (c_chdir (str "dd/ff")) in
  do* expect (negb (r =? 0)) "chdir dd/ff succeeded!" in
  let* r := sys (c_chdir (str "dd/xx")) in
  expect (negb (r =? 0)) "chdir dd/xx succeeded!".

Definition subdir_remove : prog unit :=
  let* r := sys (c_unlink (str "dd/dd/ffff")) in
  do* expect (r =? 0) "unlink dd/dd/ff failed" in
  let* r := sys (c_unlink (str "dd/ff")) in
  do* expect (r =? 0) "unlink dd/ff failed" in
  let* r := sys (c_unlink (str "dd")) in
  do* expect (negb (r =? 0)) "unlink non-empty dd succeeded!" in
  let* r := sys (c_unlink (str "dd/dd")) in
  do* expect (0 <=? r) "unlink dd/dd failed" in
  let* r := sys (c_unlink (str "dd")) in
  do* expect (0 <=? r) "unlink dd failed" in
  println 1 "subdir ok".

Definition subdir (buf : list Z) : prog (list Z) :=
  let* buf := subdir_make buf in
  let* buf := subdir_walk buf in
  do* subdir_refused in
  do* subdir_remove in
  Pure buf.

(** ** Large files *)

Fixpoint bigwrite_loop (n : nat) (sz : Z) (buf : list Z) : prog unit :=
  match n with
  | O => Pure tt
  | S k =>
      if sz <? 12 * 512 then
        let* fd := sys (c_open (str "bigwrite") O_CRW) in
        do* expect (0 <=? fd) "cannot create bigwrite" in
        do* for_up 2 0 (fun _ =>
          let* cc := sys (c_write fd (take (Z.to_nat sz) buf)) in
          if negb (cc =? sz) then
            do* uprintf 1 (str "write(%d) ret %d" ++ [NL]) [AInt sz; AInt cc] in
            exit
          else Pure tt) in
        do* sys (c_close fd) in
        do* sys (c_unlink (str "bigwrite")) in
        bigwrite_loop k (sz + 471) buf
      else Pure tt
  end.

(** [sz] grows by 471, so thirteen turns are enough. *)
Definition bigwrite (buf : list Z) : prog unit :=
  do* println 1 "bigwrite test" in
  do* sys (c_unlink (str "bigwrite")) in
  do* bigwrite_loop 13 499 buf in
  println 1 "bigwrite ok".

Fixpoint bigfile_writes (n : nat) (i : Z) (fd : Z) (buf : list Z) : prog (list Z) :=
  match n with
  | O => Pure buf
  | S k =>
      let buf := into buf (replicate 600 (u8 i)) in
      let* r := sys (c_write fd (take 600 buf)) in
      do* expect (r =? 600) "write bigfile failed" in
      bigfile_writes k (i + 1) fd buf
  end.

Fixpoint bigfile_reads (fuel : nat) (i total : Z) (fd : Z) (buf : list Z) : prog (Z * list Z) :=
  match fuel with
  | O => Stuck
  | S k =>
      let* (cc, l) := sys (c_read fd 300) in
      let buf := into buf l in
      do* expect (0 <=? cc) "read bigfile failed" in
      if cc =? 0 then Pure (total, buf)
      else
        do* expect (cc =? 300) "short read bigfile" in
        do* expect ((char_at buf 0 =? i / 2) && (char_at buf 299 =? i / 2)) "read bigfile wrong data" in
        bigfile_reads k (i + 1) (total + cc) fd buf
  end.

Definition bigfile (buf : list Z) : prog (list Z) :=
  do* println 1 "bigfile test" in
  do* sys (c_unlink (str "bigfile")) in
  let* fd := sys (c_open (str "bigfile") O_CRW) in
  do* (if fd <? 0 then do* uprintf 1 (str "cannot create bigfile") [] in exit else Pure tt) in
  let* buf := bigfile_writes 20 0 fd buf in
  do* sys (c_close fd) in
  let* fd := sys (c_open (str "bigfile") 0) in
  do* expect (0 <=? fd) "cannot open bigfile" in
  let* (total, buf) := bigfile_reads (Z.to_nat 300) 0 0 fd buf in
  do* sys (c_close fd) in
  do* expect (total =? 20 * 600) "read bigfile wrong total" in
  do* sys (c_unlink (str "bigfile")) in
  do* println 1 "bigfile test ok" in
  Pure buf.

(** ** Names *)

Definition s14 : list Z := str "12345678901234".
Definition s15 : list Z := str "123456789012345".
Definition slash (a b : list Z) : list Z := a ++ str "/" ++ b.

Definition fourteen : prog unit :=
  do* println 1 "fourteen test" in
  let* r := sys (c_mkdir s14) in
  do* expect (r =? 0) "mkdir 12345678901234 failed" in
  let* r := sys (c_mkdir (slash s14 s15)) in
  do* expect (r =? 0) "mkdir 12345678901234/123456789012345 failed" in
  let* fd := sys (c_open (slash s15 (slash s15 s15)) O_CREATE) in
  do* expect (0 <=? fd) "create 123456789012345/123456789012345/123456789012345 failed" in
  do* sys (c_close fd) in
  let* fd := sys (c_open (slash s14 (slash s14 s14)) 0) in
  do* expect (0 <=? fd) "open 12345678901234/12345678901234/12345678901234 failed" in
  do* sys (c_close fd) in
  let* r := sys (c_mkdir (slash s14 s14)) in
  do* expect (negb (r =? 0)) "mkdir 12345678901234/12345678901234 succeeded!" in
  let* r := sys (c_mkdir (slash s15 s14)) in
  do* expect (negb (r =? 0)) "mkdir 12345678901234/123456789012345 succeeded!" in
  println 1 "fourteen ok".

Definition rmdot : prog unit :=
  do* println 1 "rmdot test" in
  let* r := sys (c_mkdir (str "dots")) in
  do* expect (r =? 0) "mkdir dots failed" in
  let* r := sys (c_chdir (str "dots")) in
  do* expect (r =? 0) "chdir dots failed" in
  let* r := sys (c_unlink (str ".")) in
  do* expect (negb (r =? 0)) "rm . worked!" in
  let* r := sys (c_unlink (str "..")) in
  do* expect (negb (r =? 0)) "rm .. worked!" in
  let* r := sys (c_chdir (str "/")) in
  do* expect (r =? 0) "chdir / failed" in
  let* r := sys (c_unlink (str "dots/.")) in
  do* expect (negb (r =? 0)) "unlink dots/. worked!" in
  let* r := sys (c_unlink (str "dots/..")) in
  do* expect (negb (r =? 0)) "unlink dots/.. worked!" in
  let* r := sys (c_unlink (str "dots")) in
  do* expect (r =? 0) "unlink dots failed!" in
  println 1 "rmdot ok".

Definition dirfile : prog unit :=
  do* println 1 "dir vs file" in
  let* fd := sys (c_open (str "dirfile") O_CREATE) in
  do* expect (0 <=? fd) "create dirfile failed" in
  do* sys (c_close fd) in
  let* r := sys (c_chdir (str "dirfile")) in
  do* expect (negb (r =? 0)) "chdir dirfile succeeded!" in
  let* fd := sys (c_open (str "dirfile/xx") 0) in
  do* expect (fd <? 0) "create dirfile/xx succeeded!" in
  let* fd := sys (c_open (str "dirfile/xx") O_CREATE) in
  do* expect (fd <? 0) "create dirfile/xx succeeded!" in
  let* r := sys (c_mkdir (str "dirfile/xx")) in
  do* expect (negb (r =? 0)) "mkdir dirfile/xx succeeded!" in
  let* r := sys (c_unlink (str "dirfile/xx")) in
  do* expect (negb (r =? 0)) "unlink dirfile/xx succeeded!" in
  let* r := sys (c_link (str "README") (str "dirfile/xx")) in
  do* expect (negb (r =? 0)) "link to dirfile/xx succeeded!" in
  let* r := sys (c_unlink (str "dirfile")) in
  do* expect (r =? 0) "unlink dirfile failed!" in
  let* fd := sys (c_open (str ".") O_RDWR) in
  do* expect (fd <? 0) "open . for writing succeeded!" in
  let* fd := sys (c_open (str ".") 0) in
  let* r := sys (c_write fd (str "x")) in
  do* expect (r <=? 0) "write . succeeded!" in
  do* sys (c_close fd) in
  println 1 "dir vs file OK".

Definition open_close (path : list Z) : prog unit :=
  let* fd := sys (c_open path O_CREATE) in
  if 0 <=? fd then do* sys (c_close fd) in Pure tt else Pure tt.

(** One more turn than the inode cache has entries. *)
Definition iref : prog unit :=
  do* println 1 "empty file name" in
  do* for_up (50 + 1) 0 (fun _ =>
    let* r := sys (c_mkdir (str "irefd")) in
    do* expect (r =? 0) "mkdir irefd failed" in
    let* r := sys (c_chdir (str "irefd")) in
    do* expect (r =? 0) "chdir irefd failed" in
    do* sys (c_mkdir []) in
    do* sys (c_link (str "README") []) in
    do* open_close [] in
    do* open_close (str "xx") in
    do* sys (c_unlink (str "xx")) in
    Pure tt) in
  do* sys (c_chdir (str "/")) in
  println 1 "empty file name OK".

Definition forktest : prog unit :=
  forktest_with println (Z.to_nat 1000) "fork claimed to work 1000 times!".
