(* ===== verification/UsertestsMem.v ===== *)
(** * The regression tests (usertests.c), part 3: memory, and [main] *)
From S2P Require Import Prelude Memory Mmu Ulib Printf Fs Log Umalloc User UserProgs Usertests UsertestsDir.
Local Open Scope prog_scope.

(** ** The allocator *)

(** [malloc] of Umalloc.v, which asks for more memory at most once: first as if
    there were none, then with the answer of [sbrk].  [base] is the address of the
    header in the program's data. *)
Definition umalloc (base : Z) (s : umstate) (nbytes : Z) : prog (Z * umstate) :=
  match malloc base (fun _ _ => false) s nbytes with
  | None => Stuck
  | Some (p, s1) =>
      if negb (p =? 0) then Pure (p, s1)
      else
        let nu := Z.max 4096 (nunits_of nbytes) in
        let* r := sys (c_sbrk (s32 (u32 (nu * sizeof_Header)))) in
        if r =? -1 then Pure (0, s1)
        else match malloc base (fun _ _ => true) (mk_um (hdrs s) (freep s) r) nbytes with
             | None => Stuck
             | Some (p, s2) => Pure (p, s2)
             end
  end.

(** The chain through the blocks: the first word of each holds the previous one. *)
Fixpoint mem_fill (fuel : nat) (base : Z) (s : umstate) (chain : list Z) : prog (umstate * list Z) :=
  match fuel with
  | O => Stuck
  | S k =>
      let* (m2, s) := umalloc base s 10001 in
      if negb (m2 =? 0) then mem_fill k base s (m2 :: chain) else Pure (s, chain)
  end.
Fixpoint mem_free (s : umstate) (chain : list Z) : prog umstate :=
  match chain with
  | [] => Pure s
  | m1 :: chain' => match free s m1 with Some s => mem_free s chain' | None => Stuck end
  end.

(** [fuel] bounds the number of blocks that fit into memory. *)
Definition mem (fuel : nat) (base : Z) : prog unit :=
  do* println 1 "mem test" in
  let* ppid := sys c_getpid in
  let* pid := sys c_fork in
  if pid =? 0 then
    let* (s, chain) := mem_fill fuel base (mk_um ∅ 0 0) [] in
    let* s := mem_free s chain in
    let* (m1, s) := umalloc base s (1024 * 20) in
    if m1 =? 0 then
      do* println 1 "couldn't allocate mem?!!" in
      do* sys (c_kill ppid) in
      exit
    else
      match free s m1 with
      | None => Stuck
      | Some _ =>
          do* println 1 "mem ok" in
          exit
      end
  else
    do* sys c_wait in
    Pure tt.

(** ** sbrk *)

Definition two (fmt : string) (a c : Z) : prog unit := uprintf 1 (str fmt ++ [NL]) [AInt a; AInt c].

(** One byte at a time; the end. *)
Fixpoint sbrk_bytes (n : nat) (i a : Z) : prog Z :=
  match n with
  | O => Pure a
  | S k =>
      let* b := sys (c_sbrk 1) in
      if negb (b =? a) then
        do* uprintf 1 (str "sbrk test failed %d %x %x" ++ [NL]) [AInt i; AInt a; AInt b] in
        exit
      else
        do* sys (c_store b 1) in
        sbrk_bytes k (i + 1) (b + 1)
  end.

(** [n] is 5000. *)
Definition sbrk_small (n : nat) : prog unit :=
  let* a := sys (c_sbrk 0) in
  let* a := sbrk_bytes n 0 a in
  let* pid := sys c_fork in
  do* expect (0 <=? pid) "sbrk test fork failed" in
  do* sys (c_sbrk 1) in
  let* c := sys (c_sbrk 1) in
  do* expect (c =? a + 1) "sbrk test failed post-fork" in
  if pid =? 0 then exit else do* sys c_wait in Pure tt.

Definition BIG : Z := 100 * 1024 * 1024.

Definition sbrk_big (oldbrk : Z) : prog unit :=
  let* a := sys (c_sbrk 0) in
  let* p := sys (c_sbrk (BIG - a)) in
  do* expect (p =? a) "sbrk test failed to grow big address space; enough phys mem?" in
  let lastaddr := BIG - 1 in
  do* sys (c_store lastaddr 99) in
  let* a := sys (c_sbrk 0) in
  let* c := sys (c_sbrk (-4096)) in
  do* expect (negb (c =? -1)) "sbrk could not deallocate" in
  let* c := sys (c_sbrk 0) in
  do* (if negb (c =? a - 4096) then
         do* two "sbrk deallocation produced wrong address, a %x c %x" a c in
         exit
       else Pure tt) in
  let* a := sys (c_sbrk 0) in
  let* c := sys (c_sbrk 4096) in
  let* bad := (if negb (c =? a) then Pure true
               else let* e := sys (c_sbrk 0) in Pure (negb (e =? a + 4096))) in
  do* (if bad then do* two "sbrk re-allocation failed, a %x c %x" a c in exit else Pure tt) in
  let* v := sys (c_load lastaddr) in
  do* expect (negb (v =? 99)) "sbrk de-allocation didn't really deallocate" in
  let* a := sys (c_sbrk 0) in
  let* b := sys (c_sbrk 0) in
  let* c := sys (c_sbrk (- (b - oldbrk))) in
  if negb (c =? a) then do* two "sbrk downsize failed, a %x c %x" a c in exit else Pure tt.

(** The kernel's memory, from [a] on. *)
Fixpoint sbrk_kernel (n : nat) (a : Z) : prog unit :=
  match n with
  | O => Pure tt
  | S k =>
      let* ppid := sys c_getpid in
      let* pid := sys c_fork in
      do* expect (0 <=? pid) "fork failed" in
      if pid =? 0 then
        let* v := sys (c_load a) in
        do* uprintf 1 (str "oops could read %x = %x" ++ [NL]) [AInt a; AInt v] in
        do* sys (c_kill ppid) in
        exit
      else
        do* sys c_wait in
        sbrk_kernel k (a + 50000)
  end.

(** [for(;;) sleep(1000);] with a bound. *)
Fixpoint sleep_forever (fuel : nat) : prog unit :=
  match fuel with
  | O => Stuck
  | S k =>
      do* sys (c_sleep 1000) in
      sleep_forever k
  end.

(** The children that take memory and wait to be killed: their numbers. *)
Fixpoint sbrk_children (n : nat) (fds : Z * Z) : prog (list Z) :=
  match n with
  | O => Pure []
  | S k =>
      let* pid := sys c_fork in
      if pid =? 0 then
        let* a := sys (c_sbrk 0) in
        do* sys (c_sbrk (BIG - a)) in
        do* sys (c_write fds.2 (str "x")) in
        do* sleep_forever (Z.to_nat 1000) in
        exit
      else
        do* (if negb (pid =? -1) then do* sys (c_read fds.1 1) in Pure tt else Pure tt) in
        let* l := sbrk_children k fds in
        Pure (pid :: l)
  end.

Fixpoint sbrk_reap (pids : list Z) : prog unit :=
  match pids with
  | [] => Pure tt
  | pid :: l =>
      do* (if pid =? -1 then Pure tt else do* sys (c_kill pid) in do* sys c_wait in Pure tt) in
      sbrk_reap l
  end.

Definition sbrk_exhaust (oldbrk : Z) : prog unit :=
  let* (r, fds) := sys c_pipe in
  do* expect (r =? 0) "pipe() failed" in
  let* pids := sbrk_children 10 fds in
  let* c := sys (c_sbrk 4096) in
  do* sbrk_reap pids in
  do* expect (negb (c =? -1)) "failed sbrk leaked memory" in
  let* e := sys (c_sbrk 0) in
  if oldbrk <? e then
    let* e := sys (c_sbrk 0) in
    do* sys (c_sbrk (- (e - oldbrk))) in
    Pure tt
  else Pure tt.

Definition sbrktest : prog unit :=
  do* println 1 "sbrk test" in
  let* oldbrk := sys (c_sbrk 0) in
  do* sbrk_small (Z.to_nat 5000) in
  do* sbrk_big oldbrk in
  do* sbrk_kernel 40 KERNBASE in
  do* sbrk_exhaust oldbrk in
  println 1 "sbrk test OK".

(** ** Bad arguments *)

Definition validateint (p : Z) : prog unit :=
  do* sys (c_sleep_at p) in
  Pure tt.

(** The addresses from [p] on, a page apart. *)
Fixpoint validate_loop (n : nat) (p : Z) : prog unit :=
  match n with
  | O => Pure tt
  | S k =>
      let* pid := sys c_fork in
      if pid =? 0 then
        do* validateint p in
        exit
      else
        do* sys (c_sleep 0) in
        do* sys (c_sleep 0) in
        do* sys (c_kill pid) in
        do* sys c_wait in
        let* r := sys (c_link_at (str "nosuchfile") p) in
        do* expect (r =? -1) "link should not succeed" in
        validate_loop k (p + 4096)
  end.

(** 276 pages: up to 1100 KB, inclusive. *)
Definition validatetest : prog unit :=
  do* println 1 "validate test" in
  do* validate_loop (Z.to_nat (1100 * 1024 / 4096 + 1)) 0 in
  println 1 "validate ok".

(** [uninit] is an uninitialised global array. *)
Definition bsstest (uninit : list Z) : prog unit :=
  do* println 1 "bss test" in
  do* expect (forallb (Z.eqb 0) uninit) "bss test failed" in
  println 1 "bss test ok".

Definition bigarg : list Z := str "bigargs test: failed" ++ [NL] ++ replicate 199 (ch " ").

Definition bigargtest : prog unit :=
  do* sys (c_unlink (str "bigarg-ok")) in
  let* pid := sys c_fork in
  if pid =? 0 then
    do* println 1 "bigarg test" in
    do* sys (c_exec (str "echo") (replicate 31 bigarg)) in
    do* println 1 "bigarg test ok" in
    let* fd := sys (c_open (str "bigarg-ok") O_CREATE) in
    do* sys (c_close fd) in
    exit
  else
    do* expect (0 <=? pid) "bigargtest: fork failed" in
    do* sys c_wait in
    let* fd := sys (c_open (str "bigarg-ok") 0) in
    do* expect (0 <=? fd) "bigarg test failed!" in
    do* sys (c_close fd) in
    do* sys (c_unlink (str "bigarg-ok")) in
    Pure tt.

(** ** A full disk *)

Definition f_name (n : Z) : list Z :=
  [ch "f"; digit (n / 1000); digit (n mod 1000 / 100); digit (n mod 100 / 10); digit (n mod 10)].

(** The bytes written to one file. *)
Fixpoint fill_file (fuel : nat) (fd total : Z) (buf : list Z) : prog Z :=
  match fuel with
  | O => Stuck
  | S k =>
      let* cc := sys (c_write fd (take 512 buf)) in
      if cc <? 512 then Pure total else fill_file k fd (total + cc) buf
  end.

(** The number of the last file. *)
Fixpoint fsfull_fill (fuel : nat) (nfiles : Z) (buf : list Z) : prog Z :=
  match fuel with
  | O => Stuck
  | S k =>
      do* uprintf 1 (str "writing %s" ++ [NL]) [AStr (f_name nfiles)] in
      let* fd := sys (c_open (f_name nfiles) O_CRW) in
      if fd <? 0 then
        do* uprintf 1 (str "open %s failed" ++ [NL]) [AStr (f_name nfiles)] in
        Pure nfiles
      else
        let* total := fill_file (Z.to_nat 200) fd 0 buf in
        do* uprintf 1 (str "wrote %d bytes" ++ [NL]) [AInt total] in
        do* sys (c_close fd) in
        if total =? 0 then Pure nfiles else fsfull_fill k (nfiles + 1) buf
  end.

Fixpoint fsfull_remove (n : nat) (nfiles : Z) : prog unit :=
  match n with
  | O => Pure tt
  | S k =>
      do* sys (c_unlink (f_name nfiles)) in
      fsfull_remove k (nfiles - 1)
  end.

Definition fsfull (buf : list Z) : prog unit :=
  do* println 1 "fsfull test" in
  let* nfiles := fsfull_fill (Z.to_nat 1000) 0 buf in
  do* fsfull_remove (Z.to_nat (nfiles + 1)) nfiles in
  println 1 "fsfull test finished".

(** ** The rest *)

Definition uio : prog unit :=
  do* println 1 "uio test" in
  let* pid := sys c_fork in
  if pid =? 0 then
    do* (illegal : prog unit) in
    do* println 1 "uio: uio succeeded; test FAILED" in
    exit
  else
    do* expect (0 <=? pid) "fork failed" in
    do* sys c_wait in
    println 1 "uio test done".

Definition argptest : prog unit :=
  let* fd := sys (c_open (str "init") O_RDONLY) in
  if fd <? 0 then
    do* println 2 "open failed" in
    exit
  else
    do* sys (c_sbrk 0) in
    do* sys (c_read fd (-1)) in
    do* sys (c_close fd) in
    println 1 "arg test passed".

(** The random numbers, which no test uses: the new state is the result. *)
Definition rand (randstate : Z) : Z := u32 (randstate * 1664525 + 1013904223).

(** [base] is where the allocator's header lies, and [fuel] bounds [mem]. *)
Definition usertests_main (fuel : nat) (base : Z) : prog unit :=
  let buf := replicate (Z.to_nat 8192) 0 in
  do* println 1 "usertests starting" in
  let* r := sys (c_open (str "usertests.ran") 0) in
  do* expect (r <? 0) "already ran user tests -- rebuild fs.img" in
  let* fd := sys (c_open (str "usertests.ran") O_CREATE) in
  do* sys (c_close fd) in
  do* argptest in
  do* createdelete in
  do* linkunlink in
  do* concreate in
  let* buf := fourfiles buf in
  do* sharedfd in
  do* bigargtest in
  do* bigwrite buf in
  do* bigargtest in
  do* bsstest (replicate (Z.to_nat 10000) 0) in
  do* sbrktest in
  do* validatetest in
  do* opentest in
  let* buf := writetest buf in
  let* buf := writetest1 buf in
  do* createtest in
  do* openiputtest in
  do* exitiputtest in
  do* iputtest in
  do* mem fuel base in
  let* buf := pipe1 buf in
  let* buf := preempt buf in
  do* exitwait in
  do* rmdot in
  do* fourteen in
  let* buf := bigfile buf in
  let* buf := subdir buf in
  let* buf := linktest buf in
  let* buf := unlinkread buf in
  do* dirfile in
  do* iref in
  do* forktest in
  do* bigdir in
  do* uio in
  do* exectest in
  exit.
