(* ===== verification/Testers.v ===== *)
(** * The programs that test the encryption (tester1.c to tester5.c)

    The testers look at their own page table entries and at the raw contents of
    their pages.  [frame] is the address of the array [pt_entries] on the user
    stack, which the compiler chooses; the array is in the memory of the process,
    where [getpgtable] stores the entries and from where the program loads them. *)
From S2P Require Import Prelude Memory Ulib Printf Mmu State Vm User.

#[local] Open Scope prog_scope.

Definition load32 (a : Z) : prog Z :=
  let* b0 := sys (c_load a) in
  let* b1 := sys (c_load (a + 1)) in
  let* b2 := sys (c_load (a + 2)) in
  let* b3 := sys (c_load (a + 3)) in
  Pure (b0 + 256 * b1 + 65536 * b2 + 16777216 * b3).

Definition err (msg : list Z) : prog unit :=
  do* uprintf 1 (str "XV6_TEST_OUTPUT %s" ++ [NL]) [AStr msg] in
  exit.

Section Testers.
Context (frame : Z).

(** [pt_entries[i].f] *)
Definition entry (i : Z) (f : pt_field) : prog Z :=
  let* w := load32 (frame + sizeof_pt_entry * i + pf_word f) in
  Pure (Z.land (Z.shiftr w (pf_bit f)) (Z.ones (pf_width f))).

Definition print_entry (i : Z) : prog unit :=
  let* pdx := entry i pe_pdx in
  let* ptx := entry i pe_ptx in
  let* writable := entry i pe_writable in
  let* encrypted := entry i pe_encrypted in
  let* ref := entry i pe_ref in
  uprintf 1 (str "XV6_TEST_OUTPUT Index %d: pdx: 0x%x, ptx: 0x%x, writable bit: %d, encrypted: %d, ref: %d" ++ [NL])
    [AInt i; AInt pdx; AInt ptx; AInt writable; AInt encrypted; AInt ref].

(** The loop over the bytes of the page that was dumped into the buffer. *)
Fixpoint check_page (n : nat) (buffer i j expected : Z) : prog unit :=
  match n with
  | O => Pure tt
  | S k =>
      let* b := sys (c_load (buffer + j)) in
      if negb (b =? Z.land expected 0xFF) then
        let* pdx := entry i pe_pdx in
        let* ptx := entry i pe_ptx in
        let* b := sys (c_load (buffer + j)) in
        do* uprintf 1 (str "XV6_TEST_OUTPUT: content is incorrect at address 0x%x: expected 0x%x, got 0x%x" ++ [NL])
          [AInt (u32 (Z.lor (u32 (Z.shiftl pdx 22)) (Z.shiftl ptx 12) + j)); AInt (Z.land expected 0xFF); AInt (Z.land b 0xFF)] in
        exit
      else check_page k buffer i (j + 1) expected
  end.

(** The loop over the entries; [expect] is what the page of an entry should hold. *)
Fixpoint check_entries (n : nat) (buffer i : Z) (expect : Z -> prog Z) : prog unit :=
  match n with
  | O => Pure tt
  | S k =>
      do* print_entry i in
      let* expected := expect i in
      let* ppage := entry i pe_ppage in
      let* r := sys (c_dump_rawphymem (ppage * PGSIZE) buffer) in
      do* (if negb (r =? 0) then err (str "dump_rawphymem return non-zero value" ++ [NL]) else Pure tt) in
      do* check_page 4096 buffer i 0 expected in
      check_entries k buffer (i + 1) expect
  end.

(** [getpgtable] and the check of what it returns; [shown] is the number that the
    message names. *)
Definition verify (buffer num shown : Z) (expect : Z -> prog Z) : prog unit :=
  let* retval := sys (c_getpgtable frame num 0) in
  if retval =? num then check_entries (Z.to_nat retval) buffer 0 expect
  else uprintf 1 (str "XV6_TEST_OUTPUT: getpgtable returned incorrect value: expected %d, got %d" ++ [NL]) [AInt shown; AInt retval].

(** [while ((uint)buffer != 0x6000) buffer = sbrk(PGSIZE);] *)
Fixpoint sbrk_until (n : nat) (buffer : Z) : prog Z :=
  match n with
  | O => Stuck
  | S k =>
      if u32 buffer =? 0x6000 then Pure buffer
      else
        let* buffer := sys (c_sbrk PGSIZE) in
        sbrk_until k buffer
  end.

(** ** tester1.c *)

Definition tester1 (fuel : nat) : prog unit :=
  do* println 1 "This tester allocates one pages and verifies its initial state" in
  do* println 1 "working queue=8" in
  let* buffer := sys (c_sbrk PGSIZE) in
  let* buffer := sbrk_until fuel buffer in
  do* sys (c_sbrk (1 * PGSIZE)) in
  do* verify buffer 1 1 (fun _ => Pure 0xFF) in
  exit.

(** ** tester2.c *)

Definition tester2 (fuel : nat) : prog unit :=
  do* println 1 "this tester allcoates one pages and verifies its state after been accessed" in
  do* println 1 "working queue=8" in
  let* buffer := sys (c_sbrk PGSIZE) in
  let* buffer := sbrk_until fuel buffer in
  let* ptr := sys (c_sbrk (1 * PGSIZE)) in
  do* verify buffer 1 1 (fun _ => Pure 0xFF) in
  do* sys (c_store ptr 0) in
  do* verify buffer 1 1 (fun _ => Pure 0) in
  exit.

(** ** tester3.c *)

Definition tester3 : prog unit :=
  do* println 1 "this tester tests if seg fault is handled correctly" in
  do* println 1 "working queue=8" in
  do* sys (c_sbrk PGSIZE) in
  let* ptr := sys (c_sbrk (5 * PGSIZE)) in
  let* ppid := sys c_getpid in
  let* pid := sys c_fork in
  do* (if pid =? 0 then
         do* sys (c_store (ptr + 5 * PGSIZE) 0xAA) in
         do* println 1 "XV6_TEST_OUTPUT Seg fault failed to trigger" in
         do* sys (c_kill ppid) in
         exit
       else
         do* sys c_wait in
         Pure tt) in
  do* println 1 "XV6_TEST_OUTPUT TEST PASS" in
  exit.

(** ** tester4.c and tester5.c *)

Fixpoint access_pages (l : list Z) : prog unit :=
  match l with
  | [] => Pure tt
  | a :: l' => do* sys (c_load a) in access_pages l'
  end.
Definition access_all_dummy_pages (l : list Z) : prog unit :=
  do* access_pages l in
  uprintf 1 [NL] [].

Fixpoint sbrk_pages (n : nat) : prog (list Z) :=
  match n with
  | O => Pure []
  | S k =>
      let* a := sys (c_sbrk PGSIZE) in
      let* l := sbrk_pages k in
      Pure (a :: l)
  end.

(** [n] bytes from [a] on. *)
Fixpoint fill (n : nat) (a b : Z) : prog unit :=
  match n with
  | O => Pure tt
  | S k => do* sys (c_store a b) in fill k (a + 1) b
  end.

(** The text pages, the stack page and new pages, 4 in all: the array has no room
    for more. *)
Definition dummies (buffer : Z) : prog (list Z) :=
  let sp := buffer - PGSIZE in
  let text_pages := Z.to_nat ((buffer - 2 * PGSIZE) / PGSIZE) in
  if (4 <=? text_pages)%nat then Stuck
  else
    let* l := sbrk_pages (4 - (text_pages + 1)) in
    Pure (((fun i => Z.of_nat i * PGSIZE) <$> seq 0 text_pages) ++ [sp] ++ l).

(** [buffer[0] = buffer[0];] *)
Definition rewrite_byte (a : Z) : prog unit :=
  let* b := sys (c_load a) in
  do* sys (c_store a b) in
  Pure tt.

Definition heap_pages_num : Z := CLOCKSIZE - 4 - 1.

(** [0xAA], or its complement when the page is encrypted. *)
Definition expect_AA (i : Z) : prog Z :=
  let* e := entry i pe_encrypted in
  Pure (if negb (e =? 0) then Z.lnot 0xAA else 0xAA).

Definition tester4 : prog unit :=
  do* println 1 "this tester allocates 4 pages to fill in the working queue" in
  do* println 1 "working queue=8" in
  let* buffer := sys (c_sbrk PGSIZE) in
  let* dummy_pages := dummies buffer in
  do* access_all_dummy_pages dummy_pages in
  do* rewrite_byte buffer in
  let* ptr := sys (c_sbrk (heap_pages_num * PGSIZE)) in
  do* fill (Z.to_nat (heap_pages_num * PGSIZE)) ptr 0xAA in
  do* verify buffer heap_pages_num heap_pages_num expect_AA in
  exit.

Definition tester5 : prog unit :=
  do* println 1 "this tester tests if the clock queue works by allocating N+1 pages to trigger the eviction" in
  do* println 1 "clock queue=8" in
  let* buffer := sys (c_sbrk PGSIZE) in
  let* dummy_pages := dummies buffer in
  do* access_all_dummy_pages dummy_pages in
  do* rewrite_byte buffer in
  let* ptr := sys (c_sbrk (heap_pages_num * PGSIZE)) in
  do* sys (c_store (ptr + Z.quot heap_pages_num 2 * PGSIZE) 0xAA) in
  do* fill (Z.to_nat (heap_pages_num * PGSIZE)) ptr 0xAA in
  let* extra_pages := sys (c_sbrk PGSIZE) in
  do* fill 4096 extra_pages 0xAA in
  do* access_all_dummy_pages dummy_pages in
  do* rewrite_byte buffer in
  do* verify buffer (heap_pages_num + 1) heap_pages_num expect_AA in
  exit.
End Testers.
