(* ===== verification/UserRun.v ===== *)
(** * Whole-system runs

    From [mkfs] to the console: an image is built by the model of mkfs.c, the
    file system is mounted on it as [forkret] does, the first process runs
    init.c, and init starts the program in the file [sh], on the machine of
    Machine.v.  The runs are evaluated: the tests of usertests.c, one after the
    other each on a fresh image, and a session of the shell of sh.c. *)
From S2P Require Import Prelude Memory Ulib Log Fs Pipe File Sysfile Mkfs Shell User UserProgs Machine.
From S2P Require Import Usertests UsertestsDir UsertestsMem Testers.

(** ** The image *)

(** Each program's file holds one byte that stands for its code. *)
Definition bins : list (list Z * list Z) :=
  [(str "README", str "xv6 is a re-implementation" ++ [NL]);
   (str "_sh", [1]); (str "_init", [2]); (str "_cat", [3]); (str "_echo", [4]); (str "_wc", [5]);
   (str "_ls", [6]); (str "_rm", [7]); (str "_mkdir", [8]); (str "_grep", [9]); (str "_ln", [10]); (str "_kill", [11])].

Definition bin_file (a : list Z) : option (list (list Z)) :=
  match list_find (fun x => x.1 = a) bins with
  | Some (_, x) => Some [x.2]
  | None => None
  end.

Definition image_of (o : outcome mkstate unit) : gmap Z Memory.mem :=
  match o with Ret _ s => img s | _ => ∅ end.
Definition fs_img : gmap Z Memory.mem :=
  image_of (Mkfs.main (fun _ => true) bin_file (str "fs.img" :: bins.*1) start_state).

(** The programs, with [sh] the one that init starts. *)
Definition image (sh : list (list Z) -> prog unit) (b : list Z) : option (Z * (list (list Z) -> prog unit)) :=
  match b with
  | [1] => Some (0xC000, sh)
  | [3] => Some (0x4000, cat_main 100)
  | [4] => Some (0x4000, echo_main)
  | [5] => Some (0x4000, wc_main 100)
  | [6] => Some (0x4000, ls_main 100)
  | [7] => Some (0x4000, rm_main)
  | [8] => Some (0x4000, mkdir_main)
  | [9] => Some (0x4000, grep_main 100)
  | [10] => Some (0x4000, ln_main)
  | [11] => Some (0x4000, kill_main)
  | _ => None
  end.

(** ** Mounting, and the first process *)

Definition mount : F nat :=
  do* iinit in
  do* lift initlog in
  let* r := namei (dev_read []) 0 (str "/") in
  match r with Some i => ret i | None => panic "no root" end.

Definition no_inode : inode := mk_inode 0 0 0 false false 0 0 0 0 0 [].
Definition no_file : file := mk_file FD_NONE 0 false false 0 0 0.
Definition cold : fstate :=
  mk_fstate (mk_dstate fs_img ∅ [] (mk_log 0 0 0 false [])) (mk_superblock 0 0 0 0 0 0 0)
    (replicate (Z.to_nat NINODE) no_inode).

Definition first_process (root : nat) (f : fstate) (input : list Z) : machine :=
  mk_machine
    (mk_con (mk_kfs f (replicate (Z.to_nat NFILE) no_file) [] 64
       (mk_fproc (replicate (Z.to_nat NOFILE) None) root false :: replicate (NPROC - 1) empty_fproc) 0 ∅)
      [] input)
    (mk_uproc URunnable 1 0 0x4000 ∅ (init_main 1 100) :: replicate (NPROC - 1) no_proc) 2.

(** A machine with [memory] pages, and turns of [slice] calls. *)
Definition start (sh : list (list Z) -> prog unit) (memory : Z) (fuel slice : nat) (o : outcome fstate nat) : outcome machine unit :=
  match o with
  | Ret root f => run (image sh) memory fuel slice slice NPROC 0 (first_process root f [])
  | Panic msg => Panic msg
  | Fault msg => Fault msg
  | OutOfFuel => OutOfFuel
  end.
Definition system (sh : list (list Z) -> prog unit) (memory : Z) (slice : nat) : outcome machine unit :=
  start sh memory (Z.to_nat 100000) slice (mount cold).
(** About the 224 MB of the kernel. *)
Definition all_memory : Z := 56000.

(** ** The tests *)

Definition banner : list Z := str "init: starting sh" ++ [NL].
Fixpoint text (l : list string) : list Z :=
  match l with
  | [] => []
  | s :: l' => str s ++ [NL] ++ text l'
  end.

(** What a run prints after init's line, unless it panics or does not end. *)
Definition prints (o : outcome machine unit) : option (list Z) :=
  match o with
  | Ret _ m => if bool_decide (take (length banner) (tty (co m)) = banner) then Some (drop (length banner) (tty (co m))) else None
  | _ => None
  end.

Definition test := (prog unit * list string)%type.
Definition passes (memory : Z) (slice : nat) (t : test) : bool :=
  bool_decide (prints (system (fun _ => t.1) memory slice) = Some (text t.2)).

Definition buf0 : list Z := replicate (Z.to_nat 8192) 0.
Definition forget (p : prog (list Z)) : prog unit := pbind p (fun _ => Pure tt).

Definition file_tests : list test :=
  [(iputtest, ["iput test"; "iput test ok"]);
   (exitiputtest, ["exitiput test"; "exitiput test ok"]);
   (openiputtest, ["openiput test"; "openiput test ok"]);
   (opentest, ["open test"; "open test ok"]);
   (forget (writetest buf0), ["small file test"; "creat small succeeded; ok"; "writes ok"; "open small succeeded ok";
      "read succeeded ok"; "small file test ok"]);
   (createtest, ["many creates, followed by unlink test"; "many creates, followed by unlink; ok"]);
   (dirtest, ["mkdir test"; "mkdir test ok"]);
   (exectest, ["exec test"; "ALL TESTS PASSED"]);
   (forget (unlinkread buf0), ["unlinkread test"; "unlinkread ok"]);
   (forget (linktest buf0), ["linktest"; "linktest ok"]);
   (forget (bigfile buf0), ["bigfile test"; "bigfile test ok"])]%string.

Definition dir_tests : list test :=
  [(forget (subdir buf0), ["subdir test"; "subdir ok"]);
   (fourteen, ["fourteen test"; "fourteen ok"]);
   (rmdot, ["rmdot test"; "rmdot ok"]);
   (dirfile, ["dir vs file"; "dir vs file OK"]);
   (iref, ["empty file name"; "empty file name OK"])]%string.

(** Tests about processes, and tester3.c. *)
Definition process_tests : list test :=
  [(argptest, ["arg test passed"]);
   (bigargtest, ["bigarg test"; "bigarg test ok"]);
   (bsstest (replicate (Z.to_nat 10000) 0), ["bss test"; "bss test ok"]);
   (validatetest, ["validate test"; "validate ok"]);
   (forget (pipe1 buf0), ["pipe1 ok"]);
   (forget (preempt buf0), ["preempt: kill... wait... preempt ok"]);
   (exitwait, ["exitwait ok"]);
   (tester3, ["this tester tests if seg fault is handled correctly"; "working queue=8"; "XV6_TEST_OUTPUT TEST PASS"]);
   (forktest, ["fork test"; "fork test OK"]);
   (uio, ["uio test"; "uio test done"]);
   (linkunlink, ["linkunlink test"; "linkunlink ok"])]%string.

(** [mem] takes all of a small memory. *)
Definition memory_tests : list test := [(mem 100 0x3000, ["mem test"; "mem ok"])]%string.

(** Evaluated regression runs: each of these tests, run from an image that [mkfs]
    built in a shell's place under [init], comes to an end without a panic, with
    exactly the lines on the console that it prints when nothing is wrong. *)
Lemma file_tests_pass : forallb (passes all_memory 50) file_tests = true.
Proof. vm_compute. reflexivity. Qed.
Lemma dir_tests_pass : forallb (passes all_memory 50) dir_tests = true.
Proof. vm_compute. reflexivity. Qed.
Lemma process_tests_pass : forallb (passes all_memory 7) process_tests = true.
Proof. vm_compute. reflexivity. Qed.
Lemma memory_tests_pass : forallb (passes 200 50) memory_tests = true.
Proof. vm_compute. reflexivity. Qed.

(** The last loop of [createdelete] takes the name's first letter from the wrong
    variable: the test reports success, and files that it made stay behind. *)
Definition createdelete_then_open : prog unit :=
  pbind createdelete (fun _ => pbind (sys (c_open (str "q0") 0)) (fun fd =>
  if fd <? 0 then println 1 "q0 is gone" else println 1 "q0 is there")).
Theorem createdelete_leaves_files :
  prints (system (fun _ => createdelete_then_open) all_memory 50) =
  Some (text ["createdelete test"; "createdelete ok"; "q0 is there"]%string).
Proof. vm_compute. reflexivity. Qed.

(** ** The shell *)

(** A program of sh.c as a program of User.v; what it writes goes out a character
    at a time. *)
Fixpoint of_shell (p : Shell.prog) : prog unit :=
  match p with
  | Shell.Exit => exit
  | Shell.Exec path argv k => Call (c_exec path argv) (fun _ => of_shell k)
  | Shell.Open path mode k => Call (c_open path mode) (fun r => of_shell (k r))
  | Shell.Close fd k => Call (c_close fd) (fun _ => of_shell k)
  | Shell.Dup fd k => Call (c_dup fd) (fun _ => of_shell k)
  | Shell.Pipe k => Call c_pipe (fun r : Z * (Z * Z) => of_shell (k (if r.1 <? 0 then None else Some r.2)))
  | Shell.Fork k => Call c_fork (fun r => of_shell (k r))
  | Shell.Wait k => Call c_wait (fun _ => of_shell k)
  | Shell.Chdir path k => Call (c_chdir path) (fun r => of_shell (k r))
  | Shell.Write fd l k => pbind (puts fd l) (fun _ => of_shell k)
  end.

Definition session (lines : list string) : option (list Z) :=
  prints (system (fun _ => of_shell (Shell.main (text lines))) all_memory 50).

(** A session: redirection, pipelines of three programs, directories, links and
    error messages. *)
Theorem shell_session :
  session ["echo hello world > f"; "cat f | wc"; "mkdir d"; "ln f d/g"; "rm f"; "cat f"; "cat d/g README | grep o | wc";
           "ls d"; "cd d"; "/cat g; /echo done &"; "nosuch"]%string =
  Some (text
    ["$ $ 1 2 12 ";
     "$ $ $ $ cat: cannot open f";
     "$ 2 6 39 ";
     "$ .              1 16 48";
     "..             1 1 512";
     "g              2 15 12";
     "$ $ hello world";
     "done";
     "zombie!";
     "$ exec nosuch failed"]%string ++ str "$ ").
Proof. vm_compute. reflexivity. Qed.
