(* ===== verification/Filters.v ===== *)
(** * Programs that read a stream and write another

    [cat], [wc] and [grep] against an interface: a descriptor that delivers a
    stream of bytes, possibly in pieces, and a standard output that takes what is
    written to it.  The kernel's files, pipes and console are implementations
    (KernelFilter.v). *)
From S2P Require Import Prelude Memory KString Ulib Printf Grep Fs User UserProgs.

(** ** Interpretation *)

Section Interp.
Context {St : Type} (h : forall c, M St (result c)).

Lemma interp_bind {A B} (p : prog A) (f : A -> prog B) : forall s,
  interp h (pbind p f) s = bind (interp h p) (fun o => match o with Some a => interp h (f a) | None => ret None end) s.
Proof.
  induction p as [a|c k IH| |]; intros s; [done| |done|done].
  destruct c; cbn [interp pbind]; try done; rewrite bind_assoc; unfold bind; case_match; (done || apply IH).
Qed.

(** A part of a program that returns. *)
Lemma interp_seq {A B} (p : prog A) (f : A -> prog B) s a s' :
  interp h p s = Ret (Some a) s' -> interp h (pbind p f) s = interp h (f a) s'.
Proof. intros E. rewrite interp_bind. unfold bind. by rewrite E. Qed.
End Interp.

(** ** The interface *)

Definition is_byte (b : Z) : Prop := 0 <= b < 256.

(** [I s inp out]: in state [s] the descriptor still has [inp] to deliver, and
    [out] has been written to descriptor 1. *)
Section Classes.
Context {St : Type} (h : forall c, M St (result c)) (fd : Z) (I : St -> list Z -> list Z -> Prop).

Class Source : Prop := {
  source_read s inp out n : I s inp out -> 0 < n <= 1024 ->
    exists k s', h (c_read fd n) s = Ret (Z.of_nat k, take k inp) s' /\ I s' (drop k inp) out /\
      (k <= length inp)%nat /\ Z.of_nat k <= n /\ (inp <> [] -> (0 < k)%nat);
  source_bytes s inp out : I s inp out -> Forall is_byte inp
}.

(** A regular file delivers as much as is asked for. *)
Class Regular : Prop := {
  regular_read s inp out n : I s inp out -> (n <= 1024)%nat ->
    exists s', h (c_read fd (Z.of_nat n)) s = Ret (Z.of_nat (length (take n inp)), take n inp) s' /\ I s' (drop n inp) out;
  regular_bytes s inp out : I s inp out -> Forall is_byte inp
}.

Class Sink : Prop := {
  sink_write s inp out bytes : I s inp out -> (0 < length bytes <= 1024)%nat -> Forall is_byte bytes ->
    exists s', h (c_write 1 bytes) s = Ret (Z.of_nat (length bytes)) s' /\ I s' inp (out ++ bytes)
}.

#[export] Instance regular_source `{!Regular} : Source.
Proof.
  split; [|apply regular_bytes]. intros s inp out n Hs Hn.
  destruct (regular_read s inp out (Z.to_nat n) Hs ltac:(lia)) as (s' & E & Hs'). rewrite Z2Nat.id in E by lia.
  exists (length (take (Z.to_nat n) inp)), s'. rewrite length_take in *. split_and!; [|..|lia|lia|].
  - destruct (Nat.le_ge_cases (Z.to_nat n) (length inp)).
    + by rewrite Nat.min_l in * by lia.
    + rewrite Nat.min_r in * by lia. by rewrite firstn_all, take_ge in * by lia.
  - destruct (Nat.le_ge_cases (Z.to_nat n) (length inp)); [by rewrite Nat.min_l by lia|].
    rewrite Nat.min_r by lia. by rewrite drop_all, drop_ge in * by lia.
  - intros Hne. destruct inp; [done|]. cbn [length]. lia.
Qed.
End Classes.

(** ** Clients *)

Section Clients.
Context {St : Type} (h : forall c, M St (result c)) (fd : Z) (I : St -> list Z -> list Z -> Prop).

Lemma puts_out `{!Sink h I} l : Forall is_byte l -> forall s inp out, I s inp out ->
  exists s', interp h (puts 1 l) s = Ret (Some tt) s' /\ I s' inp (out ++ l).
Proof.
  induction l as [|c l IH]; intros Hl s inp out Hs; cbn [puts interp].
  - exists s. by rewrite app_nil_r.
  - apply Forall_cons in Hl as [Hc Hl]. destruct (sink_write h I s inp out [c] Hs) as (s1 & E & Hs1); [cbn; lia|by constructor|].
    rewrite (bind_Ret _ _ _ _ _ E). destruct (IH Hl _ _ _ Hs1) as (s' & E' & Hs'). exists s'. by rewrite <- app_assoc in Hs'.
Qed.

(** One read: the bytes it returns, and whether it is the last. *)
Lemma read_turn `{!Source h fd I} {A} (f : Z * list Z -> prog A) n s inp out : I s inp out -> 0 < n <= 1024 ->
  exists k s', interp h (pbind (sys (c_read fd n)) f) s = interp h (f (Z.of_nat k, take k inp)) s' /\
    I s' (drop k inp) out /\ (k <= length inp)%nat /\ Z.of_nat k <= n /\ (inp <> [] -> (0 < k)%nat).
Proof.
  intros Hs Hn. destruct (source_read h fd I s inp out n Hs Hn) as (k & s' & E & H). exists k, s'. split; [|exact H].
  cbn [sys pbind interp]. by rewrite (bind_Ret _ _ _ _ _ E).
Qed.

Lemma cat_spec `{!Source h fd I, !Sink h I} : forall fuel s inp out,
  I s inp out -> (length inp < fuel)%nat ->
  exists s', interp h (cat fuel fd) s = Ret (Some tt) s' /\ I s' [] (out ++ inp).
Proof.
  induction fuel as [|fuel IH]; intros s inp out Hs Hf; [lia|]. cbn [cat].
  match goal with |- context [pbind (sys _) ?f] => destruct (read_turn f 512 s inp out Hs ltac:(lia)) as (k & s1 & -> & Hs1 & Hk & Hk2 & Hne) end.
  cbn beta iota. destruct (Z.ltb_spec 0 (Z.of_nat k)) as [Hpos|Hz].
  - destruct (sink_write h I s1 _ out (take k inp) Hs1) as (s2 & E2 & Hs2).
    + rewrite length_take. lia.
    + apply Forall_take. exact (source_bytes h fd I _ _ _ Hs).
    + cbn [sys pbind interp]. rewrite (bind_Ret _ _ _ _ _ E2), length_take, Nat.min_l, Z.eqb_refl by lia. cbn [negb].
      destruct (IH s2 _ _ Hs2) as (s' & E' & Hs'); [rewrite length_drop; lia|]. exists s'. split; [done|].
      by rewrite <- app_assoc, take_drop in Hs'.
  - destruct inp as [|b inp]; [|specialize (Hne ltac:(done)); lia]. destruct (Z.ltb_spec (Z.of_nat k) 0); [lia|].
    exists s1. rewrite app_nil_r. by rewrite drop_nil in Hs1.
Qed.

(** ** wc *)

Definition is_space (b : Z) : bool := match strchr wc_space b with Some _ => true | None => false end.

(** The number of lines, and of places where a word begins: a byte that is no space
    after one that is, or at the start. *)
Definition newlines (l : list Z) : Z := Z.of_nat (length (List.filter (Z.eqb NL) l)).
Definition starts_after (prev : Z) (l : list Z) : Z :=
  Z.of_nat (length (List.filter (fun x => is_space x.1 && negb (is_space x.2)) (zip (prev :: l) l))).
Definition word_starts (l : list Z) : Z := starts_after NL l.

Lemma starts_cons prev b l :
  starts_after prev (b :: l) = (if is_space prev && negb (is_space b) then 1 else 0) + starts_after b l.
Proof.
  unfold starts_after. change (zip (prev :: b :: l) (b :: l)) with ((prev, b) :: zip (b :: l) l).
  set (z := zip (b :: l) l). cbn [List.filter fst snd]. destruct (_ && _); cbn [length]; lia.
Qed.

Lemma wc_fold l : forall x prev, inword x = negb (is_space prev) ->
  let y := fold_left wc_char l x in
  lines y = lines x + newlines l /\ chars y = chars x + Z.of_nat (length l) /\
  nwords y = nwords x + starts_after prev l.
Proof.
  induction l as [|b l IH]; intros x prev Hx; [unfold newlines, starts_after; cbn; lia|]. cbn [fold_left]. rewrite starts_cons.
  assert (Hin : inword (wc_char x b) = negb (is_space b)) by (unfold wc_char, is_space; by destruct (strchr wc_space b), (inword x)).
  destruct (IH _ b Hin) as (-> & -> & ->). clear IH.
  assert (Hl : lines (wc_char x b) = lines x + (if NL =? b then 1 else 0)).
  { unfold wc_char. rewrite (Z.eqb_sym NL b). by destruct (b =? NL), (strchr wc_space b), (inword x); cbn; lia. }
  assert (Hc : chars (wc_char x b) = chars x + 1) by (unfold wc_char; by destruct (strchr wc_space b), (inword x)).
  assert (Hw : nwords (wc_char x b) = nwords x + (if is_space prev && negb (is_space b) then 1 else 0)).
  { unfold wc_char. destruct (is_space prev) eqn:Ep; cbn [negb andb] in *; rewrite Hx; unfold is_space; destruct (strchr wc_space b); cbn; lia. }
  rewrite Hl, Hc, Hw. unfold newlines. cbn [List.filter]. split_and!.
  - destruct (NL =? b); cbn [length]; lia.
  - cbn [length]. lia.
  - lia.
Qed.

Lemma wc_loop_spec `{!Source h fd I} : forall fuel s inp out x,
  I s inp out -> (length inp < fuel)%nat ->
  exists s', interp h (wc_loop fuel fd x) s = Ret (Some (0, fold_left wc_char inp x)) s' /\ I s' [] out.
Proof.
  induction fuel as [|fuel IH]; intros s inp out x Hs Hf; [lia|]. cbn [wc_loop].
  match goal with |- context [pbind (sys _) ?f] => destruct (read_turn f 512 s inp out Hs ltac:(lia)) as (k & s1 & -> & Hs1 & Hk & Hk2 & Hne) end.
  cbn beta iota. destruct (Z.ltb_spec 0 (Z.of_nat k)) as [Hpos|Hz].
  - destruct (IH s1 _ _ (fold_left wc_char (take k inp) x) Hs1) as (s' & E' & Hs'); [rewrite length_drop; lia|].
    exists s'. split; [|done]. by rewrite E', <- fold_left_app, take_drop.
  - destruct inp as [|b inp]; [|specialize (Hne ltac:(done)); lia]. exists s1. rewrite drop_nil in Hs1.
    split; [|done]. cbn. by replace (Z.of_nat k) with 0 by lia.
Qed.

(** The text of a number below 2^31 with %d. *)
Definition dec (n : Z) : list Z := default [] (printint udigits n 10 true).

Lemma printint_dec n : 0 <= n < 2147483648 -> printint udigits (s32 n) 10 true = Some (dec n) /\ Forall is_byte (dec n).
Proof.
  intros Hn. rewrite s32_small by lia.
  destruct (digit_loop_spec udigits 10 ltac:(cbn; lia) 16 n [] ltac:(cbn; lia) ltac:(lia)) as (ds & E & _).
  assert (Ep : printint udigits n 10 true = Some (digit_of udigits <$> ds)).
  { unfold printint. destruct (Z.ltb_spec n 0); [lia|]. cbn [andb]. by rewrite u32_small, E, app_nil_r by lia. }
  unfold dec. rewrite Ep. split; [done|]. cbn [default]. apply Forall_fmap, Forall_forall. intros d _. cbn beta delta [compose]. unfold digit_of.
  assert (Hu : Forall is_byte udigits) by (repeat (constructor; [vm_compute; split; [discriminate|reflexivity]|]); constructor).
  destruct (udigits !! d) as [c|] eqn:Ec; [|by split]. exact (Forall_lookup_1 _ _ _ _ Hu Ec).
Qed.

Lemma wc_text x name : 0 <= lines x < 2147483648 -> 0 <= nwords x < 2147483648 -> 0 <= chars x < 2147483648 ->
  Forall is_byte name ->
  exists t, t = dec (lines x) ++ [32] ++ dec (nwords x) ++ [32] ++ dec (chars x) ++ [32] ++ name ++ [NL] /\ Forall is_byte t /\
  uprintf 1 (str "%d %d %d %s" ++ [NL]) [AInt (lines x); AInt (nwords x); AInt (chars x); AStr name] = puts 1 t.
Proof.
  intros H1 H2 H3 Hn. destruct (printint_dec _ H1) as [E1 B1], (printint_dec _ H2) as [E2 B2], (printint_dec _ H3) as [E3 B3].
  eexists. split; [done|]. split.
  { rewrite !Forall_app, !Forall_singleton. unfold is_byte, NL. by repeat split; try lia. }
  unfold uprintf, printf. change (words _) with [lines x; nwords x; chars x; 4]. set (st := strings _).
  change (str "%d %d %d %s" ++ [NL]) with
    (ch "%" :: ch "d" :: 32 :: ch "%" :: ch "d" :: 32 :: ch "%" :: ch "d" :: 32 :: ch "%" :: ch "s" :: [NL]).
  rewrite (printf_d _ _ _ _ _ _ E1), printf_lit, (printf_d _ _ _ _ _ _ E2), printf_lit, (printf_d _ _ _ _ _ _ E3), printf_lit, printf_s, printf_lit
    by discriminate.
  change (str_arg st 4) with name. unfold pre. cbn [printf_loop]. reflexivity.
Qed.
(** ** grep *)

Lemma grep_write_spec `{!Sink h I} pattern : forall fuel p s inp out,
  I s inp out -> (length p < fuel)%nat -> (length p <= 1024)%nat -> Forall is_byte p ->
  exists s', interp h (grep_write fuel pattern p) s = Ret (Some (grep_lines fuel pattern p).2) s' /\
    I s' inp (out ++ (grep_lines fuel pattern p).1).
Proof.
  induction fuel as [|fuel IH]; intros p s inp out Hs Hf Hp Hb; [lia|]. cbn [grep_write grep_lines].
  destruct (strchr p NL) as [q|] eqn:Eq; [|exists s; by rewrite app_nil_r].
  assert (Hq : (q < length p)%nat).
  { clear -Eq. revert q Eq. induction p as [|c p IHp]; intros q Eq; [done|]. cbn in Eq. destruct (c =? 0); [done|].
    destruct (c =? NL); [simplify_eq; cbn; lia|]. destruct (strchr p NL) as [q'|]; [|done]. simplify_eq/=. specialize (IHp q' eq_refl). lia. }
  assert (Hstep : exists s1, interp h (if rmatch pattern (take q p) then pbind (sys (c_write 1 (take (S q) p))) (fun _ => Pure tt) else Pure tt) s =
      Ret (Some tt) s1 /\ I s1 inp (out ++ if rmatch pattern (take q p) then take (S q) p else [])).
  { destruct (rmatch pattern (take q p)); [|exists s; by rewrite app_nil_r].
    destruct (sink_write h I s inp out (take (S q) p) Hs) as (s1 & E1 & Hs1); [rewrite length_take; lia|by apply Forall_take|].
    exists s1. cbn [sys pbind interp]. by rewrite (bind_Ret _ _ _ _ _ E1). }
  destruct Hstep as (s1 & E1 & Hs1). rewrite (interp_seq h _ _ _ _ _ E1).
  destruct (IH (drop (S q) p) s1 inp _ Hs1) as (s' & E' & Hs'); [rewrite length_drop; lia..|by apply Forall_drop|].
  exists s'. destruct (grep_lines fuel pattern (drop (S q) p)) as [o r]. split; [exact E'|]. by rewrite <- app_assoc in Hs'.
Qed.

Lemma grep_lines_rest pattern : forall fuel p, exists a, p = a ++ (grep_lines fuel pattern p).2.
Proof.
  induction fuel as [|fuel IH]; intros p; cbn [grep_lines]; [by exists []|]. destruct (strchr p NL) as [q|]; [|by exists []].
  destruct (IH (drop (S q) p)) as [a Ha]. exists (take (S q) p ++ a).
  destruct (grep_lines fuel pattern (drop (S q) p)) as [o r]. cbn [snd] in *. by rewrite <- app_assoc, <- Ha, take_drop.
Qed.

(** The program does what the loop of Grep.v does on a regular file. *)
Lemma grep_loop_spec `{!Regular h fd I, !Sink h I} pattern : forall fuel buf s inp out o,
  I s inp out -> (length buf <= 1023)%nat -> Forall is_byte buf ->
  grep read_file fuel pattern inp buf = Some o ->
  exists s' rest, interp h (grep_loop fuel pattern fd buf) s = Ret (Some tt) s' /\ I s' rest (out ++ o).
Proof.
  induction fuel as [|fuel IH]; intros buf s inp out o Hs Hb Hbb Ho; [done|]. cbn [grep_loop grep] in *. unfold read_file in Ho at 1.
  set (n := (GREPBUF - length buf - 1)%nat) in *. assert (Hn : (n + length buf = 1023)%nat) by (unfold n, GREPBUF; lia).
  destruct (regular_read h fd I s inp out n Hs ltac:(lia)) as (s1 & E1 & Hs1).
  pose proof (regular_bytes h fd I _ _ _ Hs) as Hib. cbn [sys pbind interp]. rewrite (bind_Ret _ _ _ _ _ E1).
  destruct (take n inp) as [|g got] eqn:Eg.
  - injection Ho as <-. exists s1, (drop n inp). split; [reflexivity|]. by rewrite app_nil_r.
  - rewrite <- Eg in *. replace (0 <? Z.of_nat (length (take n inp))) with true by (symmetry; apply Z.ltb_lt; rewrite Eg; cbn; lia).
    set (b := buf ++ take n inp) in *.
    assert (Hlb : (length b <= 1023)%nat) by (unfold b; rewrite length_app, length_take; lia).
    assert (Hby : Forall is_byte b) by (apply Forall_app; split; [done|by apply Forall_take]).
    destruct (grep_write_spec pattern (S (length b)) b s1 _ _ Hs1 ltac:(lia) ltac:(lia) Hby) as (s2 & E2 & Hs2).
    rewrite (interp_seq h _ _ _ _ _ E2). destruct (grep_lines_rest pattern (S (length b)) b) as [a Ha].
    destruct (grep_lines (S (length b)) pattern b) as [o1 p] eqn:El. cbn [fst snd] in *.
    apply fmap_Some in Ho as (o2 & Ho2 & ->).
    assert (Hp : (length p <= length b)%nat) by (apply (f_equal length) in Ha; rewrite length_app in Ha; lia).
    assert (Hpb : Forall is_byte p) by (rewrite Ha in Hby; by apply Forall_app in Hby as [_ ?]).
    destruct (IH (if (length p =? length b)%nat then [] else p) s2 _ _ o2 Hs2) as (s' & rest & E' & Hs'); [..|exact Ho2|].
    + case_match; cbn; lia.
    + by case_match.
    + exists s', rest. split; [exact E'|]. by rewrite <- app_assoc in Hs'.
Qed.
End Clients.
