(* ===== verification/KernelFilter.v ===== *)
(** * The kernel as a provider of streams

    A process with a regular file open for reading and the console as its standard
    output sees them, through the system calls of the kernel model, as the
    interface of Filters.v: so [cat], [wc] and [grep] do on the kernel what they
    are proved to do there. *)
From S2P Require Import Prelude Memory KString Ulib Printf Grep Log LogProof Fs FsProof Pipe File FileProof Sysfile.
From S2P Require Import User UserProgs Filters Machine.

#[local] Opaque BSIZE BPB.

(** A system call of process [i] that does not sleep. *)
Definition kernel (i : nat) (c : call) : Co (result c) :=
  let* killed := enter i in
  if killed then fault "killed"
  else
    let* a := file_call c in
    match a with
    | Ans r => ret r
    | Again _ => fault "sleeps"
    end.

(** ** From calls to turns *)

Section Turns.
Context (image : list Z -> option (Z * (list (list Z) -> prog unit))) (memory : Z).

(** Process [i] takes turns and never sleeps. *)
Inductive turns (i : nat) : machine -> machine -> Prop :=
| turns_refl m : turns i m m
| turns_step m m1 m2 : turn image memory i m = Ret true m1 -> turns i m1 m2 -> turns i m m2.

Definition at_prog (i : nat) (p : prog unit) (m : machine) : Prop := up_prog <$> uprocs m !! i = Some p.

Lemma plain_file {A} (u : Co (answer A)) (k : A -> prog unit) m r c1 :
  u (co m) = Ret (Ans r) c1 -> plain (liftC u) k m = Ret (Go (k r)) (set_co c1 m).
Proof using Type. intros E. unfold plain, liftC, bind. by rewrite E. Qed.

Lemma file_do_call i c (k : result c -> prog unit) m r c1 :
  file_call c (co m) = Ret (Ans r) c1 -> do_call image memory i c k m = Ret (Go (k r)) (set_co c1 m).
Proof using Type. intros E. destruct c; try discriminate E; by apply (plain_file _ k m r c1 E). Qed.

Lemma kernel_turn i c (k : result c -> prog unit) m r c1 :
  at_prog i (Call c k) m -> kernel i c (co m) = Ret r c1 ->
  exists m1, turn image memory i m = Ret true m1 /\ co m1 = c1 /\ at_prog i (k r) m1.
Proof using Type.
  intros Hp E. unfold kernel in E. apply bind_inv in E as (killed & c0 & E0 & E). destruct killed; [done|].
  apply bind_inv in E as (a & c2 & E1 & E2). destruct a as [r'|]; [|done]. injection E2 as -> ->.
  unfold at_prog in Hp. destruct (uprocs m !! i) as [p|] eqn:Ep; [|done]. injection Hp as Hp.
  exists (set_uprocs (<[i := set_prog p (k r)]> (uprocs m)) (set_co c1 m)).
  split; [|split; [done|by unfold at_prog; cbn; rewrite list_lookup_insert_eq by (by eapply lookup_lt_Some)]].
  unfold turn. rewrite (bind_Ret _ _ m false (set_co c0 m)) by (unfold liftC; by rewrite E0).
  rewrite (bind_Ret _ _ _ p (set_co c0 m)) by (unfold get_uproc; cbn; by rewrite Ep). rewrite Hp.
  rewrite (bind_Ret _ _ _ _ _ (file_do_call i c k (set_co c0 m) r c1 E1)).
  unfold set_program, get_uproc, put_uproc, modify, bind, ret. cbn. by rewrite Ep.
Qed.

(** A program that the calls carry to its end gets there in turns. *)
Lemma interp_turns i {A} (p : prog A) : forall (k : A -> prog unit) m a c',
  at_prog i (pbind p k) m -> interp (kernel i) p (co m) = Ret (Some a) c' ->
  exists m', turns i m m' /\ co m' = c' /\ at_prog i (k a) m'.
Proof using Type.
  induction p as [a0|c k0 IH| |]; intros k m a c' Hp E; [|..|done|done].
  - injection E as -> <-. exists m. by split; [apply turns_refl|].
  - assert (Hk : exists r c1, kernel i c (co m) = Ret r c1 /\ interp (kernel i) (k0 r) c1 = Ret (Some a) c').
    { destruct c; try discriminate E; by apply bind_inv in E as (r & c1 & E1 & E2); exists r, c1. }
    destruct Hk as (r & c1 & E1 & E2). destruct (kernel_turn i c _ m r c1 Hp E1) as (m1 & Et & Ec & Hp1).
    rewrite <- Ec in E2. destruct (IH r k m1 a c' Hp1 E2) as (m' & Ht & Ec' & Hp'). exists m'. split; [|done].
    by eapply turns_step.
Qed.
End Turns.

(** ** Reading a file *)

(** Locking and unlocking leaves the inode cache as it was. *)
Lemma lock_unlock (s : fstate) i ip : icache s !! i = Some ip -> ilocked ip = false ->
  with_inode (with_inode s i (set_ilocked ip true)) i (set_ilocked (set_ilocked ip true) false) = s.
Proof.
  intros Hi Hl. destruct s as [d b l]. unfold with_inode. cbn in *. rewrite list_insert_insert_eq.
  replace (set_ilocked (set_ilocked ip true) false) with ip by (destruct ip; cbn in *; by subst). by rewrite list_insert_id.
Qed.

Lemma set_off_id x : set_off x (f_off x) = x.
Proof. by destruct x. Qed.
Lemma set_fs_id s : set_fs (fs s) s = s.
Proof. by destruct s. Qed.

(** A read that goes past the end is a read up to the end. *)
Lemma readi_clip dev s i ip off n : icache s !! i = Some ip -> itype ip <> T_DEV -> 0 <= off <= isize ip -> isize ip <= 140 * 512 ->
  (n <= 1024)%nat ->
  readi dev i off (Z.of_nat n) s = readi dev i off (Z.of_nat (Nat.min n (Z.to_nat (isize ip - off)))) s.
Proof.
  intros Hi Ht Ho Hs Hn. unfold readi. rewrite !(bind_Ret _ _ _ _ _ (get_inode_spec _ _ _ Hi)).
  destruct (Z.eqb_spec (itype ip) T_DEV); [done|]. rewrite !u32_small by lia.
  destruct (Z.ltb_spec (isize ip) off); [lia|]. destruct (Z.ltb_spec (off + Z.of_nat n) off); [lia|].
  destruct (Z.ltb_spec (off + Z.of_nat (Nat.min n (Z.to_nat (isize ip - off)))) off); [lia|]. cbn [orb].
  destruct (Z.ltb_spec (isize ip) (off + Z.of_nat n)), (Z.ltb_spec (isize ip) (off + Z.of_nat (Nat.min n (Z.to_nat (isize ip - off)))));
    try lia; [|by rewrite Nat.min_l by lia]. by replace (Z.of_nat (Nat.min n (Z.to_nat (isize ip - off)))) with (isize ip - off) by lia.
Qed.

(** A process has entered the kernel. *)
Definition entered (i : nat) (s : kfs) : kfs := forget_trace (set_cur i s).

(** What reads and writes of process [i] do not affect. *)
Class Kept (i : nat) (Q : kfs -> Prop) : Prop := {
  kept_enter s : Q s -> Q (entered i s);
  kept_umem s um : Q s -> Q (set_umem um s);
  kept_off s f x o : Q s -> ftable s !! f = Some x -> Q (set_ftable (<[f := set_off x o]> (ftable s)) s)
}.
#[export] Instance kept_true i : Kept i (fun _ => True).
Proof. by split. Qed.

Section Kernel.
Context (lst lsz dstart : Z).

Lemma fileread_regular dev s f x ip n :
  ftable s !! f = Some x -> f_type x = FD_INODE -> f_readable x = true ->
  open_ino dstart (fs s) (f_ip x) ip -> 0 <= f_off x <= isize ip -> isize ip <= 140 * 512 ->
  (forall o, 0 <= o < isize ip -> sl (fs s) ip (o / 512) <> 0) -> (n <= 1024)%nat ->
  let len := Nat.min n (Z.to_nat (isize ip - f_off x)) in
  fileread dev f (Z.of_nat n) s =
    Ret (Done (Z.of_nat len), contents (fs s) ip (f_off x) len)
      (set_ftable (<[f := set_off x (f_off x + Z.of_nat len)]> (ftable s)) s).
Proof using Type.
  intros Hf Ht Hr Hop Ho Hs Hb Hn len. pose proof (oi_cache _ _ _ _ Hop) as Hi. destruct (ilock_open _ _ _ _ Hop) as [El Hi2].
  set (s2 := with_inode (fs s) (f_ip x) (set_ilocked ip true)) in *.
  assert (Er : readi dev (f_ip x) (f_off x) (Z.of_nat n) s2 = Ret (Some (contents (fs s) ip (f_off x) len)) s2).
  { rewrite (readi_clip dev s2 _ (set_ilocked ip true)); [|exact Hi2|apply (oi_type _ _ _ _ Hop)|done|done|done].
    change (isize (set_ilocked ip true)) with (isize ip). fold len. rewrite (readi_spec dev s2 (f_ip x) (set_ilocked ip true)); try done; try lia.
    - apply (oi_type _ _ _ _ Hop).
    - cbn. lia.
    - intros o Ho'. apply Hb. lia. }
  assert (Eu : iunlock (Some (f_ip x)) s2 = Ret tt (fs s)).
  { rewrite (iunlock_held s2 _ _ Hi2 eq_refl (oi_ref _ _ _ _ Hop)). f_equal. apply lock_unlock; [done|apply (oi_unlocked _ _ _ _ Hop)]. }
  assert (Hlen : length (contents (fs s) ip (f_off x) len) = len) by (unfold contents; by rewrite length_fmap, length_seq).
  unfold fileread. rewrite (bind_Ret _ _ _ _ _ (get_file_Ret _ _ _ Hf)), Hr, Ht. cbn [negb].
  rewrite (bind_Ret _ _ _ _ _ (liftF_Ret _ s _ _ El)), (bind_Ret _ _ _ _ _ (liftF_Ret _ (set_fs s2 s) _ _ Er)), Hlen.
  destruct (Z.ltb_spec 0 (Z.of_nat len)).
  - unfold put_file, modify. unfold bind at 1. erewrite bind_Ret by (apply liftF_Ret; exact Eu). unfold ret. do 2 f_equal. rewrite u32_small by lia.
    by destruct s.
  - unfold ret at 1. unfold bind at 1. erewrite bind_Ret by (apply liftF_Ret; exact Eu). unfold ret. f_equal.
    replace (f_off x + Z.of_nat len) with (f_off x) by lia. rewrite set_off_id, list_insert_id by done. by destruct s.
Qed.

(** ** Writing to the console *)

Record console_ino (s : fstate) (c : nat) (ip : inode) : Prop := {
  ci_cache : icache s !! c = Some ip;
  ci_unlocked : ilocked ip = false;
  ci_valid : ivalid ip = true;
  ci_ref : 1 <= iref ip;
  ci_type : itype ip = T_DEV;
  ci_major : imajor ip = CONSOLE
}.

(** A transaction that writes nothing. *)
Lemma begin_idle d : idle lst lsz d ->
  begin_op_turn d = Ret true (with_log d (mk_log (start (log d)) (size (log d)) 1 false [])).
Proof using Type.
  intros [H1 H2 H3 H4 H5 H6 H7]. unfold begin_op_turn, gets, bind, set_outstanding, modify. rewrite H2, H5, H1. cbn [length].
  unfold LOGSIZE, MAXOPBLOCKS. destruct (Z.ltb_spec (10 * 3) (Z.of_nat 0 + (0 + 1) * 10)); [lia|]. cbn. by rewrite H2, H5.
Qed.
Lemma end_idle d : idle lst lsz d ->
  Log.end_op (with_log d (mk_log (start (log d)) (size (log d)) 1 false [])) = Ret tt d.
Proof using Type.
  intros [H1 H2 H3 H4 H5 H6 H7]. rewrite end_op_commit by done. cbn. destruct d as [dk ca tr [st sz o c bs]]. cbn in *. by subst.
Qed.

Lemma lock_console s c ip : console_ino s c ip ->
  ilock (Some c) s = Ret tt (with_inode s c (set_ilocked ip true)) /\
  iunlock (Some c) (with_inode s c (set_ilocked ip true)) = Ret tt s /\
  icache (with_inode s c (set_ilocked ip true)) !! c = Some (set_ilocked ip true).
Proof using Type.
  intros [Hc Hu Hv Hr _ _]. destruct (ilock_valid s c ip Hc Hu Hv Hr) as [El Hi]. split; [exact El|]. split; [|exact Hi].
  rewrite (iunlock_held _ _ _ Hi eq_refl Hr). f_equal. by apply lock_unlock.
Qed.

Lemma writei_console s c ip src off : console_ino s c ip ->
  writei dev_write c src off (with_inode s c (set_ilocked ip true)) =
    Ret (Some (Z.of_nat (length src))) (with_inode s c (set_ilocked ip true)).
Proof using Type.
  intros Hc. destruct (lock_console s c ip Hc) as (El & Eu & Hi). unfold writei.
  rewrite (bind_Ret _ _ _ _ _ (get_inode_spec _ _ _ Hi)). cbn [set_ilocked itype imajor]. rewrite (ci_type _ _ _ Hc), (ci_major _ _ _ Hc).
  change (T_DEV =? T_DEV) with true. change ((CONSOLE <? 0) || (NDEV <=? CONSOLE)) with false.
  change (dev_write CONSOLE) with (Some (fun (i : nat) (l : list Z) => (do* iunlock (Some i) in do* ilock (Some i) in ret (Some (Z.of_nat (length l)))) : F (option Z))).
  cbn beta iota. rewrite (bind_Ret _ _ _ _ _ Eu), (bind_Ret _ _ _ _ _ El). done.
Qed.

Lemma filewrite_console s g y ip src :
  ftable s !! g = Some y -> f_type y = FD_INODE -> f_writable y = true ->
  idle lst lsz (ds (fs s)) -> console_ino (fs s) (f_ip y) ip -> (0 < length src <= 1024)%nat ->
  filewrite dev_write g src s =
    Ret (Done (Z.of_nat (length src))) (set_ftable (<[g := set_off y (u32 (f_off y + Z.of_nat (length src)))]> (ftable s)) s).
Proof using Type.
  intros Hg Ht Hw Hid Hc Hn. set (n := Z.of_nat (length src)).
  set (d1 := with_log (ds (fs s)) (mk_log (start (log (ds (fs s)))) (size (log (ds (fs s)))) 1 false [])).
  set (f1 := mk_fstate d1 (sb (fs s)) (icache (fs s))).
  assert (Hc1 : console_ino f1 (f_ip y) ip) by (by destruct Hc; split).
  destruct (lock_console f1 _ _ Hc1) as (El & Eu & _).
  assert (Eb : lift begin_op_turn (fs s) = Ret true f1) by (unfold lift; by rewrite (begin_idle _ Hid)).
  assert (Ee : lift Log.end_op f1 = Ret tt (fs s)) by (unfold lift, f1, d1; cbn [ds]; rewrite (end_idle _ Hid); by destruct (fs s)).
  assert (E : filewrite_txn dev_write g src s =
    Ret (Some n) (set_ftable (<[g := set_off y (u32 (f_off y + n))]> (ftable s)) s)).
  { unfold filewrite_txn. rewrite (bind_Ret _ _ _ _ _ (begin_op_Ret s f1 Eb)).
    rewrite (bind_Ret _ _ (set_fs f1 s) _ _ (get_file_Ret (set_fs f1 s) g y Hg)).
    rewrite (bind_Ret _ _ _ _ _ (liftF_Ret _ (set_fs f1 s) _ _ El)).
    rewrite (bind_Ret _ _ _ _ _ (liftF_Ret _ (set_fs _ (set_fs f1 s)) _ _ (writei_console f1 (f_ip y) ip src _ Hc1))).
    fold n. destruct (Z.ltb_spec 0 n); [|lia]. unfold put_file, modify. unfold bind at 1.
    erewrite bind_Ret by (apply liftF_Ret; exact Eu). unfold end_op. erewrite bind_Ret by (apply liftF_Ret; exact Ee). by destruct s. }
  unfold filewrite. rewrite (bind_Ret _ _ _ _ _ (get_file_Ret _ _ _ Hg)), Hw, Ht. cbn [negb].
  destruct src as [|c src]; [cbn in Hn; lia|]. cbn [filewrite_loop]. change MAXWRITE with 1536.
  rewrite Z.min_l by (cbn [length] in *; lia). fold n. rewrite firstn_all2 by (unfold n; lia). rewrite bind_assoc, (bind_Ret _ _ _ _ _ E).
  destruct (Z.ltb_spec n 0); [lia|]. rewrite Z.eqb_refl. cbn [negb].
  rewrite skipn_all2 by (unfold n; lia). by rewrite (bind_Ret _ _ _ _ _ (filewrite_loop_nil dev_write (length (c :: src)) g _ ltac:(cbn; lia))).
Qed.

(** ** The memory a call reads and writes *)

Lemma ustore_lookup l : forall m a b,
  ustore m a l !! b = (if decide (a <= b < a + Z.of_nat (length l)) then l !! Z.to_nat (b - a) else m !! b).
Proof using Type.
  induction l as [|c l IH]; intros m a b; cbn [ustore length]; [by rewrite decide_False by lia|].
  rewrite IH. destruct (decide (b = a)) as [->|Hn].
  - rewrite decide_False, decide_True by lia. by rewrite lookup_insert_eq, Z.sub_diag.
  - rewrite lookup_insert_ne by done. destruct (decide (a + 1 <= b < _)); [rewrite decide_True by lia|by rewrite decide_False by lia].
    by replace (Z.to_nat (b - a)) with (S (Z.to_nat (b - (a + 1)))) by lia.
Qed.

Lemma ubytes_store m l s : ubytes (set_umem (ustore m 0 l) s) 0 (length l) = l.
Proof using Type.
  unfold ubytes, uload. cbn [umem set_umem]. apply list_eq. intros k. rewrite list_lookup_fmap.
  destruct (Nat.lt_ge_cases k (length l)) as [Hk|Hk].
  - rewrite (lookup_seq_lt 0) by done. cbn [fmap option_fmap option_map]. rewrite ustore_lookup, decide_True by lia.
    replace (Z.to_nat (0 + Z.of_nat (0 + k) - 0)) with k by lia. by destruct (proj2 (lookup_lt_is_Some l k) Hk) as [c ->].
  - by rewrite lookup_seq_ge, lookup_ge_None_2 by done.
Qed.

(** ** A process with a file and the console *)

Record stdio (i : nat) (fd : Z) (p : fproc) (f g : nat) (x y : file) (ip cp : inode) (s : kfs) : Prop := {
  sd_proc : fprocs s !! i = Some p;
  sd_alive : fkilled p = false;
  sd_fd : 0 <= fd < NOFILE;
  sd_in : ofile p !! Z.to_nat fd = Some (Some f);
  sd_out : ofile p !! 1%nat = Some (Some g);
  sd_other : f <> g;
  sd_x : ftable s !! f = Some x;
  sd_xtype : f_type x = FD_INODE;
  sd_readable : f_readable x = true;
  sd_y : ftable s !! g = Some y;
  sd_ytype : f_type y = FD_INODE;
  sd_writable : f_writable y = true;
  sd_calm : calm lst lsz dstart (fs s) (f_ip x) ip 0;
  sd_con : console_ino (fs s) (f_ip y) cp;
  sd_off : 0 <= f_off x <= isize ip;
  sd_max : isize ip <= 140 * 512;
  sd_blocks : forall o, 0 <= o < isize ip -> sl (fs s) ip (o / 512) <> 0
}.

(** The file still has [inp] to give from its offset on, and the console shows [out];
    [Q] is what else is known of the kernel. *)
Definition serves (Q : kfs -> Prop) (i : nat) (fd : Z) (m : con) (inp out : list Z) : Prop :=
  Q (kf m) /\ exists p f g x y ip cp, stdio i fd p f g x y ip cp (kf m) /\
    inp = contents (fs (kf m)) ip (f_off x) (Z.to_nat (isize ip - f_off x)) /\ tty m = out.

Lemma entered_stdio i fd p f g x y ip cp s : stdio i fd p f g x y ip cp s -> stdio i fd p f g x y ip cp (entered i s).
Proof using Type.
  intros [H1 H2 H3 H4 H5 H6 H7 H8 H9 H10 H11 H12 [Hid Hfs Hop Hfr] Hc H15 H16 H17].
  split; try done; [|by destruct Hc; split].
  assert (Hh : same_home lst lsz (fs s) (fs (entered i s))) by (by split).
  split; [by destruct Hid; split|by apply (fs_ok_same _ _ _ _ _ Hfs Hh)| |exact Hfr].
  destruct Hop as [Ha Hb Hc' Hd He Hf Hg]. split; try done. exact (ino_ok_same _ _ _ _ _ _ Hfs Hg Hh).
Qed.

Lemma enter_stdio i fd p f g x y ip cp m : stdio i fd p f g x y ip cp (kf m) -> enter i m = Ret false (set_kf (entered i (kf m)) m).
Proof using Type.
  intros H. unfold enter, liftK, modify, myproc, bind. cbn. rewrite (sd_proc _ _ _ _ _ _ _ _ _ _ H). unfold ret.
  by rewrite (sd_alive _ _ _ _ _ _ _ _ _ _ H).
Qed.

Lemma argfd_open l fd i p f s : fprocs s !! i = Some p -> cur s = i -> 0 <= fd < NOFILE -> ofile p !! Z.to_nat fd = Some (Some f) ->
  @argfd (args_of (UInt fd :: l)) 0 s = Ret (Some (Z.to_nat fd, f)) s.
Proof using Type.
  intros Hp Hc Hfd Hf. unfold argfd. change (argint 0) with (Some fd). cbn beta iota.
  rewrite (bind_Ret _ _ s p s) by (unfold myproc; by rewrite Hc, Hp).
  destruct (Z.ltb_spec fd 0); [lia|]. destruct (Z.leb_spec NOFILE fd); [lia|]. cbn [orb]. by rewrite Hf.
Qed.

Lemma buf_arg fd k n : @argptr (args_of [UInt fd; UBuf; UInt k]) 1 n = (if n <? 0 then None else Some 0).
Proof using Type. reflexivity. Qed.

Lemma is_tty_at fd i p f x ip s : fprocs s !! i = Some p -> cur s = i -> 0 <= fd < NOFILE -> ofile p !! Z.to_nat fd = Some (Some f) ->
  ftable s !! f = Some x -> f_type x = FD_INODE -> icache (fs s) !! f_ip x = Some ip ->
  is_tty fd s = (itype ip =? T_DEV) && (imajor ip =? CONSOLE).
Proof using Type.
  intros Hp Hc Hfd Hf Hx Ht Hi. unfold is_tty, file_at. rewrite Hc, Hp.
  destruct (Z.ltb_spec fd 0); [lia|]. destruct (Z.leb_spec NOFILE fd); [lia|]. cbn [orb]. by rewrite Hf, Hx, Ht, Hi.
Qed.

Lemma liftK_Ret {A} (u : U A) m a s : u (kf m) = Ret a s -> liftK u m = Ret a (set_kf s m).
Proof using Type. unfold liftK. by intros ->. Qed.

Lemma kernel_read i fd p f g x y ip cp m n : stdio i fd p f g x y ip cp (kf m) -> (n <= 1024)%nat ->
  let len := Nat.min n (Z.to_nat (isize ip - f_off x)) in
  exists um, kernel i (c_read fd (Z.of_nat n)) m = Ret (Z.of_nat len, contents (fs (kf m)) ip (f_off x) len)
    (set_kf (set_umem um (set_ftable (<[f := set_off x (f_off x + Z.of_nat len)]> (ftable (kf m))) (entered i (kf m)))) m).
Proof using Type.
  intros H0 Hn len. pose proof (entered_stdio _ _ _ _ _ _ _ _ _ _ H0) as H. destruct (ca_ino _ _ _ _ _ _ _ (sd_calm _ _ _ _ _ _ _ _ _ _ H)) as [Hi _ _ _ Hty _ _].
  set (s := entered i (kf m)) in *. set (l := contents (fs (kf m)) ip (f_off x) len).
  assert (Hl : length l = len) by (unfold l, contents; by rewrite length_fmap, length_seq).
  exists (ustore (umem s) 0 l). unfold kernel. rewrite (bind_Ret _ _ _ _ _ (enter_stdio _ _ _ _ _ _ _ _ _ _ H0)).
  cbn [file_call]. fold s. destruct H as [Hp Ha Hfd Hf _ _ Hx Hxt Hr _ _ _ Hca _ Ho Hmax Hbl].
  set (s1 := set_ftable (<[f := set_off x (f_off x + Z.of_nat len)]> (ftable s)) s).
  assert (E : @sys_read (args_of [UInt fd; UBuf; UInt (Z.of_nat n)]) (dev_read (tin m)) s =
      Ret (Done (Z.of_nat len)) (set_umem (ustore (umem s) 0 l) s1)).
  { unfold sys_read. rewrite (bind_Ret _ _ _ _ _ (argfd_open _ fd i p f s Hp eq_refl Hfd Hf)).
    change (argint 2) with (Some (Z.of_nat n)). cbn beta iota. rewrite buf_arg.
    destruct (Z.ltb_spec (Z.of_nat n) 0); [lia|].
    by rewrite (bind_Ret _ _ _ _ _ (fileread_regular _ s f x ip n Hx Hxt Hr (ca_ino _ _ _ _ _ _ _ Hca) Ho Hmax Hbl Hn)). }
  assert (Ed : do_read fd (Z.of_nat n) (set_kf s m) = Ret (Ans (Z.of_nat len, l)) (set_kf (set_umem (ustore (umem s) 0 l) s1) m)).
  { unfold do_read, gets. unfold bind at 1 2. cbn [kf set_kf tin]. rewrite (is_tty_at fd i p f x ip s Hp eq_refl Hfd Hf Hx Hxt Hi).
    rewrite (bind_Ret _ _ _ _ _ (liftK_Ret _ (set_kf s m) _ _ E)).
    destruct (Z.eqb_spec (itype ip) T_DEV); [done|]. cbn [andb]. unfold bind, ret. cbn [kf set_kf]. rewrite Nat2Z.id, <- Hl, ubytes_store. by rewrite Hl. }
  by rewrite (bind_Ret _ _ _ _ _ Ed).
Qed.

Lemma kernel_write i fd p f g x y ip cp m bytes : stdio i fd p f g x y ip cp (kf m) ->
  (0 < length bytes <= 1024)%nat -> Forall is_byte bytes ->
  exists um, kernel i (c_write 1 bytes) m = Ret (Z.of_nat (length bytes))
    (set_tty (tty m ++ bytes) (set_kf (set_ftable (<[g := set_off y (u32 (f_off y + Z.of_nat (length bytes)))]> (ftable (kf m)))
      (set_umem um (entered i (kf m)))) m)).
Proof using Type.
  intros H0 Hn Hb. pose proof (entered_stdio _ _ _ _ _ _ _ _ _ _ H0) as H.
  set (s := entered i (kf m)) in *. set (n := Z.of_nat (length bytes)).
  set (s0 := set_umem (ustore (umem s) 0 bytes) s).
  exists (ustore (umem s) 0 bytes). unfold kernel. rewrite (bind_Ret _ _ _ _ _ (enter_stdio _ _ _ _ _ _ _ _ _ _ H0)).
  cbn [file_call]. fold s. destruct H as [Hp Ha _ _ Hg _ _ _ _ Hy Hyt Hw Hca Hcon _ _ _].
  assert (E : @sys_write (args_of [UInt 1; UBuf; UInt n]) dev_write s0 =
      Ret (Done n) (set_ftable (<[g := set_off y (u32 (f_off y + n))]> (ftable s)) s0)).
  { unfold sys_write. rewrite (bind_Ret _ _ _ _ _ (argfd_open _ 1 i p g s0 Hp eq_refl ltac:(unfold NOFILE; lia) Hg)).
    change (argint 2) with (Some n). cbn beta iota. rewrite buf_arg.
    destruct (Z.ltb_spec n 0); [lia|]. unfold gets. unfold bind at 1. unfold n at 1. rewrite Nat2Z.id. unfold s0 at 1. rewrite ubytes_store.
    exact (filewrite_console s0 g y cp bytes Hy Hyt Hw (ca_idle _ _ _ _ _ _ _ Hca) Hcon Hn). }
  assert (Ed : do_write 1 bytes (set_kf s m) = Ret (Ans n)
      (set_tty (tty m ++ bytes) (set_kf (set_ftable (<[g := set_off y (u32 (f_off y + n))]> (ftable s)) s0) m))).
  { unfold do_write, gets. fold n. unfold bind at 1 2. cbn [kf set_kf].
    rewrite (is_tty_at 1 i p g y cp s Hp eq_refl ltac:(unfold NOFILE; lia) Hg Hy Hyt (ci_cache _ _ _ Hcon)), (ci_type _ _ _ Hcon), (ci_major _ _ _ Hcon).
    rewrite (bind_Ret _ _ (set_kf s m) tt (set_kf s0 m) eq_refl), (bind_Ret _ _ _ _ _ (liftK_Ret _ (set_kf s0 m) _ _ E)).
    rewrite !Z.eqb_refl. destruct (Z.ltb_spec 0 n); [|lia]. cbn [andb]. unfold bind, modify, ret. cbn [tty set_kf]. do 3 f_equal.
    rewrite <- (list_fmap_id bytes) at 2. apply list_fmap_ext. intros k b Hk. pose proof (Forall_lookup_1 _ _ _ _ Hb Hk) as Hbb. unfold is_byte in Hbb.
    change 255 with (Z.ones 8). rewrite Z.land_ones by lia. by apply Z.mod_small. }
  by rewrite (bind_Ret _ _ _ _ _ Ed).
Qed.

Lemma stdio_read i fd p f g x y ip cp s um k : stdio i fd p f g x y ip cp s -> 0 <= k <= isize ip - f_off x ->
  stdio i fd p f g (set_off x (f_off x + k)) y ip cp (set_umem um (set_ftable (<[f := set_off x (f_off x + k)]> (ftable s)) (entered i s))).
Proof using Type.
  intros H Hk. apply entered_stdio in H. destruct H as [H1 H2 H3 H4 H5 H6 H7 H8 H9 H10 H11 H12 H13 H14 H15 H16 H17].
  split; try done; cbn.
  - apply list_lookup_insert_eq. by eapply lookup_lt_Some.
  - by rewrite list_lookup_insert_ne.
  - lia.
Qed.

Lemma stdio_write i fd p f g x y ip cp s um o : stdio i fd p f g x y ip cp s ->
  stdio i fd p f g x (set_off y o) ip cp (set_ftable (<[g := set_off y o]> (ftable s)) (set_umem um (entered i s))).
Proof using Type.
  intros H. apply entered_stdio in H. destruct H as [H1 H2 H3 H4 H5 H6 H7 H8 H9 H10 H11 H12 H13 H14 H15 H16 H17].
  split; try done; cbn.
  - by rewrite list_lookup_insert_ne.
  - apply list_lookup_insert_eq. by eapply lookup_lt_Some.
Qed.

Lemma contents_split s ip off n k : take k (contents s ip off n) = contents s ip off (Nat.min k n) /\
  drop k (contents s ip off n) = contents s ip (off + Z.of_nat (Nat.min k n)) (n - Nat.min k n).
Proof using Type.
  assert (Hl : forall j, length (contents s ip off j) = j) by (intros; unfold contents; by rewrite length_fmap, length_seq).
  destruct (Nat.le_ge_cases k n) as [Hk|Hk].
  - rewrite Nat.min_l by done. rewrite <- (Nat.sub_add k n Hk), (Nat.add_comm (n - k) k), contents_app, Nat.add_comm, Nat.add_sub.
    split; [by rewrite take_app_length'|by rewrite drop_app_length'].
  - rewrite Nat.min_r, Nat.sub_diag by done. split; [apply take_ge|apply drop_ge]; by rewrite Hl.
Qed.

#[export] Instance kernel_regular Q i fd : Kept i Q -> Regular (kernel i) fd (serves Q i fd).
Proof using Type.
  intros HQ. split.
  - intros m inp out n (Hq & p & f & g & x & y & ip & cp & H & -> & Hout) Hn. set (r := Z.to_nat (isize ip - f_off x)).
    destruct (kernel_read i fd p f g x y ip cp m n H Hn) as [um E]. fold r in E. eexists. rewrite (proj1 (contents_split _ _ _ r n)).
    split; [etransitivity; [exact E|]; unfold contents at 2; by rewrite length_fmap, length_seq|].
    rewrite (proj2 (contents_split _ _ _ r n)). pose proof (sd_off _ _ _ _ _ _ _ _ _ _ H) as Ho. split.
    { apply kept_umem, (kept_off (entered i (kf m))); [by apply kept_enter|exact (sd_x _ _ _ _ _ _ _ _ _ _ H)]. }
    eexists p, f, g, _, y, ip, cp. split; [apply stdio_read; [exact H|unfold r; lia]|]. split; [|exact Hout].
    cbn [f_off set_off]. by replace (r - Nat.min n r)%nat with (Z.to_nat (isize ip - (f_off x + Z.of_nat (Nat.min n r)))) by (unfold r; lia).
  - intros m inp out (_ & p & f & g & x & y & ip & cp & H & -> & Hout). apply Forall_fmap, Forall_forall. intros k _.
    cbn beta delta [compose]. unfold content. case_match; [unfold is_byte; lia|]. apply read8_range.
Qed.

#[export] Instance kernel_sink Q i fd : Kept i Q -> Sink (kernel i) (serves Q i fd).
Proof using Type.
  intros HQ. split. intros m inp out bytes (Hq & p & f & g & x & y & ip & cp & H & -> & <-) Hn Hb.
  destruct (kernel_write i fd p f g x y ip cp m bytes H Hn Hb) as [um E]. eexists. split; [exact E|]. split.
  { apply (kept_off (set_umem um (entered i (kf m)))); [by apply kept_umem, kept_enter|exact (sd_y _ _ _ _ _ _ _ _ _ _ H)]. }
  eexists p, f, g, x, _, ip, cp. split; [by apply stdio_write|]. done.
Qed.
End Kernel.

(** ** The programs *)

(** What [wc] prints of a file with these bytes. *)
Definition wc_report (inp name : list Z) : list Z :=
  dec (newlines inp) ++ [32] ++ dec (word_starts inp) ++ [32] ++ dec (Z.of_nat (length inp)) ++ [32] ++ name ++ [NL].

Section Programs.
Context (lst lsz dstart : Z) (Q : kfs -> Prop) (image : list Z -> option (Z * (list (list Z) -> prog unit))) (memory : Z).

(** On the kernel, [cat] of an open file: process [i], which never sleeps, gets
    to the end of the loop, and the console then shows what it showed before
    followed by the bytes of the file from the offset on, which is now the end. *)
Theorem cat_prints_file i `{!Kept i Q} fd fuel (k : unit -> prog unit) m inp out :
  at_prog i (pbind (cat fuel fd) k) m -> serves lst lsz dstart Q i fd (co m) inp out -> (length inp < fuel)%nat ->
  exists m', turns image memory i m m' /\ at_prog i (k tt) m' /\ serves lst lsz dstart Q i fd (co m') [] (out ++ inp).
Proof using Type.
  intros Hp Hs Hf. destruct (cat_spec (kernel i) fd (serves lst lsz dstart Q i fd) fuel _ _ _ Hs Hf) as (c' & E & Hs').
  destruct (interp_turns image memory i _ k m tt c' Hp E) as (m' & Ht & <- & Hp'). by exists m'.
Qed.

Lemma filter_le {A} (f : A -> bool) l : (length (List.filter f l) <= length l)%nat.
Proof using Type. induction l as [|a l IH]; cbn; [done|]. destruct (f a); cbn; lia. Qed.

Lemma serves_size i fd m inp out : serves lst lsz dstart Q i fd m inp out -> Z.of_nat (length inp) <= 71680.
Proof using Type.
  intros (_ & p & f & g & x & y & ip & cp & H & -> & _). unfold contents. rewrite length_fmap, length_seq.
  pose proof (sd_max _ _ _ _ _ _ _ _ _ _ _ _ _ H). pose proof (sd_off _ _ _ _ _ _ _ _ _ _ _ _ _ H). lia.
Qed.

(** [wc] of an open file, one call after the other. *)
Lemma wc_interp i `{!Kept i Q} fd fuel name m inp out :
  serves lst lsz dstart Q i fd m inp out -> (length inp < fuel)%nat -> Forall is_byte name ->
  exists m', interp (kernel i) (wc fuel fd name) m = Ret (Some tt) m' /\
    serves lst lsz dstart Q i fd m' [] (out ++ wc_report inp name).
Proof using Type.
  intros Hs Hf Hn. pose proof (serves_size _ _ _ _ _ Hs) as Hl.
  destruct (wc_loop_spec (kernel i) fd (serves lst lsz dstart Q i fd) fuel _ _ _ (mk_counts 0 0 0 false) Hs Hf) as (c1 & E1 & Hs1).
  destruct (wc_fold inp (mk_counts 0 0 0 false) NL eq_refl) as (H1 & H2 & H3). cbn [lines chars nwords] in *. rewrite Z.add_0_l in *.
  set (x := fold_left wc_char inp _) in *. fold (word_starts inp) in H3.
  assert (Hnl : 0 <= newlines inp <= Z.of_nat (length inp)) by (unfold newlines; pose proof (filter_le (Z.eqb NL) inp); lia).
  assert (Hws : 0 <= word_starts inp <= Z.of_nat (length inp)).
  { unfold word_starts, starts_after. match goal with |- context [List.filter ?f ?l] => pose proof (filter_le f l) as Hle end.
    rewrite length_zip_with in Hle. lia. }
  destruct (wc_text x name ltac:(lia) ltac:(lia) ltac:(lia) Hn) as (t & Et & Hb & Ep). rewrite H1, H2, H3 in Et.
  destruct (puts_out (kernel i) (serves lst lsz dstart Q i fd) t Hb _ _ _ Hs1) as (c2 & E2 & Hs2).
  exists c2. split; [|by rewrite Et in Hs2].
  unfold wc. rewrite (interp_seq _ _ _ _ _ _ E1). cbn beta iota. change (0 <? 0) with false. cbn iota. by rewrite Ep.
Qed.

(** On the kernel, [wc] of an open file prints the number of newlines, of places
    where a word begins and of bytes of the file, and its name. *)
Theorem wc_counts_file i `{!Kept i Q} fd fuel name (k : unit -> prog unit) m inp out :
  at_prog i (pbind (wc fuel fd name) k) m -> serves lst lsz dstart Q i fd (co m) inp out -> (length inp < fuel)%nat ->
  Forall is_byte name ->
  exists m', turns image memory i m m' /\ at_prog i (k tt) m' /\
    serves lst lsz dstart Q i fd (co m') [] (out ++ dec (newlines inp) ++ [32] ++ dec (word_starts inp) ++ [32] ++
      dec (Z.of_nat (length inp)) ++ [32] ++ name ++ [NL]).
Proof using Type.
  intros Hp Hs Hf Hn. destruct (wc_interp i fd fuel name (co m) inp out Hs Hf Hn) as (c' & E & Hs').
  destruct (interp_turns image memory i _ k m tt c' Hp E) as (m' & Ht & <- & Hp'). by exists m'.
Qed.

(** [grep] of an open file, one call after the other. *)
Lemma grep_interp i `{!Kept i Q} fd pattern m ls tail out :
  let text := unlines ls ++ tail in
  serves lst lsz dstart Q i fd m text out ->
  Forall clean ls -> clean tail -> Forall (fun l => length l < 1023)%nat ls ->
  exists m' rest, interp (kernel i) (grep_loop (S (length text)) pattern fd []) m = Ret (Some tt) m' /\
    serves lst lsz dstart Q i fd m' rest (out ++ unlines (List.filter (rmatch pattern) ls)).
Proof using Type.
  intros text Hs Hc Ht Hl.
  assert (Hg : grep read_file (S (length text)) pattern text [] = Some (unlines (List.filter (rmatch pattern) ls)))
    by (apply (grep_spec pattern _ ls tail []); try done; cbn [length]; lia).
  exact (grep_loop_spec (kernel i) fd (serves lst lsz dstart Q i fd) pattern _ [] _ _ _ _ Hs ltac:(cbn; lia) ltac:(constructor) Hg).
Qed.

(** C34. On the kernel, [grep] of an open file without NUL bytes and with lines under
    1023 characters prints exactly the lines that match the pattern, in order. *)
Theorem grep_prints_matches i `{!Kept i Q} fd pattern (k : unit -> prog unit) m ls tail out :
  let text := unlines ls ++ tail in
  at_prog i (pbind (grep_loop (S (length text)) pattern fd []) k) m -> serves lst lsz dstart Q i fd (co m) text out ->
  Forall clean ls -> clean tail -> Forall (fun l => length l < 1023)%nat ls ->
  exists m' rest, turns image memory i m m' /\ at_prog i (k tt) m' /\
    serves lst lsz dstart Q i fd (co m') rest (out ++ unlines (List.filter (rmatch pattern) ls)).
Proof using Type.
  intros text Hp Hs Hc Ht Hl. destruct (grep_interp i fd pattern (co m) ls tail out Hs Hc Ht Hl) as (c' & rest & E & Hs').
  destruct (interp_turns image memory i _ k m tt c' Hp E) as (m' & Htu & <- & Hp'). by exists m', rest.
Qed.
End Programs.

(** ** An instance *)

Definition text_lines : list (list Z) := [str "ab"; str "x ab"; str "aXb"].
Definition text_block : block := foldr (fun kb x => write8 x (Z.of_nat kb.1) kb.2) ∅ (zip (seq 0 12) (unlines text_lines)).
Definition text_disk : gmap Z block := {[ 35 := write8 (write32 ∅ 0 0xffffffff) 4 0x1f; 36 := text_block ]}.
Definition text_inode : inode := mk_inode 1 1 1 false true T_FILE 0 0 1 12 (36 :: replicate 12 0).
Definition tty_inode : inode := mk_inode 1 2 1 false true T_DEV 1 1 1 0 (replicate 13 0).
Definition text_fs : fstate :=
  mk_fstate (mk_dstate text_disk ∅ [] (mk_log 2 30 0 false [])) ex_sb [text_inode; tty_inode].
Definition text_file : file := mk_file FD_INODE 1 true false 0 0 0.
Definition tty_file : file := mk_file FD_INODE 1 true true 0 1 0.
Definition text_proc : fproc := mk_fproc ([None; Some 1%nat; None; Some 0%nat] ++ replicate 12 None) 0 false.
Definition text_kfs : kfs := mk_kfs text_fs [text_file; tty_file] [] 1 [text_proc] 0 ∅.
Definition text_machine (p : prog unit) : machine :=
  mk_machine (mk_con text_kfs (str "$ ") []) [mk_uproc URunnable 1 0 4096 ∅ p] 2.

Lemma text_sl k : 0 <= k <= 140 -> sl text_fs text_inode k = (if k =? 0 then 36 else 0).
Proof.
  intros Hk. assert (H : Forall (fun k => sl text_fs text_inode (Z.of_nat k) = (if Z.of_nat k =? 0 then 36 else 0)) (seq 0 141))
    by (apply (bool_decide_unpack _); vm_compute; done).
  rewrite Forall_forall in H. specialize (H (Z.to_nat k)). rewrite Z2Nat.id in H by lia. apply H, elem_of_seq. lia.
Qed.

Lemma text_calm : calm 2 30 36 text_fs 0 text_inode 0.
Proof.
  split.
  - split; reflexivity.
  - split; [exact (fo_layout _ _ _ _ ex_fs_ok)|].
    intros b Hb. assert (H : Forall (fun k => used text_fs (Z.of_nat k) = true) (seq 0 36))
      by (apply (bool_decide_unpack _); vm_compute; done).
    rewrite Forall_forall in H. specialize (H (Z.to_nat b)). rewrite Z2Nat.id in H by lia. apply H, elem_of_seq. lia.
  - split; [done|done|done|cbn; lia|done|cbn; lia|]. split; [done|..].
    + intros k Hk. rewrite text_sl by done. destruct (k =? 0); [|done]. intros _. split; [cbn; lia|]. vm_compute. reflexivity.
    + intros k k' Hk Hk'. rewrite !text_sl by done. destruct (Z.eqb_spec k 0), (Z.eqb_spec k' 0); intros; try done; lia.
  - exists []. split; [constructor|]. split; [cbn; lia|]. intros b Hb. by apply elem_of_nil in Hb.
Qed.

Lemma text_serves p : serves 2 30 36 (fun _ => True) 0 3 (co (text_machine p)) (unlines text_lines) (str "$ ").
Proof.
  split; [done|]. exists text_proc, 0%nat, 1%nat, text_file, tty_file, text_inode, tty_inode. split; [|split; [vm_compute; reflexivity|reflexivity]].
  split; try reflexivity.
  - by split.
  - discriminate.
  - exact text_calm.
  - by split; try reflexivity.
  - cbn. lia.
  - cbn. lia.
  - cbn [isize text_inode]. intros o Ho. rewrite Z.div_small by lia. by rewrite text_sl by lia.
Qed.

Lemma cat_prints_file_witness : exists m',
  turns (fun _ => None) 100 0 (text_machine (pbind (cat 20 3) (fun _ => exit))) m' /\
  tty (co m') = str "$ " ++ unlines text_lines.
Proof.
  destruct (cat_prints_file 2 30 36 (fun _ => True) (fun _ => None) 100 0 3 20 (fun _ => exit) (text_machine (pbind (cat 20 3) (fun _ => exit))) (unlines text_lines) (str "$ ")) as (m' & Ht & _ & Hs).
  - reflexivity.
  - apply text_serves.
  - vm_compute. lia.
  - exists m'. split; [exact Ht|]. destruct Hs as (_ & ? & ? & ? & ? & ? & ? & ? & _ & _ & H). exact H.
Defined.

Lemma wc_counts_file_witness : exists m',
  turns (fun _ => None) 100 0 (text_machine (pbind (wc 20 3 (str "t")) (fun _ => exit))) m' /\
  tty (co m') = str "$ 3 4 12 t" ++ [NL].
Proof.
  destruct (wc_counts_file 2 30 36 (fun _ => True) (fun _ => None) 100 0 3 20 (str "t") (fun _ => exit) (text_machine (pbind (wc 20 3 (str "t")) (fun _ => exit))) (unlines text_lines) (str "$ ")) as (m' & Ht & _ & Hs).
  - reflexivity.
  - apply text_serves.
  - vm_compute. lia.
  - apply (bool_decide_unpack _). vm_compute. done.
  - exists m'. split; [exact Ht|]. destruct Hs as (_ & ? & ? & ? & ? & ? & ? & ? & _ & _ & H). etransitivity; [exact H|]. vm_compute. reflexivity.
Defined.

Lemma grep_prints_matches_witness : exists m',
  turns (fun _ => None) 100 0 (text_machine (pbind (grep_loop 13 (str "^a.*b") 3 []) (fun _ => exit))) m' /\
  tty (co m') = str "$ ab" ++ [NL] ++ str "aXb" ++ [NL].
Proof.
  destruct (grep_prints_matches 2 30 36 (fun _ => True) (fun _ => None) 100 0 3 (str "^a.*b") (fun _ => exit)
    (text_machine (pbind (grep_loop 13 (str "^a.*b") 3 []) (fun _ => exit))) text_lines [] (str "$ ")) as (m' & rest & Ht & _ & Hs).
  - reflexivity.
  - apply text_serves.
  - unfold clean. repeat constructor; cbn; done || lia.
  - constructor.
  - repeat constructor; cbn; lia.
  - exists m'. split; [exact Ht|]. destruct Hs as (_ & ? & ? & ? & ? & ? & ? & ? & _ & _ & H). etransitivity; [exact H|]. vm_compute. reflexivity.
Defined.
