(* ===== verification/EndToEnd.v ===== *)
(** * From mkfs to the console

    The whole way of a file: [mkfs] puts it into an image, the kernel opens it by
    its name, a user program reads it through the file system calls, and its bytes
    appear on the console.  The theorems here compose those about mkfs.c
    (MkfsImage.v), the file system, the open files and the programs
    (KernelFilter.v). *)
From S2P Require Import Prelude Memory KString Ulib Printf Grep Log LogProof Fs FsProof FsInode FsDir Pipe File FileProof Sysfile SysfileProof.
From S2P Require Import Mkfs MkfsProof MkfsImage User UserProgs Filters Machine KernelFilter.

#[local] Opaque BSIZE BPB.

(** ** Names *)

(** The name that [skipelem] leaves in its buffer is the element, as far as
    [namecmp] looks. *)
Lemma strncmp_cut n : forall e x, strncmp_list n (take n e) x = strncmp_list n e x.
Proof.
  induction n as [|n IH]; intros e x; [done|]. destruct e as [|c e]; [done|]. cbn [take strncmp_list tail].
  change (char_at (c :: take n e) 0) with c. change (char_at (c :: e) 0) with c. case_match; [apply IH|done].
Qed.
Lemma strncmp_nul n : forall e l x, strncmp_list n (e ++ 0 :: l) x = strncmp_list n e x.
Proof.
  induction n as [|n IH]; intros e l x; [done|]. destruct e as [|c e]; [done|]. cbn [app strncmp_list tail].
  change (char_at (c :: e ++ 0 :: l) 0) with c. change (char_at (c :: e) 0) with c. case_match; [apply IH|done].
Qed.

(** A path of one element. *)
Record plain_name (nm : list Z) : Prop := {
  pn_some : nm <> [];
  pn_slash : 47 ∉ nm;
  pn_nul : 0 ∉ nm
}.

Lemma take_elem_plain nm : 47 ∉ nm -> 0 ∉ nm -> take_elem nm = (nm, []).
Proof.
  induction nm as [|c nm IH]; [done|]. intros H1 H2. apply not_elem_of_cons in H1 as [H1 H1'], H2 as [H2 H2']. cbn [take_elem].
  destruct (Z.eqb_spec c 47); [congruence|]. destruct (Z.eqb_spec c 0); [congruence|]. cbn [orb]. by rewrite IH.
Qed.

Lemma skipelem_plain nm buf : plain_name nm ->
  exists nm', skipelem nm buf = Some ([], nm') /\ forall x, namecmp nm' x = namecmp nm x.
Proof.
  intros [H1 H2 H3]. destruct nm as [|c nm]; [done|]. unfold skipelem.
  assert (Hc : c <> 47 /\ c <> 0) by (split; intros ->; [apply H2|apply H3]; apply list_elem_of_here).
  assert (Es : skip_slashes (c :: nm) = c :: nm) by (cbn [skip_slashes]; destruct (Z.eqb_spec c 47); [lia|done]).
  rewrite Es. change (char_at (c :: nm) 0) with c. destruct (Z.eqb_spec c 0); [lia|]. rewrite take_elem_plain by done.
  eexists. split; [reflexivity|]. intros x. case_match; unfold namecmp; [apply strncmp_cut|apply strncmp_nul].
Qed.

(** ** References to inodes *)

(** Dropping a reference that is not the last one to an unlinked file. *)
Lemma iput_drop s j ip : icache s !! j = Some ip -> ilocked ip = false -> inlink ip <> 0 \/ iref ip <> 1 ->
  iput j s = Ret tt (with_inode s j (set_ref ip (iref ip - 1))).
Proof.
  intros Hj Hl Hr. assert (Hlt := lookup_lt_Some _ _ _ Hj). unfold iput, acquire_ilock, release_ilock. rewrite bind_assoc.
  rewrite (bind_Ret _ _ _ _ _ (get_inode_spec _ _ _ Hj)), Hl. set (s1 := with_inode s j (set_ilocked ip true)).
  rewrite (bind_Ret (put_inode j (set_ilocked ip true)) _ s tt s1 eq_refl).
  assert (H1 : icache s1 !! j = Some (set_ilocked ip true)) by (by apply list_lookup_insert_eq).
  rewrite (bind_Ret _ _ _ _ _ (get_inode_spec _ _ _ H1)). cbn [ivalid inlink iref set_ilocked].
  replace (ivalid ip && (inlink ip =? 0) && (iref ip =? 1)) with false
    by (symmetry; destruct (ivalid ip), (Z.eqb_spec (inlink ip) 0), (Z.eqb_spec (iref ip) 1); try done; lia).
  rewrite (bind_Ret (ret tt) _ s1 tt s1 eq_refl), bind_assoc, (bind_Ret _ _ _ _ _ (get_inode_spec _ _ _ H1)).
  set (s2 := with_inode s1 j (set_ilocked (set_ilocked ip true) false)).
  rewrite (bind_Ret (put_inode j (set_ilocked (set_ilocked ip true) false)) _ s1 tt s2 eq_refl).
  assert (H2 : icache s2 !! j = Some (set_ilocked (set_ilocked ip true) false))
    by (apply list_lookup_insert_eq; unfold s1; cbn; by rewrite length_insert).
  rewrite (bind_Ret _ _ _ _ _ (get_inode_spec _ _ _ H2)). unfold put_inode, modify, with_inode. f_equal.
  unfold s2, s1, with_inode. cbn [ds sb icache]. rewrite !list_insert_insert_eq. destruct ip; cbn in *. by subst.
Qed.

(** ** Opening a file of the image *)

(** The files that [mkfs] was given, and the one in question. *)
Section Image.
Context (host : list Z -> option (list (list Z))) (args : list (list Z)) (im : gmap Z block) (fb : Z).
Hypothesis Hm : made host args im fb.
Hypothesis Hlen : (length args <= 198)%nat.
Hypothesis H32 : (2 + Z.of_nat (length args)) mod 32 <> 0.
Context (j : nat) (a : list Z).
Hypothesis Hj : args !! j = Some a.
Hypothesis Hfirst : forall k e, (k < 2 + j)%nat -> entries args !! k = Some e -> namecmp (image_name a) (de_name e) <> 0.
Hypothesis Hplain : plain_name (image_name a).

#[local] Notation n := (2 + Z.of_nat j).

(** The inode cache: the root directory, which is the process's directory, the
    console's inode, and unused entries. *)
Context (tip f : inode) (rest : list inode).
Hypothesis Htip : inum tip = 0 \/ 2 + Z.of_nat (length args) <= inum tip.
Hypothesis Hused : 1 <= iref tip.
Hypothesis Hfree : iref f = 0 /\ ilocked f = false.
Hypothesis Hrest : Forall (fun ip => iref ip = 0) rest.

Definition cache (x : inode) : list inode := node_ip im 1 1 false :: tip :: x :: rest.

(** A state of the file system whose disk is the image, inside a transaction or
    not. *)
Definition on_image (d : dstate) (l : list inode) : fstate := mk_fstate d mk_sb l.
Definition shows (d : dstate) : Prop := forall b, vw (on_image d []) b = vw (kst im) b.

Lemma iget_none l k p : Forall (fun ip => p ip = false) l -> icache_find p l k = None.
Proof using Type. intros H. revert k. induction H as [|ip l H0 H IH]; intros k; cbn [icache_find]; [done|]. by rewrite H0. Qed.

Lemma iget_new d r x : 0 < r -> iget ROOTDEV n (on_image d (node_ip im 1 r x :: tip :: f :: rest)) =
  Ret 2%nat (on_image d (node_ip im 1 r x :: tip :: opened_as n f :: rest)).
Proof using Hj Hlen Htip Hused Hfree Hrest.
  intros Hr. assert (Hlt := lookup_lt_Some _ _ _ Hj). destruct Hfree as [Hf _]. unfold iget, gets, bind.
  cbn [icache on_image]. rewrite iget_none.
  - cbn [icache_find node_ip iref]. destruct (Z.eqb_spec r 0); [lia|]. destruct (Z.eqb_spec (iref tip) 0); [lia|]. by rewrite Hf.
  - repeat (apply Forall_cons; split).
    + cbn [node_ip inum]. destruct (Z.eqb_spec 1 n); [lia|]. apply andb_false_r.
    + destruct (Z.eqb_spec (inum tip) n); [lia|]. apply andb_false_r.
    + by rewrite Hf.
    + eapply Forall_impl; [exact Hrest|]. intros ip E. cbn in E. by rewrite E.
Qed.

(** [namei] of the name, from the root directory. *)
Lemma namei_file dev_read d : shows d -> namei dev_read 0 (image_name a) (on_image d (cache f)) =
  Ret (Some 2%nat) (on_image d (cache (opened_as n f))).
Proof using All.
  intros Hd. pose proof Hplain as [P1 P2 P3]. set (nm := image_name a) in *. unfold namei, namex.
  assert (Hc : (char_at nm 0 =? 47) = false).
  { destruct nm as [|c l]; [done|]. apply Z.eqb_neq. intros E. cbn in E. apply P2. rewrite <- E. apply list_elem_of_here. }
  rewrite Hc. set (s1 := on_image d (node_ip im 1 2 false :: tip :: f :: rest)).
  rewrite bind_assoc, (bind_Ret (idup 0) _ (on_image d (cache f)) 0%nat s1 eq_refl). cbn [namex_loop].
  destruct (skipelem_plain nm (replicate (Z.to_nat DIRSIZ) 0) Hplain) as (nm' & -> & Hnm).
  destruct (ilock_valid s1 0 (node_ip im 1 2 false) eq_refl eq_refl eq_refl ltac:(cbn; lia)) as [El Hi].
  set (s2 := with_inode s1 0 (set_ilocked (node_ip im 1 2 false) true)) in *.
  rewrite bind_assoc, (bind_Ret _ _ _ _ _ El), bind_assoc, (bind_Ret _ _ _ _ _ (get_inode_spec _ _ _ Hi)). cbn [itype set_ilocked node_ip].
  rewrite (proj1 (md_root _ _ _ _ Hm)). change (negb (T_DIR =? T_DIR)) with false. cbn [andb].
  rewrite bind_assoc.
  assert (Ef : dirlookup dev_read 0 nm' s2 = Ret (Some (2%nat, 16 * Z.of_nat (2 + j)))
      (on_image d (node_ip im 1 2 true :: tip :: opened_as n f :: rest))).
  { rewrite (root_find host args im fb dev_read s2 0 2 true j a nm' Hm Hlen H32 Hj Hfirst Hnm Hd eq_refl).
    by rewrite (bind_Ret _ _ _ _ _ (iget_new d 2 true ltac:(lia))). }
  rewrite (bind_Ret _ _ _ _ _ Ef), bind_assoc. set (s3 := on_image d (node_ip im 1 2 false :: tip :: opened_as n f :: rest)).
  unfold iunlockput. rewrite bind_assoc.
  rewrite (bind_Ret _ _ _ tt s3) by (rewrite (iunlock_held (on_image d (node_ip im 1 2 true :: tip :: opened_as n f :: rest)) 0 (node_ip im 1 2 true) eq_refl eq_refl ltac:(cbn; lia)); done).
  rewrite (bind_Ret _ _ _ _ _ (iput_drop s3 0 (node_ip im 1 2 false) eq_refl eq_refl (or_intror (ltac:(cbn; lia) : iref (node_ip im 1 2 false) <> 1)))).
  destruct nm as [|c l]; [done|]. reflexivity.
Qed.

(** The disk between transactions and inside one that has written nothing. *)
Definition quiet : dstate := ds (kst im).
Definition busy : dstate := with_log quiet (mk_log 2 nlog 1 false []).

Lemma quiet_idle : idle 2 nlog quiet.
Proof using Hm. split; try reflexivity. cbn [quiet kst ds disk]. rewrite (md_log _ _ _ _ Hm). reflexivity. Qed.
Lemma begin_image l : lift begin_op_turn (on_image quiet l) = Ret true (on_image busy l).
Proof using Hm. unfold lift. cbn [ds on_image]. by rewrite (begin_idle _ _ _ quiet_idle). Qed.
Lemma end_image l : lift Log.end_op (on_image busy l) = Ret tt (on_image quiet l).
Proof using Hm. unfold lift. cbn [ds on_image]. change busy with (with_log quiet (mk_log (start (log quiet)) (size (log quiet)) 1 false [])).
  by rewrite (end_idle _ _ _ quiet_idle). Qed.

(** The inode of the file, with [r] references. *)
Definition file_node (r : Z) (lk : bool) : inode := node_ip im n r lk.

Lemma ilock_file : ilock (Some 2%nat) (on_image busy (cache (opened_as n f))) = Ret tt (on_image busy (cache (file_node 1 true))).
Proof using Hm Hj Hfree.
  destruct Hfree as [_ Hl]. pose proof (md_files _ _ _ _ Hm j a Hj) as Hn.
  set (s := on_image busy (cache (opened_as n f))).
  assert (Hx : vw s (IBLOCK n (sb s)) = disk_at im (iblk n)) by exact (vw_kst im _).
  pose proof (ilock_loads s 2 (opened_as n f) eq_refl (Z.le_refl 1) Hl eq_refl) as E. cbn zeta in E.
  change (inum (opened_as n f)) with n in E. rewrite Hx in E. unfold s in E |- *. rewrite E.
  - done.
  - change (d_type (dnode im n) <> 0). by rewrite (nd_type _ _ _ _ _ Hn).
Qed.

Lemma iunlock_file d : iunlock (Some 2%nat) (on_image d (cache (file_node 1 true))) = Ret tt (on_image d (cache (file_node 1 false))).
Proof using Type. by rewrite (iunlock_held (on_image d (cache (file_node 1 true))) 2 (file_node 1 true) eq_refl eq_refl (Z.le_refl 1)). Qed.

Lemma iput_file d : iput 2 (on_image d (cache (file_node 1 false))) = Ret tt (on_image d (cache (file_node 0 false))).
Proof using Hm Hj.
  pose proof (nd_nlink _ _ _ _ _ (md_files _ _ _ _ Hm j a Hj)) as Hn.
  rewrite (iput_drop (on_image d (cache (file_node 1 false))) 2 (file_node 1 false) eq_refl eq_refl); [done|].
  left. cbn [file_node node_ip inlink]. by rewrite Hn.
Qed.

(** ** The system calls *)

(** Process [i] has the root as its directory, [nfd] as its first free descriptor,
    the console as its standard output; [fl] is the first free file. *)
Record ready (i : nat) (p : fproc) (nfd fl g : nat) (x y : file) (s : kfs) : Prop := {
  rd_fs : fs s = on_image quiet (cache f);
  rd_proc : fprocs s !! i = Some p;
  rd_alive : fkilled p = false;
  rd_cwd : cwd p = 0%nat;
  rd_ofile : length (ofile p) = Z.to_nat NOFILE;
  rd_fd : free_fd (ofile p) 0 = Some nfd;
  rd_file : free_file (ftable s) 0 = Some fl;
  rd_x : ftable s !! fl = Some x;
  rd_out : ofile p !! 1%nat = Some (Some g);
  rd_y : ftable s !! g = Some y;
  rd_yref : f_ref y <> 0;
  rd_ytype : f_type y = FD_INODE;
  rd_writable : f_writable y = true;
  rd_tty : f_ip y = 1%nat
}.

Definition new_file (x : file) (off : Z) : file := mk_file FD_INODE 1 true false (f_pipe x) 2 off.
Definition new_proc (p : fproc) (nfd fl : nat) : fproc := mk_fproc (<[nfd := Some fl]> (ofile p)) 0 false.

(** After [open]. *)
Definition opened (i : nat) (p : fproc) (nfd fl : nat) (x : file) (s : kfs) : kfs :=
  mk_kfs (on_image quiet (cache (file_node 1 false))) (<[fl := new_file x 0]> (ftable s)) (pipes s) (pages s)
    (<[i := new_proc p nfd fl]> (fprocs s)) i (umem s).

Lemma entered_fs i s l : fs s = on_image quiet l -> fs (entered i s) = on_image quiet l.
Proof using Type. unfold entered, forget_trace. cbn [fs set_cur set_fs]. by intros ->. Qed.

Lemma sys_open_file dev_read dev_write i p nfd fl g x y s : ready i p nfd fl g x y s -> cur s = i ->
  @sys_open (args_of [UStr (image_name a); UInt 0]) dev_read dev_write s = Ret (Done (Z.of_nat nfd)) (opened i p nfd fl x s).
Proof using All.
  intros H Hc. pose proof (rd_fs _ _ _ _ _ _ _ _ H) as Hfs. destruct s as [fs0 ft pi pg fp cu um]. cbn [fs cur] in Hfs, Hc. subst fs0 cu.
  destruct H as [_ Hp Ha Hw Hlo Hfd Hfl Hx _ _ _ _ _ _]. cbn [fprocs ftable] in *.
  set (K := fun d l ft fp => mk_kfs (on_image d l) ft pi pg fp i um).
  change (mk_kfs _ ft _ _ fp _ _) with (K quiet (cache f) ft fp) at 1.
  unfold sys_open. change (argstr 0) with (Some (image_name a)). change (argint 1) with (Some 0). cbn beta iota.
  rewrite (bind_Ret begin_op _ _ tt (K busy (cache f) ft fp)) by (apply begin_op_Ret, begin_image).
  assert (Eo : open_inode dev_read dev_write (image_name a) 0 (K busy (cache f) ft fp) = Ret (Some 2%nat) (K busy (cache (file_node 1 true)) ft fp)).
  { unfold open_inode. change (negb (Z.land 0 O_CREATE =? 0)) with false. cbn iota.
    rewrite (bind_Ret my_cwd _ _ 0%nat (K busy (cache f) ft fp)) by (unfold my_cwd, myproc, bind; cbn [cur fprocs K]; by rewrite Hp, Hw).
    rewrite (bind_Ret _ _ _ (Some 2%nat) (K busy (cache (opened_as n f)) ft fp)) by (apply liftF_Ret, namei_file; done).
    cbn beta iota. rewrite (bind_Ret _ _ _ tt (K busy (cache (file_node 1 true)) ft fp)) by (apply liftF_Ret, ilock_file).
    rewrite (bind_Ret _ _ _ (file_node 1 true) (K busy (cache (file_node 1 true)) ft fp)) by (by apply liftF_Ret).
    cbn [file_node node_ip itype]. change (negb (0 =? O_RDONLY)) with false. by rewrite andb_false_r. }
  rewrite (bind_Ret _ _ _ _ _ Eo). clear Eo. cbn beta iota.
  set (ft1 := <[fl := set_fref x 1]> ft). assert (Hlt := lookup_lt_Some _ _ _ Hx).
  rewrite (bind_Ret filealloc _ _ (Some fl) (K busy (cache (file_node 1 true)) ft1 fp))
    by (unfold filealloc, gets, bind; cbn [ftable K]; by rewrite Hfl, (get_file_Ret (K _ _ ft fp) fl x Hx)).
  cbn beta iota. set (fp1 := <[i := new_proc p nfd fl]> fp).
  rewrite (bind_Ret (fdalloc fl) _ _ (Some nfd) (K busy (cache (file_node 1 true)) ft1 fp1))
    by (unfold fdalloc, set_ofile, put_proc, myproc, bind, modify; cbn [cur fprocs K]; rewrite Hp, Hfd; cbn [cur fprocs K]; rewrite Hp, Hw, Ha; done).
  cbn beta iota. rewrite (bind_Ret _ _ _ tt (K busy (cache (file_node 1 false)) ft1 fp1)) by (apply liftF_Ret, iunlock_file).
  rewrite (bind_Ret end_op _ _ tt (K quiet (cache (file_node 1 false)) ft1 fp1)) by (apply liftF_Ret, end_image).
  rewrite (bind_Ret (get_file fl) _ _ (set_fref x 1) (K quiet (cache (file_node 1 false)) ft1 fp1))
    by (apply get_file_Ret; by apply list_lookup_insert_eq).
  unfold put_file, modify, bind, ret. cbn [ftable K set_ftable]. unfold ft1. by rewrite list_insert_insert_eq.
Qed.

(** After [close]: the file is free, and so is the inode. *)
Lemma sys_close_file i p nfd fl x s off : fs s = on_image quiet (cache (file_node 1 false)) -> cur s = i ->
  fprocs s !! i = Some (new_proc p nfd fl) -> (nfd < length (ofile p))%nat -> length (ofile p) = Z.to_nat NOFILE ->
  ftable s !! fl = Some (new_file x off) ->
  @sys_close (args_of [UInt (Z.of_nat nfd)]) s = Ret (Done 0)
    (mk_kfs (on_image quiet (cache (file_node 0 false))) (<[fl := set_none (new_file x off)]> (ftable s)) (pipes s) (pages s)
      (<[i := mk_fproc (<[nfd := None]> (ofile p)) 0 false]> (fprocs s)) i (umem s)).
Proof using Hm Hj.
  intros Hfs Hc Hp Hlt Hlen' Hx. destruct s as [fs0 ft pi pg fp cu um]. cbn [fs cur fprocs ftable pipes pages umem] in *. subst fs0 cu.
  set (K := fun d l ft fp => mk_kfs (on_image d l) ft pi pg fp i um).
  change (mk_kfs (on_image quiet (cache (file_node 1 false))) ft pi pg fp i um) with (K quiet (cache (file_node 1 false)) ft fp).
  unfold sys_close. rewrite (bind_Ret _ _ _ (Some (nfd, fl)) (K quiet (cache (file_node 1 false)) ft fp)).
  2:{ rewrite (argfd_open _ (Z.of_nat nfd) i (new_proc p nfd fl) fl); [by rewrite Nat2Z.id|done|done| |].
      - rewrite Hlen' in Hlt. unfold NOFILE in *. split; [apply Nat2Z.is_nonneg|]. apply Nat2Z.inj_lt in Hlt. exact Hlt.
      - rewrite Nat2Z.id. by apply list_lookup_insert_eq. }
  cbn beta iota. set (fp1 := <[i := mk_fproc (<[nfd := None]> (ofile p)) 0 false]> fp).
  rewrite (bind_Ret (set_ofile nfd None) _ _ tt (K quiet (cache (file_node 1 false)) ft fp1)).
  2:{ unfold set_ofile, put_proc, myproc, bind, modify. cbn [cur fprocs K]. rewrite Hp. cbn [new_proc ofile cwd fkilled]. by rewrite list_insert_insert_eq. }
  rewrite (bind_Ret (fileclose fl) _ _ tt (K quiet (cache (file_node 0 false)) (<[fl := set_none (new_file x off)]> ft) fp1)); [done|].
  unfold fileclose. rewrite (bind_Ret _ _ _ _ _ (get_file_Ret (K quiet (cache (file_node 1 false)) ft fp1) fl (new_file x off) Hx)).
  change (f_ref (new_file x off) <? 1) with false. change (0 <? f_ref (new_file x off) - 1) with false. cbn iota.
  rewrite (bind_Ret (put_file fl (set_none (new_file x off))) _ (K quiet (cache (file_node 1 false)) ft fp1) tt (K quiet (cache (file_node 1 false)) (<[fl := set_none (new_file x off)]> ft) fp1) eq_refl).
  cbn [f_type new_file]. set (ft1 := <[fl := _]> ft).
  rewrite (bind_Ret begin_op _ _ tt (K busy (cache (file_node 1 false)) ft1 fp1)) by (apply begin_op_Ret, begin_image).
  rewrite (bind_Ret _ _ _ tt (K busy (cache (file_node 0 false)) ft1 fp1)) by (apply liftF_Ret, iput_file).
  unfold end_op. exact (liftF_Ret _ (K busy (cache (file_node 0 false)) ft1 fp1) _ _ (end_image _)).
Qed.

(** ** Reading the open file *)

Hypothesis Hcon : ilocked tip = false /\ ivalid tip = true /\ itype tip = T_DEV /\ imajor tip = CONSOLE.

Lemma calm_file : calm 2 nlog 59 (on_image quiet (cache (file_node 1 false))) 2 (file_node 1 false) 0.
Proof using Hm Hlen Hj.
  pose proof (md_files _ _ _ _ Hm j a Hj) as Hn. assert (Hlt := lookup_lt_Some _ _ _ Hj). split.
  - exact quiet_idle.
  - destruct (fs_ok_made _ _ _ _ Hm) as [F1 F2]. split; [exact F1|exact F2].
  - destruct (ino_ok_made _ _ _ _ _ n _ Hm (nd_file _ _ _ _ _ Hn)) as [I1 I2 I3].
    split; [done|done|done|done| | |split; [exact I1|exact I2|exact I3]].
    + cbn [file_node node_ip itype]. by rewrite (nd_type _ _ _ _ _ Hn).
    + change (0 <= n < 200). lia.
  - exists []. split; [constructor|]. split; [cbn; lia|]. intros b Hb. by apply elem_of_nil in Hb.
Qed.

Lemma file_bytes : contents (on_image quiet (cache (file_node 1 false))) (file_node 1 false) 0 (length (data host a)) = data host a.
Proof using Hm Hj.
  pose proof (md_files _ _ _ _ Hm j a Hj) as Hn. pose proof (nd_max _ _ _ _ _ Hn) as Hmax. apply contents_eq. intros k Hk.
  etransitivity; [exact (nd_bytes _ _ _ _ _ Hn (0 + Z.of_nat k) ltac:(clear - Hk Hmax; lia))|]. by rewrite Z.add_0_l, Nat2Z.id.
Qed.

Lemma opened_stdio i p nfd fl g x y s : ready i p nfd fl g x y s ->
  stdio 2 nlog 59 i (Z.of_nat nfd) (new_proc p nfd fl) fl g (new_file x 0) y (file_node 1 false) tip (opened i p nfd fl x s).
Proof using Hm Hlen H32 Hj Hused Hcon.
  intros [_ Hp _ _ Hlo Hfd Hfl Hx Hout Hy Hyr Hyt Hw Ht]. pose proof (md_files _ _ _ _ Hm j a Hj) as Hn. pose proof (nd_max _ _ _ _ _ Hn) as Hmax.
  destruct (free_fd_spec _ _ _ Hfd) as (k & -> & Hn0 & _). assert (Hnl := lookup_lt_Some _ _ _ Hn0).
  destruct (free_file_spec _ _ _ Hfl) as (k' & x' & -> & Hx' & Hr). cbn [Nat.add] in *.
  assert (Hfg : k' <> g) by (intros ->; congruence). assert (Hsz := nd_size _ _ _ _ _ Hn).
  split; try done.
  - apply list_lookup_insert_eq. by eapply lookup_lt_Some.
  - unfold NOFILE in *. lia.
  - rewrite Nat2Z.id. by apply list_lookup_insert_eq.
  - cbn [new_proc ofile]. rewrite list_lookup_insert_ne; [done|]. intros ->. congruence.
  - apply list_lookup_insert_eq. by eapply lookup_lt_Some.
  - cbn [opened ftable]. by rewrite list_lookup_insert_ne.
  - exact calm_file.
  - rewrite Ht. destruct Hcon as (C1 & C2 & C3 & C4). by split.
  - cbn [new_file f_off file_node node_ip isize]. rewrite Hsz. lia.
  - cbn [file_node node_ip isize]. rewrite Hsz. lia.
  - cbn [file_node node_ip isize]. rewrite Hsz. intros o Ho. apply (fk_held _ _ _ _ (nd_file _ _ _ _ _ Hn)); [Z.div_mod_to_equations; lia|].
    unfold held, nblk. rewrite decide_False by (Z.div_mod_to_equations; lia). Z.div_mod_to_equations. lia.
Qed.

(** What stays while the file is read and the console written to. *)
Definition during (P : list fproc) (fl g : nat) (x y : file) (s : kfs) : Prop :=
  fs s = on_image quiet (cache (file_node 1 false)) /\ fprocs s = P /\
  (exists o, ftable s !! fl = Some (set_off (new_file x 0) o)) /\ exists o, ftable s !! g = Some (set_off y o).

Lemma insert_off (l : list file) f1 f2 x1 x2 o : (exists o, l !! f1 = Some (set_off x1 o)) -> l !! f2 = Some x2 ->
  exists o', <[f2 := set_off x2 o]> l !! f1 = Some (set_off x1 o').
Proof using Type.
  intros [o1 H1] H2. destruct (decide (f2 = f1)) as [->|]; [|rewrite list_lookup_insert_ne by done; eauto].
  rewrite list_lookup_insert_eq by (by eapply lookup_lt_Some). rewrite H1 in H2. injection H2 as <-. by exists o.
Qed.

#[local] Instance during_kept i P fl g x y : Kept i (during P fl g x y).
Proof using Type.
  split.
  - intros s (H1 & H2 & H3). split; [by apply entered_fs|done].
  - done.
  - intros s f' x' o (H1 & H2 & H3 & H4) Hf'. split; [done|]. split; [done|]. by split; apply insert_off.
Qed.

Lemma enter_alive i p m : fprocs (kf m) !! i = Some p -> fkilled p = false -> enter i m = Ret false (set_kf (entered i (kf m)) m).
Proof using Type. intros Hp Ha. unfold enter, liftK, modify, myproc, bind. cbn. rewrite Hp. unfold ret. by rewrite Ha. Qed.

Lemma kernel_open i p nfd fl g x y m : ready i p nfd fl g x y (kf m) ->
  kernel i (c_open (image_name a) 0) m = Ret (Z.of_nat nfd) (set_kf (opened i p nfd fl x (kf m)) m).
Proof using All.
  intros H. unfold kernel. rewrite (bind_Ret _ _ _ _ _ (enter_alive i p m (rd_proc _ _ _ _ _ _ _ _ H) (rd_alive _ _ _ _ _ _ _ _ H))).
  assert (H' : ready i p nfd fl g x y (entered i (kf m))) by (destruct H; split; try done; by apply entered_fs).
  cbn [file_call]. unfold simple. rewrite bind_assoc.
  rewrite (bind_Ret _ _ (set_kf (entered i (kf m)) m) _ _ (liftK_Ret _ (set_kf (entered i (kf m)) m) _ _ (sys_open_file (dev_read []) dev_write i p nfd fl g x y _ H' eq_refl))).
  done.
Qed.

End Image.
#[export] Existing Instance during_kept.

Lemma free_file_some l x : forall k, x ∈ l -> f_ref x = 0 -> exists r, free_file l k = Some r.
Proof.
  intros k Hx Hr. revert k. induction l as [|v l IH]; intros k; [by apply elem_of_nil in Hx|]. cbn [free_file].
  destruct (Z.eqb_spec (f_ref v) 0); [eauto|]. apply elem_of_cons in Hx as [->|Hx]; [done|by apply IH].
Qed.

Lemma set_none_free fl x l : l !! fl = Some x -> exists fl' x', free_file (<[fl := set_none x]> l) 0 = Some fl' /\ <[fl := set_none x]> l !! fl' = Some x'.
Proof.
  intros Hx. destruct (free_file_some (<[fl := set_none x]> l) (set_none x) 0) as [r E]; [|done|].
  - apply (list_elem_of_lookup_2 _ fl), list_lookup_insert_eq. by eapply lookup_lt_Some.
  - destruct (free_file_spec _ _ _ E) as (k & x' & Er & Hx' & _). cbn [Nat.add] in Er. subst r. eauto.
Qed.

(** ** Files on the command line of a program *)

Section Machine.
Context (host : list Z -> option (list (list Z))) (args : list (list Z)) (im : gmap Z block) (fb : Z).
Hypothesis Hm : made host args im fb.
Hypothesis Hlen : (length args <= 198)%nat.
Hypothesis H32 : (2 + Z.of_nat (length args)) mod 32 <> 0.

(** A file that [mkfs] was given and that its name finds. *)
Definition findable (a : list Z) : Prop :=
  plain_name (image_name a) /\
  exists j, args !! j = Some a /\
    forall k e, (k < 2 + j)%nat -> entries args !! k = Some e -> namecmp (image_name a) (de_name e) <> 0.

(** Process [i] in the root directory of the image, with the console as its
    standard output and room for one more open file: the inode cache holds the
    root, the console's inode and an entry to spare. *)
Definition at_root (i : nat) (s : kfs) : Prop :=
  exists tip f rest p nfd fl g x y,
    (inum tip = 0 \/ 2 + Z.of_nat (length args) <= inum tip) /\ 1 <= iref tip /\
    (ilocked tip = false /\ ivalid tip = true /\ itype tip = T_DEV /\ imajor tip = CONSOLE) /\
    (iref f = 0 /\ ilocked f = false) /\ Forall (fun ip => iref ip = 0) rest /\
    ready im tip f rest i p nfd fl g x y s.

(** A program that opens a file, works on it and closes it. *)
Definition on_file (work : list Z -> Z -> prog unit) (fail : list Z -> prog bool) (nm : list Z) : prog bool :=
  pbind (sys (c_open nm 0)) (fun fd => if fd <? 0 then fail nm
    else pbind (work nm fd) (fun _ => pbind (sys (c_close fd)) (fun _ => Pure true))).

Context (i : nat) (work : list Z -> Z -> prog unit) (fail : list Z -> prog bool) (text : list Z -> list Z).

(** What the work on an open file prints. *)
Definition prints (a : list Z) : Prop := forall Q fd m out, Kept i Q -> serves 2 nlog 59 Q i fd m (data host a) out ->
  exists m' rst, interp (kernel i) (work (image_name a) fd) m = Ret (Some tt) m' /\ serves 2 nlog 59 Q i fd m' rst (out ++ text a).

(** Closing the file leaves the process as it was. *)
Lemma kernel_close a j tip f rest p nfd fl g x y s0 rst out m : args !! j = Some a ->
  (inum tip = 0 \/ 2 + Z.of_nat (length args) <= inum tip) -> 1 <= iref tip ->
  (ilocked tip = false /\ ivalid tip = true /\ itype tip = T_DEV /\ imajor tip = CONSOLE) ->
  Forall (fun ip => iref ip = 0) rest -> ready im tip f rest i p nfd fl g x y s0 ->
  serves 2 nlog 59 (during im j tip rest (<[i := new_proc p nfd fl]> (fprocs s0)) fl g x y) i (Z.of_nat nfd) m rst out ->
  exists m', kernel i (c_close (Z.of_nat nfd)) m = Ret 0 m' /\ at_root i (kf m') /\ tty m' = out /\ fprocs (kf m') = fprocs s0.
Proof using Hm.
  intros Hj Ht Hu Hc Hr H ((Hfs & HP & [off Hx] & [o' Hy]) & _ & _ & _ & _ & _ & _ & _ & _ & _ & Ho).
  destruct (free_fd_spec _ _ _ (rd_fd _ _ _ _ _ _ _ _ _ _ _ _ H)) as (k & -> & Hn0 & _). cbn [Nat.add] in *.
  assert (Hlt := lookup_lt_Some _ _ _ (rd_proc _ _ _ _ _ _ _ _ _ _ _ _ H)).
  assert (Hip : fprocs (kf m) !! i = Some (new_proc p k fl)) by (rewrite HP; by apply list_lookup_insert_eq).
  pose proof (sys_close_file host args im fb Hm j a Hj tip rest i p k fl x (entered i (kf m)) off (entered_fs im i _ _ Hfs) eq_refl Hip
    (lookup_lt_Some _ _ _ Hn0) (rd_ofile _ _ _ _ _ _ _ _ _ _ _ _ H) Hx) as Ec.
  set (s' := mk_kfs _ _ _ _ _ _ _) in Ec. exists (set_kf s' m).
  assert (HP' : fprocs s' = fprocs s0).
  { unfold s'. cbn [fprocs]. change (fprocs (entered i (kf m))) with (fprocs (kf m)). rewrite HP, list_insert_insert_eq, list_insert_id; [done|].
    rewrite (rd_proc _ _ _ _ _ _ _ _ _ _ _ _ H). f_equal.
    rewrite (list_insert_id _ _ _ Hn0), <- (rd_cwd _ _ _ _ _ _ _ _ _ _ _ _ H), <- (rd_alive _ _ _ _ _ _ _ _ _ _ _ _ H). by destruct p. }
  split; [|split; [|by split]].
  - unfold kernel. rewrite (bind_Ret _ _ _ _ _ (enter_alive i _ m Hip eq_refl)). cbn [file_call]. unfold simple. rewrite bind_assoc.
    rewrite (bind_Ret _ _ (set_kf (entered i (kf m)) m) _ _ (liftK_Ret _ (set_kf (entered i (kf m)) m) _ _ Ec)). reflexivity.
  - destruct (set_none_free _ _ _ Hx) as (fl' & x' & Hfl' & Hx'). destruct H as [_ H1 H2 H3 H4 H5 _ H6 H7 H8 H9 H10 H11 H12].
    exists tip, (file_node im j 0 false), rest, p, k, fl', g, x', (set_off y o'). do 5 (split; [done|]).
    split; try done.
    + cbn [kf set_kf]. by rewrite HP'.
    + cbn. rewrite list_lookup_insert_ne; [exact Hy|]. intros ->. rewrite Hy in Hx. injection Hx as Hx. destruct y; cbn in *; congruence.
Qed.

Lemma file_printed a m : findable a -> prints a -> at_root i (kf m) ->
  exists m', interp (kernel i) (on_file work fail (image_name a)) m = Ret (Some true) m' /\ at_root i (kf m') /\
    tty m' = tty m ++ text a /\ fprocs (kf m') = fprocs (kf m).
Proof using Hm Hlen H32.
  intros (Hpl & j & Hj & Hfirst) Hw (tip & f & rest & p & nfd & fl & g & x & y & Ht & Hu & Hc & Hf & Hr & H).
  pose proof (kernel_open host args im fb Hm Hlen H32 j a Hj Hfirst Hpl tip f rest Ht Hu Hf Hr Hc i p nfd fl g x y m H) as Eo.
  pose proof (opened_stdio host args im fb Hm Hlen H32 j a Hj tip f rest Hu Hc i p nfd fl g x y (kf m) H) as Hsd.
  set (m1 := set_kf (opened im j tip rest i p nfd fl x (kf m)) m) in *.
  assert (Hs : serves 2 nlog 59 (during im j tip rest (<[i := new_proc p nfd fl]> (fprocs (kf m))) fl g x y) i (Z.of_nat nfd) m1 (data host a) (tty m)).
  { split.
    - split; [done|]. split; [done|]. split; [exists 0; exact (sd_x _ _ _ _ _ _ _ _ _ _ _ _ _ Hsd)|].
      exists (f_off y). rewrite set_off_id. exact (sd_y _ _ _ _ _ _ _ _ _ _ _ _ _ Hsd).
    - eexists _, _, _, _, _, _, _. split; [exact Hsd|]. split; [|done]. cbn [file_node node_ip isize new_file f_off].
      rewrite (nd_size _ _ _ _ _ (md_files _ _ _ _ Hm j a Hj)), Z.sub_0_r, Nat2Z.id. symmetry. exact (file_bytes host args im fb Hm j a Hj tip rest). }
  destruct (Hw _ _ _ _ _ Hs) as (m2 & rst & Ew & Hs2).
  destruct (kernel_close a j tip f rest p nfd fl g x y (kf m) rst _ m2 Hj Ht Hu Hc Hr H Hs2) as (m3 & Ecl & Hat & Htty & HP).
  exists m3. split; [|done]. unfold on_file. cbn [sys pbind interp]. rewrite (bind_Ret _ _ _ _ _ Eo).
  destruct (Z.ltb_spec (Z.of_nat nfd) 0); [lia|]. rewrite (interp_seq _ _ _ _ _ _ Ew). cbn [sys pbind interp].
  by rewrite (bind_Ret _ _ _ _ _ Ecl).
Qed.

Lemma files_printed l : forall m, Forall findable l -> Forall prints l -> at_root i (kf m) ->
  exists m', interp (kernel i) (each (image_name <$> l) (on_file work fail)) m = Ret (Some tt) m' /\ at_root i (kf m') /\
    tty m' = tty m ++ concat (text <$> l) /\ fprocs (kf m') = fprocs (kf m).
Proof using Hm Hlen H32.
  induction l as [|a l IH]; intros m Hf Hp Ha; [by exists m; rewrite app_nil_r|].
  apply Forall_cons in Hf as [Hf1 Hf], Hp as [Hp1 Hp]. destruct (file_printed a m Hf1 Hp1 Ha) as (m1 & E1 & Ha1 & Ht1 & HP1).
  destruct (IH m1 Hf Hp Ha1) as (m' & E & Ha' & Ht & HP). exists m'. cbn [fmap list_fmap each concat]. rewrite (interp_seq _ _ _ _ _ _ E1).
  split; [exact E|]. split; [done|]. split; [by rewrite Ht, Ht1, app_assoc|congruence].
Qed.
End Machine.

(** ** The programs on the image *)

(** The command line of [mkfs]. *)
Section Commands.
Context (creat : list Z -> bool) (host : list Z -> option (list (list Z))) (out : list Z) (args : list (list Z)).
Hypothesis Hout : creat out = true.
Hypothesis Hgood : Forall (good_arg host) args.
Hypothesis Hlen : (length args <= 198)%nat.
Hypothesis Hroom : 59 + cost (Z.of_nat (length (root_bytes args))) + blocks_of (file_nodes host args) <= 1000.
Hypothesis H32 : (2 + Z.of_nat (length args)) mod 32 <> 0.
Context (image : list Z -> option (Z * (list (list Z) -> prog unit))) (memory : Z) (i : nat).

(** A machine on which process [i] has come to the end of its program, having
    printed [text] and changed nothing else of what [at_root] describes. *)
Definition printed (im : gmap Z block) (text : list Z) (m m' : machine) : Prop :=
  turns image memory i m m' /\ at_prog i exit m' /\ tty (co m') = tty (co m) ++ text /\
  at_root args im i (kf (co m')) /\ fprocs (kf (co m')) = fprocs (kf (co m)).

Lemma run_files im fb work fail text l m : made host args im fb -> Forall (findable args) l -> Forall (prints host i work text) l ->
  at_root args im i (kf (co m)) -> at_prog i (pbind (each (image_name <$> l) (on_file work fail)) (fun _ => exit)) m ->
  exists m', printed im (concat (text <$> l)) m m'.
Proof using Hlen H32.
  intros Hm Hf Hp Ha Hpr. destruct (files_printed host args im fb Hm Hlen H32 i work fail text l (co m) Hf Hp Ha) as (c' & E & Ha' & Ht & HP).
  destruct (interp_turns image memory i _ _ m tt c' Hpr E) as (m' & Hts & <- & Hp'). by exists m'.
Qed.

(** The branch that a file of the image does not take. *)
Definition cannot_open (msg : string) (a : list Z) : prog bool := pbind (uprintf 1 (str msg ++ [NL]) [AStr a]) (fun _ => exit).

(** C7. From the command line of [mkfs] to the screen.  [main] of mkfs.c, run on files
    that can be opened, whose names have no slash and that fit, returns; and on a
    machine with that image as its disk, whose process [i] is in the root directory
    and has the console as its standard output, [cat] of any of those files that
    their names find (no earlier name equal in its first 14 bytes) opens each,
    prints exactly the bytes that [mkfs] was given, closes it and gets to its
    [exit], without sleeping.  The descriptors are then as they were, and so is
    what the theorem asks of the machine. *)
Theorem mkfs_then_cat : exists s, main creat host (out :: args) start_state = Ret tt s /\
  forall l fuel arg0 m, l <> [] -> Forall (findable args) l -> Forall (fun a => length (data host a) < fuel)%nat l ->
    at_root args (img s) i (kf (co m)) -> at_prog i (cat_main fuel (arg0 :: (image_name <$> l))) m ->
    exists m', printed (img s) (concat (data host <$> l)) m m'.
Proof using Hout Hgood Hlen Hroom H32.
  destruct (main_spec creat host out args Hout Hgood Hlen Hroom) as (s & E & Hm). exists s. split; [exact E|].
  intros l fuel arg0 m Hl Hf Hfu Ha Hp. apply (run_files _ _ (fun _ => cat fuel) (cannot_open "cat: cannot open %s") (data host) l m Hm Hf); [|exact Ha|].
  - eapply Forall_impl; [exact Hfu|]. intros a Hfa Q fd c o HQ Hs.
    destruct (cat_spec (kernel i) fd (serves 2 nlog 59 Q i fd) fuel _ _ _ Hs Hfa) as (c' & Ec & Hs'). eauto.
  - destruct l as [|a l]; [done|]. exact Hp.
Qed.

(** The same for [wc]: for each file the numbers of newlines, of words and of bytes,
    and the name. *)
Theorem mkfs_then_wc : exists s, main creat host (out :: args) start_state = Ret tt s /\
  forall l fuel arg0 m, l <> [] -> Forall (findable args) l -> Forall (fun a => length (data host a) < fuel)%nat l ->
    at_root args (img s) i (kf (co m)) -> at_prog i (wc_main fuel (arg0 :: (image_name <$> l))) m ->
    exists m', printed (img s) (concat ((fun a => wc_report (data host a) (image_name a)) <$> l)) m m'.
Proof using Hout Hgood Hlen Hroom H32.
  destruct (main_spec creat host out args Hout Hgood Hlen Hroom) as (s & E & Hm). exists s. split; [exact E|].
  intros l fuel arg0 m Hl Hf Hfu Ha Hp. apply (run_files _ _ (fun a fd => wc fuel fd a) (cannot_open "wc: cannot open %s") _ l m Hm Hf); [|exact Ha|].
  - rewrite Forall_forall in Hfu, Hf. apply Forall_forall. intros a Hin Q fd c o HQ Hs. destruct (Hf a Hin) as (_ & j & Hj & _).
    assert (Hb : Forall is_byte (image_name a)) by (apply image_name_bytes, (ga_name _ _ (Forall_lookup_1 _ _ _ _ Hgood Hj))).
    destruct (wc_interp 2 nlog 59 Q i fd fuel _ c _ o Hs (Hfu a Hin) Hb) as (c' & Ec & Hs'). eauto.
  - destruct l as [|a l]; [done|]. exact Hp.
Qed.

(** The same for [grep] of a file without NUL bytes and with lines under 1023
    characters: the lines that match, in order. *)
Theorem mkfs_then_grep : exists s, main creat host (out :: args) start_state = Ret tt s /\
  forall a ls tail arg0 pattern m, findable args a -> data host a = unlines ls ++ tail ->
    Forall clean ls -> clean tail -> Forall (fun l => length l < 1023)%nat ls ->
    at_root args (img s) i (kf (co m)) -> at_prog i (grep_main (S (length (data host a))) [arg0; pattern; image_name a]) m ->
    exists m', printed (img s) (unlines (List.filter (rmatch pattern) ls)) m m'.
Proof using Hout Hgood Hlen Hroom H32.
  destruct (main_spec creat host out args Hout Hgood Hlen Hroom) as (s & E & Hm). exists s. split; [exact E|].
  intros a ls tail arg0 pattern m Hf Hd Hc Ht Hl Ha Hp. rewrite <- (app_nil_r (unlines (List.filter _ _))).
  apply (run_files _ _ (fun a fd => grep_loop (S (length (unlines ls ++ tail))) pattern fd []) (cannot_open "grep: cannot open %s")
    (fun _ => unlines (List.filter (rmatch pattern) ls)) [a] m Hm); [by apply Forall_singleton| |exact Ha|rewrite Hd in Hp; exact Hp].
  apply Forall_singleton. intros Q fd c o HQ Hs. rewrite Hd in Hs.
  destruct (grep_interp 2 nlog 59 Q i fd pattern c ls tail o Hs Hc Ht Hl) as (c' & rst & Ec & Hs'). eauto.
Qed.
End Commands.

(** ** [mkfs fs.img README _cat], and the programs on README *)

Definition ex_tty : inode := mk_inode 1 9 3 false true T_DEV 1 1 1 0 (replicate 13 0).
Definition ex_files : list file := [mk_file FD_NONE 0 false false 0 0 0; mk_file FD_INODE 3 true true 0 1 7].
Definition ex_user : fproc := mk_fproc (replicate 3 (Some 1%nat) ++ replicate 13 None) 0 false.
Definition ex_machine (im : gmap Z block) (p : prog unit) : machine :=
  mk_machine (mk_con (mk_kfs (mk_fstate (ds (kst im)) mk_sb [node_ip im 1 1 false; ex_tty; ex_free; ex_free]) ex_files [] 1 [ex_user] 0 ∅)
    (str "$ ") []) [mk_uproc URunnable 1 0 4096 ∅ p] 2.

Lemma ex_at_root im p : at_root [ex_readme; ex_cat] im 0 (kf (co (ex_machine im p))).
Proof.
  exists ex_tty, ex_free, [ex_free], ex_user, 3%nat, 0%nat, 1%nat, (mk_file FD_NONE 0 false false 0 0 0), (mk_file FD_INODE 3 true true 0 1 7).
  split; [cbn; lia|]. split; [cbn; lia|]. do 2 (split; [done|]). split; [by apply Forall_singleton|]. by split.
Qed.

Lemma ex_findable : findable [ex_readme; ex_cat] ex_readme.
Proof.
  split; [split; [discriminate|apply (bool_decide_unpack _); vm_compute; exact I..]|]. exists 0%nat. split; [done|].
  intros [|[|k]] e Hk; [intros [= <-]; vm_compute; discriminate..|lia].
Qed.

Lemma mkfs_then_cat_witness : exists s m', main (fun _ => true) ex_host [[]; ex_readme; ex_cat] start_state = Ret tt s /\
  tty (co m') = str "$ hihi".
Proof.
  destruct (mkfs_then_cat (fun _ => true) ex_host [] [ex_readme; ex_cat]) with (image := fun _ : list Z => @None (Z * (list (list Z) -> prog unit)))
    (memory := 100) (i := 0%nat) as (s & E & H).
  - reflexivity.
  - exact ex_good.
  - cbn. lia.
  - vm_compute. discriminate.
  - vm_compute. discriminate.
  - destruct (H [ex_readme; ex_readme] 5%nat (str "cat") (ex_machine (img s) (cat_main 5 [str "cat"; ex_readme; ex_readme]))) as (m' & _ & _ & Ht & _).
    + discriminate.
    + apply Forall_cons; split; [|apply Forall_singleton]; exact ex_findable.
    + apply Forall_cons; split; [|apply Forall_singleton]; vm_compute; lia.
    + apply ex_at_root.
    + reflexivity.
    + exists s, m'. split; [exact E|exact Ht].
Defined.
