(* ===== verification/Asm.v ===== *)
(** * The assembly of the kernel (swtch.S, trapasm.S, vectors.pl, usys.S, initcode.S)

    The code as lists of instructions of X86.v, and what it does: the context
    switch, the way into [trap] and back, the stubs of the system calls and the
    first program. *)
From S2P Require Import Prelude Memory Mmu Traps Gates Proc Syscall Ulib Exec X86.

(** ** swtch.S *)

(** proc.h *)
Record context := mk_context { x_edi : Z; x_esi : Z; x_ebx : Z; x_ebp : Z; x_eip : Z }.

Definition swtch_code : list instr := [
  movl_load 4 ESP EAX;
  movl_load 8 ESP EDX;
  pushl EBP;
  pushl EBX;
  pushl ESI;
  pushl EDI;
  movl_store ESP EAX;
  movl EDX ESP;
  popl EDI;
  popl ESI;
  popl EBX;
  popl EBP;
  ret
].

(** ** trapasm.S and vectors.pl *)

(** x86.h *)
Record trapframe := mk_trapframe {
  t_edi : Z; t_esi : Z; t_ebp : Z; t_oesp : Z; t_ebx : Z; t_edx : Z; t_ecx : Z; t_eax : Z;
  t_gs : Z; t_fs : Z; t_es : Z; t_ds : Z; t_trapno : Z;
  t_err : Z; t_eip : Z; t_cs : Z; t_eflags : Z; t_esp : Z; t_ss : Z
}.

(** The exceptions for which the processor pushes an error code. *)
Definition errcode (i : Z) : bool := (i =? 8) || ((10 <=? i) && (i <=? 14)) || (i =? 17).
Definition vector_code (alltraps i : Z) : list instr :=
  (if negb (errcode i) then [pushl_i 0] else []) ++ [pushl_i i; jmp alltraps].

Definition trapret_code : list instr := [
  popal;
  popl_s GS;
  popl_s FS;
  popl_s ES;
  popl_s DS;
  addl_i 8 ESP;
  iret
].

Definition alltraps_code (trap : Z) : list instr := [
  pushl_s DS;
  pushl_s ES;
  pushl_s FS;
  pushl_s GS;
  pushal;
  movw_i (Z.shiftl SEG_KDATA 3) EAX;
  movw_s EAX DS;
  movw_s EAX ES;
  pushl ESP;
  call trap;
  addl_i 4 ESP
] ++ trapret_code.

(** ** usys.S and initcode.S *)

Definition SYSCALL (num : Z) : list instr := [movl_i num EAX; int T_SYSCALL; ret].
Definition usys : list (string * list instr) := [
  ("fork", SYSCALL SYS_fork); ("exit", SYSCALL SYS_exit); ("wait", SYSCALL SYS_wait); ("pipe", SYSCALL SYS_pipe);
  ("read", SYSCALL SYS_read); ("write", SYSCALL SYS_write); ("close", SYSCALL SYS_close); ("kill", SYSCALL SYS_kill);
  ("exec", SYSCALL SYS_exec); ("open", SYSCALL SYS_open); ("mknod", SYSCALL SYS_mknod); ("unlink", SYSCALL SYS_unlink);
  ("fstat", SYSCALL SYS_fstat); ("link", SYSCALL SYS_link); ("mkdir", SYSCALL SYS_mkdir); ("chdir", SYSCALL SYS_chdir);
  ("dup", SYSCALL SYS_dup); ("getpid", SYSCALL SYS_getpid); ("sbrk", SYSCALL SYS_sbrk); ("sleep", SYSCALL SYS_sleep);
  ("uptime", SYSCALL SYS_uptime); ("mencrypt", SYSCALL SYS_mencrypt); ("getpgtable", SYSCALL SYS_getpgtable);
  ("dump_rawphymem", SYSCALL SYS_dump_rawphymem)
]%string.

(** [init] and [argv] are labels, [exit] is the address of the sixth
    instruction. *)
Definition initcode (argv init exit : Z) : list instr := [
  pushl_i argv;
  pushl_i init;
  pushl_i 0;
  movl_i SYS_exec EAX;
  int T_SYSCALL;
  movl_i SYS_exit EAX;
  int T_SYSCALL;
  jmp exit
].
(** [.string] adds a NUL of its own; [argv] is aligned to four bytes. *)
Definition initcode_data (init : Z) : list Z :=
  let s := str "/init" ++ [0; 0] in
  s ++ replicate (Z.to_nat ((- (init + Z.of_nat (length s))) mod 4)) 0 ++ le32 init ++ le32 0.

(** The bytes behind the code: the path, and the vector that starts with its
    address. *)
Lemma initcode_argv init : exists pad, initcode_data init = str "/init" ++ [0; 0] ++ replicate pad 0 ++ le32 init ++ le32 0 /\
  (init + 7 + Z.of_nat pad) mod 4 = 0.
Proof.
  eexists. split; [reflexivity|]. change (Z.of_nat (length (str "/init" ++ [0; 0]))) with 7. Z.div_mod_to_equations. lia.
Qed.

Lemma low16_mod o v : low16 o v mod 65536 = v mod 65536.
Proof. unfold low16. Z.div_mod_to_equations. lia. Qed.

Section Kernel.
Context (translate : Z -> Z -> Z) (alu_flags : Z -> Z -> Z) (text : Z -> option (instr * Z)).
#[local] Notation steps := (steps translate alu_flags text).
#[local] Notation load32 := (load32 translate).
#[local] Notation load16 := (load16 translate).

(** Every page directory of the kernel maps physical memory at [KERNBASE]. *)
Definition kmapped (c : cpu) : Prop := forall a, KERNBASE <= a < KERNBASE + PHYSTOP -> phys_of translate (crs c) a = a - KERNBASE.
Definition kaddr (a n : Z) : Prop := KERNBASE <= a /\ a + n <= KERNBASE + PHYSTOP.
Definition apart (a n b k : Z) : Prop := a + n <= b \/ b + k <= a.
Definition words (c : cpu) : Prop := forall r, 0 <= gpr c r < 4294967296.

Definition context_at (c : cpu) (a : Z) : context :=
  mk_context (load32 c a) (load32 c (a + 4)) (load32 c (a + 8)) (load32 c (a + 12)) (load32 c (a + ctx_eip)).
(** What a function finds in place when a call of its own returns. *)
Definition running (c : cpu) : context := mk_context (gpr c EDI) (gpr c ESI) (gpr c EBX) (gpr c EBP) (eip c).

(** Only general registers, the program counter and memory differ. *)
Record same_world (c c' : cpu) : Prop := {
  sw_sel : sel c' = sel c;
  sw_crs : crs c' = crs c;
  sw_eflags : eflags c' = eflags c;
  sw_idt : idt c' = idt c;
  sw_tss : tss c' = tss c
}.

(** A call [swtch(old, new)] that has just been made: the stack, the variable
    [*old] and the context [*new] are in kernel memory and do not overlap. *)
Record at_swtch (adr : nat -> Z) (old new : Z) (c : cpu) : Prop := {
  as_eip : eip c = adr 0%nat;
  as_map : kmapped c;
  as_words : words c;
  as_old : load32 c (gpr c ESP + 4) = old;
  as_new : load32 c (gpr c ESP + 8) = new;
  as_stack : kaddr (gpr c ESP - 16) 28;
  as_kold : kaddr old 4;
  as_knew : kaddr new 20;
  as_apart : apart old 4 (gpr c ESP - 16) 20;
  as_apart2 : apart new 20 (gpr c ESP - 16) 16;
  as_apart3 : apart old 4 new 20
}.

Lemma swtch_run adr c old new : let e := gpr c ESP in
  placed text adr swtch_code -> at_swtch adr old new c ->
  exists c', steps c c' /\ running c' = context_at c new /\ gpr c' ESP = new + 20 /\
    load32 c' old = e - 16 /\ context_at c' (e - 16) = mk_context (gpr c EDI) (gpr c ESI) (gpr c EBX) (gpr c EBP) (load32 c e) /\
    same_world c c' /\ (forall a, apart a 1 (e - 16 - KERNBASE) 16 -> apart a 1 (old - KERNBASE) 4 -> read8 (mem c') a = read8 (mem c) a).
Proof using Type.
  destruct c as [g s cr ip fl gd id ts m ins outs]. intros e Hp [Hip Hk Hw Ho Hn He Hao Han A1 A2 A3].
  pose proof (Hw EAX). pose proof (Hw EDX). pose proof (Hw EBX). pose proof (Hw EBP). pose proof (Hw ESI). pose proof (Hw EDI). pose proof (Hw ESP).
  subst e. cbn [gpr eip] in *. subst ip. unfold kaddr, apart, KERNBASE, PHYSTOP in *. unfold kmapped in Hk. cbn [crs] in Hk.
  unfold X86.load32 in Ho, Hn. cbn [mem crs] in Ho, Hn.
  eexists. split.
  - do 2 one_step Hp. rewrite Ho, Hn. do 11 one_step Hp. apply rtc_refl.
  - unfold running, context_at. cpu_simpl. unfold ctx_eip. rewrite !Hk by (unfold KERNBASE, PHYSTOP; lia).
    split; [f_equal; mem_read; f_equal; lia|]. split; [lia|]. split; [mem_read; lia|].
    split; [f_equal; mem_read; try (f_equal; lia)|]. split; [done|]. intros a B1 B2. unfold KERNBASE in *. by mem_read.
Qed.

(** C35. [swtch(old, new)], seen from the thread that calls it.  The call leaves in
    [*old] the address of a context on its stack and goes on where the context
    [new] says, with that context's registers and stack; nothing else of memory
    changes.  And when some thread later calls [swtch] on the context left in
    [*old], which has not changed meanwhile, the first call returns: to its return
    address, with the stack pointer behind it and all four registers that a C
    function must preserve. *)
Theorem swtch_returns adr c old new : let e := gpr c ESP in
  placed text adr swtch_code -> at_swtch adr old new c ->
  exists c1, steps c c1 /\ running c1 = context_at c new /\ gpr c1 ESP = new + 20 /\ load32 c1 old = e - 16 /\ same_world c c1 /\
    (forall a, apart a 1 (e - 16 - KERNBASE) 16 -> apart a 1 (old - KERNBASE) 4 -> read8 (mem c1) a = read8 (mem c) a) /\
    forall c2 old2, at_swtch adr old2 (load32 c1 old) c2 -> context_at c2 (load32 c1 old) = context_at c1 (load32 c1 old) ->
      exists c3, steps c2 c3 /\
        running c3 = mk_context (gpr c EDI) (gpr c ESI) (gpr c EBX) (gpr c EBP) (load32 c e) /\ gpr c3 ESP = e + 4.
Proof using Type.
  intros e Hp H. destruct (swtch_run adr c old new Hp H) as (c1 & S1 & R1 & E1 & O1 & X1 & W1 & M1). exists c1.
  do 6 (split; [done|]). rewrite O1. intros c2 old2 H2 Hx. destruct (swtch_run adr c2 old2 _ Hp H2) as (c3 & S3 & R3 & E3 & _).
  exists c3. split; [exact S3|]. split; [by rewrite R3, Hx|]. rewrite E3. unfold e. lia.
Qed.

(** *** Traps *)

Definition frame_at (c : cpu) (a : Z) : trapframe :=
  mk_trapframe (load32 c a) (load32 c (a + 4)) (load32 c (a + 8)) (load32 c (a + 12)) (load32 c (a + 16)) (load32 c (a + 20))
    (load32 c (a + 24)) (load32 c (a + tf_eax)) (load16 c (a + 32)) (load16 c (a + 36)) (load16 c (a + tf_es)) (load16 c (a + tf_ds))
    (load32 c (a + tf_trapno)) (load32 c (a + 52)) (load32 c (a + tf_eip)) (load16 c (a + tf_cs)) (load32 c (a + tf_eflags))
    (load32 c (a + tf_esp)) (load16 c (a + tf_ss)).

(** The frame holds the registers of [c], stopped at [ip]. *)
Record frame_of (f : trapframe) (ip : Z) (c : cpu) : Prop := {
  fo_edi : t_edi f = gpr c EDI; fo_esi : t_esi f = gpr c ESI; fo_ebp : t_ebp f = gpr c EBP; fo_ebx : t_ebx f = gpr c EBX;
  fo_edx : t_edx f = gpr c EDX; fo_ecx : t_ecx f = gpr c ECX; fo_eax : t_eax f = gpr c EAX; fo_esp : t_esp f = gpr c ESP;
  fo_gs : t_gs f = sel c GS; fo_fs : t_fs f = sel c FS; fo_es : t_es f = sel c ES; fo_ds : t_ds f = sel c DS;
  fo_cs : t_cs f = sel c CS; fo_ss : t_ss f = sel c SS; fo_eip : t_eip f = ip; fo_eflags : t_eflags f = eflags c
}.

(** A user program, and the gate for [n] that [tvinit] made. *)
Record user_mode (n : Z) (vec : Z) (c : cpu) : Prop := {
  um_cpl : cpl c = 3;
  um_map : kmapped c;
  um_words : words c;
  um_sel : forall s, 0 <= sel c s < 65536;
  um_flags : 0 <= eflags c < 4294967296;
  um_stack : kaddr (snd (tss c) - 84) 84;
  um_ss0 : 0 <= fst (tss c) < 65536;
  um_gate : exists g, idt c !! Z.to_nat n = Some g /\ gate_target g = vec /\ cs g = Z.shiftl SEG_KCODE 3
}.

Definition selectors (c : cpu) : Prop := forall s, 0 <= sel c s < 65536.

(** The low half of the frame, and the call. *)
Lemma alltraps_run tadr trap c : let e := gpr c ESP in let tf := e - tf_trapno in
  placed text tadr (alltraps_code trap) -> eip c = tadr 0%nat -> kmapped c -> words c -> selectors c -> kaddr (e - 56) 56 ->
  0 <= tadr 10%nat < 4294967296 ->
  exists c1, steps c c1 /\ eip c1 = trap /\ gpr c1 ESP = tf - 8 /\ load32 c1 (tf - 8) = tadr 10%nat /\ load32 c1 (tf - 4) = tf /\
    (let f := frame_at c1 tf in
     t_edi f = gpr c EDI /\ t_esi f = gpr c ESI /\ t_ebp f = gpr c EBP /\ t_ebx f = gpr c EBX /\ t_edx f = gpr c EDX /\
     t_ecx f = gpr c ECX /\ t_eax f = gpr c EAX /\ t_gs f = sel c GS /\ t_fs f = sel c FS /\ t_es f = sel c ES /\ t_ds f = sel c DS) /\
    sel c1 CS = sel c CS /\ sel c1 DS = Z.shiftl SEG_KDATA 3 /\ sel c1 ES = Z.shiftl SEG_KDATA 3 /\ crs c1 = crs c /\ eflags c1 = eflags c /\
    (forall a, apart a 1 (tf - 8 - KERNBASE) 56 -> read8 (mem c1) a = read8 (mem c) a).
Proof using Type.
  destruct c as [g s cr ip fl gd id ts m ins outs]. intros e tf Ht Hip Hk Hw Hs He Ha. subst tf e.
  pose proof (Hw EAX). pose proof (Hw EDX). pose proof (Hw ECX). pose proof (Hw EBX). pose proof (Hw EBP). pose proof (Hw ESI). pose proof (Hw EDI).
  pose proof (Hw ESP). pose proof (Hs DS). pose proof (Hs ES). pose proof (Hs FS). pose proof (Hs GS).
  cbn [gpr sel crs eip] in *. subst ip. unfold kaddr, apart, tf_trapno, KERNBASE, PHYSTOP in *. unfold kmapped in Hk. cbn [crs] in Hk.
  eexists. split; [do 10 one_step Ht; apply rtc_refl|]. unfold frame_at. cbn [t_edi t_esi t_ebp t_ebx t_edx t_ecx t_eax t_gs t_fs t_es t_ds].
  unfold X86.load32, X86.load16, tf_eax, tf_es, tf_ds. cpu_simpl. rewrite !Hk by (unfold KERNBASE, PHYSTOP; lia). unfold KERNBASE.
  split_and!; try (by mem_read); try lia; try (rewrite low16_mod; reflexivity); [mem_read; lia|].
  intros a B. by mem_read.
Qed.

(** The processor's part of the frame, and the vector. *)
Lemma vector_run n soft err from vadr alltraps c c0 :
  placed text vadr (vector_code alltraps n) -> user_mode n (vadr 0%nat) c ->
  0 <= n < 256 -> 0 <= err < 4294967296 -> 0 <= from < 4294967296 ->
  deliver translate n soft (if errcode n then Some err else None) from c = Some c0 ->
  let tf := snd (tss c) - sizeof_trapframe in
  exists c1, steps c0 c1 /\ eip c1 = alltraps /\ gpr c1 ESP = tf + tf_trapno /\
    (forall r, r <> ESP -> gpr c1 r = gpr c r) /\ (forall s, s <> CS -> s <> SS -> sel c1 s = sel c s) /\
    sel c1 CS = Z.shiftl SEG_KCODE 3 /\ sel c1 SS = fst (tss c) /\ crs c1 = crs c /\
    (let f := frame_at c1 tf in
     t_trapno f = n /\ t_err f = (if errcode n then err else 0) /\ t_eip f = from /\ t_cs f = sel c CS /\ t_eflags f = eflags c /\
     t_esp f = gpr c ESP /\ t_ss f = sel c SS) /\
    (forall a, apart a 1 (tf + tf_trapno - KERNBASE) 28 -> read8 (mem c1) a = read8 (mem c) a).
Proof using Type.
  destruct c as [g s cr ip fl gd id [ss0 esp0] m ins outs]. intros Hv [U1 U2 U3 U4 U5 U6 _ (gt & G1 & G2 & G3)] Hn He Hf Hd. cbv zeta.
  pose proof (U3 ESP). pose proof (U4 CS). pose proof (U4 SS). cbn [gpr sel crs eflags tss idt eip fst snd] in *. unfold kmapped in U2. cbn [crs] in U2.
  unfold deliver in Hd. cbn [idt] in Hd. rewrite G1, U1, G2, G3 in Hd. destruct (soft && _); [done|].
  change (3 =? 0) with false in Hd. cbn iota in Hd. unfold vector_code in Hv. unfold kaddr, apart, sizeof_trapframe, tf_trapno, KERNBASE, PHYSTOP in *.
  set (fl' := if masks_interrupts gt then _ else _) in Hd.
  destruct (errcode n) eqn:En; injection Hd as <-; cbn [negb app] in Hv.
  - eexists. split; [cpu_simpl; u32_norm; do 2 one_step Hv; apply rtc_refl|].
    unfold frame_at. cbn [t_trapno t_err t_eip t_cs t_eflags t_esp t_ss].
    unfold X86.load32, X86.load16, tf_trapno, tf_eip, tf_cs, tf_eflags, tf_esp, tf_ss. cpu_simpl. rewrite !U2 by (unfold KERNBASE, PHYSTOP; lia). unfold KERNBASE.
    split_and!; try (by mem_read); try lia; [by intros []|by intros []|intros a B; by mem_read].
  - eexists. split; [cpu_simpl; u32_norm; do 3 one_step Hv; apply rtc_refl|].
    unfold frame_at. cbn [t_trapno t_err t_eip t_cs t_eflags t_esp t_ss].
    unfold X86.load32, X86.load16, tf_trapno, tf_eip, tf_cs, tf_eflags, tf_esp, tf_ss. cpu_simpl. rewrite !U2 by (unfold KERNBASE, PHYSTOP; lia). unfold KERNBASE.
    split_and!; try (by mem_read); try lia; [by intros []|by intros []|intros a B; by mem_read].
Qed.

(** From the interrupted instruction to the first of [trap]. *)
Record trap_called (n err from trap back tf : Z) (c c1 : cpu) : Prop := {
  tc_eip : eip c1 = trap;
  tc_esp : gpr c1 ESP = tf - 8;
  tc_back : load32 c1 (tf - 8) = back;
  tc_arg : load32 c1 (tf - 4) = tf;
  tc_frame : frame_of (frame_at c1 tf) from c;
  tc_trapno : t_trapno (frame_at c1 tf) = n;
  tc_err : t_err (frame_at c1 tf) = err;
  tc_cs : sel c1 CS = Z.shiftl SEG_KCODE 3;
  tc_data : sel c1 DS = Z.shiftl SEG_KDATA 3 /\ sel c1 ES = Z.shiftl SEG_KDATA 3;
  tc_crs : crs c1 = crs c;
  tc_mem : forall a, apart a 1 (tf - 8 - KERNBASE) 84 -> read8 (mem c1) a = read8 (mem c) a
}.

Lemma load32_ext c c' a : crs c' = crs c -> kmapped c -> kaddr a 4 ->
  (forall b, a - KERNBASE <= b < a - KERNBASE + 4 -> read8 (mem c') b = read8 (mem c) b) -> load32 c' a = load32 c a.
Proof using Type.
  intros Hc Hk [H1 H2] H. unfold X86.load32. rewrite Hc, Hk by (unfold KERNBASE, PHYSTOP in *; lia).
  apply read32_ext. intros b Hb. apply H. exact Hb.
Qed.
Lemma load16_ext c c' a : crs c' = crs c -> kmapped c -> kaddr a 2 ->
  (forall b, a - KERNBASE <= b < a - KERNBASE + 2 -> read8 (mem c') b = read8 (mem c) b) -> load16 c' a = load16 c a.
Proof using Type.
  intros Hc Hk [H1 H2] H. unfold X86.load16. rewrite Hc, Hk by (unfold KERNBASE, PHYSTOP in *; lia).
  apply read16_ext. intros b Hb. apply H. exact Hb.
Qed.

Lemma trap_entry n soft err from vadr tadr trap c c0 :
  placed text vadr (vector_code (tadr 0%nat) n) -> placed text tadr (alltraps_code trap) -> user_mode n (vadr 0%nat) c ->
  0 <= n < 256 -> 0 <= err < 4294967296 -> 0 <= from < 4294967296 -> 0 <= tadr 10%nat < 4294967296 ->
  deliver translate n soft (if errcode n then Some err else None) from c = Some c0 ->
  exists c1, steps c0 c1 /\
    trap_called n (if errcode n then err else 0) from trap (tadr 10%nat) (snd (tss c) - sizeof_trapframe) c c1.
Proof using Type.
  intros Hv Ht Hu Hn He Hf Ha Hd. pose proof Hu as [_ U2 U3 U4 _ U6 Hss _].
  destruct (vector_run n soft err from vadr _ c c0 Hv Hu Hn He Hf Hd) as (c1 & S1 & I1 & E1 & R1 & G1 & CS1 & SS1 & K1 & F1 & M1).
  set (tf := snd (tss c) - sizeof_trapframe) in *. unfold kaddr, apart, sizeof_trapframe, tf_trapno, KERNBASE, PHYSTOP in *.
  assert (Hk1 : kmapped c1) by (unfold kmapped; by rewrite K1).
  assert (Hw1 : words c1). { intros r. destruct (reg_eq_dec r ESP) as [->|Hr]; [rewrite E1; subst tf; lia|]. rewrite (R1 r Hr). apply U3. }
  assert (Hs1 : selectors c1). { intros [| | | | |]; [rewrite CS1; done|rewrite G1 by done; apply U4..|by rewrite SS1]. }
  destruct (alltraps_run tadr trap c1 Ht I1 Hk1 Hw1 Hs1) as (c2 & S2 & I2 & E2 & B2 & A2 & F2 & CS2 & DS2 & ES2 & K2 & _ & M2);
    [unfold kaddr, KERNBASE, PHYSTOP; rewrite E1; subst tf; lia|done|].
  rewrite E1 in *. replace (tf + 48 - tf_trapno) with tf in * by (unfold tf_trapno; lia). exists c2. split; [by transitivity c1|].
  assert (Hx32 : forall o, 48 <= o <= 72 -> load32 c2 (tf + o) = load32 c1 (tf + o)).
  { intros o Ho. apply load32_ext; [done|done|unfold kaddr, KERNBASE, PHYSTOP; lia|]. intros b Hb. apply M2. unfold apart, KERNBASE in *. lia. }
  assert (Hx16 : forall o, 48 <= o <= 72 -> load16 c2 (tf + o) = load16 c1 (tf + o)).
  { intros o Ho. apply load16_ext; [done|done|unfold kaddr, KERNBASE, PHYSTOP; lia|]. intros b Hb. apply M2. unfold apart, KERNBASE in *. lia. }
  destruct F2 as (F21 & F22 & F23 & F24 & F25 & F26 & F27 & F28 & F29 & F2a & F2b). destruct F1 as (F11 & F12 & F13 & F14 & F15 & F16 & F17).
  rewrite R1 in F21, F22, F23, F24, F25, F26, F27 by done. rewrite G1 in F28, F29, F2a, F2b by done.
  assert (Hhi : forall g : trapframe -> Z, g ∈ [t_trapno; t_err; t_eip; t_cs; t_eflags; t_esp; t_ss] -> g (frame_at c2 tf) = g (frame_at c1 tf)).
  { intros g Hg. repeat (apply elem_of_cons in Hg as [->|Hg]); [cbn; first [apply Hx32|apply Hx16]; by vm_compute..|by apply elem_of_nil in Hg]. }
  split; try done.
  - split; try done; rewrite Hhi by (rewrite !elem_of_cons; tauto); done.
  - rewrite Hhi by (rewrite !elem_of_cons; tauto). done.
  - rewrite Hhi by (rewrite !elem_of_cons; tauto). done.
  - congruence.
  - by rewrite K2.
  - intros b Hb. rewrite M2, M1 by (unfold apart, KERNBASE, tf_trapno in *; lia). done.
Qed.

(** *** The way back *)

Lemma exec_iret_user c : cpl c < Z.land (top16 translate (drop_word c)) 3 ->
  exec_iret translate c =
    let c3 := drop_word (drop_word (drop_word c)) in
    set_eflags (top translate (drop_word (drop_word c))) (set_eip (top translate c) (set_sel CS (top16 translate (drop_word c))
      (set_gpr ESP (top translate c3) (set_sel SS (top16 translate (drop_word c3)) c3)))).
Proof using Type. intros H. unfold exec_iret. by rewrite (proj2 (Z.ltb_lt _ _) H). Qed.

Lemma trapret_run tadr c : let tf := gpr c ESP in
  placed text tadr trapret_code -> eip c = tadr 0%nat -> kmapped c -> cpl c = 0 -> kaddr tf sizeof_trapframe ->
  Z.land (t_cs (frame_at c tf)) 3 = 3 ->
  exists c1, steps c c1 /\ frame_of (frame_at c tf) (eip c1) c1 /\ mem c1 = mem c /\ crs c1 = crs c /\ idt c1 = idt c /\ tss c1 = tss c.
Proof using Type.
  destruct c as [g s cr ip fl gd id ts m ins outs]. intros tf Ht Hip Hk Hc He Hu. subst tf.
  cbn [gpr sel crs eip] in *. subst ip. unfold kaddr, sizeof_trapframe, KERNBASE, PHYSTOP in *. unfold kmapped in Hk. cbn [crs] in Hk.
  unfold frame_at in Hu. cbn [t_cs] in Hu. unfold X86.load16, tf_cs in Hu. cbn [mem crs] in Hu.
  assert (Hcs : forall a, a = g ESP + 60 -> Z.land (read16 m (phys_of translate cr a)) 3 = 3) by (by intros a ->).
  eexists. split.
  - do 6 one_step Ht. eapply rtc_l; [|apply rtc_refl]. unfold step; cbv beta iota delta [eip]; erewrite Ht by reflexivity. cbn [exec].
    rewrite exec_iret_user; [cpu_simpl; u32_norm; reflexivity|]. cbv beta delta [cpl] in Hc |- *. cpu_simpl. cbn [sel] in Hc. u32_norm.
    rewrite Hc, Hcs by lia. lia.
  - unfold frame_at, X86.load32, X86.load16, tf_eax, tf_es, tf_ds, tf_trapno, tf_eip, tf_cs, tf_eflags, tf_esp, tf_ss. cpu_simpl.
    split; [|done]. split; cbn; by do 2 f_equal; lia.
Qed.

(** [trap] has returned to its caller. *)
Record trap_returned (c1 c2 : cpu) : Prop := {
  tr_eip : eip c2 = load32 c1 (gpr c1 ESP);
  tr_esp : gpr c2 ESP = gpr c1 ESP + 4;
  tr_map : kmapped c2;
  tr_cpl : cpl c2 = 0
}.

Lemma trap_exit tadr trap tf c : placed text tadr (alltraps_code trap) -> eip c = tadr 10%nat -> gpr c ESP = tf - 4 -> kmapped c -> cpl c = 0 ->
  kaddr tf sizeof_trapframe -> Z.land (t_cs (frame_at c tf)) 3 = 3 ->
  exists c1, steps c c1 /\ frame_of (frame_at c tf) (eip c1) c1 /\ mem c1 = mem c /\ crs c1 = crs c.
Proof using Type.
  intros Ht Hi He Hk Hc Ha Hu. destruct c as [g s cr ip fl gd id ts m ins outs]. cbn [eip gpr] in Hi, He. subst ip.
  set (c' := mk_cpu (fun r => if reg_eqb ESP r then tf else g r) s cr (tadr 11%nat) (alu_flags fl tf) gd id ts m ins outs).
  destruct (trapret_run (fun k => tadr (11 + k)%nat) c') as (c1 & S1 & F1 & M1 & K1 & _).
  - intros k i Hk'. exact (Ht (11 + k)%nat i Hk').
  - done.
  - exact Hk.
  - exact Hc.
  - exact Ha.
  - exact Hu.
  - exists c1. split; [|done]. eapply rtc_l; [|exact S1]. unfold step. cbv beta iota delta [eip]. erewrite Ht by reflexivity. cpu_simpl.
    rewrite He. replace (tf - 4 + 4) with tf by lia. unfold kaddr, sizeof_trapframe, KERNBASE, PHYSTOP in Ha. rewrite u32_small by lia. reflexivity.
Qed.

(** A trap from user mode and back.  An interrupt, an exception or [int] in user mode
    comes, through the vector and [alltraps], to [trap] with a pointer to a frame
    that holds every register of the interrupted program, the number and the error
    code; and when [trap] returns, [trapret] loads every register from the frame as
    it then is. *)
Theorem trap_resumes n soft err from vadr tadr trap c c0 :
  placed text vadr (vector_code (tadr 0%nat) n) -> placed text tadr (alltraps_code trap) -> user_mode n (vadr 0%nat) c ->
  0 <= n < 256 -> 0 <= err < 4294967296 -> 0 <= from < 4294967296 -> 0 <= tadr 10%nat < 4294967296 ->
  deliver translate n soft (if errcode n then Some err else None) from c = Some c0 ->
  let tf := snd (tss c) - sizeof_trapframe in
  exists c1, steps c0 c1 /\ trap_called n (if errcode n then err else 0) from trap (tadr 10%nat) tf c c1 /\
    forall c2, trap_returned c1 c2 -> Z.land (t_cs (frame_at c2 tf)) 3 = 3 ->
      exists c3, steps c2 c3 /\ frame_of (frame_at c2 tf) (eip c3) c3 /\ mem c3 = mem c2.
Proof using Type.
  intros Hv Ht Hu Hn He Hf Ha Hd tf. destruct (trap_entry n soft err from vadr tadr trap c c0 Hv Ht Hu Hn He Hf Ha Hd) as (c1 & S1 & H1).
  exists c1. do 2 (split; [done|]). intros c2 [R1 R2 R3 R4] Hcs. pose proof (um_stack _ _ _ Hu) as [K1 K2].
  destruct (trap_exit tadr trap tf c2 Ht) as (c3 & S3 & F3 & M3 & _).
  - by rewrite R1, (tc_esp _ _ _ _ _ _ _ _ H1), (tc_back _ _ _ _ _ _ _ _ H1).
  - rewrite R2, (tc_esp _ _ _ _ _ _ _ _ H1). fold tf. lia.
  - done.
  - done.
  - unfold tf, kaddr, sizeof_trapframe. lia.
  - done.
  - by exists c3.
Qed.

(** *** Frames and memory *)

Lemma frame_ext c c' a : kmapped c -> kmapped c' -> kaddr a sizeof_trapframe ->
  agree (in_range (a - KERNBASE) sizeof_trapframe) (mem c') (mem c) -> frame_at c' a = frame_at c a.
Proof using Type.
  intros Hk Hk' [A1 A2] H. unfold in_range, agree, sizeof_trapframe in *.
  assert (H32 : forall o, 0 <= o <= 72 -> load32 c' (a + o) = load32 c (a + o)).
  { intros o Ho. unfold X86.load32. rewrite Hk, Hk' by lia. apply read32_ext. intros b Hb. unfold in_range in Hb. apply H. lia. }
  assert (H16 : forall o, 0 <= o <= 72 -> load16 c' (a + o) = load16 c (a + o)).
  { intros o Ho. unfold X86.load16. rewrite Hk, Hk' by lia. apply read16_ext. intros b Hb. apply H. lia. }
  specialize (H32 0 ltac:(lia)) as H0. rewrite Z.add_0_r in H0. unfold frame_at. f_equal; first [exact H0|apply H32; by vm_compute|apply H16; by vm_compute].
Qed.

(** Two processors with the same registers. *)
Record same_registers (c c' : cpu) : Prop := {
  sr_gpr : forall r, gpr c' r = gpr c r;
  sr_sel : forall s, sel c' s = sel c s;
  sr_eflags : eflags c' = eflags c
}.

Lemma frame_registers f ip c c' : frame_of f ip c -> frame_of f (eip c') c' -> same_registers c c' /\ eip c' = ip.
Proof using Type.
  intros [] []. split; [split|congruence].
  - intros []; congruence.
  - intros []; congruence.
  - congruence.
Qed.

(** *** The first program *)

(** initcode.S gets to its [int] with the number of [exec] in %eax and, above the
    place of the return address, the arguments that [sys_exec] fetches: the path
    and the argument vector. *)
Theorem initcode_calls_exec adr argv init exit c off : let e := gpr c ESP in
  placed text adr (initcode argv init exit) -> eip c = adr 0%nat -> 12 <= e < 4294967296 ->
  (forall a, e - 12 <= a < e -> phys_of translate (crs c) a = a + off) -> 0 <= argv < 4294967296 -> 0 <= init < 4294967296 ->
  exists c', steps c c' /\ eip c' = adr 4%nat /\ gpr c' EAX = SYS_exec /\ gpr c' ESP = e - 12 /\
    load32 c' (e - 12 + 4) = init /\ load32 c' (e - 12 + 8) = argv.
Proof using Type.
  destruct c as [g s cr ip fl gd id ts m ins outs]. intros e Hp Hi He Hph Ha Hn. subst e. cbn [gpr eip crs] in *. subst ip.
  eexists. split; [do 4 one_step Hp; apply rtc_refl|]. unfold X86.load32. cpu_simpl. rewrite !Hph by lia.
  split_and!; try done; [lia|by mem_read..].
Qed.
End Kernel.

(** ** Two stacks *)

(** Code at an address, one address for an instruction, and a processor that finds
    physical memory at [KERNBASE]. *)
Definition piece (base : Z) (code : list instr) (a : Z) : option (instr * Z) :=
  if a <? base then None else match code !! Z.to_nat (a - base) with Some i => Some (i, a + 1) | None => None end.
Definition ex_translate (cr3 a : Z) : Z := if a <? KERNBASE then a else a - KERNBASE.

Definition ex_swtch (a : Z) : option (instr * Z) := piece 0x80100000 swtch_code a.
Definition ex_sw_cpu (e : Z) (m : gmap Z Z) : cpu :=
  mk_cpu (fun r => match r with ESP => e | EBX => 11 | ESI => 12 | EDI => 13 | EBP => 14 | _ => 0 end) (fun _ => 8)
    (fun r => match r with CR0 => 0x80010001 | _ => 0 end) 0x80100000 0 (0, 0) [] (0, 0) m [] [].
(** The call [swtch(old, new)] from 0x80107777, with the stack pointer at [e]. *)
Definition ex_args (m : gmap Z Z) (e old new : Z) : gmap Z Z :=
  write32 (write32 (write32 m (e - KERNBASE) 0x80107777) (e + 4 - KERNBASE) old) (e + 8 - KERNBASE) new.

Lemma ex_swtch_placed : placed ex_swtch (fun k => 0x80100000 + Z.of_nat k) swtch_code.
Proof. intros k i Hk. do 13 (destruct k as [|k]; [by injection Hk as <-|]). done. Qed.

Lemma ex_at_swtch m e old new : kaddr (e - 16) 28 -> kaddr old 4 -> kaddr new 20 -> apart old 4 (e - 16) 20 -> apart new 20 (e - 16) 16 ->
  apart old 4 new 20 -> at_swtch ex_translate (fun k => 0x80100000 + Z.of_nat k) old new (ex_sw_cpu e (ex_args m e old new)).
Proof.
  intros H1 H2 H3 H4 H5 H6. pose proof H1 as [A1 A2]. pose proof H2 as [B1 B2]. pose proof H3 as [C1 C2]. unfold KERNBASE, PHYSTOP in *.
  split; try done.
  - intros a Ha. unfold phys_of, ex_translate. cbn. destruct (Z.ltb_spec a KERNBASE); [unfold KERNBASE in *; lia|done].
  - intros []; cbn; lia.
  - unfold X86.load32, phys_of, ex_translate. cbn -[write32 read32 Z.ltb KERNBASE]. destruct (Z.ltb_spec (e + 4) KERNBASE); [unfold KERNBASE in *; lia|].
    unfold ex_args. rewrite read32_write32_ne by lia. by apply read32_at32; [|lia].
  - unfold X86.load32, phys_of, ex_translate. cbn -[write32 read32 Z.ltb KERNBASE]. destruct (Z.ltb_spec (e + 8) KERNBASE); [unfold KERNBASE in *; lia|].
    unfold ex_args. by apply read32_at32; [|lia].
Qed.

Lemma swtch_returns_witness : exists c3, running c3 = mk_context 13 12 11 14 0x80107777 /\ gpr c3 ESP = 0x80200104.
Proof.
  destruct (swtch_returns ex_translate (fun _ _ => 0) ex_swtch (fun k => 0x80100000 + Z.of_nat k)
    (ex_sw_cpu 0x80200100 (ex_args ∅ 0x80200100 0x80300000 0x80201000)) 0x80300000 0x80201000) as (c1 & _ & _ & _ & O1 & W1 & _ & H).
  - exact ex_swtch_placed.
  - apply ex_at_swtch; by vm_compute; (done || (left; done) || (right; done)).
  - destruct (H (ex_sw_cpu 0x80201100 (ex_args (mem c1) 0x80201100 0x80300004 0x802000f0)) 0x80300004) as (c3 & _ & R3 & E3).
    + rewrite O1. apply ex_at_swtch; by vm_compute; (done || (left; done) || (right; done)).
    + rewrite O1. unfold context_at. unfold X86.load32, ctx_eip. rewrite (sw_crs _ _ W1). unfold phys_of, ex_translate. cbn -[write32 read32].
      f_equal; unfold ex_args; by rewrite !read32_write32_ne by first [left; vm_compute; discriminate|right; vm_compute; discriminate].
    + exists c3. split; [exact R3|exact E3].
Defined.
