(* ===== verification/AsmKernel.v ===== *)
(** * The assembly and the kernel together

    The code of Asm.v around the C functions of the model: a page fault and a
    system call from the user's instruction through [trap] and back to the user,
    and the first switch to a process that [allocproc] made.  The processor and the
    kernel model share the RAM; between the call of [trap] and its return the C
    code may also use the rest of its kernel stack. *)
From S2P Require Import Prelude Traps Memory KString Mmu State Kalloc.
From S2P Require Import Vm VmTables VmCrypt VmEnc VmClock VmDecrypt UserMem VmExample Proc Syscall SyscallProof Gates X86 Asm.

(** ** A page fault, from the instruction and back to it *)

Section Fault.
Context (translate : Z -> Z -> Z) (alu_flags : Z -> Z -> Z) (text : Z -> option (instr * Z)).
Context `{PL : Platform} `{FS : FsOps} `{SO : SysOps}.
#[local] Notation steps := (steps translate alu_flags text).
#[local] Notation load32 := (X86.load32 translate).

Lemma V2P_kaddr a n : 0 < n -> kaddr a n -> V2P a = a - KERNBASE.
Proof using Type. unfold kaddr, V2P, KERNBASE, PHYSTOP. intros Hn H. apply u32_small. lia. Qed.

(** The kernel's state with the RAM of a processor. *)
Lemma cur_ok_agree s me p m : cur_ok s me p -> (forall q, is_ptpage (phys s) (pgdir p) q -> agree (in_page q) (phys s) m) ->
  cur_ok (with_phys s m) me p.
Proof using Type. intros [H1 H2 H3 H4 H5] H. split; try done. by apply (uspace_agree (phys s)). Qed.

(** Memories that differ only inside [lo, lo + n), which is neither page table nor
    user page. *)
Definition differ_in (lo n : Z) (m m' : gmap Z Z) : Prop := forall b, ~ in_range lo n b -> read8 m' b = read8 m b.

Lemma differ_tables m m' d lo n : frame_apart_from_user m d lo n -> differ_in lo n m m' ->
  forall q, is_ptpage m d q -> agree (in_page q) m m'.
Proof using Type. intros Hf Hd q Hq b Hb. symmetry. apply Hd. intros Hin. exact (proj1 (Hf b Hin) q Hq Hb). Qed.

Lemma differ_plain m m' d lo n x : uspace m d -> frame_apart_from_user m d lo n -> differ_in lo n m m' -> uaddr x ->
  mapped (pte_of m d x) = true -> plain m' d x = plain m d x.
Proof using Type.
  intros Hus Hf Hd Hx Hm. pose proof (differ_tables m m' d lo n Hf Hd) as Ht. unfold plain, ubyte.
  rewrite (pte_of_agree m m' d (us_wf _ _ Hus) Ht x (uaddr_vaddr _ Hx)).
  rewrite Hd; [done|]. intros Hin. apply (proj2 (Hf _ Hin) x Hx Hm). unfold in_page, in_range, frame. pose proof (OFFSET_range x). lia.
Qed.

Lemma crypt_apart m m' d lo n : crypt_rel m m' d -> frame_apart_from_user m d lo n -> frame_apart_from_user m' d lo n.
Proof using Type.
  intros Hc Hf b Hb. destruct (Hf b Hb) as [H1 H2]. split.
  - intros q [->|(k & Hk & Hq)]; [apply H1; by left|]. apply H1. right. exists k. by rewrite <- (cr_tab _ _ _ Hc k Hk).
  - intros x Hx Hm. unfold frame. rewrite (cr_addr _ _ _ Hc x Hx). rewrite (cr_mapped _ _ _ Hc x Hx) in Hm. exact (H2 x Hx Hm).
Qed.

Lemma differ_apart m m' d lo n lo' n' : uspace m d -> frame_apart_from_user m d lo n -> differ_in lo n m m' ->
  lo <= lo' -> lo' + n' <= lo + n -> frame_apart_from_user m' d lo' n'.
Proof using Type.
  intros Hus Hf Hd H1 H2 b Hb. pose proof (differ_tables m m' d lo n Hf Hd) as Ht. assert (Hwf := us_wf _ _ Hus).
  destruct (Hf b) as [F1 F2]; [unfold in_range in *; lia|]. split.
  - intros q Hq. apply F1. by apply (is_ptpage_agree m m' d Ht).
  - intros x Hx. rewrite (pte_of_agree m m' d Hwf Ht x (uaddr_vaddr _ Hx)). by apply F2.
Qed.

(** The way back from [trap]: the frame is as it was, so the program goes on. *)
Lemma fault_back tadr trap_at tf c c1 c2 n err from s' : let top := tf + 76 in
  placed text tadr (alltraps_code trap_at) -> kaddr (top - 4096) 4096 -> kmapped translate c1 -> cpl c = 3 ->
  trap_called translate n err from trap_at (tadr 10%nat) tf c c1 -> trap_returned translate c1 c2 ->
  agree (in_range (V2P tf) 76) (phys s') (mem c1) -> differ_in (top - 4096 - KERNBASE) (4096 - 76) (phys s') (mem c2) ->
  exists c3, steps c2 c3 /\ same_registers c c3 /\ eip c3 = from /\ mem c3 = mem c2.
Proof using Type.
  intros top Ht [K1 K2] Hk1 Hc H1 [R1 R2 R3 R4] Hfr D2.
  assert (Hkf : kaddr tf 76) by (unfold kaddr, KERNBASE, PHYSTOP in *; unfold top in *; lia). rewrite (V2P_kaddr tf 76 eq_refl Hkf) in Hfr.
  assert (Ef : frame_at translate c2 tf = frame_at translate c1 tf).
  { apply frame_ext; try done. intros b Hb. change sizeof_trapframe with 76 in Hb. rewrite D2, Hfr; [done|done|].
    unfold in_range, top in *. lia. }
  destruct (trap_exit translate alu_flags text tadr trap_at tf c2 Ht) as (c3 & S3 & F3 & M3 & _).
  - by rewrite R1, (tc_esp _ _ _ _ _ _ _ _ _ H1), (tc_back _ _ _ _ _ _ _ _ _ H1).
  - rewrite R2, (tc_esp _ _ _ _ _ _ _ _ _ H1). lia.
  - done.
  - done.
  - exact Hkf.
  - rewrite Ef, (fo_cs _ _ _ (tc_frame _ _ _ _ _ _ _ _ _ H1)). exact Hc.
  - rewrite Ef in F3. destruct (frame_registers _ _ _ _ (tc_frame _ _ _ _ _ _ _ _ _ H1) F3) as [G1 G2]. by exists c3.
Qed.

(** C13. A user program does not notice that a page was encrypted.  When an
    instruction faults on an encrypted page that the program may access, the
    processor, the vector and [alltraps] come to [trap] with the frame as its
    argument; [trap] on the kernel state with that RAM returns, having decrypted
    the page; and when it has returned, [trapret] resumes the program at the
    faulting instruction with every register as it was, the page now present, and
    the plaintext of all its memory unchanged. *)
Theorem fault_transparent vadr tadr trap_at taddr cpuid err va c c0 s me p :
  let top := snd (tss c) in let tf := top - sizeof_trapframe in let d := pgdir p in
  placed text vadr (vector_code (tadr 0%nat) T_PGFLT) -> placed text tadr (alltraps_code trap_at) -> 0 <= tadr 10%nat < 4294967296 ->
  user_mode translate T_PGFLT (vadr 0%nat) c -> 0 <= err < 4294967296 -> 0 <= eip c < 4294967296 ->
  deliver translate T_PGFLT false (Some err) (eip c) c = Some c0 ->
  phys s = mem c -> cur_ok s me p -> cq_ok (phys s) p -> killed p = 0 -> uaddr va ->
  accessible (pte_of (phys s) d va) = true -> has (pte_of (phys s) d va) PTE_E = true ->
  kaddr (top - PGSIZE) PGSIZE -> frame_apart_from_user (phys s) d (V2P (top - PGSIZE)) PGSIZE ->
  exists c1 s' p', steps c0 c1 /\ eip c1 = trap_at /\ load32 c1 (gpr c1 ESP + 4) = tf /\
    trap taddr tf cpuid va (with_phys s (mem c1)) = Ret Back s' /\ accessed (with_phys s (mem c1)) me p s' p' /\
    forall c2, trap_returned translate c1 c2 -> differ_in (V2P (top - PGSIZE)) (PGSIZE - sizeof_trapframe) (phys s') (mem c2) ->
      exists c3, steps c2 c3 /\ same_registers c c3 /\ eip c3 = eip c /\ has (pte_of (mem c3) d va) PTE_P = true /\
        forall x, uaddr x -> mapped (pte_of (mem c) d x) = true -> plain (mem c3) d x = plain (mem c) d x.
Proof using Type.
  intros top tf d Hv Ht Ha Hu He Hi Hd Hph Hok Hq Hk Hva Hacc HE Hks Hap. rewrite Hph in *.
  pose proof Hks as [K1 K2]. rewrite (V2P_kaddr _ PGSIZE eq_refl Hks) in *. change PGSIZE with 4096 in *. change sizeof_trapframe with 76 in *.
  destruct (trap_entry translate alu_flags text T_PGFLT false err (eip c) vadr tadr trap_at c c0 Hv Ht Hu ltac:(done) He Hi Ha Hd) as (c1 & S1 & H1).
  fold top in H1. change (top - sizeof_trapframe) with tf in H1.
  assert (Hkf : kaddr tf 76) by (unfold kaddr, KERNBASE, PHYSTOP in *; unfold tf; lia).
  assert (Hk1 : kmapped translate c1) by (unfold kmapped; rewrite (tc_crs _ _ _ _ _ _ _ _ _ H1); apply (um_map _ _ _ _ Hu)).
  assert (Hd1 : differ_in (top - 4096 - KERNBASE) 4096 (mem c) (mem c1)).
  { intros b Hb. apply (tc_mem _ _ _ _ _ _ _ _ _ H1). unfold in_range, apart in *. unfold tf. lia. }
  pose proof (differ_tables _ _ _ _ _ Hap Hd1) as Hag. assert (Hus := co_us _ _ _ Hok). rewrite Hph in Hus. assert (Hwf := us_wf _ _ Hus).
  assert (Hpte : forall x, uaddr x -> pte_of (mem c1) d x = pte_of (mem c) d x) by (intros x Hx; by apply (pte_of_agree _ _ _ Hwf Hag), uaddr_vaddr).
  set (s1 := with_phys s (mem c1)).
  assert (Hok1 : cur_ok s1 me p) by (apply cur_ok_agree; [done|by rewrite Hph]).
  destruct (trap_serves_page_fault taddr s1 me p va tf cpuid Hok1) as (s' & p' & Et & Hac & HP & Hfr).
  - by apply (cq_ok_agree (mem c)).
  - done.
  - done.
  - unfold s1. cbn [phys with_phys]. by rewrite Hpte.
  - unfold s1. cbn [phys with_phys]. by rewrite Hpte.
  - pose proof (tc_trapno _ _ _ _ _ _ _ _ _ H1) as Hn. cbn [frame_at t_trapno] in Hn. unfold X86.load32 in Hn.
    rewrite (V2P_kaddr (tf + tf_trapno) 4 eq_refl) by (unfold kaddr, tf_trapno in *; lia).
    rewrite <- Hn. by rewrite Hk1 by (unfold kaddr, tf_trapno in *; lia).
  - rewrite (V2P_kaddr tf 76 eq_refl Hkf). apply (differ_apart (mem c) _ _ _ _ _ _ Hus Hap Hd1); unfold tf; change sizeof_trapframe with 76; lia.
  - exists c1, s', p'. split; [done|]. split; [apply (tc_eip _ _ _ _ _ _ _ _ _ H1)|].
    split; [rewrite (tc_esp _ _ _ _ _ _ _ _ _ H1); replace (tf - 8 + 4) with (tf - 4) by lia; apply (tc_arg _ _ _ _ _ _ _ _ _ H1)|].
    do 2 (split; [done|]). intros c2 R2 D2.
    assert (Hcr := ac_crypt _ _ _ _ _ Hac). cbn [phys with_phys s1] in Hcr, Hfr. fold d in Hcr. assert (Hus' := cr_us _ _ _ Hcr).
    assert (Hap1 := differ_apart _ _ _ _ _ (top - 4096 - KERNBASE) 4096 Hus Hap Hd1 ltac:(lia) ltac:(lia)).
    assert (Hap' := crypt_apart _ _ _ _ _ Hcr Hap1).
    assert (D2' : differ_in (top - 4096 - KERNBASE) 4096 (phys s') (mem c2)) by (intros b Hb; apply D2; unfold in_range in *; lia).
    assert (Etop : tf + 76 = top) by (unfold tf; change sizeof_trapframe with 76; lia).
    destruct (fault_back tadr trap_at tf c c1 c2 T_PGFLT _ (eip c) s' Ht ltac:(by rewrite Etop) Hk1 (um_cpl _ _ _ _ Hu) H1 R2 Hfr
      ltac:(by rewrite Etop)) as (c3 & S3 & G3 & E3 & M3).
    exists c3. do 3 (split; [done|]). rewrite M3. assert (Ht2 := differ_tables _ _ _ _ _ Hap' D2'). split.
    + rewrite (pte_of_agree _ _ _ (us_wf _ _ Hus') Ht2 va (uaddr_vaddr _ Hva)). exact HP.
    + intros x Hx Hm. rewrite <- (Hpte x Hx) in Hm.
      rewrite (differ_plain _ _ _ _ _ x Hus' Hap' D2' Hx) by (by rewrite (cr_mapped _ _ _ Hcr x Hx)).
      rewrite (cr_plain _ _ _ Hcr x Hx Hm). apply (differ_plain _ _ _ _ _ x Hus Hap Hd1 Hx). by rewrite <- Hpte.
Qed.

(** ** A system call, from the stub and back to its caller *)

(** [trap] on a call that does not give up the processor. *)
Lemma trap_call taddr tfp cpuid cr2 s me p num f v s2 p2 :
  read32 (phys s) (V2P (tfp + tf_trapno)) = T_SYSCALL -> read32 (phys s) (V2P (tfp + tf_eax)) = num -> 0 <= num < 2147483648 ->
  curproc s = Some me -> ptable s !! me = Some p -> killed p = 0 -> syscalls taddr num = Some f ->
  f (with_ptable s (<[me := set_tf p tfp]> (ptable s))) = Ret (Some v) s2 ->
  curproc s2 = Some me -> ptable s2 !! me = Some p2 -> tf p2 = tfp -> killed p2 = 0 ->
  trap taddr tfp cpuid cr2 s = Ret Back (with_phys s2 (write32 (phys s2) (V2P (tfp + tf_eax)) v)).
Proof using Type.
  intros Ht Hn Hr Hc Hp Hk Hf Ef Hc2 Hp2 Htf Hk2. assert (Hlt := lookup_lt_Some _ _ _ Hp).
  assert (Emy : forall s m, curproc s = Some m -> my s = Ret m s) by (intros ? ? E; unfold my; by rewrite E).
  assert (Ep : forall s m q, ptable s !! m = Some q -> get_proc m s = Ret q s) by (intros ? ? ? E; unfold get_proc; by rewrite E).
  unfold trap. rewrite (bind_Ret (kread32 _) _ s T_SYSCALL s) by (unfold kread32, gets; by rewrite Ht).
  change (T_SYSCALL =? T_SYSCALL) with true. cbn iota. unfold trap_syscall.
  rewrite (bind_Ret _ _ _ _ _ (Emy s me Hc)), (bind_Ret _ _ _ _ _ (Ep s me p Hp)), Hk. change (negb (0 =? 0)) with false. cbn iota.
  set (s1 := with_ptable s (<[me := set_tf p tfp]> (ptable s))) in *.
  rewrite (bind_Ret (upd_proc me _) _ s tt s1) by (unfold upd_proc; by rewrite Hp).
  assert (Hp1 : ptable s1 !! me = Some (set_tf p tfp)) by (by apply list_lookup_insert_eq).
  set (s3 := with_phys s2 (write32 (phys s2) (V2P (tfp + tf_eax)) v)).
  rewrite (bind_Ret (syscall taddr) _ s1 true s3).
  - cbn [negb]. rewrite (bind_Ret _ _ _ _ _ (Emy s3 me Hc2)), (bind_Ret _ _ _ _ _ (Ep s3 me p2 Hp2)), Hk2. done.
  - unfold syscall. rewrite (bind_Ret _ _ _ _ _ (Emy s1 me Hc)), (bind_Ret _ _ _ _ _ (Ep s1 me _ Hp1)). cbn [tf set_tf].
    rewrite (bind_Ret (kread32 _) _ s1 num s1) by (unfold kread32, gets, s1; cbn [phys with_ptable]; by rewrite Hn).
    rewrite s32_small, Hf by lia. rewrite (bind_Ret _ _ _ _ _ Ef), (bind_Ret _ _ _ _ _ (Ep s2 me p2 Hp2)), Htf. done.
Qed.

Definition with_eax (f : trapframe) (v : Z) : trapframe :=
  mk_trapframe (t_edi f) (t_esi f) (t_ebp f) (t_oesp f) (t_ebx f) (t_edx f) (t_ecx f) v (t_gs f) (t_fs f) (t_es f) (t_ds f) (t_trapno f)
    (t_err f) (t_eip f) (t_cs f) (t_eflags f) (t_esp f) (t_ss f).

Lemma read32_write32_any m a v : read32 (write32 m a v) a = u32 v.
Proof using Type.
  unfold read32, write32, u32. rewrite !read8_write8. repeat case_decide; try lia. unfold u8. clear. Z.div_mod_to_equations. lia.
Qed.

Lemma frame_eax c1 c2 tf m v : kmapped translate c1 -> kmapped translate c2 -> kaddr tf 76 ->
  agree (in_range (tf - KERNBASE) 76) m (mem c1) -> agree (in_range (tf - KERNBASE) 76) (mem c2) (write32 m (tf + tf_eax - KERNBASE) v) ->
  frame_at translate c2 tf = with_eax (frame_at translate c1 tf) (u32 v).
Proof using Type.
  intros Hk1 Hk2 [A1 A2] H1 H2. unfold agree, in_range, tf_eax in *.
  assert (H32 : forall o, 0 <= o <= 24 \/ 32 <= o <= 72 -> load32 c2 (tf + o) = load32 c1 (tf + o)).
  { intros o Ho. unfold X86.load32. rewrite Hk1, Hk2 by lia. transitivity (read32 (write32 m (tf + 28 - KERNBASE) v) (tf + o - KERNBASE)).
    - apply read32_ext. intros b Hb. unfold in_range in Hb. apply H2. lia.
    - rewrite read32_write32_ne by lia. apply read32_ext. intros b Hb. unfold in_range in Hb. apply H1. lia. }
  assert (H16 : forall o, 32 <= o <= 72 -> load16 translate c2 (tf + o) = load16 translate c1 (tf + o)).
  { intros o Ho. unfold X86.load16. rewrite Hk1, Hk2 by lia. transitivity (read16 (write32 m (tf + 28 - KERNBASE) v) (tf + o - KERNBASE)).
    - apply read16_ext. intros b Hb. apply H2. lia.
    - rewrite read16_over32 by lia. apply read16_ext. intros b Hb. apply H1. lia. }
  assert (He : load32 c2 (tf + 28) = u32 v).
  { unfold X86.load32. rewrite Hk2 by lia. rewrite <- (read32_write32_any m (tf + 28 - KERNBASE) v).
    apply read32_ext. intros b Hb. unfold in_range in Hb. apply H2. lia. }
  specialize (H32 0 ltac:(lia)) as H0. rewrite Z.add_0_r in H0. unfold frame_at, with_eax. cbn [t_edi t_esi t_ebp t_oesp t_ebx t_edx t_ecx t_gs t_fs t_es t_ds t_trapno t_err t_eip t_cs t_eflags t_esp t_ss].
  f_equal; first [exact H0|exact He|apply H32; unfold tf_eip, tf_eflags, tf_esp, tf_trapno; lia|apply H16; by vm_compute].
Qed.

(** The caller of the stub goes on, with the result in %eax and everything else as
    it was. *)
Record call_returned (v : Z) (c c' : cpu) : Prop := {
  rt_eax : gpr c' EAX = u32 v;
  rt_esp : gpr c' ESP = u32 (gpr c ESP + 4);
  rt_gpr : forall r, r <> EAX -> r <> ESP -> gpr c' r = gpr c r;
  rt_sel : forall s, sel c' s = sel c s;
  rt_eflags : eflags c' = eflags c;
  rt_eip : eip c' = load32 c' (gpr c ESP)
}.

(** The stub's [movl] and [int]. *)
Definition called (num back : Z) (c : cpu) : cpu := set_eip back (set_gpr EAX num c).

Lemma stub_enter num sadr vec c : placed text sadr (SYSCALL num) -> eip c = sadr 0%nat -> 0 <= num < 2147483648 ->
  user_mode translate T_SYSCALL vec c -> (exists g, idt c !! Z.to_nat T_SYSCALL = Some g /\ may_enter 3 g = true) ->
  exists c0, steps c c0 /\ deliver translate T_SYSCALL true None (sadr 2%nat) (called num (sadr 1%nat) c) = Some c0 /\
    user_mode translate T_SYSCALL vec (called num (sadr 1%nat) c).
Proof using Type.
  intros Hs Hi Hn Hu (g & Hg & Hm). set (c' := called num (sadr 1%nat) c).
  assert (Hu' : user_mode translate T_SYSCALL vec c').
  { destruct Hu as [U1 U2 U3 U4 U5 U6 U7 U8]. split; try done. intros r. unfold c', called, set_gpr, set_eip. cbn [gpr].
    destruct r; cbn [reg_eqb]; first [apply U3|lia]. }
  assert (Hd : exists c0, deliver translate T_SYSCALL true None (sadr 2%nat) c' = Some c0).
  { unfold deliver. change (idt c') with (idt c). change (cpl c') with (cpl c). rewrite Hg, (um_cpl _ _ _ _ Hu), Hm. cbn [negb andb]. eauto. }
  destruct Hd as [c0 Hd]. exists c0. split; [|done].
  eapply rtc_l; [unfold step; rewrite Hi; erewrite Hs by reflexivity; reflexivity|].
  eapply rtc_l; [|apply rtc_refl]. unfold step. cbn [eip set_eip]. erewrite Hs by reflexivity. cbn [exec]. rewrite u32_small by lia. exact Hd.
Qed.

(** [trapret], and the stub's [ret]. *)
Lemma call_back num sadr tadr trap_at tf c c1 c2 n err m v : let top := tf + 76 in let c' := called num (sadr 1%nat) c in
  placed text sadr (SYSCALL num) -> placed text tadr (alltraps_code trap_at) -> kaddr (top - 4096) 4096 -> kmapped translate c1 -> cpl c = 3 ->
  trap_called translate n err (sadr 2%nat) trap_at (tadr 10%nat) tf c' c1 -> trap_returned translate c1 c2 ->
  agree (in_range (tf - KERNBASE) 76) m (mem c1) ->
  differ_in (top - 4096 - KERNBASE) (4096 - 76) (write32 m (tf + tf_eax - KERNBASE) v) (mem c2) ->
  exists c3, steps c2 c3 /\ call_returned v c c3 /\ mem c3 = mem c2.
Proof using Type.
  intros top c' Hs Ht [K1 K2] Hk1 Hc H1 [R1 R2 R3 R4] Hfr D2.
  assert (Hkf : kaddr tf 76) by (unfold kaddr, KERNBASE, PHYSTOP in *; unfold top in *; lia).
  assert (Ef : frame_at translate c2 tf = with_eax (frame_at translate c1 tf) (u32 v)).
  { apply (frame_eax c1 c2 tf m v); try done. intros b Hb. apply D2. unfold in_range, top in *. lia. }
  pose proof (tc_frame _ _ _ _ _ _ _ _ _ H1) as F1.
  destruct (trap_exit translate alu_flags text tadr trap_at tf c2 Ht) as (c3 & S3 & F3 & M3 & _).
  - by rewrite R1, (tc_esp _ _ _ _ _ _ _ _ _ H1), (tc_back _ _ _ _ _ _ _ _ _ H1).
  - rewrite R2, (tc_esp _ _ _ _ _ _ _ _ _ H1). lia.
  - done.
  - done.
  - exact Hkf.
  - rewrite Ef. cbn [with_eax t_cs]. rewrite (fo_cs _ _ _ F1). exact Hc.
  - rewrite Ef in F3. destruct F1 as [A1 A2 A3 A4 A5 A6 A7 A8 A9 A10 A11 A12 A13 A14 A15 A16].
    destruct F3 as [B1 B2 B3 B4 B5 B6 B7 B8 B9 B10 B11 B12 B13 B14 B15 B16]. cbn in *.
    exists (set_eip (X86.top translate c3) (drop_word c3)). split; [|split; [|exact M3]].
    + transitivity c3; [exact S3|]. eapply rtc_l; [|apply rtc_refl]. unfold step. rewrite <- B15, A15. by erewrite Hs by reflexivity.
    + split; cbn; try congruence.
      * intros []; cbn; congruence.
      * intros []; cbn; congruence.
      * unfold X86.top, X86.load32. cbn. congruence.
Qed.

(** C11. A system call, from the stub to the return.  The stub of usys.S for number
    [num] comes to [trap] with the caller's stack pointer in the frame, where the
    arguments are fetched; if the function that [syscalls] has for [num] returns
    [v] and leaves the frame alone, [trap] returns and the stub returns to its
    caller with [v] in %eax and every other register as it was. *)
Theorem syscall_returns num sadr vadr tadr trap_at taddr cpuid cr2 c s me p f :
  let top := snd (tss c) in let tfp := top - sizeof_trapframe in
  placed text sadr (SYSCALL num) -> placed text vadr (vector_code (tadr 0%nat) T_SYSCALL) -> placed text tadr (alltraps_code trap_at) ->
  0 <= sadr 2%nat < 4294967296 -> 0 <= tadr 10%nat < 4294967296 -> 0 <= num < 2147483648 -> eip c = sadr 0%nat ->
  user_mode translate T_SYSCALL (vadr 0%nat) c -> (exists g, idt c !! Z.to_nat T_SYSCALL = Some g /\ may_enter 3 g = true) ->
  kaddr (top - PGSIZE) PGSIZE -> curproc s = Some me -> ptable s !! me = Some p -> killed p = 0 -> syscalls taddr num = Some f ->
  exists c1, steps c c1 /\ eip c1 = trap_at /\ load32 c1 (gpr c1 ESP + 4) = tfp /\ load32 c1 (tfp + tf_esp) = gpr c ESP /\
    forall v s2 p2, f (with_ptable (with_phys s (mem c1)) (<[me := set_tf p tfp]> (ptable s))) = Ret (Some v) s2 ->
      curproc s2 = Some me -> ptable s2 !! me = Some p2 -> tf p2 = tfp -> killed p2 = 0 ->
      agree (in_range (V2P tfp) sizeof_trapframe) (phys s2) (mem c1) ->
      exists s', trap taddr tfp cpuid cr2 (with_phys s (mem c1)) = Ret Back s' /\
        forall c2, trap_returned translate c1 c2 -> differ_in (V2P (top - PGSIZE)) (PGSIZE - sizeof_trapframe) (phys s') (mem c2) ->
          exists c3, steps c2 c3 /\ call_returned v c c3 /\ mem c3 = mem c2.
Proof using Type.
  intros top tfp Hs Hv Ht Hb Ha Hn Hi Hu Hg Hks Hc Hp Hk Hf.
  destruct (stub_enter num sadr (vadr 0%nat) c Hs Hi Hn Hu Hg) as (c0 & S0 & Hd & Hu').
  destruct (trap_entry translate alu_flags text T_SYSCALL true 0 (sadr 2%nat) vadr tadr trap_at _ c0 Hv Ht Hu' ltac:(done) ltac:(lia) Hb Ha Hd)
    as (c1 & S1 & H1).
  change (snd (tss (called num (sadr 1%nat) c)) - sizeof_trapframe) with tfp in H1. pose proof Hks as [K1 K2].
  rewrite (V2P_kaddr _ PGSIZE eq_refl Hks) in *. change PGSIZE with 4096 in *. change sizeof_trapframe with 76 in *.
  assert (Etop : tfp + 76 = top) by (unfold tfp; change sizeof_trapframe with 76; lia).
  assert (Hkf : kaddr tfp 76) by (unfold kaddr, KERNBASE, PHYSTOP in *; lia).
  assert (Hk1 : kmapped translate c1) by (unfold kmapped; rewrite (tc_crs _ _ _ _ _ _ _ _ _ H1); apply (um_map _ _ _ _ Hu)).
  assert (Hword : forall o, 0 <= o <= 72 -> read32 (mem c1) (V2P (tfp + o)) = load32 c1 (tfp + o)).
  { intros o Ho. unfold X86.load32. rewrite (V2P_kaddr (tfp + o) 4 eq_refl), Hk1 by (unfold kaddr, KERNBASE, PHYSTOP in *; lia). done. }
  exists c1. split; [by transitivity c0|]. split; [apply (tc_eip _ _ _ _ _ _ _ _ _ H1)|].
  split; [rewrite (tc_esp _ _ _ _ _ _ _ _ _ H1); replace (tfp - 8 + 4) with (tfp - 4) by lia; apply (tc_arg _ _ _ _ _ _ _ _ _ H1)|].
  split; [exact (fo_esp _ _ _ (tc_frame _ _ _ _ _ _ _ _ _ H1))|]. intros v s2 p2 Ef Hc2 Hp2 Htf Hk2 Hag.
  eexists. split.
  - apply (trap_call taddr tfp cpuid cr2 (with_phys s (mem c1)) me p num f v s2 p2); try done; cbn [phys with_phys].
    + rewrite Hword by (by vm_compute). exact (tc_trapno _ _ _ _ _ _ _ _ _ H1).
    + rewrite Hword by (by vm_compute). exact (fo_eax _ _ _ (tc_frame _ _ _ _ _ _ _ _ _ H1)).
  - intros c2 R2 D2. cbn [phys with_phys] in D2. rewrite (V2P_kaddr tfp 76 eq_refl Hkf) in Hag.
    rewrite (V2P_kaddr (tfp + tf_eax) 4 eq_refl) in D2 by (unfold kaddr, tf_eax, KERNBASE, PHYSTOP in *; lia).
    exact (call_back num sadr tadr trap_at tfp c c1 c2 T_SYSCALL _ (phys s2) v Hs Ht ltac:(by rewrite Etop) Hk1 (um_cpl _ _ _ _ Hu) H1 R2 Hag
      ltac:(by rewrite Etop)).
Qed.

(** ** The first steps of a new process *)

(** The stack that [allocproc] prepares. *)
Lemma prepare_stack s i q k : ptable s !! i = Some q -> k mod 4096 = 0 -> 2147483648 + 1048576 < k < 2147483648 + 234881024 ->
  0 <= ksym_forkret < 4294967296 -> 0 <= ksym_trapret < 4294967296 -> let top := k + KSTACKSIZE in
  exists s' p, (do* upd_proc i (fun p => set_kstack p k) in
      if k =? 0 then
        do* upd_proc i (fun p => set_state p UNUSED) in
        Prelude.ret None
      else
        let sp := u32 (k + KSTACKSIZE) in
        let sp := u32 (sp - sizeof_trapframe) in
        do* upd_proc i (fun p => set_tf p sp) in
        let sp := u32 (sp - 4) in
        do* kwrite32 sp ksym_trapret in
        let sp := u32 (sp - sizeof_context) in
        do* upd_proc i (fun p => set_context p sp) in
        do* kmodify_mem (fun m => memset m (V2P sp) 0 sizeof_context) in
        do* kwrite32 (u32 (sp + ctx_eip)) ksym_forkret in
        Prelude.ret (Some i)) s = Ret (Some i) s' /\
    ptable s' !! i = Some p /\ kstack p = k /\ tf p = top - 76 /\ State.context p = top - 100 /\
    read32 (phys s') (top - 100 + ctx_eip - KERNBASE) = ksym_forkret /\ read32 (phys s') (top - 80 - KERNBASE) = ksym_trapret.
Proof using Type.
  intros Hq Hal Hb Hs1 Hs2 top. assert (Hlt := lookup_lt_Some _ _ _ Hq).
  assert (Eu : forall s p f, ptable s !! i = Some p -> upd_proc i f s = Ret tt (with_ptable s (<[i := f p]> (ptable s))))
    by (intros ? ? ? E; unfold upd_proc; by rewrite E).
  erewrite (bind_Ret (upd_proc i _)) by (apply Eu; exact Hq). destruct (Z.eqb_spec k 0); [lia|].
  cbv zeta. change KSTACKSIZE with 4096 in *. change sizeof_trapframe with 76. change sizeof_context with 20. unfold ctx_eip. u32_norm.
  erewrite (bind_Ret (upd_proc i _)) by (apply Eu; by apply list_lookup_insert_eq). unfold kwrite32 at 1, modify. unfold bind at 1.
  erewrite (bind_Ret (upd_proc i _)) by (apply Eu; apply list_lookup_insert_eq; cbn; by rewrite length_insert).
  unfold kmodify_mem, kwrite32, modify. unfold bind, Prelude.ret.
  eexists _, _. split; [reflexivity|]. cbn [ptable with_phys with_ptable phys]. rewrite !list_insert_insert_eq.
  split; [by apply list_lookup_insert_eq|]. cbn [kstack tf State.context set_kstack set_tf set_context].
  split; [done|]. split; [lia|]. split; [unfold top; lia|]. unfold V2P, KERNBASE. u32_norm. split.
  - apply read32_at32; [unfold top; lia|done].
  - rewrite read32_write32_ne by (unfold top; lia).
    transitivity (read32 (write32 (phys s) (k + 4096 - 76 - 4 - 2147483648) ksym_trapret) (top - 80 - 2147483648));
      [|apply read32_at32; [unfold top; lia|done]].
    apply read32_ext. intros b Hbb. rewrite read8_memset by lia. by rewrite decide_False by (unfold in_range, top in *; lia).
Qed.

Lemma allocproc_stack s i q k l : kmem_inv s (k :: l) -> ptable_lock s = false -> find_proc (is_state UNUSED) (ptable s) 0 = Some i ->
  ptable s !! i = Some q -> 0 <= ksym_forkret < 4294967296 -> 0 <= ksym_trapret < 4294967296 ->
  let top := k + KSTACKSIZE in
  exists s' p, allocproc s = Ret (Some i) s' /\ ptable s' !! i = Some p /\ kstack p = k /\ tf p = top - 76 /\ State.context p = top - 100 /\
    read32 (phys s') (top - 100 + ctx_eip - KERNBASE) = ksym_forkret /\ read32 (phys s') (top - 80 - KERNBASE) = ksym_trapret.
Proof using Type.
  intros Hm Hlk Hf Hq Hs1 Hs2 top. assert (Hlt := lookup_lt_Some _ _ _ Hq).
  assert (Hpg : page_ok k) by (exact (proj1 (proj2 (proj1 Hm)))). pose proof (page_ok_bounds k Hpg) as Hb. pose proof (page_ok_nonzero k Hpg) as Hnz.
  destruct Hpg as (Hal & _ & _). unfold KERNLINK, KERNBASE, EXTMEM, PHYSTOP in Hb.
  assert (Eu : forall s p f, ptable s !! i = Some p -> upd_proc i f s = Ret tt (with_ptable s (<[i := f p]> (ptable s))))
    by (intros ? ? ? E; unfold upd_proc; by rewrite E).
  assert (Hins : forall (t : list proc) p, length t = length (ptable s) -> <[i := p]> t !! i = Some p) by (intros; apply list_lookup_insert_eq; lia).
  assert (Ek : forall s', kmem_inv s' (k :: l) -> exists s'', kalloc s' = Ret k s'' /\ ptable s'' = ptable s' /\ curproc s'' = curproc s')
    by (intros s' Hm'; destruct (kalloc_cons s' k l Hm') as [E _]; eexists; split; [exact E|done]).
  unfold allocproc. rewrite (bind_Ret acquire_ptable _ s tt (with_ptable_lock s true)) by (unfold acquire_ptable; by rewrite Hlk).
  set (s0 := with_ptable_lock s true). unfold gets at 1. unfold bind at 1. change (ptable s0) with (ptable s). rewrite Hf.
  erewrite (bind_Ret (upd_proc i _)) by (apply Eu; exact Hq). unfold gets at 1. unfold bind at 1.
  erewrite (bind_Ret (upd_proc i _)) by (apply Eu; by apply Hins). unfold modify at 1. unfold bind at 1.
  unfold release_ptable at 1. unfold bind at 1. cbn [ptable_lock with_nextpid with_ptable s0 with_ptable_lock].
  match goal with |- context [bind kalloc _ ?x] => destruct (Ek x Hm) as (s2 & E2 & T2 & _); rewrite (bind_Ret _ _ _ _ _ E2) end.
  cbn [ptable with_ptable_lock with_nextpid with_ptable] in T2. rewrite list_insert_insert_eq in T2. change (ptable s0) with (ptable s) in T2.
  clear E2 Ek. set (q2 := set_pid _ _) in T2. assert (Hq2 : ptable s2 !! i = Some q2) by (rewrite T2; by apply Hins).
  exact (prepare_stack s2 i q2 k Hq2 Hal Hb Hs1 Hs2).
Qed.

(** C37. From [allocproc] to the first instruction of the program: the context that
    [allocproc] leaves makes the scheduler's [swtch] enter [forkret], whose return
    enters [trapret], and that loads the registers from the process's trap frame. *)
Theorem new_process_starts adr tadr s i q k l :
  kmem_inv s (k :: l) -> ptable_lock s = false -> find_proc (is_state UNUSED) (ptable s) 0 = Some i -> ptable s !! i = Some q ->
  0 <= ksym_forkret < 4294967296 -> 0 <= ksym_trapret < 4294967296 ->
  placed text adr swtch_code -> placed text tadr trapret_code -> tadr 0%nat = ksym_trapret ->
  exists s' p, allocproc s = Ret (Some i) s' /\ ptable s' !! i = Some p /\ kstack p = k /\
    tf p = k + KSTACKSIZE - sizeof_trapframe /\ State.context p = tf p - 4 - sizeof_context /\
    forall c old, at_swtch translate adr old (State.context p) c -> agree (in_range (V2P (kstack p)) KSTACKSIZE) (mem c) (phys s') ->
      apart old 4 (kstack p) KSTACKSIZE -> apart (gpr c ESP - 16) 16 (kstack p) KSTACKSIZE ->
      exists c1, steps c c1 /\ eip c1 = ksym_forkret /\ load32 c1 (gpr c1 ESP) = ksym_trapret /\ gpr c1 ESP + 4 = tf p /\
        load32 c1 old = gpr c ESP - 16 /\
        forall c2, eip c2 = load32 c1 (gpr c1 ESP) -> gpr c2 ESP = gpr c1 ESP + 4 -> kmapped translate c2 -> cpl c2 = 0 ->
          Z.land (t_cs (frame_at translate c2 (tf p))) 3 = 3 ->
          exists c3, steps c2 c3 /\ frame_of (frame_at translate c2 (tf p)) (eip c3) c3 /\ mem c3 = mem c2.
Proof using Type.
  intros Hm Hlk Hf Hq Hs1 Hs2 Hsw Htr Hta. assert (Hpg : page_ok k) by (exact (proj1 (proj2 (proj1 Hm)))).
  pose proof (page_ok_bounds k Hpg) as Hb. pose proof (page_ok_V2P k Hpg) as Hv. destruct Hpg as (Hal & _ & _). unfold KERNLINK, EXTMEM in Hb.
  destruct (allocproc_stack s i q k l Hm Hlk Hf Hq Hs1 Hs2) as (s' & p & E & Hp & Hk & Htf & Hcx & Hfr & Htp). exists s', p.
  do 4 (split; [done|]). split; [rewrite Htf, Hcx; change sizeof_context with 20; lia|]. intros c old Hat Hag Ho He. change KSTACKSIZE with 4096 in *. rewrite Hk, ?Hv in *. rewrite Hcx in Hat.
  pose proof (as_map _ _ _ _ _ Hat) as Hmap. pose proof (as_stack _ _ _ _ _ Hat) as Hst. pose proof (as_kold _ _ _ _ _ Hat) as Hko.
  unfold kaddr, apart, in_range, KERNBASE, PHYSTOP, ctx_eip in *.
  assert (Hrd : forall o, 0 <= o <= 4092 -> read32 (mem c) (k + o - 2147483648) = read32 (phys s') (k + o - 2147483648))
    by (intros o Ho'; apply read32_ext; intros b Hbb; unfold in_range in Hbb; apply Hag; lia).
  destruct (swtch_run translate alu_flags text adr c old _ Hsw Hat) as (c1 & S1 & R1 & E1 & O1 & _ & [_ W1 _ _ _] & M1).
  injection R1 as _ _ _ _ R1. unfold apart, KERNBASE in M1. exists c1. split; [done|].
  assert (Hmap1 : kmapped translate c1) by (unfold kmapped; by rewrite W1).
  assert (Hdiv : k + 4096 <= 2147483648 + 234881024) by (Z.div_mod_to_equations; lia).
  assert (Ht1 : load32 c1 (k + 4096 - 80) = ksym_trapret).
  { unfold X86.load32. rewrite Hmap1 by (unfold KERNBASE, PHYSTOP; lia). unfold KERNBASE. rewrite <- Htp.
    replace (k + 4096 - 80 - 2147483648) with (k + 4016 - 2147483648) by lia. rewrite <- (Hrd 4016 ltac:(lia)). apply read32_ext. intros b Hbb. unfold in_range in Hbb. apply M1; lia. }
  assert (E1' : gpr c1 ESP = k + 4096 - 80) by (rewrite E1; lia). rewrite E1'.
  split; [|split; [exact Ht1|split; [lia|split; [exact O1|]]]].
  - rewrite R1. unfold X86.load32, ctx_eip. rewrite Hmap by (unfold KERNBASE, PHYSTOP; lia). unfold KERNBASE. rewrite <- Hfr.
    replace (k + 4096 - 100 + 16 - 2147483648) with (k + 4012 - 2147483648) by lia. by apply Hrd.
  - intros c2 I2 E2 K2 C2 Hcs. rewrite Ht1, <- Hta in I2. replace (k + 4096 - 80 + 4) with (tf p) in E2 by lia. rewrite <- E2 in Hcs |- *.
    destruct (trapret_run translate alu_flags text tadr c2 Htr I2 K2 C2) as (c3 & S3 & F3 & M3 & _); [|exact Hcs|by exists c3].
    unfold kaddr, sizeof_trapframe, KERNBASE, PHYSTOP. lia.
Qed.
End Fault.

(** ** A processor that faults on the encrypted page of the example *)

Definition ex_text (a : Z) : option (instr * Z) :=
  match piece 0x80100000 (alltraps_code 0x80108000) a with
  | Some r => Some r
  | None => piece 0x80104000 (vector_code 0x80100000 T_PGFLT) a
  end.
Definition ex_cpu : cpu :=
  mk_cpu (fun r => match r with EAX => 5 | ESP => 0x1ff0 | _ => 7 end)
    (fun s => match s with CS => 0x1b | FS | GS => 0 | _ => 0x23 end)
    (fun r => match r with CR0 => 0x80010001 | _ => 0 end) 0x40 0x202 (0, 0)
    (replicate 256 (SETGATE 0 (Z.shiftl SEG_KCODE 3) 0x80104000 0)) (0x10, 0x80206000) ex_mem [] [].

Lemma ex_placed : placed ex_text (fun k => 0x80100000 + Z.of_nat k) (alltraps_code 0x80108000) /\
  placed ex_text (fun k => 0x80104000 + Z.of_nat k) (vector_code 0x80100000 T_PGFLT).
Proof.
  split; intros k i Hk.
  - do 18 (destruct k as [|k]; [by injection Hk as <-|]). done.
  - do 2 (destruct k as [|k]; [by injection Hk as <-|]). done.
Qed.

Lemma ex_user_mode : user_mode ex_translate T_PGFLT 0x80104000 ex_cpu.
Proof.
  split.
  - done.
  - intros a Ha. unfold phys_of, ex_translate. cbn. destruct (Z.ltb_spec a KERNBASE); [unfold KERNBASE in *; lia|done].
  - intros []; cbn; lia.
  - intros []; cbn; lia.
  - cbn. lia.
  - by split; vm_compute.
  - cbn. lia.
  - eexists. by split.
Qed.

Lemma ex_stack_apart : frame_apart_from_user ex_mem ex_dir (V2P 0x80205000) PGSIZE.
Proof.
  intros b Hb. change (V2P 0x80205000) with 0x205000 in Hb. unfold in_range in Hb. change PGSIZE with 4096 in Hb. split.
  - intros q Hq Hin. apply ex_ptpage in Hq.
    unfold in_page, in_range, KERNBASE in Hin. destruct Hq as [-> | ->]; unfold ex_dir, ex_table in *; lia.
  - intros x Hx. rewrite ex_pte by done. intros Hm Hin. unfold in_page, in_range, frame, KERNBASE in Hin.
    revert Hm Hin. repeat case_decide; try done; intros _ Hin;
      [change (PTE_ADDR 0x202007) with 0x202000 in Hin|change (PTE_ADDR 0x203406) with 0x203000 in Hin
      |change (PTE_ADDR 0x204003) with 0x204000 in Hin]; lia.
Qed.

(** The processor when [trap] has come back, its memory what the kernel left. *)
Definition ex_back (c1 : cpu) (m : gmap Z Z) : cpu :=
  mk_cpu (fun _ => gpr c1 ESP + 4) (fun _ => 8) (crs ex_cpu) (load32 ex_translate c1 (gpr c1 ESP)) 0 (0, 0) [] (0, 0) m [] [].

Lemma fault_transparent_witness : exists c3, same_registers ex_cpu c3 /\ eip c3 = 0x40 /\ has (pte_of (mem c3) ex_dir 0x1000) PTE_P = true.
Proof.
  pose (PL := ex_platform). pose (FS := SyscallProof.ex_fs). pose (SO := SyscallProof.ex_sys). pose proof ex_placed as [P1 P2].
  destruct (fault_transparent ex_translate (fun _ _ => 0) ex_text (fun k => 0x80104000 + Z.of_nat k) (fun k => 0x80100000 + Z.of_nat k)
    0x80108000 0 0 4 0x1000 ex_cpu) with (c0 := default ex_cpu (deliver ex_translate T_PGFLT false (Some 4) 0x40 ex_cpu))
    (s := ex_state) (me := 0%nat) (p := ex_proc) as (c1 & s' & p' & S1 & _ & _ & _ & _ & H).
  - exact P2.
  - exact P1.
  - cbn. lia.
  - exact ex_user_mode.
  - lia.
  - cbn. lia.
  - reflexivity.
  - reflexivity.
  - exact ex_cur_ok.
  - exact ex_cq_ok.
  - reflexivity.
  - by vm_compute.
  - by vm_compute.
  - by vm_compute.
  - by split; vm_compute.
  - exact ex_stack_apart.
  - destruct (H (ex_back c1 (phys s'))) as (c3 & _ & G3 & E3 & P3 & _).
    + split; [reflexivity|reflexivity| |reflexivity]. exact (um_map _ _ _ _ ex_user_mode).
    + intros b _. reflexivity.
    + exists c3. split; [exact G3|]. split; [exact E3|exact P3].
Defined.

(** ** A processor that calls [getpid] *)

Definition ex_call_text (a : Z) : option (instr * Z) :=
  match piece 0x80100000 (alltraps_code 0x80108000) a with
  | Some r => Some r
  | None => match piece 0x80104000 (vector_code 0x80100000 T_SYSCALL) a with
            | Some r => Some r
            | None => piece 0x40 (SYSCALL SYS_getpid) a
            end
  end.
Definition ex_vectors : list Z := replicate 256 0x80104000.
Definition ex_caller : cpu :=
  mk_cpu (gpr ex_cpu) (sel ex_cpu) (crs ex_cpu) 0x40 0x202 (0, 0)
    (tvinit ex_vectors (replicate 256 (SETGATE 0 0 0 0))) (0x10, 0x80206000) ex_mem [] [].

Lemma ex_call_placed : placed ex_call_text (fun k => 0x80100000 + Z.of_nat k) (alltraps_code 0x80108000) /\
  placed ex_call_text (fun k => 0x80104000 + Z.of_nat k) (vector_code 0x80100000 T_SYSCALL) /\
  placed ex_call_text (fun k => 0x40 + Z.of_nat k) (SYSCALL SYS_getpid).
Proof.
  split_and!; intros k i Hk.
  - do 18 (destruct k as [|k]; [by injection Hk as <-|]). done.
  - do 3 (destruct k as [|k]; [by injection Hk as <-|]). done.
  - do 3 (destruct k as [|k]; [by injection Hk as <-|]). done.
Qed.

Lemma ex_caller_mode : user_mode ex_translate T_SYSCALL 0x80104000 ex_caller.
Proof.
  destruct ex_user_mode as [U1 U2 U3 U4 U5 U6 U7 _]. split; try done. destruct (tvinit_gates ex_vectors (replicate 256 (SETGATE 0 0 0 0)) T_SYSCALL)
    as (g & H1 & H2 & H3 & _); [done|done|by apply Forall_replicate; lia|done|]. exists g. split; [exact H1|]. split; [|done].
  injection H2 as H2. exact H2.
Qed.

Lemma syscall_returns_witness : exists c3, call_returned ex_translate 7 ex_caller c3.
Proof.
  pose (PL := ex_platform). pose (FS := SyscallProof.ex_fs). pose (SO := SyscallProof.ex_sys). pose proof ex_call_placed as (P1 & P2 & P3).
  destruct (syscall_returns ex_translate (fun _ _ => 0) ex_call_text SYS_getpid (fun k => 0x40 + Z.of_nat k) (fun k => 0x80104000 + Z.of_nat k)
    (fun k => 0x80100000 + Z.of_nat k) 0x80108000 0 0 0 ex_caller (with_ptable ex_state [set_pid ex_proc 7]) 0%nat (set_pid ex_proc 7) sys_getpid) as (c1 & S1 & _ & _ & _ & H).
  - exact P3.
  - exact P2.
  - exact P1.
  - cbn. lia.
  - cbn. lia.
  - unfold SYS_getpid. lia.
  - reflexivity.
  - exact ex_caller_mode.
  - eexists. split; [vm_compute; reflexivity|reflexivity].
  - by split; vm_compute.
  - reflexivity.
  - reflexivity.
  - reflexivity.
  - reflexivity.
  - destruct (H 7 (with_ptable (with_phys ex_state (mem c1)) [set_tf (set_pid ex_proc 7) 0x80205fb4]) (set_tf (set_pid ex_proc 7) 0x80205fb4)) as (s' & _ & H').
    + reflexivity.
    + reflexivity.
    + reflexivity.
    + reflexivity.
    + reflexivity.
    + intros b _. reflexivity.
    + destruct (H' (ex_back c1 (phys s'))) as (c3 & _ & R3 & _).
      * split; [reflexivity|reflexivity| |reflexivity]. exact (um_map _ _ _ _ ex_user_mode).
      * intros b _. reflexivity.
      * exists c3. exact R3.
Defined.

(** ** The first process of a machine with one free page *)

Definition ex_start_text (a : Z) : option (instr * Z) :=
  match piece 0x80100000 swtch_code a with Some r => Some r | None => piece 0x80105000 trapret_code a end.
Definition ex_embryo : kstate :=
  mk_kstate ∅ (mk_kmem false false 0x80300000) false [zero_proc] None 1 None 0
    0x200000 0 0 0 (mk_segdesc 0 0 0 0 0 0 0 0 0 0 0 0 0) 0 false.

Lemma new_process_starts_witness : exists c1, eip c1 = 0x80103000 /\ gpr c1 ESP = 0x80300fb0.
Proof.
  pose (PL := ex_platform). pose (FS := SyscallProof.ex_fs).
  destruct (new_process_starts ex_translate (fun _ _ => 0) ex_start_text (fun k => 0x80100000 + Z.of_nat k) (fun k => 0x80105000 + Z.of_nat k)
    ex_embryo 0 zero_proc 0x80300000 []) as (s' & p & _ & _ & Hk & Htf & Hcx & H).
  - split; [|split; [apply NoDup_singleton|reflexivity]]. split; [reflexivity|]. split; [|reflexivity]. by split_and!; vm_compute.
  - reflexivity.
  - reflexivity.
  - reflexivity.
  - by split; vm_compute.
  - by split; vm_compute.
  - intros k i E. do 13 (destruct k as [|k]; [by injection E as <-|]). done.
  - intros k i E. do 7 (destruct k as [|k]; [by injection E as <-|]). done.
  - reflexivity.
  - rewrite Hcx, Htf, Hk in H. destruct (H (ex_sw_cpu 0x80200100 (ex_args (phys s') 0x80200100 0x80200200 0x80300f9c)) 0x80200200) as (c1 & _ & I1 & _ & E1 & _).
    + apply ex_at_swtch; by vm_compute; (done || (left; done) || (right; done)).
    + intros b Hb. unfold in_range in Hb. change (V2P 0x80300000) with 0x300000 in Hb. change KSTACKSIZE with 4096 in Hb. cbn [mem ex_sw_cpu].
      unfold ex_args. by rewrite !read8_write32_ne by (unfold in_range, KERNBASE; lia).
    + left. by vm_compute.
    + left. by vm_compute.
    + exists c1. split; [exact I1|]. change (gpr c1 ESP + 4 = 0x80300fb4) in E1. lia.
Defined.
