(* ===== verification/AsmBoot.v ===== *)
(** * The assembly that boots (bootasm.S, entry.S, entryother.S)

    From the first instruction of the boot sector to [bootmain], from the kernel's
    entry point to [main], and from the start of another processor to [mpenter]. *)
From S2P Require Import Prelude Memory Mmu State Gates Proc X86 Asm.

(** ** mmu.h and asm.h *)

Definition CR0_PE : Z := 0x1.
Definition CR0_WP : Z := 0x10000.
Definition CR0_PG : Z := 0x80000000.
Definition CR4_PSE : Z := 0x10.

(** A descriptor as eight bytes. *)
Definition word (x : Z) : list Z := [x mod 256; x / 256 mod 256].
Definition SEG_NULLASM : list Z := word 0 ++ word 0 ++ [0; 0; 0; 0].
Definition SEG_ASM (type base lim : Z) : list Z :=
  word (Z.land (Z.shiftr lim 12) 0xffff) ++ word (Z.land base 0xffff) ++
  [Z.land (Z.shiftr base 16) 0xff; Z.lor 0x90 type; Z.lor 0xC0 (Z.land (Z.shiftr lim 28) 0xf); Z.land (Z.shiftr base 24) 0xff].

(** [gdt], the same in bootasm.S and entryother.S. *)
Definition boot_gdt : list Z :=
  SEG_NULLASM ++ SEG_ASM (Z.lor STA_X STA_R) 0x0 0xffffffff ++ SEG_ASM STA_W 0x0 0xffffffff.

(** The fields of a descriptor, by the architecture's layout. *)
Definition descriptor (l : list Z) : segdesc :=
  let b := fun k : Z => default 0 (l !! Z.to_nat k) in
  mk_segdesc (b 0 + 256 * b 1) (b 2 + 256 * b 3) (b 4) (Z.land (b 5) 0xf) (Z.land (Z.shiftr (b 5) 4) 1) (Z.land (Z.shiftr (b 5) 5) 3)
    (Z.land (Z.shiftr (b 5) 7) 1) (Z.land (b 6) 0xf) (Z.land (Z.shiftr (b 6) 4) 1) (Z.land (Z.shiftr (b 6) 5) 1) (Z.land (Z.shiftr (b 6) 6) 1)
    (Z.land (Z.shiftr (b 6) 7) 1) (b 7).

(** The descriptors that the boot code uses are those of mmu.h for the kernel. *)
Theorem boot_gdt_flat : descriptor (take 8 (drop 8 boot_gdt)) = SEG (Z.lor STA_X STA_R) 0 0xffffffff 0 /\
  descriptor (take 8 (drop 16 boot_gdt)) = SEG STA_W 0 0xffffffff 0.
Proof. split; vm_compute; reflexivity. Qed.

(** ** bootasm.S *)

Definition bootasm (adr : nat -> Z) (gdtdesc bootmain : Z) : list instr := [
  cli;
  xorw EAX EAX;
  movw_s EAX DS;
  movw_s EAX ES;
  movw_s EAX SS;
  inb 0x64;
  testb_i 0x2 EAX;
  jnz (adr 5%nat);
  movb_i 0xd1 EAX;
  outb 0x64;
  inb 0x64;
  testb_i 0x2 EAX;
  jnz (adr 10%nat);
  movb_i 0xdf EAX;
  outb 0x60;
  lgdt_m gdtdesc;
  movl_from_cr CR0 EAX;
  orl_i CR0_PE EAX;
  movl_to_cr EAX CR0;
  ljmp (Z.shiftl SEG_KCODE 3) (adr 20%nat);
  movw_i (Z.shiftl SEG_KDATA 3) EAX;
  movw_s EAX DS;
  movw_s EAX ES;
  movw_s EAX SS;
  movw_i 0 EAX;
  movw_s EAX FS;
  movw_s EAX GS;
  movl_i (adr 0%nat) ESP;
  call bootmain;
  movw_i 0x8a00 EAX;
  movw EAX EDX;
  outw;
  movw_i 0x8ae0 EAX;
  outw;
  jmp (adr 34%nat)
].

(** ** entry.S *)

Definition multiboot_header : list Z := let magic := 0x1badb002 in let flags := 0 in [magic; flags; u32 (- magic - flags)].

Definition entry (entrypgdir stack main : Z) : list instr := [
  movl_from_cr CR4 EAX;
  orl_i CR4_PSE EAX;
  movl_to_cr EAX CR4;
  movl_i (V2P entrypgdir) EAX;
  movl_to_cr EAX CR3;
  movl_from_cr CR0 EAX;
  orl_i (Z.lor CR0_PG CR0_WP) EAX;
  movl_to_cr EAX CR0;
  movl_i (stack + KSTACKSIZE) ESP;
  movl_i main EAX;
  jmp_r EAX
].

(** ** entryother.S *)

(** [start] is the address of the first instruction. *)
Definition entryother (adr : nat -> Z) (gdtdesc : Z) : list instr := [
  cli;
  xorw EAX EAX;
  movw_s EAX DS;
  movw_s EAX ES;
  movw_s EAX SS;
  lgdt_m gdtdesc;
  movl_from_cr CR0 EAX;
  orl_i CR0_PE EAX;
  movl_to_cr EAX CR0;
  ljmp (Z.shiftl SEG_KCODE 3) (adr 10%nat);
  movw_i (Z.shiftl SEG_KDATA 3) EAX;
  movw_s EAX DS;
  movw_s EAX ES;
  movw_s EAX SS;
  movw_i 0 EAX;
  movw_s EAX FS;
  movw_s EAX GS;
  movl_from_cr CR4 EAX;
  orl_i CR4_PSE EAX;
  movl_to_cr EAX CR4;
  movl_abs (adr 0%nat - 12) EAX;
  movl_to_cr EAX CR3;
  movl_from_cr CR0 EAX;
  orl_i (Z.lor (Z.lor CR0_PE CR0_PG) CR0_WP) EAX;
  movl_to_cr EAX CR0;
  movl_abs (adr 0%nat - 4) ESP;
  call_m (adr 0%nat - 8);
  movw_i 0x8a00 EAX;
  movw EAX EDX;
  outw;
  movw_i 0x8ae0 EAX;
  outw;
  jmp (adr 32%nat)
].

(** The checksum of the multiboot header. *)
Lemma multiboot_checksum : u32 (foldr Z.add 0 multiboot_header) = 0.
Proof. reflexivity. Qed.

Lemma low8_mod o v : low8 o v mod 256 = v mod 256.
Proof. unfold low8. Z.div_mod_to_equations. lia. Qed.

Section Boot.
Context (translate : Z -> Z -> Z) (alu_flags : Z -> Z -> Z) (text : Z -> option (instr * Z)).
#[local] Notation steps := (steps translate alu_flags text).

(** An arithmetic instruction sets the zero flag by its result and leaves the
    interrupt flag alone. *)
Hypothesis alu_zero : forall f r, has (alu_flags f r) FL_ZF = (r =? 0).
Hypothesis alu_if : forall f r, has (alu_flags f r) FL_IF = has f FL_IF.

(** [while(inb(0x64) & 2);] *)
Lemma wait_ready code adr k : placed text adr code -> code !! k = Some (inb 0x64) -> code !! S k = Some (testb_i 0x2 EAX) ->
  code !! S (S k) = Some (jnz (adr k)) -> forall busy r rest g s cr fl gd id ts m outs,
  Forall (fun b => has (b mod 256) 2 = true) busy -> has (r mod 256) 2 = false ->
  exists g' fl', steps (mk_cpu g s cr (adr k) fl gd id ts m (busy ++ r :: rest) outs)
      (mk_cpu g' s cr (adr (3 + k)%nat) fl' gd id ts m rest outs) /\
    (forall x, x <> EAX -> g' x = g x) /\ has fl' FL_IF = has fl FL_IF.
Proof using alu_zero alu_if.
  intros Hp H1 H2 H3 busy. induction busy as [|b busy IH]; intros r rest g s cr fl gd id ts m outs Hb Hr.
  - eexists _, _. split; [|split].
    + eapply rtc_l; [unfold step; cbv beta iota delta [eip]; rewrite (Hp _ _ H1); cbn [app]; cpu_simpl; reflexivity|].
      eapply rtc_l; [unfold step; cbv beta iota delta [eip]; rewrite (Hp _ _ H2); cpu_simpl; reflexivity|].
      eapply rtc_l; [unfold step; cbv beta iota delta [eip]; rewrite (Hp _ _ H3); cpu_simpl; rewrite alu_zero, low8_mod|].
      * unfold has in Hr. apply negb_false_iff in Hr. rewrite Hr. reflexivity.
      * apply rtc_refl.
    + intros [] Hx; done.
    + apply alu_if.
  - apply Forall_cons in Hb as [Hb1 Hb].
    edestruct (IH r rest) as (g' & fl' & S' & G' & F'); [exact Hb|exact Hr|]. exists g', fl'. split; [|split].
    + eapply rtc_l; [unfold step; cbv beta iota delta [eip]; rewrite (Hp _ _ H1); cbn [app]; cpu_simpl; reflexivity|].
      eapply rtc_l; [unfold step; cbv beta iota delta [eip]; rewrite (Hp _ _ H2); cpu_simpl; reflexivity|].
      eapply rtc_l; [unfold step; cbv beta iota delta [eip]; rewrite (Hp _ _ H3); cpu_simpl; rewrite alu_zero, low8_mod|].
      * unfold has in Hb1. apply negb_true_iff in Hb1. rewrite Hb1. reflexivity.
      * exact S'.
    + intros x Hx. rewrite (G' x Hx). destruct x; done.
    + rewrite F'. apply alu_if.
Qed.

(** The processor as [bootmain] finds it. *)
Record in_bootmain (adr : nat -> Z) (gdtdesc bootmain : Z) (c c' : cpu) : Prop := {
  ib_eip : eip c' = bootmain;
  ib_cs : sel c' CS = Z.shiftl SEG_KCODE 3;
  ib_data : sel c' DS = Z.shiftl SEG_KDATA 3 /\ sel c' ES = Z.shiftl SEG_KDATA 3 /\ sel c' SS = Z.shiftl SEG_KDATA 3;
  ib_null : sel c' FS = 0 /\ sel c' GS = 0;
  ib_pe : crs c' CR0 = Z.lor (crs c CR0) CR0_PE;
  ib_gdt : gdtr c' = (read16 (mem c) gdtdesc, read32 (mem c) (gdtdesc + 2));
  ib_if : has (eflags c') FL_IF = false;
  ib_esp : gpr c' ESP = adr 0%nat - 4;
  ib_back : read32 (mem c') (adr 0%nat - 4) = adr 29%nat;
  ib_mem : forall a, a < adr 0%nat - 4 \/ adr 0%nat <= a -> read8 (mem c') a = read8 (mem c) a;
  ib_a20 : outputs c' = outputs c ++ [(0x64, 0xd1); (0x60, 0xdf)]
}.

Lemma clear_if_off f : has (clear_if f) FL_IF = false.
Proof using Type.
  unfold has, clear_if, FL_IF. apply negb_false_iff, Z.eqb_eq, Z.bits_inj'. intros n Hn. rewrite !Z.land_spec, Z.lnot_spec, Z.bits_0 by done.
  destruct (Z.testbit 0x200 n); [by rewrite andb_false_r|by rewrite andb_false_r].
Qed.

Lemma or_pe_bit x : Z.testbit (Z.lor x CR0_PE) 31 = Z.testbit x 31.
Proof using Type. rewrite Z.lor_spec. apply orb_false_r. Qed.

(** From the boot sector to [bootmain]. *)
Theorem bootasm_enters adr gdtdesc bootmain c busy1 r1 busy2 r2 rest :
  placed text adr (bootasm adr gdtdesc bootmain) -> eip c = adr 0%nat -> Z.testbit (crs c CR0) 31 = false ->
  0 <= gdtdesc < 65536 -> 4 <= adr 0%nat < 65536 -> 0 <= adr 29%nat < 4294967296 ->
  inputs c = busy1 ++ r1 :: busy2 ++ r2 :: rest ->
  Forall (fun b => has (b mod 256) 2 = true) busy1 -> has (r1 mod 256) 2 = false ->
  Forall (fun b => has (b mod 256) 2 = true) busy2 -> has (r2 mod 256) 2 = false ->
  exists c', steps c c' /\ in_bootmain adr gdtdesc bootmain c c'.
Proof using alu_zero alu_if.
  destruct c as [g s cr ip fl gd id ts m ins outs]. intros Hp Hi Hpg Hg Ha Hr Hin B1 R1 B2 R2. cbn [eip inputs crs] in *. subst ip ins.
  destruct (wait_ready _ adr 5 Hp eq_refl eq_refl eq_refl busy1 r1 (busy2 ++ r2 :: rest)
    (fun r' => if reg_eqb EAX r' then low16 (g EAX) (Z.lxor (g EAX mod 65536) (g EAX mod 65536)) else g r')
    (fun r' => if sreg_eqb SS r' then low16 (g EAX) (Z.lxor (g EAX mod 65536) (g EAX mod 65536)) mod 65536
      else if sreg_eqb ES r' then low16 (g EAX) (Z.lxor (g EAX mod 65536) (g EAX mod 65536)) mod 65536
      else if sreg_eqb DS r' then low16 (g EAX) (Z.lxor (g EAX mod 65536) (g EAX mod 65536)) mod 65536 else s r')
    cr (alu_flags (clear_if fl) (Z.lxor (g EAX mod 65536) (g EAX mod 65536))) gd id ts m outs B1 R1) as (g1 & fl1 & S1 & G1 & F1).
  rewrite alu_if, clear_if_off in F1.
  edestruct (wait_ready _ adr 10 Hp eq_refl eq_refl eq_refl busy2 r2 rest) as (g2 & fl2 & S2 & G2 & F2); [exact B2|exact R2|].
  eexists. split.
  - do 5 one_step Hp. etransitivity; [exact S1|]. do 2 one_step Hp. etransitivity; [exact S2|]. do 16 one_step Hp. apply rtc_refl.
  - rewrite F1 in F2. split; cpu_simpl; unfold phys_of; cbn [creg_eqb]; rewrite ?or_pe_bit, ?Hpg, ?low16_mod, ?low8_mod; try done.
    + by rewrite alu_if.
    + by apply read32_at32.
    + intros a Haa. by mem_read.
    + by rewrite <- app_assoc.
Qed.

(** *** Into paging *)

(** With [entrypgdir] in %cr3 the processor translates by that directory. *)
Context (entrypgdir_at : Z).
Hypothesis walks : forall a x, walk_large entrypgdir a = Some x -> translate (V2P entrypgdir_at) a = x.

(** Paging is on, with the first 4 MB where they are and at [KERNBASE]. *)
Record boot_paging (c : cpu) : Prop := {
  bp_cr3 : crs c CR3 = V2P entrypgdir_at;
  bp_wp : has (crs c CR0) CR0_WP = true;
  bp_pse : has (crs c CR4) CR4_PSE = true;
  bp_low : forall a, 0 <= a < 0x400000 -> phys_of translate (crs c) a = a;
  bp_high : forall a, KERNBASE <= a < KERNBASE + 0x400000 -> phys_of translate (crs c) a = a - KERNBASE
}.

Lemma has_lor_r x b f : has b f = true -> has (Z.lor x b) f = true.
Proof using Type.
  unfold has. rewrite !negb_true_iff, !Z.eqb_neq. intros H E. apply H. apply Z.bits_inj'. intros k Hk. rewrite Z.bits_0.
  assert (B : Z.testbit (Z.land (Z.lor x b) f) k = false) by (by rewrite E, Z.bits_0). rewrite Z.land_spec, Z.lor_spec in B. rewrite Z.land_spec.
  destruct (Z.testbit x k), (Z.testbit b k), (Z.testbit f k); done.
Qed.

Lemma paging_on cr x y : crs x CR3 = V2P entrypgdir_at -> crs x CR0 = Z.lor cr (Z.lor CR0_PG CR0_WP) -> crs x CR4 = Z.lor y CR4_PSE -> boot_paging x.
Proof using walks.
  intros H3 H0 H4. assert (Hpg : Z.testbit (crs x CR0) 31 = true) by (rewrite H0, Z.lor_spec; apply orb_true_r).
  split; [done|rewrite H0; by apply has_lor_r|rewrite H4; by apply has_lor_r|..]; intros a Ha; unfold phys_of; rewrite Hpg, H3; apply walks;
    unfold KERNBASE in *; rewrite entrypgdir_maps by lia.
  - by rewrite decide_True by lia.
  - by rewrite decide_False, decide_True by (unfold KERNBASE; lia).
Qed.

(** From the kernel's entry point to [main], on the boot stack and with paging. *)
Theorem entry_enters_main adr stack main c : placed text adr (entry entrypgdir_at stack main) -> eip c = adr 0%nat ->
  0 <= stack -> stack + KSTACKSIZE < 4294967296 -> 0 <= main < 4294967296 ->
  exists c', steps c c' /\ eip c' = main /\ gpr c' ESP = stack + KSTACKSIZE /\ boot_paging c' /\ mem c' = mem c /\ sel c' = sel c.
Proof using walks.
  destruct c as [g s cr ip fl gd id ts m ins outs]. intros Hp Hi Hs1 Hs2 Hm. cbn [eip] in Hi. subst ip. change KSTACKSIZE with 4096 in *.
  assert (Hv : u32 (V2P entrypgdir_at) = V2P entrypgdir_at) by apply u32_small, u32_range.
  eexists. split; [do 11 (eapply rtc_l; [unfold step; cbv beta iota delta [eip]; erewrite Hp by reflexivity; cpu_simpl; rewrite ?Hv; reflexivity|]); apply rtc_refl|].
  cpu_simpl. change KSTACKSIZE with 4096. rewrite !u32_small by lia. do 2 (split; [done|]). split; [|done].
  by apply (paging_on (cr CR0) _ (cr CR4)).
Qed.

(** The processor as [mpenter] finds it. *)
Record in_mpenter (gdtdesc stk mpenter : Z) (c c' : cpu) : Prop := {
  im_eip : eip c' = mpenter;
  im_esp : gpr c' ESP = stk - 4;
  im_paging : boot_paging c';
  im_pe : has (crs c' CR0) CR0_PE = true;
  im_cs : sel c' CS = Z.shiftl SEG_KCODE 3;
  im_data : sel c' DS = Z.shiftl SEG_KDATA 3 /\ sel c' ES = Z.shiftl SEG_KDATA 3 /\ sel c' SS = Z.shiftl SEG_KDATA 3;
  im_null : sel c' FS = 0 /\ sel c' GS = 0;
  im_gdt : gdtr c' = (read16 (mem c) gdtdesc, read32 (mem c) (gdtdesc + 2));
  im_if : has (eflags c') FL_IF = false
}.

(** Protected mode and paging. *)
Lemma other_paging adr gdtdesc c : placed text adr (entryother adr gdtdesc) -> eip c = adr 0%nat -> Z.testbit (crs c CR0) 31 = false ->
  0 <= gdtdesc < 65536 -> read32 (mem c) (adr 0%nat - 12) = V2P entrypgdir_at ->
  exists c', steps c c' /\ eip c' = adr 25%nat /\ mem c' = mem c /\ boot_paging c' /\ has (crs c' CR0) CR0_PE = true /\
    sel c' CS = Z.shiftl SEG_KCODE 3 /\ sel c' DS = Z.shiftl SEG_KDATA 3 /\ sel c' ES = Z.shiftl SEG_KDATA 3 /\ sel c' SS = Z.shiftl SEG_KDATA 3 /\
    sel c' FS = 0 /\ sel c' GS = 0 /\ gdtr c' = (read16 (mem c) gdtdesc, read32 (mem c) (gdtdesc + 2)) /\ has (eflags c') FL_IF = false.
Proof using alu_if walks.
  destruct c as [g s cr ip fl gd id ts m ins outs]. intros Hp Hi Hpg Hg M3. cbn [eip crs mem] in *. subst ip.
  eexists. split; [do 25 one_step Hp; apply rtc_refl|]. cpu_simpl. split; [done|]. split; [done|]. split.
  - apply (paging_on (Z.lor (Z.lor (cr CR0) CR0_PE) CR0_PE) _ (cr CR4)); cpu_simpl.
    + unfold phys_of. cbn [creg_eqb]. by rewrite or_pe_bit, Hpg.
    + by rewrite <- !Z.lor_assoc.
    + done.
  - unfold phys_of. cbn [creg_eqb]. rewrite Hpg, !alu_if, !low16_mod. split_and!; try done; [by apply has_lor_r|apply clear_if_off].
Qed.

(** The last two instructions. *)
Lemma other_call adr gdtdesc stk mpenter c : placed text adr (entryother adr gdtdesc) -> eip c = adr 25%nat -> boot_paging c ->
  12 <= adr 0%nat < 65536 -> KERNBASE + 4 <= stk <= KERNBASE + 0x400000 ->
  read32 (mem c) (adr 0%nat - 4) = stk -> read32 (mem c) (adr 0%nat - 8) = mpenter ->
  exists c', steps c c' /\ eip c' = mpenter /\ gpr c' ESP = stk - 4 /\ crs c' = crs c /\ sel c' = sel c /\ gdtr c' = gdtr c /\ eflags c' = eflags c.
Proof using Type.
  destruct c as [g s cr ip fl gd id ts m ins outs]. intros Hp Hi [_ _ _ Hl _] Ha Hs M1 M2. cbn [eip crs mem] in *. subst ip. unfold KERNBASE in Hs.
  eexists. split; [|split; [|split]].
  - one_step Hp. rewrite Hl, M1 by lia. one_step Hp. apply rtc_refl.
  - cpu_simpl. by rewrite Hl by lia.
  - done.
  - done.
Qed.

(** From the page that [startothers] filled to [mpenter]: the three words below the
    code are the new stack, the function and the page directory. *)
Theorem entryother_enters_mpenter adr gdtdesc stk mpenter c :
  placed text adr (entryother adr gdtdesc) -> eip c = adr 0%nat -> Z.testbit (crs c CR0) 31 = false ->
  12 <= adr 0%nat < 65536 -> 0 <= gdtdesc < 65536 -> KERNBASE + 4 <= stk <= KERNBASE + 0x400000 ->
  read32 (mem c) (adr 0%nat - 4) = stk -> read32 (mem c) (adr 0%nat - 8) = mpenter -> read32 (mem c) (adr 0%nat - 12) = V2P entrypgdir_at ->
  exists c', steps c c' /\ in_mpenter gdtdesc stk mpenter c c'.
Proof using alu_if walks.
  intros Hp Hi Hpg Ha Hg Hs M1 M2 M3. destruct (other_paging adr gdtdesc c Hp Hi Hpg Hg M3) as (c1 & S1 & I1 & E1 & P1 & PE1 & A1 & A2 & A3 & A4 & A5 & A6 & G1 & F1).
  rewrite <- E1 in M1, M2. destruct (other_call adr gdtdesc stk mpenter c1 Hp I1 P1 Ha Hs M1 M2) as (c2 & S2 & I2 & E2 & C2 & L2 & G2 & F2).
  exists c2. split; [by transitivity c1|]. split; rewrite ?L2, ?G2, ?F2, ?C2; try done.
  destruct P1 as [Q1 Q2 Q3 Q4 Q5]. split; by rewrite C2.
Qed.
End Boot.
