(* ===== verification/UserStep.v ===== *)
(** * The steps of a user process on the virtual memory system

    The testers on the kernel: loads and stores go through the page tables, a fault
    enters [trap], and a call stores its arguments on the user stack and enters
    [trap] as well.  Before each step the processor reads the page with the code and
    the top of the stack.  The console is the list of bytes written to it. *)
From S2P Require Import Prelude Memory KString Mmu Traps State Kalloc Vm VmExample Proc Syscall Exec Ulib Printf User Filters Testers.

(** ** A user process *)

Section Process.
Context `{PL : Platform} `{FS : FsOps} `{SO : SysOps}.

(** [&ticks], and the addresses of the code, the stack and the trap frame. *)
Context (ticks_addr text esp tfp : Z).

Definition user_trap (trapno cr2 : Z) : K unit :=
  do* kwrite32 (tfp + tf_trapno) trapno in
  do* kwrite16 (tfp + tf_cs) (Z.lor (Z.shiftl SEG_UCODE 3) DPL_USER) in
  do* kwrite32 (tfp + tf_esp) esp in
  let* r := trap ticks_addr tfp 0 cr2 in
  match r with Back => ret tt | _ => fault "the process is gone" end.

Definition user_load (va : Z) : K Z :=
  let* r := hw_load va in
  match r with
  | Some b => ret b
  | None =>
      do* user_trap T_PGFLT va in
      let* r := hw_load va in
      match r with Some b => ret b | None => fault "page fault" end
  end.

Definition user_store (va b : Z) : K unit :=
  let* ok := hw_touch va in
  do* (if ok then ret tt else user_trap T_PGFLT va) in
  ustore8 va b.

Fixpoint user_bytes (va : Z) (l : list Z) : K unit :=
  match l with
  | [] => ret tt
  | b :: l' => do* user_store va b in user_bytes (va + 1) l'
  end.

(** usys.S: the arguments are above the return address. *)
Definition user_call (num : Z) (args : list Z) : K Z :=
  do* user_bytes (esp + 4) (concat (le32 <$> args)) in
  do* kwrite32 (tfp + tf_eax) num in
  do* user_trap T_SYSCALL 0 in
  let* r := kread32 (tfp + tf_eax) in
  ret (s32 r).

Definition on_kernel {A} (u : K A) : M (kstate * list Z) A :=
  fun m => match u m.1 with
           | Ret a s => Ret a (s, m.2)
           | Panic msg => Panic msg
           | Fault msg => Fault msg
           | OutOfFuel => OutOfFuel
           end.

(** [putc] stores its character on the stack; a write to the console reads nothing
    but that page, which is in use anyway, and is not followed into the kernel. *)
Definition user_step (c : call) : M (kstate * list Z) (result c) :=
  do* on_kernel (user_load text) in
  do* on_kernel (user_load esp) in
  match c as c return M (kstate * list Z) (result c) with
  | c_write fd bytes =>
      do* on_kernel (user_bytes (esp + 64) bytes) in
      do* modify (fun m => (m.1, m.2 ++ bytes)) in
      ret (Z.of_nat (length bytes))
  | c_sbrk n => on_kernel (user_call SYS_sbrk [n])
  | c_load a => on_kernel (user_load a)
  | c_store a b => on_kernel (do* user_store a b in ret 0)
  | c_getpgtable entries num wsetOnly => on_kernel (user_call SYS_getpgtable [entries; num; wsetOnly])
  | c_dump_rawphymem pa buffer => on_kernel (user_call SYS_dump_rawphymem [pa; buffer])
  | _ => fault "not a call of the testers"
  end.
(** ** The loops over a page

    A loop over the bytes of a page whose translation is settled, with the accessed
    and dirty bits set, changes nothing but the bytes it stores. *)

Definition bytes_at (m : mem) (a w : Z) : bool :=
  bool_decide (m !! a = Some (u8 w)) && bool_decide (m !! (a + 1) = Some (u8 (w / 256))) &&
  bool_decide (m !! (a + 2) = Some (u8 (w / 65536))) && bool_decide (m !! (a + 3) = Some (u8 (w / 16777216))).

Definition settled (s : kstate) (va : Z) : bool :=
  match hw_leaf (phys s) (cr3 s) va with
  | Some a => bytes_at (phys s) a (hw_mark (read32 (phys s) a))
  | None => false
  end.

(** Where the byte at [va] lies. *)
Definition paddr (s : kstate) (va : Z) : Z :=
  match hw_leaf (phys s) (cr3 s) va with Some a => PTE_ADDR (read32 (phys s) a) + OFFSET va | None => 0 end.

Lemma bytes_at_id m a w : bytes_at m a w = true -> write32 m a w = m.
Proof using Type.
  unfold bytes_at. rewrite !andb_true_iff, !bool_decide_eq_true. intros (((H0 & H1) & H2) & H3).
  unfold write32, write8. rewrite (insert_id m), (insert_id m), (insert_id m), (insert_id m); done.
Qed.

Lemma with_phys_id s : with_phys s (phys s) = s.
Proof using Type. by destruct s. Qed.

Lemma hw_leaf_loads m c va a : hw_leaf m c va = Some a -> hw_leaf_load m c va = Some a.
Proof using Type.
  unfold hw_leaf, hw_leaf_load. destruct (has _ PTE_P); [|done]. destruct (has _ PTE_W); [|done]. cbn [andb].
  by destruct (has _ PTE_P), (has _ PTE_W).
Qed.

Lemma settled_load s va : settled s va = true -> user_load va s = Ret (read8 (phys s) (paddr s va)) s.
Proof using Type.
  unfold settled, paddr, user_load, hw_load. destruct (hw_leaf (phys s) (cr3 s) va) as [a|] eqn:E; [|done]. intros H.
  unfold bind at 1. rewrite (hw_leaf_loads _ _ _ _ E), (bytes_at_id _ _ _ H), with_phys_id. done.
Qed.

Lemma settled_store s va b : settled s va = true -> user_store va b s = Ret tt (with_phys s (write8 (phys s) (paddr s va) b)).
Proof using Type.
  unfold settled, paddr, user_store, ustore8, touch, hw_touch. destruct (hw_leaf (phys s) (cr3 s) va) as [a|] eqn:E; [|done]. intros H.
  unfold bind, ret. rewrite E, (bytes_at_id _ _ _ H), with_phys_id. cbn iota. by rewrite E, (bytes_at_id _ _ _ H), with_phys_id, E.
Qed.

(** Addresses of one page are settled together. *)
Lemma settled_page s va va' : va / 4096 = va' / 4096 -> 0 <= va < 4294967296 -> 0 <= va' < 4294967296 ->
  settled s va' = settled s va /\ (settled s va = true -> paddr s va' = paddr s va + (va' - va)).
Proof using Type.
  intros Hp H1 H2. destruct (PDX_same_page va va' Hp H1 H2) as [Hd Ht]. unfold settled, paddr, hw_leaf. rewrite Hd, Ht.
  split; [done|]. repeat case_match; try done. intros _. rewrite !OFFSET_val. Z.div_mod_to_equations. lia.
Qed.
Definition on_page (va : Z) (n : nat) : bool :=
  (0 <=? va) && (va + Z.of_nat n <=? 4294967296) && (va / 4096 =? (va + Z.of_nat n - 1) / 4096).

Lemma on_page_S va n : on_page va (S n) = true -> (0 < n)%nat ->
  on_page (va + 1) n = true /\ va / 4096 = (va + 1) / 4096 /\ 0 <= va < 4294967296 /\ 0 <= va + 1 < 4294967296.
Proof using Type.
  unfold on_page. rewrite !andb_true_iff, !Z.leb_le, !Z.eqb_eq. intros ((H1 & H2) & H3) Hn.
  assert (Hq : va / 4096 = (va + 1) / 4096) by (Z.div_mod_to_equations; lia). split_and!; try lia.
  rewrite <- Hq, H3. f_equal. lia.
Qed.

Definition in_use (s : kstate) : bool := settled s text && settled s esp.

Lemma on_kernel_Ret {A} (u : K A) m a s : u m.1 = Ret a s -> on_kernel u m = Ret a (s, m.2).
Proof using Type. unfold on_kernel. by intros ->. Qed.

Lemma in_use_load m va : in_use m.1 = true -> user_step (c_load va) m = on_kernel (user_load va) m.
Proof using Type.
  intros (H1 & H2)%andb_true_iff. destruct m as [s out]. cbn in *. unfold user_step.
  rewrite (bind_Ret _ _ _ _ _ (on_kernel_Ret _ (s, out) _ _ (settled_load s text H1))).
  by rewrite (bind_Ret _ _ _ _ _ (on_kernel_Ret _ (s, out) _ _ (settled_load s esp H2))).
Qed.
Lemma in_use_store m va b : in_use m.1 = true -> user_step (c_store va b) m = on_kernel (do* user_store va b in ret 0) m.
Proof using Type.
  intros (H1 & H2)%andb_true_iff. destruct m as [s out]. cbn in *. unfold user_step.
  rewrite (bind_Ret _ _ _ _ _ (on_kernel_Ret _ (s, out) _ _ (settled_load s text H1))).
  by rewrite (bind_Ret _ _ _ _ _ (on_kernel_Ret _ (s, out) _ _ (settled_load s esp H2))).
Qed.

(** The bytes of the page are the expected ones. *)
Fixpoint all_bytes (n : nat) (m : mem) (a b : Z) : bool :=
  match n with
  | O => true
  | S k => (read8 m a =? b) && all_bytes k m (a + 1) b
  end.

Lemma check_page_ready frame : forall n buffer i j expected s out,
  in_use s = true -> settled s (buffer + j) = true -> on_page (buffer + j) n = true ->
  all_bytes n (phys s) (paddr s (buffer + j)) (Z.land expected 0xFF) = true ->
  interp user_step (check_page frame n buffer i j expected) (s, out) = Ret (Some tt) (s, out).
Proof using Type.
  induction n as [|n IH]; intros buffer i j expected s out Hu Hs Hp Hb; [done|]. cbn [check_page sys pbind interp].
  cbn [all_bytes] in Hb. apply andb_true_iff in Hb as [Hb0 Hb].
  rewrite (bind_Ret _ _ _ _ _ (eq_trans (in_use_load (s, out) _ Hu) (on_kernel_Ret _ (s, out) _ _ (settled_load s _ Hs)))), Hb0. cbn [negb fst snd].
  destruct (decide (n = 0%nat)) as [->|Hn]; [done|]. destruct (on_page_S _ _ Hp ltac:(lia)) as (Hp' & Hq & Hr & Hr').
  destruct (settled_page s _ _ Hq Hr Hr') as [E1 E2]. specialize (E2 Hs).
  apply IH; rewrite ?Z.add_assoc; try done; [by rewrite E1|]. rewrite E2. by replace (buffer + j + 1 - (buffer + j)) with 1 by lia.
Qed.

(** ** Filling a page *)

Definition far (a lo n : Z) : bool := (a + 4 <=? lo) || (lo + n <=? a).

(** The translation of [va] does not go through the bytes from [lo] on. *)
Definition steady (s : kstate) (va lo n : Z) : bool :=
  settled s va && far (PTE_ADDR (cr3 s) + 4 * PDX va) lo n &&
  match hw_leaf (phys s) (cr3 s) va with Some a => far a lo n | None => false end.

Definition poke (s : kstate) (x b : Z) : kstate := with_phys s (write8 (phys s) x b).

Lemma far_read m a lo n x b : far a lo n = true -> lo <= x < lo + n -> read32 (write8 m x b) a = read32 m a.
Proof using Type. intros H Hx. apply read32_write8_ne. unfold far, in_range in *. rewrite orb_true_iff, !Z.leb_le in H. lia. Qed.

Lemma far_bytes m a lo n x b w : far a lo n = true -> lo <= x < lo + n -> bytes_at (write8 m x b) a w = bytes_at m a w.
Proof using Type.
  intros H Hx. unfold far in H. rewrite orb_true_iff, !Z.leb_le in H. unfold bytes_at, write8. by rewrite !lookup_insert_ne by lia.
Qed.

Lemma steady_poke s va lo n x b : steady s va lo n = true -> lo <= x < lo + n ->
  steady (poke s x b) va lo n = true /\ paddr (poke s x b) va = paddr s va.
Proof using Type.
  unfold steady, paddr, settled. intros H Hx. rewrite !andb_true_iff in H. destruct H as ((Hs & Hd) & Ha).
  assert (El : hw_leaf (phys (poke s x b)) (cr3 (poke s x b)) va = hw_leaf (phys s) (cr3 s) va).
  { unfold poke, hw_leaf in *. cbn [phys cr3 with_phys] in *. rewrite (far_read _ _ lo n) by done. destruct (_ && _); [|done].
    destruct (has (read32 (phys s) (PTE_ADDR (read32 _ _) + _)) PTE_P && _) eqn:E in Ha; [|done]. by rewrite (far_read _ _ lo n), E by done. }
  rewrite El. destruct (hw_leaf (phys s) (cr3 s) va) as [a|] eqn:E; [|done]. unfold poke. cbn [phys cr3 with_phys].
  rewrite (far_read _ a lo n), (far_bytes _ a lo n) by done. split; [|done]. by rewrite Hs, Hd, Ha.
Qed.
Lemma steady_settled s va lo n : steady s va lo n = true -> settled s va = true.
Proof using Type. unfold steady. rewrite !andb_true_iff. tauto. Qed.

Lemma steady_page s va va' lo n : va / 4096 = va' / 4096 -> 0 <= va < 4294967296 -> 0 <= va' < 4294967296 ->
  steady s va' lo n = steady s va lo n.
Proof using Type.
  intros Hp H1 H2. unfold steady. rewrite (proj1 (settled_page s va va' Hp H1 H2)).
  destruct (PDX_same_page va va' Hp H1 H2) as [Hd Ht]. unfold hw_leaf. by rewrite Hd, Ht.
Qed.

Fixpoint poke_all (n : nat) (m : mem) (a b : Z) : mem :=
  match n with
  | O => m
  | S k => poke_all k (write8 m a b) (a + 1) b
  end.

Lemma fill_steady lo len : forall n va b s out,
  steady s text lo len = true -> steady s esp lo len = true -> steady s va lo len = true -> on_page va n = true ->
  lo <= paddr s va -> paddr s va + Z.of_nat n <= lo + len ->
  interp user_step (fill n va b) (s, out) = Ret (Some tt) (with_phys s (poke_all n (phys s) (paddr s va) b), out).
Proof using Type.
  induction n as [|n IH]; intros va b s out Ht He Hv Hp Hlo Hhi; cbn [fill poke_all].
  - by rewrite with_phys_id.
  - cbn [sys pbind interp]. set (x := paddr s va) in *. set (s1 := poke s x b).
    assert (E : user_step (c_store va b) (s, out) = Ret 0 (s1, out)).
    { rewrite in_use_store by (cbn; unfold in_use; by rewrite (steady_settled _ _ _ _ Ht), (steady_settled _ _ _ _ He)).
      apply (on_kernel_Ret _ (s, out)). cbn [fst]. by rewrite (bind_Ret _ _ _ _ _ (settled_store s va b (steady_settled _ _ _ _ Hv))). }
    rewrite (bind_Ret _ _ _ _ _ E). destruct (decide (n = 0%nat)) as [->|Hn]; [done|].
    destruct (on_page_S _ _ Hp ltac:(lia)) as (Hp' & Hq & Hr & Hr').
    destruct (steady_poke s text lo len x b Ht ltac:(lia)) as [Ht1 _]. destruct (steady_poke s esp lo len x b He ltac:(lia)) as [He1 _].
    destruct (steady_poke s va lo len x b Hv ltac:(lia)) as [Hv1 Hx1]. fold s1 in Ht1, He1, Hv1, Hx1.
    destruct (settled_page s1 _ _ Hq Hr Hr') as [_ Hx2]. specialize (Hx2 (steady_settled _ _ _ _ Hv1)). rewrite Hx1 in Hx2.
    fold x in Hx2. replace (x + (va + 1 - va)) with (x + 1) in Hx2 by lia.
    rewrite (IH (va + 1) b s1 out Ht1 He1); [|by rewrite (steady_page s1 va)|done|lia|lia]. by rewrite Hx2.
Qed.

Lemma poke_all_read n : forall m a b x,
  read8 (poke_all n m a b) x = (if decide (a <= x < a + Z.of_nat n) then u8 b else read8 m x).
Proof using Type.
  induction n as [|n IH]; intros m a b x; cbn [poke_all]; [by rewrite decide_False by lia|]. rewrite IH.
  destruct (decide (a + 1 <= x < a + 1 + Z.of_nat n)); [by rewrite decide_True by lia|]. rewrite read8_write8.
  repeat case_decide; try done; lia.
Qed.

Lemma steady_poke_all lo len b va n : forall s a, steady s va lo len = true -> lo <= a -> a + Z.of_nat n <= lo + len ->
  steady (with_phys s (poke_all n (phys s) a b)) va lo len = true /\ paddr (with_phys s (poke_all n (phys s) a b)) va = paddr s va.
Proof using Type.
  induction n as [|n IH]; intros s a Hs Hlo Hhi; cbn [poke_all]; [by rewrite with_phys_id|].
  destruct (steady_poke s va lo len a b Hs ltac:(lia)) as [H1 H2].
  destruct (IH (poke s a b) (a + 1) H1 ltac:(lia) ltac:(lia)) as [H3 H4]. split; [exact H3|]. rewrite <- H2, <- H4. reflexivity.
Qed.

Lemma all_bytes_true n : forall m a b, (forall x, a <= x < a + Z.of_nat n -> read8 m x = b) -> all_bytes n m a b = true.
Proof using Type.
  induction n as [|n IH]; intros m a b H; cbn [all_bytes]; [done|]. rewrite (H a) by lia. rewrite Z.eqb_refl. apply IH.
  intros x Hx. apply H. lia.
Qed.

(** After the loop of the testers that fills a page, or a part of it, the loop that
    checks a page finds what it expects; both end, and no other byte of memory
    changes. *)
Theorem fill_then_check frame n va b i s out :
  let lo := paddr s va in
  steady s text lo (Z.of_nat n) = true -> steady s esp lo (Z.of_nat n) = true -> steady s va lo (Z.of_nat n) = true ->
  on_page va n = true ->
  exists s', interp user_step (fill n va b) (s, out) = Ret (Some tt) (s', out) /\
    interp user_step (check_page frame n va i 0 b) (s', out) = Ret (Some tt) (s', out) /\
    forall x, x < lo \/ lo + Z.of_nat n <= x -> read8 (phys s') x = read8 (phys s) x.
Proof using Type.
  intros lo Ht He Hv Hp. eexists. split; [apply (fill_steady lo (Z.of_nat n)); try done; unfold lo; lia|]. fold lo.
  set (s' := with_phys s _).
  destruct (steady_poke_all lo (Z.of_nat n) b text n s lo Ht) as [Ht' _]; [lia..|].
  destruct (steady_poke_all lo (Z.of_nat n) b esp n s lo He) as [He' _]; [lia..|].
  destruct (steady_poke_all lo (Z.of_nat n) b va n s lo Hv) as [Hv' Ev]; [lia..|]. fold s' in Ht', He', Hv', Ev. split.
  - apply check_page_ready; rewrite ?Z.add_0_r.
    + unfold in_use. by rewrite (steady_settled _ _ _ _ Ht'), (steady_settled _ _ _ _ He').
    + exact (steady_settled _ _ _ _ Hv').
    + done.
    + rewrite Ev. fold lo. change (phys s') with (poke_all n (phys s) lo b). apply all_bytes_true. intros x Hx.
      rewrite poke_all_read, decide_True by lia. change 255 with (Z.ones 8). by rewrite Z.land_ones by lia.
  - intros x Hx. change (phys s') with (poke_all n (phys s) lo b). rewrite poke_all_read, decide_False by lia. done.
Qed.
End Process.

(** Three pages in use: code, stack and data. *)
Definition used_mem : mem :=
  write32 (write32 (write32 (write32 ∅ 0x200000 0x201067) 0x201000 0x202067) 0x201004 0x203067) 0x201008 0x204067.
Definition used_state : kstate := with_phys ex_state used_mem.
Definition no_files : FsOps := {|
  filedup f := ret f; idup ip := ret ip; fileclose _ := ret tt; iput _ := ret tt; namei_root := ret 0;
  begin_op := ret tt; end_op := ret tt; iinit _ := ret tt; initlog _ := ret tt;
  filedup_law _ _ := eq_refl; idup_law _ _ := eq_refl
|}.
Definition no_calls : SysOps := {| sys_file _ := ret (Some (-1)); ideintr := ret tt; kbdintr := ret tt; uartintr := ret tt |}.

Lemma fill_then_check_witness : exists s',
  interp (@user_step ex_platform no_files no_calls 0 0 0x1800 0x80205F00) (fill 4096 0x2000 0xAA) (used_state, []) = Ret (Some tt) (s', []).
Proof.
  destruct (@fill_then_check ex_platform no_files no_calls 0 0 0x1800 0x80205F00 0x1900 4096 0x2000 0xAA 0 used_state []) as (s' & E & _).
  - vm_compute. reflexivity.
  - vm_compute. reflexivity.
  - vm_compute. reflexivity.
  - vm_compute. reflexivity.
  - exists s'. exact E.
Defined.
